(* ===== verification/_CoqProject ===== *)
-Q . S2P
Prelude.v
Ring.v
Machine.v
Mem.v
Kalloc.v
Spin.v
Sleeplock.v
Bio.v
Store.v
Log.v
LogTxn.v
LogSpace.v
CString.v
Printf.v
FsDisk.v
Fs.v
Demo.v
FsAlloc.v
FsFile.v
FsWrite.v
FsPath.v
FsDir.v
FsTrunc.v
Vm.v
VmTable.v
VmCopy.v
VmMap.v
VmSpace.v
Asm.v
Kernel.v
Sched.v
File.v
DemoKernel.v
KernelWp.v
PipeFifo.v
Proc.v
ProcTree.v
Console.v
ConsoleLine.v
UartFifo.v
Virtio.v
VirtioSafe.v
Exec.v
Sysfile.v
Syscall.v
Trap.v
Boot.v
Keeps.v
TrapSafe.v
ExecAtomic.v
Scenarios.v
User.v
Grep.v
TextTools.v
Umalloc.v
Sh.v
ShParse.v
ShRun.v
Programs.v
