(* ===== verification/Prelude.v ===== *)
(** * A verification development for fyp_os, an xv6 kernel for RISC-V with its user programs

    ** The program

    The kernel (src/kernel) runs user processes on several CPUs.  From the bottom up:
    physical pages (kalloc.c) and page tables (vm.c); spin locks, sleep locks and the
    scheduler (spinlock.c, sleeplock.c, proc.c); the disk driver (virtio_disk.c), the
    buffer cache on it (bio.c), the write-ahead log on that (log.c) and the file
    system on the log (fs.c); open files and pipes (file.c, pipe.c), the console and
    its UART (console.c, uart.c); processes (proc.c), programs (exec.c), system calls
    (syscall.c, sysproc.c, sysfile.c) and traps (trap.c, plic.c).  The user programs
    (src/user) call the kernel through system calls: the library (ulib.c, printf.c,
    umalloc.c), init (init.c), the shell (sh.c), the text tools (grep.c, wc.c, cat.c,
    echo.c) and small programs such as cp.c and ls.c.  Below the C code is the assembly
    that enters and leaves the kernel (trampoline.S, kernelvec.S), switches threads
    (swtch.S) and starts each hart (entry.S, then start.c and main.c).

    ** How code is modelled

    This file has what all others share.  A piece of kernel code is a computation
    [M S A]: a function from a [world S] - the spin locks held, the trace of wakeups
    and disk transfers, and the component's state [S], a record with the fields of the
    C structures - to a result: a value and a world ([Ret]), a call of panic()
    ([Panic]), a sleep() that nothing in the model ends ([Blocked]), or a loop that ran
    out of its bound ([NoFuel]).  acquire() and release() panic as in spinlock.c when
    misused.  A component that contains another runs the other's code through a
    [Lens] ([zoom]).  [wp m Q w] says that [m] returns from [w] in a state satisfying
    [Q], so a theorem stated with [wp] excludes panics, deadlocks and loops that do not
    end; [wlp] leaves these possible.  Machine integers are Z with their wrap-around
    written out ([u32], [s32], [u64]); bytes are Z; structures on disk, in page tables
    and in user memory are their bytes in little-endian order.  Loops are [iter] or a
    structural recursion on a bound that comes from the data (the size of a table, the
    length of an input, the number of pages); the theorems show that the bound is
    enough wherever they claim a result.  Where code of several CPUs or processes
    interleaves, each statement or each piece between two points where the CPU
    can be lost is a turn of a step relation, and theorems hold for every sequence of turns.

    ** The files

    - Ring.v, Machine.v, Mem.v, CString.v: ring buffers, constants and address
      arithmetic, memory with the memory functions of string.c and ulib.c, C strings.
    - Asm.v: a RISC-V hart - registers, control registers, privilege mode, memory - with the
      instructions the sources use, and swtch.S, trampoline.S, kernelvec.S and entry.S as lists
      of instructions; Boot.v (start.c, main.c, kvminithart() of vm.c, uartinit() of uart.c,
      plicinit() and plicinithart() of plic.c).
    - Kalloc.v (kalloc.c); Vm.v, VmTable.v, VmCopy.v, VmMap.v, VmSpace.v (vm.c: page
      tables as trees, copying to and from user memory, mapping and unmapping
      pages, and what growing, copying and freeing do to an address space).
    - Spin.v (spinlock.c, interleaved memory accesses), Sleeplock.v (sleeplock.c),
      Sched.v (scheduler, sleep, wakeup, kill and exit of proc.c on several CPUs).
    - Virtio.v, VirtioSafe.v (virtio_disk.c, with the device of the virtio
      specification); Bio.v (bio.c); Log.v, LogTxn.v, LogSpace.v (log.c).
    - Store.v: the class [BlockStore], the operations and laws that log.c and bio.c promise
      to fs.c; its instance is in LogTxn.v.
    - FsDisk.v, Fs.v, FsAlloc.v, FsFile.v, FsWrite.v, FsPath.v, FsDir.v, FsTrunc.v (fs.c:
      layout, all functions, the block allocator, file contents, writing, the inode table and path
      lookup, directories, giving files back); Demo.v is a small disk for the witnesses.
    - Kernel.v: the kernel's tables as one state; File.v, PipeFifo.v (file.c, pipe.c);
      Proc.v, ProcTree.v, KernelWp.v (proc.c); Exec.v, ExecAtomic.v (exec.c); Sysfile.v,
      Syscall.v (system calls); Trap.v, TrapSafe.v (trap.c, plic.c); Console.v,
      ConsoleLine.v, UartFifo.v (console.c, uart.c); DemoKernel.v is a small running
      kernel and Scenarios.v evaluates sequences of system calls on it; Keeps.v proves
      what code leaves alone.
    - Printf.v (kernel/printf.c and user/printf.c); User.v (read and write as a program
      sees them), TextTools.v (cat.c, wc.c, echo.c, gets() of ulib.c), Grep.v (grep.c),
      Umalloc.v (umalloc.c), Sh.v, ShParse.v, ShRun.v (sh.c: the parser, its language,
      and runcmd()), Programs.v (cp.c, ls.c, rm.c, ln.c, mkdir.c, kill.c, rename.c,
      diskspace.c, fileinfo.c, init.c, zombie.c, stat() of ulib.c and the main() of the text
      tools, over system calls that may answer anything).

    ** What is shown

    - Disk: a transaction is atomic whatever the point of a crash, also during
      recovery; the buffer cache refines a cache of current, exclusively held blocks; the
      log never overflows when the disk has more than LOGSIZE log blocks, and does when
      it has just LOGSIZE; the driver never shares or loses a descriptor.
    - Files: the allocator marks and unmarks exactly the right block; writei() and
      readi() write and read exactly the bytes of the file; path lookup finds what the
      directories say and loses no reference; dirlink() and dirunlink() add and remove
      one name and leave all other names and files alone; the last iput() of a file without
      links gives back all of its blocks and nothing else; pipes and the UART are
      first-in first-out; the console is a line-editing terminal.
    - Memory: no page is handed out twice; copyout(), copyin() and copyinstr() touch
      exactly the bytes the page table allows; uvmalloc(), uvmcopy() and uvmfree() give a
      process zeroed memory, give a child its parent's bytes in pages of its own, and
      give every page back, also when memory runs out on the way; memmove() is right
      for every overlap.
    - Processes: spin locks exclude; no process runs on two CPUs; no wakeup is lost;
      process identifiers are unique and everyone has a parent; kill(), exec() and the
      return to user space do what they should, on the error paths too.
    - Machine: a user program does not notice a trap, a thread a switch, nor kernel code
      an interrupt, except by what the C code between did to the saved registers; start()
      leaves a hart on which the timer interrupts for ever; no hart uses a table before hart 0
      has made all of them.
    - User programs: the shell parses its language and sets up the processes
      and descriptors a command means; malloc() and free() never hand out overlapping
      memory; grep's matcher decides its regular expressions; wc counts; cp writes what it
      reads and stops at the first failure; init restarts the shell; the two printf()
      agree, and printint() prints every int.

    The witnesses evaluate the same definitions on concrete states.

    ** Parameters

    What the sources take from outside is an argument with stated assumptions: the end of
    the kernel image and the addresses of the trampoline and of forkret (from the linker),
    what devices answer when their registers are read, whether the kernel grants
    memory to sbrk(), how many bytes a read() or a write() of a user program moves, and the
    answers to the system calls of the programs in Programs.v.

    ** Not modelled

    - the calls of main() are steps with their order in Boot.v; what each of them does
      is the definition of its component, which starts from the state its C code sets
      up.  kvminit(), printfinit() and the lock of consoleinit() only fill in global variables.
    - the C code between uservec and userret, and between the two halves of kernelvec, is
      that of Trap.v on its own state: Asm.v states what it needs of it (the saved registers
      left alone) as a hypothesis on the machine.
    - kernel.ld, user.ld and defs.h have no behaviour; usys.pl generates the system call
      stubs; the bytes of initcode.S are those in proc.c.
    - the kernel functions of proc.c run here one process at a time except where Sched.v,
      Spin.v, PipeFifo.v, UartFifo.v, VirtioSafe.v and LogSpace.v interleave them: a sleep()
      that must be ended by another process is the outcome [Blocked].
    - ramdisk.c is not compiled into the kernel; usertests.c, grind.c, forktest.c and
      stressfs.c are tests. *)

From Stdlib Require Export ZArith Lia.
From Stdlib Require Ascii.
From stdpp Require Export base gmap list strings numbers.

Open Scope Z_scope.

(** ** Machine integers

    C's unsigned types are [Z] reduced modulo their width after every operation
    that can leave the range; [s32] and [s16] reinterpret a bit pattern as a
    signed value. *)

Definition u8 (z : Z) : Z := z mod 2 ^ 8.
Definition u16 (z : Z) : Z := z mod 2 ^ 16.
Definition u32 (z : Z) : Z := z mod 2 ^ 32.
Definition u64 (z : Z) : Z := z mod 2 ^ 64.
Definition s16 (z : Z) : Z := (z + 2 ^ 15) mod 2 ^ 16 - 2 ^ 15.
Definition s32 (z : Z) : Z := (z + 2 ^ 31) mod 2 ^ 32 - 2 ^ 31.

Lemma u8_small z : 0 <= z < 256 -> u8 z = z.
Proof. intros. unfold u8. apply Z.mod_small. lia. Qed.
Lemma u16_small z : 0 <= z < 65536 -> u16 z = z.
Proof. intros. unfold u16. apply Z.mod_small. lia. Qed.
Lemma u32_small z : 0 <= z < 2 ^ 32 -> u32 z = z.
Proof. intros. unfold u32. apply Z.mod_small. lia. Qed.
Lemma u64_small z : 0 <= z < 2 ^ 64 -> u64 z = z.
Proof. intros. unfold u64. apply Z.mod_small. lia. Qed.
Lemma u8_range z : 0 <= u8 z < 256.
Proof. unfold u8. apply Z.mod_pos_bound. lia. Qed.
Lemma u32_range z : 0 <= u32 z < 2 ^ 32.
Proof. unfold u32. apply Z.mod_pos_bound. lia. Qed.
Lemma u64_range z : 0 <= u64 z < 2 ^ 64.
Proof. unfold u64. apply Z.mod_pos_bound. lia. Qed.
Lemma s32_small z : - 2 ^ 31 <= z < 2 ^ 31 -> s32 z = z.
Proof. intros. unfold s32. rewrite Z.mod_small; lia. Qed.
Lemma s16_small z : - 2 ^ 15 <= z < 2 ^ 15 -> s16 z = z.
Proof. intros. unfold s16. rewrite Z.mod_small; lia. Qed.

(** A byte is a [Z] between 0 and 255; the predicate is decidable so witnesses
    can evaluate it. *)

Definition is_byte (z : Z) : Prop := 0 <= z < 256.
#[export] Instance is_byte_dec z : Decision (is_byte z).
Proof. unfold is_byte. apply _. Defined.

(** ** Little-endian encoding of integers in byte sequences *)

Fixpoint le_bytes (n : nat) (v : Z) : list Z :=
  match n with
  | O => []
  | S n' => (v mod 256) :: le_bytes n' (v / 256)
  end.

Fixpoint le_val (bs : list Z) : Z :=
  match bs with
  | [] => 0
  | b :: t => b + 256 * le_val t
  end.

Lemma length_le_bytes n v : length (le_bytes n v) = n.
Proof. revert v. induction n; intros; simpl; auto. Qed.

Lemma le_bytes_byte n v : Forall is_byte (le_bytes n v).
Proof.
  revert v. induction n as [|n IH]; intros v; simpl; constructor; [|apply IH].
  unfold is_byte. apply Z.mod_pos_bound. lia.
Qed.

Lemma le_val_bytes n v : le_val (le_bytes n v) = v mod 256 ^ Z.of_nat n.
Proof.
  revert v. induction n as [|n IH]; intros v.
  - simpl. by rewrite Z.mod_1_r.
  - cbn [le_bytes le_val]. rewrite IH, Nat2Z.inj_succ, Z.pow_succ_r by lia.
    rewrite Z.rem_mul_r by lia. lia.
Qed.

Lemma le_val_bytes_small n v :
  0 <= v < 256 ^ Z.of_nat n -> le_val (le_bytes n v) = v.
Proof. intros. rewrite le_val_bytes. by apply Z.mod_small. Qed.

Lemma le_val_range bs :
  Forall is_byte bs -> 0 <= le_val bs < 256 ^ Z.of_nat (length bs).
Proof.
  induction 1 as [|b t Hb _ IH]; cbn [le_val length]; [lia|].
  rewrite Nat2Z.inj_succ, Z.pow_succ_r by lia. unfold is_byte in Hb. lia.
Qed.

Lemma le_bytes_val bs :
  Forall is_byte bs -> le_bytes (length bs) (le_val bs) = bs.
Proof.
  induction 1 as [|b t Hb Ht IH]; cbn [le_val length le_bytes]; [done|].
  unfold is_byte in Hb. pose proof (le_val_range _ Ht).
  replace ((b + 256 * le_val t) mod 256) with b
    by (rewrite (Z.mul_comm 256), Z.mod_add, Z.mod_small by lia; done).
  replace ((b + 256 * le_val t) / 256) with (le_val t)
    by (rewrite (Z.mul_comm 256), Z.div_add, Z.div_small by lia; done).
  by rewrite IH.
Qed.

(** ** Overwriting a range of a byte sequence, and reading one

    [splice off bs l] is what [memmove(p + off, bs, len)] leaves in the array
    [p]; [slice off n l] is the [n] bytes at [p + off].  Offsets are [nat], as
    for list lookups. *)

Definition slice {A} (off n : nat) (l : list A) : list A := take n (drop off l).

Definition splice {A} (off : nat) (bs l : list A) : list A :=
  take off l ++ bs ++ drop (off + length bs) l.

Section Splice.
Context {A : Type}.
Implicit Types l bs : list A.

Lemma length_splice off bs l :
  (off + length bs <= length l)%nat -> length (splice off bs l) = length l.
Proof.
  intros H. unfold splice. rewrite !length_app, length_take, length_drop. lia.
Qed.

Lemma length_slice off n l :
  (off + n <= length l)%nat -> length (slice off n l) = n.
Proof. intros. unfold slice. rewrite length_take, length_drop. lia. Qed.

Lemma lookup_splice_in off bs l i :
  (off + length bs <= length l)%nat -> (off <= i < off + length bs)%nat ->
  splice off bs l !! i = bs !! (i - off)%nat.
Proof.
  intros Hl Hi. unfold splice.
  rewrite lookup_app_r by (rewrite length_take; lia).
  rewrite length_take, Nat.min_l by lia. by rewrite lookup_app_l by lia.
Qed.

Lemma lookup_splice_out off bs l i :
  (off + length bs <= length l)%nat -> (i < off \/ off + length bs <= i)%nat ->
  splice off bs l !! i = l !! i.
Proof.
  intros Hl [Hi|Hi]; unfold splice.
  - rewrite lookup_app_l by (rewrite length_take; lia).
    by rewrite lookup_take_lt by lia.
  - rewrite lookup_app_r by (rewrite length_take; lia).
    rewrite length_take, Nat.min_l by lia.
    rewrite lookup_app_r by lia. rewrite lookup_drop. f_equal. lia.
Qed.

Lemma lookup_slice off n l i :
  (i < n)%nat -> slice off n l !! i = l !! (off + i)%nat.
Proof. intros. unfold slice. by rewrite lookup_take_lt, lookup_drop by lia. Qed.

Lemma slice_splice_same off bs l :
  (off + length bs <= length l)%nat -> slice off (length bs) (splice off bs l) = bs.
Proof.
  intros H. apply list_eq. intros i. destruct (decide (i < length bs)%nat).
  - rewrite lookup_slice, lookup_splice_in by lia. f_equal. lia.
  - rewrite !lookup_ge_None_2; [done|lia|].
    rewrite length_slice; [lia|]. rewrite length_splice by lia. lia.
Qed.

Lemma slice_splice_disj o n off bs l :
  (off + length bs <= length l)%nat -> (o + n <= length l)%nat ->
  (o + n <= off \/ off + length bs <= o)%nat ->
  slice o n (splice off bs l) = slice o n l.
Proof.
  intros Hl Hn Hd. apply list_eq. intros i. destruct (decide (i < n)%nat).
  - rewrite !lookup_slice, lookup_splice_out by lia. done.
  - rewrite !lookup_ge_None_2; try done; rewrite length_slice; try lia.
    rewrite length_splice; lia.
Qed.

(** Reading part of what was overwritten. *)
Lemma slice_splice_inner o n off bs l :
  (off + length bs <= length l)%nat -> (off <= o)%nat -> (o + n <= off + length bs)%nat ->
  slice o n (splice off bs l) = slice (o - off) n bs.
Proof.
  intros Hl Ho Hn. apply list_eq. intros i. destruct (decide (i < n)%nat).
  - rewrite !lookup_slice, lookup_splice_in by lia. f_equal. lia.
  - rewrite !lookup_ge_None_2; try done; rewrite length_slice; try lia.
    rewrite length_splice; lia.
Qed.

Lemma splice_slice_id off n l :
  (off + n <= length l)%nat -> splice off (slice off n l) l = l.
Proof.
  intros H. pose proof (length_slice off n l H) as Hs.
  apply list_eq. intros i. destruct (decide (off <= i < off + n)%nat).
  - rewrite lookup_splice_in, lookup_slice by lia. f_equal. lia.
  - rewrite lookup_splice_out; [done|lia|lia].
Qed.

Lemma slice_slice o n off m l :
  (o + n <= m)%nat -> slice o n (slice off m l) = slice (off + o) n l.
Proof.
  intros H. apply list_eq. intros i. destruct (decide (i < n)%nat).
  - rewrite !lookup_slice by lia. f_equal. lia.
  - rewrite !lookup_ge_None_2; try done; unfold slice; rewrite length_take; lia.
Qed.

(** Overwriting past the end extends the sequence. *)
Lemma lookup_splice_extend off bs l i :
  (off <= length l)%nat ->
  splice off bs l !! i = if decide (off <= i < off + length bs)%nat then bs !! (i - off)%nat else l !! i.
Proof.
  intros Hl. unfold splice. destruct (decide (i < off)%nat) as [Hi|Hi].
  - rewrite decide_False by lia. rewrite lookup_app_l by (rewrite length_take; lia). by rewrite lookup_take_lt.
  - rewrite lookup_app_r by (rewrite length_take; lia). rewrite length_take, Nat.min_l by lia. case_decide.
    + by rewrite lookup_app_l by lia.
    + rewrite lookup_app_r by lia. rewrite lookup_drop. f_equal. lia.
Qed.

Lemma Forall_splice (P : A -> Prop) off bs l :
  Forall P bs -> Forall P l -> Forall P (splice off bs l).
Proof.
  intros. unfold splice. repeat apply Forall_app_2; auto using Forall_take, Forall_drop.
Qed.

Lemma Forall_slice (P : A -> Prop) off n l : Forall P l -> Forall P (slice off n l).
Proof. intros. unfold slice. auto using Forall_take, Forall_drop. Qed.
End Splice.

(** ** Lists *)

Lemma filter_all {A} (P : A -> Prop) `{forall x, Decision (P x)} (l : list A) :
  Forall P l -> filter P l = l.
Proof.
  induction 1 as [|x l Hx _ IH]; [done|]. rewrite filter_cons_True by done. by rewrite IH.
Qed.

Lemma filter_ext_elem {A} (P Q : A -> Prop) `{forall x, Decision (P x)} `{forall x, Decision (Q x)} (l : list A) :
  (forall x, x ∈ l -> P x <-> Q x) -> filter P l = filter Q l.
Proof.
  induction l as [|x l IH]; intros Hext; [done|]. rewrite !filter_cons.
  assert (P x <-> Q x) as Hx by (apply Hext; by left). rewrite IH by (intros y Hy; apply Hext; by right).
  destruct (decide (P x)), (decide (Q x)); tauto.
Qed.

(** ** Outcomes of kernel code

    [Panic] is a call of panic() with its message; [Blocked c] is a call of
    sleep() on channel [c] that nothing in the model wakes; [NoFuel] is an
    exhausted loop bound, which the theorems exclude. *)

Inductive chan :=
  | ChLog | ChBufLock (i : nat) | ChInodeLock (i : nat)
  | ChPipeRead (p : Z) | ChPipeWrite (p : Z) | ChProc (i : nat)
  | ChTicks | ChCons | ChUart | ChDiskFree | ChBuf (i : nat).

Inductive lock :=
  | LKmem | LBcache | LLog | LItable | LFtable | LPipe (p : Z)
  | LBufLk (i : nat) | LInodeLk (i : nat)
  | LProc (i : nat) | LWait | LPid | LTicks | LCons | LUart | LDisk.

#[export] Instance chan_eq_dec : EqDecision chan.
Proof. solve_decision. Defined.
#[export] Instance lock_eq_dec : EqDecision lock.
Proof. solve_decision. Defined.

Inductive res (A : Type) : Type :=
  | Ret (a : A)
  | Panic (msg : string)
  | Blocked (c : chan)
  | NoFuel.
Arguments Ret {A} a.
Arguments Panic {A} msg%_string_scope.
Arguments Blocked {A} c.
Arguments NoFuel {A}.

(** What leaves the kernel: blocks written to the disk, characters sent to the
    console, and wakeups of processes sleeping on a channel. *)

Inductive event :=
  | EDisk (bno : Z) (data : list Z)
  | EPutc (c : Z)
  | EWakeup (c : chan).

(** ** The kernel monad

    A computation over component state [S] also carries the spin locks this CPU
    holds and the trace of events so far. *)

Record world (S : Type) := World {
  held : list lock;
  trace : list event;
  user : S
}.
Arguments World {S} held trace user.
Arguments held {S} w.
Arguments trace {S} w.
Arguments user {S} w.

Definition M (S A : Type) : Type := world S -> res (A * world S).

Definition ret {S A} (a : A) : M S A := fun w => Ret (a, w).

Definition bind {S A B} (m : M S A) (k : A -> M S B) : M S B := fun w =>
  match m w with
  | Ret (a, w') => k a w'
  | Panic s => Panic s
  | Blocked c => Blocked c
  | NoFuel => NoFuel
  end.

Declare Scope kernel_scope.
Delimit Scope kernel_scope with kernel.
Open Scope kernel_scope.

Notation "'let*' x ':=' m 'in' k" := (bind m (fun x => k))
  (at level 10, x name, m at level 100, k at level 200) : kernel_scope.
Notation "'let*' ' p ':=' m 'in' k" := (bind m (fun x => match x with p => k end))
  (at level 10, p pattern, m at level 100, k at level 200) : kernel_scope.
Notation "m ;; k" := (bind m (fun _ => k))
  (at level 100, right associativity) : kernel_scope.

Definition panic {S A} (msg : string) : M S A := fun _ => Panic msg.
Arguments panic {S A} msg%_string_scope.
Definition get {S} : M S S := fun w => Ret (user w, w).
Definition gets {S A} (f : S -> A) : M S A := fun w => Ret (f (user w), w).
Definition put {S} (s : S) : M S unit := fun w => Ret (tt, World (held w) (trace w) s).
Definition modify {S} (f : S -> S) : M S unit := fun w =>
  Ret (tt, World (held w) (trace w) (f (user w))).
Definition emit {S} (e : event) : M S unit := fun w =>
  Ret (tt, World (held w) (trace w ++ [e]) (user w)).

(** The result of an operation on an array element or pointer that must exist. *)
Definition the {S A} (o : option A) : M S A :=
  match o with Some a => ret a | None => panic "wild pointer" end.

(** [iter fuel body a] runs [body] until it answers [inr]: a C loop with its
    loop variables in [a]. *)
Fixpoint iter {S A B} (fuel : nat) (body : A -> M S (A + B)) (a : A) : M S B :=
  match fuel with
  | O => fun _ => NoFuel
  | S n => let* r := body a in
           match r with inl a' => iter n body a' | inr b => ret b end
  end.

(** A loop over the elements of a list, in order. *)
Fixpoint for_each {S A} (l : list A) (body : A -> M S unit) : M S unit :=
  match l with
  | [] => ret tt
  | a :: l' => body a ;; for_each l' body
  end.

(** ** Spin locks as seen by one CPU's sequential code

    acquire() panics when this CPU already holds the lock and release() when it
    does not; between the two no other CPU interferes.  sleep() goes through
    sched(), which panics unless exactly the one lock is held. *)

Definition acquire {S} (l : lock) : M S unit := fun w =>
  if decide (l ∈ held w) then Panic "acquire"
  else Ret (tt, World (l :: held w) (trace w) (user w)).

Fixpoint remove_lock (l : lock) (h : list lock) : list lock :=
  match h with
  | [] => []
  | x :: t => if decide (x = l) then t else x :: remove_lock l t
  end.

Definition release {S} (l : lock) : M S unit := fun w =>
  if decide (l ∈ held w) then Ret (tt, World (remove_lock l (held w)) (trace w) (user w))
  else Panic "release".

(** initlock() leaves the lock free. *)
Definition initlock {S} (l : lock) : M S unit := fun w =>
  Ret (tt, World (remove_lock l (held w)) (trace w) (user w)).

Definition sleep {S A} (c : chan) (lk : lock) : M S A := fun w =>
  if decide (held w = [lk]) then Blocked c else Panic "sched locks".

Definition wakeup {S} (c : chan) : M S unit := emit (EWakeup c).

(** printf() of a constant string. *)
Fixpoint kputs {S} (s : string) : M S unit :=
  match s with
  | EmptyString => ret tt
  | String c t => emit (EPutc (Z.of_N (Ascii.N_of_ascii c))) ;; kputs t
  end.
Arguments kputs {S} s%_string_scope.

(** ... ending in a newline. *)
Definition kputs_ln {S} (s : string) : M S unit := kputs s ;; emit (EPutc 10).
Arguments kputs_ln {S} s%_string_scope.

(** ** Running a computation on a part of a larger state *)

Class Lens (S T : Type) := { lget : S -> T; lput : T -> S -> S }.

Definition zoom {S T A} `{Lens S T} (m : M T A) : M S A := fun w =>
  match m (World (held w) (trace w) (lget (user w))) with
  | Ret (a, w') => Ret (a, World (held w') (trace w') (lput (user w') (user w)))
  | Panic s => Panic s
  | Blocked c => Blocked c
  | NoFuel => NoFuel
  end.

(** ** Weakest preconditions: total correctness

    [wp m Q w]: from [w], [m] returns normally and [Q] holds of the result. *)

Definition wp {S A} (m : M S A) (Q : A -> world S -> Prop) (w : world S) : Prop :=
  match m w with Ret (a, w') => Q a w' | _ => False end.

Section Wp.
Context {S : Type}.

Lemma wp_ret {A} (a : A) (Q : A -> world S -> Prop) w : Q a w -> wp (ret a) Q w.
Proof. done. Qed.

Lemma wp_bind {A B} (m : M S A) (k : A -> M S B) Q w :
  wp m (fun a w' => wp (k a) Q w') w -> wp (bind m k) Q w.
Proof. unfold wp, bind. by destruct (m w) as [[a w']| | |]. Qed.

Lemma wp_mono {A} (m : M S A) (P Q : A -> world S -> Prop) w :
  wp m P w -> (forall a w', P a w' -> Q a w') -> wp m Q w.
Proof. unfold wp. destruct (m w) as [[a w']| | |]; auto. Qed.

Lemma wp_get (Q : S -> world S -> Prop) w : Q (user w) w -> wp get Q w.
Proof. done. Qed.
Lemma wp_gets {A} (f : S -> A) Q w : Q (f (user w)) w -> wp (gets f) Q w.
Proof. done. Qed.
Lemma wp_put s Q (w : world S) : Q tt (World (held w) (trace w) s) -> wp (put s) Q w.
Proof. done. Qed.
Lemma wp_modify f Q (w : world S) :
  Q tt (World (held w) (trace w) (f (user w))) -> wp (modify f) Q w.
Proof. done. Qed.
Lemma wp_emit e Q (w : world S) :
  Q tt (World (held w) (trace w ++ [e]) (user w)) -> wp (emit e) Q w.
Proof. done. Qed.
Lemma wp_the {A} (o : option A) a Q (w : world S) :
  o = Some a -> Q a w -> wp (the o) Q w.
Proof. intros ->. done. Qed.

Lemma wp_acquire l Q (w : world S) :
  l ∉ held w -> Q tt (World (l :: held w) (trace w) (user w)) -> wp (acquire l) Q w.
Proof. intros Hl HQ. unfold wp, acquire. by rewrite decide_False. Qed.

Lemma wp_release l h Q (w : world S) :
  held w = l :: h -> Q tt (World h (trace w) (user w)) -> wp (release l) Q w.
Proof.
  intros Hl HQ. unfold wp, release. rewrite Hl, decide_True by (constructor).
  simpl. by rewrite decide_True.
Qed.

(** From a weakest precondition back to an equation about the run. *)
Lemma wp_run {A} (m : M S A) Q w :
  wp m Q w -> exists a w', m w = Ret (a, w') /\ Q a w'.
Proof. unfold wp. destruct (m w) as [[a w']| | |]; try done. eauto. Qed.

Lemma wp_of_run {A} (m : M S A) (Q : A -> world S -> Prop) w a w' :
  m w = Ret (a, w') -> Q a w' -> wp m Q w.
Proof. unfold wp. by intros ->. Qed.
End Wp.

(** A loop over indices, with what holds before each turn. *)
Lemma wp_for_seq {S} (I : nat -> world S -> Prop) i n body (Q : unit -> world S -> Prop) w :
  I i w -> (forall j w, (i <= j < i + n)%nat -> I j w -> wp (body j) (fun _ => I (Datatypes.S j)) w) ->
  (forall w, I (i + n)%nat w -> Q tt w) -> wp (for_each (seq i n) body) Q w.
Proof.
  revert i w. induction n as [|n IH]; intros i w HI Hbody HQ; cbn [seq for_each].
  - rewrite Nat.add_0_r in HQ. by apply HQ.
  - apply wp_bind. eapply wp_mono; [apply Hbody; [lia|done]|]. intros u w' HI'.
    apply IH; [exact HI'| |]; [intros j w'' Hj; apply Hbody; lia|]. intros w''.
    replace (Datatypes.S i + n)%nat with (i + Datatypes.S n)%nat by lia. apply HQ.
Qed.

(** A loop whose variant [v] decreases with every turn. *)
Lemma wp_iter {S A B} (v : A -> world S -> nat) (I : A -> world S -> Prop) fuel (body : A -> M S (A + B)) a
    (Q : B -> world S -> Prop) w :
  I a w -> (v a w < fuel)%nat ->
  (forall a w, I a w -> wp (body a) (fun r w' => match r with
                                                 | inl a' => I a' w' /\ (v a' w' < v a w)%nat
                                                 | inr b => Q b w'
                                                 end) w) ->
  wp (iter fuel body a) Q w.
Proof.
  intros HI Hv Hbody. revert a w HI Hv. induction fuel as [|n IH]; intros a w HI Hv; [lia|]. cbn [iter].
  apply wp_bind. eapply wp_mono; [by apply Hbody|]. intros [a'|b] w' H; [|done]. destruct H. apply IH; [done|lia].
Qed.

Lemma wp_zoom {S T A} `{Lens S T} (m : M T A) Q (w : world S) :
  wp m (fun a w' => Q a (World (held w') (trace w') (lput (user w') (user w))))
     (World (held w) (trace w) (lget (user w))) ->
  wp (zoom m) Q w.
Proof. unfold wp, zoom. by destruct (m _) as [[a w']| | |]. Qed.

(** [panics m msg w]: from [w], [m] stops the kernel with [msg]. *)
Definition panics {S A} (m : M S A) (msg : string) (w : world S) : Prop := m w = Panic msg.

Lemma panics_bind {S A B} (m : M S A) (k : A -> M S B) msg w :
  wp m (fun a w' => panics (k a) msg w') w -> panics (bind m k) msg w.
Proof. unfold wp, panics, bind. by destruct (m w) as [[a w']| | |]. Qed.

Lemma panics_here {S A B} (m : M S A) (k : A -> M S B) msg w :
  panics m msg w -> panics (bind m k) msg w.
Proof. unfold panics, bind. by intros ->. Qed.

Lemma bind_run {S A B} (m : M S A) (k : A -> M S B) w b w' :
  bind m k w = Ret (b, w') -> exists a w1, m w = Ret (a, w1) /\ k a w1 = Ret (b, w').
Proof. unfold bind. destruct (m w) as [[a w1]| | |]; try done. eauto. Qed.

(** [wlp m Q w]: whenever [m] returns from [w], [Q] holds of the result.  It is
    used for what every run leaves unchanged, never for what a run achieves. *)
Definition wlp {S A} (m : M S A) (Q : A -> world S -> Prop) (w : world S) : Prop :=
  match m w with Ret (a, w') => Q a w' | _ => True end.

Section Wlp.
Context {S : Type}.

Lemma wlp_run {A} (m : M S A) (Q : A -> world S -> Prop) w a w' :
  wlp m Q w -> m w = Ret (a, w') -> Q a w'.
Proof. unfold wlp. intros H E. by rewrite E in H. Qed.

Lemma wlp_ret {A} (a : A) (Q : A -> world S -> Prop) w : Q a w -> wlp (ret a) Q w.
Proof. done. Qed.

Lemma wlp_bind {A B} (m : M S A) (k : A -> M S B) Q w :
  wlp m (fun a w' => wlp (k a) Q w') w -> wlp (bind m k) Q w.
Proof. unfold wlp, bind. by destruct (m w) as [[a w']| | |]. Qed.

Lemma wlp_mono {A} (m : M S A) (P Q : A -> world S -> Prop) w :
  wlp m P w -> (forall a w', P a w' -> Q a w') -> wlp m Q w.
Proof. unfold wlp. destruct (m w) as [[a w']| | |]; auto. Qed.

Lemma wlp_gets {A} (f : S -> A) (Q : A -> world S -> Prop) w : Q (f (user w)) w -> wlp (gets f) Q w.
Proof. done. Qed.
Lemma wlp_modify f (Q : unit -> world S -> Prop) w :
  Q tt (World (held w) (trace w) (f (user w))) -> wlp (modify f) Q w.
Proof. done. Qed.
Lemma wlp_panic {A} msg (Q : A -> world S -> Prop) w : wlp (panic msg) Q w.
Proof. done. Qed.
Lemma wlp_the {A} (o : option A) (Q : A -> world S -> Prop) w :
  (forall a, o = Some a -> Q a w) -> wlp (the o) Q w.
Proof. destruct o; intros H; [by apply H|done]. Qed.
Lemma wlp_acquire l (Q : unit -> world S -> Prop) w :
  (l ∉ held w -> Q tt (World (l :: held w) (trace w) (user w))) -> wlp (acquire l) Q w.
Proof. unfold wlp, acquire. case_decide; auto. Qed.
Lemma wlp_release l (Q : unit -> world S -> Prop) w :
  (l ∈ held w -> Q tt (World (remove_lock l (held w)) (trace w) (user w))) -> wlp (release l) Q w.
Proof. unfold wlp, release. case_decide; auto. Qed.
Lemma wlp_sleep {A} c l (Q : A -> world S -> Prop) w : wlp (sleep c l) Q w.
Proof. unfold wlp, sleep. by case_decide. Qed.

Lemma wlp_for_each {A} (I : world S -> Prop) (l : list A) body (Q : unit -> world S -> Prop) w :
  I w -> (forall a w, a ∈ l -> I w -> wlp (body a) (fun _ => I) w) -> (forall w, I w -> Q tt w) ->
  wlp (for_each l body) Q w.
Proof.
  intros HI Hbody HQ. revert w HI. induction l as [|a l IH]; intros w HI; simpl; [by apply HQ|].
  apply wlp_bind. eapply wlp_mono; [apply Hbody; [by left|done]|]. intros u w' HI'.
  apply IH; [|exact HI']. intros b w'' Hb. apply Hbody. by right.
Qed.

(** A loop over indices, with what holds before each turn. *)
Lemma wlp_for_seq (I : nat -> world S -> Prop) i n body (Q : unit -> world S -> Prop) w :
  I i w -> (forall j w, (i <= j < i + n)%nat -> I j w -> wlp (body j) (fun _ => I (Datatypes.S j)) w) ->
  (forall w, I (i + n)%nat w -> Q tt w) -> wlp (for_each (seq i n) body) Q w.
Proof.
  revert i w. induction n as [|n IH]; intros i w HI Hbody HQ; cbn [seq for_each].
  - rewrite Nat.add_0_r in HQ. by apply HQ.
  - apply wlp_bind. eapply wlp_mono; [apply Hbody; [lia|done]|]. intros u w' HI'.
    apply IH; [exact HI'| |]; [intros j w'' Hj; apply Hbody; lia|]. intros w''.
    replace (Datatypes.S i + n)%nat with (i + Datatypes.S n)%nat by lia. apply HQ.
Qed.

Lemma wlp_iter {A B} (I : A -> world S -> Prop) fuel (body : A -> M S (A + B)) a (Q : B -> world S -> Prop) w :
  I a w ->
  (forall a w, I a w -> wlp (body a) (fun r w' => match r with inl a' => I a' w' | inr b => Q b w' end) w) ->
  wlp (iter fuel body a) Q w.
Proof.
  intros HI Hbody. revert a w HI. induction fuel as [|n IH]; intros a w HI; simpl; [done|].
  apply wlp_bind. eapply wlp_mono; [by apply Hbody|]. intros [a'|b] w' H; [by apply IH|done].
Qed.
End Wlp.

Lemma wlp_zoom {S T A} `{Lens S T} (m : M T A) Q (w : world S) :
  (forall a w', Q a (World (held w') (trace w') (lput (user w') (user w)))) -> wlp (zoom m) Q w.
Proof. unfold wlp, zoom. destruct (m _) as [[a w']| | |]; auto. Qed.

Ltac wlp_step :=
  cbv beta; lazymatch goal with
  | |- wlp (bind _ _) _ _ => apply wlp_bind
  | |- wlp (ret _) _ _ => apply wlp_ret
  | |- wlp (gets _) _ _ => apply wlp_gets
  | |- wlp (modify _) _ _ => apply wlp_modify
  | |- wlp (panic _) _ _ => apply wlp_panic
  | |- wlp (the _) _ _ => apply wlp_the; intros ? ?
  | |- wlp (acquire _) _ _ => apply wlp_acquire; intros ?
  | |- wlp (release _) _ _ => apply wlp_release; intros ?
  | |- wlp (sleep _ _) _ _ => apply wlp_sleep
  | |- wlp (match ?x with _ => _ end) _ _ => destruct x eqn:?
  end; cbn [user held trace].

(** One step of symbolic execution. *)
Ltac wp_step :=
  cbv beta; lazymatch goal with
  | |- wp (bind _ _) _ _ => apply wp_bind
  | |- wp (ret _) _ _ => apply wp_ret
  | |- wp get _ _ => apply wp_get
  | |- wp (gets _) _ _ => apply wp_gets
  | |- wp (put _) _ _ => apply wp_put
  | |- wp (modify _) _ _ => apply wp_modify
  | |- wp (emit _) _ _ => apply wp_emit
  | |- wp (wakeup _) _ _ => apply wp_emit
  | |- wp (zoom _) _ _ => apply wp_zoom
  | |- wp (match ?x with _ => _ end) _ _ => destruct x eqn:?
  end; cbn [user held trace].
Ltac wp_steps := repeat wp_step.

(** ** Shared hint databases *)

Create Rewrite HintDb klen.
#[export] Hint Rewrite @length_app @length_take @length_drop @length_insert
  @length_replicate @length_fmap length_le_bytes : klen.

Ltac len := autorewrite with klen in *; try lia.
