(* ===== verification/Ring.v ===== *)
(** * Ring buffers with free-running counters

    pipe.c, uart.c and console.c each keep a queue in an array of [N] bytes with
    two counters that are never reduced modulo [N], only by the width of their
    type: the element [j] places after a counter [r] is at index [(r + j) % N].
    Because [N] divides the range [W] of the counters, wrapping them around
    changes no index. *)

From S2P Require Import Prelude.

Open Scope Z_scope.

Section Ring.
Context (N W : Z).

(** The queue [l] starts at counter [r] of the array [d]. *)
Record ring (d : list Z) (r : Z) (l : list Z) : Prop := MkRing {
  rg_data : length d = Z.to_nat N;
  rg_start : 0 <= r < W;
  rg_room : Z.of_nat (length l) <= N;
  rg_at : forall j, (j < length l)%nat -> d !! Z.to_nat ((r + Z.of_nat j) mod N) = l !! j
}.

(** The counter one past the last element of a queue that starts at [r]. *)
Definition ring_end (r : Z) (l : list Z) : Z := (r + Z.of_nat (length l)) mod W.

Hypothesis HN : 0 < N < W.
Hypothesis HW : W mod N = 0.

Lemma wrap_index z : (z mod W) mod N = z mod N.
Proof.
  apply Z.mod_divide in HW as [k ->]; [|lia]. rewrite (Z.mul_comm k), Z.rem_mul_r by lia.
  rewrite (Z.mul_comm N), Z.mod_add, Z.mod_mod by lia. done.
Qed.

Lemma slots_ne a j k :
  0 <= j < N -> 0 <= k < N -> j <> k -> Z.to_nat ((a + j) mod N) <> Z.to_nat ((a + k) mod N).
Proof.
  intros Hj Hk Hne E. apply Hne. pose proof (Z.mod_pos_bound (a + j) N). pose proof (Z.mod_pos_bound (a + k) N).
  assert ((a + j) mod N = (a + k) mod N) as E' by lia. rewrite !Z.mod_eq in E' by lia.
  assert (j - k = N * ((a + j) / N - (a + k) / N)) as Ed by lia.
  set (q := (a + j) / N - (a + k) / N) in *. clearbody q. assert (q = 0) by nia. nia.
Qed.

Lemma ring_new d r : length d = Z.to_nat N -> 0 <= r < W -> ring d r [].
Proof. intros. split; try done; cbn [length]; lia. Qed.

Lemma ring_end_range r l : 0 <= ring_end r l < W.
Proof. apply Z.mod_pos_bound. lia. Qed.

Lemma ring_count d r l k : ring d r l -> 0 <= k <= N -> ring_end r l = (r + k) mod W <-> Z.of_nat (length l) = k.
Proof.
  intros [_ Hr Hm _] Hk. unfold ring_end. split; [|by intros ->]. intros E.
  assert ((Z.of_nat (length l) - k) mod W = 0) as Hz.
  { replace (Z.of_nat (length l) - k) with ((r + Z.of_nat (length l)) - (r + k)) by lia.
    by rewrite Zminus_mod, E, Z.sub_diag, Z.mod_0_l by lia. }
  apply Z.mod_divide in Hz as [q Hq]; [|lia]. assert (q = 0) by nia. nia.
Qed.

(** The tests for a full and for an empty queue. *)
Lemma ring_full d r l : ring d r l -> (ring_end r l =? (r + N) mod W) = bool_decide (Z.of_nat (length l) = N).
Proof.
  intros Hr. pose proof (ring_count d r l N Hr ltac:(lia)). case_bool_decide; [apply Z.eqb_eq|apply Z.eqb_neq]; tauto.
Qed.

Lemma ring_empty d r l : ring d r l -> (ring_end r l =? r) = bool_decide (l = []).
Proof.
  intros Hr. pose proof (ring_count d r l 0 Hr ltac:(lia)) as Hn. rewrite Z.add_0_r, (Z.mod_small r) in Hn by apply Hr.
  case_bool_decide as E; [subst; apply Z.eqb_eq, Hn; done|]. apply Z.eqb_neq. rewrite Hn. destruct l; cbn [length]; [done|lia].
Qed.

Lemma ring_size d r l : ring d r l -> (ring_end r l - r) mod W = Z.of_nat (length l).
Proof.
  intros [_ Hr Hm _]. unfold ring_end. rewrite Zminus_mod_idemp_l.
  replace (r + Z.of_nat (length l) - r) with (Z.of_nat (length l)) by lia. apply Z.mod_small. lia.
Qed.

Lemma ring_end_app r l l' : ring_end r (l ++ l') = (ring_end r l + Z.of_nat (length l')) mod W.
Proof. unfold ring_end. rewrite length_app, Zplus_mod_idemp_l. f_equal. lia. Qed.

Lemma ring_end_removed r l c : (ring_end r (l ++ [c]) - 1) mod W = ring_end r l.
Proof.
  unfold ring_end. rewrite length_app, Zminus_mod_idemp_l. f_equal. cbn [length]. lia.
Qed.

Lemma ring_put d r l c :
  ring d r l -> Z.of_nat (length l) < N -> ring (<[Z.to_nat (ring_end r l mod N) := c]> d) r (l ++ [c]).
Proof.
  intros [Hd Hr Hm Hat] Hlt. split; [by rewrite length_insert|done|rewrite length_app; cbn [length]; lia|].
  intros j Hj. rewrite length_app in Hj. cbn [length] in Hj. unfold ring_end. rewrite wrap_index.
  destruct (decide (j = length l)) as [->|].
  - rewrite list_lookup_insert_eq; [by rewrite lookup_app_r, Nat.sub_diag|].
    rewrite Hd. pose proof (Z.mod_pos_bound (r + Z.of_nat (length l)) N). lia.
  - rewrite list_lookup_insert_ne by (apply slots_ne; lia). rewrite lookup_app_l by lia. apply Hat. lia.
Qed.

Lemma ring_get d r l c : ring d r (c :: l) -> d !! Z.to_nat (r mod N) = Some c /\ ring d ((r + 1) mod W) l.
Proof.
  intros [Hd Hr Hm Hat]. cbn [length] in *. split.
  - specialize (Hat 0%nat ltac:(lia)). by rewrite Z.add_0_r in Hat.
  - split; [done|apply Z.mod_pos_bound; lia|lia|]. intros j Hj. specialize (Hat (S j) ltac:(lia)).
    rewrite <- (Zplus_mod_idemp_l ((r + 1) mod W)), wrap_index, Zplus_mod_idemp_l.
    change (l !! j) with ((c :: l) !! S j). rewrite <- Hat. do 3 f_equal. lia.
Qed.

Lemma ring_end_get r l c : ring_end ((r + 1) mod W) l = ring_end r (c :: l).
Proof. unfold ring_end. cbn [length]. rewrite Zplus_mod_idemp_l. f_equal. lia. Qed.

(** The last element, and the queue without it. *)
Lemma ring_last d r l c : ring d r (l ++ [c]) -> d !! Z.to_nat (ring_end r l mod N) = Some c.
Proof.
  intros [Hd Hr Hm Hat]. specialize (Hat (length l)). rewrite length_app in Hat. unfold ring_end. rewrite wrap_index.
  rewrite Hat by (cbn [length]; lia). by rewrite lookup_app_r, Nat.sub_diag by lia.
Qed.

Lemma ring_prefix d r l l' : ring d r (l ++ l') -> ring d r l.
Proof.
  intros [Hd Hr Hm Hat]. rewrite length_app in Hm, Hat. split; [done|done|lia|]. intros j Hj. rewrite Hat by lia.
  by rewrite lookup_app_l.
Qed.
End Ring.
