(* ===== verification/Machine.v ===== *)
(** * Constants and address arithmetic

    The macros of kernel/param.h, kernel/riscv.h, kernel/memlayout.h and
    kernel/fs.h, with the arithmetic facts the components use: page rounding,
    page-table entries, and the three 9-bit indices of a virtual address. *)

From S2P Require Import Prelude.

Open Scope Z_scope.

(** ** kernel/param.h *)

Definition NPROC : Z := 64.
Definition NOFILE : Z := 16.
Definition NFILE : Z := 100.
Definition NINODE : Z := 50.
Definition NDEV : Z := 10.
Definition ROOTDEV : Z := 1.
Definition MAXARG : Z := 32.
Definition MAXOPBLOCKS : Z := 10.
Definition LOGSIZE : Z := MAXOPBLOCKS * 3.
Definition NBUF : Z := MAXOPBLOCKS * 3.
Definition MAXPATH : Z := 128.

(** ** kernel/riscv.h: pages and page-table entries *)

Definition PGSIZE : Z := 4096.
Definition PGSHIFT : Z := 12.

Definition PGROUNDUP (sz : Z) : Z :=
  Z.land (u64 (sz + PGSIZE - 1)) (u64 (Z.lnot (PGSIZE - 1))).
Definition PGROUNDDOWN (a : Z) : Z := Z.land a (u64 (Z.lnot (PGSIZE - 1))).

Definition PTE_V : Z := Z.shiftl 1 0.
Definition PTE_R : Z := Z.shiftl 1 1.
Definition PTE_W : Z := Z.shiftl 1 2.
Definition PTE_X : Z := Z.shiftl 1 3.
Definition PTE_U : Z := Z.shiftl 1 4.

Definition PA2PTE (pa : Z) : Z := u64 (Z.shiftl (Z.shiftr pa 12) 10).
Definition PTE2PA (pte : Z) : Z := u64 (Z.shiftl (Z.shiftr pte 10) 12).
Definition PTE_FLAGS (pte : Z) : Z := Z.land pte 1023.

Definition PXMASK : Z := 511.
Definition PXSHIFT (level : Z) : Z := PGSHIFT + 9 * level.
Definition PX (level va : Z) : Z := Z.land (Z.shiftr va (PXSHIFT level)) PXMASK.

Definition MAXVA : Z := Z.shiftl 1 (9 + 9 + 9 + 12 - 1).

(** ** kernel/memlayout.h *)

Definition UART0 : Z := 268435456.
Definition VIRTIO0 : Z := 268439552.
Definition PLIC : Z := 201326592.
Definition KERNBASE : Z := 2147483648.
Definition PHYSTOP : Z := KERNBASE + 128 * 1024 * 1024.
Definition TRAMPOLINE : Z := MAXVA - PGSIZE.
Definition KSTACK (p : Z) : Z := TRAMPOLINE - (p + 1) * 2 * PGSIZE.
Definition TRAPFRAME : Z := TRAMPOLINE - PGSIZE.

(** ** kernel/fs.h *)

Definition ROOTINO : Z := 1.
Definition BSIZE : Z := 1024.
Definition FSMAGIC : Z := 270544960.
Definition NDIRECT : Z := 12.
Definition NINDIRECT : Z := BSIZE / 4.
Definition MAXFILE : Z := NDIRECT + NINDIRECT.
Definition DINODE_SIZE : Z := 64.
Definition IPB : Z := BSIZE / DINODE_SIZE.
Definition BPB : Z := BSIZE * 8.
Definition DIRSIZ : Z := 14.

(** ** Facts *)

Lemma land_low_mask a n : 0 <= n -> Z.land a (2 ^ n - 1) = a mod 2 ^ n.
Proof. intros. rewrite <- Z.land_ones by lia. f_equal. rewrite Z.ones_equiv. lia. Qed.

Lemma testbit_above a k n : 0 <= a < 2 ^ k -> k <= n -> Z.testbit a n = false.
Proof.
  intros Ha Hn. destruct (Z.eq_dec a 0) as [->|]; [apply Z.bits_0|].
  apply Z.bits_above_log2; [lia|]. apply Z.log2_lt_pow2; [lia|].
  apply Z.lt_le_trans with (2 ^ k); [lia|].
  apply Z.pow_le_mono_r; lia.
Qed.

Lemma land_page_mask a :
  0 <= a < 2 ^ 64 -> Z.land a (u64 (Z.lnot (PGSIZE - 1))) = a - a mod PGSIZE.
Proof.
  intros Ha.
  replace (u64 (Z.lnot (PGSIZE - 1))) with (Z.ldiff (Z.ones 64) (Z.ones 12)) by reflexivity.
  transitivity (Z.ldiff a (Z.ones 12)).
  - apply Z.bits_inj'. intros n Hn. rewrite Z.land_spec, !Z.ldiff_spec.
    rewrite (Z.testbit_ones_nonneg 64) by lia.
    destruct (Z.ltb_spec n 64); simpl; [done|].
    by rewrite (testbit_above a 64) by lia.
  - rewrite Z.ldiff_ones_r, Z.shiftl_mul_pow2, Z.shiftr_div_pow2 by lia.
    unfold PGSIZE. change (2 ^ 12) with 4096. pose proof (Z.div_mod a 4096 ltac:(lia)). lia.
Qed.

Lemma PGROUNDDOWN_eq a : 0 <= a < 2 ^ 64 -> PGROUNDDOWN a = a - a mod PGSIZE.
Proof. apply land_page_mask. Qed.

Lemma PGROUNDUP_eq a :
  0 <= a -> a + PGSIZE - 1 < 2 ^ 64 ->
  PGROUNDUP a = (a + PGSIZE - 1) - (a + PGSIZE - 1) mod PGSIZE.
Proof.
  intros. unfold PGROUNDUP. unfold PGSIZE in *. rewrite u64_small by lia.
  apply land_page_mask. lia.
Qed.

Lemma PGROUNDDOWN_spec a :
  0 <= a < 2 ^ 64 ->
  PGROUNDDOWN a mod PGSIZE = 0 /\ PGROUNDDOWN a <= a < PGROUNDDOWN a + PGSIZE.
Proof.
  intros. rewrite PGROUNDDOWN_eq by lia. unfold PGSIZE.
  pose proof (Z.mod_pos_bound a 4096). split; [|lia].
  rewrite Zminus_mod_idemp_r, Z.sub_diag. done.
Qed.

Lemma PGROUNDUP_spec a :
  0 <= a -> a + PGSIZE - 1 < 2 ^ 64 ->
  PGROUNDUP a mod PGSIZE = 0 /\ a <= PGROUNDUP a < a + PGSIZE.
Proof.
  intros. rewrite PGROUNDUP_eq by lia. unfold PGSIZE in *.
  pose proof (Z.mod_pos_bound (a + 4096 - 1) 4096). split; [|lia].
  rewrite Zminus_mod_idemp_r, Z.sub_diag. done.
Qed.

Lemma PGROUNDDOWN_aligned a :
  0 <= a < 2 ^ 64 -> a mod PGSIZE = 0 -> PGROUNDDOWN a = a.
Proof. intros. rewrite PGROUNDDOWN_eq by lia. lia. Qed.

Lemma PGROUNDUP_aligned a :
  0 <= a -> a + PGSIZE - 1 < 2 ^ 64 -> a mod PGSIZE = 0 -> PGROUNDUP a = a.
Proof.
  intros H1 H2 H3. destruct (PGROUNDUP_spec a H1 H2) as [Hm Hb].
  unfold PGSIZE in *.
  apply Z.mod_divide in H3; [|lia]. apply Z.mod_divide in Hm; [|lia].
  destruct H3 as [x ->], Hm as [y Hy]. rewrite Hy in *. lia.
Qed.

(** *** Page-table entries *)

Lemma PX_eq level va : 0 <= level -> PX level va = va / 2 ^ (PXSHIFT level) mod 512.
Proof.
  intros. unfold PX. replace PXMASK with (2 ^ 9 - 1) by reflexivity.
  rewrite land_low_mask, Z.shiftr_div_pow2 by (unfold PXSHIFT, PGSHIFT; lia). done.
Qed.

Lemma PX_range level va : 0 <= level -> 0 <= PX level va < 512.
Proof. intros. rewrite PX_eq by lia. apply Z.mod_pos_bound. lia. Qed.

(** A virtual address below [MAXVA] is its three indices and its page offset. *)
Lemma va_decompose va :
  0 <= va < MAXVA ->
  va = PX 2 va * 2 ^ 30 + PX 1 va * 2 ^ 21 + PX 0 va * 2 ^ 12 + va mod PGSIZE.
Proof.
  intros Hva. rewrite !PX_eq by lia. unfold PXSHIFT, PGSHIFT, PGSIZE.
  replace MAXVA with (2 ^ 38) in Hva by reflexivity.
  change (12 + 9 * 2) with 30. change (12 + 9 * 1) with 21. change (12 + 9 * 0) with 12.
  change (2 ^ 30) with 1073741824. change (2 ^ 21) with 2097152. change (2 ^ 12) with 4096.
  change (2 ^ 38) with 274877906944 in Hva.
  Z.div_mod_to_equations. lia.
Qed.

Lemma PX_inj va va' :
  0 <= va < MAXVA -> 0 <= va' < MAXVA ->
  va mod PGSIZE = 0 -> va' mod PGSIZE = 0 ->
  PX 2 va = PX 2 va' -> PX 1 va = PX 1 va' -> PX 0 va = PX 0 va' -> va = va'.
Proof.
  intros H H' Ha Ha' E2 E1 E0.
  rewrite (va_decompose va H), (va_decompose va' H'). congruence.
Qed.

Lemma PTE2PA_eq pte : 0 <= pte < 2 ^ 54 -> PTE2PA pte = pte / 1024 * 4096.
Proof.
  intros. unfold PTE2PA. rewrite Z.shiftr_div_pow2, Z.shiftl_mul_pow2 by lia.
  change (2 ^ 10) with 1024. change (2 ^ 12) with 4096.
  apply u64_small. split; [Z.div_mod_to_equations; lia|].
  assert (pte / 1024 < 2 ^ 44) by (apply Z.div_lt_upper_bound; lia). lia.
Qed.

Lemma PA2PTE_eq pa : 0 <= pa < 2 ^ 56 -> pa mod PGSIZE = 0 -> PA2PTE pa = pa / 4.
Proof.
  intros Hb Ha. unfold PA2PTE. rewrite Z.shiftr_div_pow2, Z.shiftl_mul_pow2 by lia.
  unfold PGSIZE in *. change (2 ^ 10) with 1024. change (2 ^ 12) with 4096.
  apply Z.mod_divide in Ha; [|lia]. destruct Ha as [q ->].
  rewrite Z.div_mul by lia. replace (q * 4096 / 4) with (q * 1024).
  - apply u64_small. lia.
  - replace (q * 4096) with (q * 1024 * 4) by lia. by rewrite Z.div_mul by lia.
Qed.

(** The flag bits sit below the physical page number, so [lor] is addition. *)
Lemma pte_lor_add pa f :
  0 <= pa < 2 ^ 56 -> pa mod PGSIZE = 0 -> 0 <= f < 1024 ->
  Z.lor (PA2PTE pa) f = PA2PTE pa + f.
Proof.
  intros Hb Ha Hf. rewrite <- Z.lxor_lor; [symmetry; apply Z.add_nocarry_lxor|].
  all: unfold PA2PTE, u64; apply Z.bits_inj'; intros n Hn; rewrite Z.land_spec, Z.bits_0.
  all: destruct (Z.ltb_spec n 10).
  1,3: rewrite Z.mod_pow2_bits_low, Z.shiftl_spec_low by lia; done.
  all: rewrite (testbit_above f 10) by lia; apply andb_false_r.
Qed.

Lemma PTE_roundtrip pa f :
  0 <= pa < 2 ^ 56 -> pa mod PGSIZE = 0 -> 0 <= f < 1024 ->
  PTE2PA (Z.lor (PA2PTE pa) f) = pa /\ PTE_FLAGS (Z.lor (PA2PTE pa) f) = f.
Proof.
  intros Hb Ha Hf. rewrite pte_lor_add, PA2PTE_eq by done.
  unfold PTE_FLAGS. change 1023 with (2 ^ 10 - 1). rewrite land_low_mask by lia.
  unfold PGSIZE in *. apply Z.mod_divide in Ha; [|lia]. destruct Ha as [q ->].
  replace (q * 4096 / 4) with (q * 1024)
    by (replace (q * 4096) with (q * 1024 * 4) by lia; by rewrite Z.div_mul by lia).
  change (2 ^ 10) with 1024. split.
  - rewrite PTE2PA_eq by lia. rewrite Z.div_add_l, (Z.div_small f) by lia. lia.
  - rewrite Z.add_comm, Z.mod_add, Z.mod_small by lia. done.
Qed.
