(* ===== verification/Mem.v ===== *)
(** * Byte-addressed memory, and the memory functions of kernel/string.c and user/ulib.c

    Memory is a finite map from addresses to bytes; an address never written
    reads as zero.  memset(), memmove() and memcpy() are the loops of string.c,
    and the theorems characterise what they leave at every address. *)

From S2P Require Import Prelude Machine.

Open Scope Z_scope.

Abbreviation mem := (gmap Z Z).

Definition rd8 (m : mem) (a : Z) : Z := default 0 (m !! a).
Definition wr8 (m : mem) (a v : Z) : mem := <[a := u8 v]> m.

(** Consecutive bytes. *)
Fixpoint load (m : mem) (a : Z) (n : nat) : list Z :=
  match n with
  | O => []
  | S n' => rd8 m a :: load m (a + 1) n'
  end.

Fixpoint store (m : mem) (a : Z) (bs : list Z) : mem :=
  match bs with
  | [] => m
  | b :: t => store (wr8 m a b) (a + 1) t
  end.

Definition load64 (m : mem) (a : Z) : Z := le_val (load m a 8).
Definition store64 (m : mem) (a v : Z) : mem := store m a (le_bytes 8 v).

(** ** kernel/string.c *)

(** [for(i = 0; i < n; i++) cdst[i] = c;] *)
Fixpoint memset_loop (fuel : nat) (m : mem) (dst c n i : Z) : mem :=
  match fuel with
  | O => m
  | S k => if i <? n then memset_loop k (wr8 m (dst + i) c) dst c n (i + 1) else m
  end.

Definition memset (m : mem) (dst c n : Z) : mem := memset_loop (Z.to_nat n) m dst c n 0.

(** [while(n-- > 0) *--d = *--s;] and [while(n-- > 0) *d++ = *s++;] *)
Fixpoint copy_down (n : nat) (m : mem) (d s : Z) : mem :=
  match n with
  | O => m
  | S k => copy_down k (wr8 m (d - 1) (rd8 m (s - 1))) (d - 1) (s - 1)
  end.

Fixpoint copy_up (n : nat) (m : mem) (d s : Z) : mem :=
  match n with
  | O => m
  | S k => copy_up k (wr8 m d (rd8 m s)) (d + 1) (s + 1)
  end.

Definition memmove (m : mem) (dst src n : Z) : mem :=
  if n =? 0 then m
  else if (src <? dst) && (src + n >? dst)
       then copy_down (Z.to_nat n) m (dst + n) (src + n)
       else copy_up (Z.to_nat n) m dst src.

Definition memcpy (m : mem) (dst src n : Z) : mem := memmove m dst src n.

(** ** user/ulib.c *)

(** The text of memset() is the kernel's; memmove() looks at the order of the two
    pointers alone, and its [n] is signed. *)
Definition u_memset (m : mem) (dst c n : Z) : mem := memset_loop (Z.to_nat n) m dst c n 0.

Definition u_memmove (m : mem) (dst src n : Z) : mem :=
  if src >? dst then copy_up (Z.to_nat n) m dst src else copy_down (Z.to_nat n) m (dst + n) (src + n).

Definition u_memcpy (m : mem) (dst src n : Z) : mem := u_memmove m dst src n.

(** ** Reading back *)

Definition mem_bytes (m : mem) : Prop := forall a, is_byte (rd8 m a).

Lemma rd8_wr8 m a v b : rd8 (wr8 m a v) b = if decide (a = b) then u8 v else rd8 m b.
Proof. unfold rd8, wr8. rewrite lookup_insert. by case_decide. Qed.

Lemma rd8_empty a : rd8 ∅ a = 0.
Proof. unfold rd8. by rewrite lookup_empty. Qed.

Lemma mem_bytes_empty : mem_bytes ∅.
Proof. intros a. rewrite rd8_empty. unfold is_byte. lia. Qed.

Lemma mem_bytes_wr8 m a v : mem_bytes m -> mem_bytes (wr8 m a v).
Proof.
  intros H b. rewrite rd8_wr8. case_decide; [apply u8_range|apply H].
Qed.

Lemma length_load m a n : length (load m a n) = n.
Proof. revert a. induction n; intros; simpl; auto. Qed.

Lemma load_lookup m a n i :
  (i < n)%nat -> load m a n !! i = Some (rd8 m (a + Z.of_nat i)).
Proof.
  revert a i. induction n as [|n IH]; intros a i Hi; [lia|].
  destruct i as [|i]; simpl; [by rewrite Z.add_0_r|].
  rewrite IH by lia. do 2 f_equal. lia.
Qed.

Lemma load_bytes m a n : mem_bytes m -> Forall is_byte (load m a n).
Proof. intros H. revert a. induction n; intros; simpl; constructor; auto. Qed.

Lemma load_ext m m' a n :
  (forall b, a <= b < a + Z.of_nat n -> rd8 m b = rd8 m' b) -> load m a n = load m' a n.
Proof.
  revert a. induction n as [|n IH]; intros a H; simpl; [done|].
  rewrite H by lia. f_equal. apply IH. intros. apply H. lia.
Qed.

Lemma load_app m a n k : load m a (n + k) = load m a n ++ load m (a + Z.of_nat n) k.
Proof.
  revert a. induction n as [|n IH]; intros a; simpl; [by rewrite Z.add_0_r|].
  rewrite IH. do 3 f_equal. lia.
Qed.

Lemma rd8_store m a bs b :
  Forall is_byte bs ->
  rd8 (store m a bs) b =
    if decide (a <= b < a + Z.of_nat (length bs))
    then default 0 (bs !! Z.to_nat (b - a)) else rd8 m b.
Proof.
  intros H. revert m a. induction H as [|x t Hx Ht IH]; intros m a; simpl.
  - case_decide; [lia|done].
  - rewrite IH, rd8_wr8. unfold is_byte in Hx.
    destruct (decide (a = b)) as [->|Hab].
    + rewrite decide_False, decide_True by lia.
      replace (b - b) with 0 by lia. simpl. apply u8_small. lia.
    + destruct (decide (a + 1 <= b < a + 1 + Z.of_nat (length t))).
      * rewrite decide_True by lia.
        replace (Z.to_nat (b - a)) with (S (Z.to_nat (b - (a + 1)))) by lia. done.
      * rewrite decide_False by lia. done.
Qed.

Lemma rd8_store_out m a bs b :
  Forall is_byte bs -> (b < a \/ a + Z.of_nat (length bs) <= b) ->
  rd8 (store m a bs) b = rd8 m b.
Proof. intros. rewrite rd8_store by done. by rewrite decide_False by lia. Qed.

Lemma load_store_same m a bs :
  Forall is_byte bs -> load (store m a bs) a (length bs) = bs.
Proof.
  intros H. apply list_eq. intros i. destruct (decide (i < length bs)%nat) as [Hi|Hi].
  - rewrite load_lookup, rd8_store, decide_True by (done || lia).
    replace (Z.to_nat (a + Z.of_nat i - a)) with i by lia.
    destruct (lookup_lt_is_Some_2 bs i Hi) as [x ->]. done.
  - rewrite !lookup_ge_None_2; rewrite ?length_load; try lia. done.
Qed.

Lemma load_store_disj m a bs b n :
  Forall is_byte bs ->
  (b + Z.of_nat n <= a \/ a + Z.of_nat (length bs) <= b) ->
  load (store m a bs) b n = load m b n.
Proof. intros Hb Hd. apply load_ext. intros. apply rd8_store_out; [done|lia]. Qed.

Lemma mem_bytes_store m a bs : mem_bytes m -> mem_bytes (store m a bs).
Proof.
  revert m a. induction bs as [|x t IH]; intros m a H; simpl; [done|].
  apply IH, mem_bytes_wr8, H.
Qed.

Lemma load64_range m a : mem_bytes m -> 0 <= load64 m a < 2 ^ 64.
Proof.
  intros H. unfold load64. pose proof (le_val_range _ (load_bytes m a 8 H)) as Hr.
  rewrite length_load in Hr. exact Hr.
Qed.

Lemma load64_store64_same m a v : 0 <= v < 2 ^ 64 -> load64 (store64 m a v) a = v.
Proof.
  intros Hv. unfold load64, store64.
  rewrite <- (length_le_bytes 8 v) at 2.
  rewrite load_store_same by apply le_bytes_byte. by apply le_val_bytes_small.
Qed.

Lemma load64_store64_disj m a v b :
  b + 8 <= a \/ a + 8 <= b -> load64 (store64 m a v) b = load64 m b.
Proof.
  intros Hd. unfold load64, store64.
  rewrite load_store_disj; [done|apply le_bytes_byte|rewrite length_le_bytes; lia].
Qed.

Lemma load64_ext m m' a :
  (forall b, a <= b < a + 8 -> rd8 m b = rd8 m' b) -> load64 m a = load64 m' a.
Proof. intros H. unfold load64. f_equal. apply load_ext. exact H. Qed.

Lemma rd8_store64_out m a v b :
  b < a \/ a + 8 <= b -> rd8 (store64 m a v) b = rd8 m b.
Proof.
  intros. unfold store64. apply rd8_store_out; [apply le_bytes_byte|].
  rewrite length_le_bytes. lia.
Qed.

Lemma mem_bytes_store64 m a v : mem_bytes m -> mem_bytes (store64 m a v).
Proof. apply mem_bytes_store. Qed.

Lemma load64_empty a : load64 ∅ a = 0.
Proof.
  unfold load64. assert (load ∅ a 8 = replicate 8 0) as ->; [|done].
  apply list_eq. intros i. destruct (decide (i < 8)%nat) as [Hi|Hi].
  - rewrite load_lookup, rd8_empty, lookup_replicate_2 by done. done.
  - rewrite !lookup_ge_None_2; [done|by rewrite length_replicate; lia|by rewrite length_load; lia].
Qed.

#[global] Arguments load64 : simpl never.
#[global] Arguments store64 : simpl never.
#[global] Arguments memset : simpl never.
#[global] Arguments memmove : simpl never.

(** ** What memset() and memmove() do *)

Lemma memset_loop_rd fuel m dst c n i b :
  0 <= i -> (Z.to_nat (n - i) <= fuel)%nat ->
  rd8 (memset_loop fuel m dst c n i) b =
    if decide (dst + i <= b < dst + n) then u8 c else rd8 m b.
Proof.
  revert m i. induction fuel as [|k IH]; intros m i Hi Hf; simpl.
  - rewrite decide_False by lia. done.
  - destruct (Z.ltb_spec i n).
    + rewrite IH, rd8_wr8 by lia.
      destruct (decide (dst + i = b)) as [<-|].
      * rewrite decide_False, decide_True by lia. done.
      * destruct (decide (dst + (i + 1) <= b < dst + n)).
        -- by rewrite decide_True by lia.
        -- by rewrite decide_False by lia.
    + rewrite decide_False by lia. done.
Qed.

Lemma memset_rd m dst c n b :
  rd8 (memset m dst c n) b = if decide (dst <= b < dst + n) then u8 c else rd8 m b.
Proof. unfold memset. rewrite memset_loop_rd by lia. by rewrite Z.add_0_r. Qed.

Lemma mem_bytes_memset m dst c n : mem_bytes m -> mem_bytes (memset m dst c n).
Proof.
  intros H b. rewrite memset_rd. case_decide; [apply u8_range|apply H].
Qed.

Lemma load64_memset_zero m dst n a :
  dst <= a -> a + 8 <= dst + n -> load64 (memset m dst 0 n) a = 0.
Proof.
  intros. unfold load64.
  assert (load (memset m dst 0 n) a 8 = replicate 8 0) as ->; [|done].
  simpl. rewrite !memset_rd, !decide_True by lia. done.
Qed.

Lemma load64_memset_out m dst c n a :
  a + 8 <= dst \/ dst + n <= a -> load64 (memset m dst c n) a = load64 m a.
Proof.
  intros. apply load64_ext. intros b Hb. rewrite memset_rd.
  rewrite decide_False by lia. done.
Qed.

Lemma copy_up_rd n m d s b :
  mem_bytes m -> (d <= s \/ s + Z.of_nat n <= d) ->
  rd8 (copy_up n m d s) b =
    if decide (d <= b < d + Z.of_nat n) then rd8 m (s + (b - d)) else rd8 m b.
Proof.
  revert m d s. induction n as [|k IH]; intros m d s Hm Hd; simpl.
  - rewrite decide_False by lia. done.
  - rewrite IH by (auto using mem_bytes_wr8; lia). rewrite !rd8_wr8.
    rewrite (u8_small (rd8 m s)) by apply Hm.
    destruct (decide (d = b)) as [<-|Hne].
    + rewrite decide_False, decide_True by lia. f_equal. lia.
    + destruct (decide (d + 1 <= b < d + 1 + Z.of_nat k)).
      * rewrite decide_False, decide_True by lia. f_equal. lia.
      * rewrite decide_False by lia. done.
Qed.

Lemma copy_down_rd n m d s b :
  mem_bytes m -> s <= d ->
  rd8 (copy_down n m d s) b =
    if decide (d - Z.of_nat n <= b < d) then rd8 m (s - (d - b)) else rd8 m b.
Proof.
  revert m d s. induction n as [|k IH]; intros m d s Hm Hd; simpl.
  - rewrite decide_False by lia. done.
  - rewrite IH by (auto using mem_bytes_wr8; lia). rewrite !rd8_wr8.
    rewrite (u8_small (rd8 m (s - 1))) by apply Hm.
    destruct (decide (d - 1 = b)) as [<-|Hne].
    + rewrite decide_False, decide_True by lia. f_equal. lia.
    + destruct (decide (d - 1 - Z.of_nat k <= b < d - 1)).
      * rewrite decide_False, decide_True by lia. f_equal. lia.
      * rewrite decide_False by lia. done.
Qed.

Lemma memmove_rd m dst src n b :
  mem_bytes m -> 0 <= n ->
  rd8 (memmove m dst src n) b =
    if decide (dst <= b < dst + n) then rd8 m (src + (b - dst)) else rd8 m b.
Proof.
  intros Hm Hn. unfold memmove. destruct (Z.eqb_spec n 0) as [->|].
  { rewrite decide_False by lia. done. }
  destruct (Z.ltb_spec src dst); simpl; [destruct (Z.gtb_spec (src + n) dst)|].
  - rewrite copy_down_rd, Z2Nat.id by (done || lia).
    replace (dst + n - n) with dst by lia. case_decide; [f_equal; lia|done].
  - rewrite copy_up_rd, Z2Nat.id by (done || lia). done.
  - rewrite copy_up_rd, Z2Nat.id by (done || lia). done.
Qed.

(** The library's memmove() does what the kernel's does. *)
Lemma u_memmove_agrees m dst src n b : mem_bytes m -> 0 <= n -> rd8 (u_memmove m dst src n) b = rd8 (memmove m dst src n) b.
Proof.
  intros Hm Hn. rewrite memmove_rd by done. unfold u_memmove. destruct (Z.gtb_spec src dst).
  - by rewrite copy_up_rd, Z2Nat.id by (done || lia).
  - rewrite copy_down_rd, Z2Nat.id by (done || lia). replace (dst + n - n) with dst by lia. case_decide; [f_equal; lia|done].
Qed.
Lemma u_memmove_negative m dst src n : n <= 0 -> u_memmove m dst src n = m.
Proof. intros. unfold u_memmove. replace (Z.to_nat n) with 0%nat by lia. by destruct (src >? dst). Qed.

Lemma mem_bytes_memmove m dst src n : mem_bytes m -> 0 <= n -> mem_bytes (memmove m dst src n).
Proof. intros Hm Hn b. rewrite memmove_rd by done. case_decide; apply Hm. Qed.

(** The destination range reads as the source range did. *)
Lemma load_memmove m dst src n :
  mem_bytes m -> load (memmove m dst src (Z.of_nat n)) dst n = load m src n.
Proof.
  intros Hm. apply list_eq. intros i. destruct (decide (i < n)%nat).
  - rewrite !load_lookup, memmove_rd, decide_True by (done || lia). do 2 f_equal. lia.
  - rewrite !lookup_ge_None_2; rewrite ?length_load; (done || lia).
Qed.

(** memmove() copies correctly whatever the overlap of the two ranges: after
    it, every destination byte is the source byte as it was before the call, and
    every byte outside the destination is untouched. *)
Theorem memmove_correct (m : mem) (dst src n b : Z) (Hm : mem_bytes m) (Hn : 0 <= n) :
  rd8 (memmove m dst src n) b =
    if decide (dst <= b < dst + n) then rd8 m (src + (b - dst)) else rd8 m b.
Proof. by apply memmove_rd. Qed.

(** Overlapping ranges in both directions. *)
Lemma memmove_correct_witness :
  rd8 (memmove (store ∅ 100 [1; 2; 3; 4; 5]) 102 100 5) 104 =
    (if decide (102 <= 104 < 102 + 5)
     then rd8 (store ∅ 100 [1; 2; 3; 4; 5]) (100 + (104 - 102))
     else rd8 (store ∅ 100 [1; 2; 3; 4; 5]) 104)
  /\ rd8 (memmove (store ∅ 100 [1; 2; 3; 4; 5]) 102 100 5) 104 = 3.
Proof.
  split.
  - apply (memmove_correct (store ∅ 100 [1; 2; 3; 4; 5]) 102 100 5 104); [|lia].
    apply mem_bytes_store, mem_bytes_empty.
  - vm_compute. reflexivity.
Defined.
