(* ===== verification/Kalloc.v ===== *)
(** * Physical page allocator (kernel/kalloc.c)

    The free pages form a linked list threaded through the pages themselves:
    [kmem_freelist] is kmem.freelist and the first eight bytes of a free page
    hold its [next] pointer.  [free_list] is the representation predicate; the
    theorems show that kfree() and kalloc() push and pop on an abstract list of
    pages, touch nothing but the page concerned, and never hand out a page
    twice. *)

From S2P Require Import Prelude Machine Mem.

Open Scope Z_scope.

Record kmem := Kmem {
  kmem_mem : mem;          (* physical memory *)
  kmem_freelist : Z        (* struct run *freelist, 0 when empty *)
}.

Definition set_mem (f : mem -> mem) (k : kmem) : kmem :=
  Kmem (f (kmem_mem k)) (kmem_freelist k).
Definition set_freelist (p : Z) (k : kmem) : kmem := Kmem (kmem_mem k) p.

Section Kalloc.

(** [end]: the first address after the kernel, set by the linker. *)
Variable kend : Z.

Definition kfree (pa : Z) : M kmem unit :=
  if negb (pa mod PGSIZE =? 0) || (pa <? kend) || (pa >=? PHYSTOP)
  then panic "kfree"
  else
    modify (set_mem (fun m => memset m pa 1 PGSIZE)) ;;
    acquire LKmem ;;
    modify (fun k => set_mem (fun m => store64 m pa (kmem_freelist k)) k) ;;
    modify (set_freelist pa) ;;
    release LKmem.

Definition kalloc : M kmem Z :=
  acquire LKmem ;;
  let* r := gets kmem_freelist in
  (if negb (r =? 0)
   then modify (fun k => set_freelist (load64 (kmem_mem k) r) k)
   else ret tt) ;;
  release LKmem ;;
  (if negb (r =? 0)
   then modify (set_mem (fun m => memset m r 5 PGSIZE))
   else ret tt) ;;
  ret r.

(** [for(; p + PGSIZE <= pa_end; p += PGSIZE) kfree(p);] *)
Definition freerange (pa_start pa_end : Z) : M kmem unit :=
  iter (Z.to_nat ((pa_end - pa_start) / PGSIZE + 2))
    (fun p => if p + PGSIZE <=? pa_end
              then kfree p ;; ret (inl (p + PGSIZE))
              else ret (inr tt))
    (PGROUNDUP pa_start).

Definition kinit : M kmem unit :=
  initlock LKmem ;;
  freerange kend PHYSTOP.

(** ** The free list *)

Definition good_page (p : Z) : Prop := p mod PGSIZE = 0 /\ kend <= p < PHYSTOP.

(** [chain m p l]: following [next] pointers from [p] visits [l] and ends. *)
Fixpoint chain (m : mem) (p : Z) (l : list Z) : Prop :=
  match l with
  | [] => p = 0
  | x :: t => p = x /\ chain m (load64 m x) t
  end.

Definition free_list (k : kmem) (l : list Z) : Prop :=
  chain (kmem_mem k) (kmem_freelist k) l /\ NoDup l /\ Forall good_page l /\
  mem_bytes (kmem_mem k).

(** Two memories agree outside one page. *)
Definition same_except (p : Z) (m m' : mem) : Prop :=
  forall b, b < p \/ p + PGSIZE <= b -> rd8 m' b = rd8 m b.

Hypothesis kend_pos : 0 < kend.

Lemma good_page_ne_0 p : good_page p -> p <> 0.
Proof. unfold good_page. lia. Qed.

Lemma pages_apart p q : good_page p -> good_page q -> p <> q -> p + PGSIZE <= q \/ q + PGSIZE <= p.
Proof.
  intros [Hp _] [Hq _] Hne. unfold PGSIZE in *.
  apply Z.mod_divide in Hp; [|lia]. apply Z.mod_divide in Hq; [|lia]. destruct Hp as [x ->], Hq as [y ->]. lia.
Qed.

Lemma chain_same_except m m' p x l :
  same_except x m m' -> Forall good_page l -> good_page x -> x ∉ l ->
  chain m p l -> chain m' p l.
Proof.
  intros Hs. revert p. induction l as [|y l IH]; intros p Hg Hx Hni Hc; simpl in *; [done|].
  apply Forall_cons_1 in Hg as [Hy Hg]. destruct Hc as [-> Hc].
  apply not_elem_of_cons in Hni as [Hne Hni]. split; [done|].
  replace (load64 m' y) with (load64 m y); [by apply IH|].
  apply load64_ext. intros b Hb. symmetry. apply Hs.
  destruct (pages_apart x y Hx Hy Hne); unfold PGSIZE in *; lia.
Qed.

Lemma same_except_trans p m1 m2 m3 :
  same_except p m1 m2 -> same_except p m2 m3 -> same_except p m1 m3.
Proof. intros H1 H2 b Hb. rewrite H2, H1; done. Qed.

Lemma same_except_memset m p c : same_except p m (memset m p c PGSIZE).
Proof. intros b Hb. rewrite memset_rd. by rewrite decide_False by lia. Qed.

Lemma same_except_store64 m p v : same_except p m (store64 m p v).
Proof. intros b Hb. apply rd8_store64_out. unfold PGSIZE in *. lia. Qed.

Lemma chain_head_range m p l : chain m p l -> Forall good_page l -> 0 <= p < 2 ^ 64.
Proof.
  destruct l as [|x l]; simpl; intros Hc Hg; [subst; lia|].
  destruct Hc as [-> _]. apply Forall_cons_1 in Hg as [[_ Hx] _].
  unfold PHYSTOP, KERNBASE in Hx. lia.
Qed.

(** ** What each operation does *)

Lemma kfree_wp pa l Q w :
  free_list (user w) l -> good_page pa -> pa ∉ l -> LKmem ∉ held w ->
  (forall k', free_list k' (pa :: l) ->
     same_except pa (kmem_mem (user w)) (kmem_mem k') ->
     Q tt (World (held w) (trace w) k')) ->
  wp (kfree pa) Q w.
Proof.
  intros (Hc & Hnd & Hg & Hb) Hpa Hni Hlk HQ. unfold kfree.
  destruct w as [h tr [m f]]. cbn in *. pose proof Hpa as [Hal Hrg].
  rewrite (proj2 (Z.eqb_eq _ _) Hal). simpl.
  rewrite (proj2 (Z.ltb_ge _ _)) by lia. simpl.
  replace (pa >=? PHYSTOP) with false by (symmetry; rewrite Z.geb_leb; apply Z.leb_gt; lia).
  do 2 wp_step. apply wp_bind, wp_acquire; [done|]. cbn [user held trace].
  wp_step. wp_step. wp_step. wp_step. eapply wp_release; [done|]. cbn [user held trace].
  assert (same_except pa m (store64 (memset m pa 1 PGSIZE) pa f)) as Hse.
  { eapply same_except_trans; [apply same_except_memset|apply same_except_store64]. }
  apply HQ; [|exact Hse].
  pose proof (chain_head_range _ _ _ Hc Hg) as Hr.
  refine (conj _ (conj _ (conj _ _))); cbn.
  - rewrite load64_store64_same by done. split; [done|].
    eapply chain_same_except; [exact Hse|done|done|done|done].
  - by constructor.
  - by constructor.
  - apply mem_bytes_store, mem_bytes_memset, Hb.
Qed.

Lemma kalloc_wp l Q w :
  free_list (user w) l -> LKmem ∉ held w ->
  (l = [] -> Q 0 w) ->
  (forall x t k', l = x :: t -> free_list k' t ->
     same_except x (kmem_mem (user w)) (kmem_mem k') ->
     (forall b, x <= b < x + PGSIZE -> rd8 (kmem_mem k') b = 5) ->
     Q x (World (held w) (trace w) k')) ->
  wp kalloc Q w.
Proof.
  intros (Hc & Hnd & Hg & Hb) Hlk Hnil Hcons. unfold kalloc.
  wp_step. apply wp_acquire; [done|]. cbn [user held trace].
  do 2 wp_step. destruct w as [h tr [m f]]. cbn in *.
  destruct l as [|x t]; cbn in Hc.
  - subst f. simpl. wp_step. wp_step. wp_step. eapply wp_release; [done|]. cbn [user held trace].
    wp_step. wp_step. wp_step. by apply Hnil.
  - destruct Hc as [-> Hc]. apply Forall_cons_1 in Hg as [Hx Hg].
    pose proof (good_page_ne_0 x Hx) as Hne.
    rewrite (proj2 (Z.eqb_neq _ _) Hne). simpl.
    wp_step. wp_step. wp_step. eapply wp_release; [done|]. cbn [user held trace].
    wp_step. wp_step. wp_step. apply list.NoDup_cons in Hnd as [Hni Hnd].
    apply (Hcons x t); [done| |apply same_except_memset|].
    + refine (conj _ (conj Hnd (conj Hg _))); cbn; [|by apply mem_bytes_memset].
      eapply chain_same_except; [apply same_except_memset|done|exact Hx|done|done].
    + intros b Hbx. cbn. rewrite memset_rd, decide_True by lia. reflexivity.
Qed.
(** ** freerange() and kinit() *)

(** [n] consecutive pages from [p]. *)
Fixpoint page_range (p : Z) (n : nat) : list Z :=
  match n with
  | O => []
  | S n' => p :: page_range (p + PGSIZE) n'
  end.

Lemma elem_of_page_range p n x :
  x ∈ page_range p n <-> exists i, 0 <= i < Z.of_nat n /\ x = p + i * PGSIZE.
Proof.
  revert p. induction n as [|n IH]; intros p; simpl.
  - split; [intros H; inversion H|intros (i & ? & _); lia].
  - rewrite elem_of_cons, IH. split.
    + intros [->|(i & ? & ->)]; [exists 0|exists (i + 1)]; lia.
    + intros (i & Hi & ->). destruct (Z.eq_dec i 0) as [->|]; [left; lia|].
      right. exists (i - 1). lia.
Qed.

Lemma NoDup_page_range p n : NoDup (page_range p n).
Proof.
  revert p. induction n as [|n IH]; intros p; simpl; constructor; [|apply IH].
  rewrite elem_of_page_range. intros (i & Hi & E). unfold PGSIZE in *. lia.
Qed.

Lemma freerange_loop_wp fuel p pa_end n l Q w :
  free_list (user w) l -> LKmem ∉ held w -> (n < fuel)%nat ->
  (forall x, x ∈ page_range p n -> good_page x /\ x ∉ l) ->
  p + Z.of_nat n * PGSIZE <= pa_end < p + (Z.of_nat n + 1) * PGSIZE ->
  (forall k', free_list k' (reverse (page_range p n) ++ l) ->
     Q tt (World (held w) (trace w) k')) ->
  wp (iter fuel (fun p => if p + PGSIZE <=? pa_end
                          then kfree p ;; ret (inl (p + PGSIZE))
                          else ret (inr tt)) p) Q w.
Proof.
  revert p n l w. induction fuel as [|fuel IH]; intros p n l w Hf Hlk Hn Hp He HQ; [lia|].
  cbn [iter]. wp_step. destruct (Z.leb_spec (p + PGSIZE) pa_end) as [Hle|Hgt].
  - destruct n as [|n]; [unfold PGSIZE in *; lia|].
    assert (p ∈ page_range p (S n)) as Hin by (simpl; constructor).
    destruct (Hp p Hin) as [Hg Hni]. wp_step.
    apply (kfree_wp p l); try done. intros k' Hk' _. wp_step. wp_steps.
    apply (IH _ n (p :: l)); try done; cbn [user held trace]; [lia| | |].
    + intros x Hx. destruct (Hp x) as [Hgx Hnx]; [simpl; by constructor|].
      split; [done|]. apply not_elem_of_cons. split; [|done]. intros ->.
      apply elem_of_page_range in Hx as (i & ? & ?). unfold PGSIZE in *. lia.
    + lia.
    + intros k'' Hk''. apply HQ. simpl. rewrite reverse_cons, <- app_assoc. done.
  - destruct n as [|n]; [|unfold PGSIZE in *; lia].
    wp_steps. destruct w as [h tr k]. apply HQ. done.
Qed.

(** The number of whole pages kinit() frees. *)
Definition npages : nat := Z.to_nat ((PHYSTOP - PGROUNDUP kend) / PGSIZE).

Hypothesis kend_low : kend + PGSIZE <= PHYSTOP.

Lemma kend_up : PGROUNDUP kend mod PGSIZE = 0 /\ kend <= PGROUNDUP kend < kend + PGSIZE.
Proof.
  apply PGROUNDUP_spec; [lia|]. unfold PGSIZE, PHYSTOP, KERNBASE in *. lia.
Qed.

Lemma page_range_good x :
  x ∈ page_range (PGROUNDUP kend) npages <-> good_page x.
Proof.
  destruct kend_up as [Ha Hb]. rewrite elem_of_page_range. unfold npages, good_page.
  unfold PHYSTOP, KERNBASE, PGSIZE in *.
  apply Z.mod_divide in Ha; [|lia]. destruct Ha as [q Hq]. rewrite Hq in *.
  replace (2147483648 + 128 * 1024 * 1024 - q * 4096) with ((557056 - q) * 4096) by lia.
  rewrite Z.div_mul by lia. rewrite Z2Nat.id by lia. split.
  - intros (i & Hi & ->). split; [|lia].
    replace (q * 4096 + i * 4096) with ((q + i) * 4096) by lia. apply Z.mod_mul. lia.
  - intros [Hm Hx]. apply Z.mod_divide in Hm; [|lia]. destruct Hm as [y ->].
    exists (y - q). lia.
Qed.

Lemma kinit_wp Q w :
  kmem_freelist (user w) = 0 -> mem_bytes (kmem_mem (user w)) -> held w = [] ->
  (forall k', free_list k' (reverse (page_range (PGROUNDUP kend) npages)) ->
     Q tt (World [] (trace w) k')) ->
  wp kinit Q w.
Proof.
  intros H0 Hb Hh HQ. unfold kinit, freerange. apply wp_bind.
  unfold wp at 1, initlock. rewrite Hh. simpl.
  destruct kend_up as [Ha Hr].
  apply (freerange_loop_wp _ _ _ npages []).
  - split; [done|]. split; [constructor|]. split; [constructor|done].
  - simpl. apply not_elem_of_nil.
  - unfold npages. unfold PGSIZE, PHYSTOP, KERNBASE in *. Z.div_mod_to_equations. lia.
  - intros x Hx. apply page_range_good in Hx. split; [done|apply not_elem_of_nil].
  - unfold npages. unfold PGSIZE, PHYSTOP, KERNBASE in *. Z.div_mod_to_equations. lia.
  - intros k' Hk'. rewrite app_nil_r in Hk'. by apply HQ.
Qed.

(** ** Clients of the allocator

    A client calls kalloc() and kfree(), and frees only pages it was given and
    has not freed since: [own] are the pages in use. *)

Inductive kstep : world kmem * list Z -> world kmem * list Z -> Prop :=
  | kstep_fail w w' own :
      kalloc w = Ret (0, w') -> kstep (w, own) (w', own)
  | kstep_alloc w w' p own :
      kalloc w = Ret (p, w') -> p <> 0 -> kstep (w, own) (w', p :: own)
  | kstep_free w w' p own1 own2 :
      kfree p w = Ret (tt, w') -> kstep (w, own1 ++ p :: own2) (w', own1 ++ own2).

(** Free and used pages together are always exactly the pages kinit() found. *)
Definition kclient_ok (c : world kmem * list Z) : Prop :=
  held (fst c) = [] /\
  exists l, free_list (user (fst c)) l /\
            l ++ snd c ≡ₚ page_range (PGROUNDUP kend) npages.

Lemma owned_page l own p :
  l ++ own ≡ₚ page_range (PGROUNDUP kend) npages -> p ∈ own -> good_page p /\ p ∉ l.
Proof.
  intros HP Hin. assert (NoDup (l ++ own)) as Hnd by (rewrite HP; apply NoDup_page_range).
  split.
  - apply page_range_good. rewrite <- HP. set_solver.
  - apply list.NoDup_app in Hnd as (_ & Hd & _). intros Hl. by apply (Hd p).
Qed.

Lemma kstep_ok c c' : kclient_ok c -> kstep c c' -> kclient_ok c'.
Proof.
  intros (Hh & l & Hl & HP) Hs. inversion Hs; subst; cbn in *.
  - assert (wp kalloc (fun p w0 => p = 0 -> kclient_ok (w0, own)) w) as Hw.
    { apply (kalloc_wp l); [done|rewrite Hh; apply not_elem_of_nil|..].
      - intros -> _. by split; [|exists []].
      - intros x t k' -> _ _ _ ->. exfalso.
        destruct Hl as (_ & _ & Hg & _). apply Forall_cons_1 in Hg as [Hg _].
        by apply good_page_ne_0 in Hg. }
    unfold wp in Hw. rewrite H in Hw. by apply Hw.
  - assert (wp kalloc (fun p w0 => p <> 0 -> kclient_ok (w0, p :: own)) w) as Hw.
    { apply (kalloc_wp l); [done|rewrite Hh; apply not_elem_of_nil|..].
      - intros _ ?. done.
      - intros x t k' -> Ht _ _ _. split; [done|]. exists t. split; [done|].
        cbn. rewrite <- HP. simpl. symmetry. apply Permutation_middle. }
    unfold wp in Hw. rewrite H in Hw. by apply Hw.
  - destruct (owned_page l (own1 ++ p :: own2) p HP) as [Hg Hni]; [set_solver|].
    assert (wp (kfree p) (fun _ w0 => kclient_ok (w0, own1 ++ own2)) w) as Hw.
    { apply (kfree_wp p l); [done|done|done|rewrite Hh; apply not_elem_of_nil|].
      intros k' Hk' _. split; [done|]. exists (p :: l). split; [done|].
      cbn. rewrite <- HP, <- !Permutation_middle. done. }
    unfold wp in Hw. by rewrite H in Hw.
Qed.

End Kalloc.



(** kfree() followed by kalloc() gives the same page back, filled with the
    allocator's junk byte 5, with the free list as it was and every byte outside
    the page unchanged; kfree() in between has pushed the page on the list. *)
Theorem kfree_kalloc_roundtrip (kend pa : Z) (l : list Z) (w : world kmem)
  (Hpos : 0 < kend) (Hl : free_list kend (user w) l) (Hpa : good_page kend pa)
  (Hni : pa ∉ l) (Hheld : held w = []) :
  exists w1 w2, kfree kend pa w = Ret (tt, w1) /\ free_list kend (user w1) (pa :: l) /\
    kalloc w1 = Ret (pa, w2) /\ free_list kend (user w2) l /\ held w2 = [] /\
    same_except pa (kmem_mem (user w)) (kmem_mem (user w2)) /\
    (forall b, pa <= b < pa + PGSIZE -> rd8 (kmem_mem (user w2)) b = 5).
Proof.
  destruct (wp_run (kfree kend pa) (fun _ w1 => held w1 = [] /\
    free_list kend (user w1) (pa :: l) /\
    same_except pa (kmem_mem (user w)) (kmem_mem (user w1))) w)
    as ([] & w1 & Hrun & Hh1 & Hl1 & Hs1).
  { apply (kfree_wp kend Hpos pa l); [done..|rewrite Hheld; apply not_elem_of_nil|].
    intros k' Hk' Hs. done. }
  destruct (wp_run kalloc (fun p w2 => p = pa /\ held w2 = [] /\
    free_list kend (user w2) l /\ same_except pa (kmem_mem (user w1)) (kmem_mem (user w2)) /\
    (forall b, pa <= b < pa + PGSIZE -> rd8 (kmem_mem (user w2)) b = 5)) w1)
    as (p & w2 & Hrun2 & -> & Hh2 & Hl2 & Hs2 & Hj).
  { apply (kalloc_wp kend Hpos (pa :: l)); [done|rewrite Hh1; apply not_elem_of_nil|done|].
    intros x t k' E Hk' Hs Hj. injection E as <- <-. done. }
  exists w1, w2. repeat split; try done; try apply Hl1; try apply Hl2.
  by eapply same_except_trans.
Qed.

Lemma kfree_kalloc_roundtrip_witness :
  exists w1 w2, kfree 4096 (PHYSTOP - PGSIZE) (World [] [] (Kmem ∅ 0)) = Ret (tt, w1) /\
    free_list 4096 (user w1) [PHYSTOP - PGSIZE] /\
    kalloc w1 = Ret (PHYSTOP - PGSIZE, w2) /\ free_list 4096 (user w2) [] /\ held w2 = [] /\
    same_except (PHYSTOP - PGSIZE) ∅ (kmem_mem (user w2)) /\
    (forall b, PHYSTOP - PGSIZE <= b < PHYSTOP - PGSIZE + PGSIZE -> rd8 (kmem_mem (user w2)) b = 5).
Proof.
  apply (kfree_kalloc_roundtrip 4096 (PHYSTOP - PGSIZE) [] (World [] [] (Kmem ∅ 0))).
  - lia.
  - split; [reflexivity|]. split; [constructor|]. split; [constructor|apply mem_bytes_empty].
  - split; vm_compute; [reflexivity|]. split; [discriminate|reflexivity].
  - apply not_elem_of_nil.
  - reflexivity.
Defined.
