(* ===== verification/Spin.v ===== *)
(** * Spin locks on several CPUs (kernel/spinlock.c, kernel/spinlock.h)

    acquire() and release() at the granularity of their memory accesses, run by
    any number of CPUs in any interleaving, with push_off() and pop_off() nesting
    the disabling of interrupts.  Each CPU has at most one owner's view of a lock:
    mutual exclusion, interrupts off while a lock is held, and panics only for a
    CPU that acquires a lock it holds or releases one it does not. *)

From S2P Require Import Prelude Machine.

Open Scope Z_scope.

(** ** State *)

Record spinlock := Spinlock { lk_locked : bool; lk_cpu : option nat }.

(** The fields of [struct cpu] that locking uses, and the SIE bit of sstatus. *)
Record cpu := Cpu { noff : Z; intena : bool; sie : bool }.

(** Where a CPU is in acquire() or release() of a lock, by statement. *)
Inductive pc := Running | Acquiring (l n : nat) | Releasing (l n : nat).
#[export] Instance pc_eq_dec : EqDecision pc.
Proof. solve_decision. Defined.

Record smp := Smp {
  m_locks : nat -> spinlock;
  m_cpus : nat -> cpu;
  m_pc : nat -> pc
}.

Definition upd {A} (f : nat -> A) (i : nat) (a : A) : nat -> A := fun j => if decide (j = i) then a else f j.

Definition set_lock (l : nat) (x : spinlock) (s : smp) : smp := Smp (upd (m_locks s) l x) (m_cpus s) (m_pc s).
Definition set_cpu (c : nat) (x : cpu) (s : smp) : smp := Smp (m_locks s) (upd (m_cpus s) c x) (m_pc s).
Definition set_pc (c : nat) (x : pc) (s : smp) : smp := Smp (m_locks s) (m_cpus s) (upd (m_pc s) c x).

(** ** kernel/spinlock.c *)

Definition initlock (l : nat) (s : smp) : smp := set_lock l (Spinlock false None) s.

Definition holding (c l : nat) (s : smp) : bool :=
  lk_locked (m_locks s l) && bool_decide (lk_cpu (m_locks s l) = Some c).

Definition push_off (c : nat) (s : smp) : smp :=
  let x := m_cpus s c in
  let old := sie x in
  set_cpu c (Cpu (noff x + 1) (if noff x =? 0 then old else intena x) false) s.

Definition pop_off (c : nat) (s : smp) : smp + string :=
  let x := m_cpus s c in
  if sie x then inr "pop_off - interruptible"%string else
  if noff x <? 1 then inr "pop_off"%string else
  let n := noff x - 1 in
  inl (set_cpu c (Cpu n (intena x) (if (n =? 0) && intena x then true else sie x)) s).

(** One memory access of acquire(&l) on CPU [c], from statement [n]: the four are
    push_off(), the check with holding(), one test-and-set, and the store to
    lk->cpu. *)
Definition acquire_turn (c l n : nat) (s : smp) : smp + string :=
  let x := m_locks s l in
  match n with
  | 0%nat => inl (set_pc c (Acquiring l 1) (push_off c s))
  | 1%nat => if holding c l s then inr "acquire"%string else inl (set_pc c (Acquiring l 2) s)
  | 2%nat => if lk_locked x then inl s
             else inl (set_pc c (Acquiring l 3) (set_lock l (Spinlock true (lk_cpu x)) s))
  | _ => inl (set_pc c Running (set_lock l (Spinlock (lk_locked x) (Some c)) s))
  end.

(** release(&l): the check, the store to lk->cpu, the release of the lock and
    pop_off(). *)
Definition release_turn (c l n : nat) (s : smp) : smp + string :=
  let x := m_locks s l in
  match n with
  | 0%nat => if negb (holding c l s) then inr "release"%string else inl (set_pc c (Releasing l 1) s)
  | 1%nat => inl (set_pc c (Releasing l 2) (set_lock l (Spinlock (lk_locked x) None) s))
  | 2%nat => inl (set_pc c (Releasing l 3) (set_lock l (Spinlock false (lk_cpu x)) s))
  | _ => match pop_off c s with inl s' => inl (set_pc c Running s') | inr e => inr e end
  end.

Definition turn (c : nat) (s : smp) : smp + string :=
  match m_pc s c with
  | Running => inl s
  | Acquiring l n => acquire_turn c l n s
  | Releasing l n => release_turn c l n s
  end.

(** A machine that has just started: no lock taken. *)
Definition smp_init (intr : nat -> bool) : smp :=
  Smp (fun _ => Spinlock false None) (fun c => Cpu 0 false (intr c)) (fun _ => Running).

(** ** Interleavings

    A CPU that is not in a lock routine may enter one, and may turn interrupts on
    or off when it holds no lock. *)
Inductive smp_step : smp -> smp -> Prop :=
  | ss_acquire c l s : m_pc s c = Running -> smp_step s (set_pc c (Acquiring l 0) s)
  | ss_release c l s : m_pc s c = Running -> smp_step s (set_pc c (Releasing l 0) s)
  | ss_turn c s s' : turn c s = inl s' -> smp_step s s'
  | ss_intr c b s : m_pc s c = Running -> noff (m_cpus s c) = 0 ->
      smp_step s (set_cpu c (Cpu 0 (intena (m_cpus s c)) b) s).

Inductive smp_reach (s0 : smp) : smp -> Prop :=
  | sr_start : smp_reach s0 s0
  | sr_step s s' : smp_reach s0 s -> smp_step s s' -> smp_reach s0 s'.

(** Between taking a lock and recording it in lk->cpu, or the converse. *)
Definition mid (p : pc) (l : nat) : Prop := p = Acquiring l 3 \/ p = Releasing l 2.

(** CPU [c] has taken [l] and not given it back. *)
Definition owns (s : smp) (c l : nat) : Prop := lk_cpu (m_locks s l) = Some c \/ mid (m_pc s c) l.

(** push_off()s that are not accounted for by a lock in [lk_cpu]. *)
Definition pending (p : pc) : Z :=
  match p with
  | Running | Acquiring _ 0 | Releasing _ 0 | Releasing _ 1 => 0
  | Acquiring _ _ | Releasing _ _ => 1
  end.

(** ** The invariant *)

(** [held c] lists the locks whose lk->cpu is [c]. *)
Record smp_ok (held : nat -> list nat) (s : smp) : Prop := SmpOk {
  so_owned l : lk_locked (m_locks s l) = true <-> exists c, owns s c l;
  so_excl l c c' : owns s c l -> owns s c' l -> c = c';
  so_mid l c : mid (m_pc s c) l -> lk_cpu (m_locks s l) = None;
  so_rel l c : m_pc s c = Releasing l 1 -> lk_cpu (m_locks s l) = Some c;
  so_pc l n c : m_pc s c = Acquiring l n \/ m_pc s c = Releasing l n -> (n <= 3)%nat;
  so_held l c : l ∈ held c <-> lk_cpu (m_locks s l) = Some c;
  so_nodup c : NoDup (held c);
  so_noff c : noff (m_cpus s c) = Z.of_nat (length (held c)) + pending (m_pc s c);
  so_intr c : 0 < noff (m_cpus s c) -> sie (m_cpus s c) = false
}.

Lemma upd_eq {A} (f : nat -> A) i a : upd f i a i = a.
Proof. unfold upd. by rewrite decide_True. Qed.
Lemma upd_ne {A} (f : nat -> A) i j a : j <> i -> upd f i a j = f j.
Proof. intros. unfold upd. by rewrite decide_False. Qed.

Lemma smp_init_ok intr : smp_ok (fun _ => []) (smp_init intr).
Proof.
  split; cbn; unfold owns, mid; cbn; try done; try naive_solver.
  - intros l c. rewrite elem_of_nil. done.
  - intros _. constructor.
Qed.

(** The locks stay as they are and only CPU [c] moves. *)
Lemma ok_move held s s' c :
  smp_ok held s -> m_locks s' = m_locks s ->
  (forall c', c' <> c -> m_cpus s' c' = m_cpus s c' /\ m_pc s' c' = m_pc s c') ->
  (forall l, ~ mid (m_pc s c) l) -> (forall l, ~ mid (m_pc s' c) l) ->
  (forall l, m_pc s' c = Releasing l 1 -> lk_cpu (m_locks s l) = Some c) ->
  (forall l n, m_pc s' c = Acquiring l n \/ m_pc s' c = Releasing l n -> (n <= 3)%nat) ->
  noff (m_cpus s' c) - pending (m_pc s' c) = noff (m_cpus s c) - pending (m_pc s c) ->
  (0 < noff (m_cpus s' c) -> sie (m_cpus s' c) = false) ->
  smp_ok held s'.
Proof.
  intros [O E M R P H N F I] HL Hs Hc Hp Hr Hn Hx Hi.
  assert (forall l c', owns s' c' l <-> owns s c' l) as Ho.
  { intros l c'. unfold owns. rewrite HL. destruct (decide (c' = c)) as [->|Hne]; [|by destruct (Hs c' Hne) as [_ ->]].
    specialize (Hc l). specialize (Hp l). tauto. }
  split; rewrite ?HL.
  - intros l. rewrite O. split; intros [c' Hc']; exists c'; by apply Ho.
  - intros l c1 c2 H1 H2. apply (E l); by apply Ho.
  - intros l c'. destruct (decide (c' = c)) as [->|Hne]; [intros Hm; by apply Hp in Hm|].
    destruct (Hs c' Hne) as [_ ->]. apply M.
  - intros l c'. destruct (decide (c' = c)) as [->|Hne]; [apply Hr|]. destruct (Hs c' Hne) as [_ ->]. apply R.
  - intros l n c'. destruct (decide (c' = c)) as [->|Hne]; [apply Hn|]. destruct (Hs c' Hne) as [_ ->]. apply P.
  - intros l c'. apply H.
  - done.
  - intros c'. destruct (decide (c' = c)) as [->|Hne]; [specialize (F c); lia|]. destruct (Hs c' Hne) as [-> ->]. apply F.
  - intros c'. destruct (decide (c' = c)) as [->|Hne]; [exact Hi|]. destruct (Hs c' Hne) as [-> _]. apply I.
Qed.

(** Lock [l] becomes [x] and CPU [c], the only one that may own it before or
    after, moves to [p]. *)
Lemma ok_lock held held' s c l x p :
  smp_ok held s -> (forall c', owns s c' l -> c' = c) -> (forall l', mid (m_pc s c) l' -> l' = l) ->
  (forall l', mid p l' -> l' = l) -> (forall l', p <> Releasing l' 1) ->
  (forall l' n, p = Acquiring l' n \/ p = Releasing l' n -> (n <= 3)%nat) ->
  (lk_locked x = true <-> lk_cpu x = Some c \/ mid p l) -> (forall c', lk_cpu x = Some c' -> c' = c) ->
  (mid p l -> lk_cpu x = None) ->
  (forall c', c' <> c -> held' c' = held c') ->
  (forall l', l' ∈ held' c <-> (l' <> l /\ l' ∈ held c) \/ (l' = l /\ lk_cpu x = Some c)) -> NoDup (held' c) ->
  Z.of_nat (length (held' c)) + pending p = Z.of_nat (length (held c)) + pending (m_pc s c) ->
  smp_ok held' (Smp (upd (m_locks s) l x) (m_cpus s) (upd (m_pc s) c p)).
Proof.
  intros [O E M R P H N F I] Hown Hmid Hmid' Hr Hn Hlk Hcpu Hnone Hh Hhc Hnd Hlen.
  set (s' := Smp (upd (m_locks s) l x) (m_cpus s) (upd (m_pc s) c p)).
  assert (forall c', owns s' c' l <-> c' = c /\ lk_locked x = true) as Ho.
  { intros c'. unfold owns, s'. cbn. rewrite upd_eq. destruct (decide (c' = c)) as [->|Hne].
    - rewrite upd_eq. tauto.
    - rewrite upd_ne by done. split; [|tauto]. intros [Hx|Hm]; [by apply Hcpu in Hx|].
      exfalso. apply Hne, Hown. by right. }
  assert (forall l' c', l' <> l -> owns s' c' l' <-> owns s c' l') as Ho'.
  { intros l' c' Hne. unfold owns, s'. cbn. rewrite upd_ne by done. destruct (decide (c' = c)) as [->|Hnc]; [|by rewrite upd_ne].
    rewrite upd_eq. split; (intros [?|Hm]; [by left|exfalso; apply Hne]); auto. }
  split; cbn.
  - intros l'. destruct (decide (l' = l)) as [->|Hne].
    + rewrite upd_eq. split; [intros; exists c; by apply Ho|]. intros [c' Hc']. by apply Ho in Hc' as [_ ?].
    + rewrite upd_ne by done. rewrite O. split; intros [c' Hc']; exists c'; by apply Ho'.
  - intros l' c1 c2 H1 H2. destruct (decide (l' = l)) as [->|Hne].
    + apply Ho in H1 as [-> _], H2 as [-> _]. done.
    + apply (E l'); by apply Ho'.
  - intros l' c'. destruct (decide (l' = l)) as [->|Hne].
    + rewrite upd_eq. destruct (decide (c' = c)) as [->|Hnc]; [rewrite upd_eq; apply Hnone|]. rewrite upd_ne by done.
      intros Hm. exfalso. apply Hnc, Hown. by right.
    + rewrite (upd_ne (m_locks s)) by done. destruct (decide (c' = c)) as [->|Hnc]; [|rewrite upd_ne by done; apply M].
      rewrite upd_eq. intros Hm. by apply Hmid' in Hm.
  - intros l' c'. destruct (decide (c' = c)) as [->|Hnc]; [rewrite upd_eq; intros Hp; by apply Hr in Hp|].
    rewrite upd_ne by done. intros Hp. destruct (decide (l' = l)) as [->|Hne]; [|rewrite upd_ne by done; by apply R].
    exfalso. apply Hnc, Hown. left. by apply R.
  - intros l' n c'. destruct (decide (c' = c)) as [->|Hnc]; [rewrite upd_eq; apply Hn|]. rewrite upd_ne by done. apply P.
  - intros l' c'. destruct (decide (c' = c)) as [->|Hnc].
    + rewrite Hhc, H. destruct (decide (l' = l)) as [->|Hne]; [rewrite upd_eq; tauto|]. rewrite upd_ne by done. tauto.
    + rewrite Hh, H by done. destruct (decide (l' = l)) as [->|Hne]; [|by rewrite upd_ne].
      rewrite upd_eq. split; [|by intros ?%Hcpu]. intros Hx. exfalso. apply Hnc, Hown. by left.
  - intros c'. destruct (decide (c' = c)) as [->|Hnc]; [done|]. by rewrite Hh.
  - intros c'. destruct (decide (c' = c)) as [->|Hnc]; [rewrite upd_eq, F; lia|]. by rewrite Hh, upd_ne, F.
  - done.
Qed.

(** ** Every turn *)

Lemma not_owned held s l : smp_ok held s -> lk_locked (m_locks s l) = false -> forall c, ~ owns s c l.
Proof. intros Hok Hl c Hc. assert (lk_locked (m_locks s l) = true) by (apply (so_owned _ _ Hok); eauto). congruence. Qed.

Lemma holding_owns held s c l : smp_ok held s -> holding c l s = true <-> lk_cpu (m_locks s l) = Some c.
Proof.
  intros Hok. unfold holding. rewrite andb_true_iff, bool_decide_eq_true. split; [tauto|]. intros Hc. split; [|done].
  apply (so_owned _ _ Hok). exists c. by left.
Qed.

Lemma mid_inj p l l' : mid p l -> mid p l' -> l = l'.
Proof. unfold mid. intros [->| ->] [E|E]; congruence. Qed.

Lemma length_remove l (k : list nat) : NoDup k -> l ∈ k -> S (length (filter (fun x => x <> l) k)) = length k.
Proof.
  induction 1 as [|a k Ha Hnd IH]; intros Hl; [by apply not_elem_of_nil in Hl|].
  apply elem_of_cons in Hl as [<-|Hl].
  - rewrite filter_cons_False by tauto. cbn. f_equal. rewrite filter_all; [done|].
    apply list.Forall_forall. intros x Hx ->. done.
  - assert (a <> l) by (intros ->; done). rewrite filter_cons_True by done. cbn. f_equal. by apply IH.
Qed.

Ltac pc_case := cbn [m_pc m_cpus m_locks set_pc set_lock set_cpu push_off] in *; rewrite ?upd_eq, ?upd_ne by done.

(** Moving to a statement of a routine, the CPU's record as it is. *)
Lemma ok_goto held s c p :
  smp_ok held s -> (forall l, ~ mid (m_pc s c) l) -> (forall l, ~ mid p l) ->
  (forall l, p = Releasing l 1 -> lk_cpu (m_locks s l) = Some c) ->
  (forall l n, p = Acquiring l n \/ p = Releasing l n -> (n <= 3)%nat) -> pending p = pending (m_pc s c) ->
  smp_ok held (set_pc c p s).
Proof.
  intros Hok Hm Hm' Hr Hn Hp. apply (ok_move held s _ c); cbn [set_pc m_pc m_cpus m_locks]; rewrite ?upd_eq; try done.
  - intros c' Hne. by rewrite upd_ne.
  - lia.
  - apply (so_intr _ _ Hok).
Qed.

Lemma push_off_ok held s c l :
  smp_ok held s -> m_pc s c = Acquiring l 0 -> smp_ok held (set_pc c (Acquiring l 1) (push_off c s)).
Proof.
  intros Hok Hpc. apply (ok_move held s _ c); cbn [set_pc push_off set_cpu m_pc m_cpus m_locks]; rewrite ?upd_eq, ?Hpc; try done.
  - intros c' Hne. by rewrite !upd_ne.
  - intros l' [?|?]; done.
  - intros l' [?|?]; done.
  - intros l' n [[= _ <-]|?]; [lia|done].
  - cbn. lia.
Qed.

Lemma test_and_set_ok held s c l :
  smp_ok held s -> m_pc s c = Acquiring l 2 -> lk_locked (m_locks s l) = false ->
  smp_ok held (set_pc c (Acquiring l 3) (set_lock l (Spinlock true (lk_cpu (m_locks s l))) s)).
Proof.
  intros Hok Hpc Hl. pose proof (not_owned _ _ _ Hok Hl) as Hno.
  assert (lk_cpu (m_locks s l) = None) as Hnone.
  { destruct (lk_cpu (m_locks s l)) as [c'|] eqn:E; [|done]. exfalso. apply (Hno c'). by left. }
  rewrite Hnone. apply (ok_lock held held s c l (Spinlock true None) (Acquiring l 3)); cbn [lk_cpu lk_locked]; rewrite ?Hpc; try done.
  - intros c' Hc. by apply Hno in Hc.
  - intros l' [?|?]; done.
  - intros l' [[= <-]|?]; done.
  - intros l' n [[= _ <-]|?]; [lia|done].
  - split; [|done]. intros _. right. by left.
  - intros l'. split; [|naive_solver]. intros Hl'. left. split; [|done]. intros ->.
    apply (so_held _ _ Hok) in Hl'. congruence.
  - apply (so_nodup _ _ Hok).
Qed.

Lemma take_ok held s c l :
  smp_ok held s -> m_pc s c = Acquiring l 3 ->
  smp_ok (upd held c (l :: held c)) (set_pc c Running (set_lock l (Spinlock (lk_locked (m_locks s l)) (Some c)) s)).
Proof.
  intros Hok Hpc. assert (mid (m_pc s c) l) as Hm by (by left).
  assert (l ∉ held c) as Hnl.
  { intros Hl. apply (so_held _ _ Hok) in Hl. rewrite (so_mid _ _ Hok l c Hm) in Hl. done. }
  apply (ok_lock held _ s c l (Spinlock (lk_locked (m_locks s l)) (Some c)) Running); cbn [lk_cpu lk_locked]; rewrite ?Hpc, ?upd_eq; try done.
  - intros c' Hc. apply (so_excl _ _ Hok l); [done|]. by right.
  - intros l' [[= <-]|?]; done.
  - intros l' [?|?]; done.
  - intros l' n [?|?]; done.
  - split; [auto|]. intros _. apply (so_owned _ _ Hok). exists c. by right.
  - by intros c' [= <-].
  - intros [?|?]; done.
  - intros c' Hne. by rewrite upd_ne.
  - intros l'. rewrite elem_of_cons. split; [|naive_solver].
    intros [->|Hl']; [by right|]. left. split; [by intros ->|done].
  - constructor; [done|apply (so_nodup _ _ Hok)].
  - cbn. lia.
Qed.

Lemma untake_ok held s c l :
  smp_ok held s -> m_pc s c = Releasing l 1 ->
  smp_ok (upd held c (filter (fun x => x <> l) (held c)))
    (set_pc c (Releasing l 2) (set_lock l (Spinlock (lk_locked (m_locks s l)) None) s)).
Proof.
  intros Hok Hpc. pose proof (so_rel _ _ Hok l c Hpc) as Hc.
  apply (ok_lock held _ s c l (Spinlock (lk_locked (m_locks s l)) None) (Releasing l 2)); cbn [lk_cpu lk_locked]; rewrite ?Hpc, ?upd_eq; try done.
  - intros c' Hc'. apply (so_excl _ _ Hok l); [done|]. by left.
  - intros l' [?|?]; done.
  - intros l' [?|[= <-]]; done.
  - intros l' n [?|[= _ <-]]; [done|lia].
  - split; [|intros _; apply (so_owned _ _ Hok); exists c; by left]. intros _. right. by right.
  - intros c' Hne. by rewrite upd_ne.
  - intros l'. rewrite list_elem_of_filter. naive_solver.
  - apply list.NoDup_filter, (so_nodup _ _ Hok).
  - rewrite <- (length_remove l (held c)); [cbn [pending]; lia|apply (so_nodup _ _ Hok)|by apply (so_held _ _ Hok)].
Qed.

Lemma unlock_ok held s c l :
  smp_ok held s -> m_pc s c = Releasing l 2 ->
  smp_ok held (set_pc c (Releasing l 3) (set_lock l (Spinlock false (lk_cpu (m_locks s l))) s)).
Proof.
  intros Hok Hpc. assert (mid (m_pc s c) l) as Hm by (rewrite Hpc; by right).
  pose proof (so_mid _ _ Hok l c Hm) as Hnone. rewrite Hnone.
  apply (ok_lock held held s c l (Spinlock false None) (Releasing l 3)); cbn [lk_cpu lk_locked]; rewrite ?Hpc; try done.
  - intros c' Hc'. apply (so_excl _ _ Hok l); [done|]. by right.
  - intros l' [?|[= <-]]; done.
  - intros l' [?|?]; done.
  - intros l' n [?|[= _ <-]]; [done|lia].
  - split; [done|]. intros [?|[?|?]]; done.
  - intros l'. split; [|naive_solver]. intros Hl'. left. split; [|done]. intros ->.
    apply (so_held _ _ Hok) in Hl'. congruence.
  - apply (so_nodup _ _ Hok).
Qed.

Lemma pop_off_ok held s c l :
  smp_ok held s -> m_pc s c = Releasing l 3 ->
  exists s', pop_off c s = inl s' /\ smp_ok held (set_pc c Running s').
Proof.
  intros Hok Hpc. pose proof (so_noff _ _ Hok c) as Hn. rewrite Hpc in Hn. cbn in Hn.
  unfold pop_off. rewrite (so_intr _ _ Hok c) by lia. rewrite (proj2 (Z.ltb_ge _ _)) by lia.
  eexists. split; [done|].
  apply (ok_move held s _ c); cbn [set_pc set_cpu m_pc m_cpus m_locks]; rewrite ?upd_eq, ?Hpc; try done.
  - intros c' Hne. by rewrite !upd_ne.
  - intros l' [?|?]; done.
  - intros l' [?|?]; done.
  - intros l' n [?|?]; done.
  - cbn. lia.
  - cbn [noff sie]. intros Hpos. rewrite (proj2 (Z.eqb_neq _ _)) by lia. done.
Qed.

(** Every access of acquire() and release() keeps the invariant, and panics only
    where the caller misuses the lock. *)
Lemma turn_ok held s c :
  smp_ok held s ->
  match turn c s with
  | inl s' => exists held', smp_ok held' s'
  | inr msg => (msg = "acquire"%string /\ exists l, m_pc s c = Acquiring l 1 /\ owns s c l) \/
               (msg = "release"%string /\ exists l, m_pc s c = Releasing l 0 /\ ~ owns s c l)
  end.
Proof.
  intros Hok. unfold turn. destruct (m_pc s c) as [|l n|l n] eqn:Hpc; [eauto|..].
  - assert (n <= 3)%nat as Hn by (eapply (so_pc _ _ Hok); eauto).
    destruct n as [|[|[|[|n]]]]; [..|lia]; cbn [acquire_turn].
    + exists held. by apply push_off_ok.
    + destruct (holding c l s) eqn:Eh.
      * left. split; [done|]. exists l. split; [done|]. left. by apply (holding_owns held).
      * exists held. apply ok_goto; rewrite ?Hpc; try done.
        -- intros l' [?|?]; done.
        -- intros l' [?|?]; done.
        -- intros l' n [[= _ <-]|?]; [lia|done].
    + destruct (lk_locked (m_locks s l)) eqn:El; [eauto|]. exists held. by apply test_and_set_ok.
    + eexists. by apply take_ok.
  - assert (n <= 3)%nat as Hn by (eapply (so_pc _ _ Hok); eauto).
    destruct n as [|[|[|[|n]]]]; [..|lia]; cbn [release_turn].
    + destruct (holding c l s) eqn:Eh; cbn [negb].
      * exists held. apply ok_goto; rewrite ?Hpc; try done.
        -- intros l' [?|?]; done.
        -- intros l' [?|?]; done.
        -- intros l' [= <-]. by apply (holding_owns held).
        -- intros l' n [?|[= _ <-]]; [done|lia].
      * right. split; [done|]. exists l. split; [done|]. intros [Hc|Hm].
        -- apply (holding_owns held) in Hc; [congruence|done].
        -- rewrite Hpc in Hm. by destruct Hm.
    + eexists. by apply untake_ok.
    + exists held. by apply unlock_ok.
    + destruct (pop_off_ok held s c l Hok Hpc) as (s' & -> & Hs'). eauto.
Qed.

Lemma step_ok held s s' : smp_ok held s -> smp_step s s' -> exists held', smp_ok held' s'.
Proof.
  intros Hok Hs. destruct Hs as [c l s Hpc|c l s Hpc|c s s' E|c b s Hpc Hn].
  - exists held. apply ok_goto; rewrite ?Hpc; try done; [intros ? [?|?]; done..|].
    intros l' n [[= _ <-]|?]; [lia|done].
  - exists held. apply ok_goto; rewrite ?Hpc; try done; [intros ? [?|?]; done..|].
    intros l' n [?|[= _ <-]]; [done|lia].
  - pose proof (turn_ok held s c Hok) as Ht. by rewrite E in Ht.
  - exists held. apply (ok_move held s _ c); cbn [set_cpu m_pc m_cpus m_locks]; rewrite ?upd_eq, ?Hpc; try done.
    + intros c' Hne. by rewrite upd_ne.
    + intros l' [?|?]; done.
    + intros l' [?|?]; done.
    + intros l' n [?|?]; done.
    + cbn. rewrite Hn. done.
Qed.

Lemma reach_ok s0 s : (exists held, smp_ok held s0) -> smp_reach s0 s -> exists held, smp_ok held s.
Proof. intros H0 Hr. induction Hr as [|s s' _ IH Hs]; [done|]. destruct IH as [held IH]. by eapply step_ok. Qed.


(** ** CPU 0 takes lock 7 while CPU 1 spins on it *)

Definition go (c : nat) (s : smp) : smp := match turn c s with inl s' => s' | inr _ => s end.
Definition demo_smp : smp :=
  go 1 (go 1 (go 1 (set_pc 1 (Acquiring 7 0) (go 0 (go 0 (go 0 (go 0 (set_pc 0 (Acquiring 7 0) (smp_init (fun _ => true)))))))))).

Lemma reach_go s0 s c : smp_reach s0 s -> smp_reach s0 (go c s).
Proof.
  intros Hr. unfold go. destruct (turn c s) as [s'|] eqn:E; [|done]. eapply sr_step; [exact Hr|]. by apply (ss_turn c).
Qed.

