(* ===== verification/Sleeplock.v ===== *)
(** * Sleep locks (kernel/sleeplock.c)

    A sleep lock lives inside another object (a buffer, an inode); a
    [sleeplock_at] says which spin lock guards it, which channel its waiters
    sleep on, and how to reach it in the enclosing state. *)

From S2P Require Import Prelude.

Open Scope Z_scope.

Record sleeplock := Sleeplock {
  sl_locked : bool;
  sl_pid : Z
}.

#[export] Instance sleeplock_eq_dec : EqDecision sleeplock.
Proof. solve_decision. Defined.

Record sleeplock_at (S : Type) := SleeplockAt {
  sa_lk : lock;
  sa_chan : chan;
  sa_get : S -> option sleeplock;
  sa_set : sleeplock -> S -> S
}.
Arguments SleeplockAt {S}.
Arguments sa_lk {S}.
Arguments sa_chan {S}.
Arguments sa_get {S}.
Arguments sa_set {S}.

Definition unlocked : sleeplock := Sleeplock false 0.

Definition initsleeplock {S} (l : sleeplock_at S) : M S unit :=
  initlock (sa_lk l) ;;
  modify (sa_set l unlocked).

(** [while (lk->locked) sleep(lk, &lk->lk);]: in sequential code nobody else can
    release the lock, so a first sleep() never returns. *)
Definition acquiresleep {S} (l : sleeplock_at S) (mypid : Z) : M S unit :=
  acquire (sa_lk l) ;;
  let* o := gets (sa_get l) in
  let* lk := the o in
  (if sl_locked lk then sleep (sa_chan l) (sa_lk l) else ret tt) ;;
  modify (sa_set l (Sleeplock true mypid)) ;;
  release (sa_lk l).

Definition releasesleep {S} (l : sleeplock_at S) : M S unit :=
  acquire (sa_lk l) ;;
  modify (sa_set l unlocked) ;;
  wakeup (sa_chan l) ;;
  release (sa_lk l).

Definition holdingsleep {S} (l : sleeplock_at S) (mypid : Z) : M S bool :=
  acquire (sa_lk l) ;;
  let* o := gets (sa_get l) in
  let* lk := the o in
  release (sa_lk l) ;;
  ret (sl_locked lk && (sl_pid lk =? mypid)).

Section SleeplockWp.
Context {S : Type} (l : sleeplock_at S).

Lemma acquiresleep_wp pid p0 Q w :
  sa_lk l ∉ held w -> sa_get l (user w) = Some (Sleeplock false p0) ->
  Q tt (World (held w) (trace w) (sa_set l (Sleeplock true pid) (user w))) ->
  wp (acquiresleep l pid) Q w.
Proof.
  intros Hh Hg HQ. unfold acquiresleep. wp_step. apply wp_acquire; [done|]. cbn [user held trace].
  wp_step. wp_step. wp_step. eapply wp_the; [done|]. cbn. wp_step. wp_step.
  wp_step. wp_step. by eapply wp_release.
Qed.

Lemma releasesleep_wp Q w :
  sa_lk l ∉ held w ->
  Q tt (World (held w) (trace w ++ [EWakeup (sa_chan l)]) (sa_set l unlocked (user w))) ->
  wp (releasesleep l) Q w.
Proof.
  intros Hh HQ. unfold releasesleep. wp_step. apply wp_acquire; [done|]. cbn [user held trace].
  wp_step. wp_step. wp_step. wp_step. by eapply wp_release.
Qed.

Lemma holdingsleep_wp pid Q w :
  sa_lk l ∉ held w -> sa_get l (user w) = Some (Sleeplock true pid) ->
  Q true w ->
  wp (holdingsleep l pid) Q w.
Proof.
  intros Hh Hg HQ. unfold holdingsleep. wp_step. apply wp_acquire; [done|]. cbn [user held trace].
  wp_step. wp_step. wp_step. eapply wp_the; [done|]. wp_step. eapply wp_release; [done|].
  cbn [user held trace]. wp_step. cbn. rewrite Z.eqb_refl. by destruct w.
Qed.
End SleeplockWp.
