(* ===== verification/Bio.v ===== *)
(** * Buffer cache (kernel/bio.c)

    The NBUF buffers and the list head are one array, entry [BHEAD] being
    [bcache.head]; [b_prev] and [b_next] are array indices, so the LRU list is
    the doubly linked list of the code.  The disk is a map from block numbers to
    blocks; virtio_disk_rw() is the transfer of one block to or from it, with
    every write recorded in the trace. *)

From S2P Require Import Prelude Machine Sleeplock.

Open Scope Z_scope.

Abbreviation block := (list Z).

Record buf := Buf {
  b_valid : bool;
  b_disk : bool;
  b_dev : Z;
  b_blockno : Z;
  b_lock : sleeplock;
  b_refcnt : Z;
  b_prev : nat;
  b_next : nat;
  b_data : block
}.

Definition b_set_valid v b := Buf v (b_disk b) (b_dev b) (b_blockno b) (b_lock b) (b_refcnt b) (b_prev b) (b_next b) (b_data b).
Definition b_set_id d n b := Buf (b_valid b) (b_disk b) d n (b_lock b) (b_refcnt b) (b_prev b) (b_next b) (b_data b).
Definition b_set_lock l b := Buf (b_valid b) (b_disk b) (b_dev b) (b_blockno b) l (b_refcnt b) (b_prev b) (b_next b) (b_data b).
Definition b_set_refcnt r b := Buf (b_valid b) (b_disk b) (b_dev b) (b_blockno b) (b_lock b) r (b_prev b) (b_next b) (b_data b).
Definition b_set_prev p b := Buf (b_valid b) (b_disk b) (b_dev b) (b_blockno b) (b_lock b) (b_refcnt b) p (b_next b) (b_data b).
Definition b_set_next n b := Buf (b_valid b) (b_disk b) (b_dev b) (b_blockno b) (b_lock b) (b_refcnt b) (b_prev b) n (b_data b).
Definition b_set_data d b := Buf (b_valid b) (b_disk b) (b_dev b) (b_blockno b) (b_lock b) (b_refcnt b) (b_prev b) (b_next b) d.

Record bcache := Bcache {
  bc_bufs : list buf;          (* bcache.buf[0..NBUF-1], then bcache.head *)
  bc_disk : gmap Z block;      (* contents of the disk *)
  bc_pid : Z                   (* myproc()->pid *)
}.

Definition NBUFn : nat := Z.to_nat NBUF.
Definition BHEAD : nat := NBUFn.

Definition upd_buf (i : nat) (f : buf -> buf) (s : bcache) : bcache :=
  Bcache (alter f i (bc_bufs s)) (bc_disk s) (bc_pid s).
Definition set_disk (d : gmap Z block) (s : bcache) : bcache :=
  Bcache (bc_bufs s) d (bc_pid s).

Definition getb (i : nat) : M bcache buf :=
  let* o := gets (fun s => bc_bufs s !! i) in the o.
Definition setb (i : nat) (f : buf -> buf) : M bcache unit := modify (upd_buf i f).

Definition buf_lock (i : nat) : sleeplock_at bcache :=
  SleeplockAt (LBufLk i) (ChBufLock i)
    (fun s => b_lock <$> bc_bufs s !! i)
    (fun l => upd_buf i (b_set_lock l)).

(** ** The operations *)

(** The body of binit()'s loop. *)
Definition binit_buf (b : nat) : M bcache unit :=
  let* h := getb BHEAD in
  setb b (b_set_next (b_next h)) ;;
  setb b (b_set_prev BHEAD) ;;
  initsleeplock (buf_lock b) ;;
  let* h := getb BHEAD in
  setb (b_next h) (b_set_prev b) ;;
  setb BHEAD (b_set_next b).

Definition binit : M bcache unit :=
  initlock LBcache ;;
  setb BHEAD (b_set_prev BHEAD) ;;
  setb BHEAD (b_set_next BHEAD) ;;
  for_each (seq 0 NBUFn) binit_buf.

(** [for(b = bcache.head.next; b != &bcache.head; b = b->next)] looking for the
    block, and the same backwards looking for an unused buffer. *)
Definition bget_cached (dev blockno : Z) : M bcache (option nat) :=
  let* h := getb BHEAD in
  iter (S NBUFn) (fun b =>
    if decide (b = BHEAD) then ret (inr None)
    else let* x := getb b in
         if (b_dev x =? dev) && (b_blockno x =? blockno)
         then ret (inr (Some b)) else ret (inl (b_next x)))
    (b_next h).

Definition bget_unused : M bcache (option nat) :=
  let* h := getb BHEAD in
  iter (S NBUFn) (fun b =>
    if decide (b = BHEAD) then ret (inr None)
    else let* x := getb b in
         if b_refcnt x =? 0 then ret (inr (Some b)) else ret (inl (b_prev x)))
    (b_prev h).

Definition bget (dev blockno : Z) : M bcache nat :=
  acquire LBcache ;;
  let* r := bget_cached dev blockno in
  match r with
  | Some b =>
      setb b (fun x => b_set_refcnt (u32 (b_refcnt x + 1)) x) ;;
      release LBcache ;;
      let* pid := gets bc_pid in
      acquiresleep (buf_lock b) pid ;;
      ret b
  | None =>
      let* r := bget_unused in
      match r with
      | Some b =>
          setb b (b_set_id dev blockno) ;;
          setb b (b_set_valid false) ;;
          setb b (b_set_refcnt 1) ;;
          release LBcache ;;
          let* pid := gets bc_pid in
          acquiresleep (buf_lock b) pid ;;
          ret b
      | None => panic "bget: no buffers"
      end
  end.

(** A client's access to [b->data] of a buffer it has locked. *)
Definition bdata (b : nat) : M bcache block := let* x := getb b in ret (b_data x).
Definition bdata_set (b : nat) (d : block) : M bcache unit := setb b (b_set_data d).

(** The transfer of one block.  A block number outside the disk makes the device
    report an error, on which virtio_disk_intr() panics. *)
Definition virtio_disk_rw (i : nat) (write : bool) : M bcache unit :=
  let* b := getb i in
  let* disk := gets bc_disk in
  match disk !! b_blockno b with
  | None => panic "virtio_disk_intr status"
  | Some d =>
      if write
      then modify (set_disk (<[b_blockno b := b_data b]> disk)) ;;
           emit (EDisk (b_blockno b) (b_data b))
      else setb i (b_set_data d)
  end.

Definition bread (dev blockno : Z) : M bcache nat :=
  let* b := bget dev blockno in
  let* x := getb b in
  (if negb (b_valid x)
   then virtio_disk_rw b false ;; setb b (b_set_valid true)
   else ret tt) ;;
  ret b.

Definition bwrite (b : nat) : M bcache unit :=
  let* pid := gets bc_pid in
  let* h := holdingsleep (buf_lock b) pid in
  if negb h then panic "bwrite" else virtio_disk_rw b true.

(** "no one is waiting for it": move [b] to the front of the list. *)
Definition lru_to_front (b : nat) : M bcache unit :=
  let* x := getb b in
  setb (b_next x) (b_set_prev (b_prev x)) ;;
  let* x := getb b in
  setb (b_prev x) (b_set_next (b_next x)) ;;
  let* h := getb BHEAD in
  setb b (b_set_next (b_next h)) ;;
  setb b (b_set_prev BHEAD) ;;
  let* h := getb BHEAD in
  setb (b_next h) (b_set_prev b) ;;
  setb BHEAD (b_set_next b).

Definition brelse (b : nat) : M bcache unit :=
  let* pid := gets bc_pid in
  let* h := holdingsleep (buf_lock b) pid in
  if negb h then panic "brelse" else
  releasesleep (buf_lock b) ;;
  acquire LBcache ;;
  setb b (fun x => b_set_refcnt (u32 (b_refcnt x - 1)) x) ;;
  let* x := getb b in
  (if b_refcnt x =? 0 then lru_to_front b else ret tt) ;;
  release LBcache.

Definition bpin (b : nat) : M bcache unit :=
  acquire LBcache ;;
  setb b (fun x => b_set_refcnt (u32 (b_refcnt x + 1)) x) ;;
  release LBcache.

Definition bunpin (b : nat) : M bcache unit :=
  acquire LBcache ;;
  setb b (fun x => b_set_refcnt (u32 (b_refcnt x - 1)) x) ;;
  release LBcache.

(** ** The doubly linked list

    [path nx pv xs]: consecutive elements of [xs] point at each other. *)

Fixpoint path (nx pv : nat -> nat) (xs : list nat) : Prop :=
  match xs with
  | x :: ((y :: _) as t) => nx x = y /\ pv y = x /\ path nx pv t
  | _ => True
  end.

Definition fupd (f : nat -> nat) (a v : nat) : nat -> nat :=
  fun x => if decide (x = a) then v else f x.

Lemma fupd_eq f a v : fupd f a v a = v.
Proof. unfold fupd. by rewrite decide_True. Qed.
Lemma fupd_ne f a v x : x <> a -> fupd f a v x = f x.
Proof. intros. unfold fupd. by rewrite decide_False. Qed.

Lemma path_app nx pv xs y ys :
  path nx pv (xs ++ y :: ys) <-> path nx pv (xs ++ [y]) /\ path nx pv (y :: ys).
Proof.
  induction xs as [|x xs IH]; simpl; [tauto|].
  destruct xs as [|z xs]; simpl in *; tauto.
Qed.

Lemma path_frame nx pv nx' pv' x xs y :
  (forall z, z ∈ x :: xs -> nx' z = nx z) ->
  (forall z, z ∈ xs ++ [y] -> pv' z = pv z) ->
  path nx pv (x :: xs ++ [y]) -> path nx' pv' (x :: xs ++ [y]).
Proof.
  revert x. induction xs as [|z xs IH]; intros x Hn Hp H; simpl in *.
  - rewrite Hn, Hp by set_solver. done.
  - destruct H as (H1 & H2 & H3). rewrite Hn, Hp by set_solver.
    repeat split; try done. apply IH; try done; intros; [apply Hn|apply Hp]; set_solver.
Qed.

Lemma path_ext nx pv nx' pv' xs :
  (forall z, nx' z = nx z) -> (forall z, pv' z = pv z) -> path nx pv xs -> path nx' pv' xs.
Proof.
  intros Hn Hp. induction xs as [|x xs IH]; simpl; [done|].
  destruct xs as [|y xs]; [done|]. rewrite Hn, Hp. intros (? & ? & ?). auto.
Qed.

(** Inserting [b] after the head. *)
Lemma path_push nx pv h b xs :
  b ∉ xs -> b <> h -> NoDup xs -> h ∉ xs ->
  path nx pv (h :: xs ++ [h]) ->
  let nx2 := fupd nx b (nx h) in
  let pv2 := fupd pv b h in
  let pv3 := fupd pv2 (nx2 h) b in
  let nx3 := fupd nx2 h b in
  path nx3 pv3 (h :: b :: xs ++ [h]).
Proof.
  intros Hb Hbh Hnd Hh H nx2 pv2 pv3 nx3.
  assert (nx2 h = nx h) as E by (unfold nx2; by rewrite fupd_ne).
  unfold pv3, nx3. rewrite E.
  destruct xs as [|f xs]; simpl in H |- *.
  - destruct H as (Hn & Hp & _). rewrite Hn.
    unfold nx2, pv2. rewrite Hn.
    repeat split; repeat (rewrite fupd_eq || rewrite fupd_ne by congruence); done.
  - destruct H as (Hn & Hp & H). rewrite Hn. apply not_elem_of_cons in Hb as [Hbf Hb].
    apply not_elem_of_cons in Hh as [Hhf Hh].
    apply list.NoDup_cons in Hnd as [Hf Hnd].
    unfold nx2, pv2. rewrite Hn.
    refine (conj _ (conj _ (conj _ (conj _ _)))).
    1-4: repeat (rewrite fupd_eq || rewrite fupd_ne by congruence); done.
    apply (path_frame nx pv); [..|done].
    + intros z Hz. rewrite !fupd_ne; [done|set_solver..].
    + intros z Hz. rewrite !fupd_ne; [done|set_solver..].
Qed.

(** Taking [b] out. *)
Lemma path_unlink nx pv h l1 b l2 :
  NoDup (h :: l1 ++ b :: l2) ->
  path nx pv (h :: l1 ++ b :: l2 ++ [h]) ->
  let pv1 := fupd pv (nx b) (pv b) in
  let nx1 := fupd nx (pv1 b) (nx b) in
  path nx1 pv1 (h :: (l1 ++ l2) ++ [h]).
Proof.
  intros Hnd H pv1 nx1.
  assert (exists n C, l2 ++ [h] = n :: C /\ nx b = n /\ pv n = b /\ path nx pv (n :: C)) as
    (n & C & EC & Hn & Hpn & HC).
  { change (h :: l1 ++ b :: l2 ++ [h]) with ((h :: l1) ++ b :: (l2 ++ [h])) in H.
    apply path_app in H as [_ H]. destruct (l2 ++ [h]) as [|n C] eqn:E; [by destruct l2|].
    simpl in H. exists n, C. tauto. }
  assert (exists p A, h :: l1 = A ++ [p] /\ nx p = b /\ pv b = p /\ path nx pv (A ++ [p])) as
    (p & A & EA & Hp & Hpb & HA).
  { destruct (@exists_last _ (h :: l1)) as (A & p & E); [done|]. exists p, A.
    change (h :: l1 ++ b :: l2 ++ [h]) with ((h :: l1) ++ b :: (l2 ++ [h])) in H.
    rewrite E, <- app_assoc in H. simpl in H. apply path_app in H as [H1 H2].
    simpl in H2. tauto. }
  assert (n <> b) as Hnb.
  { intros ->. assert (b ∈ l2 ++ [h]) as Hin by (rewrite EC; constructor).
    apply list.NoDup_cons in Hnd as [Hh Hnd]. apply list.NoDup_app in Hnd as (_ & _ & Hnd).
    apply list.NoDup_cons in Hnd as [Hnd _]. set_solver. }
  assert (pv1 b = p) as Epv by (unfold pv1; rewrite Hn, fupd_ne; done).
  unfold nx1. rewrite Epv.
  replace (h :: (l1 ++ l2) ++ [h]) with (A ++ p :: n :: C).
  2:{ rewrite <- app_assoc, EC. change (h :: l1 ++ n :: C) with ((h :: l1) ++ n :: C).
      by rewrite EA, <- app_assoc. }
  (* no index but the head occurs twice *)
  assert (NoDup (A ++ [p])) as HndA.
  { rewrite <- EA. apply (sublist_NoDup _ (h :: l1 ++ b :: l2)); [done|].
    apply sublist_skip, sublist_inserts_r. reflexivity. }
  assert (NoDup (n :: C)) as HndC.
  { rewrite <- EC. apply list.NoDup_cons in Hnd as [Hh Hnd].
    apply list.NoDup_app in Hnd as (_ & _ & Hnd).
    apply list.NoDup_cons in Hnd as [_ Hnd]. apply list.NoDup_app. split; [done|].
    split; [|apply NoDup_singleton]. set_solver. }
  assert (forall z, z ∈ A ++ [p] -> z ∈ n :: C -> z = h) as Hdisj.
  { intros z. rewrite <- EA, <- EC. intros Hz1 Hz2.
    apply list.NoDup_cons in Hnd as [Hh Hnd]. apply list.NoDup_app in Hnd as (_ & Hd & _).
    apply elem_of_app in Hz2 as [Hz2|Hz2]; [|set_solver].
    apply elem_of_cons in Hz1 as [->|Hz1]; [done|]. exfalso. apply (Hd z Hz1). set_solver. }
  apply path_app. split.
  - destruct A as [|a A]; [done|]. simpl in HA |- *. simpl in EA. injection EA as <- EA.
    apply (path_frame nx pv); [..|done].
    + intros z Hz. apply fupd_ne. intros ->.
      change (NoDup ((h :: A) ++ [p])) in HndA.
      apply list.NoDup_app in HndA as (_ & Hx & _).
      apply (Hx p Hz). set_solver.
    + intros z Hz. unfold pv1. apply fupd_ne. rewrite Hn. intros ->.
      assert (n = h) as -> by (apply Hdisj; [set_solver|constructor]).
      apply list.NoDup_cons in HndA as [HndA _]. done.
  - simpl. split; [by rewrite Hn, fupd_eq|]. split; [unfold pv1; by rewrite Hn, fupd_eq|].
    destruct (@exists_last _ (n :: C)) as (C' & y & EC'); [done|].
    assert (y = h) as ->.
    { rewrite <- EC in EC'. apply app_inj_2 in EC' as [_ EC']; [congruence|done]. }
    destruct C' as [|n' C'].
    { injection EC' as -> ->. done. }
    simpl in EC'. injection EC' as <- ->.
    change (path (fupd nx p (nx b)) pv1 (n :: C' ++ [h])).
    apply (path_frame nx pv); [..|done].
    + intros z Hz. apply fupd_ne. intros ->.
      assert (p = h) as -> by (apply Hdisj; set_solver).
      change (NoDup ((n :: C') ++ [h])) in HndC.
      apply list.NoDup_app in HndC as (_ & Hx & _). apply (Hx h Hz). set_solver.
    + intros z Hz. unfold pv1. rewrite Hn. apply fupd_ne. intros ->.
      apply list.NoDup_cons in HndC as [HndC _]. done.
Qed.

(** ** The invariant *)

Definition nx (s : bcache) (i : nat) : nat := from_option b_next 0%nat (bc_bufs s !! i).
Definition pv (s : bcache) (i : nat) : nat := from_option b_prev 0%nat (bc_bufs s !! i).

(** [bio_ok s l]: the linked list is [l], most recently used first, and visits
    every buffer once; no two buffers hold the same block; a buffer nobody
    references is unlocked and, if valid, agrees with the disk. *)
Record bio_ok (s : bcache) (l : list nat) : Prop := BioOk {
  bo_len : length (bc_bufs s) = S NBUFn;
  bo_perm : l ≡ₚ seq 0 NBUFn;
  bo_path : path (nx s) (pv s) (BHEAD :: l ++ [BHEAD]);
  bo_uniq : forall i j bi bj, (i < NBUFn)%nat -> (j < NBUFn)%nat ->
    bc_bufs s !! i = Some bi -> bc_bufs s !! j = Some bj ->
    b_dev bi = ROOTDEV -> b_dev bj = ROOTDEV -> b_blockno bi = b_blockno bj -> i = j;
  bo_free : forall i b, (i < NBUFn)%nat -> bc_bufs s !! i = Some b -> b_refcnt b = 0 ->
    sl_locked (b_lock b) = false /\
    (b_valid b = true -> b_dev b = ROOTDEV -> bc_disk s !! b_blockno b = Some (b_data b));
  bo_range : forall i b, (i < NBUFn)%nat -> bc_bufs s !! i = Some b -> 0 <= b_refcnt b < 2 ^ 32
}.

(** Replacing one buffer. *)
Definition bset (i : nat) (b : buf) (s : bcache) : bcache :=
  Bcache (<[i := b]> (bc_bufs s)) (bc_disk s) (bc_pid s).

Lemma upd_buf_bset s i b f : bc_bufs s !! i = Some b -> upd_buf i f s = bset i (f b) s.
Proof.
  intros H. unfold upd_buf, bset. f_equal. apply list_eq. intros j.
  destruct (decide (j = i)) as [->|].
  - rewrite list_lookup_alter_eq, list_lookup_insert_eq, H by (by eapply lookup_lt_Some). done.
  - by rewrite list_lookup_alter_ne, list_lookup_insert_ne by done.
Qed.

Lemma lookup_bset_eq s i b b0 : bc_bufs s !! i = Some b0 -> bc_bufs (bset i b s) !! i = Some b.
Proof. intros H. apply list_lookup_insert_eq. by eapply lookup_lt_Some. Qed.
Lemma lookup_bset_ne s i j b : i <> j -> bc_bufs (bset i b s) !! j = bc_bufs s !! j.
Proof. intros. by apply list_lookup_insert_ne. Qed.
Lemma bset_bset s i b b' : bset i b' (bset i b s) = bset i b' s.
Proof. unfold bset. cbn. by rewrite list_insert_insert_eq. Qed.

Lemma wp_getb i b Q w : bc_bufs (user w) !! i = Some b -> Q b w -> wp (getb i) Q w.
Proof. intros H HQ. unfold getb. wp_step. wp_step. by eapply wp_the. Qed.

Lemma wp_setb i b f Q w :
  bc_bufs (user w) !! i = Some b ->
  Q tt (World (held w) (trace w) (bset i (f b) (user w))) -> wp (setb i f) Q w.
Proof.
  intros H HQ. unfold setb. apply wp_modify. by rewrite (upd_buf_bset _ _ b).
Qed.

Lemma wp_acquire_buf i b pid Q w :
  bc_bufs (user w) !! i = Some b -> sl_locked (b_lock b) = false -> LBufLk i ∉ held w ->
  Q tt (World (held w) (trace w) (bset i (b_set_lock (Sleeplock true pid) b) (user w))) ->
  wp (acquiresleep (buf_lock i) pid) Q w.
Proof.
  intros Hb Hl Hh HQ. eapply (acquiresleep_wp _ pid (sl_pid (b_lock b))); [done| |].
  - cbn. rewrite Hb. cbn. f_equal. destruct (b_lock b). cbn in *. congruence.
  - cbn. by rewrite (upd_buf_bset _ _ b).
Qed.

Lemma wp_holding_buf i b pid Q w :
  bc_bufs (user w) !! i = Some b -> b_lock b = Sleeplock true pid -> LBufLk i ∉ held w ->
  Q true w -> wp (holdingsleep (buf_lock i) pid) Q w.
Proof.
  intros Hb Hl Hh HQ. apply holdingsleep_wp; [done| |done]. cbn. by rewrite Hb, <- Hl.
Qed.

Lemma wp_release_buf i b Q w :
  bc_bufs (user w) !! i = Some b -> LBufLk i ∉ held w ->
  Q tt (World (held w) (trace w ++ [EWakeup (ChBufLock i)])
        (bset i (b_set_lock unlocked b) (user w))) ->
  wp (releasesleep (buf_lock i)) Q w.
Proof.
  intros Hb Hh HQ. apply releasesleep_wp; [done|]. cbn. by rewrite (upd_buf_bset _ _ b).
Qed.

Ltac bio_step :=
  cbv beta; lazymatch goal with
  | |- wp (bind _ _) _ _ => apply wp_bind
  | |- wp (getb _) _ _ => eapply wp_getb; [eassumption|]
  | |- wp (setb _ _) _ _ => eapply wp_setb; [eassumption|]
  | |- wp (release _) _ _ => eapply wp_release; [reflexivity|]
  | |- wp (acquire _) _ _ => apply wp_acquire; [done|]
  | _ => wp_step
  end; cbn [user held trace].

(** ** Scanning the list *)

Fixpoint walks (f : nat -> nat) (xs : list nat) : Prop :=
  match xs with
  | x :: ((y :: _) as t) => f x = y /\ walks f t
  | _ => True
  end.

Lemma path_walks_next f g xs : path f g xs -> walks f xs.
Proof.
  induction xs as [|x xs IH]; simpl; [done|]. destruct xs; [done|]. intros (? & _ & ?). auto.
Qed.

Lemma walks_snoc f xs x y : walks f (xs ++ [x]) -> f x = y -> walks f (xs ++ [x; y]).
Proof.
  induction xs as [|z xs IH]; simpl; intros H E; [done|].
  destruct xs as [|z' xs]; simpl in *; [tauto|]. destruct H as [H1 H2]. split; [done|].
  by apply IH.
Qed.

Lemma path_walks_prev f g xs : path f g xs -> walks g (reverse xs).
Proof.
  induction xs as [|x xs IH]; [done|]. destruct xs as [|y xs]; [done|].
  intros (_ & H1 & H2). specialize (IH H2).
  rewrite reverse_cons in IH |- *. rewrite reverse_cons. rewrite <- app_assoc. simpl.
  by apply walks_snoc.
Qed.

Definition test_at (test : buf -> bool) (bufs : list buf) (i : nat) : bool :=
  from_option test false (bufs !! i).

Lemma scan_wp (test : buf -> bool) (adv : buf -> nat) fuel xs Q w :
  (forall x, x ∈ xs -> (x < NBUFn)%nat) -> length (bc_bufs (user w)) = S NBUFn ->
  walks (fun i => from_option adv 0%nat (bc_bufs (user w) !! i)) (xs ++ [BHEAD]) ->
  (length xs < fuel)%nat ->
  Q (List.find (test_at test (bc_bufs (user w))) xs) w ->
  wp (iter fuel (fun b =>
        if decide (b = BHEAD) then ret (inr None)
        else let* x := getb b in
             if test x then ret (inr (Some b)) else ret (inl (adv x)))
       (List.hd BHEAD xs)) Q w.
Proof.
  revert xs. induction fuel as [|fuel IH]; intros xs Hx Hlen Hw Hf HQ; [lia|].
  cbn [iter]. bio_step. destruct xs as [|x xs]; cbn [List.hd List.find] in *.
  - rewrite decide_True by done. by do 2 wp_step.
  - assert (x < NBUFn)%nat as Hlt by (apply Hx; constructor).
    rewrite decide_False by (unfold BHEAD; lia).
    destruct (lookup_lt_is_Some_2 (bc_bufs (user w)) x) as [b Hb]; [lia|].
    do 2 bio_step. unfold test_at in HQ at 1. rewrite Hb in HQ. cbn in HQ.
    destruct (test b); wp_step; [by wp_step|].
    assert (adv b = List.hd BHEAD xs) as ->.
    { destruct xs as [|y xs]; simpl in Hw; rewrite Hb in Hw; cbn in Hw; tauto. }
    apply IH; try done.
    + intros y Hy. apply Hx. by constructor.
    + destruct xs as [|y xs]; simpl in *; tauto.
    + simpl in Hf. lia.
Qed.

(** ** The abstract cache

    What clients see of a referenced block: which buffer holds it, who has it
    locked, its reference count and its data.  Unreferenced blocks are as on
    disk, cached or not. *)

Record bcore := Bcore {
  c_lock : sleeplock;
  c_refcnt : Z;
  c_data : block
}.

Definition core_of (b : buf) : bcore := Bcore (b_lock b) (b_refcnt b) (b_data b).

Definition holds (x : Z) (b : buf) : Prop := b_dev b = ROOTDEV /\ b_blockno b = x.
#[export] Instance holds_dec x b : Decision (holds x b).
Proof. unfold holds. apply _. Defined.

Definition bref (s : bcache) (x : Z) : option (nat * bcore) :=
  match list_find (holds x) (take NBUFn (bc_bufs s)) with
  | Some (i, b) => if decide (b_refcnt b = 0) then None else Some (i, core_of b)
  | None => None
  end.

(** How many buffers are referenced. *)
Definition referenced (b : buf) : Prop := b_refcnt b <> 0.
#[export] Instance referenced_dec b : Decision (referenced b).
Proof. unfold referenced. apply _. Defined.

Definition nused (s : bcache) : nat :=
  length (filter referenced (take NBUFn (bc_bufs s))).

Lemma bref_Some s l x i c :
  bio_ok s l ->
  bref s x = Some (i, c) <->
  exists b, (i < NBUFn)%nat /\ bc_bufs s !! i = Some b /\ holds x b /\
            b_refcnt b <> 0 /\ core_of b = c.
Proof.
  intros Hok. unfold bref. split.
  - destruct (list_find _ _) as [[j b]|] eqn:E; [|done].
    apply list_find_Some in E as (Hj & Hh & _).
    case_decide as Hz; [done|]. intros [= -> <-]. exists b.
    apply lookup_take_Some in Hj as [Hj Hlt]. done.
  - intros (b & Hi & Hb & Hh & Hz & <-).
    destruct (list_find _ _) as [[j b']|] eqn:E.
    + apply list_find_Some in E as (Hj & Hh' & _).
      apply lookup_take_Some in Hj as [Hj Hlt].
      assert (i = j) as <-.
      { destruct Hh, Hh'. eapply (bo_uniq _ _ Hok); eauto. congruence. }
      rewrite Hb in Hj. injection Hj as <-. by rewrite decide_False.
    + exfalso. apply list_find_None in E. rewrite Forall_lookup in E.
      apply (E i b); [|done]. by apply lookup_take_Some.
Qed.

Lemma bref_None s l x :
  bio_ok s l ->
  bref s x = None <->
  (forall i b, (i < NBUFn)%nat -> bc_bufs s !! i = Some b -> holds x b -> b_refcnt b = 0).
Proof.
  intros Hok. split.
  - intros Hn i b Hi Hb Hh. destruct (decide (b_refcnt b = 0)) as [|Hz]; [done|].
    assert (bref s x = Some (i, core_of b)) as E by (apply (bref_Some _ _ _ _ _ Hok); eauto 10).
    congruence.
  - intros H. destruct (bref s x) as [[i c]|] eqn:E; [|done].
    apply (bref_Some _ _ _ _ _ Hok) in E as (b & ? & ? & ? & Hz & _). exfalso. eauto.
Qed.

Lemma bref_inj s l x y i cx cy :
  bio_ok s l -> bref s x = Some (i, cx) -> bref s y = Some (i, cy) -> x = y.
Proof.
  intros Hok Hx Hy.
  apply (bref_Some _ _ _ _ _ Hok) in Hx as (b & _ & Hb & Hx & _).
  apply (bref_Some _ _ _ _ _ Hok) in Hy as (b' & _ & Hb' & Hy & _).
  unfold holds in *. destruct_and!. congruence.
Qed.

Lemma filter_insert_length {A} (P : A -> Prop) `{forall x, Decision (P x)} (xs : list A) i a a' :
  xs !! i = Some a ->
  (length (filter P (<[i := a']> xs)) + (if decide (P a) then 1 else 0) =
   length (filter P xs) + (if decide (P a') then 1 else 0))%nat.
Proof.
  revert i. induction xs as [|x xs IH]; intros i Hi; [done|].
  destruct i as [|i]; simpl in *.
  - injection Hi as ->. rewrite !filter_cons. destruct (decide (P a)), (decide (P a')); simpl; lia.
  - specialize (IH i Hi). rewrite !filter_cons. destruct (decide (P x)); simpl; lia.
Qed.

Lemma nused_bset s i b b' :
  bc_bufs s !! i = Some b -> (i < NBUFn)%nat ->
  (nused (bset i b' s) + (if decide (referenced b) then 1 else 0) =
   nused s + (if decide (referenced b') then 1 else 0))%nat.
Proof.
  intros Hb Hi. unfold nused, bset. cbn.
  rewrite take_insert_lt by lia.
  apply filter_insert_length. by apply lookup_take_Some.
Qed.

Lemma nused_free s l :
  bio_ok s l -> (nused s < NBUFn)%nat ->
  exists i b, (i < NBUFn)%nat /\ bc_bufs s !! i = Some b /\ b_refcnt b = 0.
Proof.
  intros Hok Hn.
  assert (length (take NBUFn (bc_bufs s)) = NBUFn) as Hl.
  { rewrite length_take, (bo_len _ _ Hok). lia. }
  destruct (decide (Forall referenced (take NBUFn (bc_bufs s)))) as [Ha|Hna].
  - exfalso. unfold nused in Hn. rewrite filter_all in Hn by done. lia.
  - apply not_Forall_Exists in Hna; [|intros b; apply _].
    apply list.Exists_exists in Hna as (b & Hin & Hz).
    apply list_elem_of_lookup in Hin as [i Hi]. apply lookup_take_Some in Hi as [Hi Hlt].
    exists i, b. split; [done|]. split; [done|]. 
    destruct (decide (b_refcnt b = 0)) as [|Hr]; [done|]. by destruct Hz.
Qed.

(** Replacing a buffer without touching its links keeps the invariant, provided
    its identity stays unique and an unreferenced buffer is clean. *)
Lemma bset_ok s l i b b' :
  bio_ok s l -> bc_bufs s !! i = Some b -> (i < NBUFn)%nat ->
  b_next b' = b_next b -> b_prev b' = b_prev b ->
  (b_dev b' = ROOTDEV -> forall j bj, (j < NBUFn)%nat -> j <> i ->
     bc_bufs s !! j = Some bj -> ~ holds (b_blockno b') bj) ->
  (b_refcnt b' = 0 -> sl_locked (b_lock b') = false /\
     (b_valid b' = true -> b_dev b' = ROOTDEV -> bc_disk s !! b_blockno b' = Some (b_data b'))) ->
  0 <= b_refcnt b' < 2 ^ 32 ->
  bio_ok (bset i b' s) l.
Proof.
  intros Hok Hb Hi Hn Hp Hid Hfree Hr.
  assert (forall j bj, bc_bufs (bset i b' s) !! j = Some bj ->
            (j = i /\ bj = b') \/ (j <> i /\ bc_bufs s !! j = Some bj)) as Hcase.
  { intros j bj Hj. destruct (decide (i = j)) as [<-|Hne].
    - rewrite (lookup_bset_eq _ _ _ b) in Hj by done. left. by injection Hj.
    - rewrite lookup_bset_ne in Hj by done. by right. }
  constructor.
  - cbn. rewrite length_insert. apply Hok.
  - apply Hok.
  - eapply path_ext; [| |apply Hok]; intros z; unfold nx, pv.
    + destruct (decide (i = z)) as [<-|]; [by rewrite (lookup_bset_eq _ _ _ b), Hb|].
      by rewrite lookup_bset_ne.
    + destruct (decide (i = z)) as [<-|]; [by rewrite (lookup_bset_eq _ _ _ b), Hb|].
      by rewrite lookup_bset_ne.
  - intros j k bj bk Hj Hk Hbj Hbk Hdj Hdk Hbn.
    apply Hcase in Hbj as [[-> ->]|[Hji Hbj]]; apply Hcase in Hbk as [[-> ->]|[Hki Hbk]].
    + done.
    + exfalso. eapply Hid; [done|exact Hk|done|done|]. by split.
    + exfalso. eapply Hid; [done|exact Hj|done|done|]. by split.
    + eapply (bo_uniq _ _ Hok); eauto.
  - intros j bj Hj Hbj Hz. apply Hcase in Hbj as [[-> ->]|[Hji Hbj]]; [by apply Hfree|].
    by eapply (bo_free _ _ Hok).
  - intros j bj Hj Hbj. apply Hcase in Hbj as [[-> ->]|[Hji Hbj]]; [done|].
    by eapply (bo_range _ _ Hok).
Qed.

(** ... and what it does to the abstract cache. *)
Lemma bref_bset s l i b b' x :
  bio_ok s l -> bio_ok (bset i b' s) l -> bc_bufs s !! i = Some b -> (i < NBUFn)%nat ->
  b_dev b' = ROOTDEV ->
  (holds (b_blockno b') b \/ b_refcnt b = 0) ->
  bref (bset i b' s) x =
    if decide (x = b_blockno b')
    then (if decide (b_refcnt b' = 0) then None else Some (i, core_of b'))
    else bref s x.
Proof.
  intros Hok Hok' Hb Hi Hd Hid.
  assert (bc_bufs (bset i b' s) !! i = Some b') as Hb' by (by eapply lookup_bset_eq).
  destruct (decide (x = b_blockno b')) as [->|Hx].
  - case_decide as Hz.
    + apply (bref_None _ _ _ Hok'). intros j bj Hj Hbj Hh.
      assert (j = i) as ->.
      { destruct Hh. eapply (bo_uniq _ _ Hok'); eauto. }
      congruence.
    + apply (bref_Some _ _ _ _ _ Hok'). exists b'. repeat split; done.
  - assert (forall j c, bref (bset i b' s) x = Some (j, c) <-> bref s x = Some (j, c)) as Heq.
    { intros j c. rewrite (bref_Some _ _ _ _ _ Hok'), (bref_Some _ _ _ _ _ Hok).
      split; intros (b0 & Hj & Hb0 & Hh & Hz & Hc); exists b0.
      - assert (i <> j) as Hne.
        { intros <-. rewrite Hb' in Hb0. injection Hb0 as <-. destruct Hh. done. }
        rewrite lookup_bset_ne in Hb0 by done. done.
      - assert (i <> j) as Hne.
        { intros <-. rewrite Hb in Hb0. injection Hb0 as <-.
          destruct Hid as [[_ Hid]|Hid]; [|done]. destruct Hh. congruence. }
        rewrite lookup_bset_ne by done. done. }
    destruct (bref s x) as [[j c]|] eqn:E; [by apply Heq|].
    destruct (bref (bset i b' s) x) as [[j c]|] eqn:E'; [|done].
    discriminate (proj1 (Heq j c) eq_refl).
Qed.

Lemma find_hit s l bno i b :
  bio_ok s l -> (i < NBUFn)%nat -> bc_bufs s !! i = Some b -> holds bno b ->
  List.find (test_at (fun x => (b_dev x =? ROOTDEV) && (b_blockno x =? bno)) (bc_bufs s)) l = Some i.
Proof.
  intros Hok Hi Hb [Hd Hn].
  destruct (List.find _ l) as [j|] eqn:E.
  - apply find_some in E as [Hin Ht]. unfold test_at in Ht.
    destruct (bc_bufs s !! j) as [bj|] eqn:Hj; [|done]. cbn in Ht.
    apply andb_true_iff in Ht as [Ht1 Ht2]. apply Z.eqb_eq in Ht1, Ht2. f_equal.
    eapply (bo_uniq _ _ Hok); eauto; [|congruence].
    apply list_elem_of_In in Hin. rewrite (bo_perm _ _ Hok) in Hin.
    apply elem_of_seq in Hin. lia.
  - exfalso. assert (In i l) as Ht.
    { apply list_elem_of_In. rewrite (bo_perm _ _ Hok). apply elem_of_seq. lia. }
    apply (find_none _ _ E) in Ht. unfold test_at in Ht. rewrite Hb in Ht. cbn in Ht.
    by rewrite Hd, Hn, !Z.eqb_refl in Ht.
Qed.

Lemma find_miss s l bno :
  bio_ok s l ->
  List.find (test_at (fun x => (b_dev x =? ROOTDEV) && (b_blockno x =? bno)) (bc_bufs s)) l = None ->
  forall j bj, (j < NBUFn)%nat -> bc_bufs s !! j = Some bj -> ~ holds bno bj.
Proof.
  intros Hok E j bj Hj Hb [Hd Hn].
  rewrite (find_hit _ _ _ _ _ Hok Hj Hb) in E; done.
Qed.

Lemma bio_ok_elem s l i : bio_ok s l -> i ∈ l -> (i < NBUFn)%nat.
Proof. intros Hok Hi. rewrite (bo_perm _ _ Hok) in Hi. apply elem_of_seq in Hi. lia. Qed.

Lemma bio_ok_length s l : bio_ok s l -> length l = NBUFn.
Proof. intros Hok. rewrite (bo_perm _ _ Hok). apply length_seq. Qed.

Lemma bio_ok_lookup s l i : bio_ok s l -> (i <= NBUFn)%nat -> exists b, bc_bufs s !! i = Some b.
Proof.
  intros Hok Hi. apply lookup_lt_is_Some_2. rewrite (bo_len _ _ Hok). lia.
Qed.

Lemma hd_app_BHEAD (l : list nat) : List.hd BHEAD (l ++ [BHEAD]) = List.hd BHEAD l.
Proof. by destruct l. Qed.

Lemma bget_cached_wp l bno Q w :
  bio_ok (user w) l ->
  Q (List.find (test_at (fun x => (b_dev x =? ROOTDEV) && (b_blockno x =? bno)) (bc_bufs (user w))) l) w ->
  wp (bget_cached ROOTDEV bno) Q w.
Proof.
  intros Hok HQ. unfold bget_cached. bio_step.
  destruct (bio_ok_lookup _ _ BHEAD Hok) as [h Hh]; [done|]. bio_step.
  assert (b_next h = List.hd BHEAD l) as ->.
  { pose proof (path_walks_next _ _ _ (bo_path _ _ Hok)) as Hw.
    destruct l; simpl in Hw; destruct Hw as [Hw _]; unfold nx in Hw; rewrite Hh in Hw; exact Hw. }
  apply (scan_wp _ b_next).
  - intros x Hx. by eapply bio_ok_elem.
  - apply Hok.
  - pose proof (path_walks_next _ _ _ (bo_path _ _ Hok)) as Hw.
    destruct l as [|y l]; [done|]. by destruct Hw as [_ Hw].
  - rewrite (bio_ok_length _ _ Hok). lia.
  - done.
Qed.

Lemma bget_unused_wp l Q w :
  bio_ok (user w) l ->
  Q (List.find (test_at (fun x => b_refcnt x =? 0) (bc_bufs (user w))) (reverse l)) w ->
  wp bget_unused Q w.
Proof.
  intros Hok HQ. unfold bget_unused. bio_step.
  destruct (bio_ok_lookup _ _ BHEAD Hok) as [h Hh]; [done|]. bio_step.
  pose proof (path_walks_prev _ _ _ (bo_path _ _ Hok)) as Hw.
  rewrite reverse_cons, reverse_app in Hw. cbn [reverse rev_append] in Hw.
  assert (b_prev h = List.hd BHEAD (reverse l)) as ->.
  { destruct (reverse l); simpl in Hw; destruct Hw as [Hw _];
      unfold pv in Hw; rewrite Hh in Hw; exact Hw. }
  apply (scan_wp _ b_prev).
  - intros x Hx. apply (bio_ok_elem _ _ _ Hok). by apply elem_of_reverse.
  - apply Hok.
  - destruct (reverse l) as [|y l']; [done|]. simpl in Hw. by destruct Hw as [_ Hw].
  - rewrite length_reverse, (bio_ok_length _ _ Hok). lia.
  - done.
Qed.

Lemma find_unused s l :
  bio_ok s l -> (nused s < NBUFn)%nat ->
  exists i b, List.find (test_at (fun x => b_refcnt x =? 0) (bc_bufs s)) (reverse l) = Some i /\
    (i < NBUFn)%nat /\ bc_bufs s !! i = Some b /\ b_refcnt b = 0.
Proof.
  intros Hok Hn. destruct (nused_free _ _ Hok Hn) as (i & b & Hi & Hb & Hz).
  destruct (List.find _ _) as [j|] eqn:E.
  - apply find_some in E as [Hin Ht]. unfold test_at in Ht.
    destruct (bc_bufs s !! j) as [bj|] eqn:Hj; [|done]. cbn in Ht. apply Z.eqb_eq in Ht.
    exists j, bj. split; [done|]. split; [|done].
    apply (bio_ok_elem _ _ _ Hok). by apply elem_of_reverse, list_elem_of_In.
  - exfalso. assert (In i (reverse l)) as Hin.
    { apply list_elem_of_In, elem_of_reverse. rewrite (bo_perm _ _ Hok). apply elem_of_seq. lia. }
    apply (find_none _ _ E) in Hin. unfold test_at in Hin. rewrite Hb in Hin. cbn in Hin.
    rewrite Hz in Hin. done.
Qed.

(** ** The specification of the cache

    [acache]: the referenced blocks, the disk and the running process.  The
    concrete cache represents it when its list is well formed, every referenced
    buffer is on the root device and has valid data. *)

Record acache := Acache {
  a_refs : gmap Z (nat * bcore);
  a_disk : gmap Z block;
  a_pid : Z
}.

Definition ref_entry (p : nat * buf) : option (Z * (nat * bcore)) :=
  if decide (referenced p.2) then Some (b_blockno p.2, (p.1, core_of p.2)) else None.

Definition ref_list (s : bcache) : list (Z * (nat * bcore)) :=
  omap ref_entry (imap pair (take NBUFn (bc_bufs s))).

Definition babs (s : bcache) : acache :=
  Acache (list_to_map (ref_list s)) (bc_disk s) (bc_pid s).

Definition refs_live (s : bcache) : Prop :=
  forall i b, (i < NBUFn)%nat -> bc_bufs s !! i = Some b -> referenced b ->
    b_dev b = ROOTDEV /\ b_valid b = true.

Definition bio_rep (s : bcache) (a : acache) : Prop :=
  (exists l, bio_ok s l) /\ refs_live s /\ babs s = a.

(** A block's contents as the kernel sees them. *)
Definition a_view (a : acache) (x : Z) : option block :=
  match a_refs a !! x with
  | Some (_, c) => Some (c_data c)
  | None => a_disk a !! x
  end.

Lemma elem_of_ref_list s x i c :
  (x, (i, c)) ∈ ref_list s <->
  exists b, (i < NBUFn)%nat /\ bc_bufs s !! i = Some b /\ referenced b /\
            b_blockno b = x /\ core_of b = c.
Proof.
  unfold ref_list. rewrite list_elem_of_omap. split.
  - intros ([j b] & Hin & He). apply elem_of_lookup_imap in Hin as (k & b' & [= <- <-] & Hk).
    apply lookup_take_Some in Hk as [Hk Hlt]. unfold ref_entry in He. cbn in He.
    case_decide; [|done]. injection He as <- <- <-. exists b. auto.
  - intros (b & Hi & Hb & Hr & <- & <-). exists (i, b). split.
    + apply elem_of_lookup_imap. exists i, b. split; [done|]. by apply lookup_take_Some.
    + unfold ref_entry. by rewrite decide_True.
Qed.

Lemma NoDup_omap_fst {A B K} (f : A -> option (K * B)) (xs : list A) :
  (forall i j a a' k b b', xs !! i = Some a -> xs !! j = Some a' ->
     f a = Some (k, b) -> f a' = Some (k, b') -> i = j) ->
  NoDup (omap f xs).*1.
Proof.
  induction xs as [|a xs IH]; intros H; cbn; [constructor|].
  assert (NoDup (omap f xs).*1) as Hnd.
  { apply IH. intros i j x x' k b b' Hi Hj E1 E2.
    assert (S i = S j) by (by eapply H). lia. }
  destruct (f a) as [[k b]|] eqn:E; [|done]. cbn. apply list.NoDup_cons. split; [|done].
  intros Hin. apply list_elem_of_fmap in Hin as ([k' b'] & Hk & Hin). cbn in Hk. subst k'.
  apply list_elem_of_omap in Hin as (a' & Hin & E'). apply list_elem_of_lookup in Hin as [j Hj].
  by assert (0%nat = S j) by (eapply (H 0%nat (S j)); [done|exact Hj|done|done]).
Qed.

Lemma ref_list_NoDup s l : bio_ok s l -> refs_live s -> NoDup (ref_list s).*1.
Proof.
  intros Hok Hlive. apply NoDup_omap_fst. intros i j [i' bi] [j' bj] k c c' Hi Hj Ei Ej.
  rewrite list_lookup_imap in Hi, Hj.
  destruct (take NBUFn (bc_bufs s) !! i) as [bi'|] eqn:Hbi; [|done]. cbn in Hi. injection Hi as <- ->.
  destruct (take NBUFn (bc_bufs s) !! j) as [bj'|] eqn:Hbj; [|done]. cbn in Hj. injection Hj as <- ->.
  apply lookup_take_Some in Hbi as [Hbi Hli], Hbj as [Hbj Hlj].
  unfold ref_entry in Ei, Ej. cbn in Ei, Ej. case_decide as Hri; [|done]. case_decide as Hrj; [|done].
  injection Ei as E1 _. injection Ej as E2 _.
  destruct (Hlive _ _ Hli Hbi Hrj), (Hlive _ _ Hlj Hbj Hri).
  eapply (bo_uniq _ _ Hok); eauto. congruence.
Qed.

Lemma babs_lookup s l x : bio_ok s l -> refs_live s -> a_refs (babs s) !! x = bref s x.
Proof.
  intros Hok Hlive. cbn.
  destruct (bref s x) as [[i c]|] eqn:E.
  - apply elem_of_list_to_map_1; [by eapply ref_list_NoDup|].
    apply (bref_Some _ _ _ _ _ Hok) in E as (b & Hi & Hb & [Hd Hx] & Hz & Hc).
    apply elem_of_ref_list. exists b. auto.
  - apply not_elem_of_list_to_map_1. intros Hin.
    apply list_elem_of_fmap in Hin as ([x' [i c]] & -> & Hin). cbn in E.
    apply elem_of_ref_list in Hin as (b & Hi & Hb & Hr & <- & Hc).
    assert (bref s (b_blockno b) = Some (i, c)) as E'; [|congruence].
    apply (bref_Some _ _ _ _ _ Hok). exists b. destruct (Hlive _ _ Hi Hb Hr).
    repeat split; done.
Qed.

Lemma length_omap_imap {A B} (f : nat * A -> option B) (P : A -> Prop) `{forall x, Decision (P x)}
    (g : nat -> nat) xs :
  (forall i a, P a <-> is_Some (f (i, a))) ->
  length (omap f (imap (fun i a => (g i, a)) xs)) = length (filter P xs).
Proof.
  intros HP. revert g. induction xs as [|a xs IH]; intros g; [done|].
  rewrite imap_cons, filter_cons. cbn. unfold compose.
  specialize (HP (g 0%nat) a) as HPa.
  destruct (f (g 0%nat, a)) eqn:E; cbn.
  - rewrite decide_True by (apply HPa; eauto). cbn. f_equal. apply (IH (fun i => g (S i))).
  - rewrite decide_False by (rewrite HPa; by intros [? ?]). apply (IH (fun i => g (S i))).
Qed.

Lemma babs_size s l : bio_ok s l -> refs_live s -> size (a_refs (babs s)) = nused s.
Proof.
  intros Hok Hlive. cbn. rewrite map_size_list_to_map by (by eapply ref_list_NoDup).
  unfold ref_list, nused. apply (length_omap_imap _ _ (fun i => i)).
  intros i a. unfold ref_entry. cbn. case_decide; by split.
Qed.

Definition a_put (x : Z) (e : option (nat * bcore)) (a : acache) : acache :=
  Acache (partial_alter (fun _ => e) x (a_refs a)) (a_disk a) (a_pid a).

Lemma a_put_eq x e a : a_refs (a_put x e a) !! x = e.
Proof. apply lookup_partial_alter_eq. Qed.
Lemma a_put_ne x y e a : x <> y -> a_refs (a_put x e a) !! y = a_refs a !! y.
Proof. intros. by apply lookup_partial_alter_ne. Qed.

(** A buffer's lock, count, data or identity changed: the abstract cache changes
    at its block only. *)
Lemma bset_rep s l i b b' :
  bio_ok s l -> refs_live s -> bc_bufs s !! i = Some b -> (i < NBUFn)%nat ->
  b_next b' = b_next b -> b_prev b' = b_prev b -> b_dev b' = ROOTDEV ->
  (holds (b_blockno b') b \/
   (b_refcnt b = 0 /\ forall j bj, (j < NBUFn)%nat -> bc_bufs s !! j = Some bj -> ~ holds (b_blockno b') bj)) ->
  (b_refcnt b' = 0 -> sl_locked (b_lock b') = false /\
     (b_valid b' = true -> bc_disk s !! b_blockno b' = Some (b_data b'))) ->
  (referenced b' -> b_valid b' = true) -> 0 <= b_refcnt b' < 2 ^ 32 ->
  bio_ok (bset i b' s) l /\ refs_live (bset i b' s) /\
  babs (bset i b' s) =
    a_put (b_blockno b') (if decide (b_refcnt b' = 0) then None else Some (i, core_of b')) (babs s).
Proof.
  intros Hok Hlive Hb Hi Hn Hp Hd Hid Hfree Hval Hr.
  assert (bio_ok (bset i b' s) l) as Hok'.
  { apply (bset_ok s l i b b'); try done; [|by intros Hz; destruct (Hfree Hz); auto].
    intros _ j bj Hj Hji Hbj Hh. destruct Hid as [[Hdb Hbn]|[_ Hno]]; [|by eapply Hno].
    destruct Hh as [Hdj Hbj']. apply Hji. eapply (bo_uniq _ _ Hok); eauto. congruence. }
  assert (refs_live (bset i b' s)) as Hlive'.
  { intros j bj Hj Hbj Hrj. destruct (decide (i = j)) as [<-|Hne].
    - rewrite (lookup_bset_eq _ _ _ b) in Hbj by done. injection Hbj as <-. auto.
    - rewrite lookup_bset_ne in Hbj by done. eauto. }
  split; [done|]. split; [done|]. unfold a_put.
  assert (a_refs (babs (bset i b' s)) = partial_alter (fun _ => if decide (b_refcnt b' = 0) then None
            else Some (i, core_of b')) (b_blockno b') (a_refs (babs s))) as E.
  { apply map_eq. intros x. rewrite (babs_lookup _ _ _ Hok' Hlive').
    rewrite (bref_bset s l i b b') by (try done; tauto). case_decide as Hx.
    - subst x. by rewrite lookup_partial_alter_eq.
    - rewrite lookup_partial_alter_ne by done. by rewrite (babs_lookup _ _ _ Hok Hlive). }
  unfold babs in E |- *. cbn in E |- *. by rewrite E.
Qed.

(** The locks bio.c takes are not held by the caller. *)
Definition bio_unheld {S} (w : world S) : Prop :=
  LBcache ∉ held w /\ forall i, LBufLk i ∉ held w.

Definition a_locked (pid : Z) (refs : Z) (d : block) : bcore := Bcore (Sleeplock true pid) refs d.

Definition refs_of (a : acache) (x : Z) : Z := from_option (fun p => c_refcnt p.2) 0 (a_refs a !! x).

(** bread() can return: the block is unlocked, or a buffer is free. *)
Definition can_bread (a : acache) (x : Z) : Prop :=
  match a_refs a !! x with
  | Some (_, c) => sl_locked (c_lock c) = false /\ c_refcnt c + 1 < 2 ^ 32
  | None => (size (a_refs a) < NBUFn)%nat
  end.

(** The buffer bget() answers: the cached one, or a recycled one. *)
Definition got_buf (pid bno : Z) (hit : bool) (b : buf) : buf :=
  Buf (hit && b_valid b) (b_disk b) ROOTDEV bno (Sleeplock true pid)
      (if hit then b_refcnt b + 1 else 1) (b_prev b) (b_next b) (b_data b).

Definition bget_from (s : bcache) (bno : Z) (hit : bool) (b : buf) : Prop :=
  if hit then holds bno b
  else b_refcnt b = 0 /\
       forall j bj, (j < NBUFn)%nat -> bc_bufs s !! j = Some bj -> ~ holds bno bj.

(** What being able to read says of the concrete buffer. *)
Lemma can_bread_hit s l bno i b :
  bio_ok s l -> refs_live s -> (i < NBUFn)%nat -> bc_bufs s !! i = Some b -> holds bno b ->
  can_bread (babs s) bno -> sl_locked (b_lock b) = false /\ 0 <= b_refcnt b + 1 < 2 ^ 32.
Proof.
  intros Hok Hlive Hi Hb Hh Hc. unfold can_bread in Hc. rewrite (babs_lookup _ _ _ Hok Hlive) in Hc.
  pose proof (bo_range _ _ Hok _ _ Hi Hb).
  destruct (decide (b_refcnt b = 0)) as [Hz|Hz].
  - destruct (bo_free _ _ Hok _ _ Hi Hb Hz). rewrite Hz. done.
  - assert (bref s bno = Some (i, core_of b)) as E.
    { apply (bref_Some _ _ _ _ _ Hok). exists b. auto. }
    rewrite E in Hc. cbn in Hc. split; [tauto|lia].
Qed.

Lemma bget_wp l bno Q w :
  bio_ok (user w) l -> refs_live (user w) -> bio_unheld w -> can_bread (babs (user w)) bno ->
  (forall i b hit, (i < NBUFn)%nat -> bc_bufs (user w) !! i = Some b -> bget_from (user w) bno hit b ->
     Q i (World (held w) (trace w) (bset i (got_buf (bc_pid (user w)) bno hit b) (user w)))) ->
  wp (bget ROOTDEV bno) Q w.
Proof.
  intros Hok Hlive [Hu1 Hu2] Hc HQ. unfold bget. bio_step. apply wp_acquire; [done|].
  cbn [user held trace]. bio_step. apply (bget_cached_wp l); [done|]. cbn [user].
  destruct (List.find _ l) as [i|] eqn:E.
  - assert (exists b, (i < NBUFn)%nat /\ bc_bufs (user w) !! i = Some b /\ holds bno b) as (b & Hi & Hb & Hh).
    { apply find_some in E as [Hin Ht]. apply list_elem_of_In in Hin.
      unfold test_at in Ht. destruct (bc_bufs (user w) !! i) as [b|] eqn:Hb; [|done].
      cbn in Ht. apply andb_true_iff in Ht as [H1 H2]. exists b.
      split; [by eapply bio_ok_elem|]. split; [done|]. split; by apply Z.eqb_eq. }
    destruct (can_bread_hit _ _ _ _ _ Hok Hlive Hi Hb Hh Hc) as [Hl Hr].
    do 5 bio_step. rewrite u32_small by lia.
    do 2 bio_step. eapply wp_acquire_buf;
      [cbn; by eapply lookup_bset_eq|done|apply Hu2|]. cbn [user held trace].
    bio_step. rewrite bset_bset.
    replace (b_set_lock _ _) with (got_buf (bc_pid (user w)) bno true b); [by apply HQ|].
    destruct Hh as [Hd Hn]. unfold got_buf. cbn. by rewrite <- Hn, <- Hd.
  - pose proof (find_miss _ _ _ Hok E) as Hno.
    assert (nused (user w) < NBUFn)%nat as Hn.
    { unfold can_bread in Hc. rewrite (babs_lookup _ _ _ Hok Hlive), (babs_size _ _ Hok Hlive) in Hc.
      destruct (bref (user w) bno) as [[i c]|] eqn:Er; [|done].
      apply (bref_Some _ _ _ _ _ Hok) in Er as (b & Hi & Hb & Hh & _). by destruct (Hno _ _ Hi Hb). }
    destruct (find_unused _ _ Hok Hn) as (i & b & Hf & Hi & Hb & Hz).
    bio_step. apply (bget_unused_wp l); [done|]. cbn [user]. rewrite Hf.
    destruct (bo_free _ _ Hok _ _ Hi Hb Hz) as [Hl _].
    do 2 bio_step. bio_step. eapply wp_setb; [by eapply lookup_bset_eq|]. cbn [user held trace].
    bio_step. eapply wp_setb; [eapply lookup_bset_eq; by eapply lookup_bset_eq|]. cbn [user held trace].
    rewrite !bset_bset. do 5 bio_step.
    eapply wp_acquire_buf; [cbn; by eapply lookup_bset_eq|done|apply Hu2|]. cbn [user held trace].
    bio_step. rewrite bset_bset. by apply (HQ i b false).
Qed.

Lemma bio_rep_inj s a x y i cx cy :
  bio_rep s a -> a_refs a !! x = Some (i, cx) -> a_refs a !! y = Some (i, cy) -> x = y.
Proof.
  intros ((l & Hok) & Hlive & <-). rewrite !(babs_lookup _ _ _ Hok Hlive). by eapply bref_inj.
Qed.

Lemma bio_rep_lookup s a x i c :
  bio_rep s a -> a_refs a !! x = Some (i, c) ->
  exists l b, bio_ok s l /\ refs_live s /\ babs s = a /\ (i < NBUFn)%nat /\ bc_bufs s !! i = Some b /\
    holds x b /\ b_refcnt b <> 0 /\ b_valid b = true /\ core_of b = c /\ 0 <= b_refcnt b < 2 ^ 32.
Proof.
  intros ((l & Hok) & Hlive & <-) E. rewrite (babs_lookup _ _ _ Hok Hlive) in E.
  apply (bref_Some _ _ _ _ _ Hok) in E as (b & Hi & Hb & Hh & Hz & Hc).
  destruct (Hlive _ _ Hi Hb Hz). pose proof (bo_range _ _ Hok _ _ Hi Hb).
  exists l, b. auto 12.
Qed.

(** The data a cached buffer holds is the block's contents. *)
Lemma cached_view s l bno i b :
  bio_ok s l -> refs_live s -> (i < NBUFn)%nat -> bc_bufs s !! i = Some b -> holds bno b ->
  refs_of (babs s) bno = b_refcnt b /\
  a_view (babs s) bno = (if b_valid b then Some (b_data b) else bc_disk s !! bno).
Proof.
  intros Hok Hlive Hi Hb Hh. unfold refs_of, a_view. rewrite !(babs_lookup _ _ _ Hok Hlive).
  destruct (decide (b_refcnt b = 0)) as [Hz|Hz].
  - assert (bref s bno = None) as ->.
    { apply (bref_None _ _ _ Hok). intros j bj Hj Hbj Hhj. assert (i = j) as <-; [|congruence].
      destruct Hh, Hhj. eapply (bo_uniq _ _ Hok); eauto. congruence. }
    split; [done|]. destruct Hh as [Hd <-]. destruct (bo_free _ _ Hok _ _ Hi Hb Hz) as [_ Hv].
    destruct (b_valid b); [by apply Hv|done].
  - assert (bref s bno = Some (i, core_of b)) as ->.
    { apply (bref_Some _ _ _ _ _ Hok). exists b. auto. }
    destruct (Hlive _ _ Hi Hb Hz) as [_ ->]. done.
Qed.

Lemma uncached_view s l bno :
  bio_ok s l -> refs_live s ->
  (forall j bj, (j < NBUFn)%nat -> bc_bufs s !! j = Some bj -> ~ holds bno bj) ->
  refs_of (babs s) bno = 0 /\ a_view (babs s) bno = bc_disk s !! bno.
Proof.
  intros Hok Hlive Hno. unfold refs_of, a_view. rewrite !(babs_lookup _ _ _ Hok Hlive).
  assert (bref s bno = None) as ->; [|done].
  apply (bref_None _ _ _ Hok). intros j bj Hj Hbj Hhj. by destruct (Hno j bj).
Qed.

Definition filled_buf (pid bno refs : Z) (d : block) (b : buf) : buf :=
  Buf true (b_disk b) ROOTDEV bno (Sleeplock true pid) refs (b_prev b) (b_next b) d.

Lemma filled_rep s l bno i b hit d :
  bio_ok s l -> refs_live s -> (i < NBUFn)%nat -> bc_bufs s !! i = Some b -> bget_from s bno hit b ->
  let r := if hit then b_refcnt b + 1 else 1 in
  r < 2 ^ 32 ->
  refs_of (babs s) bno + 1 = r /\
  bio_rep (bset i (filled_buf (bc_pid s) bno r d b) s)
    (a_put bno (Some (i, a_locked (bc_pid s) r d)) (babs s)).
Proof.
  intros Hok Hlive Hi Hb Hf r Hlt. pose proof (bo_range _ _ Hok _ _ Hi Hb) as Hr.
  split.
  { destruct hit; cbn in Hf.
    - destruct (cached_view _ _ _ _ _ Hok Hlive Hi Hb Hf) as [-> _]. done.
    - destruct (uncached_view _ _ _ Hok Hlive (proj2 Hf)) as [-> _]. done. }
  destruct (bset_rep s l i b (filled_buf (bc_pid s) bno r d b)) as (H1 & H2 & H3); try done.
  - destruct hit; [by left|by right].
  - cbn. unfold r. destruct hit; lia.
  - cbn. unfold r. destruct hit; lia.
  - rewrite decide_False in H3 by (cbn; unfold r; destruct hit; lia).
    split; [by exists l|]. split; done.
Qed.

Lemma bread_wp a bno Q w :
  bio_rep (user w) a -> bio_unheld w -> is_Some (a_disk a !! bno) -> can_bread a bno ->
  (forall i d s', a_view a bno = Some d ->
     (forall j c, a_refs a !! bno = Some (j, c) -> i = j) ->
     bio_rep s' (a_put bno (Some (i, a_locked (a_pid a) (refs_of a bno + 1) d)) a) ->
     Q i (World (held w) (trace w) s')) ->
  wp (bread ROOTDEV bno) Q w.
Proof.
  intros ((l & Hok) & Hlive & <-) Hu [dk Hdk] Hc HQ. cbn in Hdk. unfold bread. bio_step.
  apply (bget_wp l); try done. intros i b hit Hi Hb Hf.
  assert ((if hit then b_refcnt b + 1 else 1) < 2 ^ 32) as Hlt.
  { destruct hit; [|lia]. destruct (can_bread_hit _ _ _ _ _ Hok Hlive Hi Hb Hf Hc). lia. }
  pose proof (fun d => filled_rep _ _ _ _ _ _ d Hok Hlive Hi Hb Hf Hlt) as Hrep.
  assert (forall j c, a_refs (babs (user w)) !! bno = Some (j, c) -> i = j) as Hij.
  { intros j c. rewrite (babs_lookup _ _ _ Hok Hlive). intros Hj.
    apply (bref_Some _ _ _ _ _ Hok) in Hj as (bj & Hlj & Hbj & Hhj & _).
    destruct hit; cbn in Hf; [|by destruct (proj2 Hf _ _ Hlj Hbj)].
    destruct Hf, Hhj. eapply (bo_uniq _ _ Hok); eauto. congruence. }
  bio_step. eapply wp_getb; [by eapply lookup_bset_eq|]. cbn [b_valid got_buf].
  bio_step. destruct (hit && b_valid b) eqn:Ev; cbn [negb].
  - apply andb_true_iff in Ev as [-> Ev]. do 2 bio_step.
    destruct (Hrep (b_data b)) as [Er Hr]. cbn in Hf.
    destruct (cached_view _ _ _ _ _ Hok Hlive Hi Hb Hf) as [_ Hv]. rewrite Ev in Hv.
    eapply HQ; [exact Hv|exact Hij|]. rewrite Er. unfold got_buf. cbn [andb]. rewrite Ev. exact Hr.
  - bio_step. unfold virtio_disk_rw. bio_step.
    eapply wp_getb; [by eapply lookup_bset_eq|]. cbn [b_blockno got_buf].
    do 2 bio_step. cbn [bset bc_disk]. rewrite Hdk.
    eapply wp_setb; [by eapply lookup_bset_eq|]. cbn [user held trace].
    eapply wp_setb; [eapply lookup_bset_eq; by eapply lookup_bset_eq|]. cbn [user held trace].
    rewrite !bset_bset. bio_step. destruct (Hrep dk) as [Er Hr].
    apply (HQ i dk); [|exact Hij|rewrite Er; exact Hr].
    destruct hit; cbn in Ev, Hf.
    + destruct (cached_view _ _ _ _ _ Hok Hlive Hi Hb Hf) as [_ ->]. by rewrite Ev.
    + destruct (uncached_view _ _ _ Hok Hlive (proj2 Hf)) as [_ ->]. done.
Qed.

(** ** Accessing and writing a locked buffer *)

Lemma bdata_wp a x i c Q w :
  bio_rep (user w) a -> a_refs a !! x = Some (i, c) -> Q (c_data c) w -> wp (bdata i) Q w.
Proof.
  intros Hrep Hx HQ. destruct (bio_rep_lookup _ _ _ _ _ Hrep Hx) as (l & b & _ & _ & _ & _ & Hb & H).
  destruct_and! H. subst c. unfold bdata. by do 3 bio_step.
Qed.

(** The representation after a referenced buffer changes and stays referenced. *)
Lemma bset_core_rep s a x i c b' :
  bio_rep s a -> a_refs a !! x = Some (i, c) ->
  (forall b, bc_bufs s !! i = Some b -> core_of b = c -> holds x b -> b_valid b = true ->
     b_next b' = b_next b /\ b_prev b' = b_prev b /\ holds x b' /\ b_valid b' = true) ->
  1 <= b_refcnt b' < 2 ^ 32 ->
  bio_rep (bset i b' s) (a_put x (Some (i, core_of b')) a).
Proof.
  intros Hrep Hx Hb' Hr.
  destruct (bio_rep_lookup _ _ _ _ _ Hrep Hx) as (l & b & Hok & Hlive & Ha & Hi & Hb & Hh & Hz & Hv & Hc & _).
  destruct (Hb' b Hb Hc Hh Hv) as (Hn & Hp & [Hd Hx'] & Hv').
  destruct (bset_rep s l i b b') as (H1 & H2 & H3); try done; try lia.
  - left. by rewrite Hx'.
  - rewrite decide_False in H3 by lia. rewrite Hx', Ha in H3.
    split; [by exists l|]. split; done.
Qed.

Lemma bdata_set_wp a x i c d Q w :
  bio_rep (user w) a -> a_refs a !! x = Some (i, c) ->
  (forall s', bio_rep s' (a_put x (Some (i, Bcore (c_lock c) (c_refcnt c) d)) a) ->
     Q tt (World (held w) (trace w) s')) ->
  wp (bdata_set i d) Q w.
Proof.
  intros Hrep Hx HQ.
  destruct (bio_rep_lookup _ _ _ _ _ Hrep Hx) as (l & b & _ & _ & _ & _ & Hb & Hh & Hz & Hv & Hc & Hr).
  unfold bdata_set. bio_step. apply HQ. subst c.
  apply (bset_core_rep _ _ _ _ (core_of b) (b_set_data d b) Hrep Hx); [|cbn; lia].
  intros b0 Hb0 _ _ _. rewrite Hb in Hb0. injection Hb0 as <-. auto.
Qed.

Lemma set_disk_ok s l x i b d :
  bio_ok s l -> (i < NBUFn)%nat -> bc_bufs s !! i = Some b -> holds x b -> b_refcnt b <> 0 ->
  bio_ok (set_disk (<[x := d]> (bc_disk s)) s) l.
Proof.
  intros Hok Hi Hb [Hd Hx] Hz. constructor; try apply Hok.
  intros j bj Hj Hbj Hzj. cbn in Hbj. destruct (bo_free _ _ Hok _ _ Hj Hbj Hzj) as [Hl Hv]. split; [done|].
  intros Hvj Hdj. cbn. rewrite lookup_insert_ne; [by apply Hv|].
  intros E. apply Hz. assert (i = j) as ->.
  { eapply (bo_uniq _ _ Hok); eauto. congruence. }
  congruence.
Qed.

Definition a_set_disk (x : Z) (d : block) (a : acache) : acache :=
  Acache (a_refs a) (<[x := d]> (a_disk a)) (a_pid a).

Lemma bwrite_wp a x i c Q w :
  bio_rep (user w) a -> bio_unheld w -> a_refs a !! x = Some (i, c) ->
  c_lock c = Sleeplock true (a_pid a) -> is_Some (a_disk a !! x) ->
  (forall s', bio_rep s' (a_set_disk x (c_data c) a) ->
     Q tt (World (held w) (trace w ++ [EDisk x (c_data c)]) s')) ->
  wp (bwrite i) Q w.
Proof.
  intros Hrep [_ Hu] Hx Hl [d0 Hd0] HQ.
  destruct (bio_rep_lookup _ _ _ _ _ Hrep Hx) as (l & b & Hok & Hlive & <- & Hi & Hb & Hh & Hz & Hv & <- & Hr).
  cbn in Hl, Hd0, HQ. unfold bwrite. do 3 bio_step.
  eapply wp_holding_buf; [done|exact Hl|apply Hu|]. cbn [negb]. unfold virtio_disk_rw.
  do 4 bio_step. destruct Hh as [Hd <-]. rewrite Hd0. do 3 bio_step. apply HQ.
  split; [|split; [exact Hlive|done]]. exists l. eapply set_disk_ok; try done.
Qed.

Lemma bump_wp a x i c k Q w (f := fun y => b_set_refcnt (u32 (b_refcnt y + k)) y) :
  bio_rep (user w) a -> LBcache ∉ held w -> a_refs a !! x = Some (i, c) ->
  1 <= c_refcnt c + k < 2 ^ 32 ->
  (forall s', bio_rep s' (a_put x (Some (i, Bcore (c_lock c) (c_refcnt c + k) (c_data c))) a) ->
     Q tt (World (held w) (trace w) s')) ->
  wp (acquire LBcache ;; setb i f ;; release LBcache) Q w.
Proof.
  intros Hrep Hu Hx Hk HQ.
  destruct (bio_rep_lookup _ _ _ _ _ Hrep Hx) as (l & b & _ & _ & _ & _ & Hb & Hh & Hz & Hv & Hc & Hr).
  do 5 bio_step. apply HQ. subst c. cbn in Hk.
  unfold f. rewrite u32_small by lia.
  apply (bset_core_rep _ _ _ _ (core_of b) (b_set_refcnt (b_refcnt b + k) b) Hrep Hx); [|cbn; lia].
  intros b0 Hb0 _ _ _. rewrite Hb in Hb0. injection Hb0 as <-. auto.
Qed.

Lemma bpin_wp a x i c Q w :
  bio_rep (user w) a -> LBcache ∉ held w -> a_refs a !! x = Some (i, c) ->
  c_refcnt c + 1 < 2 ^ 32 ->
  (forall s', bio_rep s' (a_put x (Some (i, Bcore (c_lock c) (c_refcnt c + 1) (c_data c))) a) ->
     Q tt (World (held w) (trace w) s')) ->
  wp (bpin i) Q w.
Proof.
  intros Hrep Hu Hx Hk HQ.
  assert (1 <= c_refcnt c) as Hc.
  { destruct (bio_rep_lookup _ _ _ _ _ Hrep Hx) as (l & b & H). destruct_and! H. subst c. cbn. lia. }
  apply (bump_wp a x i c 1); try done. lia.
Qed.

Lemma bunpin_wp a x i c Q w :
  bio_rep (user w) a -> LBcache ∉ held w -> a_refs a !! x = Some (i, c) -> 2 <= c_refcnt c ->
  (forall s', bio_rep s' (a_put x (Some (i, Bcore (c_lock c) (c_refcnt c - 1) (c_data c))) a) ->
     Q tt (World (held w) (trace w) s')) ->
  wp (bunpin i) Q w.
Proof.
  intros Hrep Hu Hx Hk HQ.
  assert (c_refcnt c < 2 ^ 32) as Hc.
  { destruct (bio_rep_lookup _ _ _ _ _ Hrep Hx) as (l & b & H). destruct_and! H. subst c. cbn. lia. }
  apply (bump_wp a x i c (-1)); try done. lia.
Qed.

(** ** Changing only the links *)

Definition strip (b : buf) : buf := b_set_prev 0 (b_set_next 0 b).

Record same_bufs (s s' : bcache) : Prop := SameBufs {
  sb_bufs : strip <$> bc_bufs s' = strip <$> bc_bufs s;
  sb_disk : bc_disk s' = bc_disk s;
  sb_pid : bc_pid s' = bc_pid s
}.

#[export] Instance same_bufs_equiv : Equivalence same_bufs.
Proof.
  split.
  - intros s. by constructor.
  - intros s s' []. by constructor.
  - intros s s' s'' [] []. constructor; congruence.
Qed.

Lemma same_bufs_lookup s s' i b' :
  same_bufs s s' -> bc_bufs s' !! i = Some b' ->
  exists b, bc_bufs s !! i = Some b /\ strip b' = strip b.
Proof.
  intros [H _ _] Hb'. assert ((strip <$> bc_bufs s') !! i = Some (strip b')) as E.
  { by rewrite list_lookup_fmap, Hb'. }
  rewrite H, list_lookup_fmap in E. destruct (bc_bufs s !! i) as [b|]; [|done].
  exists b. cbn in E. split; congruence.
Qed.

Lemma same_bufs_ok s s' l l' :
  bio_ok s l -> same_bufs s s' -> l' ≡ₚ l -> path (nx s') (pv s') (BHEAD :: l' ++ [BHEAD]) ->
  bio_ok s' l'.
Proof.
  intros Hok Hs Hperm Hpath. constructor.
  - rewrite <- (length_fmap strip), (sb_bufs _ _ Hs), length_fmap. apply Hok.
  - by rewrite Hperm, (bo_perm _ _ Hok).
  - done.
  - intros i j bi bj Hi Hj Hbi Hbj Hdi Hdj Hbn.
    apply (same_bufs_lookup _ _ _ _ Hs) in Hbi as (bi' & Hbi & Ei), Hbj as (bj' & Hbj & Ej).
    injection Ei; injection Ej; intros.
    eapply (bo_uniq _ _ Hok i j bi' bj'); eauto; congruence.
  - intros i b Hi Hb Hz. apply (same_bufs_lookup _ _ _ _ Hs) in Hb as (b' & Hb & E).
    injection E; intros. rewrite (sb_disk _ _ Hs).
    destruct (bo_free _ _ Hok i b' Hi Hb) as [Hf1 Hf2]; [congruence|].
    split; [congruence|]. intros.
    trans (bc_disk s !! b_blockno b'); [congruence|]. rewrite Hf2; congruence.
  - intros i b Hi Hb. apply (same_bufs_lookup _ _ _ _ Hs) in Hb as (b' & Hb & E).
    injection E; intros. pose proof (bo_range _ _ Hok i b' Hi Hb). congruence.
Qed.

Lemma ref_list_strip s s' : same_bufs s s' -> ref_list s' = ref_list s.
Proof.
  intros [H _ _]. unfold ref_list.
  assert (forall bs : list buf, omap ref_entry (imap pair (take NBUFn bs)) =
            omap ref_entry (imap pair (take NBUFn (strip <$> bs)))) as E.
  { intros bs. rewrite <- fmap_take, imap_fmap. generalize (take NBUFn bs) as xs.
    assert (forall (g : nat -> nat) xs, omap ref_entry (imap (fun i b => (g i, b)) xs) =
              omap ref_entry (imap (fun i b => (g i, strip b)) xs)) as Hg.
    { intros g xs. revert g. induction xs as [|x xs IH]; intros g; [done|]. rewrite !imap_cons. cbn.
      unfold compose. by rewrite (IH (fun i => g (S i))). }
    intros xs. apply (Hg (fun i => i)). }
  by rewrite E, (E (bc_bufs s)), H.
Qed.

Lemma same_bufs_rep s s' l' a :
  bio_rep s a -> same_bufs s s' -> bio_ok s' l' -> bio_rep s' a.
Proof.
  intros ((l & Hok) & Hlive & <-) Hs Hok'. split; [by exists l'|]. split.
  - intros i b Hi Hb Hr. apply (same_bufs_lookup _ _ _ _ Hs) in Hb as (b' & Hb & E).
    injection E; intros. destruct (Hlive i b' Hi Hb); [unfold referenced in *; congruence|].
    split; congruence.
  - unfold babs. by rewrite (ref_list_strip _ _ Hs), (sb_disk _ _ Hs), (sb_pid _ _ Hs).
Qed.

Lemma bset_same s i b b' :
  bc_bufs s !! i = Some b -> strip b' = strip b -> same_bufs s (bset i b' s).
Proof.
  intros Hb E. constructor; try done. cbn. rewrite list_fmap_insert, E.
  apply list_insert_id. by rewrite list_lookup_fmap, Hb.
Qed.

(** [s] is [s0] with the links given by [f] (next) and [g] (prev). *)
Record linked (s0 : bcache) (f g : nat -> nat) (s : bcache) : Prop := Linked {
  lk_same : same_bufs s0 s;
  lk_len : length (bc_bufs s) = S NBUFn;
  lk_nx : forall z, nx s z = f z;
  lk_pv : forall z, pv s z = g z
}.

Lemma wp_set_next s0 f g i v Q w :
  linked s0 f g (user w) -> (i <= NBUFn)%nat ->
  (forall s', linked s0 (fupd f i v) g s' -> Q tt (World (held w) (trace w) s')) ->
  wp (setb i (b_set_next v)) Q w.
Proof.
  intros [Hs Hl Hf Hg] Hi HQ.
  destruct (lookup_lt_is_Some_2 (bc_bufs (user w)) i) as [b Hb]; [lia|]. bio_step. apply HQ. constructor.
  - etransitivity; [exact Hs|]. by eapply bset_same.
  - cbn. by rewrite length_insert.
  - intros z. unfold fupd. case_decide as Hz.
    + subst z. unfold nx. by rewrite (lookup_bset_eq _ _ _ b).
    + rewrite <- Hf. unfold nx. by rewrite lookup_bset_ne.
  - intros z. rewrite <- Hg. unfold pv. destruct (decide (i = z)) as [<-|].
    + by rewrite (lookup_bset_eq _ _ _ b), Hb.
    + by rewrite lookup_bset_ne.
Qed.

Lemma wp_set_prev s0 f g i v Q w :
  linked s0 f g (user w) -> (i <= NBUFn)%nat ->
  (forall s', linked s0 f (fupd g i v) s' -> Q tt (World (held w) (trace w) s')) ->
  wp (setb i (b_set_prev v)) Q w.
Proof.
  intros [Hs Hl Hf Hg] Hi HQ.
  destruct (lookup_lt_is_Some_2 (bc_bufs (user w)) i) as [b Hb]; [lia|]. bio_step. apply HQ. constructor.
  - etransitivity; [exact Hs|]. by eapply bset_same.
  - cbn. by rewrite length_insert.
  - intros z. rewrite <- Hf. unfold nx. destruct (decide (i = z)) as [<-|].
    + by rewrite (lookup_bset_eq _ _ _ b), Hb.
    + by rewrite lookup_bset_ne.
  - intros z. unfold fupd. case_decide as Hz.
    + subst z. unfold pv. by rewrite (lookup_bset_eq _ _ _ b).
    + rewrite <- Hg. unfold pv. by rewrite lookup_bset_ne.
Qed.

Lemma wp_getb_links s0 f g i Q w :
  linked s0 f g (user w) -> (i <= NBUFn)%nat ->
  (forall b, b_next b = f i -> b_prev b = g i -> Q b w) ->
  wp (getb i) Q w.
Proof.
  intros [Hs Hl Hf Hg] Hi HQ. destruct (lookup_lt_is_Some_2 (bc_bufs (user w)) i) as [b Hb]; [lia|].
  bio_step. apply HQ; [rewrite <- Hf; unfold nx; by rewrite Hb|rewrite <- Hg; unfold pv; by rewrite Hb].
Qed.

Ltac link_bound := unfold fupd; repeat case_decide; lia.
Ltac link_step :=
  lazymatch goal with
  | |- wp (bind _ _) _ _ => apply wp_bind
  | |- wp (setb _ (b_set_next _)) _ _ =>
      eapply wp_set_next; [eassumption|link_bound|cbn [user held trace]; intros ? ?]
  | |- wp (setb _ (b_set_prev _)) _ _ =>
      eapply wp_set_prev; [eassumption|link_bound|cbn [user held trace]; intros ? ?]
  | |- wp (getb _) _ _ =>
      eapply wp_getb_links; [eassumption|link_bound|
        let H1 := fresh in let H2 := fresh in intros ? H1 H2; rewrite ?H1, ?H2; clear H1 H2]
  end; cbn [user held trace].

(** ** Releasing a buffer *)

Lemma path_bound (h n : nat) f g xs :
  path f g (h :: xs ++ [h]) -> (forall z, z ∈ xs -> (z < n)%nat) -> (h <= n)%nat ->
  forall z, z ∈ h :: xs -> (f z <= n)%nat /\ (g z <= n)%nat.
Proof.
  intros Hp Hx Hh z Hz.
  assert (forall y, y ∈ xs \/ y = h -> (y <= n)%nat) as Hle.
  { intros y [Hy|Hy]; [specialize (Hx y Hy)|]; lia. }
  split.
  - apply list_elem_of_split in Hz as (l1 & l2 & E).
    change (h :: xs ++ [h]) with ((h :: xs) ++ [h]) in Hp. rewrite E, <- app_assoc in Hp.
    simpl in Hp. apply path_app in Hp as [_ Hp].
    destruct (l2 ++ [h]) as [|y ys] eqn:Ey; [by destruct l2|]. destruct Hp as (-> & _). apply Hle.
    assert (y ∈ l2 ++ [h]) as Hy by (rewrite Ey; constructor). apply elem_of_app in Hy as [Hy|Hy]; [|set_solver].
    destruct l1 as [|y' l1]; simpl in E; injection E as E1 E2; subst; [by left|left]. set_solver.
  - assert (exists l1 l2, xs ++ [h] = l1 ++ z :: l2) as (l1 & l2 & E).
    { apply list_elem_of_split. set_solver. }
    rewrite E in Hp. apply Hle.
    destruct (@exists_last _ (h :: l1)) as (A & p & EA); [done|].
    change (h :: l1 ++ z :: l2) with ((h :: l1) ++ z :: l2) in Hp. rewrite EA, <- app_assoc in Hp.
    simpl in Hp. apply path_app in Hp as [_ Hp]. destruct Hp as (_ & -> & _).
    assert (p ∈ h :: l1) as Hy by (rewrite EA; set_solver).
    apply elem_of_cons in Hy as [->|Hy]; [by right|].
    assert (p ∈ xs ++ [h]) by (rewrite E; set_solver). set_solver.
Qed.

Lemma lru_to_front_wp l i Q w :
  bio_ok (user w) l -> (i < NBUFn)%nat ->
  (forall s' l', same_bufs (user w) s' -> bio_ok s' (i :: l') -> Q tt (World (held w) (trace w) s')) ->
  wp (lru_to_front i) Q w.
Proof.
  intros Hok Hi HQ. pose proof (bo_len _ _ Hok) as Hlen. pose proof (bo_path _ _ Hok) as Hpath.
  assert (NoDup l) as Hnd by (rewrite (bo_perm _ _ Hok); apply NoDup_seq).
  assert (forall z, z ∈ l -> (z < NBUFn)%nat) as Hlt by (intros z Hz; by eapply bio_ok_elem).
  assert (i ∈ l) as Hil by (rewrite (bo_perm _ _ Hok); apply elem_of_seq; lia).
  destruct (path_bound _ NBUFn _ _ _ Hpath Hlt ltac:(done) i ltac:(set_solver)) as [Hn Hp].
  destruct (path_bound _ NBUFn _ _ _ Hpath Hlt ltac:(done) BHEAD ltac:(set_solver)) as [HnH _].
  assert (BHEAD ∉ l) as HH by (intros Hz; specialize (Hlt _ Hz); unfold BHEAD in Hlt; lia).
  assert (i <> BHEAD) as HiH by (unfold BHEAD; lia).
  apply list_elem_of_split in Hil as (l1 & l2 & ->).
  assert (NoDup (l1 ++ l2) /\ i ∉ l1 ++ l2) as [Hnd' Hi'].
  { rewrite <- Permutation_middle in Hnd. apply list.NoDup_cons in Hnd. tauto. }
  rewrite <- app_assoc in Hpath. simpl in Hpath.
  pose proof (path_unlink _ _ _ _ _ _ ltac:(apply list.NoDup_cons; split; [exact HH|exact Hnd]) Hpath) as Hun.
  cbn zeta in Hun.
  assert (BHEAD ∉ l1 ++ l2) as HH' by set_solver.
  pose proof (path_push _ _ _ i _ Hi' HiH Hnd' HH' Hun) as Hpu. cbn zeta in Hpu.
  assert (BHEAD = NBUFn) as HB by done.
  assert (linked (user w) (nx (user w)) (pv (user w)) (user w)) as Hlk by (constructor; done).
  unfold lru_to_front. repeat link_step.
  eapply HQ; [eapply lk_same; eassumption|].
  eapply (same_bufs_ok _ _ _ (i :: l1 ++ l2) Hok); [eapply lk_same; eassumption| |].
  - apply Permutation_middle.
  - eapply path_ext; [eapply lk_nx; eassumption|eapply lk_pv; eassumption|exact Hpu].
Qed.

(** A buffer given up by its last user must be clean: bio.c forgets it. *)
Definition released (c : bcore) (i : nat) : option (nat * bcore) :=
  if decide (c_refcnt c = 1) then None
  else Some (i, Bcore unlocked (c_refcnt c - 1) (c_data c)).

Lemma brelse_wp a x i c Q w :
  bio_rep (user w) a -> bio_unheld w -> a_refs a !! x = Some (i, c) ->
  c_lock c = Sleeplock true (a_pid a) ->
  (c_refcnt c = 1 -> a_disk a !! x = Some (c_data c)) ->
  (forall s', bio_rep s' (a_put x (released c i) a) ->
     Q tt (World (held w) (trace w ++ [EWakeup (ChBufLock i)]) s')) ->
  wp (brelse i) Q w.
Proof.
  intros Hrep [Hu1 Hu2] Hx Hl Hclean HQ.
  destruct (bio_rep_lookup _ _ _ _ _ Hrep Hx) as (l & b & Hok & Hlive & <- & Hi & Hb & Hh & Hz & Hv & <- & Hr).
  cbn in Hl, Hclean. unfold brelse. do 3 bio_step.
  eapply wp_holding_buf; [done|exact Hl|apply Hu2|]. cbn [negb].
  bio_step. eapply wp_release_buf; [done|apply Hu2|]. cbn [user held trace].
  do 3 bio_step. eapply wp_setb; [by eapply lookup_bset_eq|]. cbn [user held trace].
  cbn [b_set_lock b_refcnt]. rewrite u32_small, bset_bset by lia.
  set (b' := b_set_refcnt (b_refcnt b - 1) _).
  destruct (bset_rep (user w) l i b b') as (Hok' & Hlive' & Ha'); try done.
  { by destruct Hh. } { left. destruct Hh. by split. } { intros Hz'. split; [done|]. intros _. destruct Hh as [_ Hh]. cbn in Hz' |- *.
    rewrite Hh. apply Hclean. lia. } { cbn; lia. }
  assert (bio_rep (bset i b' (user w)) (a_put x (released (core_of b) i) (babs (user w)))) as Hrep'.
  { split; [by exists l|]. split; [done|]. rewrite Ha'. destruct Hh as [_ <-].
    unfold released. cbn.
    destruct (decide (b_refcnt b - 1 = 0)), (decide (b_refcnt b = 1)); done || lia. }
  bio_step. eapply wp_getb; [by eapply lookup_bset_eq|].
  bio_step. cbn [b_refcnt b' b_set_refcnt].
  destruct (b_refcnt b - 1 =? 0) eqn:E.
  - apply (lru_to_front_wp l); [done|done|]. cbn [user held trace]. intros s' l' Hs' Hok''.
    bio_step. apply HQ. by eapply same_bufs_rep.
  - do 2 bio_step. apply HQ. done.
Qed.

(** ** Booting: binit() *)

Definition zero_buf : buf := Buf false false 0 0 unlocked 0 0 0 (replicate (Z.to_nat BSIZE) 0).

(** The state before binit(): memory is zero. *)
Definition boot_cache (disk : gmap Z block) (pid : Z) : bcache :=
  Bcache (replicate (S NBUFn) zero_buf) disk pid.

Definition bio_pre (s : bcache) : Prop :=
  length (bc_bufs s) = S NBUFn /\
  forall i b, bc_bufs s !! i = Some b -> b_dev b = 0 /\ b_refcnt b = 0 /\ b_valid b = false /\
                                         sl_locked (b_lock b) = false.

Lemma bio_pre_ok s l :
  bio_pre s -> l ≡ₚ seq 0 NBUFn -> path (nx s) (pv s) (BHEAD :: l ++ [BHEAD]) ->
  bio_rep s (Acache ∅ (bc_disk s) (bc_pid s)).
Proof.
  intros [Hlen Hz] Hperm Hpath.
  assert (bio_ok s l) as Hok.
  { constructor; try done.
    - intros i j bi bj _ _ Hbi _ Hd. destruct (Hz _ _ Hbi) as [Hd' _]. rewrite Hd' in Hd. done.
    - intros i b _ Hb _. destruct (Hz _ _ Hb) as (_ & _ & Hv & Hl). split; [done|]. congruence.
    - intros i b _ Hb. destruct (Hz _ _ Hb) as (_ & -> & _). lia. }
  assert (refs_live s) as Hlive.
  { intros i b _ Hb Hr. destruct (Hz _ _ Hb) as (_ & Hr' & _). done. }
  split; [by exists l|]. split; [done|].
  assert (a_refs (babs s) = ∅) as E.
  { apply map_eq. intros x. rewrite (babs_lookup _ _ _ Hok Hlive), lookup_empty.
    apply (bref_None _ _ _ Hok). intros i b _ Hb _. by destruct (Hz _ _ Hb) as (_ & ? & _). }
  unfold babs in E |- *. cbn in E. by rewrite E.
Qed.

Lemma boot_cache_pre disk pid : bio_pre (boot_cache disk pid).
Proof.
  split; [apply length_replicate|]. intros i b Hb. apply lookup_replicate in Hb as [-> _]. done.
Qed.

Lemma strip_pre s s' : bio_pre s -> same_bufs s s' -> bio_pre s'.
Proof.
  intros [Hlen Hz] Hs. split.
  - rewrite <- (length_fmap strip), (sb_bufs _ _ Hs), length_fmap. done.
  - intros i b Hb. apply (same_bufs_lookup _ _ _ _ Hs) in Hb as (b' & Hb & E).
    injection E; intros. destruct (Hz _ _ Hb) as (? & ? & ? & ?). repeat split; congruence.
Qed.

Lemma wp_initsleeplock_links s0 f g i Q w :
  linked s0 f g (user w) -> (i <= NBUFn)%nat -> held w = [] ->
  (forall b, bc_bufs s0 !! i = Some b -> b_lock b = unlocked) ->
  (forall s', linked s0 f g s' -> Q tt (World [] (trace w) s')) ->
  wp (initsleeplock (buf_lock i)) Q w.
Proof.
  intros Hlk Hi Hh Hul HQ. unfold initsleeplock. bio_step. unfold wp at 1, initlock. rewrite Hh. cbn [remove_lock].
  bio_step. apply HQ.
  destruct (lookup_lt_is_Some_2 (bc_bufs (user w)) i) as [b Hb]; [rewrite (lk_len _ _ _ _ Hlk); lia|].
  destruct (same_bufs_lookup _ _ _ _ (lk_same _ _ _ _ Hlk) Hb) as (b0 & Hb0 & E).
  assert (b_lock b = unlocked) as Hl by (injection E; intros; rewrite <- (Hul _ Hb0); congruence).
  cbn. rewrite (upd_buf_bset _ _ b) by done.
  replace (bset i _ (user w)) with (user w); [done|].
  destruct (user w) as [bs dk pid]. unfold bset. cbn in Hb |- *. f_equal. symmetry.
  apply list_insert_id. rewrite Hb. destruct b. cbn in Hl. by subst.
Qed.

(** One iteration links buffer [k] in front of those already linked. *)
Lemma binit_loop_wp s0 n k f g Q w :
  linked s0 f g (user w) -> held w = [] -> (k + n = NBUFn)%nat ->
  (forall i b, bc_bufs s0 !! i = Some b -> b_lock b = unlocked) ->
  path f g (BHEAD :: reverse (seq 0 k) ++ [BHEAD]) ->
  (forall f' g' s', linked s0 f' g' s' -> path f' g' (BHEAD :: reverse (seq 0 NBUFn) ++ [BHEAD]) ->
     Q tt (World [] (trace w) s')) ->
  wp (for_each (seq k n) binit_buf) Q w.
Proof.
  intros Hlk Hh Hk Hul Hpath HQ. revert k f g w Hlk Hh Hk Hpath HQ.
  induction n as [|n IH]; intros k f g w Hlk Hh Hk Hpath HQ; cbn [seq for_each].
  { assert (k = NBUFn) as -> by lia. bio_step. destruct w as [h t s]. cbn in Hh. subst h. by eapply HQ. }
  assert (BHEAD = NBUFn) as HB by done.
  assert (forall z, z ∈ reverse (seq 0 k) -> (z < k)%nat) as Hlt.
  { intros z Hz. apply elem_of_reverse, elem_of_seq in Hz. lia. }
  destruct (path_bound _ NBUFn _ _ _ Hpath ltac:(intros z Hz; specialize (Hlt z Hz); lia)
              ltac:(lia) BHEAD ltac:(set_solver)) as [HnH _].
  pose proof (path_push f g BHEAD k (reverse (seq 0 k)) ltac:(intros Hz; specialize (Hlt _ Hz); lia)
    ltac:(lia) ltac:(rewrite reverse_Permutation; apply NoDup_seq) ltac:(intros Hz; specialize (Hlt _ Hz); lia) Hpath) as Hpu.
  cbn zeta in Hpu. unfold binit_buf at 1. repeat link_step.
  eapply wp_initsleeplock_links; [eassumption|lia|done|by apply Hul|]. intros s1 Hl1. cbn [user held trace].
  repeat link_step. eapply IH; [eassumption|done|lia| |done].
  rewrite seq_S, reverse_snoc. exact Hpu.
Qed.

Lemma binit_wp disk pid Q w :
  user w = boot_cache disk pid -> held w = [] ->
  (forall s', bio_rep s' (Acache ∅ disk pid) -> Q tt (World [] (trace w) s')) ->
  wp binit Q w.
Proof.
  intros Hs Hh HQ. unfold binit. bio_step. unfold wp at 1, initlock. rewrite Hh. cbn [remove_lock].
  assert (linked (user w) (nx (user w)) (pv (user w)) (user w)) as Hlk.
  { constructor; try done. rewrite Hs. apply length_replicate. }
  assert (BHEAD = NBUFn) as HB by done.
  repeat link_step. eapply binit_loop_wp; [eassumption|done|done| | |].
  - intros i b Hb. rewrite Hs in Hb. apply lookup_replicate in Hb as [-> _]. done.
  - cbn. rewrite !fupd_eq. done.
  - intros f' g' s1 Hl Hp. apply HQ.
    replace disk with (bc_disk s1); [|rewrite (sb_disk _ _ (lk_same _ _ _ _ Hl)); by rewrite Hs].
    replace pid with (bc_pid s1); [|rewrite (sb_pid _ _ (lk_same _ _ _ _ Hl)); by rewrite Hs].
    apply (bio_pre_ok _ (reverse (seq 0 NBUFn))).
    + apply (strip_pre (user w)); [rewrite Hs; apply boot_cache_pre|apply Hl].
    + apply reverse_Permutation.
    + eapply path_ext; [apply Hl|apply Hl|done].
Qed.

(** ** Clients of the cache

    A client is a program over the operations; [bspec] says which operations the
    discipline of bio.c ("when done with the buffer, call brelse; do not use the
    buffer after calling brelse") allows and what they answer, in terms of the
    abstract cache. *)

Inductive bop :=
  | OpBread (x : Z) | OpData (i : nat) | OpSetData (i : nat) (d : block)
  | OpBwrite (i : nat) | OpBrelse (i : nat) | OpBpin (i : nat) | OpBunpin (i : nat).

Inductive breply := RBuf (i : nat) | RData (d : block) | RUnit.

Inductive bclient :=
  | BDone
  | BDo (o : bop) (k : breply -> bclient).

Definition run_bop (o : bop) : M bcache breply :=
  match o with
  | OpBread x => let* i := bread ROOTDEV x in ret (RBuf i)
  | OpData i => let* d := bdata i in ret (RData d)
  | OpSetData i d => bdata_set i d ;; ret RUnit
  | OpBwrite i => bwrite i ;; ret RUnit
  | OpBrelse i => brelse i ;; ret RUnit
  | OpBpin i => bpin i ;; ret RUnit
  | OpBunpin i => bunpin i ;; ret RUnit
  end.

Fixpoint run_bclient (c : bclient) : M bcache unit :=
  match c with
  | BDone => ret tt
  | BDo o k => let* r := run_bop o in run_bclient (k r)
  end.

(** The buffer [i] holds block [x] and is locked by the running process. *)
Definition owns (a : acache) (i : nat) (x : Z) (c : bcore) : Prop :=
  a_refs a !! x = Some (i, c) /\ c_lock c = Sleeplock true (a_pid a).

Definition bpre (a : acache) (o : bop) : Prop :=
  match o with
  | OpBread x => is_Some (a_disk a !! x) /\ can_bread a x
  | OpData i | OpSetData i _ => exists x c, owns a i x c
  | OpBwrite i => exists x c, owns a i x c /\ is_Some (a_disk a !! x)
  | OpBrelse i => exists x c, owns a i x c /\ (c_refcnt c = 1 -> a_disk a !! x = Some (c_data c))
  | OpBpin i => exists x c, owns a i x c /\ c_refcnt c + 1 < 2 ^ 32
  | OpBunpin i => exists x c, a_refs a !! x = Some (i, c) /\ 2 <= c_refcnt c
  end.

Inductive bpost (a : acache) : bop -> breply -> acache -> Prop :=
  | PostBread x i d :
      a_view a x = Some d ->
      (forall y c, a_refs a !! y = Some (i, c) -> y = x) ->
      (forall j c, a_refs a !! x = Some (j, c) -> i = j) ->
      bpost a (OpBread x) (RBuf i) (a_put x (Some (i, a_locked (a_pid a) (refs_of a x + 1) d)) a)
  | PostData i x c : owns a i x c -> bpost a (OpData i) (RData (c_data c)) a
  | PostSetData i x c d : owns a i x c ->
      bpost a (OpSetData i d) RUnit (a_put x (Some (i, Bcore (c_lock c) (c_refcnt c) d)) a)
  | PostBwrite i x c : owns a i x c ->
      bpost a (OpBwrite i) RUnit (a_set_disk x (c_data c) a)
  | PostBrelse i x c : owns a i x c ->
      bpost a (OpBrelse i) RUnit (a_put x (released c i) a)
  | PostBpin i x c : a_refs a !! x = Some (i, c) ->
      bpost a (OpBpin i) RUnit (a_put x (Some (i, Bcore (c_lock c) (c_refcnt c + 1) (c_data c))) a)
  | PostBunpin i x c : a_refs a !! x = Some (i, c) ->
      bpost a (OpBunpin i) RUnit (a_put x (Some (i, Bcore (c_lock c) (c_refcnt c - 1) (c_data c))) a).

Fixpoint bsafe (a : acache) (c : bclient) : Prop :=
  match c with
  | BDone => True
  | BDo o k => bpre a o /\ forall r a', bpost a o r a' -> bsafe a' (k r)
  end.

(** The runs the specification allows. *)
Inductive bspec : acache -> bclient -> acache -> Prop :=
  | SpecDone a : bspec a BDone a
  | SpecDo a o k r a' a'' : bpost a o r a' -> bspec a' (k r) a'' -> bspec a (BDo o k) a''.

Lemma run_bop_wp a o Q w :
  bio_rep (user w) a -> bio_unheld w -> bpre a o ->
  (forall r a' s' t, bpost a o r a' -> bio_rep s' a' -> Q r (World (held w) t s')) ->
  wp (run_bop o) Q w.
Proof.
  intros Hrep Hu Hpre HQ. destruct o; cbn in Hpre; cbn [run_bop]; bio_step.
  - destruct Hpre as [Hd Hc]. apply (bread_wp a); try done. intros i d s' Hv Hij Hrep'. bio_step.
    eapply HQ; [|exact Hrep']. constructor; [done| |done]. intros y c Hy.
    destruct (decide (y = x)) as [|Hne]; [done|]. eapply (bio_rep_inj _ _ y x i _ _ Hrep').
    + rewrite a_put_ne by done. exact Hy.
    + apply a_put_eq.
  - destruct Hpre as (x & c & Ho). eapply bdata_wp; [done|apply Ho|]. bio_step. destruct w.
    eapply HQ; [by econstructor|done].
  - destruct Hpre as (x & c & Ho). eapply bdata_set_wp; [done|apply Ho|]. intros s' Hr. bio_step.
    eapply HQ; [by econstructor|done].
  - destruct Hpre as (x & c & Ho & Hd). eapply bwrite_wp; [done|done|apply Ho|apply Ho|done|].
    intros s' Hr. bio_step. eapply HQ; [by econstructor|done].
  - destruct Hpre as (x & c & Ho & Hd). eapply brelse_wp; [done|done|apply Ho|apply Ho|done|].
    intros s' Hr. bio_step. eapply HQ; [by econstructor|done].
  - destruct Hpre as (x & c & Ho & Hd). eapply bpin_wp; [done|apply Hu|apply Ho|done|].
    intros s' Hr. bio_step. eapply HQ; [econstructor; apply Ho|done].
  - destruct Hpre as (x & c & Ho & Hd). eapply bunpin_wp; [done|apply Hu|apply Ho|done|].
    intros s' Hr. bio_step. eapply HQ; [by econstructor|done].
Qed.

Lemma run_bclient_wp c a w :
  bio_rep (user w) a -> bio_unheld w -> bsafe a c ->
  wp (run_bclient c) (fun _ w' => held w' = held w /\ exists a', bspec a c a' /\ bio_rep (user w') a') w.
Proof.
  revert a w. induction c as [|o k IH]; intros a w Hrep Hu Hs; cbn [run_bclient].
  - bio_step. split; [done|]. exists a. split; [constructor|done].
  - destruct Hs as [Hpre Hs]. bio_step. eapply run_bop_wp; [done|done|done|].
    intros r a' s' t Hpost Hrep'. eapply wp_mono; [apply (IH r a'); try done; by apply Hs|].
    intros _ w' (Hh & a'' & Hsp & Hr). split; [done|]. exists a''. split; [by econstructor|done].
Qed.

(** C2. The buffer cache implements its abstract specification: after binit() on
    zeroed memory, every client that follows the discipline of bio.c runs to
    completion without a panic or a deadlock, its replies are those of a run of
    the specification (so a bread() answers the block's current contents), and the
    concrete state represents the specification's state. *)
Theorem bio_client_refines disk pid c w
    (Hboot : user w = boot_cache disk pid) (Hheld : held w = [])
    (Hsafe : bsafe (Acache ∅ disk pid) c) :
  wp (binit ;; run_bclient c)
     (fun _ w' => held w' = [] /\ exists a', bspec (Acache ∅ disk pid) c a' /\ bio_rep (user w') a') w.
Proof.
  bio_step. eapply binit_wp; [done|done|]. intros s' Hrep.
  apply (run_bclient_wp c (Acache ∅ disk pid)); try done. split; [|intros i]; apply not_elem_of_nil.
Qed.

(** A client that reads block 1, replaces its data, writes it back and lets go. *)
Definition demo_disk : gmap Z block := {[ 1 := [7; 7; 7] ]}.
Definition demo_client : bclient :=
  BDo (OpBread 1) (fun r => match r with
    | RBuf i => BDo (OpSetData i [1; 2; 3]) (fun _ => BDo (OpBwrite i) (fun _ =>
                BDo (OpBrelse i) (fun _ => BDone)))
    | _ => BDone
    end).

Lemma owns_put a x i c y c' :
  owns (a_put x (Some (i, c)) a) i y c' -> (forall z e, a_refs a !! z = Some (i, e) -> z = x) ->
  y = x /\ c' = c.
Proof.
  intros [Hy _] Hinj. destruct (decide (x = y)) as [<-|Hne].
  - rewrite a_put_eq in Hy. split; congruence.
  - rewrite a_put_ne in Hy by done. by apply Hinj in Hy.
Qed.

Lemma a_put_put x e e' a : a_put x e' (a_put x e a) = a_put x e' a.
Proof. unfold a_put. cbn. by rewrite partial_alter_partial_alter_eq. Qed.

Lemma demo_client_safe : bsafe (Acache ∅ demo_disk 1) demo_client.
Proof.
  assert (forall i z (e : bcore), (∅ : gmap Z (nat * bcore)) !! z = Some (i, e) -> z = 1) as Hinj by done.
  cbn [bsafe demo_client]. split; [split; [by eexists|]; unfold can_bread; cbn [a_refs]; rewrite lookup_empty, map_size_empty; by apply Nat.ltb_lt|].
  intros r a1 Hp. inversion Hp; subst; clear Hp. cbn [bsafe]. split.
  { exists 1, (a_locked 1 1 d). split; [apply a_put_eq|done]. }
  intros r a2 Hp. inversion Hp as [| |i' x c d' Ho| | | |]; subst; clear Hp.
  apply owns_put in Ho as [-> ->]; [|by apply Hinj].
  rewrite a_put_put. cbn [bsafe]. split.
  { exists 1. eexists. split; [split; [apply a_put_eq|done]|by eexists]. }
  intros r a3 Hp. inversion Hp as [| | |i' x c Ho| | |]; subst; clear Hp.
  apply owns_put in Ho as [-> ->]; [|by apply Hinj].
  cbn [bsafe]. split; [|done].
  exists 1. eexists. split; [split; [apply a_put_eq|done]|]. intros _. reflexivity.
Qed.

Lemma bio_client_refines_witness :
  wp (binit ;; run_bclient demo_client)
     (fun _ w' => held w' = [] /\ exists a', bspec (Acache ∅ demo_disk 1) demo_client a' /\ bio_rep (user w') a')
     (World [] [] (boot_cache demo_disk 1)).
Proof.
  apply (bio_client_refines demo_disk 1 demo_client); [reflexivity|reflexivity|apply demo_client_safe].
Defined.
