(* ===== verification/Store.v ===== *)
(** * The interface between the file system and the log

    What kernel/log.c and kernel/bio.c together promise to kernel/fs.c: inside a
    transaction, bread() gives exclusive access to the current contents of a
    block, log_write() makes a modification part of the transaction, brelse()
    gives the block up.  fs.c is verified against this class; LogTxn.v has its
    instance. *)

From S2P Require Import Prelude Machine Bio.

Open Scope Z_scope.

(** The logical state of the disk during a transaction. *)
Record tstate := Tstate {
  t_view : gmap Z block;       (* current contents of every block outside the log *)
  t_open : gmap Z nat;         (* blocks locked by this process, with their buffer *)
  t_dirty : gset Z;            (* open blocks modified since log_write() *)
  t_logged : list Z;           (* blocks of the transaction, in order *)
  t_out : Z                    (* operations in progress *)
}.

Definition t_opened (x : Z) (i : nat) (t : tstate) : tstate :=
  Tstate (t_view t) (<[x := i]> (t_open t)) (t_dirty t) (t_logged t) (t_out t).
Definition t_closed (x : Z) (t : tstate) : tstate :=
  Tstate (t_view t) (delete x (t_open t)) (t_dirty t) (t_logged t) (t_out t).
Definition t_modified (x : Z) (d : block) (t : tstate) : tstate :=
  Tstate (<[x := d]> (t_view t)) (t_open t) ({[ x ]} ∪ t_dirty t) (t_logged t) (t_out t).
Definition t_add (x : Z) (l : list Z) : list Z := if decide (x ∈ l) then l else l ++ [x].
Definition t_wrote (x : Z) (t : tstate) : tstate :=
  Tstate (t_view t) (t_open t) (t_dirty t ∖ {[ x ]}) (t_add x (t_logged t)) (t_out t).
Definition t_begun (t : tstate) : tstate :=
  Tstate (t_view t) (t_open t) (t_dirty t) (t_logged t) (t_out t + 1).
Definition t_ended (t : tstate) : tstate :=
  if decide (t_out t = 1) then Tstate (t_view t) (t_open t) (t_dirty t) [] 0
  else Tstate (t_view t) (t_open t) (t_dirty t) (t_logged t) (t_out t - 1).

Lemma t_closed_eq x t : t_open (t_closed x t) !! x = None.
Proof. apply lookup_delete_eq. Qed.
Lemma t_closed_ne x y t : y <> x -> t_open (t_closed x t) !! y = t_open t !! y.
Proof. intros. by apply lookup_delete_ne. Qed.
Lemma t_opened_eq x i t : t_open (t_opened x i t) !! x = Some i.
Proof. apply lookup_insert_eq. Qed.
Lemma t_opened_ne x y i t : y <> x -> t_open (t_opened x i t) !! y = t_open t !! y.
Proof. intros. by apply lookup_insert_ne. Qed.
Lemma t_modified_eq x d t : t_view (t_modified x d t) !! x = Some d.
Proof. apply lookup_insert_eq. Qed.
Lemma t_modified_ne x y d t : y <> x -> t_view (t_modified x d t) !! y = t_view t !! y.
Proof. intros. by apply lookup_insert_ne. Qed.

(** bread() of [x] returns: the block exists, is not already locked, and there is
    a buffer for it. *)
Definition can_open (t : tstate) (x : Z) : Prop :=
  is_Some (t_view t !! x) /\ t_open t !! x = None /\
  (x ∈ t_logged t \/ (size (t_open t) + length (t_logged t) < NBUFn)%nat).

Definition BSIZEn : nat := Z.to_nat BSIZE.

(** [struct superblock]'s fields that initlog() reads. *)
Record log_geom := LogGeom { g_logstart : Z; g_nlog : Z }.

Class BlockStore (S : Type) := {
  bs_initlog : Z -> log_geom -> M S unit;
  bs_limit : nat;              (* how many blocks a transaction may hold *)
  bs_rep : S -> tstate -> Prop;
  bs_bread : Z -> Z -> M S nat;
  bs_data : nat -> M S block;
  bs_set : nat -> block -> M S unit;
  bs_log_write : nat -> M S unit;
  bs_brelse : nat -> M S unit;
  bs_begin_op : M S unit;
  bs_end_op : M S unit;
  bs_block_len s t x d : bs_rep s t -> t_view t !! x = Some d -> length d = BSIZEn;
  bs_bread_wp t x Q w :
    bs_rep (user w) t -> held w = [] -> can_open t x ->
    (forall i s' tr, bs_rep s' (t_opened x i t) -> Q i (World [] tr s')) ->
    wp (bs_bread ROOTDEV x) Q w;
  bs_data_wp t x i d Q w :
    bs_rep (user w) t -> t_open t !! x = Some i -> t_view t !! x = Some d ->
    Q d w -> wp (bs_data i) Q w;
  bs_set_wp t x i d Q w :
    bs_rep (user w) t -> held w = [] -> t_open t !! x = Some i -> length d = BSIZEn ->
    (forall s' tr, bs_rep s' (t_modified x d t) -> Q tt (World [] tr s')) ->
    wp (bs_set i d) Q w;
  bs_log_write_wp t x i Q w :
    bs_rep (user w) t -> held w = [] -> t_open t !! x = Some i ->
    (length (t_logged t) < bs_limit)%nat -> 1 <= t_out t ->
    (forall s' tr, bs_rep s' (t_wrote x t) -> Q tt (World [] tr s')) ->
    wp (bs_log_write i) Q w;
  bs_brelse_wp t x i Q w :
    bs_rep (user w) t -> held w = [] -> t_open t !! x = Some i -> x ∉ t_dirty t ->
    (forall s' tr, bs_rep s' (t_closed x t) -> Q tt (World [] tr s')) ->
    wp (bs_brelse i) Q w;
  bs_begin_op_wp t Q w :
    bs_rep (user w) t -> held w = [] ->
    Z.of_nat (length (t_logged t)) + (t_out t + 1) * MAXOPBLOCKS <= LOGSIZE ->
    (forall s' tr, bs_rep s' (t_begun t) -> Q tt (World [] tr s')) ->
    wp bs_begin_op Q w;
  bs_end_op_wp t Q w :
    bs_rep (user w) t -> held w = [] -> 1 <= t_out t ->
    (t_out t = 1 -> t_open t = ∅ /\ (length (t_logged t) < NBUFn)%nat) ->
    (forall s' tr, bs_rep s' (t_ended t) -> Q tt (World [] tr s')) ->
    wp bs_end_op Q w
}.
