(* ===== verification/Log.v ===== *)
(** * Write-ahead log (kernel/log.c)

    The state is the buffer cache of Bio.v together with [struct log].  The
    on-disk header is read and written as the bytes of its block.  The theorems
    show that a commit is atomic with respect to crashes: the disk after any
    prefix of its block writes, once recovered, holds either none or all of the
    transaction, and recovery may itself crash any number of times. *)

From S2P Require Import Prelude Machine Sleeplock Bio Store.

Open Scope Z_scope.

Record logrec := Logrec {
  lg_start : Z;
  lg_size : Z;
  lg_outstanding : Z;
  lg_committing : bool;
  lg_dev : Z;
  lh_n : Z;
  lh_block : list Z
}.

Definition lg_set_geom st sz dv l := Logrec st sz (lg_outstanding l) (lg_committing l) dv (lh_n l) (lh_block l).
Definition lg_set_outstanding o l := Logrec (lg_start l) (lg_size l) o (lg_committing l) (lg_dev l) (lh_n l) (lh_block l).
Definition lg_set_committing c l := Logrec (lg_start l) (lg_size l) (lg_outstanding l) c (lg_dev l) (lh_n l) (lh_block l).
Definition lg_set_n n l := Logrec (lg_start l) (lg_size l) (lg_outstanding l) (lg_committing l) (lg_dev l) n (lh_block l).
Definition lg_set_block b l := Logrec (lg_start l) (lg_size l) (lg_outstanding l) (lg_committing l) (lg_dev l) (lh_n l) b.

Record lstate := Lstate { ls_cache : bcache; ls_log : logrec }.
Definition ls_upd (f : logrec -> logrec) (s : lstate) : lstate := Lstate (ls_cache s) (f (ls_log s)).

#[export] Instance lens_cache : Lens lstate bcache :=
  { lget := ls_cache; lput c s := Lstate c (ls_log s) }.

(** ** The header block *)

Definition LOGSIZEn : nat := Z.to_nat LOGSIZE.

(** The [int] at byte offset [off] of a block. *)
Definition get_int (off : nat) (d : block) : Z := s32 (le_val (slice off 4 d)).
Definition put_int (off : nat) (v : Z) (d : block) : block := splice off (le_bytes 4 v) d.

(** [hb->n = n; for(i = 0; ...) hb->block[i] = blocks[i]] *)
Fixpoint put_blocks (i : nat) (bs : list Z) (d : block) : block :=
  match bs with
  | [] => d
  | b :: t => put_blocks (S i) t (put_int (4 + 4 * i) b d)
  end.
Definition put_head (bs : list Z) (d : block) : block :=
  put_blocks 0 bs (put_int 0 (Z.of_nat (length bs)) d).

(** memmove of a whole block. *)
Definition copy_block (dst src : block) : block := splice 0 (slice 0 BSIZEn src) dst.

(** ** The operations *)

Definition log_block (tail : nat) : M lstate Z :=
  let* o := gets (fun s => lh_block (ls_log s) !! tail) in the o.

Definition install_one (recovering : bool) (tail : nat) : M lstate unit :=
  let* l := gets ls_log in
  let* lbuf := zoom (bread (lg_dev l) (u32 (lg_start l + Z.of_nat tail + 1))) in
  let* bno := log_block tail in
  let* dbuf := zoom (bread (lg_dev l) (u32 bno)) in
  let* src := zoom (bdata lbuf) in
  let* dst := zoom (bdata dbuf) in
  zoom (bdata_set dbuf (copy_block dst src)) ;;
  zoom (bwrite dbuf) ;;
  (if negb recovering then zoom (bunpin dbuf) else ret tt) ;;
  zoom (brelse lbuf) ;;
  zoom (brelse dbuf).

Definition install_trans (recovering : bool) : M lstate unit :=
  let* l := gets ls_log in
  for_each (seq 0 (Z.to_nat (lh_n l))) (install_one recovering).

(** [log.lh.block[i] = lh->block[i]]; the array has LOGSIZE entries. *)
Definition read_block (d : block) (i : nat) : M lstate unit :=
  let* l := gets ls_log in
  if decide (i < length (lh_block l))%nat
  then modify (ls_upd (lg_set_block (<[i := get_int (4 + 4 * i) d]> (lh_block l))))
  else panic "wild pointer".

Definition read_head : M lstate unit :=
  let* l := gets ls_log in
  let* b := zoom (bread (lg_dev l) (u32 (lg_start l))) in
  let* d := zoom (bdata b) in
  modify (ls_upd (lg_set_n (get_int 0 d))) ;;
  for_each (seq 0 (Z.to_nat (get_int 0 d))) (read_block d) ;;
  zoom (brelse b).

Definition write_head : M lstate unit :=
  let* l := gets ls_log in
  let* b := zoom (bread (lg_dev l) (u32 (lg_start l))) in
  let* d := zoom (bdata b) in
  (if decide (Z.to_nat (lh_n l) <= length (lh_block l))%nat
   then zoom (bdata_set b (put_head (take (Z.to_nat (lh_n l)) (lh_block l)) d))
   else panic "wild pointer") ;;
  zoom (bwrite b) ;;
  zoom (brelse b).

Definition recover_from_log : M lstate unit :=
  read_head ;;
  install_trans true ;;
  modify (ls_upd (lg_set_n 0)) ;;
  write_head.

Definition sizeof_logheader : Z := 4 + 4 * LOGSIZE.

Definition initlog (dev : Z) (sb : log_geom) : M lstate unit :=
  if sizeof_logheader >=? BSIZE then panic "initlog: too big logheader" else
  initlock LLog ;;
  modify (ls_upd (lg_set_geom (s32 (g_logstart sb)) (s32 (g_nlog sb)) dev)) ;;
  recover_from_log.

(** [while(1)]: sleep() releases the lock and, in sequential code, nobody wakes
    the caller, so one turn of the loop decides. *)
Definition begin_op : M lstate unit :=
  acquire LLog ;;
  let* l := gets ls_log in
  if lg_committing l then sleep ChLog LLog
  else if lh_n l + (lg_outstanding l + 1) * MAXOPBLOCKS >? LOGSIZE then sleep ChLog LLog
  else
    modify (ls_upd (lg_set_outstanding (lg_outstanding l + 1))) ;;
    release LLog.

Definition write_log_one (tail : nat) : M lstate unit :=
  let* l := gets ls_log in
  let* to := zoom (bread (lg_dev l) (u32 (lg_start l + Z.of_nat tail + 1))) in
  let* bno := log_block tail in
  let* from := zoom (bread (lg_dev l) (u32 bno)) in
  let* src := zoom (bdata from) in
  let* dst := zoom (bdata to) in
  zoom (bdata_set to (copy_block dst src)) ;;
  zoom (bwrite to) ;;
  zoom (brelse from) ;;
  zoom (brelse to).

Definition write_log : M lstate unit :=
  let* l := gets ls_log in
  for_each (seq 0 (Z.to_nat (lh_n l))) write_log_one.

Definition commit : M lstate unit :=
  let* l := gets ls_log in
  if lh_n l >? 0 then
    write_log ;;
    write_head ;;
    install_trans false ;;
    modify (ls_upd (lg_set_n 0)) ;;
    write_head
  else ret tt.

Definition end_op : M lstate unit :=
  acquire LLog ;;
  let* l := gets ls_log in
  modify (ls_upd (lg_set_outstanding (lg_outstanding l - 1))) ;;
  if lg_committing l then panic "log.committing" else
  (if lg_outstanding l - 1 =? 0
   then modify (ls_upd (lg_set_committing true))
   else wakeup ChLog) ;;
  release LLog ;;
  if lg_outstanding l - 1 =? 0 then
    commit ;;
    acquire LLog ;;
    modify (ls_upd (lg_set_committing false)) ;;
    wakeup ChLog ;;
    release LLog
  else ret tt.

(** The position of [bno] among the first [n] logged blocks, or [n]. *)
Fixpoint log_find (bno : Z) (blocks : list Z) (n i : nat) : nat :=
  match n, blocks with
  | S n', b :: t => if u32 b =? bno then i else log_find bno t n' (S i)
  | _, _ => i
  end.

Definition log_write (b : nat) : M lstate unit :=
  acquire LLog ;;
  let* l := gets ls_log in
  if (lh_n l >=? LOGSIZE) || (lh_n l >=? lg_size l - 1) then panic "too big a transaction" else
  if lg_outstanding l <? 1 then panic "log_write outside of trans" else
  let* x := zoom (getb b) in
  let i := log_find (b_blockno x) (lh_block l) (Z.to_nat (lh_n l)) 0 in
  modify (ls_upd (lg_set_block (<[i := s32 (b_blockno x)]> (lh_block l)))) ;;
  (if Z.of_nat i =? lh_n l
   then zoom (bpin b) ;; modify (ls_upd (lg_set_n (lh_n l + 1)))
   else ret tt) ;;
  release LLog.

(** ** Reading back a header *)

Lemma s32_mod v : - 2 ^ 31 <= v < 2 ^ 31 -> s32 (v mod 2 ^ 32) = v.
Proof.
  intros Hv. unfold s32. rewrite Zplus_mod_idemp_l.
  rewrite Z.mod_small by lia. lia.
Qed.

Lemma length_put_int off v d : (off + 4 <= length d)%nat -> length (put_int off v d) = length d.
Proof. intros. unfold put_int. apply length_splice. by rewrite length_le_bytes. Qed.

Lemma get_put_int_eq off v d :
  (off + 4 <= length d)%nat -> - 2 ^ 31 <= v < 2 ^ 31 -> get_int off (put_int off v d) = v.
Proof.
  intros Hl Hv. unfold get_int, put_int.
  replace 4%nat with (length (le_bytes 4 v)) at 1 by apply length_le_bytes.
  rewrite slice_splice_same by (by rewrite length_le_bytes).
  rewrite le_val_bytes. change (256 ^ Z.of_nat 4) with (2 ^ 32). by apply s32_mod.
Qed.

Lemma get_put_int_ne o off v d :
  (off + 4 <= length d)%nat -> (o + 4 <= length d)%nat -> (o + 4 <= off \/ off + 4 <= o)%nat ->
  get_int o (put_int off v d) = get_int o d.
Proof.
  intros. unfold get_int, put_int. by rewrite slice_splice_disj by (rewrite ?length_le_bytes; lia).
Qed.

Definition small_int (v : Z) : Prop := 0 <= v < 2 ^ 31.

Lemma length_put_blocks i bs d :
  (4 + 4 * (i + length bs) <= length d)%nat -> length (put_blocks i bs d) = length d.
Proof.
  revert i d. induction bs as [|b t IH]; intros i d H; cbn [put_blocks length] in *; [done|].
  rewrite IH; rewrite length_put_int; lia.
Qed.

Lemma get_put_blocks_low o i bs d :
  (4 + 4 * (i + length bs) <= length d)%nat -> (o + 4 <= 4 + 4 * i)%nat ->
  get_int o (put_blocks i bs d) = get_int o d.
Proof.
  revert i d. induction bs as [|b t IH]; intros i d Hl Ho; cbn [put_blocks length] in *; [done|].
  rewrite IH; [|rewrite length_put_int; lia|lia]. apply get_put_int_ne; lia.
Qed.

Lemma get_put_blocks i bs d j b :
  (4 + 4 * (i + length bs) <= length d)%nat -> Forall small_int bs -> bs !! j = Some b ->
  get_int (4 + 4 * (i + j)) (put_blocks i bs d) = b.
Proof.
  revert i j d. induction bs as [|b' t IH]; intros i j d Hl Hs Hj; [done|]. cbn [put_blocks length] in *.
  apply Forall_cons_1 in Hs as [Hb Hs]. destruct j as [|j]; simpl in Hj.
  - injection Hj as ->. rewrite Nat.add_0_r.
    rewrite get_put_blocks_low by (rewrite ?length_put_int; lia).
    apply get_put_int_eq; [lia|]. unfold small_int in Hb. lia.
  - replace (i + S j)%nat with (S i + j)%nat by lia.
    apply IH; [rewrite length_put_int; lia|done|done].
Qed.

Definition head_n (d : block) : Z := get_int 0 d.
Definition head_blocks (d : block) : list Z :=
  (fun i => get_int (4 + 4 * i) d) <$> seq 0 (Z.to_nat (head_n d)).

Section HeadRoundTrip.
Context (bs : list Z) (d : block).
Hypothesis Hlen : length d = BSIZEn.
Hypothesis Hbs : (length bs <= LOGSIZEn)%nat.
Hypothesis Hsmall : Forall small_int bs.

Lemma head_room : (4 + 4 * (0 + length bs) <= length d)%nat.
Proof. rewrite Hlen. unfold BSIZEn, LOGSIZEn, BSIZE, LOGSIZE, MAXOPBLOCKS in *. lia. Qed.

Lemma length_put_head : length (put_head bs d) = BSIZEn.
Proof.
  pose proof head_room. unfold put_head. rewrite length_put_blocks; rewrite length_put_int; lia.
Qed.

Lemma head_n_put : head_n (put_head bs d) = Z.of_nat (length bs).
Proof.
  pose proof head_room. unfold head_n, put_head.
  rewrite get_put_blocks_low by (rewrite ?length_put_int; lia). apply get_put_int_eq; [lia|].
  unfold LOGSIZEn, LOGSIZE, MAXOPBLOCKS in *. lia.
Qed.

Lemma head_blocks_put : head_blocks (put_head bs d) = bs.
Proof.
  pose proof head_room. unfold head_blocks. rewrite head_n_put, Nat2Z.id.
  apply list_eq. intros j. rewrite list_lookup_fmap.
  destruct (bs !! j) as [b|] eqn:E.
  - pose proof (lookup_lt_Some _ _ _ E). rewrite lookup_seq_lt by lia. cbn. f_equal.
    unfold put_head. apply (get_put_blocks 0); [rewrite length_put_int; lia|done|done].
  - rewrite lookup_seq_ge by (by apply lookup_ge_None). done.
Qed.
End HeadRoundTrip.

Lemma copy_block_eq dst src :
  length dst = BSIZEn -> length src = BSIZEn -> copy_block dst src = src.
Proof.
  intros Hd Hs. unfold copy_block, slice, splice. rewrite drop_0, (take_ge src) by lia. cbn [take app].
  rewrite drop_ge by lia. apply app_nil_r.
Qed.

(** ** Steps on the cache, seen through the log's state *)

Lemma a_refs_set_disk x d a : a_refs (a_set_disk x d a) = a_refs a.
Proof. done. Qed.
Lemma a_disk_put x e a : a_disk (a_put x e a) = a_disk a.
Proof. done. Qed.
Lemma a_disk_set x d a : a_disk (a_set_disk x d a) = <[x := d]> (a_disk a).
Proof. done. Qed.
Lemma a_pid_put x e a : a_pid (a_put x e a) = a_pid a.
Proof. done. Qed.
Lemma a_pid_set x d a : a_pid (a_set_disk x d a) = a_pid a.
Proof. done. Qed.

Lemma acache_eq a a' :
  (forall x, a_refs a !! x = a_refs a' !! x) -> a_disk a = a_disk a' -> a_pid a = a_pid a' -> a = a'.
Proof.
  destruct a, a'. cbn. intros H -> ->. f_equal. by apply map_eq.
Qed.

Create Rewrite HintDb acache.
#[export] Hint Rewrite a_put_eq a_refs_set_disk a_disk_put a_disk_set a_pid_put a_pid_set : acache.

(** Computes a lookup in an updated abstract cache. *)
Ltac arw :=
  repeat first
    [ progress (autorewrite with acache)
    | rewrite a_put_ne by congruence
    | rewrite lookup_insert_eq
    | rewrite lookup_insert_ne by congruence ].

(** Two updated abstract caches agree at every block. *)
Ltac acache_ext :=
  apply acache_eq; [intros ?x|by arw|by arw];
  repeat match goal with
  | |- context [a_refs (a_put ?y _ _) !! ?x] =>
      destruct (decide (y = x)) as [<-|];
      [rewrite a_put_eq | rewrite (a_put_ne y x) by done]
  | |- context [a_refs (a_set_disk _ _ _)] => rewrite a_refs_set_disk
  end; arw; try done; try congruence.

(** The block writes of a trace, in order. *)
Definition write_of (e : event) : option (Z * block) :=
  match e with EDisk x d => Some (x, d) | _ => None end.
Definition writes (t : list event) : list (Z * block) := omap write_of t.

Lemma writes_app t t' : writes (t ++ t') = writes t ++ writes t'.
Proof. apply omap_app. Qed.

(** The block a process can read: uncached, with a buffer to spare. *)
Lemma can_bread_free a x :
  a_refs a !! x = None -> (size (a_refs a) < NBUFn)%nat -> can_bread a x.
Proof. intros Hx Hs. unfold can_bread. by rewrite Hx. Qed.

Lemma can_bread_pinned a x i c :
  a_refs a !! x = Some (i, c) -> sl_locked (c_lock c) = false -> c_refcnt c + 1 < 2 ^ 32 -> can_bread a x.
Proof. intros Hx Hl Hr. unfold can_bread. by rewrite Hx. Qed.

Lemma refs_of_None a x : a_refs a !! x = None -> refs_of a x = 0.
Proof. intros Hx. unfold refs_of. by rewrite Hx. Qed.
Lemma refs_of_Some a x i c : a_refs a !! x = Some (i, c) -> refs_of a x = c_refcnt c.
Proof. intros Hx. unfold refs_of. by rewrite Hx. Qed.
Lemma a_view_None a x : a_refs a !! x = None -> a_view a x = a_disk a !! x.
Proof. intros Hx. unfold a_view. by rewrite Hx. Qed.
Lemma a_view_Some a x i c : a_refs a !! x = Some (i, c) -> a_view a x = Some (c_data c).
Proof. intros Hx. unfold a_view. by rewrite Hx. Qed.

Lemma size_put_new a x e :
  a_refs a !! x = None -> size (a_refs (a_put x (Some e) a)) = S (size (a_refs a)).
Proof. intros Hx. by apply map_size_insert_None. Qed.

(** Reading an uncached block. *)
Lemma zbread_free_wp a L c x d Q h t :
  bio_rep c a -> bio_unheld (World h t c) -> a_refs a !! x = None -> (size (a_refs a) < NBUFn)%nat ->
  a_disk a !! x = Some d ->
  (forall i c', bio_rep c' (a_put x (Some (i, a_locked (a_pid a) 1 d)) a) ->
     Q i (World h t (Lstate c' L))) ->
  wp (zoom (bread ROOTDEV x)) Q (World h t (Lstate c L)).
Proof.
  intros Hrep Hu Hx Hs Hd HQ. wp_step. eapply bread_wp; [done|done|by eexists|by apply can_bread_free|].
  intros i d' c' Hv _ Hrep'. cbn [user held trace lput lens_cache ls_log]. apply HQ.
  rewrite (a_view_None _ _ Hx), Hd in Hv. injection Hv as <-.
  by rewrite (refs_of_None _ _ Hx) in Hrep'.
Qed.

(** Reading a pinned block. *)
Lemma zbread_pinned_wp a L c x j r d Q h t :
  bio_rep c a -> bio_unheld (World h t c) ->
  a_refs a !! x = Some (j, Bcore unlocked r d) -> r + 1 < 2 ^ 32 -> is_Some (a_disk a !! x) ->
  (forall c', bio_rep c' (a_put x (Some (j, a_locked (a_pid a) (r + 1) d)) a) ->
     Q j (World h t (Lstate c' L))) ->
  wp (zoom (bread ROOTDEV x)) Q (World h t (Lstate c L)).
Proof.
  intros Hrep Hu Hx Hr Hd HQ. wp_step. eapply bread_wp; [done|done|done|by eapply can_bread_pinned|].
  intros i d' c' Hv Hij Hrep'. cbn [user held trace lput lens_cache ls_log].
  rewrite (Hij _ _ Hx) in *. apply HQ.
  rewrite (a_view_Some _ _ _ _ Hx) in Hv. injection Hv as <-.
  by rewrite (refs_of_Some _ _ _ _ Hx) in Hrep'.
Qed.

Section Zoomed.
Context (a : acache) (L : logrec) (c : bcache) (h : list lock) (t : list event).
Context (x : Z) (i : nat) (k : bcore).
Hypothesis Hrep : bio_rep c a.
Hypothesis Hu : bio_unheld (World h t c).
Hypothesis Hx : a_refs a !! x = Some (i, k).

Lemma zbdata_wp Q :
  Q (c_data k) (World h t (Lstate c L)) -> wp (zoom (bdata i)) Q (World h t (Lstate c L)).
Proof. intros HQ. wp_step. by eapply bdata_wp. Qed.

Lemma zbdata_set_wp d Q :
  (forall c', bio_rep c' (a_put x (Some (i, Bcore (c_lock k) (c_refcnt k) d)) a) ->
     Q tt (World h t (Lstate c' L))) ->
  wp (zoom (bdata_set i d)) Q (World h t (Lstate c L)).
Proof. intros HQ. wp_step. eapply bdata_set_wp; [done|done|]. intros c' H. by apply HQ. Qed.

Lemma zbwrite_wp Q :
  c_lock k = Sleeplock true (a_pid a) -> is_Some (a_disk a !! x) ->
  (forall c', bio_rep c' (a_set_disk x (c_data k) a) ->
     Q tt (World h (t ++ [EDisk x (c_data k)]) (Lstate c' L))) ->
  wp (zoom (bwrite i)) Q (World h t (Lstate c L)).
Proof. intros Hl Hd HQ. wp_step. by eapply bwrite_wp. Qed.

Lemma zbrelse_wp Q :
  c_lock k = Sleeplock true (a_pid a) -> (c_refcnt k = 1 -> a_disk a !! x = Some (c_data k)) ->
  (forall c', bio_rep c' (a_put x (released k i) a) ->
     Q tt (World h (t ++ [EWakeup (ChBufLock i)]) (Lstate c' L))) ->
  wp (zoom (brelse i)) Q (World h t (Lstate c L)).
Proof. intros Hl Hd HQ. wp_step. by eapply brelse_wp. Qed.

Lemma zbunpin_wp Q :
  2 <= c_refcnt k ->
  (forall c', bio_rep c' (a_put x (Some (i, Bcore (c_lock k) (c_refcnt k - 1) (c_data k))) a) ->
     Q tt (World h t (Lstate c' L))) ->
  wp (zoom (bunpin i)) Q (World h t (Lstate c L)).
Proof.
  intros Hr HQ. wp_step. eapply bunpin_wp; [done|apply Hu|done|done|]. exact HQ.
Qed.

Lemma zbpin_wp Q :
  c_refcnt k + 1 < 2 ^ 32 ->
  (forall c', bio_rep c' (a_put x (Some (i, Bcore (c_lock k) (c_refcnt k + 1) (c_data k))) a) ->
     Q tt (World h t (Lstate c' L))) ->
  wp (zoom (bpin i)) Q (World h t (Lstate c L)).
Proof.
  intros Hr HQ. wp_step. eapply bpin_wp; [done|apply Hu|done|done|]. exact HQ.
Qed.
End Zoomed.

Lemma log_block_wp tail b Q w :
  lh_block (ls_log (user w)) !! tail = Some b -> Q b w -> wp (log_block tail) Q w.
Proof. intros Hb HQ. unfold log_block. do 2 wp_step. by eapply wp_the. Qed.

(** ** One block from the cache to the log *)

Lemma write_log_one_wp a L c h t tail b j d old Q (lb := lg_start L + Z.of_nat tail + 1) :
  bio_rep c a -> bio_unheld (World h t c) -> lg_dev L = ROOTDEV -> 0 <= lb < 2 ^ 32 ->
  lh_block L !! tail = Some b -> small_int b -> lb <> b ->
  (size (a_refs a) < NBUFn)%nat -> length d = BSIZEn -> length old = BSIZEn ->
  a_refs a !! lb = None -> a_disk a !! lb = Some old ->
  a_refs a !! b = Some (j, Bcore unlocked 1 d) -> is_Some (a_disk a !! b) ->
  (forall c' t', bio_rep c' (a_set_disk lb d a) -> writes t' = [(lb, d)] ->
     Q tt (World h (t ++ t') (Lstate c' L))) ->
  wp (write_log_one tail) Q (World h t (Lstate c L)).
Proof.
  intros Hrep Hu Hdev Hlb Hb Hsm Hne Hsz Hd Hold Hlr Hlo Hbr Hbd HQ.
  unfold write_log_one. do 3 wp_step. cbn [ls_log]. rewrite Hdev, u32_small by exact Hlb. fold lb.
  eapply zbread_free_wp; try done. intros i c1 R1. wp_step. eapply log_block_wp; [done|].
  wp_step. unfold small_int in Hsm. rewrite u32_small by lia.
  eapply (zbread_pinned_wp _ _ _ b j 1 d); [done|done|by arw|lia|by arw|]. intros c2 R2.
  wp_step. eapply (zbdata_wp _ _ _ _ _ b); [done|by arw|].
  wp_step. eapply (zbdata_wp _ _ _ _ _ lb); [done|by arw|]. cbn [c_data a_locked].
  rewrite copy_block_eq by done.
  wp_step. eapply (zbdata_set_wp _ _ _ _ _ lb); [done|by arw|]. intros c3 R3.
  wp_step. eapply (zbwrite_wp _ _ _ _ _ lb); [done|done|by arw|by arw|by arw|]. intros c4 R4.
  wp_step. eapply (zbrelse_wp _ _ _ _ _ b); [done|done|by arw|by arw|cbn;lia|]. intros c5 R5.
  eapply (zbrelse_wp _ _ _ _ _ lb); [done|done|by arw|by arw|intros _; by arw|]. intros c6 R6.
  rewrite <- !app_assoc. apply HQ; [|done].
  revert R6. match goal with |- bio_rep _ ?x -> _ => replace x with (a_set_disk lb d a) end; [done|].
  symmetry. acache_ext.
Qed.

(** ** One block from the log to its home *)

Definition home_ref (rec : bool) (e : option (nat * bcore)) : Prop :=
  if rec then e = None else exists j d, e = Some (j, Bcore unlocked 1 d) /\ length d = BSIZEn.

Lemma install_one_wp (rec : bool) a L c h t tail b d old Q (lb := lg_start L + Z.of_nat tail + 1) :
  bio_rep c a -> bio_unheld (World h t c) -> lg_dev L = ROOTDEV -> 0 <= lb < 2 ^ 32 ->
  lh_block L !! tail = Some b -> small_int b -> lb <> b ->
  (size (a_refs a) + (if rec then 1 else 0) < NBUFn)%nat -> length d = BSIZEn -> length old = BSIZEn ->
  a_refs a !! lb = None -> a_disk a !! lb = Some d ->
  home_ref rec (a_refs a !! b) -> a_disk a !! b = Some old ->
  (forall c' t', bio_rep c' (a_set_disk b d (a_put b None a)) -> writes t' = [(b, d)] ->
     Q tt (World h (t ++ t') (Lstate c' L))) ->
  wp (install_one rec tail) Q (World h t (Lstate c L)).
Proof.
  intros Hrep Hu Hdev Hlb Hb Hsm Hne Hsz Hd Hold Hlr Hlo Hbr Hbd HQ.
  assert (is_Some (a_disk a !! b)) as Hsome by (by eexists).
  unfold install_one. do 3 wp_step. cbn [ls_log]. rewrite Hdev, u32_small by exact Hlb. fold lb.
  eapply zbread_free_wp; try done; [lia|]. intros i c1 R1. wp_step. eapply log_block_wp; [done|].
  wp_step. unfold small_int in Hsm. rewrite u32_small by lia.
  destruct rec; cbn [home_ref negb] in *.
  - eapply (zbread_free_wp _ _ _ b old);
      [done|done|by arw|rewrite size_put_new by done; lia|by arw|]. intros j c2 R2.
    wp_step. eapply (zbdata_wp _ _ _ _ _ lb); [done|by arw|].
    wp_step. eapply (zbdata_wp _ _ _ _ _ b); [done|by arw|]. cbn [c_data a_locked].
    rewrite copy_block_eq by done.
    wp_step. eapply (zbdata_set_wp _ _ _ _ _ b); [done|by arw|]. intros c3 R3.
    wp_step. eapply (zbwrite_wp _ _ _ _ _ b); [done|done|by arw|by arw|by arw|]. intros c4 R4.
    do 3 wp_step. eapply (zbrelse_wp _ _ _ _ _ lb); [done|done|by arw|by arw|intros _; by arw|]. intros c5 R5.
    eapply (zbrelse_wp _ _ _ _ _ b); [done|done|by arw|by arw|intros _; by arw|]. intros c6 R6.
    rewrite <- !app_assoc. apply HQ; [|done].
    revert R6. match goal with |- bio_rep _ ?x -> _ => replace x with (a_set_disk b d (a_put b None a)) end; [done|].
    symmetry. acache_ext.
  - destruct Hbr as (j & d' & Hbr & Hd').
    eapply (zbread_pinned_wp _ _ _ b j 1 d'); [done|done|by arw|lia|by arw|]. intros c2 R2.
    wp_step. eapply (zbdata_wp _ _ _ _ _ lb); [done|by arw|].
    wp_step. eapply (zbdata_wp _ _ _ _ _ b); [done|by arw|]. cbn [c_data a_locked].
    rewrite copy_block_eq by done.
    wp_step. eapply (zbdata_set_wp _ _ _ _ _ b); [done|by arw|]. intros c3 R3.
    wp_step. eapply (zbwrite_wp _ _ _ _ _ b); [done|done|by arw|by arw|by arw|]. intros c4 R4.
    wp_step. eapply (zbunpin_wp _ _ _ _ _ b); [done|done|by arw|cbn; lia|]. intros c5 R5.
    wp_step. eapply (zbrelse_wp _ _ _ _ _ lb); [done|done|by arw|by arw|intros _; by arw|]. intros c6 R6.
    eapply (zbrelse_wp _ _ _ _ _ b); [done|done|by arw|by arw|intros _; by arw|]. intros c7 R7.
    rewrite <- !app_assoc. apply HQ; [|done].
    revert R7. match goal with |- bio_rep _ ?x -> _ => replace x with (a_set_disk b d (a_put b None a)) end; [done|].
    symmetry. acache_ext.
Qed.

(** ** The header *)

Lemma write_head_wp a L c h t hd Q (bs := take (Z.to_nat (lh_n L)) (lh_block L)) :
  bio_rep c a -> bio_unheld (World h t c) -> lg_dev L = ROOTDEV -> 0 <= lg_start L < 2 ^ 32 ->
  (Z.to_nat (lh_n L) <= length (lh_block L))%nat ->
  (size (a_refs a) < NBUFn)%nat -> a_refs a !! lg_start L = None -> a_disk a !! lg_start L = Some hd ->
  (forall c' t', bio_rep c' (a_set_disk (lg_start L) (put_head bs hd) a) ->
     writes t' = [(lg_start L, put_head bs hd)] -> Q tt (World h (t ++ t') (Lstate c' L))) ->
  wp write_head Q (World h t (Lstate c L)).
Proof.
  intros Hrep Hu Hdev Hst Hn Hsz Hr Hd HQ.
  unfold write_head. do 3 wp_step. cbn [ls_log]. rewrite Hdev, u32_small by lia.
  eapply zbread_free_wp; try done. intros i c1 R1. wp_step.
  eapply (zbdata_wp _ _ _ _ _ (lg_start L)); [done|by arw|]. cbn [c_data a_locked].
  rewrite decide_True by done. fold bs.
  wp_step. eapply (zbdata_set_wp _ _ _ _ _ (lg_start L)); [done|by arw|]. intros c2 R2.
  wp_step. eapply (zbwrite_wp _ _ _ _ _ (lg_start L)); [done|done|by arw|by arw|by arw|]. intros c3 R3.
  eapply (zbrelse_wp _ _ _ _ _ (lg_start L)); [done|done|by arw|by arw|intros _; by arw|]. intros c4 R4.
  rewrite <- !app_assoc. apply HQ; [|done].
  revert R4. match goal with |- bio_rep _ ?x -> _ => replace x with (a_set_disk (lg_start L) (put_head bs hd) a) end; [done|].
  symmetry. acache_ext.
Qed.

(** ** The disk after a sequence of block writes *)

Definition apply_writes (ws : list (Z * block)) (d : gmap Z block) : gmap Z block :=
  foldl (fun m p => <[p.1 := p.2]> m) d ws.

#[global] Arguments apply_writes : simpl never.

Lemma apply_writes_cons x v ws d : apply_writes ((x, v) :: ws) d = apply_writes ws (<[x := v]> d).
Proof. done. Qed.

Lemma apply_writes_app ws ws' d : apply_writes (ws ++ ws') d = apply_writes ws' (apply_writes ws d).
Proof. apply foldl_app. Qed.

Lemma apply_writes_ne ws d x : x ∉ ws.*1 -> apply_writes ws d !! x = d !! x.
Proof.
  revert d. induction ws as [|[y v] ws IH]; intros d Hx; [done|]. rewrite apply_writes_cons. cbn in Hx.
  apply not_elem_of_cons in Hx as [Hne Hx]. rewrite IH by done. by rewrite lookup_insert_ne.
Qed.

(** The last write to [x] decides. *)
Lemma apply_writes_last ws d x v :
  (forall v', (x, v') ∈ ws -> v' = v) -> (x ∈ ws.*1 \/ d !! x = Some v) ->
  apply_writes ws d !! x = Some v.
Proof.
  revert d. induction ws as [|[y u] ws IH]; intros d Hv Hx; cbn in *.
  - destruct Hx as [Hx|Hx]; [by apply not_elem_of_nil in Hx|done].
  - rewrite apply_writes_cons. apply IH; [intros v' Hv'; apply Hv; by right|].
    destruct (decide (x ∈ ws.*1)) as [|Hn]; [by left|right].
    destruct (decide (y = x)) as [->|Hne].
    + rewrite lookup_insert_eq. f_equal. apply Hv. by left.
    + rewrite lookup_insert_ne by done. destruct Hx as [Hx|Hx]; [|done].
      apply elem_of_cons in Hx as [->|Hx]; done.
Qed.

(** Every block of the disk is BSIZE bytes. *)
Definition blocks_ok (d : gmap Z block) : Prop := forall x b, d !! x = Some b -> length b = BSIZEn.

Lemma blocks_ok_insert d x b : blocks_ok d -> length b = BSIZEn -> blocks_ok (<[x := b]> d).
Proof.
  intros H Hb y b' Hy. destruct (decide (x = y)) as [<-|].
  - rewrite lookup_insert_eq in Hy. by injection Hy as <-.
  - rewrite lookup_insert_ne in Hy by done. by eapply H.
Qed.

Lemma apply_writes_is_Some ws d x : is_Some (d !! x) -> is_Some (apply_writes ws d !! x).
Proof.
  revert d. induction ws as [|[y v] ws IH]; intros d Hx; [done|]. rewrite apply_writes_cons. apply IH.
  destruct (decide (y = x)) as [->|]; [rewrite lookup_insert_eq|rewrite lookup_insert_ne by done]; done.
Qed.

Lemma blocks_ok_writes ws d :
  blocks_ok d -> Forall (fun p => length p.2 = BSIZEn) ws -> blocks_ok (apply_writes ws d).
Proof.
  intros Hd H. revert d Hd. induction H as [|[x b] ws Hp _ IH]; intros d Hd; [done|]. rewrite apply_writes_cons.
  apply IH. by apply blocks_ok_insert.
Qed.

(** The first [n] blocks of a log at [start], paired with the blocks [bs]. *)
Fixpoint log_slots (start : Z) (k : nat) (bs : list Z) : list (Z * Z) :=
  match bs with
  | [] => []
  | b :: t => (start + Z.of_nat k + 1, b) :: log_slots start (S k) t
  end.

Lemma elem_of_log_slots start k bs lb b :
  (lb, b) ∈ log_slots start k bs <->
  exists j, bs !! j = Some b /\ lb = start + Z.of_nat (k + j) + 1.
Proof.
  revert k. induction bs as [|b' t IH]; intros k; cbn.
  - split; [intros H; by apply not_elem_of_nil in H|]. intros (j & Hj & _). done.
  - rewrite elem_of_cons, IH. split.
    + intros [[= -> ->]|(j & Hj & ->)]; [exists 0%nat|exists (S j)]; split; try done; f_equal; lia.
    + intros ([|j] & Hj & ->); [left|right]; cbn in Hj.
      * injection Hj as ->. f_equal. lia.
      * exists j. split; [done|lia].
Qed.

(** What the log is about to hold, and what a recovery writes home. *)
Definition log_fill (start : Z) (data : Z -> block) (bs : list Z) (k : nat) : list (Z * block) :=
  (fun p => (p.1, data p.2)) <$> log_slots start k bs.
Definition home_fill (start : Z) (d : gmap Z block) (bs : list Z) (k : nat) : list (Z * block) :=
  (fun p => (p.2, default [] (d !! p.1))) <$> log_slots start k bs.

Definition a_writes (ws : list (Z * block)) (a : acache) : acache :=
  Acache (a_refs a) (apply_writes ws (a_disk a)) (a_pid a).
Definition a_drop (bs : list Z) (a : acache) : acache := foldl (fun a b => a_put b None a) a bs.
#[global] Arguments a_drop : simpl never.
Lemma a_drop_cons b bs a : a_drop (b :: bs) a = a_drop bs (a_put b None a).
Proof. done. Qed.

(** The write_log() loop. *)
Record fill_ok (a : acache) (data : Z -> block) (lb b : Z) : Prop := FillOk {
  fo_lb : 0 <= lb < 2 ^ 32;
  fo_free : a_refs a !! lb = None;
  fo_old : is_Some (a_disk a !! lb);
  fo_b : small_int b;
  fo_pin : exists j, a_refs a !! b = Some (j, Bcore unlocked 1 (data b));
  fo_len : length (data b) = BSIZEn;
  fo_home : is_Some (a_disk a !! b)
}.

Lemma write_log_loop_wp data L h bs k a c t Q :
  bio_rep c a -> bio_unheld (World h t c) -> lg_dev L = ROOTDEV -> (size (a_refs a) < NBUFn)%nat ->
  blocks_ok (a_disk a) ->
  (forall j b, bs !! j = Some b -> lh_block L !! (k + j)%nat = Some b) ->
  (forall lb b, (lb, b) ∈ log_slots (lg_start L) k bs -> fill_ok a data lb b) ->
  (forall c' t', bio_rep c' (a_writes (log_fill (lg_start L) data bs k) a) ->
     writes t' = log_fill (lg_start L) data bs k -> Q tt (World h (t ++ t') (Lstate c' L))) ->
  wp (for_each (seq k (length bs)) write_log_one) Q (World h t (Lstate c L)).
Proof.
  revert k a c t. induction bs as [|b bs IH]; intros k a c t Hrep Hu Hdev Hsz Hok Hbl Hf HQ; cbn [length seq for_each].
  - wp_step. rewrite <- (app_nil_r t). apply HQ; [|done]. by destruct a.
  - destruct (Hf (lg_start L + Z.of_nat k + 1) b) as [H1 H2 [old H3] H4 [j H5] H6 H7]; [by left|].
    wp_step. eapply (write_log_one_wp a L c h t k b j (data b) old); try done.
    + rewrite <- (Hbl 0%nat b) by done. f_equal. lia.
    + intros E. rewrite E in H2. congruence.
    + by apply (Hok _ _ H3).
    + intros c1 t1 R1 W1. eapply (IH (S k)); [exact R1|exact Hu|done|exact Hsz| | | |].
      * by apply blocks_ok_insert.
      * intros j' b' Hb'. rewrite <- (Hbl (S j') b') by done. f_equal. lia.
      * intros lb b' Hin. destruct (Hf lb b') as [G1 G2 G3 G4 G5 G6 G7]; [by right|].
        constructor; try done; apply (apply_writes_is_Some [(_, _)]); done.
      * intros c2 t2 R2 W2. rewrite <- app_assoc. apply HQ; [exact R2|].
        rewrite writes_app, W1, W2. done.
Qed.

(** The install_trans() loop. *)
Record inst_ok (rec : bool) (a : acache) (lb b : Z) : Prop := InstOk {
  io_lb : 0 <= lb < 2 ^ 32;
  io_free : a_refs a !! lb = None;
  io_src : is_Some (a_disk a !! lb);
  io_b : small_int b;
  io_ref : home_ref rec (a_refs a !! b);
  io_home : is_Some (a_disk a !! b)
}.

Lemma size_drop_le a b : (size (a_refs (a_put b None a)) <= size (a_refs a))%nat.
Proof.
  unfold a_put. cbn. change (partial_alter (fun _ => None) b (a_refs a)) with (delete b (a_refs a)).
  rewrite map_size_delete. destruct (a_refs a !! b); cbn; lia.
Qed.

Lemma a_drop_set_disk bs b d a : a_drop bs (a_set_disk b d a) = a_set_disk b d (a_drop bs a).
Proof.
  revert a. induction bs as [|x bs IH]; intros a; [done|]. apply (IH (a_put x None a)).
Qed.

Lemma a_drop_writes bs ws a : a_drop bs (a_writes ws a) = a_writes ws (a_drop bs a).
Proof.
  revert a. induction bs as [|x bs IH]; intros a; [done|]. apply (IH (a_put x None a)).
Qed.

Lemma a_disk_drop bs a : a_disk (a_drop bs a) = a_disk a.
Proof. revert a. induction bs as [|b bs IH]; intros a; [done|]. apply (IH (a_put b None a)). Qed.

Lemma a_refs_drop bs a x :
  a_refs (a_drop bs a) !! x = if decide (x ∈ bs) then None else a_refs a !! x.
Proof.
  revert a. induction bs as [|b bs IH]; intros a.
  - rewrite decide_False by (apply not_elem_of_nil). done.
  - rewrite a_drop_cons, IH. destruct (decide (x ∈ bs)) as [Hx|Hx].
    + rewrite decide_True by (by right). done.
    + destruct (decide (b = x)) as [<-|Hne].
      * rewrite decide_True by (by left). apply a_put_eq.
      * rewrite decide_False by (intros Hin; apply elem_of_cons in Hin as [->|Hin]; done).
        by apply a_put_ne.
Qed.

Lemma size_a_drop bs a : (size (a_refs (a_drop bs a)) <= size (a_refs a))%nat.
Proof.
  revert a. induction bs as [|b bs IH]; intros a; [done|]. rewrite a_drop_cons.
  etransitivity; [apply IH|apply size_drop_le].
Qed.

(** Writes outside the log leave the sources of the remaining installs alone. *)
Lemma home_fill_frame start d bs k b v :
  (forall lb b', (lb, b') ∈ log_slots start k bs -> lb <> b) ->
  home_fill start (<[b := v]> d) bs k = home_fill start d bs k.
Proof.
  intros H. apply list_fmap_ext. intros i [lb b'] Hi. cbn. f_equal. f_equal.
  apply list_elem_of_lookup_2 in Hi. rewrite lookup_insert_ne; [done|]. intros <-. by eapply H.
Qed.

Lemma install_loop_wp (rec : bool) L h bs k a c t Q (ws := home_fill (lg_start L) (a_disk a) bs k) :
  bio_rep c a -> bio_unheld (World h t c) -> lg_dev L = ROOTDEV ->
  (size (a_refs a) + (if rec then 1 else 0) < NBUFn)%nat -> blocks_ok (a_disk a) ->
  (forall j b, bs !! j = Some b -> lh_block L !! (k + j)%nat = Some b) ->
  (forall lb b, (lb, b) ∈ log_slots (lg_start L) k bs -> inst_ok rec a lb b /\ lb ∉ bs) ->
  (rec = false -> NoDup bs) ->
  (forall c' t', bio_rep c' (a_writes ws (a_drop bs a)) -> writes t' = ws ->
     Q tt (World h (t ++ t') (Lstate c' L))) ->
  wp (for_each (seq k (length bs)) (install_one rec)) Q (World h t (Lstate c L)).
Proof.
  subst ws. revert k a c t.
  induction bs as [|b bs IH]; intros k a c t Hrep Hu Hdev Hsz Hok Hbl Hf Hnd HQ; cbn [length seq for_each].
  - wp_step. rewrite <- (app_nil_r t). apply HQ; [|done]. by destruct a.
  - destruct (Hf (lg_start L + Z.of_nat k + 1) b) as [[H1 H2 [d H3] H4 H5 [old H6]] Hni]; [by left|].
    wp_step. eapply (install_one_wp rec a L c h t k b d old); try done.
    + rewrite <- (Hbl 0%nat b) by done. f_equal. lia.
    + intros E. apply Hni. rewrite E. by left.
    + by apply (Hok _ _ H3).
    + by apply (Hok _ _ H6).
    + intros c1 t1 R1 W1. set (a1 := a_set_disk b d (a_put b None a)) in *.
      assert (home_fill (lg_start L) (a_disk a1) bs (S k) = home_fill (lg_start L) (a_disk a) bs (S k)) as E.
      { apply home_fill_frame. intros lb b' Hin ->. destruct (Hf b b') as [_ Hn]; [by right|].
        apply Hn. by left. }
      eapply (IH (S k)); [exact R1|exact Hu|done| | | | | |].
      * pose proof (size_drop_le a b). unfold a1. rewrite a_refs_set_disk. lia.
      * apply blocks_ok_insert; [exact Hok|by apply (Hok _ _ H3)].
      * intros j' b' Hb'. rewrite <- (Hbl (S j') b') by done. f_equal. lia.
      * intros lb b' Hin. destruct (Hf lb b') as [[G1 G2 G3 G4 G5 G6] Hn]; [by right|].
        apply not_elem_of_cons in Hn as [Hn1 Hn2]. split; [|done].
        unfold a1. constructor; try done; try (apply (apply_writes_is_Some [(_, _)]); done).
        { rewrite a_refs_set_disk, a_put_ne by done. done. }
        { rewrite a_refs_set_disk. destruct (decide (b = b')) as [<-|Hbb].
          - rewrite a_put_eq. destruct rec; [done|]. exfalso. specialize (Hnd eq_refl).
            apply list.NoDup_cons in Hnd as [Hnd _]. apply Hnd.
            apply elem_of_log_slots in Hin as (j & Hj & _). by eapply list_elem_of_lookup_2.
          - rewrite a_put_ne by done. done. }
      * intros Hr. specialize (Hnd Hr). apply list.NoDup_cons in Hnd. tauto.
      * intros c2 t2 R2 W2. rewrite <- app_assoc. rewrite E in R2, W2.
        apply HQ; [|rewrite writes_app, W1, W2; unfold home_fill; cbn; by rewrite H3].
        unfold a1 in R2. rewrite a_drop_set_disk in R2. unfold a_writes in R2 |- *.
        unfold home_fill. cbn. rewrite H3. exact R2.
Qed.

(** ** Reading the header *)

Lemma read_blocks_wp d n k L c h t Q :
  (k + n <= length (lh_block L))%nat ->
  (forall bl, length bl = length (lh_block L) ->
     (forall i, (k <= i < k + n)%nat -> bl !! i = Some (get_int (4 + 4 * i) d)) ->
     (forall i, (i < k)%nat -> bl !! i = lh_block L !! i) ->
     Q tt (World h t (Lstate c (lg_set_block bl L)))) ->
  wp (for_each (seq k n) (read_block d)) Q (World h t (Lstate c L)).
Proof.
  revert k L. induction n as [|n IH]; intros k L Hk HQ; cbn [seq for_each].
  - wp_step. replace L with (lg_set_block (lh_block L) L) by (by destruct L). apply HQ; [done|lia|done].
  - wp_step. unfold read_block at 1. do 2 wp_step. cbn [ls_log]. rewrite decide_True by lia. wp_step.
    unfold ls_upd. cbn [ls_cache ls_log]. apply IH.
    + cbn. rewrite length_insert. lia.
    + cbn. intros bl Hl Hin Hlow. rewrite length_insert in Hl. destruct L. apply HQ; [done| |].
      * intros i Hi. cbn in *. destruct (decide (i = k)) as [->|]; [|apply Hin; lia].
        rewrite Hlow, list_lookup_insert_eq by lia. done.
      * intros i Hi. cbn in *. rewrite Hlow, list_lookup_insert_ne by lia. done.
Qed.

Lemma read_head_wp a L c h t hd Q :
  bio_rep c a -> bio_unheld (World h t c) -> lg_dev L = ROOTDEV -> 0 <= lg_start L < 2 ^ 32 ->
  (Z.to_nat (head_n hd) <= length (lh_block L))%nat ->
  (size (a_refs a) < NBUFn)%nat -> a_refs a !! lg_start L = None -> a_disk a !! lg_start L = Some hd ->
  (forall c' t' bl, bio_rep c' a -> writes t' = [] -> length bl = length (lh_block L) ->
     take (Z.to_nat (head_n hd)) bl = head_blocks hd ->
     Q tt (World h (t ++ t') (Lstate c' (lg_set_block bl (lg_set_n (head_n hd) L))))) ->
  wp read_head Q (World h t (Lstate c L)).
Proof.
  intros Hrep Hu Hdev Hst Hn Hsz Hr Hd HQ.
  unfold read_head. do 3 wp_step. cbn [ls_log]. rewrite Hdev, u32_small by lia.
  eapply zbread_free_wp; try done. intros i c1 R1. wp_step.
  eapply (zbdata_wp _ _ _ _ _ (lg_start L)); [done|by arw|]. cbn [c_data a_locked].
  do 3 wp_step. unfold ls_upd. cbn [ls_cache ls_log].
  apply read_blocks_wp; [cbn; exact Hn|]. intros bl Hl Hin _. cbn [lh_block lg_set_n] in Hl.
  eapply (zbrelse_wp _ _ _ _ _ (lg_start L)); [done|done|by arw|by arw|intros _; by arw|]. intros c2 R2.
  apply HQ; [|done|done|].
  - revert R2. match goal with |- bio_rep _ ?x -> _ => replace x with a end; [done|]. symmetry. acache_ext.
  - apply list_eq. intros j. unfold head_blocks. rewrite list_lookup_fmap.
    destruct (decide (j < Z.to_nat (head_n hd))%nat).
    + rewrite lookup_take_lt, lookup_seq_lt by lia. apply Hin. unfold head_n in *. lia.
    + rewrite lookup_take_ge, lookup_seq_ge by lia. done.
Qed.

(** ** Well-formed disks and what they mean *)

Definition in_log (g : log_geom) (x : Z) : Prop := g_logstart g <= x < g_logstart g + g_nlog g.
#[export] Instance in_log_dec g x : Decision (in_log g x).
Proof. unfold in_log. apply _. Defined.

Record geom_ok (g : log_geom) : Prop := GeomOk {
  ge_start : 0 <= g_logstart g;
  ge_size : 1 <= g_nlog g;
  ge_end : g_logstart g + g_nlog g < 2 ^ 31
}.

(** The header of the log on disk. *)
Definition disk_head (g : log_geom) (d : gmap Z block) : block := default [] (d !! g_logstart g).
Definition logged_on_disk (g : log_geom) (d : gmap Z block) : list Z := head_blocks (disk_head g d).

Record disk_ok (g : log_geom) (d : gmap Z block) : Prop := DiskOk {
  dk_blocks : blocks_ok d;
  dk_area : forall x, in_log g x -> is_Some (d !! x);
  dk_n : 0 <= head_n (disk_head g d) <= LOGSIZE;
  dk_fits : head_n (disk_head g d) < g_nlog g;
  dk_home : forall b, b ∈ logged_on_disk g d -> small_int b /\ is_Some (d !! b) /\ ~ in_log g b
}.

(** The writes recovery makes, and the contents the disk stands for. *)
Definition redo (g : log_geom) (d : gmap Z block) : list (Z * block) :=
  home_fill (g_logstart g) d (logged_on_disk g d) 0.
Definition recovery_writes (g : log_geom) (d : gmap Z block) : list (Z * block) :=
  redo g d ++ [(g_logstart g, put_head [] (disk_head g d))].
Definition replay (g : log_geom) (d : gmap Z block) : gmap Z block := apply_writes (redo g d) d.

Definition same_outside (g : log_geom) (d d' : gmap Z block) : Prop :=
  forall x, ~ in_log g x -> d !! x = d' !! x.

Lemma in_log_start g : geom_ok g -> in_log g (g_logstart g).
Proof. intros [? ? ?]. unfold in_log. lia. Qed.

Lemma disk_head_eq g d : geom_ok g -> disk_ok g d -> d !! g_logstart g = Some (disk_head g d).
Proof.
  intros Hg Hd. destruct (dk_area _ _ Hd _ (in_log_start _ Hg)) as [hd Hhd].
  unfold disk_head. by rewrite Hhd.
Qed.

Lemma length_disk_head g d : geom_ok g -> disk_ok g d -> length (disk_head g d) = BSIZEn.
Proof. intros Hg Hd. eapply (dk_blocks _ _ Hd), disk_head_eq; done. Qed.

Lemma length_logged g d : disk_ok g d -> Z.of_nat (length (logged_on_disk g d)) = head_n (disk_head g d).
Proof.
  intros Hd. unfold logged_on_disk, head_blocks. rewrite length_fmap, length_seq.
  destruct (dk_n _ _ Hd). lia.
Qed.

(** The slots of the log that a header of [n] blocks uses are in the log. *)
Lemma slot_in_log g bs lb b :
  Z.of_nat (length bs) < g_nlog g -> (lb, b) ∈ log_slots (g_logstart g) 0 bs ->
  in_log g lb /\ lb <> g_logstart g /\ b ∈ bs.
Proof.
  intros Hl Hin. apply elem_of_log_slots in Hin as (j & Hj & ->).
  pose proof (lookup_lt_Some _ _ _ Hj). unfold in_log.
  split; [lia|]. split; [lia|]. by eapply list_elem_of_lookup_2.
Qed.

Definition log_at (g : log_geom) (L : logrec) : Prop :=
  lg_start L = g_logstart g /\ lg_size L = g_nlog g /\ lg_dev L = ROOTDEV /\
  length (lh_block L) = LOGSIZEn.

Lemma LOGSIZEn_eq : Z.of_nat LOGSIZEn = LOGSIZE.
Proof. done. Qed.

Lemma log_slots_snd start k bs : (log_slots start k bs).*2 = bs.
Proof. revert k. induction bs as [|b bs IH]; intros k; [done|]. cbn. by rewrite IH. Qed.

Lemma redo_fst g d : (redo g d).*1 = logged_on_disk g d.
Proof.
  unfold redo, home_fill. rewrite <- list_fmap_compose.
  etransitivity; [|apply (log_slots_snd (g_logstart g) 0)]. by apply list_fmap_ext.
Qed.

Lemma redo_home g d x : x ∈ (redo g d).*1 -> x ∈ logged_on_disk g d.
Proof. by rewrite redo_fst. Qed.

(** install_trans() and the final write_head(), common to commit and recovery. *)
Lemma install_clear_wp (rec : bool) g L h a c t Q :
  geom_ok g -> log_at g L -> disk_ok g (a_disk a) ->
  bio_rep c a -> bio_unheld (World h t c) -> (size (a_refs a) + (if rec then 1 else 0) < NBUFn)%nat ->
  lh_n L = head_n (disk_head g (a_disk a)) ->
  take (Z.to_nat (lh_n L)) (lh_block L) = logged_on_disk g (a_disk a) ->
  (forall x, in_log g x -> a_refs a !! x = None) ->
  (forall b, b ∈ logged_on_disk g (a_disk a) -> home_ref rec (a_refs a !! b)) ->
  (rec = false -> NoDup (logged_on_disk g (a_disk a))) ->
  (forall c' t', bio_rep c' (a_writes (recovery_writes g (a_disk a)) (a_drop (logged_on_disk g (a_disk a)) a)) ->
     writes t' = recovery_writes g (a_disk a) ->
     Q tt (World h (t ++ t') (Lstate c' (lg_set_n 0 L)))) ->
  wp (install_trans rec ;; modify (ls_upd (lg_set_n 0)) ;; write_head) Q (World h t (Lstate c L)).
Proof.
  intros Hg (Hst & Hsz & Hdev & Hlb) Hdk Hrep Hu Hsize Hn Hbl Hfree Hhome Hnd HQ.
  pose proof (length_logged _ _ Hdk) as Hlen. pose proof Hg as [Hg1 Hg2 Hg3].
  assert (Z.of_nat (length (logged_on_disk g (a_disk a))) < g_nlog g) as Hfit by (rewrite Hlen; apply Hdk).
  wp_step. unfold install_trans. do 2 wp_step. cbn [ls_log]. rewrite Hn.
  replace (Z.to_nat _) with (length (logged_on_disk g (a_disk a))) by lia.
  eapply (install_loop_wp rec _ _ (logged_on_disk g (a_disk a)) 0 a); try done.
  - apply Hdk.
  - intros j b Hj. rewrite <- Hbl in Hj. by apply lookup_take_Some in Hj as [Hj _].
  - rewrite Hst. intros lb b Hin. destruct (slot_in_log g _ lb b Hfit Hin) as (Hin' & _ & Hb).
    destruct (dk_home _ _ Hdk b Hb) as (? & ? & ?). split.
    + constructor; auto; [unfold in_log in Hin'; lia|by apply Hdk].
    + intros Hlb'. by destruct (dk_home _ _ Hdk lb Hlb') as (_ & _ & ?).
  - rewrite Hst. intros c1 t1 R1 W1. do 2 wp_step. unfold ls_upd. cbn [ls_cache ls_log].
    fold (redo g (a_disk a)) in R1, W1.
    eapply (write_head_wp _ (lg_set_n 0 L) c1 h (t ++ t1) (disk_head g (a_disk a)) Q R1);
      [done|done|cbn; lia|cbn; lia| | | |].
    + cbn. pose proof (size_a_drop (logged_on_disk g (a_disk a)) a). destruct rec; lia.
    + cbn. rewrite a_refs_drop. case_decide; [done|]. rewrite Hst. apply Hfree, in_log_start. done.
    + cbn. rewrite a_disk_drop, Hst. rewrite apply_writes_ne; [by apply disk_head_eq|].
      intros Hin. apply redo_home in Hin. apply (dk_home _ _ Hdk) in Hin as (_ & _ & Hin).
      apply Hin, in_log_start. done.
    + cbn [lg_set_n lh_n lh_block lg_start take Z.to_nat]. rewrite Hst. intros c2 t2 R2 W2.
      rewrite <- app_assoc. apply HQ; [|by rewrite writes_app, W1, W2].
      unfold recovery_writes, a_writes. rewrite apply_writes_app. exact R2.
Qed.

(** ** Recovery *)

Definition boot_log (g : log_geom) : M lstate unit := zoom binit ;; initlog ROOTDEV g.
Definition boot_state (d : gmap Z block) (pid : Z) : lstate :=
  Lstate (boot_cache d pid) (Logrec 0 0 0 false 0 0 (replicate LOGSIZEn 0)).

Lemma a_drop_empty bs d pid : a_drop bs (Acache ∅ d pid) = Acache ∅ d pid.
Proof.
  apply acache_eq; [|apply a_disk_drop|].
  - intros x. rewrite a_refs_drop. by case_decide.
  - induction bs as [|b bs IH]; [done|]. rewrite a_drop_cons. unfold a_put. cbn [a_refs a_disk a_pid].
    change (partial_alter (fun _ => None) b (∅ : gmap Z (nat * bcore))) with (delete b (∅ : gmap Z (nat * bcore))).
    by rewrite delete_empty.
Qed.

Lemma initlog_wp g L d pid c t Q :
  geom_ok g -> disk_ok g d -> bio_rep c (Acache ∅ d pid) -> length (lh_block L) = LOGSIZEn ->
  (forall c' t' L', bio_rep c' (Acache ∅ (apply_writes (recovery_writes g d) d) pid) ->
     writes t' = recovery_writes g d -> log_at g L' -> lh_n L' = 0 ->
     lg_outstanding L' = lg_outstanding L -> lg_committing L' = lg_committing L ->
     Q tt (World [] (t ++ t') (Lstate c' L'))) ->
  wp (initlog ROOTDEV g) Q (World [] t (Lstate c L)).
Proof.
  intros Hg Hd Hrep Hlb HQ. pose proof Hg as [Hg1 Hg2 Hg3]. unfold initlog.
  change (sizeof_logheader >=? BSIZE) with false. cbv iota. wp_step. unfold wp at 1, initlock. cbn [remove_lock held user trace].
  do 2 wp_step. unfold ls_upd. cbn [ls_cache ls_log]. rewrite !s32_small by lia.
  set (L1 := lg_set_geom _ _ _ L). unfold recover_from_log. wp_step.
  assert (forall t c, @bio_unheld bcache (World [] t c)) as Hu.
  { intros. split; [|intros i]; apply not_elem_of_nil. }
  assert (Z.of_nat (Z.to_nat (head_n (disk_head g d))) <= LOGSIZE) by (destruct (dk_n _ _ Hd); lia).
  eapply (read_head_wp (Acache ∅ d pid) L1 c [] t (disk_head g d)); try done.
  - cbn. lia.
  - cbn. rewrite Hlb. pose proof LOGSIZEn_eq. lia.
  - cbn. by apply Nat.ltb_lt.
  - by apply disk_head_eq.
  - intros c1 t1 bl R1 W1 Hl1 Hbl.
    eapply (install_clear_wp true g _ [] (Acache ∅ d pid) c1); try done.
    + split; [done|]. split; [done|]. split; [done|]. cbn. rewrite Hl1. exact Hlb.
    + cbn. by apply Nat.ltb_lt.
    + intros c2 t2 R2 W2. rewrite a_drop_empty in R2. rewrite <- app_assoc. apply HQ; try done.
      * by rewrite writes_app, W1, W2.
      * split; [done|]. split; [done|]. split; [done|]. cbn. rewrite Hl1. exact Hlb.
Qed.

Lemma boot_log_wp g d pid Q :
  geom_ok g -> disk_ok g d ->
  (forall c' t' L', bio_rep c' (Acache ∅ (apply_writes (recovery_writes g d) d) pid) ->
     writes t' = recovery_writes g d -> log_at g L' -> lh_n L' = 0 ->
     lg_outstanding L' = 0 -> lg_committing L' = false ->
     Q tt (World [] t' (Lstate c' L'))) ->
  wp (boot_log g) Q (World [] [] (boot_state d pid)).
Proof.
  intros Hg Hd HQ. unfold boot_log. do 2 wp_step. eapply (binit_wp d pid); [done|done|].
  intros c1 R1. cbn [lput lens_cache boot_state ls_log user held trace].
  by eapply initlog_wp.
Qed.

(** ** Crashes during recovery *)

(** A write whose target a later sequence overwrites does not matter. *)
Lemma apply_writes_cover ws d d' x :
  x ∈ ws.*1 -> apply_writes ws d !! x = apply_writes ws d' !! x.
Proof.
  revert d d'. induction ws as [|[y v] ws IH]; intros d d' Hx; [by apply not_elem_of_nil in Hx|].
  rewrite !apply_writes_cons. destruct (decide (x ∈ ws.*1)) as [Hin|Hni]; [by apply IH|].
  rewrite !apply_writes_ne by done. cbn in Hx. apply elem_of_cons in Hx as [->|]; [|done].
  by rewrite !lookup_insert_eq.
Qed.

Lemma apply_writes_prefix ws p d x :
  (forall y, y ∈ p.*1 -> y ∈ ws.*1) ->
  apply_writes ws (apply_writes p d) !! x = apply_writes ws d !! x.
Proof.
  intros Hsub. destruct (decide (x ∈ ws.*1)) as [Hin|Hni]; [by apply apply_writes_cover|].
  rewrite !apply_writes_ne; try done. intros Hx. by apply Hni, Hsub.
Qed.

(** Writing home blocks leaves the log, hence what the disk stands for, alone. *)
Lemma redo_frame g p d :
  geom_ok g -> disk_ok g d -> (forall y, y ∈ p.*1 -> ~ in_log g y) ->
  disk_head g (apply_writes p d) = disk_head g d /\ redo g (apply_writes p d) = redo g d.
Proof.
  intros Hg Hd Hp.
  assert (forall x, in_log g x -> apply_writes p d !! x = d !! x) as Hl.
  { intros x Hx. apply apply_writes_ne. intros Hin. by apply (Hp x). }
  assert (disk_head g (apply_writes p d) = disk_head g d) as Eh.
  { unfold disk_head. by rewrite Hl by (by apply in_log_start). }
  split; [done|]. unfold redo, logged_on_disk. rewrite Eh. apply list_fmap_ext.
  intros i [lb b] Hi. cbn. f_equal. f_equal. apply Hl.
  apply list_elem_of_lookup_2 in Hi. eapply slot_in_log; [|exact Hi].
  fold (logged_on_disk g d). rewrite (length_logged g d Hd). apply Hd.
Qed.

Lemma head_cleared hd :
  length hd = BSIZEn -> head_n (put_head [] hd) = 0 /\ head_blocks (put_head [] hd) = [] /\
                        length (put_head [] hd) = BSIZEn.
Proof.
  intros H. assert (length (A:=Z) [] <= LOGSIZEn)%nat by (cbn; lia).
  split; [by apply head_n_put|]. split; [by apply head_blocks_put|by apply length_put_head].
Qed.

(** An empty log: the disk stands for itself. *)
Definition log_empty (g : log_geom) (d : gmap Z block) : Prop := head_n (disk_head g d) = 0.

Lemma log_empty_redo g d : log_empty g d -> logged_on_disk g d = [] /\ redo g d = [] /\ replay g d = d.
Proof.
  unfold log_empty. intros H.
  assert (logged_on_disk g d = []) as E by (unfold logged_on_disk, head_blocks; by rewrite H).
  unfold replay, redo. rewrite E. done.
Qed.

Lemma redo_lengths g d : disk_ok g d -> Forall (fun p => length p.2 = BSIZEn) (redo g d).
Proof.
  intros Hd. apply list.Forall_forall. intros [b v] Hin. apply list_elem_of_fmap in Hin as ([lb b'] & [= -> ->] & Hin).
  cbn. apply (slot_in_log g) in Hin as (Hl & _ & _); [|rewrite (length_logged g d Hd); apply Hd].
  destruct (dk_area _ _ Hd _ Hl) as [v Hv]. rewrite Hv. cbn. by apply (dk_blocks _ _ Hd _ _ Hv).
Qed.

(** Block writes outside the log keep a disk well formed. *)
Lemma disk_ok_writes g d ws :
  geom_ok g -> disk_ok g d -> (forall y, y ∈ ws.*1 -> ~ in_log g y) ->
  Forall (fun p => length p.2 = BSIZEn) ws -> disk_ok g (apply_writes ws d).
Proof.
  intros Hg Hd Hws Hlen. destruct (redo_frame g ws d Hg Hd Hws) as [Eh _].
  constructor.
  - apply blocks_ok_writes; [apply Hd|done].
  - intros x Hx. apply apply_writes_is_Some, Hd, Hx.
  - rewrite Eh. apply Hd.
  - rewrite Eh. apply Hd.
  - unfold logged_on_disk. rewrite Eh. intros b Hb. destruct (dk_home _ _ Hd b Hb) as (? & ? & ?).
    split; [done|]. split; [by apply apply_writes_is_Some|done].
Qed.

(** Clearing the header. *)
Lemma disk_ok_clear g d :
  geom_ok g -> disk_ok g d ->
  let d' := <[g_logstart g := put_head [] (disk_head g d)]> d in
  disk_ok g d' /\ log_empty g d' /\ same_outside g d' d.
Proof.
  intros Hg Hd d'. destruct (head_cleared _ (length_disk_head _ _ Hg Hd)) as (Hn & Hb & Hl).
  assert (disk_head g d' = put_head [] (disk_head g d)) as Eh.
  { unfold disk_head, d'. by rewrite lookup_insert_eq. }
  assert (log_empty g d') as He by (unfold log_empty; by rewrite Eh).
  split; [|split; [done|]].
  - constructor.
    + apply blocks_ok_insert; [apply Hd|done].
    + intros x Hx. apply (apply_writes_is_Some [(_, _)]), Hd, Hx.
    + rewrite He. unfold LOGSIZE, MAXOPBLOCKS. lia.
    + rewrite He. destruct Hg. lia.
    + destruct (log_empty_redo _ _ He) as (-> & _). intros b Hb'. by apply not_elem_of_nil in Hb'.
  - intros x Hx. unfold d'. rewrite lookup_insert_ne; [done|]. intros <-. by apply Hx, in_log_start.
Qed.

Lemma prefix_snoc_cases {A} (p xs : list A) x :
  p `prefix_of` xs ++ [x] -> p `prefix_of` xs \/ p = xs ++ [x].
Proof.
  intros [k Hk]. destruct k as [|y k _] using rev_ind; [rewrite app_nil_r in Hk; by right|left].
  rewrite app_assoc in Hk. apply app_inj_tail in Hk as [-> _]. by exists k.
Qed.

Lemma prefix_app_cases {A} (p xs ys : list A) :
  p `prefix_of` xs ++ ys -> p `prefix_of` xs \/ exists q, p = xs ++ q /\ q `prefix_of` ys.
Proof.
  revert p. induction xs as [|x xs IH]; intros p [k Hk]; cbn in Hk.
  - right. exists p. split; [done|]. by exists k.
  - destruct p as [|y p]; [left; apply prefix_nil|]. injection Hk as <- Hk.
    destruct (IH p) as [H|(q & -> & H)]; [by exists k|left; by apply prefix_cons|right].
    by exists q.
Qed.

Lemma recovery_prefix g d ws :
  geom_ok g -> disk_ok g d -> ws `prefix_of` recovery_writes g d ->
  disk_ok g (apply_writes ws d) /\ same_outside g (replay g (apply_writes ws d)) (replay g d) /\
  (ws = recovery_writes g d -> log_empty g (apply_writes ws d)).
Proof.
  intros Hg Hd Hp.
  assert (forall y, y ∈ (redo g d).*1 -> ~ in_log g y) as Hout.
  { intros y Hy. apply redo_home, (dk_home _ _ Hd) in Hy. tauto. }
  apply prefix_snoc_cases in Hp as [[k Hk]| ->].
  - assert (forall y, y ∈ ws.*1 -> y ∈ (redo g d).*1) as Hsub.
    { intros y Hy. rewrite Hk, fmap_app. apply elem_of_app. by left. }
    assert (Forall (fun p => length p.2 = BSIZEn) ws) as Hlen.
    { pose proof (redo_lengths g d Hd) as H. rewrite Hk in H. by apply Forall_app in H as [H _]. }
    destruct (redo_frame g ws d Hg Hd) as [Eh Er]; [auto|].
    split; [apply disk_ok_writes; auto|]. split.
    + intros x Hx. unfold replay. rewrite Er. by apply apply_writes_prefix.
    + intros E. exfalso. apply (f_equal length) in E, Hk. unfold recovery_writes in E.
      rewrite length_app in E, Hk. cbn in E. lia.
  - assert (disk_ok g (replay g d)) as Hd1.
    { apply disk_ok_writes; [done|done|done|by apply redo_lengths]. }
    destruct (redo_frame g (redo g d) d Hg Hd Hout) as [Eh _].
    destruct (disk_ok_clear g (replay g d) Hg Hd1) as (H1 & H2 & H3).
    unfold replay in H1, H2, H3 at 1. rewrite Eh in H1, H2, H3.
    rewrite apply_writes_app. split; [exact H1|]. split; [|intros _; exact H2].
    destruct (log_empty_redo _ _ H2) as (_ & _ & E).
    intros x Hx. change (apply_writes [(?a, ?b)] ?m) with (<[a := b]> m). rewrite E. by apply H3.
Qed.

(** ** Commit *)

(** A transaction of blocks [bs] with contents [data], ready to commit on [d]. *)
Record txn_ok (g : log_geom) (d : gmap Z block) (data : Z -> block) (bs : list Z) : Prop := TxnOk {
  tx_len : (length bs <= LOGSIZEn)%nat;
  tx_fits : Z.of_nat (length bs) < g_nlog g;
  tx_nodup : NoDup bs;
  tx_block : forall b, b ∈ bs -> small_int b /\ is_Some (d !! b) /\ ~ in_log g b /\ length (data b) = BSIZEn
}.

Definition log_phase (g : log_geom) (d : gmap Z block) (data : Z -> block) (bs : list Z) : list (Z * block) :=
  log_fill (g_logstart g) data bs 0 ++ [(g_logstart g, put_head bs (disk_head g d))].
Definition commit_writes (g : log_geom) (d : gmap Z block) (data : Z -> block) (bs : list Z) : list (Z * block) :=
  log_phase g d data bs ++ recovery_writes g (apply_writes (log_phase g d data bs) d).
(** The disk with the whole transaction applied. *)
Definition txn_writes (data : Z -> block) (bs : list Z) : list (Z * block) := (fun b => (b, data b)) <$> bs.

Section CommitPure.
Context (g : log_geom) (d : gmap Z block) (data : Z -> block) (bs : list Z).
Hypothesis Hg : geom_ok g.
Hypothesis Hd : disk_ok g d.
Hypothesis He : log_empty g d.
Hypothesis Htx : txn_ok g d data bs.

Lemma log_fill_in_log p : p ∈ log_fill (g_logstart g) data bs 0 ->
  in_log g p.1 /\ p.1 <> g_logstart g /\ length p.2 = BSIZEn.
Proof.
  intros Hin. apply list_elem_of_fmap in Hin as ([lb b] & -> & Hin). cbn.
  apply (slot_in_log g) in Hin as (? & ? & Hb); [|apply Htx].
  split; [done|]. split; [done|]. by apply (tx_block _ _ _ _ Htx b Hb).
Qed.

Lemma tx_small : Forall small_int bs.
Proof. apply list.Forall_forall. intros b Hb. by apply (tx_block _ _ _ _ Htx b Hb). Qed.

(** Filling the log is invisible while the header is clear. *)
Lemma fill_prefix ws :
  ws `prefix_of` log_fill (g_logstart g) data bs 0 ->
  disk_ok g (apply_writes ws d) /\ log_empty g (apply_writes ws d) /\
  same_outside g (apply_writes ws d) d.
Proof.
  intros [k Hk].
  assert (forall p, p ∈ ws -> in_log g p.1 /\ p.1 <> g_logstart g /\ length p.2 = BSIZEn) as Hws.
  { intros p Hp. apply log_fill_in_log. rewrite Hk. apply elem_of_app. by left. }
  assert (forall x, x ∈ ws.*1 -> in_log g x /\ x <> g_logstart g) as Hfst.
  { intros x Hx. apply list_elem_of_fmap in Hx as (p & -> & Hp). by destruct (Hws p Hp) as (? & ? & _). }
  assert (disk_head g (apply_writes ws d) = disk_head g d) as Eh.
  { unfold disk_head. rewrite apply_writes_ne; [done|]. intros Hx. by destruct (Hfst _ Hx). }
  assert (log_empty g (apply_writes ws d)) as He' by (unfold log_empty; by rewrite Eh).
  split; [|split; [done|]].
  - constructor.
    + apply blocks_ok_writes; [apply Hd|]. apply list.Forall_forall. intros p Hp. by apply Hws.
    + intros x Hx. by apply apply_writes_is_Some, Hd.
    + rewrite Eh. apply Hd.
    + rewrite Eh. apply Hd.
    + destruct (log_empty_redo _ _ He') as (-> & _). intros b Hb. by apply not_elem_of_nil in Hb.
  - intros x Hx. apply apply_writes_ne. intros Hin. by destruct (Hfst _ Hin).
Qed.

Definition committed_disk : gmap Z block := apply_writes (log_phase g d data bs) d.

Lemma committed_head : disk_head g committed_disk = put_head bs (disk_head g d).
Proof.
  unfold disk_head at 1, committed_disk, log_phase. rewrite apply_writes_app.
  change (apply_writes [(?a, ?b)] ?m) with (<[a := b]> m). by rewrite lookup_insert_eq.
Qed.

Lemma committed_logged : logged_on_disk g committed_disk = bs.
Proof.
  unfold logged_on_disk. rewrite committed_head.
  apply head_blocks_put; [by apply length_disk_head|apply Htx|apply tx_small].
Qed.

Lemma committed_slot lb b :
  (lb, b) ∈ log_slots (g_logstart g) 0 bs -> committed_disk !! lb = Some (data b).
Proof.
  intros Hin. unfold committed_disk, log_phase. rewrite apply_writes_app.
  change (apply_writes [(?a, ?b)] ?m) with (<[a := b]> m).
  pose proof (slot_in_log g _ _ _ (tx_fits _ _ _ _ Htx) Hin) as (_ & Hne & _).
  rewrite lookup_insert_ne by done. apply apply_writes_last.
  - intros v Hv. apply list_elem_of_fmap in Hv as ([lb' b'] & [= -> ->] & Hin').
    apply elem_of_log_slots in Hin as (j & Hj & ->), Hin' as (j' & Hj' & E).
    assert (j = j') as <- by (cbn in E; lia). congruence.
  - left. unfold log_fill. rewrite <- list_fmap_compose. apply list_elem_of_fmap. by exists (lb, b).
Qed.

Lemma committed_redo : redo g committed_disk = txn_writes data bs.
Proof.
  unfold redo. rewrite committed_logged. unfold txn_writes.
  rewrite <- (log_slots_snd (g_logstart g) 0 bs) at 2. rewrite <- list_fmap_compose.
  apply list_fmap_ext. intros i [lb b] Hi. apply list_elem_of_lookup_2 in Hi. cbn.
  by rewrite (committed_slot _ _ Hi).
Qed.

Lemma committed_ok : disk_ok g committed_disk.
Proof.
  destruct (fill_prefix (log_fill (g_logstart g) data bs 0)) as (Hf & _ & _); [done|].
  assert (length (put_head bs (disk_head g d)) = BSIZEn) as Hl.
  { apply length_put_head; [by apply length_disk_head|apply Htx]. }
  assert (head_n (disk_head g committed_disk) = Z.of_nat (length bs)) as Hn.
  { rewrite committed_head. apply head_n_put; [by apply length_disk_head|apply Htx]. }
  pose proof (tx_len _ _ _ _ Htx). pose proof LOGSIZEn_eq.
  constructor.
  - unfold committed_disk, log_phase. rewrite apply_writes_app. by apply blocks_ok_insert; [apply Hf|].
  - intros x Hx. by apply apply_writes_is_Some, Hd.
  - lia.
  - rewrite Hn. apply Htx.
  - rewrite committed_logged. intros b Hb. destruct (tx_block _ _ _ _ Htx b Hb) as (? & ? & ? & _).
    split; [done|]. split; [by apply apply_writes_is_Some|done].
Qed.

Lemma committed_replay : same_outside g (replay g committed_disk) (apply_writes (txn_writes data bs) d).
Proof.
  intros x Hx. unfold replay. rewrite committed_redo.
  destruct (decide (x ∈ (txn_writes data bs).*1)) as [Hin|Hni]; [by apply apply_writes_cover|].
  rewrite !(apply_writes_ne (txn_writes data bs)) by done. apply apply_writes_ne.
  intros Hin. unfold log_phase in Hin. rewrite fmap_app in Hin. apply elem_of_app in Hin as [Hin|Hin].
  - apply list_elem_of_fmap in Hin as (p & -> & Hp). by destruct (log_fill_in_log p Hp).
  - apply list_elem_of_singleton in Hin. subst x. by apply Hx, in_log_start.
Qed.

(** After any prefix of a commit's writes the disk is well formed and stands for
    the old contents or for the new ones. *)
Lemma commit_prefix ws :
  ws `prefix_of` commit_writes g d data bs ->
  disk_ok g (apply_writes ws d) /\
  (same_outside g (replay g (apply_writes ws d)) d \/
   same_outside g (replay g (apply_writes ws d)) (apply_writes (txn_writes data bs) d)).
Proof.
  intros Hp. apply prefix_app_cases in Hp as [Hp|(q & -> & Hp)].
  - apply prefix_snoc_cases in Hp as [Hp| ->].
    + destruct (fill_prefix ws Hp) as (H1 & H2 & H3). split; [done|]. left.
      destruct (log_empty_redo _ _ H2) as (_ & _ & ->). done.
    + split; [apply committed_ok|]. right. apply committed_replay.
  - rewrite apply_writes_app. fold committed_disk in Hp |- *.
    destruct (recovery_prefix g _ q Hg committed_ok Hp) as (H1 & H2 & _). split; [done|]. right.
    intros x Hx. rewrite (H2 x Hx). by apply committed_replay.
Qed.
End CommitPure.

Lemma commit_wp g L a c h t data Q (bs := take (Z.to_nat (lh_n L)) (lh_block L)) :
  geom_ok g -> log_at g L -> bio_rep c a -> bio_unheld (World h t c) ->
  disk_ok g (a_disk a) -> log_empty g (a_disk a) ->
  0 < lh_n L -> lh_n L = Z.of_nat (length bs) -> txn_ok g (a_disk a) data bs ->
  (size (a_refs a) < NBUFn)%nat ->
  (forall x, in_log g x -> a_refs a !! x = None) ->
  (forall b, b ∈ bs -> exists j, a_refs a !! b = Some (j, Bcore unlocked 1 (data b))) ->
  (forall c' t', bio_rep c' (a_writes (commit_writes g (a_disk a) data bs) (a_drop bs a)) ->
     writes t' = commit_writes g (a_disk a) data bs ->
     Q tt (World h (t ++ t') (Lstate c' (lg_set_n 0 L)))) ->
  wp commit Q (World h t (Lstate c L)).
Proof.
  intros Hg Hat Hrep Hu Hdk He Hpos Hn Htx Hsz Hfree Hpin HQ.
  pose proof Hat as (Hst & Hsize & Hdev & Hlen). pose proof Hg as [Hg1 Hg2 Hg3].
  unfold commit. do 2 wp_step. cbn [ls_log]. rewrite (proj2 (Z.gtb_lt _ _)) by lia.
  wp_step. unfold write_log. do 2 wp_step. cbn [ls_log]. rewrite Hn, Nat2Z.id.
  eapply (write_log_loop_wp data L h bs 0 a c t); try done; [apply Hdk| | |].
  { intros j b Hj. by apply lookup_take_Some in Hj as [Hj _]. }
  { rewrite Hst. intros lb b Hin. destruct (slot_in_log g bs lb b (tx_fits _ _ _ _ Htx) Hin) as (Hl & _ & Hb).
    destruct (tx_block _ _ _ _ Htx b Hb) as (? & ? & ? & ?).
    constructor; auto; [unfold in_log in Hl; lia|by apply Hdk]. }
  rewrite Hst. intros c1 t1 R1 W1. wp_step.
  destruct (fill_prefix g (a_disk a) data bs Hdk He Htx _ (reflexivity _)) as (Hd1 & _ & _).
  eapply (write_head_wp _ L c1 h _ (disk_head g (a_disk a)) _ R1); try done; [lia| | | |].
  - rewrite Hlen. pose proof (tx_len _ _ _ _ Htx). lia.
  - cbn. rewrite Hst. by apply Hfree, in_log_start.
  - cbn. rewrite Hst, apply_writes_ne; [by apply disk_head_eq|]. intros Hin.
    apply list_elem_of_fmap in Hin as (p & Hp & Hin).
    destruct (log_fill_in_log g (a_disk a) data bs Htx p Hin) as (_ & Hne & _). congruence.
  - rewrite Hst. fold bs. intros c2 t2 R2 W2.
    set (a2 := a_set_disk _ _ _) in R2.
    assert (a_disk a2 = committed_disk g (a_disk a) data bs) as E2.
    { unfold committed_disk, log_phase. by rewrite apply_writes_app. }
    assert (logged_on_disk g (a_disk a2) = bs) as El by (rewrite E2; by apply committed_logged).
    rewrite <- app_assoc.
    eapply (install_clear_wp false g L h a2 c2); try done.
    + rewrite E2. by apply committed_ok.
    + cbn. lia.
    + rewrite E2, committed_head, head_n_put; [done|by apply length_disk_head|apply Htx].
    + rewrite El. intros b Hb. destruct (Hpin b Hb) as [j Hj]. exists j, (data b). split; [exact Hj|].
      by apply (tx_block _ _ _ _ Htx b Hb).
    + intros _. rewrite El. apply Htx.
    + intros c3 t3 R3 W3. rewrite <- app_assoc. apply HQ.
      * rewrite El in R3. unfold a_writes in R3 |- *. unfold commit_writes.
        fold (committed_disk g (a_disk a) data bs). rewrite apply_writes_app.
        rewrite a_disk_drop in R3 |- *. rewrite E2 in R3. unfold a2 in R3.
        rewrite a_drop_set_disk, a_drop_writes in R3. exact R3.
      * rewrite !writes_app, W1, W2, W3, E2. unfold commit_writes, committed_disk, log_phase.
        by rewrite <- !app_assoc.
Qed.
