(* ===== verification/LogTxn.v ===== *)
(** * Transactions: log.c and bio.c as a block store

    The log and the buffer cache together implement the interface of Store.v.
    The main theorems: a transaction is atomic across crashes, and a client that
    follows the rules of log.c runs to completion. *)

From S2P Require Import Prelude Machine Sleeplock Bio Store Log.

Open Scope Z_scope.

(** ** The abstraction *)

Definition cell_ok (pid : Z) (t : tstate) (x : Z) (e : option (nat * bcore)) : Prop :=
  match e with
  | None => t_open t !! x = None /\ x ∉ t_logged t
  | Some (i, c) =>
      (t_open t !! x = Some i /\ c_lock c = Sleeplock true pid /\
       c_refcnt c = (if decide (x ∈ t_logged t) then 2 else 1)) \/
      (t_open t !! x = None /\ x ∈ t_logged t /\ c_lock c = unlocked /\ c_refcnt c = 1)
  end.

(** [struct log] agrees with the transaction. *)
Record log_cond (g : log_geom) (L : logrec) (t : tstate) : Prop := LogCond {
  lc_at : log_at g L;
  lc_comm : lg_committing L = false;
  lc_out : lg_outstanding L = t_out t;
  lc_n : lh_n L = Z.of_nat (length (t_logged t));
  lc_blk : take (length (t_logged t)) (lh_block L) = t_logged t;
  lc_len : (length (t_logged t) <= LOGSIZEn)%nat;
  lc_fits : Z.of_nat (length (t_logged t)) < g_nlog g;
  lc_nodup : NoDup (t_logged t)
}.

Record log_inv (g : log_geom) (s : lstate) (t : tstate) (a : acache) : Prop := LogInv {
  li_geom : geom_ok g;
  li_log : log_cond g (ls_log s) t;
  li_bio : bio_rep (ls_cache s) a;
  li_disk : disk_ok g (a_disk a);
  li_empty : log_empty g (a_disk a);
  li_small : forall x, is_Some (a_disk a !! x) -> small_int x;
  li_noref : forall x, in_log g x -> a_refs a !! x = None;
  li_cell : forall x, cell_ok (a_pid a) t x (a_refs a !! x);
  li_data : forall x i c, a_refs a !! x = Some (i, c) -> length (c_data c) = BSIZEn /\ is_Some (a_disk a !! x);
  li_view : forall x, t_view t !! x = if decide (in_log g x) then None else a_view a x;
  li_clean : forall x, x ∉ t_logged t -> x ∉ t_dirty t -> a_view a x = a_disk a !! x;
  li_dirty : forall x, x ∈ t_dirty t -> is_Some (t_open t !! x)
}.

Definition log_rep (g : log_geom) (s : lstate) (t : tstate) : Prop := exists a, log_inv g s t a.

(** ** Changing one block *)

(** Away from [x], [t] and [t'] agree. *)
Record same_but (x : Z) (t t' : tstate) : Prop := SameBut {
  sx_open : forall y, y <> x -> t_open t' !! y = t_open t !! y;
  sx_logged : forall y, y <> x -> y ∈ t_logged t' <-> y ∈ t_logged t;
  sx_dirty : forall y, y <> x -> y ∈ t_dirty t' <-> y ∈ t_dirty t;
  sx_view : forall y, y <> x -> t_view t' !! y = t_view t !! y
}.

Lemma cell_ok_same pid x t t' y e :
  same_but x t t' -> y <> x -> cell_ok pid t y e -> cell_ok pid t' y e.
Proof.
  intros [Ho Hl _ _] Hy. specialize (Ho y Hy). specialize (Hl y Hy).
  unfold cell_ok. destruct e as [[i c]|]; rewrite Ho.
  - intros [(H1 & H2 & H3)|(H1 & H2 & H3)]; [left|right].
    + split; [done|]. split; [done|]. rewrite H3. destruct (decide (y ∈ t_logged t)), (decide (y ∈ t_logged t')); tauto.
    + tauto.
  - tauto.
Qed.

(** The new entry of block [x]. *)
Record entry_ok (g : log_geom) (t' : tstate) (a : acache) (x : Z) (e : option (nat * bcore)) : Prop := EntryOk {
  eo_out : ~ in_log g x;
  eo_cell : cell_ok (a_pid a) t' x e;
  eo_data : forall i c, e = Some (i, c) -> length (c_data c) = BSIZEn /\ is_Some (a_disk a !! x);
  eo_view : t_view t' !! x = match e with Some (_, c) => Some (c_data c) | None => a_disk a !! x end;
  eo_clean : x ∉ t_logged t' -> x ∉ t_dirty t' -> t_view t' !! x = a_disk a !! x;
  eo_dirty : x ∈ t_dirty t' -> is_Some (t_open t' !! x)
}.

Lemma a_view_put x e a y :
  a_view (a_put x e a) y =
    if decide (y = x) then match e with Some (_, c) => Some (c_data c) | None => a_disk a !! x end
    else a_view a y.
Proof.
  unfold a_view. rewrite a_disk_put. case_decide as H.
  - subst y. rewrite a_put_eq. by destruct e as [[? ?]|].
  - by rewrite a_put_ne.
Qed.

Lemma log_inv_upd g s t a s' t' x e :
  log_inv g s t a -> bio_rep (ls_cache s') (a_put x e a) -> log_cond g (ls_log s') t' ->
  same_but x t t' -> entry_ok g t' a x e -> log_inv g s' t' (a_put x e a).
Proof.
  intros Hi Hb Hc Hs [E1 E2 E3 E4 E5 E6]. destruct Hi. constructor; try done.
  - intros y Hy. rewrite a_put_ne by (intros ->; done). by apply li_noref0.
  - intros y. rewrite a_pid_put. destruct (decide (y = x)) as [->|Hne]; [by rewrite a_put_eq|].
    rewrite a_put_ne by done. eapply cell_ok_same; [done|done|]. apply li_cell0.
  - intros y i c. rewrite a_disk_put. destruct (decide (y = x)) as [->|Hne].
    + rewrite a_put_eq. apply E3.
    + rewrite a_put_ne by done. apply li_data0.
  - intros y. rewrite a_view_put. destruct (decide (y = x)) as [->|Hne].
    + rewrite decide_False by done. done.
    + rewrite (sx_view _ _ _ Hs y Hne). apply li_view0.
  - intros y Hl Hd. rewrite a_view_put, a_disk_put. destruct (decide (y = x)) as [->|Hne].
    + rewrite <- E4. by apply E5.
    + rewrite (sx_logged _ _ _ Hs y Hne) in Hl. rewrite (sx_dirty _ _ _ Hs y Hne) in Hd. by apply li_clean0.
  - intros y Hy. destruct (decide (y = x)) as [->|Hne]; [by apply E6|].
    rewrite (sx_open _ _ _ Hs y Hne). rewrite (sx_dirty _ _ _ Hs y Hne) in Hy. by apply li_dirty0.
Qed.

Lemma log_inv_not_in_log g s t a x : log_inv g s t a -> is_Some (t_view t !! x) -> ~ in_log g x.
Proof. intros Hi [d Hd] Hx. rewrite (li_view _ _ _ _ Hi), decide_True in Hd by done. done. Qed.

Lemma log_inv_view g s t a x d : log_inv g s t a -> t_view t !! x = Some d -> a_view a x = Some d.
Proof.
  intros Hi Hd. rewrite (li_view _ _ _ _ Hi) in Hd. case_decide; done.
Qed.

Lemma a_view_disk g s t a x : log_inv g s t a -> is_Some (a_view a x) -> is_Some (a_disk a !! x).
Proof.
  intros Hi. unfold a_view. destruct (a_refs a !! x) as [[i c]|] eqn:E; [|done].
  intros _. by apply (li_data _ _ _ _ Hi x i c).
Qed.

Lemma view_len g s t a x d : log_inv g s t a -> a_view a x = Some d -> length d = BSIZEn.
Proof.
  intros Hi. unfold a_view. destruct (a_refs a !! x) as [[i c]|] eqn:E.
  - intros [= <-]. by apply (li_data _ _ _ _ Hi x i c).
  - intros Hd. by apply (dk_blocks _ _ (li_disk _ _ _ _ Hi) x).
Qed.

(** The open blocks and the logged ones are the referenced ones. *)
Lemma log_inv_size g s t a :
  log_inv g s t a -> (size (a_refs a) <= size (t_open t) + length (t_logged t))%nat.
Proof.
  intros Hi. rewrite <- (size_dom (D := gset Z) (a_refs a)), <- (size_dom (D := gset Z) (t_open t)).
  etransitivity; [apply (subseteq_size _ (dom (t_open t) ∪ list_to_set (t_logged t)))|].
  - intros x Hx. apply elem_of_dom in Hx as [[i c] Hx]. pose proof (li_cell _ _ _ _ Hi x) as Hc.
    rewrite Hx in Hc. apply elem_of_union. destruct Hc as [(Ho & _)|(_ & Hl & _)].
    + left. apply elem_of_dom. by eexists.
    + right. by apply elem_of_list_to_set.
  - rewrite size_union_alt. apply Nat.add_le_mono_l. etransitivity; [apply subseteq_size, subseteq_difference_l; reflexivity|].
    rewrite size_list_to_set; [done|]. apply (li_log _ _ _ _ Hi).
Qed.

(** ** The operations on an open block *)

Lemma unheld_nil (t : list event) (c : bcache) : bio_unheld (World [] t c).
Proof. split; [|intros i]; apply not_elem_of_nil. Qed.

Lemma log_cond_opened g L t o : log_cond g L t -> log_cond g L (Tstate (t_view t) o (t_dirty t) (t_logged t) (t_out t)).
Proof. by intros []. Qed.

Lemma cell_open g s t a x i :
  log_inv g s t a -> t_open t !! x = Some i ->
  exists d, a_refs a !! x = Some (i, Bcore (Sleeplock true (a_pid a)) (if decide (x ∈ t_logged t) then 2 else 1) d) /\
    t_view t !! x = Some d /\ ~ in_log g x /\ length d = BSIZEn /\ is_Some (a_disk a !! x).
Proof.
  intros Hi Ho. pose proof (li_cell _ _ _ _ Hi x) as Hc.
  destruct (a_refs a !! x) as [[j c]|] eqn:E; cbn in Hc; rewrite Ho in Hc; [|by destruct Hc]. destruct Hc as [(Hj & Hl & Hr)|(Hn & _)]; [|done]. injection Hj as <-.
  destruct c as [lk r d]. cbn in Hl, Hr. subst. exists d. split; [done|].
  destruct (li_data _ _ _ _ Hi x _ _ E) as [Hlen Hd].
  assert (~ in_log g x) as Hout by (intros Hx; rewrite (li_noref _ _ _ _ Hi x Hx) in E; done).
  split; [|done]. rewrite (li_view _ _ _ _ Hi), decide_False by done. by apply (a_view_Some _ _ _ _ E).
Qed.

Lemma l_bread_wp g t x Q w :
  log_rep g (user w) t -> held w = [] -> can_open t x ->
  (forall i s' tr, log_rep g s' (t_opened x i t) -> Q i (World [] tr s')) ->
  wp (zoom (bread ROOTDEV x)) Q w.
Proof.
  intros [a Hi] Hh ([d Hd] & Ho & Hroom) HQ. destruct w as [h tr [c L]]. cbn in Hh, Hi. subst h.
  pose proof (log_inv_view _ _ _ _ _ _ Hi Hd) as Hv.
  pose proof (a_view_disk _ _ _ _ _ Hi (mk_is_Some _ _ Hv)) as Hdisk.
  pose proof (log_inv_not_in_log _ _ _ _ _ Hi (mk_is_Some _ _ Hd)) as Hout.
  pose proof (li_cell _ _ _ _ Hi x) as Hc. pose proof (log_inv_size _ _ _ _ Hi) as Hsz.
  wp_step. eapply bread_wp; [apply Hi|apply unheld_nil|done| |].
  - unfold can_bread. destruct (a_refs a !! x) as [[j k]|] eqn:E; cbn in Hc; rewrite Ho in Hc.
    + destruct Hc as [(? & _)|(_ & _ & -> & ->)]; done.
    + destruct Hroom as [Hin|Hlt]; [by destruct Hc|]. lia.
  - intros i d' c' Hv' Hij R. rewrite Hv in Hv'. injection Hv' as <-. apply HQ. eexists.
    eapply log_inv_upd; [exact Hi|exact R|apply log_cond_opened, Hi| |].
    + constructor; try done. intros y Hy. cbn. by rewrite lookup_insert_ne.
    + constructor; try done.
      * left. cbn. rewrite lookup_insert_eq. split; [done|]. split; [done|]. unfold refs_of.
        destruct (a_refs a !! x) as [[j k]|] eqn:E; cbn in Hc |- *; rewrite Ho in Hc.
        -- destruct Hc as [(? & _)|(_ & Hin & _ & ->)]; [done|]. by rewrite decide_True.
        -- by rewrite decide_False by tauto.
      * intros j k [= <- <-]. cbn. split; [by eapply view_len|done].
      * cbn. intros Hl Hdt. rewrite Hd, <- Hv. by apply (li_clean _ _ _ _ Hi).
      * cbn. intros _. rewrite lookup_insert_eq. done.
Qed.

Lemma l_bdata_wp g t x i d Q w :
  log_rep g (user w) t -> t_open t !! x = Some i -> t_view t !! x = Some d ->
  Q d w -> wp (zoom (bdata i)) Q w.
Proof.
  intros [a Hi] Ho Hd HQ. destruct w as [h tr [c L]].
  destruct (cell_open _ _ _ _ _ _ Hi Ho) as (d' & Hr & Hv & _).
  wp_step. eapply bdata_wp; [apply Hi|done|]. cbn. rewrite Hd in Hv. injection Hv as <-. done.
Qed.

Lemma l_bset_wp g t x i d Q w :
  log_rep g (user w) t -> held w = [] -> t_open t !! x = Some i -> length d = BSIZEn ->
  (forall s' tr, log_rep g s' (t_modified x d t) -> Q tt (World [] tr s')) ->
  wp (zoom (bdata_set i d)) Q w.
Proof.
  intros [a Hi] Hh Ho Hlen HQ. destruct w as [h tr [c L]]. cbn in Hh. subst h.
  destruct (cell_open _ _ _ _ _ _ Hi Ho) as (d' & Hr & Hv & Hout & _ & Hdisk).
  wp_step. eapply bdata_set_wp; [apply Hi|done|]. intros c' R. apply HQ. eexists.
  eapply log_inv_upd; [exact Hi|exact R|by destruct (li_log _ _ _ _ Hi)| |].
  - constructor; try done; cbn; intros y Hy; [set_solver|by rewrite lookup_insert_ne].
  - constructor; try done; cbn.
    + left. done.
    + intros j k [= <- <-]. done.
    + by rewrite lookup_insert_eq.
    + set_solver.
Qed.

Lemma l_brelse_wp g t x i Q w :
  log_rep g (user w) t -> held w = [] -> t_open t !! x = Some i -> x ∉ t_dirty t ->
  (forall s' tr, log_rep g s' (t_closed x t) -> Q tt (World [] tr s')) ->
  wp (zoom (brelse i)) Q w.
Proof.
  intros [a Hi] Hh Ho Hnd HQ. destruct w as [h tr [c L]]. cbn in Hh. subst h.
  destruct (cell_open _ _ _ _ _ _ Hi Ho) as (d & Hr & Hv & Hout & Hlen & Hdisk).
  assert (x ∉ t_logged t -> a_disk a !! x = Some d) as Hclean.
  { intros Hl. rewrite <- (li_clean _ _ _ _ Hi x Hl Hnd). by eapply log_inv_view. }
  wp_step. eapply brelse_wp; [apply Hi|apply unheld_nil|done|done| |].
  - cbn. case_decide; [done|]. intros _. by apply Hclean.
  - intros c' R. apply HQ. eexists.
    eapply log_inv_upd; [exact Hi|exact R|apply log_cond_opened, Hi| |].
    + constructor; try done. intros y Hy. by apply t_closed_ne.
    + unfold released. cbn [c_refcnt c_data]. destruct (decide (x ∈ t_logged t)) as [Hin|Hni]; cbn [decide_rel].
      * constructor; try done.
        -- right. by rewrite t_closed_eq.
        -- intros j k [= <- <-]. done.
      * constructor; try done.
        -- split; [apply t_closed_eq|done].
        -- cbn. rewrite Hv. symmetry. by apply Hclean.
        -- intros _ _. cbn. rewrite Hv. symmetry. by apply Hclean.
Qed.

(** ** log_write() *)

Lemma log_find_spec x bl n i :
  (n <= length bl)%nat -> Forall small_int (take n bl) ->
  (x ∈ take n bl -> exists j, take n bl !! j = Some x /\ log_find x bl n i = (i + j)%nat /\ (j < n)%nat) /\
  (x ∉ take n bl -> log_find x bl n i = (i + n)%nat).
Proof.
  revert n i. induction bl as [|b bl IH]; intros n i Hn Hs.
  - assert (n = 0)%nat as -> by (cbn in Hn; lia). cbn. split; [intros H; by apply not_elem_of_nil in H|lia].
  - destruct n as [|n]; cbn [take log_find] in *; [split; [intros H; by apply not_elem_of_nil in H|lia]|].
    apply Forall_cons_1 in Hs as [Hb Hs]. unfold small_int in Hb. rewrite u32_small by lia.
    destruct (Z.eqb_spec b x) as [->|Hne].
    + split; [intros _; exists 0%nat; split; [done|lia]|set_solver].
    + destruct (IH n (S i)) as [IH1 IH2]; [cbn in Hn; lia|done|]. split.
      * intros Hin. apply elem_of_cons in Hin as [->|Hin]; [done|].
        destruct (IH1 Hin) as (j & Hj & E & Hl). exists (S j). split; [done|]. rewrite E. lia.
      * intros Hni. rewrite IH2 by set_solver. lia.
Qed.

Definition log_limit (g : log_geom) : nat := Nat.min LOGSIZEn (Z.to_nat (g_nlog g - 1)).

(** The record after log_write() of block [x]. *)
Definition logged_rec (x : Z) (L : logrec) (t : tstate) : logrec :=
  if decide (x ∈ t_logged t) then L
  else lg_set_n (lh_n L + 1) (lg_set_block (<[length (t_logged t) := x]> (lh_block L)) L).

Lemma logged_rec_cond g L t x :
  log_cond g L t -> small_int x -> (length (t_logged t) < log_limit g)%nat ->
  log_cond g (logged_rec x L t) (t_wrote x t).
Proof.
  intros Hc Hx Hlim. unfold logged_rec, t_wrote, t_add, log_limit in *.
  destruct Hc as [(H1 & H2 & H3 & H4) ? ? Hn Hblk ? ? ?].
  destruct (decide (x ∈ t_logged t)) as [Hin|Hni]; [by constructor|].
  assert (length (t_logged t) < length (lh_block L))%nat by lia.
  constructor; cbn; try done.
  - split; [done|]. split; [done|]. split; [done|]. cbn. by rewrite length_insert.
  - rewrite length_app. cbn. lia.
  - rewrite length_app. cbn. rewrite Nat.add_1_r. rewrite (take_S_r _ _ x).
    + f_equal. rewrite take_insert_ge by lia. done.
    + apply list_lookup_insert_eq. lia.
  - rewrite length_app. cbn. lia.
  - rewrite length_app. cbn. lia.
  - apply list.NoDup_app. split; [done|]. split; [set_solver|apply NoDup_singleton].
Qed.

Lemma log_write_entry g s t a x i d :
  log_inv g s t a -> t_open t !! x = Some i -> t_view t !! x = Some d -> ~ in_log g x ->
  length d = BSIZEn -> is_Some (a_disk a !! x) ->
  same_but x t (t_wrote x t) /\
  entry_ok g (t_wrote x t) a x (Some (i, Bcore (Sleeplock true (a_pid a)) 2 d)).
Proof.
  intros Hi Ho Hv Hout Hlen Hdisk.
  assert (x ∈ t_add x (t_logged t)) as Hin.
  { unfold t_add. case_decide; [done|]. apply elem_of_app. right. by apply list_elem_of_singleton. }
  split.
  - constructor; try done; cbn; intros y Hy; [|set_solver].
    unfold t_add. case_decide; [done|]. rewrite elem_of_app, list_elem_of_singleton. tauto.
  - constructor; try done.
    + left. cbn. rewrite decide_True by done. done.
    + intros j k [= <- <-]. done.
Qed.

Lemma l_log_write_wp g t x i Q w :
  log_rep g (user w) t -> held w = [] -> t_open t !! x = Some i ->
  (length (t_logged t) < log_limit g)%nat -> 1 <= t_out t ->
  (forall s' tr, log_rep g s' (t_wrote x t) -> Q tt (World [] tr s')) ->
  wp (log_write i) Q w.
Proof.
  intros [a Hi] Hh Ho Hlim Hout1 HQ. destruct w as [h tr [c L]]. cbn in Hh. subst h.
  destruct (cell_open _ _ _ _ _ _ Hi Ho) as (d & Hr & Hv & Hout & Hlen & Hdisk).
  pose proof (li_log _ _ _ _ Hi) as Hc. cbn in Hc. pose proof Hc as [(Hst & Hsz & Hdev & Hlb) _ Hos Hn Hblk _ _ _].
  pose proof (li_small _ _ _ _ Hi x Hdisk) as Hsm. pose proof (LOGSIZEn_eq) as HLS.
  pose proof (logged_rec_cond _ _ _ x Hc Hsm Hlim) as Hc'.
  destruct (log_write_entry _ _ _ _ _ _ _ Hi Ho Hv Hout Hlen Hdisk) as [Hsb Hen].
  destruct (bio_rep_lookup _ _ _ _ _ (li_bio _ _ _ _ Hi) Hr) as (l & b & _ & _ & _ & _ & Hb & [_ Hbn] & _).
  unfold log_limit in Hlim. unfold log_write. wp_step. apply wp_acquire; [apply not_elem_of_nil|].
  cbn [user held trace]. do 2 wp_step. cbn [ls_log].
  rewrite (proj2 (orb_false_iff _ _)) by (rewrite !Z.geb_leb, !Z.leb_gt; lia). cbv iota.
  rewrite (proj2 (Z.ltb_ge _ _)) by lia. cbv iota.
  do 2 wp_step. eapply wp_getb; [exact Hb|]. cbn [user held trace lput lens_cache lget ls_log ls_cache].
  rewrite Hbn, Hn, Nat2Z.id.
  assert (Forall small_int (take (length (t_logged t)) (lh_block L))) as Hsmall.
  { rewrite Hblk. apply list.Forall_forall. intros y Hy. apply (li_small _ _ _ _ Hi).
    pose proof (li_cell _ _ _ _ Hi y) as Hcy. destruct (a_refs a !! y) as [[j k]|] eqn:E; [|by destruct Hcy].
    by apply (li_data _ _ _ _ Hi y j k). }
  destruct (log_find_spec x (lh_block L) (length (t_logged t)) 0) as [Hf1 Hf2]; [lia|done|].
  rewrite Hblk in Hf1, Hf2. unfold small_int in Hsm. rewrite s32_small by lia.
  do 2 wp_step. unfold ls_upd. cbn [ls_cache ls_log]. unfold logged_rec in Hc'.
  destruct (decide (x ∈ t_logged t)) as [Hin|Hni].
  - destruct (Hf1 Hin) as (j & Hj & -> & Hlt). cbn [Nat.add].
    rewrite (proj2 (Z.eqb_neq _ _)) by lia. do 2 wp_step. eapply wp_release; [reflexivity|]. cbn [user trace].
    rewrite list_insert_id.
    2:{ rewrite <- Hblk in Hj. by apply lookup_take_Some in Hj as [Hj _]. }
    apply HQ. exists (a_put x (Some (i, Bcore (Sleeplock true (a_pid a)) 2 d)) a).
    eapply log_inv_upd; [exact Hi| |by destruct L|exact Hsb|exact Hen].
    replace (a_put _ _ _) with a; [apply Hi|]. acache_ext.
  - rewrite (Hf2 Hni). cbn [Nat.add]. rewrite Z.eqb_refl. do 3 wp_step.
    eapply bpin_wp; [apply Hi| |exact Hr|cbn; lia|].
    { cbn. intros Hin. apply list_elem_of_singleton in Hin. done. }
    intros c' R. cbn [user held trace lput lens_cache lget ls_log ls_cache]. wp_step.
    unfold ls_upd. cbn [ls_cache ls_log]. eapply wp_release; [reflexivity|]. cbn [user trace].
    apply HQ. eexists. eapply log_inv_upd; [exact Hi| |rewrite <- Hn; exact Hc'|exact Hsb|exact Hen]. exact R.
Qed.

(** ** begin_op() and end_op() *)

Lemma l_begin_op_wp g t Q w :
  log_rep g (user w) t -> held w = [] ->
  Z.of_nat (length (t_logged t)) + (t_out t + 1) * MAXOPBLOCKS <= LOGSIZE ->
  (forall s' tr, log_rep g s' (t_begun t) -> Q tt (World [] tr s')) ->
  wp begin_op Q w.
Proof.
  intros [a Hi] Hh Hroom HQ. destruct w as [h tr [c L]]. cbn in Hh. subst h.
  pose proof (li_log _ _ _ _ Hi) as Hc. cbn in Hc.
  unfold begin_op. wp_step. apply wp_acquire; [apply not_elem_of_nil|]. cbn [user held trace].
  do 2 wp_step. cbn [ls_log]. rewrite (lc_comm _ _ _ Hc). cbv iota.
  rewrite (lc_n _ _ _ Hc), (lc_out _ _ _ Hc). rewrite Z.gtb_ltb, (proj2 (Z.ltb_ge _ _)) by lia.
  do 2 wp_step. eapply wp_release; [reflexivity|]. cbn [user held trace]. apply HQ. exists a.
  destruct Hi. constructor; try done. destruct Hc. by constructor.
Qed.

(** The transaction of a state with no block open. *)
Definition txn_data (t : tstate) (b : Z) : block := default [] (t_view t !! b).

Section Commit.
Context (g : log_geom) (s : lstate) (t : tstate) (a : acache).
Hypothesis Hi : log_inv g s t a.
Hypothesis Hopen : t_open t = ∅.

Lemma no_dirty x : x ∉ t_dirty t.
Proof. intros Hx. apply (li_dirty _ _ _ _ Hi) in Hx. rewrite Hopen, lookup_empty in Hx. by destruct Hx. Qed.

Lemma pinned_iff x :
  match a_refs a !! x with
  | Some (j, c) => x ∈ t_logged t /\ c = Bcore unlocked 1 (txn_data t x) /\ t_view t !! x = Some (txn_data t x)
  | None => x ∉ t_logged t
  end.
Proof.
  pose proof (li_cell _ _ _ _ Hi x) as Hc.
  destruct (a_refs a !! x) as [[j c]|] eqn:E; cbn in Hc; rewrite Hopen, lookup_empty in Hc; [|tauto].
  destruct Hc as [(? & _)|(_ & Hin & Hl & Hr)]; [done|]. split; [done|].
  assert (t_view t !! x = Some (c_data c)) as Hv.
  { rewrite (li_view _ _ _ _ Hi), decide_False; [by eapply a_view_Some|].
    intros Hx. by rewrite (li_noref _ _ _ _ Hi x Hx) in E. }
  unfold txn_data. rewrite Hv. cbn. split; [|done]. destruct c. cbn in *. by subst.
Qed.

Lemma logged_ref b : b ∈ t_logged t ->
  exists j, a_refs a !! b = Some (j, Bcore unlocked 1 (txn_data t b)) /\ t_view t !! b = Some (txn_data t b).
Proof.
  intros Hb. pose proof (pinned_iff b) as H. destruct (a_refs a !! b) as [[j c]|]; [|done].
  destruct H as (_ & -> & Hv). by exists j.
Qed.

Lemma log_inv_txn : txn_ok g (a_disk a) (txn_data t) (t_logged t).
Proof.
  destruct (li_log _ _ _ _ Hi). constructor; try done.
  intros b Hb. destruct (logged_ref b Hb) as (j & Hj & Hv).
  destruct (li_data _ _ _ _ Hi _ _ _ Hj) as [Hl Hd].
  split; [by apply (li_small _ _ _ _ Hi)|]. split; [done|]. split; [|done].
  intros Hx. by rewrite (li_noref _ _ _ _ Hi b Hx) in Hj.
Qed.

(** The committed contents are the view. *)
Lemma view_committed x :
  ~ in_log g x -> apply_writes (txn_writes (txn_data t) (t_logged t)) (a_disk a) !! x = t_view t !! x.
Proof.
  intros Hx. destruct (decide (x ∈ t_logged t)) as [Hin|Hni].
  - destruct (logged_ref x Hin) as (j & _ & ->). apply apply_writes_last.
    + intros v Hv. apply list_elem_of_fmap in Hv as (b & [= -> ->] & _). done.
    + left. unfold txn_writes. rewrite <- list_fmap_compose. apply list_elem_of_fmap. by exists x.
  - rewrite apply_writes_ne.
    + rewrite (li_view _ _ _ _ Hi), decide_False by done.
      symmetry. apply (li_clean _ _ _ _ Hi); [done|apply no_dirty].
    + unfold txn_writes. rewrite <- list_fmap_compose. intros Hin.
      by apply list_elem_of_fmap in Hin as (b & -> & Hb).
Qed.

Definition end_writes : list (Z * block) :=
  if decide (t_logged t = []) then [] else commit_writes g (a_disk a) (txn_data t) (t_logged t).

Lemma commit_done :
  let d' := apply_writes end_writes (a_disk a) in
  disk_ok g d' /\ log_empty g d' /\ (forall x, ~ in_log g x -> d' !! x = t_view t !! x) /\
  (forall x, is_Some (d' !! x) -> is_Some (a_disk a !! x)).
Proof.
  destruct Hi as [Hg _ _ Hd He _ _ _ _ _ _ _]. pose proof log_inv_txn as Htx. unfold end_writes.
  case_decide as Hl; cbn zeta.
  - split; [done|]. split; [done|]. split; [|done].
    intros x Hx. rewrite <- view_committed by done. by rewrite Hl.
  - pose proof (committed_ok g (a_disk a) _ _ Hg Hd He Htx) as Hok.
    destruct (recovery_prefix g _ _ Hg Hok (reflexivity _)) as (H1 & H2 & H3).
    unfold commit_writes. rewrite apply_writes_app. fold (committed_disk g (a_disk a) (txn_data t) (t_logged t)).
    specialize (H3 eq_refl). destruct (log_empty_redo _ _ H3) as (_ & _ & Er).
    split; [done|]. split; [done|]. split.
    + intros x Hx. rewrite <- view_committed by done.
      rewrite <- (committed_replay g (a_disk a) _ _ Hg Hd Htx x Hx), <- (H2 x Hx), Er. done.
    + intros x Hx. destruct (decide (in_log g x)) as [Hin|Hni]; [by apply Hd|].
      rewrite <- Er, (H2 x Hni), (committed_replay g (a_disk a) _ _ Hg Hd Htx x Hni), view_committed in Hx by done.
      rewrite (li_view _ _ _ _ Hi), decide_False in Hx by done. by eapply a_view_disk.
Qed.

Lemma log_inv_committed s' :
  bio_rep (ls_cache s') (a_writes end_writes (a_drop (t_logged t) a)) ->
  t_out t = 1 -> log_cond g (ls_log s') (t_ended t) ->
  log_inv g s' (t_ended t) (a_writes end_writes (a_drop (t_logged t) a)).
Proof.
  intros Hb Hout Hc. destruct commit_done as (H1 & H2 & H3 & H4).
  assert (forall x, a_refs (a_writes end_writes (a_drop (t_logged t) a)) !! x = None) as Hr.
  { intros x. cbn. rewrite a_refs_drop. case_decide as Hx; [done|]. pose proof (pinned_iff x) as Hp.
    destruct (a_refs a !! x) as [[j c]|]; [by destruct Hp|done]. }
  unfold t_ended in *. rewrite decide_True in * by done.
  constructor; try done.
  - apply Hi.
  - cbn. by rewrite a_disk_drop.
  - cbn. by rewrite a_disk_drop.
  - cbn. rewrite a_disk_drop. intros x Hx. by apply (li_small _ _ _ _ Hi), H4.
  - intros x. rewrite Hr. cbn. rewrite Hopen. split; [apply lookup_empty|apply not_elem_of_nil].
  - intros x j c. by rewrite Hr.
  - intros x. rewrite (a_view_None _ _ (Hr x)). cbn. rewrite a_disk_drop.
    destruct (decide (in_log g x)) as [Hx|Hx]; [|by rewrite H3].
    rewrite (li_view _ _ _ _ Hi). by rewrite decide_True.
  - intros x _ _. by rewrite (a_view_None _ _ (Hr x)).
  - cbn. intros x Hx. by apply no_dirty in Hx.
Qed.
End Commit.

(** The whole of end_op() for the last operation: the transaction is on disk, and
    the writes it made are those of [commit_writes]. *)
Lemma end_op_last_wp g s t a Q tr :
  log_inv g s t a -> t_out t = 1 -> t_open t = ∅ -> (length (t_logged t) < NBUFn)%nat ->
  (forall s' t' a', log_inv g s' (t_ended t) a' -> writes t' = end_writes g t a ->
     Q tt (World [] (tr ++ t') s')) ->
  wp end_op Q (World [] tr s).
Proof.
  intros Hi Hout Hopen Hsz HQ. destruct s as [c L].
  pose proof (li_log _ _ _ _ Hi) as Hc. cbn in Hc. pose proof Hc as [Hat Hcm Hos Hn Hblk _ _ _].
  unfold end_op. wp_step. apply wp_acquire; [apply not_elem_of_nil|]. cbn [user held trace].
  do 4 wp_step. unfold ls_upd. cbn [ls_log ls_cache]. rewrite Hcm. cbv iota.
  rewrite Hos, Hout. change (1 - 1) with 0. rewrite Z.eqb_refl. do 2 wp_step.
  unfold ls_upd. cbn [ls_log ls_cache]. wp_step. eapply wp_release; [reflexivity|]. cbn [user held trace].
  set (L1 := lg_set_committing true (lg_set_outstanding 0 L)).
  assert (log_cond g (lg_set_committing false (lg_set_n 0 L1)) (t_ended t)) as Hc'.
  { unfold t_ended. rewrite decide_True by done. destruct Hat as (?&?&?&?). pose proof (li_geom _ _ _ _ Hi) as [? ? ?].
    constructor; cbn; try done; [lia|lia|constructor]. }
  wp_step. destruct (decide (t_logged t = [])) as [Hl|Hl].
  - unfold commit. do 2 wp_step. cbn [ls_log L1 lg_set_committing lg_set_outstanding lh_n]. rewrite Hn, Hl. cbn [length].
    change (Z.of_nat 0 >? 0) with false. cbv iota. do 2 wp_step. apply wp_acquire; [apply not_elem_of_nil|]. cbn [user held trace].
    do 4 wp_step. eapply wp_release; [reflexivity|]. cbn [user held trace]. unfold ls_upd. cbn [ls_log ls_cache].
    assert (end_writes g t a = []) as Ew by (unfold end_writes; by rewrite decide_True).
    eapply HQ; [|by rewrite Ew]. eapply log_inv_committed; [exact Hi|done| |done|].
    + rewrite Ew, Hl. destruct a. apply Hi.
    + assert (lh_n L = 0) as E0 by (rewrite Hn, Hl; done).
      replace (lg_set_committing false L1) with (lg_set_committing false (lg_set_n 0 L1)); [exact Hc'|].
      unfold lg_set_committing, lg_set_n, L1. cbn. by rewrite E0.
  - pose proof (log_inv_txn _ _ _ _ Hi Hopen) as Htx.
    assert (take (Z.to_nat (lh_n L1)) (lh_block L1) = t_logged t) as Ebs.
    { cbn. by rewrite Hn, Nat2Z.id. }
    eapply (commit_wp g L1 a c [] tr (txn_data t)); rewrite ?Ebs; try done; try apply Hi; [apply unheld_nil| | | |].
    + cbn. rewrite Hn. destruct (t_logged t); [done|]. cbn [length]. lia.
    + pose proof (log_inv_size _ _ _ _ Hi) as Hs. rewrite Hopen, map_size_empty in Hs. lia.
    + intros b Hb. destruct (logged_ref _ _ _ _ Hi Hopen b Hb) as (j & Hj & _). by exists j.
    + assert (end_writes g t a = commit_writes g (a_disk a) (txn_data t) (t_logged t)) as Ew.
      { unfold end_writes. by rewrite decide_False. }
      rewrite <- Ew. intros c' t' R W. wp_step. apply wp_acquire; [apply not_elem_of_nil|]. cbn [user held trace].
      do 4 wp_step. eapply wp_release; [reflexivity|]. cbn [user held trace]. unfold ls_upd. cbn [ls_log ls_cache].
      rewrite <- app_assoc. eapply HQ; [|by rewrite writes_app, W, app_nil_r].
      eapply log_inv_committed; [exact Hi|done|exact R|done|exact Hc'].
Qed.

Lemma l_end_op_wp g t Q w :
  log_rep g (user w) t -> held w = [] -> 1 <= t_out t ->
  (t_out t = 1 -> t_open t = ∅ /\ (length (t_logged t) < NBUFn)%nat) ->
  (forall s' tr, log_rep g s' (t_ended t) -> Q tt (World [] tr s')) ->
  wp end_op Q w.
Proof.
  intros [a Hi] Hh Hout Hlast HQ. destruct w as [h tr [c L]]. cbn in Hh. subst h.
  destruct (decide (t_out t = 1)) as [H1|H1].
  - destruct (Hlast H1) as [Hopen Hsz]. eapply end_op_last_wp; try done.
    intros s' t' a' Hi' _. apply HQ. by exists a'.
  - pose proof (li_log _ _ _ _ Hi) as Hc. cbn in Hc.
    unfold end_op. wp_step. apply wp_acquire; [apply not_elem_of_nil|]. cbn [user held trace].
    do 4 wp_step. cbn [ls_log]. rewrite (lc_comm _ _ _ Hc), (lc_out _ _ _ Hc). cbv iota.
    rewrite (proj2 (Z.eqb_neq _ _)) by lia. do 3 wp_step. eapply wp_release; [reflexivity|]. cbn [user held trace].
    wp_step. apply HQ. exists a. unfold t_ended. rewrite decide_False by done.
    destruct Hi. constructor; try done. destruct Hc. constructor; try done.
Qed.

(** ** The instance *)

Lemma log_rep_len g s t x d : log_rep g s t -> t_view t !! x = Some d -> length d = BSIZEn.
Proof. intros [a Hi] Hd. eapply view_len; [exact Hi|]. by eapply log_inv_view. Qed.

#[export] Instance log_store (g : log_geom) : BlockStore lstate := {
  bs_initlog := initlog;
  bs_limit := log_limit g;
  bs_rep := log_rep g;
  bs_bread dev x := zoom (bread dev x);
  bs_data i := zoom (bdata i);
  bs_set i d := zoom (bdata_set i d);
  bs_log_write := log_write;
  bs_brelse i := zoom (brelse i);
  bs_begin_op := begin_op;
  bs_end_op := end_op;
  bs_block_len := log_rep_len g;
  bs_bread_wp := l_bread_wp g;
  bs_data_wp := l_bdata_wp g;
  bs_set_wp := l_bset_wp g;
  bs_log_write_wp := l_log_write_wp g;
  bs_brelse_wp := l_brelse_wp g;
  bs_begin_op_wp := l_begin_op_wp g;
  bs_end_op_wp := l_end_op_wp g
}.

(** ** Operations that write nothing to the disk

    [quiet m]: running [m] adds only wakeups to the trace and leaves the disk
    alone. *)

Class HasDisk (S : Type) := disk_of : S -> gmap Z block.
#[export] Instance bcache_disk : HasDisk bcache := bc_disk.
#[export] Instance lstate_disk : HasDisk lstate := fun s => bc_disk (ls_cache s).

Definition quiet {S A} `{HasDisk S} (m : M S A) : Prop :=
  forall w a w', m w = Ret (a, w') ->
    (exists t, trace w' = trace w ++ t /\ writes t = []) /\ disk_of (user w') = disk_of (user w).

Section Quiet.
Context {S : Type} `{HasDisk S}.

Lemma quiet_silent {A} (m : M S A) :
  (forall w a w', m w = Ret (a, w') -> trace w' = trace w /\ disk_of (user w') = disk_of (user w)) -> quiet m.
Proof.
  intros Hm w a w' E. destruct (Hm _ _ _ E) as [Ht Hd]. split; [|done]. exists []. by rewrite app_nil_r.
Qed.

Lemma quiet_ret {A} (a : A) : quiet (ret a).
Proof. apply quiet_silent. by intros w ? ? [= <- <-]. Qed.
Lemma quiet_gets {A} (f : S -> A) : quiet (gets f).
Proof. apply quiet_silent. by intros w ? ? [= <- <-]. Qed.
Lemma quiet_panic {A} msg : quiet (panic msg : M S A).
Proof. by intros w a w'. Qed.
Lemma quiet_the {A} (o : option A) : quiet (the o).
Proof. destruct o; [apply quiet_ret|apply quiet_panic]. Qed.
Lemma quiet_wakeup c : quiet (wakeup c).
Proof. intros w a w' [= <- <-]. split; [|done]. by exists [EWakeup c]. Qed.
Lemma quiet_acquire l : quiet (acquire l).
Proof. apply quiet_silent. intros w a w'. unfold acquire. case_decide; [done|]. by intros [= <- <-]. Qed.
Lemma quiet_release l : quiet (release l).
Proof. apply quiet_silent. intros w a w'. unfold release. case_decide; [|done]. by intros [= <- <-]. Qed.
Lemma quiet_sleep {A} c l : quiet (sleep c l : M S A).
Proof. intros w a w'. unfold sleep. by case_decide. Qed.
Lemma quiet_modify f : (forall s, disk_of (f s) = disk_of s) -> quiet (modify f).
Proof. intros Hf. apply quiet_silent. intros w a w' [= <- <-]. cbn. auto. Qed.

Lemma quiet_bind {A B} (m : M S A) (k : A -> M S B) : quiet m -> (forall a, quiet (k a)) -> quiet (bind m k).
Proof.
  intros Hm Hk w b w'. unfold bind. destruct (m w) as [[a w1]| | |] eqn:E; try done. intros E'.
  destruct (Hm _ _ _ E) as [(t1 & T1 & W1) D1]. destruct (Hk _ _ _ _ E') as [(t2 & T2 & W2) D2].
  split; [|congruence]. exists (t1 ++ t2). rewrite T2, T1, <- app_assoc, writes_app, W1, W2. done.
Qed.

Lemma quiet_iter {A B} fuel (body : A -> M S (A + B)) a : (forall a, quiet (body a)) -> quiet (iter fuel body a).
Proof.
  intros Hb. revert a. induction fuel as [|n IH]; intros a; [by intros w ? ?|]. cbn [iter].
  apply quiet_bind; [apply Hb|]. intros [a'|b]; [apply IH|apply quiet_ret].
Qed.

Lemma quiet_if {A} (b : bool) (m m' : M S A) : quiet m -> quiet m' -> quiet (if b then m else m').
Proof. by destruct b. Qed.
Lemma quiet_dec {A} (P : Prop) `{Decision P} (m m' : M S A) : quiet m -> quiet m' -> quiet (if decide P then m else m').
Proof. intros. by case_decide. Qed.
End Quiet.

Lemma quiet_zoom {A} (m : M bcache A) : quiet m -> quiet (zoom m : M lstate A).
Proof.
  intros Hm w a w'. unfold zoom. destruct (m _) as [[b w1]| | |] eqn:E; try done. intros [= <- <-].
  by apply Hm in E.
Qed.

Create HintDb quiet.
#[export] Hint Resolve quiet_ret quiet_gets quiet_panic quiet_the quiet_wakeup quiet_acquire
  quiet_release quiet_sleep quiet_if quiet_dec quiet_zoom : quiet.
#[export] Hint Extern 1 (quiet (bind _ _)) => apply quiet_bind; [|intros ?] : quiet.
#[export] Hint Extern 1 (quiet (iter _ _ _)) => apply quiet_iter; intros ? : quiet.
#[export] Hint Extern 1 (quiet (modify _)) => apply quiet_modify; reflexivity : quiet.
#[export] Hint Extern 2 (quiet (match ?x with _ => _ end)) => destruct x : quiet.

Lemma quiet_getb i : quiet (getb i).
Proof. unfold getb. auto 10 with quiet. Qed.
Lemma quiet_setb i f : quiet (setb i f).
Proof. unfold setb. auto 10 with quiet. Qed.
#[export] Hint Resolve quiet_getb quiet_setb : quiet.

Lemma quiet_bread dev x : quiet (bread dev x).
Proof.
  unfold bread, bget, bget_cached, bget_unused, virtio_disk_rw, acquiresleep. auto 30 with quiet.
Qed.
Lemma quiet_bdata i : quiet (bdata i).
Proof. unfold bdata. auto 10 with quiet. Qed.
Lemma quiet_bdata_set i d : quiet (bdata_set i d).
Proof. unfold bdata_set. auto 10 with quiet. Qed.
Lemma quiet_brelse i : quiet (brelse i).
Proof. unfold brelse, holdingsleep, releasesleep, lru_to_front. auto 40 with quiet. Qed.
Lemma quiet_bpin i : quiet (bpin i).
Proof. unfold bpin. auto 10 with quiet. Qed.
#[export] Hint Resolve quiet_bread quiet_bdata quiet_bdata_set quiet_brelse quiet_bpin : quiet.
Lemma quiet_log_write i : quiet (log_write i).
Proof. unfold log_write. auto 30 with quiet. Qed.
Lemma quiet_begin_op : quiet begin_op.
Proof. unfold begin_op. auto 30 with quiet. Qed.
#[export] Hint Resolve quiet_log_write quiet_begin_op : quiet.

(** ** Transactions as programs

    What fs.c does between begin_op() and end_op(). *)

Inductive top :=
  | TBread (x : Z) | TData (i : nat) | TSet (i : nat) (d : block) | TLogWrite (i : nat) | TBrelse (i : nat).

Inductive tclient :=
  | TDone
  | TDo (o : top) (k : breply -> tclient).

Definition run_top (o : top) : M lstate breply :=
  match o with
  | TBread x => let* i := zoom (bread ROOTDEV x) in ret (RBuf i)
  | TData i => let* d := zoom (bdata i) in ret (RData d)
  | TSet i d => zoom (bdata_set i d) ;; ret RUnit
  | TLogWrite i => log_write i ;; ret RUnit
  | TBrelse i => zoom (brelse i) ;; ret RUnit
  end.

Fixpoint run_tclient (c : tclient) : M lstate unit :=
  match c with
  | TDone => ret tt
  | TDo o k => let* r := run_top o in run_tclient (k r)
  end.

Definition run_txn (c : tclient) : M lstate unit := begin_op ;; run_tclient c ;; end_op.

Definition tpre (g : log_geom) (t : tstate) (o : top) : Prop :=
  match o with
  | TBread x => can_open t x
  | TData i => exists x, t_open t !! x = Some i
  | TSet i d => length d = BSIZEn /\ exists x, t_open t !! x = Some i
  | TLogWrite i => (length (t_logged t) < log_limit g)%nat /\ exists x, t_open t !! x = Some i
  | TBrelse i => exists x, t_open t !! x = Some i /\ x ∉ t_dirty t
  end.

Inductive tpost (t : tstate) : top -> breply -> tstate -> Prop :=
  | TPBread x i : (forall y, t_open t !! y <> Some i) -> tpost t (TBread x) (RBuf i) (t_opened x i t)
  | TPData x i d : t_open t !! x = Some i -> t_view t !! x = Some d -> tpost t (TData i) (RData d) t
  | TPSet x i d : t_open t !! x = Some i -> tpost t (TSet i d) RUnit (t_modified x d t)
  | TPLogWrite x i : t_open t !! x = Some i -> tpost t (TLogWrite i) RUnit (t_wrote x t)
  | TPBrelse x i : t_open t !! x = Some i -> tpost t (TBrelse i) RUnit (t_closed x t).

(** The rules a transaction follows: every operation is allowed, and at the end
    every block is released and the cache can still serve the commit. *)
Fixpoint tsafe (g : log_geom) (t : tstate) (c : tclient) : Prop :=
  match c with
  | TDone => t_open t = ∅ /\ (length (t_logged t) < NBUFn)%nat
  | TDo o k => tpre g t o /\ forall r t', tpost t o r t' -> tsafe g t' (k r)
  end.

Inductive tspec : tstate -> tclient -> tstate -> Prop :=
  | TSpecDone t : tspec t TDone t
  | TSpecDo t o k r t' t'' : tpost t o r t' -> tspec t' (k r) t'' -> tspec t (TDo o k) t''.

Lemma tpost_out t o r t' : tpost t o r t' -> t_out t' = t_out t.
Proof. by destruct 1. Qed.
Lemma tspec_out t c t' : tspec t c t' -> t_out t' = t_out t.
Proof. induction 1 as [|t o k r t' t'' Hp _ IH]; [done|]. by rewrite IH, (tpost_out _ _ _ _ Hp). Qed.

Lemma tspec_safe g t c t' : tspec t c t' -> tsafe g t c -> t_open t' = ∅ /\ (length (t_logged t') < NBUFn)%nat.
Proof.
  induction 1 as [t|t o k r t' t'' Hp _ IH]; intros Hs; [done|]. destruct Hs as [_ Hs]. auto.
Qed.

(** Two open blocks have different buffers. *)
Lemma open_inj g s t x y i : log_rep g s t -> t_open t !! x = Some i -> t_open t !! y = Some i -> x = y.
Proof.
  intros [a Hi] Hx Hy.
  destruct (cell_open _ _ _ _ _ _ Hi Hx) as (dx & Hrx & _), (cell_open _ _ _ _ _ _ Hi Hy) as (dy & Hry & _).
  eapply bio_rep_inj; [apply Hi|done|done].
Qed.

Lemma run_top_wp g t o Q w :
  log_rep g (user w) t -> held w = [] -> 1 <= t_out t -> tpre g t o ->
  (forall r t' s' tr, tpost t o r t' -> log_rep g s' t' -> Q r (World [] tr s')) ->
  wp (run_top o) Q w.
Proof.
  intros Hrep Hh Hout Hpre HQ. destruct o; cbn in Hpre; cbn [run_top]; wp_step.
  - eapply l_bread_wp; [done|done|done|]. intros i s' tr R. wp_step. eapply HQ; [|exact R].
    constructor. intros y Hy. assert (y = x) as ->.
    { destruct (decide (y = x)) as [|Hne]; [done|]. eapply (open_inj _ _ _ _ _ i R); [|apply t_opened_eq].
      by rewrite t_opened_ne. }
    destruct Hpre as (_ & Hn & _). congruence.
  - destruct Hpre as [x Hx]. destruct Hrep as [a Hi].
    destruct (cell_open _ _ _ _ _ _ Hi Hx) as (d & _ & Hv & _).
    eapply l_bdata_wp; [by exists a|done|done|]. wp_step. destruct w as [h tr s]. cbn in Hh. subst h.
    eapply HQ; [by econstructor|]. by exists a.
  - destruct Hpre as [Hl [x Hx]]. eapply l_bset_wp; [done|done|done|done|]. intros s' tr R. wp_step.
    eapply HQ; [by econstructor|done].
  - destruct Hpre as [Hl [x Hx]]. eapply l_log_write_wp; [done|done|done|done|done|]. intros s' tr R. wp_step.
    eapply HQ; [by econstructor|done].
  - destruct Hpre as (x & Hx & Hd). eapply l_brelse_wp; [done|done|done|done|]. intros s' tr R. wp_step.
    eapply HQ; [by econstructor|done].
Qed.

Lemma run_tclient_wp g c t w :
  log_rep g (user w) t -> held w = [] -> 1 <= t_out t -> tsafe g t c ->
  wp (run_tclient c) (fun _ w' => held w' = [] /\ exists t', tspec t c t' /\ log_rep g (user w') t') w.
Proof.
  revert t w. induction c as [|o k IH]; intros t w Hrep Hh Hout Hs; cbn [run_tclient].
  - wp_step. split; [done|]. exists t. split; [constructor|done].
  - destruct Hs as [Hpre Hs]. wp_step. eapply run_top_wp; [done|done|done|done|].
    intros r t' s' tr Hpost Hrep'. eapply wp_mono; [apply (IH r t'); try done|].
    + by rewrite (tpost_out _ _ _ _ Hpost).
    + by apply Hs.
    + intros _ w' (Hh' & t'' & Hsp & Hr). split; [done|]. exists t''. split; [by econstructor|done].
Qed.

Lemma quiet_run_tclient c : quiet (run_tclient c).
Proof.
  induction c as [|o k IH]; cbn [run_tclient]; [auto with quiet|].
  apply quiet_bind; [|intros r; apply IH]. destruct o; cbn [run_top]; auto 10 with quiet.
Qed.

(** ** Crashes

    A crash keeps the blocks written so far; the next boot runs recovery, which
    may crash in turn. *)

Definition disk_after (t : list event) (d : gmap Z block) : gmap Z block := apply_writes (writes t) d.

Inductive crashes_to (g : log_geom) : gmap Z block -> gmap Z block -> Prop :=
  | ct_refl d : crashes_to g d d
  | ct_step d pid w k d' :
      boot_log g (World [] [] (boot_state d pid)) = Ret (tt, w) ->
      crashes_to g (disk_after (take k (trace w)) d) d' -> crashes_to g d d'.

(** After any number of interrupted recoveries, the next one succeeds and leaves a
    disk satisfying [P] and an idle log. *)
Definition recovers_to (g : log_geom) (d : gmap Z block) (P : gmap Z block -> Prop) : Prop :=
  forall d1 pid, crashes_to g d d1 ->
    wp (boot_log g) (fun _ w => P (disk_of (user w)) /\ held w = [] /\ lh_n (ls_log (user w)) = 0)
       (World [] [] (boot_state d1 pid)).

Lemma writes_take k t : writes (take k t) `prefix_of` writes t.
Proof. rewrite <- (take_drop k t) at 2. rewrite writes_app. by eexists. Qed.

Lemma bio_rep_disk s a : bio_rep s a -> bc_disk s = a_disk a.
Proof. by intros (_ & _ & <-). Qed.

Lemma boot_log_run g d pid :
  geom_ok g -> disk_ok g d ->
  exists w, boot_log g (World [] [] (boot_state d pid)) = Ret (tt, w) /\
    writes (trace w) = recovery_writes g d /\ held w = [] /\ lh_n (ls_log (user w)) = 0 /\
    disk_of (user w) = apply_writes (recovery_writes g d) d.
Proof.
  intros Hg Hd.
  destruct (wp_run (boot_log g) (fun _ w => writes (trace w) = recovery_writes g d /\ held w = [] /\
    lh_n (ls_log (user w)) = 0 /\ disk_of (user w) = apply_writes (recovery_writes g d) d)
    (World [] [] (boot_state d pid))) as ([] & w & Hrun & H).
  - eapply boot_log_wp; [done|done|]. intros c t L R W _ Hn _ _. refine (conj W (conj eq_refl (conj Hn _))).
    apply (bio_rep_disk _ _ R).
  - exists w. exact (conj Hrun H).
Qed.

Lemma crashes_replay g d d1 :
  geom_ok g -> disk_ok g d -> crashes_to g d d1 ->
  disk_ok g d1 /\ same_outside g (replay g d1) (replay g d).
Proof.
  intros Hg Hd Hc. revert Hd. induction Hc as [d|d pid w k d' Hrun _ IH]; intros Hd; [done|].
  destruct (boot_log_run g d pid Hg Hd) as (w' & Hrun' & W & _).
  rewrite Hrun in Hrun'. injection Hrun' as <-.
  pose proof (writes_take k (trace w)) as Hp. rewrite W in Hp.
  destruct (recovery_prefix g d _ Hg Hd Hp) as (H1 & H2 & _).
  destruct (IH H1) as [H3 H4]. split; [exact H3|]. intros x Hx. rewrite (H4 x Hx). exact (H2 x Hx).
Qed.

Lemma recovers_replay g d (P : gmap Z block -> Prop) :
  geom_ok g -> disk_ok g d -> (forall d', same_outside g d' (replay g d) -> P d') -> recovers_to g d P.
Proof.
  intros Hg Hd HP d1 pid Hc. destruct (crashes_replay _ _ _ Hg Hd Hc) as [Hd1 Hs].
  destruct (boot_log_run g d1 pid Hg Hd1) as (w & Hrun & _ & Hh & Hn & Hdisk).
  eapply wp_of_run; [exact Hrun|]. clear Hrun. split; [|done]. apply HP. rewrite Hdisk.
  destruct (recovery_prefix g d1 _ Hg Hd1 (reflexivity _)) as (_ & H2 & H3).
  destruct (log_empty_redo _ _ (H3 eq_refl)) as (_ & _ & Er).
  intros x Hx. rewrite <- Er, (H2 x Hx). by apply Hs.
Qed.

(** An idle log: no operation in progress, nothing logged, nothing open. *)
Definition t_idle (t : tstate) : Prop := t_open t = ∅ /\ t_logged t = [] /\ t_out t = 0.
Definition holds_view (g : log_geom) (v d : gmap Z block) : Prop := forall x, ~ in_log g x -> d !! x = v !! x.

Lemma run_txn_run g c t w :
  log_rep g (user w) t -> held w = [] -> t_idle t -> tsafe g (t_begun t) c ->
  exists w' evs t1 a, run_txn c w = Ret (tt, w') /\ trace w' = trace w ++ evs /\
    tspec (t_begun t) c t1 /\ log_rep g (user w') (t_ended t1) /\
    log_inv g (Lstate (ls_cache (user w)) (ls_log (user w))) t a /\
    exists s1 a1, log_inv g s1 t1 a1 /\ a_disk a1 = a_disk a /\ t_open t1 = ∅ /\ writes evs = end_writes g t1 a1.
Proof.
  intros Hrep Hh (Hopen & Hlog & Hout) Hs. pose proof Hrep as [a0 Hi0].
  destruct (wp_run begin_op (fun _ w1 => held w1 = [] /\ log_rep g (user w1) (t_begun t)) w)
    as ([] & w1 & E1 & Hh1 & R1).
  { eapply l_begin_op_wp; [done|done| |by intros]. rewrite Hlog, Hout. done. }
  destruct (wp_run _ _ _ (run_tclient_wp g c (t_begun t) w1 R1 Hh1 ltac:(cbn; lia) Hs))
    as ([] & w2 & E2 & Hh2 & t1 & Hsp & [a1 Hi1]).
  destruct (quiet_begin_op _ _ _ E1) as [(q1 & T1 & W1) D1].
  destruct (quiet_run_tclient c _ _ _ E2) as [(q2 & T2 & W2) D2].
  destruct (tspec_safe _ _ _ _ Hsp Hs) as [Hop1 Hsz1].
  pose proof (tspec_out _ _ _ Hsp) as Ho1. cbn in Ho1. rewrite Hout in Ho1.
  destruct (wp_run end_op (fun _ w3 => log_rep g (user w3) (t_ended t1) /\
     exists t', trace w3 = trace w2 ++ t' /\ writes t' = end_writes g t1 a1) w2) as ([] & w3 & E3 & R3 & t' & T3 & W3).
  { destruct w2 as [h2 tr2 s2]. cbn in Hh2, Hi1. subst h2. eapply end_op_last_wp; [exact Hi1|done|done|done|].
    intros s' t' a' Hi' W'. split; [by exists a'|]. by exists t'. }
  exists w3, (q1 ++ q2 ++ t'), t1, a0. split; [|split; [|split; [done|split; [done|split]]]].
  - unfold run_txn, bind. rewrite E1, E2. exact E3.
  - by rewrite T3, T2, T1, <- !app_assoc.
  - by destruct w as [? ? []].
  - exists (user w2), a1. split; [done|]. split.
    + rewrite <- (bio_rep_disk _ _ (li_bio _ _ _ _ Hi1)), <- (bio_rep_disk _ _ (li_bio _ _ _ _ Hi0)).
      etransitivity; [exact D2|exact D1].
    + split; [done|]. by rewrite !writes_app, W1, W2, W3.
Qed.

(** C1. A transaction is atomic with respect to crashes.  From an idle log, let a
    program that follows the rules of log.c run between begin_op() and end_op().
    It completes; and if the machine crashes after any prefix of what it sent to
    the disk - and again, any number of times, while recovering - then recovery
    succeeds, and leaves every block outside the log either with its contents
    before the transaction or, all together, with its contents after it. *)
Theorem txn_crash_atomic g c t w
    (Hrep : log_rep g (user w) t) (Hheld : held w = []) (Hidle : t_idle t)
    (Hsafe : tsafe g (t_begun t) c) :
  exists w' evs t1,
    run_txn c w = Ret (tt, w') /\ trace w' = trace w ++ evs /\
    tspec (t_begun t) c t1 /\ log_rep g (user w') (t_ended t1) /\
    forall k, let d := disk_after (take k evs) (disk_of (user w)) in
      recovers_to g d (holds_view g (t_view t)) \/ recovers_to g d (holds_view g (t_view t1)).
Proof.
  destruct (run_txn_run g c t w Hrep Hheld Hidle Hsafe)
    as (w' & evs & t1 & a & E & T & Hsp & R & Hi & s1 & a1 & Hi1 & Ed & Hop1 & W).
  exists w', evs, t1. refine (conj E (conj T (conj Hsp (conj R _)))). intros k.
  destruct Hidle as (Hopen & Hlog & _).
  assert (disk_of (user w) = a_disk a1) as Edisk.
  { rewrite Ed. apply (bio_rep_disk _ _ (li_bio _ _ _ _ Hi)). }
  pose proof (li_geom _ _ _ _ Hi1) as Hg. pose proof (writes_take k evs) as Hp. rewrite W in Hp.
  assert (forall x, ~ in_log g x -> a_disk a1 !! x = t_view t !! x) as Hold.
  { intros x Hx. rewrite Ed, <- (view_committed g _ t a Hi Hopen x Hx), Hlog. done. }
  cbn zeta. unfold disk_after. rewrite Edisk. unfold end_writes in Hp. case_decide as Hl.
  - apply prefix_nil_inv in Hp. rewrite Hp. left. apply recovers_replay; [done|apply Hi1|].
    intros d' Hd' x Hx. rewrite (Hd' x Hx), <- Hold by done. f_equal.
    by apply log_empty_redo, (li_empty _ _ _ _ Hi1).
  - pose proof (log_inv_txn _ _ _ _ Hi1 Hop1) as Htx.
    destruct (commit_prefix g _ _ _ Hg (li_disk _ _ _ _ Hi1) (li_empty _ _ _ _ Hi1) Htx _ Hp) as [Hok [Ho|Hn]].
    + left. apply recovers_replay; [done|done|]. intros d' Hd' x Hx. by rewrite (Hd' x Hx), (Ho x Hx), Hold.
    + right. apply recovers_replay; [done|done|]. intros d' Hd' x Hx.
      rewrite (Hd' x Hx), (Hn x Hx). by apply (view_committed g _ _ _ Hi1 Hop1).
Qed.

(** ** An idle log after boot *)

Definition idle_view (g : log_geom) (d : gmap Z block) : gmap Z block := filter (fun p => ~ in_log g p.1) d.
Definition idle_state (g : log_geom) (d : gmap Z block) : tstate := Tstate (idle_view g d) ∅ ∅ [] 0.

Lemma idle_view_lookup g d x : idle_view g d !! x = if decide (in_log g x) then None else d !! x.
Proof.
  unfold idle_view. case_decide as Hx.
  - apply map_lookup_filter_None. right. intros b _ Hn. by apply Hn.
  - destruct (d !! x) as [b|] eqn:E.
    + by apply map_lookup_filter_Some.
    + apply map_lookup_filter_None. by left.
Qed.

Lemma idle_rep g c L d pid :
  geom_ok g -> disk_ok g d -> log_empty g d -> (forall x, is_Some (d !! x) -> small_int x) ->
  bio_rep c (Acache ∅ d pid) -> log_at g L -> lh_n L = 0 -> lg_outstanding L = 0 -> lg_committing L = false ->
  log_rep g (Lstate c L) (idle_state g d).
Proof.
  intros Hg Hd He Hsm Hb Hat Hn Ho Hc. exists (Acache ∅ d pid).
  assert (forall x, a_refs (Acache ∅ d pid) !! x = None) as Hr by (intros x; apply lookup_empty).
  constructor; try done.
  - destruct Hg. constructor; try done; cbn; [lia|lia|constructor].
  - intros x. rewrite Hr. split; [apply lookup_empty|apply not_elem_of_nil].
  - intros x. rewrite (a_view_None _ _ (Hr x)). apply idle_view_lookup.
Qed.

(** Booting establishes the log's invariant: from any well-formed disk, whatever
    transaction its log holds, binit() and initlog() complete and leave the log
    idle, with every block outside the log at its recovered contents. *)
Theorem boot_log_idle g d pid
    (Hg : geom_ok g) (Hd : disk_ok g d) (Hsmall : forall x, is_Some (d !! x) -> small_int x) :
  wp (boot_log g)
     (fun _ w => held w = [] /\ exists d', log_rep g (user w) (idle_state g d') /\
                                       same_outside g d' (replay g d))
     (World [] [] (boot_state d pid)).
Proof.
  destruct (recovery_prefix g d _ Hg Hd (reflexivity _)) as (H1 & H2 & H3). specialize (H3 eq_refl).
  destruct (log_empty_redo _ _ H3) as (_ & _ & Er).
  eapply boot_log_wp; [done|done|]. intros c t L R W Hat Hn Ho Hc. split; [done|].
  exists (apply_writes (recovery_writes g d) d). split; [|by rewrite Er in H2].
  eapply idle_rep; try done. intros x Hx.
  destruct (decide (in_log g x)) as [Hin|Hni]; [apply Hsmall, Hd, Hin|].
  rewrite <- Er, (H2 x Hni) in Hx. unfold replay in Hx.
  destruct (decide (x ∈ (redo g d).*1)) as [Hr|Hr].
  - by apply redo_home, (dk_home _ _ Hd) in Hr as (? & _).
  - rewrite apply_writes_ne in Hx by done. by apply Hsmall.
Qed.

(** ** A disk of zeroes *)

Definition blank_disk (n : nat) : gmap Z block :=
  list_to_map ((fun i => (Z.of_nat i, replicate BSIZEn 0)) <$> seq 0 n).

Lemma blank_disk_lookup n x :
  blank_disk n !! x = if decide (0 <= x < Z.of_nat n) then Some (replicate BSIZEn 0) else None.
Proof.
  unfold blank_disk. case_decide as Hx.
  - apply elem_of_list_to_map_1.
    + rewrite <- list_fmap_compose. apply NoDup_fmap_2_strong; [|apply NoDup_seq].
      intros i j _ _. cbn. lia.
    + apply list_elem_of_fmap. exists (Z.to_nat x). split; [f_equal; lia|]. apply elem_of_seq. lia.
  - apply not_elem_of_list_to_map_1. rewrite <- list_fmap_compose. intros Hin.
    apply list_elem_of_fmap in Hin as (i & -> & Hi). apply elem_of_seq in Hi. cbn in Hx. lia.
Qed.

Lemma blank_disk_ok g n :
  geom_ok g -> g_logstart g + g_nlog g <= Z.of_nat n -> disk_ok g (blank_disk n) /\ log_empty g (blank_disk n).
Proof.
  intros [H1 H2 H3] Hn.
  assert (log_empty g (blank_disk n)) as He.
  { unfold log_empty, disk_head. rewrite blank_disk_lookup, decide_True by lia. done. }
  split; [|done]. constructor.
  - intros x b. rewrite blank_disk_lookup. case_decide; [|done]. intros Hb.
    assert (b = replicate BSIZEn 0) as -> by congruence. apply length_replicate.
  - intros x Hx. unfold in_log in Hx. rewrite blank_disk_lookup, decide_True by lia. by eexists.
  - by rewrite He.
  - rewrite He. lia.
  - destruct (log_empty_redo _ _ He) as (-> & _). intros b Hb. by apply not_elem_of_nil in Hb.
Qed.

Definition demo_geom : log_geom := LogGeom 2 5.

Lemma demo_geom_ok : geom_ok demo_geom.
Proof. by constructor. Qed.

Lemma blank_small n x : Z.of_nat n < 2 ^ 31 -> is_Some (blank_disk n !! x) -> small_int x.
Proof.
  intros Hn [b Hb]. rewrite blank_disk_lookup in Hb. case_decide; [|done]. unfold small_int. lia.
Qed.

Lemma boot_log_idle_witness :
  wp (boot_log demo_geom)
     (fun _ w => held w = [] /\ exists d', log_rep demo_geom (user w) (idle_state demo_geom d') /\
                    same_outside demo_geom d' (replay demo_geom (blank_disk 10)))
     (World [] [] (boot_state (blank_disk 10) 1)).
Proof.
  apply (boot_log_idle demo_geom (blank_disk 10) 1).
  - apply demo_geom_ok.
  - apply blank_disk_ok; [apply demo_geom_ok|cbn; lia].
  - intros x. apply blank_small. lia.
Defined.

(** The machine after booting from the blank disk. *)
Definition demo_boot : world lstate :=
  match boot_log demo_geom (World [] [] (boot_state (blank_disk 10) 1)) with
  | Ret (_, w) => w
  | _ => World [] [] (boot_state (blank_disk 10) 1)
  end.

Lemma demo_boot_idle :
  held demo_boot = [] /\ exists d, log_rep demo_geom (user demo_boot) (idle_state demo_geom d) /\
    forall x, ~ in_log demo_geom x -> d !! x = blank_disk 10 !! x.
Proof.
  destruct (blank_disk_ok demo_geom 10 demo_geom_ok ltac:(cbn; lia)) as [Hd He].
  destruct (recovery_prefix _ _ _ demo_geom_ok Hd (reflexivity _)) as (H1 & H2 & H3). specialize (H3 eq_refl).
  destruct (log_empty_redo _ _ H3) as (_ & _ & Er). destruct (log_empty_redo _ _ He) as (_ & Ew & Er0).
  set (Q := fun (_ : unit) (w : world lstate) => held w = [] /\ exists d, log_rep demo_geom (user w) (idle_state demo_geom d) /\
    forall x, ~ in_log demo_geom x -> d !! x = blank_disk 10 !! x).
  assert (wp (boot_log demo_geom) Q (World [] [] (boot_state (blank_disk 10) 1))) as Hwp.
  { eapply boot_log_wp; [apply demo_geom_ok|exact Hd|]. intros c t L R W Hat Hn Ho Hc. split; [done|].
    exists (apply_writes (recovery_writes demo_geom (blank_disk 10)) (blank_disk 10)). split.
    - eapply idle_rep; [apply demo_geom_ok|exact H1|exact H3| |exact R|exact Hat|exact Hn|exact Ho|exact Hc].
      intros x Hx.
      destruct (decide (in_log demo_geom x)) as [Hin|Hni]; [unfold in_log in Hin; cbn in Hin; unfold small_int; lia|].
      rewrite <- Er, (H2 x Hni), Er0 in Hx. apply (blank_small 10); [lia|exact Hx].
    - intros x Hx. by rewrite <- Er, (H2 x Hx), Er0. }
  destruct (wp_run _ _ _ Hwp) as ([] & w & Hrun & HQ). unfold demo_boot. rewrite Hrun. exact HQ.
Qed.

(** A transaction that overwrites block 8. *)
Definition demo_txn : tclient :=
  TDo (TBread 8) (fun r => match r with
    | RBuf i => TDo (TSet i (replicate BSIZEn 1)) (fun _ => TDo (TLogWrite i) (fun _ =>
                TDo (TBrelse i) (fun _ => TDone)))
    | _ => TDone
    end).

Lemma demo_txn_safe d :
  (forall x, ~ in_log demo_geom x -> d !! x = blank_disk 10 !! x) ->
  tsafe demo_geom (t_begun (idle_state demo_geom d)) demo_txn.
Proof.
  intros Hd. cbn [tsafe demo_txn]. split.
  { split; [|split; [done|right; by apply Nat.ltb_lt]]. cbn. rewrite idle_view_lookup, decide_False by (by intros []).
    rewrite Hd, blank_disk_lookup by (by intros []). by eexists. }
  intros r t1 Hp. inversion Hp; subst; clear Hp. cbn [tsafe]. split.
  { split; [apply length_replicate|]. exists 8. apply t_opened_eq. }
  assert (forall x j, t_open (t_opened 8 i (t_begun (idle_state demo_geom d))) !! x = Some j -> x = 8) as Hinj.
  { intros x j Hx. destruct (decide (x = 8)) as [|Hne]; [done|]. by rewrite t_opened_ne in Hx. }
  intros r t2 Hp. inversion Hp as [| |x j dd Hx| |]; subst; clear Hp. apply Hinj in Hx as ->. cbn [tsafe].
  split; [split; [by apply Nat.ltb_lt|exists 8; apply t_opened_eq]|].
  intros r t3 Hp. inversion Hp as [| | |x j Hx|]; subst; clear Hp. apply Hinj in Hx as ->. cbn [tsafe].
  split; [exists 8; split; [apply t_opened_eq|cbn; set_solver]|].
  intros r t4 Hp. inversion Hp as [| | | |x j Hx]; subst; clear Hp. apply Hinj in Hx as ->. cbn [tsafe].
  split; [|by apply Nat.ltb_lt].
  apply map_eq. intros x. rewrite lookup_empty. destruct (decide (x = 8)) as [->|Hne]; [apply t_closed_eq|].
  rewrite t_closed_ne by done. cbn. by rewrite lookup_insert_ne.
Qed.

Lemma txn_crash_atomic_witness :
  exists d w' evs t1,
    run_txn demo_txn demo_boot = Ret (tt, w') /\ trace w' = trace demo_boot ++ evs /\
    tspec (t_begun (idle_state demo_geom d)) demo_txn t1 /\ log_rep demo_geom (user w') (t_ended t1) /\
    forall k, let d0 := disk_after (take k evs) (disk_of (user demo_boot)) in
      recovers_to demo_geom d0 (holds_view demo_geom (idle_view demo_geom d)) \/
      recovers_to demo_geom d0 (holds_view demo_geom (t_view t1)).
Proof.
  destruct demo_boot_idle as (Hh & d & Hrep & Hd). exists d.
  apply (txn_crash_atomic demo_geom demo_txn (idle_state demo_geom d) demo_boot).
  - exact Hrep.
  - exact Hh.
  - refine (conj eq_refl (conj eq_refl eq_refl)).
  - apply demo_txn_safe. exact Hd.
Defined.
