(* ===== verification/LogSpace.v ===== *)
(** * Log space reservation (kernel/log.c: begin_op, log_write, end_op)

    begin_op() reserves MAXOPBLOCKS for each operation in progress.  This file
    shows that the reservation is enough: however the operations of different
    processes interleave, log_write() never finds LOGSIZE blocks in the log, as
    long as no operation logs more than MAXOPBLOCKS of them. *)

From S2P Require Import Prelude Machine Sleeplock Bio Store Log.

Open Scope Z_scope.

(** ** What a run does to [struct log] *)

(** [log_pres m]: [m] leaves [struct log] alone. *)
Definition log_pres {A} (m : M lstate A) : Prop :=
  forall w a w', m w = Ret (a, w') -> ls_log (user w') = ls_log (user w).

Lemma log_pres_zoom {A} (m : M bcache A) : log_pres (zoom m).
Proof.
  intros w a w'. unfold zoom. destruct (m _) as [[b w1]| | |]; try done. by intros [= <- <-].
Qed.
Lemma log_pres_ret {A} (a : A) : log_pres (ret a).
Proof. by intros w ? ? [= <- <-]. Qed.
Lemma log_pres_gets {A} (f : lstate -> A) : log_pres (gets f).
Proof. by intros w ? ? [= <- <-]. Qed.
Lemma log_pres_panic {A} msg : log_pres (panic msg : M lstate A).
Proof. by intros w a w'. Qed.
Lemma log_pres_the {A} (o : option A) : log_pres (the o).
Proof. destruct o; [apply log_pres_ret|apply log_pres_panic]. Qed.
Lemma log_pres_bind {A B} (m : M lstate A) (k : A -> M lstate B) :
  log_pres m -> (forall a, log_pres (k a)) -> log_pres (bind m k).
Proof.
  intros Hm Hk w b w'. unfold bind. destruct (m w) as [[a w1]| | |] eqn:E; try done. intros E'.
  by rewrite (Hk _ _ _ _ E'), (Hm _ _ _ E).
Qed.
Lemma log_pres_for_each {A} (l : list A) body : (forall a, log_pres (body a)) -> log_pres (for_each l body).
Proof.
  intros Hb. induction l as [|a l IH]; [apply log_pres_ret|]. by apply log_pres_bind.
Qed.
Lemma log_pres_if {A} (b : bool) (m m' : M lstate A) : log_pres m -> log_pres m' -> log_pres (if b then m else m').
Proof. by destruct b. Qed.
Lemma log_pres_dec {A} (P : Prop) `{Decision P} (m m' : M lstate A) :
  log_pres m -> log_pres m' -> log_pres (if decide P then m else m').
Proof. intros. by case_decide. Qed.

Create HintDb logpres.
#[export] Hint Resolve log_pres_zoom log_pres_ret log_pres_gets log_pres_panic log_pres_the
  log_pres_if log_pres_dec : logpres.
#[export] Hint Extern 1 (log_pres (bind _ _)) => apply log_pres_bind; [|intros ?] : logpres.
#[export] Hint Extern 1 (log_pres (for_each _ _)) => apply log_pres_for_each; intros ? : logpres.

Lemma log_pres_write_head : log_pres write_head.
Proof. unfold write_head. auto 20 with logpres. Qed.
Lemma log_pres_write_log : log_pres write_log.
Proof. unfold write_log, write_log_one, log_block. auto 30 with logpres. Qed.
Lemma log_pres_install rec : log_pres (install_trans rec).
Proof. unfold install_trans, install_one, log_block. auto 30 with logpres. Qed.

(** Inversion of a run of a sequence. *)
Lemma bind_Ret {S A B} (m : M S A) (k : A -> M S B) w b w' :
  bind m k w = Ret (b, w') -> exists a w1, m w = Ret (a, w1) /\ k a w1 = Ret (b, w').
Proof. unfold bind. destruct (m w) as [[a w1]| | |]; try done. eauto. Qed.

Lemma acquire_Ret {S} l (w w' : world S) u : acquire l w = Ret (u, w') -> user w' = user w.
Proof. unfold acquire. case_decide; [done|]. by intros [= <- <-]. Qed.
Lemma release_Ret {S} l (w w' : world S) u : release l w = Ret (u, w') -> user w' = user w.
Proof. unfold release. case_decide; [|done]. by intros [= <- <-]. Qed.

Lemma sleep_Ret {S A} c l (w w' : world S) (a : A) : sleep c l w <> Ret (a, w').
Proof. unfold sleep. by destruct (decide (held w = [l])). Qed.

Ltac inv_bind H :=
  let a := fresh "r" in let w := fresh "w" in let E := fresh "E" in
  apply bind_Ret in H as (a & w & E & H).

Lemma begin_op_Ret w w' :
  begin_op w = Ret (tt, w') ->
  lh_n (ls_log (user w)) + (lg_outstanding (ls_log (user w)) + 1) * MAXOPBLOCKS <= LOGSIZE /\
  ls_log (user w') = lg_set_outstanding (lg_outstanding (ls_log (user w)) + 1) (ls_log (user w)).
Proof.
  unfold begin_op. intros H. inv_bind H. apply acquire_Ret in E. inv_bind H. injection E0 as <- <-.
  rewrite E in H. destruct (lg_committing _); [by apply sleep_Ret in H|].
  destruct (_ >? _) eqn:Eg; [by apply sleep_Ret in H|].
  inv_bind H. injection E0 as <- <-. apply release_Ret in H. rewrite H. cbn. rewrite E.
  split; [|done]. rewrite Z.gtb_ltb in Eg. apply Z.ltb_ge in Eg. done.
Qed.

Lemma log_write_Ret i w w' :
  log_write i w = Ret (tt, w') ->
  exists bl d, (d = 0 \/ d = 1) /\
  ls_log (user w') = lg_set_n (lh_n (ls_log (user w)) + d) (lg_set_block bl (ls_log (user w))).
Proof.
  unfold log_write. intros H. inv_bind H. apply acquire_Ret in E. inv_bind H. injection E0 as <- <-.
  rewrite E in H. destruct (_ || _); [done|]. destruct (_ <? 1); [done|]. inv_bind H.
  apply log_pres_zoom in E0. inv_bind H. injection E1 as <- <-.
  inv_bind H. apply release_Ret in H. rewrite H. destruct (Z.of_nat _ =? _).
  - inv_bind E1. apply log_pres_zoom in E2. injection E1 as <- <-. cbn. rewrite E2. cbn. rewrite E0, E.
    eexists _, 1. split; [by right|]. done.
  - injection E1 as <- <-. cbn. rewrite E0, E. eexists _, 0. split; [by left|].
    rewrite Z.add_0_r. reflexivity.
Qed.

Lemma commit_Ret w w' u :
  commit w = Ret (u, w') -> 0 <= lh_n (ls_log (user w)) ->
  ls_log (user w') = lg_set_n 0 (ls_log (user w)).
Proof.
  unfold commit. intros H Hn. inv_bind H. injection E as <- <-. destruct (_ >? 0) eqn:Eg.
  - inv_bind H. apply log_pres_write_log in E. inv_bind H. apply log_pres_write_head in E0.
    inv_bind H. apply log_pres_install in E1. inv_bind H. injection E2 as <- <-.
    apply log_pres_write_head in H. rewrite H. cbn. by rewrite E1, E0, E.
  - injection H as _ <-. rewrite Z.gtb_ltb in Eg. apply Z.ltb_ge in Eg.
    assert (lh_n (ls_log (user w)) = 0) as E by lia. rewrite <- E. by destruct (ls_log (user w)).
Qed.

Lemma end_op_Ret w w' (L := ls_log (user w)) :
  end_op w = Ret (tt, w') -> 0 <= lh_n L ->
  ls_log (user w') =
    if lg_outstanding L - 1 =? 0 then lg_set_committing false (lg_set_n 0 (lg_set_outstanding 0 L))
    else lg_set_outstanding (lg_outstanding L - 1) L.
Proof.
  unfold end_op. intros H Hn. inv_bind H. apply acquire_Ret in E. inv_bind H. injection E0 as <- <-.
  inv_bind H. injection E0 as <- <-. rewrite E in H. fold L in H. destruct (lg_committing L); [done|].
  inv_bind H. inv_bind H. apply release_Ret in E1.
  destruct (lg_outstanding L - 1 =? 0) eqn:Eo.
  - injection E0 as <- <-. inv_bind H. apply commit_Ret in E0; [|rewrite E1; exact Hn].
    inv_bind H. apply acquire_Ret in E2. inv_bind H. injection E3 as <- <-. inv_bind H. injection E3 as <- <-.
    apply release_Ret in H. rewrite H. cbn. rewrite E2, E0, E1. cbn. apply Z.eqb_eq in Eo. fold L.
    by rewrite Eo.
  - injection E0 as <- <-. injection H as <-. rewrite E1. done.
Qed.

(** ** Interleaved operations

    [uses] says, for each operation in progress, how many times it has called
    log_write().  Every step is a run of the code, on whatever CPU. *)

Definition MAXOPn : nat := Z.to_nat MAXOPBLOCKS.

Inductive reach (sz : Z) : lstate -> gmap Z nat -> Prop :=
  | reach_init s : lh_n (ls_log s) = 0 -> lg_outstanding (ls_log s) = 0 -> lg_size (ls_log s) = sz -> reach sz s ∅
  | reach_begin p uses w w' :
      reach sz (user w) uses -> uses !! p = None -> begin_op w = Ret (tt, w') ->
      reach sz (user w') (<[p := 0%nat]> uses)
  | reach_write p u uses i w w' :
      reach sz (user w) uses -> uses !! p = Some u -> (u < MAXOPn)%nat -> log_write i w = Ret (tt, w') ->
      reach sz (user w') (<[p := S u]> uses)
  | reach_end p u uses w w' :
      reach sz (user w) uses -> uses !! p = Some u -> end_op w = Ret (tt, w') ->
      reach sz (user w') (delete p uses)
  | reach_cache c s uses : reach sz s uses -> reach sz (Lstate c (ls_log s)) uses.

(** What the operations in progress may still log. *)
Definition remaining (uses : gmap Z nat) : nat := map_fold (fun _ u n => (MAXOPn - u + n)%nat) 0%nat uses.

Lemma remaining_insert p u uses :
  uses !! p = None -> remaining (<[p := u]> uses) = (MAXOPn - u + remaining uses)%nat.
Proof. intros Hp. unfold remaining. rewrite map_fold_insert_L; [done| |done]. intros. lia. Qed.

Lemma remaining_delete p u uses :
  uses !! p = Some u -> remaining uses = (MAXOPn - u + remaining (delete p uses))%nat.
Proof.
  intros Hp. rewrite <- (insert_delete_id uses p u Hp) at 1. apply remaining_insert, lookup_delete_eq.
Qed.

Lemma remaining_le uses : (remaining uses <= MAXOPn * size uses)%nat.
Proof.
  induction uses as [|p u uses Hp IH] using map_ind; [done|].
  rewrite remaining_insert, map_size_insert_None by done. lia.
Qed.

(** The space invariant. *)
Record space_ok (sz : Z) (s : lstate) (uses : gmap Z nat) : Prop := SpaceOk {
  so_size : lg_size (ls_log s) = sz;
  so_out : lg_outstanding (ls_log s) = Z.of_nat (size uses);
  so_pos : 0 <= lh_n (ls_log s);
  so_room : lh_n (ls_log s) + Z.of_nat (remaining uses) <= LOGSIZE
}.

Lemma reach_space sz s uses : reach sz s uses -> space_ok sz s uses.
Proof.
  assert (Z.of_nat MAXOPn = MAXOPBLOCKS) as HM by done.
  induction 1 as [s Hn Ho Hs|p uses w w' _ IH Hp Hr|p u uses i w w' _ IH Hp Hu Hr|p u uses w w' _ IH Hp Hr|c s uses _ IH].
  - constructor; [done|by rewrite Ho|lia|]. rewrite Hn. done.
  - destruct (begin_op_Ret _ _ Hr) as [Hg E]. destruct IH as [I1 I2 I3 I4].
    pose proof (remaining_le uses).
    constructor; rewrite E; cbn; [done| |done|].
    + rewrite map_size_insert_None by done. lia.
    + rewrite remaining_insert by done. unfold MAXOPBLOCKS in *. lia.
  - destruct (log_write_Ret _ _ _ Hr) as (bl & d & Hd & E). destruct IH as [I1 I2 I3 I4].
    rewrite (remaining_delete _ _ _ Hp) in I4.
    constructor; rewrite E; cbn; [done| |lia|].
    + rewrite map_size_insert, Hp. done.
    + rewrite <- insert_delete_eq, remaining_insert by (apply lookup_delete_eq). lia.
  - destruct IH as [I1 I2 I3 I4]. rewrite (remaining_delete _ _ _ Hp) in I4.
    assert (size uses = S (size (delete p uses))) as Hsz.
    { rewrite <- (map_size_insert_None p u (delete p uses)), insert_delete_id; [done|done|apply lookup_delete_eq]. }
    pose proof (end_op_Ret _ _ Hr I3) as E. destruct (Z.eqb_spec (lg_outstanding (ls_log (user w)) - 1) 0) as [Ho|Ho].
    + constructor; rewrite E; cbn; [done|lia|lia|].
      assert (remaining (delete p uses) <= MAXOPn * size (delete p uses))%nat by apply remaining_le.
      unfold LOGSIZE, MAXOPBLOCKS. nia.
    + constructor; rewrite E; cbn; [done|lia|done|lia].
  - destruct IH. by constructor.
Qed.

(** [never msg m]: [m] does not panic with message [msg]. *)
Definition never {S A} (msg : string) (m : M S A) : Prop := forall w, m w <> Panic msg.
Arguments never {S A} msg%_string_scope m.

Section Never.
Context {S : Type} (msg : string).

Lemma never_bind {A B} (m : M S A) (k : A -> M S B) : never msg m -> (forall a, never msg (k a)) -> never msg (bind m k).
Proof.
  intros Hm Hk w. unfold bind. specialize (Hm w). destruct (m w) as [[a w1]| | |]; try done; [apply Hk|congruence].
Qed.
Lemma never_acquire l : msg <> "acquire"%string -> never msg (acquire l : M S unit).
Proof. intros H w. unfold acquire. case_decide; [|done]. intros E. injection E as E. by apply H. Qed.
Lemma never_release l : msg <> "release"%string -> never msg (release l : M S unit).
Proof. intros H w. unfold release. case_decide; [done|]. intros E. injection E as E. by apply H. Qed.
Lemma never_the {A} (o : option A) : msg <> "wild pointer"%string -> never msg (the o : M S A).
Proof. intros H w. destruct o; [done|]. intros E. injection E as E. by apply H. Qed.
Lemma never_panic {A} m : msg <> m -> never msg (panic m : M S A).
Proof. intros H w. intros E. injection E as E. by apply H. Qed.
Lemma never_ret {A} (a : A) : never msg (ret a : M S A).
Proof. done. Qed.
Lemma never_gets {A} (f : S -> A) : never msg (gets f).
Proof. done. Qed.
Lemma never_modify f : never msg (modify f : M S unit).
Proof. done. Qed.
End Never.

Lemma never_zoom {A} msg (m : M bcache A) : never msg m -> never msg (zoom m : M lstate A).
Proof. intros Hm w. unfold zoom. specialize (Hm (World (held w) (trace w) (lget (user w)))).
  destruct (m _) as [[a w1]| | |]; try done. congruence.
Qed.

Create HintDb never.
#[export] Hint Resolve never_acquire never_release never_the never_panic never_ret never_gets never_modify never_zoom : never.
#[export] Hint Extern 1 (never _ (bind _ _)) => apply never_bind; [|intros ?] : never.
#[export] Hint Extern 2 (never _ (match ?x with _ => _ end)) => destruct x : never.
#[export] Hint Extern 1 (_ <> _ :> string) => discriminate : never.

Lemma log_write_room i w :
  lh_n (ls_log (user w)) < LOGSIZE -> lh_n (ls_log (user w)) < lg_size (ls_log (user w)) - 1 ->
  log_write i w <> Panic "too big a transaction".
Proof.
  intros H1 H2. unfold log_write. unfold bind at 1. destruct (acquire LLog w) as [[[] w1]| | |] eqn:E; try done.
  - apply acquire_Ret in E. unfold bind at 1, gets. rewrite E.
    rewrite (proj2 (orb_false_iff _ _)) by (rewrite !Z.geb_leb, !Z.leb_gt; lia). cbv iota.
    revert w1 E. generalize (ls_log (user w)) as L. intros L w1 _.
    enough (never "too big a transaction" (if lg_outstanding L <? 1 then panic "log_write outside of trans" else
      let* x := zoom (getb i) in
      modify (ls_upd (lg_set_block (<[log_find (b_blockno x) (lh_block L) (Z.to_nat (lh_n L)) 0 := s32 (b_blockno x)]> (lh_block L)))) ;;
      (if Z.of_nat (log_find (b_blockno x) (lh_block L) (Z.to_nat (lh_n L)) 0) =? lh_n L
       then zoom (bpin i) ;; modify (ls_upd (lg_set_n (lh_n L + 1))) else ret tt) ;;
      release LLog)) as H by (apply H).
    unfold getb, bpin, setb. auto 20 with never.
  - pose proof (never_acquire (S := lstate) "too big a transaction" LLog ltac:(discriminate) w) as Hn. congruence.
Qed.


(** Two operations in progress, the first of which has not logged anything yet. *)
Definition demo_log (out : Z) : logrec := Logrec 2 32 out false ROOTDEV 0 (replicate LOGSIZEn 0).
Definition demo_cache : bcache := boot_cache ∅ 1.

Lemma demo_reach : reach 32 (Lstate demo_cache (demo_log 2)) (<[2 := 0%nat]> (<[1 := 0%nat]> ∅)).
Proof.
  apply (reach_begin 32 2 (<[1 := 0%nat]> ∅) (World [] [] (Lstate demo_cache (demo_log 1)))
           (World [] [] (Lstate demo_cache (demo_log 2)))); [|done|reflexivity].
  apply (reach_begin 32 1 ∅ (World [] [] (Lstate demo_cache (demo_log 0)))
           (World [] [] (Lstate demo_cache (demo_log 1)))); [|done|reflexivity].
  by apply reach_init.
Qed.


(** ** The bound on the log size is needed *)

Lemma reach_writes sz p bufs u uses w w' :
  reach sz (user w) uses -> uses !! p = Some u -> (u + length bufs <= MAXOPn)%nat ->
  for_each bufs log_write w = Ret (tt, w') ->
  reach sz (user w') (<[p := (u + length bufs)%nat]> uses).
Proof.
  revert u uses w. induction bufs as [|i bufs IH]; intros u uses w Hr Hp Hu H; cbn [for_each length] in *.
  - injection H as <-. by rewrite Nat.add_0_r, insert_id.
  - apply bind_Ret in H as ([] & w1 & E & H).
    replace (u + S (length bufs))%nat with (S u + length bufs)%nat by lia.
    rewrite <- (insert_insert_eq uses p (S u + length bufs)%nat (S u)). eapply IH; [|apply lookup_insert_eq|lia|exact H].
    by eapply reach_write; [exact Hr|exact Hp|lia|exact E].
Qed.

(** Thirty cached blocks, numbered like their buffers. *)
Definition full_cache : bcache :=
  Bcache ((fun i => Buf true false ROOTDEV (100 + Z.of_nat i) unlocked 1 0 0 []) <$> seq 0 (S NBUFn)) ∅ 1.
Definition tight_log (sz out : Z) : lstate := Lstate full_cache (Logrec 2 sz out false ROOTDEV 0 (replicate LOGSIZEn 0)).

(** The world after logging the blocks of some buffers. *)
Definition after_writes (bufs : list nat) (w : world lstate) : world lstate :=
  match for_each bufs log_write w with Ret (_, w') => w' | _ => w end.

(** C19. With an on-disk log of LOGSIZE blocks, header included, the reservation is
    one block short: three operations may be in progress together, the third
    having logged fewer than MAXOPBLOCKS blocks, and the next log_write() stops
    the kernel with "too big a transaction". *)
Theorem log_reservation_tight :
  exists s uses, reach LOGSIZE s uses /\ uses !! 3 = Some 9%nat /\ (9 < MAXOPn)%nat /\
    log_write 29 (World [] [] s) = Panic "too big a transaction".
Proof.
  set (w1 := after_writes (seq 0 10) (World [] [] (tight_log LOGSIZE 3))).
  set (w2 := after_writes (seq 10 10) w1).
  set (w3 := after_writes (seq 20 9) w2).
  assert (reach LOGSIZE (tight_log LOGSIZE 3) (<[3 := 0%nat]> (<[2 := 0%nat]> (<[1 := 0%nat]> ∅)))) as H0.
  { apply (reach_begin LOGSIZE 3 _ (World [] [] (tight_log LOGSIZE 2)) (World [] [] (tight_log LOGSIZE 3))); [|done|reflexivity].
    apply (reach_begin LOGSIZE 2 _ (World [] [] (tight_log LOGSIZE 1)) (World [] [] (tight_log LOGSIZE 2))); [|done|reflexivity].
    apply (reach_begin LOGSIZE 1 _ (World [] [] (tight_log LOGSIZE 0)) (World [] [] (tight_log LOGSIZE 1))); [|done|reflexivity].
    by apply reach_init. }
  pose proof (reach_writes LOGSIZE 1 (seq 0 10) 0 _ (World [] [] (tight_log LOGSIZE 3)) w1 H0 eq_refl
    ltac:(by apply Nat.leb_le) ltac:(vm_compute; reflexivity)) as H1.
  pose proof (reach_writes LOGSIZE 2 (seq 10 10) 0 _ w1 w2 H1 ltac:(vm_compute; reflexivity)
    ltac:(by apply Nat.leb_le) ltac:(vm_compute; reflexivity)) as H2.
  pose proof (reach_writes LOGSIZE 3 (seq 20 9) 0 _ w2 w3 H2 ltac:(vm_compute; reflexivity)
    ltac:(by apply Nat.leb_le) ltac:(vm_compute; reflexivity)) as H3.
  eexists _, _. split; [exact H3|]. split; [vm_compute; reflexivity|]. split; [by apply Nat.ltb_lt|].
  vm_compute. reflexivity.
Qed.
