(* ===== verification/CString.v ===== *)
(** * C strings (kernel/string.c, user/ulib.c)

    The string functions on a [char*] as functions on the bytes from the pointer
    to the end of its object; [None] is an access past the end of the object.
    [cut n s] is the string in a field of [n] bytes: the bytes before the first
    NUL or the end of the field. *)

From S2P Require Import Prelude.

Open Scope Z_scope.

(** ** kernel/string.c *)

Fixpoint memcmp (s1 s2 : list Z) (n : nat) {struct n} : option Z :=
  match n with
  | O => Some 0
  | S n' =>
      match s1, s2 with
      | a :: t1, b :: t2 => if negb (a =? b) then Some (a - b) else memcmp t1 t2 n'
      | _, _ => None
      end
  end.

Fixpoint strncmp (p q : list Z) (n : nat) {struct n} : option Z :=
  match n with
  | O => Some 0
  | S n' =>
      match p with
      | a :: p' =>
          if a =? 0 then match q with b :: _ => Some (a - b) | [] => None end
          else match q with
               | b :: q' => if a =? b then strncmp p' q' n' else Some (a - b)
               | [] => None
               end
      | [] => None
      end
  end.

(** The bytes strncpy() stores at [s]: [n] of them. *)
Fixpoint strncpy (t : list Z) (n : nat) {struct n} : option (list Z) :=
  match n with
  | O => Some []
  | S n' =>
      match t with
      | [] => None
      | c :: t' => if c =? 0 then Some (0 :: replicate n' 0)
                   else match strncpy t' n' with Some r => Some (c :: r) | None => None end
      end
  end.

(** The loop of safestrcpy(), [n] being the room left before the final NUL. *)
Fixpoint safestrcpy_loop (t : list Z) (n : nat) {struct n} : option (list Z) :=
  match n with
  | O => Some [0]
  | S n' =>
      match t with
      | [] => None
      | c :: t' => if c =? 0 then Some [0; 0]
                   else match safestrcpy_loop t' n' with Some r => Some (c :: r) | None => None end
      end
  end.

(** The bytes safestrcpy() stores at [s]. *)
Definition safestrcpy (t : list Z) (n : Z) : option (list Z) :=
  if n <=? 0 then Some [] else safestrcpy_loop t (Z.to_nat (n - 1)).

Fixpoint strlen (s : list Z) : option nat :=
  match s with
  | [] => None
  | c :: t => if c =? 0 then Some 0%nat else match strlen t with Some n => Some (S n) | None => None end
  end.

(** ** user/ulib.c *)

(** strlen() and memcmp() have the text of the kernel's; a [char] is unsigned on RISC-V. *)
Definition u_strlen : list Z -> option nat := strlen.
Definition u_memcmp : list Z -> list Z -> nat -> option Z := memcmp.

(** The bytes strcpy() stores, the NUL included. *)
Fixpoint u_strcpy (t : list Z) : option (list Z) :=
  match t with
  | [] => None
  | c :: t' => if c =? 0 then Some [0] else match u_strcpy t' with Some r => Some (c :: r) | None => None end
  end.

Fixpoint u_strcmp (p q : list Z) : option Z :=
  match p, q with
  | a :: p', b :: q' => if negb (a =? 0) && (a =? b) then u_strcmp p' q' else Some (a - b)
  | _, _ => None
  end.

(** The suffix strchr() points at, or [Some None] for the null pointer. *)
Fixpoint u_strchr (s : list Z) (c : Z) : option (option (list Z)) :=
  match s with
  | [] => None
  | x :: t => if x =? 0 then Some None else if x =? c then Some (Some s) else u_strchr t c
  end.

Fixpoint atoi_loop (s : list Z) (n : Z) : option Z :=
  match s with
  | [] => None
  | c :: t => if (48 <=? c) && (c <=? 57) then atoi_loop t (s32 (s32 (s32 (n * 10) + c) - 48)) else Some n
  end.
Definition atoi (s : list Z) : option Z := atoi_loop s 0.

(** ** The string in a field *)

Fixpoint cut (n : nat) (s : list Z) : list Z :=
  match n, s with
  | S n', c :: t => if c =? 0 then [] else c :: cut n' t
  | _, _ => []
  end.

(** [s] may be read up to [n] bytes: it is that long, or has a NUL before. *)
Fixpoint readable (n : nat) (s : list Z) : bool :=
  match n, s with
  | O, _ => true
  | S _, [] => false
  | S n', c :: t => (c =? 0) || readable n' t
  end.

Lemma readable_length n s : (n <= length s)%nat -> readable n s = true.
Proof.
  revert s. induction n as [|n IH]; intros [|c s] H; cbn in *; [done|done|lia|].
  rewrite IH by lia. apply orb_true_r.
Qed.

Lemma cut_length n s : (length (cut n s) <= n)%nat.
Proof.
  revert s. induction n as [|n IH]; intros [|c s]; cbn; try lia. destruct (c =? 0); cbn; [lia|].
  specialize (IH s). lia.
Qed.

Lemma cut_no_nul n s : 0 ∉ cut n s.
Proof.
  revert s. induction n as [|n IH]; intros [|c s]; cbn; try apply not_elem_of_nil.
  destruct (Z.eqb_spec c 0); [apply not_elem_of_nil|]. apply not_elem_of_cons. split; [lia|apply IH].
Qed.

(** strncmp() compares the strings in two fields of [n] bytes. *)
Lemma strncmp_spec n p q :
  readable n p = true -> readable n q = true ->
  exists r, strncmp p q n = Some r /\ (r = 0 <-> cut n p = cut n q).
Proof.
  revert p q. induction n as [|n IH]; intros p q Hp Hq; cbn in *; [by exists 0|].
  destruct p as [|a p]; [done|]. destruct q as [|b q]; [done|].
  destruct (Z.eqb_spec a 0) as [->|Ha].
  - exists (0 - b). split; [done|]. destruct (Z.eqb_spec b 0) as [->|Hb]; [done|]. split; [lia|done].
  - destruct (Z.eqb_spec a b) as [<-|Hab].
    + destruct (Z.eqb_spec a 0) as [|_]; [done|]. cbn in Hp, Hq. destruct (IH p q Hp Hq) as (r & -> & Hr).
      exists r. split; [done|]. rewrite Hr. split; [by intros ->|]. by intros [= ->].
    + exists (a - b). split; [done|]. split; [lia|]. destruct (b =? 0); [done|]. intros [= E _]. lia.
Qed.

(** strncpy() stores the string, padded with NULs to [n] bytes. *)
Lemma strncpy_spec n t :
  readable n t = true -> strncpy t n = Some (cut n t ++ replicate (n - length (cut n t)) 0).
Proof.
  revert t. induction n as [|n IH]; intros t Ht; cbn in *; [done|]. destruct t as [|c t]; [done|].
  destruct (c =? 0); cbn in Ht |- *; [done|]. by rewrite IH.
Qed.

Lemma cut_pad n s m : (length s <= n)%nat -> 0 ∉ s -> cut n (s ++ replicate m 0) = s.
Proof.
  revert s. induction n as [|n IH]; intros [|c s] Hl Hz; cbn in *; try done; try lia.
  - by destruct m.
  - apply not_elem_of_cons in Hz as [Hc Hz]. rewrite (proj2 (Z.eqb_neq _ _)) by lia. by rewrite IH by (try lia; done).
Qed.

Lemma strncpy_cut n t r : readable n t = true -> strncpy t n = Some r -> length r = n /\ cut n r = cut n t.
Proof.
  intros Ht. rewrite strncpy_spec by done. intros [= <-]. pose proof (cut_length n t). split.
  - rewrite length_app, length_replicate. lia.
  - apply cut_pad; [done|apply cut_no_nul].
Qed.

(** safestrcpy() stores at most [n] bytes, and the field then holds the string cut
    to [n - 1] bytes, NUL-terminated. *)
Lemma safestrcpy_spec n t :
  readable n t = true ->
  exists r, safestrcpy t (Z.of_nat (S n)) = Some r /\ (length r <= S n)%nat /\
            exists k, r = cut n t ++ 0 :: replicate k 0.
Proof.
  intros Ht. unfold safestrcpy. rewrite (proj2 (Z.leb_gt _ _)) by lia.
  replace (Z.to_nat (Z.of_nat (S n) - 1)) with n by lia.
  revert t Ht. induction n as [|n IH]; intros t Ht; cbn in *.
  - exists [0]. split; [done|]. split; [cbn; lia|]. exists 0%nat. by destruct t.
  - destruct t as [|c t]; [done|]. destruct (c =? 0); cbn in Ht.
    + exists [0; 0]. split; [done|]. split; [cbn; lia|]. by exists 1%nat.
    + destruct (IH t Ht) as (r & -> & Hl & k & ->). eexists. split; [done|]. split; [cbn in *; lia|]. by exists k.
Qed.

Lemma strlen_spec s : 0 ∈ s -> strlen s = Some (length (cut (length s) s)).
Proof.
  induction s as [|c s IH]; intros H; [by apply not_elem_of_nil in H|]. cbn.
  destruct (Z.eqb_spec c 0) as [->|Hc]; [done|]. rewrite IH by set_solver. done.
Qed.
