(* ===== verification/Printf.v ===== *)
(** * Formatted output (kernel/printf.c, user/printf.c)

    The characters printf() sends to the console or to a file descriptor, as a
    function of the format and its arguments.  The bytes of a format and of a
    string argument run to the end of their object; reading past it, or a
    va_arg() that does not match the argument, is [None]. *)

From S2P Require Import Prelude Machine CString.

Open Scope Z_scope.

Inductive arg := AInt (z : Z) | ALong (z : Z) | AStr (s : option (list Z)).

Definition va_int (ap : list arg) : option (Z * list arg) :=
  match ap with AInt z :: t => Some (z, t) | _ => None end.
Definition va_long (ap : list arg) : option (Z * list arg) :=
  match ap with ALong z :: t => Some (z, t) | _ => None end.
Definition va_str (ap : list arg) : option (option (list Z) * list arg) :=
  match ap with AStr s :: t => Some (s, t) | _ => None end.

(** The kernel's [digits] are lower case, the user library's upper case. *)
Definition digit (upper : bool) (d : Z) : Z :=
  if d <? 10 then 48 + d else if upper then 55 + d else 87 + d.

(** [do { buf[i++] = digits[x % base]; } while((x /= base) != 0);]: what buf
    holds, least significant digit first. *)
Fixpoint digits_loop (fuel : nat) (upper : bool) (x base : Z) : option (list Z) :=
  match fuel with
  | O => None
  | S n => let d := digit upper (x mod base) in
           if x / base =? 0 then Some [d]
           else match digits_loop n upper (x / base) base with Some r => Some (d :: r) | None => None end
  end.

(** Sixteen turns: the size of [buf]. *)
Definition printint (upper : bool) (xx base : Z) (sign : bool) : option (list Z) :=
  let neg := sign && (xx <? 0) in
  let x := if neg then u32 (- xx) else u32 xx in
  match digits_loop 16 upper x base with
  | None => None
  | Some buf => Some (rev (if neg then buf ++ [45] else buf))
  end.

Fixpoint ptr_loop (n : nat) (upper : bool) (x : Z) : list Z :=
  match n with
  | O => []
  | S n' => digit upper (Z.shiftr x 60) :: ptr_loop n' upper (u64 (Z.shiftl x 4))
  end.
Definition printptr (upper : bool) (x : Z) : list Z := 48 :: 120 :: ptr_loop 16 upper x.

(** The loop that prints a string up to its NUL. *)
Fixpoint put_str (s : list Z) : option (list Z) :=
  match s with
  | [] => None
  | c :: t => if c =? 0 then Some [] else match put_str t with Some r => Some (c :: r) | None => None end
  end.
(** The string "(null)". *)
Definition str_null : list Z := [40; 110; 117; 108; 108; 41; 0].

Definition prepend (o : option (list Z)) (k : option (list Z)) : option (list Z) :=
  match o, k with Some a, Some b => Some (a ++ b) | _, _ => None end.

(** kernel/printf.c: printf() *)
Fixpoint kprintf (fmt : list Z) (ap : list arg) : option (list Z) :=
  match fmt with
  | [] => None
  | c :: fmt' =>
      if c =? 0 then Some [] else
      if negb (c =? 37) then prepend (Some [c]) (kprintf fmt' ap) else
      match fmt' with
      | [] => None
      | c :: fmt'' =>
          if c =? 0 then Some [] else
          if c =? 100 then                                        (* d *)
            match va_int ap with
            | Some (z, ap) => prepend (printint false z 10 true) (kprintf fmt'' ap) | None => None end
          else if c =? 120 then                                   (* x *)
            match va_int ap with
            | Some (z, ap) => prepend (printint false z 16 true) (kprintf fmt'' ap) | None => None end
          else if c =? 112 then                                   (* p *)
            match va_long ap with
            | Some (z, ap) => prepend (Some (printptr false z)) (kprintf fmt'' ap) | None => None end
          else if c =? 115 then                                   (* s *)
            match va_str ap with
            | Some (s, ap) => prepend (put_str (default str_null s)) (kprintf fmt'' ap) | None => None end
          else if c =? 37 then prepend (Some [37]) (kprintf fmt'' ap)
          else prepend (Some [37; c]) (kprintf fmt'' ap)
      end
  end.

(** user/printf.c: vprintf(), with [state] true after a percent sign. *)
Fixpoint vprintf (fmt : list Z) (ap : list arg) (state : bool) : option (list Z) :=
  match fmt with
  | [] => None
  | c :: fmt' =>
      if c =? 0 then Some [] else
      if negb state then
        if c =? 37 then vprintf fmt' ap true else prepend (Some [c]) (vprintf fmt' ap false)
      else if c =? 100 then                                       (* d *)
        match va_int ap with
        | Some (z, ap) => prepend (printint true z 10 true) (vprintf fmt' ap false) | None => None end
      else if c =? 108 then                                       (* l *)
        match va_long ap with
        | Some (z, ap) => prepend (printint true (s32 z) 10 false) (vprintf fmt' ap false) | None => None end
      else if c =? 120 then                                       (* x *)
        match va_int ap with
        | Some (z, ap) => prepend (printint true z 16 false) (vprintf fmt' ap false) | None => None end
      else if c =? 112 then                                       (* p *)
        match va_long ap with
        | Some (z, ap) => prepend (Some (printptr true z)) (vprintf fmt' ap false) | None => None end
      else if c =? 115 then                                       (* s *)
        match va_str ap with
        | Some (s, ap) => prepend (put_str (default str_null s)) (vprintf fmt' ap false) | None => None end
      else if c =? 99 then                                        (* c *)
        match va_int ap with
        | Some (z, ap) => prepend (Some [u8 z]) (vprintf fmt' ap false) | None => None end
      else if c =? 37 then prepend (Some [37]) (vprintf fmt' ap false)
      else prepend (Some [37; c]) (vprintf fmt' ap false)
  end.

(** A string literal as its bytes and the final NUL. *)
Fixpoint lit_bytes (s : string) : list Z :=
  match s with
  | EmptyString => []
  | String c t => Z.of_N (Ascii.N_of_ascii c) :: lit_bytes t
  end.
Definition lit (s : string) : list Z := lit_bytes s ++ [0].
Arguments lit s%_string_scope.

(** Kernel code printing: the characters go to the console. *)
Definition printf {S} (fmt : string) (ap : list arg) : M S unit :=
  let* out := the (kprintf (lit fmt) ap) in
  for_each out (fun c => emit (EPutc c)).
Arguments printf {S} fmt%_string_scope ap.
(** ... with a format that ends in a newline. *)
Definition printf_ln {S} (fmt : string) (ap : list arg) : M S unit := printf fmt ap ;; emit (EPutc 10).
Arguments printf_ln {S} fmt%_string_scope ap.

(** ** Numbers *)

Definition dval (n : Z) (ds : list Z) : Z := fold_left (fun n d => n * 10 + d) ds n.

Lemma dval_snoc n ds d : dval n (ds ++ [d]) = dval n ds * 10 + d.
Proof. unfold dval. by rewrite fold_left_app. Qed.

Lemma digits_loop_spec k fuel upper x base :
  2 <= base -> 0 <= x < base ^ Z.of_nat (S k) -> (k < fuel)%nat ->
  exists ds, digits_loop fuel upper x base = Some (digit upper <$> ds) /\ (0 < length ds <= S k)%nat /\
    Forall (fun d => 0 <= d < base) ds /\ (head (rev ds) = Some 0 -> ds = [0]) /\ (base = 10 -> dval 0 (rev ds) = x) /\
    (x = 0 <-> ds = [0]).
Proof.
  intros Hb. revert fuel x. induction k as [|k IH]; intros fuel x Hx Hf; (destruct fuel as [|fuel]; [lia|]); cbn [digits_loop].
  all: pose proof (Z.mod_pos_bound x base ltac:(lia)) as Hm.
  all: destruct (Z.eqb_spec (x / base) 0) as [E|E].
  1, 3: assert (x mod base = x) as Em by (apply Z.mod_small; apply Z.div_small_iff in E; lia); rewrite Em;
        exists [x]; split; [done|]; split; [cbn; lia|]; split; [repeat constructor; lia|];
        split; [cbn; congruence|]; split; [intros; cbn; lia|split; congruence].
  - exfalso. apply E. apply Z.div_small. change (Z.of_nat 1) with 1 in Hx. rewrite Z.pow_1_r in Hx. lia.
  - rewrite Nat2Z.inj_succ, Z.pow_succ_r in Hx by lia.
    destruct (IH fuel (x / base)) as (ds & -> & Hl & Hds & Hlast & Hv & Hz); [|lia|].
    { split; [apply Z.div_pos; lia|]. apply Z.div_lt_upper_bound; lia. }
    exists (x mod base :: ds). split; [done|]. split; [cbn; lia|]. split; [by constructor|]. split; [|split].
    + intros HL. exfalso. apply E, Hz, Hlast. cbn [rev] in HL.
      destruct (rev ds) as [|d r] eqn:Er; [|exact HL].
      apply (f_equal (@length Z)) in Er. rewrite length_rev in Er. cbn in Er. lia.
    + intros Hb10. cbn [rev]. rewrite dval_snoc, Hv by done. subst base. pose proof (Z.div_mod x 10). lia.
    + split; [|intros [= ? ->]; cbn in Hl; lia]. intros ->. exfalso. apply E. by apply Z.div_0_l; lia.
Qed.

Lemma mod_s32 z : s32 z mod 2 ^ 32 = z mod 2 ^ 32.
Proof.
  unfold s32. rewrite Zminus_mod_idemp_l. f_equal. lia.
Qed.

Lemma s32_eq a b : a mod 2 ^ 32 = b mod 2 ^ 32 -> s32 a = s32 b.
Proof.
  intros E. unfold s32. f_equal. rewrite (Zplus_mod a), (Zplus_mod b), E. done.
Qed.

Lemma atoi_digits ds n :
  Forall (fun d => 0 <= d < 10) ds -> atoi_loop ((Z.add 48 <$> ds) ++ [0]) (s32 n) = Some (s32 (dval n ds)).
Proof.
  intros Hds. revert n. induction Hds as [|d ds Hd _ IH]; intros n; [done|].
  cbn [fmap list_fmap app atoi_loop]. rewrite (proj2 (Z.leb_le 48 _)), (proj2 (Z.leb_le _ 57)) by lia. cbn [andb].
  replace (s32 (s32 (s32 (s32 n * 10) + (48 + d)) - 48)) with (s32 (n * 10 + d)); [apply IH|].
  apply s32_eq. rewrite Zminus_mod, mod_s32, <- Zminus_mod.
  replace (s32 (s32 n * 10) + (48 + d) - 48) with (s32 (s32 n * 10) + d) by lia.
  rewrite (Zplus_mod (s32 _)), mod_s32, Zmult_mod, mod_s32, <- Zmult_mod, <- Zplus_mod. done.
Qed.

Lemma digit_dec upper ds : Forall (fun d => 0 <= d < 10) ds -> digit upper <$> ds = Z.add 48 <$> ds.
Proof.
  intros H. apply list_fmap_ext. intros i d Hi. rewrite Forall_lookup in H. specialize (H i d Hi).
  unfold digit. by rewrite (proj2 (Z.ltb_lt _ _)) by lia.
Qed.

Lemma u32_abs xx : - 2 ^ 31 <= xx < 2 ^ 31 -> (if xx <? 0 then u32 (- xx) else u32 xx) = Z.abs xx.
Proof. intros H. destruct (Z.ltb_spec xx 0); rewrite u32_small by lia; lia. Qed.

(** C40. printint() in base 10, in the kernel and in the user library: for every
    int, INT_MIN included, it prints a minus sign exactly for negative numbers
    and then at most ten decimal digits with no leading zero, from which atoi()
    reads the number's magnitude back; eleven characters fit in the 16 bytes of
    its buffer. *)
Theorem printint_correct (upper : bool) (xx : Z) :
  - 2 ^ 31 <= xx < 2 ^ 31 ->
  exists ds, printint upper xx 10 true = Some ((if xx <? 0 then [45] else []) ++ ds) /\
    (0 < length ds <= 10)%nat /\ Forall (fun c => 48 <= c <= 57) ds /\
    (head ds = Some 48 -> ds = [48]) /\ atoi (ds ++ [0]) = Some (s32 (Z.abs xx)).
Proof.
  intros Hxx. unfold printint. cbn [andb]. rewrite (u32_abs xx Hxx).
  destruct (digits_loop_spec 9 16 upper (Z.abs xx) 10) as (ds & -> & Hl & Hds & Hlast & Hv & Hz); [lia..|].
  rewrite (digit_dec upper ds Hds). exists (Z.add 48 <$> rev ds).
  assert (rev (Z.add 48 <$> ds) = Z.add 48 <$> rev ds) as Hrev by apply (eq_sym (map_rev (Z.add 48) ds)).
  split; [|split; [|split; [|split]]].
  - destruct (xx <? 0); [by rewrite rev_app_distr, Hrev|by rewrite Hrev].
  - rewrite length_fmap, length_rev. lia.
  - apply Forall_fmap, Forall_rev. eapply List.Forall_impl; [|exact Hds]. intros d Hd. cbn in *. lia.
  - intros Hh. assert (head (rev ds) = Some 0) as H0.
    { destruct (rev ds) as [|d r]; [done|]. cbn in Hh |- *. injection Hh as Hh. f_equal. lia. }
    by rewrite (Hlast H0).
  - unfold atoi. change 0 with (s32 0) at 2. rewrite atoi_digits by (by apply Forall_rev). by rewrite (Hv eq_refl).
Qed.

Lemma printint_correct_witness :
  exists ds, printint false (- 2147483648) 10 true = Some ((if - 2147483648 <? 0 then [45] else []) ++ ds) /\
    (0 < length ds <= 10)%nat /\ Forall (fun c => 48 <= c <= 57) ds /\
    (head ds = Some 48 -> ds = [48]) /\ atoi (ds ++ [0]) = Some (s32 (Z.abs (- 2147483648))).
Proof. apply (printint_correct false (- 2147483648)). lia. Defined.

(** ** The two printf()s *)

(** The characters that follow a percent sign in [fmt]. *)
Fixpoint directives (fmt : list Z) (state : bool) : list Z :=
  match fmt with
  | [] => []
  | c :: t => if c =? 0 then [] else
              if state then c :: directives t false else directives t (c =? 37)
  end.

Definition same_directive (c : Z) : Prop := c <> 120 /\ c <> 112 /\ c <> 108 /\ c <> 99.

Lemma digits_loop_case fuel x : digits_loop fuel true x 10 = digits_loop fuel false x 10.
Proof.
  revert x. induction fuel as [|n IH]; intros x; cbn [digits_loop]; [done|]. rewrite IH.
  assert (digit true (x mod 10) = digit false (x mod 10)) as ->; [|done].
  pose proof (Z.mod_pos_bound x 10 ltac:(lia)). unfold digit. by rewrite (proj2 (Z.ltb_lt _ _)) by lia.
Qed.

Lemma kprintf_vprintf n fmt ap :
  (length fmt < n)%nat -> Forall same_directive (directives fmt false) -> vprintf fmt ap false = kprintf fmt ap.
Proof.
  revert fmt ap. induction n as [|n IH]; intros fmt ap Hn Hd; [lia|].
  destruct fmt as [|c fmt]; [done|]. cbn [vprintf kprintf directives length] in *.
  destruct (c =? 0); [done|]. cbn [negb] in *.
  destruct (c =? 37) eqn:Ec; cbn [negb] in *; [|by rewrite IH by (try lia; done)].
  destruct fmt as [|d fmt]; [done|]. cbn [vprintf kprintf directives length negb] in *.
  destruct (d =? 0); [done|]. apply Forall_cons_1 in Hd as [(H1 & H2 & H3 & H4) Hd].
  apply Z.eqb_neq in H1, H2, H3, H4. rewrite H1, H2, H3, H4.
  assert (forall ap, vprintf fmt ap false = kprintf fmt ap) as IH' by (intros; apply IH; [lia|done]).
  repeat case_match; simplify_eq; try done; unfold printint; rewrite ?digits_loop_case, ?IH'; done.
Qed.

(** The kernel's printf(), which looks one character ahead, and the user
    library's vprintf(), which is a state machine, print the same characters for
    every format whose directives are not %x, %p, %l or %c (on those four they
    differ: hexadecimal sign and case, and the two the kernel does not know). *)
Theorem printf_agree (fmt : list Z) (ap : list arg) :
  Forall same_directive (directives fmt false) -> vprintf fmt ap false = kprintf fmt ap.
Proof. apply (kprintf_vprintf (S (length fmt))). lia. Qed.

Lemma printf_agree_witness :
  vprintf (lit "%d %s%%") [AInt (-5); AStr (Some [104; 105; 0])] false =
  kprintf (lit "%d %s%%") [AInt (-5); AStr (Some [104; 105; 0])].
Proof. apply (printf_agree (lit "%d %s%%")). vm_compute. repeat constructor; discriminate. Defined.
