(* ===== verification/FsDisk.v ===== *)
(** * On-disk layout (kernel/fs.h, kernel/stat.h)

    Superblock, bitmap bits, disk inodes and directory entries as bytes of a
    block, with the round trips between the structures and their bytes. *)

From S2P Require Import Prelude Machine Bio Store.

Open Scope Z_scope.

(** ** Integers inside a block *)

Definition get_u (n off : nat) (d : block) : Z := le_val (slice off n d).
Definition put_u (n off : nat) (v : Z) (d : block) : block := splice off (le_bytes n v) d.

Definition get_u32 := get_u 4.
Definition put_u32 := put_u 4.
Definition get_u16 := get_u 2.
Definition get_s16 (off : nat) (d : block) : Z := s16 (get_u 2 off d).
Definition put_u16 := put_u 2.

(** ** struct superblock *)

Record superblock := Superblock {
  sb_magic : Z;
  sb_size : Z;
  sb_nblocks : Z;
  sb_ninodes : Z;
  sb_nlog : Z;
  sb_logstart : Z;
  sb_inodestart : Z;
  sb_bmapstart : Z
}.

(** What readsb() copies. *)
Definition sb_decode (d : block) : superblock :=
  Superblock (get_u32 0 d) (get_u32 4 d) (get_u32 8 d) (get_u32 12 d)
             (get_u32 16 d) (get_u32 20 d) (get_u32 24 d) (get_u32 28 d).

Definition IBLOCK (i : Z) (sb : superblock) : Z := i / IPB + sb_inodestart sb.
Definition BBLOCK (b : Z) (sb : superblock) : Z := b / BPB + sb_bmapstart sb.

(** ** struct dinode *)

Definition T_DIR : Z := 1.
Definition T_FILE : Z := 2.
Definition T_DEVICE : Z := 3.

Record dinode := Dinode {
  d_type : Z;
  d_major : Z;
  d_minor : Z;
  d_nlink : Z;
  d_size : Z;
  d_addrs : list Z
}.

(** The byte offset of the slot of inode [inum] in its block. *)
Definition dinode_off (inum : Z) : nat := Z.to_nat (inum mod IPB * DINODE_SIZE).

Definition NADDRS : nat := Z.to_nat (NDIRECT + 1).

Definition get_words (off n : nat) (d : block) : list Z := (fun i => get_u32 (off + 4 * i) d) <$> seq 0 n.
Fixpoint put_words (off : nat) (ws : list Z) (d : block) : block :=
  match ws with
  | [] => d
  | w :: t => put_words (off + 4) t (put_u32 off w d)
  end.

Definition get_dinode (off : nat) (d : block) : dinode :=
  Dinode (get_s16 off d) (get_s16 (off + 2) d) (get_s16 (off + 4) d) (get_s16 (off + 6) d)
         (get_u32 (off + 8) d) (get_words (off + 12) NADDRS d).

Definition put_dinode (off : nat) (di : dinode) (d : block) : block :=
  put_words (off + 12) (d_addrs di)
    (put_u32 (off + 8) (d_size di)
      (put_u16 (off + 6) (d_nlink di)
        (put_u16 (off + 4) (d_minor di)
          (put_u16 (off + 2) (d_major di)
            (put_u16 off (d_type di) d))))).

(** ** Bitmap *)

(** [bp->data[bi/8] & (1 << (bi%8))] *)
Definition bm_mask (bi : Z) : Z := Z.shiftl 1 (bi mod 8).
Definition bm_byte (d : block) (bi : Z) : Z := nth (Z.to_nat (bi / 8)) d 0.
Definition bm_used (d : block) (bi : Z) : bool := negb (Z.land (bm_byte d bi) (bm_mask bi) =? 0).
Definition bm_set (d : block) (bi : Z) : block :=
  <[Z.to_nat (bi / 8) := u8 (Z.lor (bm_byte d bi) (bm_mask bi))]> d.
Definition bm_clear (d : block) (bi : Z) : block :=
  <[Z.to_nat (bi / 8) := u8 (Z.land (bm_byte d bi) (Z.lnot (bm_mask bi)))]> d.

(** ** struct dirent *)

Record dirent := Dirent { de_inum : Z; de_name : list Z }.
Definition DIRSIZn : nat := Z.to_nat DIRSIZ.
Definition DIRENT_SIZE : Z := 2 + DIRSIZ.
Definition dirent_decode (bs : list Z) : dirent := Dirent (le_val (slice 0 2 bs)) (slice 2 DIRSIZn bs).
Definition dirent_encode (de : dirent) : list Z := le_bytes 2 (de_inum de) ++ de_name de.

(** ** Round trips *)

Lemma length_put_u n off v d : (off + n <= length d)%nat -> length (put_u n off v d) = length d.
Proof. intros. unfold put_u. apply length_splice. by rewrite length_le_bytes. Qed.

Lemma get_put_u_eq n off v d :
  (off + n <= length d)%nat -> get_u n off (put_u n off v d) = v mod 256 ^ Z.of_nat n.
Proof.
  intros Hl. unfold get_u, put_u.
  replace n with (length (le_bytes n v)) at 1 by apply length_le_bytes.
  rewrite slice_splice_same by (by rewrite length_le_bytes). apply le_val_bytes.
Qed.

Lemma get_put_u_ne m o n off v d :
  (off + n <= length d)%nat -> (o + m <= length d)%nat -> (o + m <= off \/ off + n <= o)%nat ->
  get_u m o (put_u n off v d) = get_u m o d.
Proof.
  intros. unfold get_u, put_u. by rewrite slice_splice_disj by (rewrite ?length_le_bytes; lia).
Qed.

Definition word (v : Z) : Prop := 0 <= v < 2 ^ 32.
#[export] Instance word_dec v : Decision (word v).
Proof. unfold word. apply _. Defined.
Definition short (v : Z) : Prop := - 2 ^ 15 <= v < 2 ^ 15.
#[export] Instance short_dec v : Decision (short v).
Proof. unfold short. apply _. Defined.

Lemma get_put_u32 off v d : (off + 4 <= length d)%nat -> word v -> get_u32 off (put_u32 off v d) = v.
Proof.
  intros Hl Hv. unfold get_u32, put_u32. rewrite get_put_u_eq by done. apply Z.mod_small. exact Hv.
Qed.

Lemma s16_mod v : short v -> s16 (v mod 2 ^ 16) = v.
Proof.
  unfold short, s16. intros Hv. rewrite Zplus_mod_idemp_l, Z.mod_small by lia. lia.
Qed.

Lemma get_put_s16 off v d : (off + 2 <= length d)%nat -> short v -> get_s16 off (put_u16 off v d) = v.
Proof.
  intros Hl Hv. unfold get_s16, put_u16. rewrite get_put_u_eq by done. by apply s16_mod.
Qed.

Lemma length_put_words off ws d :
  (off + 4 * length ws <= length d)%nat -> length (put_words off ws d) = length d.
Proof.
  revert off d. induction ws as [|w ws IH]; intros off d H; cbn [put_words length] in *; [done|].
  unfold put_u32. rewrite IH; rewrite length_put_u; lia.
Qed.

Lemma get_put_words_ne m o off ws d :
  (off + 4 * length ws <= length d)%nat -> (o + m <= length d)%nat -> (o + m <= off)%nat ->
  get_u m o (put_words off ws d) = get_u m o d.
Proof.
  revert off d. induction ws as [|w ws IH]; intros off d H Ho Hd; cbn [put_words length] in *; [done|].
  unfold put_u32. rewrite IH; [|rewrite length_put_u; lia..|lia]. apply get_put_u_ne; lia.
Qed.

Lemma get_put_words_ge m o off ws d :
  (off + 4 * length ws <= length d)%nat -> (o + m <= length d)%nat -> (off + 4 * length ws <= o)%nat ->
  get_u m o (put_words off ws d) = get_u m o d.
Proof.
  revert off d. induction ws as [|w ws IH]; intros off d H Ho Hd; cbn [put_words length] in *; [done|].
  unfold put_u32. rewrite IH; [|rewrite length_put_u; lia..|lia]. apply get_put_u_ne; lia.
Qed.

Lemma get_put_word off ws d j w :
  (off + 4 * length ws <= length d)%nat -> Forall word ws -> ws !! j = Some w ->
  get_u32 (off + 4 * j) (put_words off ws d) = w.
Proof.
  intros Hl Hw E. revert off j d Hl E.
  induction Hw as [|v ws Hv _ IH]; intros off j d Hl E; [done|]. cbn [put_words length] in *.
  destruct j as [|j]; cbn [lookup list_lookup] in E.
  - injection E as <-. rewrite Nat.mul_0_r, Nat.add_0_r. unfold get_u32, put_u32.
    rewrite get_put_words_ne by (rewrite ?length_put_u; lia). apply (get_put_u32 off v d); [lia|done].
  - replace (off + 4 * S j)%nat with (off + 4 + 4 * j)%nat by lia. apply IH; [|done].
    unfold put_u32. rewrite length_put_u; lia.
Qed.

Lemma get_put_words off ws d :
  (off + 4 * length ws <= length d)%nat -> Forall word ws ->
  get_words off (length ws) (put_words off ws d) = ws.
Proof.
  intros Hl Hw. apply list_eq. intros j. unfold get_words. rewrite list_lookup_fmap.
  destruct (ws !! j) as [w|] eqn:E.
  - pose proof (lookup_lt_Some _ _ _ E). rewrite lookup_seq_lt by done. cbn [fmap option_fmap option_map].
    f_equal. by apply get_put_word.
  - rewrite lookup_seq_ge; [done|]. by apply lookup_ge_None.
Qed.

Record dinode_ok (di : dinode) : Prop := DinodeOk {
  do_type : short (d_type di);
  do_major : short (d_major di);
  do_minor : short (d_minor di);
  do_nlink : short (d_nlink di);
  do_size : word (d_size di);
  do_addrs : Forall word (d_addrs di);
  do_len : length (d_addrs di) = NADDRS
}.

Section DinodeRoundTrip.
Context (off : nat) (di : dinode) (d : block).
Hypothesis Hoff : (off + 64 <= length d)%nat.
Hypothesis Hdi : dinode_ok di.

Lemma length_put_dinode : length (put_dinode off di d) = length d.
Proof.
  unfold put_dinode, put_u32, put_u16. destruct Hdi as [_ _ _ _ _ _ Hl]. unfold NADDRS, NDIRECT in Hl.
  rewrite length_put_words; repeat rewrite length_put_u; rewrite ?length_put_u; lia.
Qed.

Ltac du := repeat first [rewrite length_put_u | lia].

(** A structure stored in its slot is read back. *)
Lemma get_put_dinode : get_dinode off (put_dinode off di d) = di.
Proof.
  destruct Hdi as [H1 H2 H3 H4 H5 H6 Hl]. unfold NADDRS, NDIRECT in Hl.
  assert (forall m o, (o + m <= off + 12)%nat -> get_u m o (put_dinode off di d) =
    get_u m o (put_u32 (off + 8) (d_size di) (put_u16 (off + 6) (d_nlink di) (put_u16 (off + 4) (d_minor di)
          (put_u16 (off + 2) (d_major di) (put_u16 off (d_type di) d)))))) as Hw.
  { intros m o Ho. unfold put_dinode. apply get_put_words_ne; unfold put_u32, put_u16; du. }
  destruct di as [ty mj mn nl sz ads] eqn:E. rewrite <- E in *. unfold get_dinode, get_s16, get_u32.
  rewrite !Hw by lia. subst di. cbn [d_type d_major d_minor d_nlink d_size d_addrs] in *. unfold put_u32, put_u16. f_equal.
  - rewrite !(get_put_u_ne 2 off) by du. rewrite get_put_u_eq by du. by apply s16_mod.
  - rewrite !(get_put_u_ne 2 (off + 2)) by du. rewrite get_put_u_eq by du. by apply s16_mod.
  - rewrite !(get_put_u_ne 2 (off + 4)) by du. rewrite get_put_u_eq by du. by apply s16_mod.
  - rewrite !(get_put_u_ne 2 (off + 6)) by du. rewrite get_put_u_eq by du. by apply s16_mod.
  - rewrite get_put_u_eq by du. by apply Z.mod_small.
  - replace NADDRS with (length ads) by done. unfold put_dinode. cbn [d_addrs].
    apply get_put_words; [unfold put_u32, put_u16; du|done].
Qed.

(** ... and no other slot changes. *)
Lemma get_put_dinode_ne off' :
  (off' + 64 <= length d)%nat -> (off' + 64 <= off \/ off + 64 <= off')%nat ->
  get_dinode off' (put_dinode off di d) = get_dinode off' d.
Proof.
  intros Ho Hne. destruct Hdi as [_ _ _ _ _ _ Hl]. unfold NADDRS, NDIRECT in Hl.
  assert (forall m o, (off' <= o)%nat -> (o + m <= off' + 64)%nat -> get_u m o (put_dinode off di d) = get_u m o d) as Hw.
  { intros m o Ho1 Ho2. unfold put_dinode, put_u32, put_u16. destruct Hne.
    - rewrite get_put_words_ne by du. rewrite !get_put_u_ne by du. done.
    - rewrite get_put_words_ge by du. rewrite !get_put_u_ne by du. done. }
  unfold get_dinode, get_s16, get_u32. rewrite !Hw by lia. f_equal.
  unfold get_words, get_u32. apply list_fmap_ext. intros i x Hx. apply lookup_seq in Hx as [-> Hx].
  unfold NADDRS, NDIRECT in Hx. apply Hw; lia.
Qed.
End DinodeRoundTrip.

(** ** Bitmap operations, bit by bit *)

Lemma bm_mask_pow bi : bm_mask bi = 2 ^ (bi mod 8).
Proof. unfold bm_mask. apply Z.shiftl_1_l. Qed.

Lemma bm_mask_testbit bi j : 0 <= j -> Z.testbit (bm_mask bi) j = bool_decide (j = bi mod 8).
Proof.
  intros Hj. pose proof (Z.mod_pos_bound bi 8). rewrite bm_mask_pow, Z.pow2_bits_eqb by lia.
  destruct (Z.eqb_spec (bi mod 8) j); symmetry; [apply bool_decide_eq_true|apply bool_decide_eq_false]; lia.
Qed.

Lemma bm_used_testbit d bi : bm_used d bi = Z.testbit (bm_byte d bi) (bi mod 8).
Proof.
  pose proof (Z.mod_pos_bound bi 8 ltac:(lia)). unfold bm_used.
  assert (Z.testbit (Z.land (bm_byte d bi) (bm_mask bi)) (bi mod 8) = Z.testbit (bm_byte d bi) (bi mod 8)) as E.
  { rewrite Z.land_spec, bm_mask_testbit, bool_decide_eq_true_2 by lia. by rewrite andb_true_r. }
  rewrite <- E. destruct (Z.eqb_spec (Z.land (bm_byte d bi) (bm_mask bi)) 0) as [Hz|Hnz].
  - rewrite Hz. by rewrite Z.bits_0.
  - symmetry. cbn. rewrite E.
    destruct (Z.testbit (bm_byte d bi) (bi mod 8)) eqn:Eb; [done|]. exfalso. apply Hnz.
    apply Z.bits_inj'. intros n Hn. rewrite Z.land_spec, Z.bits_0, bm_mask_testbit by lia.
    case_bool_decide as Hc; [subst n; by rewrite Eb|by rewrite andb_false_r].
Qed.

Lemma testbit_u8 z j : 0 <= j < 8 -> Z.testbit (u8 z) j = Z.testbit z j.
Proof. intros Hj. unfold u8. by rewrite Z.mod_pow2_bits_low by lia. Qed.

Definition bit_in (d : block) (bi : Z) : Prop := 0 <= bi < 8 * Z.of_nat (length d).

Lemma bm_byte_insert d bi bj v :
  bit_in d bi -> bit_in d bj ->
  bm_byte (<[Z.to_nat (bi / 8) := v]> d) bj = if decide (bi / 8 = bj / 8) then v else bm_byte d bj.
Proof.
  unfold bit_in, bm_byte. intros Hi Hj.
  assert (0 <= bi / 8 < Z.of_nat (length d)) by (split; [apply Z.div_pos|apply Z.div_lt_upper_bound]; lia).
  assert (0 <= bj / 8 < Z.of_nat (length d)) by (split; [apply Z.div_pos|apply Z.div_lt_upper_bound]; lia).
  rewrite !nth_lookup. case_decide as E.
  - rewrite E, list_lookup_insert_eq by lia. done.
  - rewrite list_lookup_insert_ne by lia. done.
Qed.

Lemma same_bit bi bj : bi / 8 = bj / 8 -> bi mod 8 = bj mod 8 -> bi = bj.
Proof. intros H1 H2. rewrite (Z.div_mod bi 8), (Z.div_mod bj 8) by lia. lia. Qed.

Lemma bm_used_set d bi bj :
  bit_in d bi -> bit_in d bj -> bm_used (bm_set d bi) bj = bool_decide (bi = bj) || bm_used d bj.
Proof.
  intros Hi Hj. pose proof (Z.mod_pos_bound bj 8 ltac:(lia)).
  rewrite !bm_used_testbit. unfold bm_set. rewrite bm_byte_insert by done. case_decide as E.
  - rewrite testbit_u8, Z.lor_spec, bm_mask_testbit by lia. unfold bm_byte. rewrite E, orb_comm. f_equal.
    apply bool_decide_ext. split; [|by intros ->]. intros Hm. by apply same_bit.
  - rewrite bool_decide_eq_false_2; [done|]. intros ->. done.
Qed.

Lemma bm_used_clear d bi bj :
  bit_in d bi -> bit_in d bj -> bm_used (bm_clear d bi) bj = negb (bool_decide (bi = bj)) && bm_used d bj.
Proof.
  intros Hi Hj. pose proof (Z.mod_pos_bound bj 8 ltac:(lia)).
  rewrite !bm_used_testbit. unfold bm_clear. rewrite bm_byte_insert by done. case_decide as E.
  - rewrite testbit_u8, Z.land_spec, Z.lnot_spec, bm_mask_testbit by lia. unfold bm_byte. rewrite E, andb_comm.
    f_equal. f_equal. apply bool_decide_ext. split; [|by intros ->]. intros Hm. by apply same_bit.
  - rewrite bool_decide_eq_false_2; [done|]. intros ->. done.
Qed.

Lemma length_bm_set d bi : length (bm_set d bi) = length d.
Proof. apply length_insert. Qed.
Lemma length_bm_clear d bi : length (bm_clear d bi) = length d.
Proof. apply length_insert. Qed.

(** ** Directory entries *)

Lemma dirent_roundtrip de :
  0 <= de_inum de < 2 ^ 16 -> length (de_name de) = DIRSIZn -> dirent_decode (dirent_encode de) = de.
Proof.
  intros Hi Hn. unfold dirent_decode, dirent_encode, slice. destruct de as [inum name]. cbn [de_inum de_name] in *.
  rewrite drop_0, take_app_length' by (symmetry; apply length_le_bytes).
  rewrite drop_app_length' by (symmetry; apply length_le_bytes). rewrite take_ge by lia.
  by rewrite le_val_bytes_small by lia.
Qed.

Lemma length_dirent_encode de : length (de_name de) = DIRSIZn -> length (dirent_encode de) = Z.to_nat DIRENT_SIZE.
Proof. intros H. unfold dirent_encode. rewrite length_app, length_le_bytes, H. done. Qed.
