(* ===== verification/Fs.v ===== *)
(** * File system (kernel/fs.c)

    Blocks, inodes, file contents, directories and path names, over the block
    store of Store.v.  The in-memory inode table is a list of NINODE entries and
    an inode pointer an index into it; user memory is reached through [UserMem],
    which vm.c implements.  Names and paths are the bytes from the pointer to the
    end of their object. *)

From S2P Require Import Prelude Machine Sleeplock Bio Store FsDisk CString.

Open Scope Z_scope.

(** What copyout() and copyin() of the current process do: the status, and for
    copyin() the bytes that were copied before it stopped. *)
Class UserMem (U : Type) := {
  um_copyout : Z -> list Z -> M U Z;
  um_copyin : Z -> nat -> M U (Z * list Z)
}.

Record inode := Inode {
  i_dev : Z;
  i_inum : Z;
  i_ref : Z;
  i_lock : sleeplock;
  i_valid : bool;
  i_type : Z;
  i_major : Z;
  i_minor : Z;
  i_nlink : Z;
  i_size : Z;
  i_addrs : list Z
}.

Definition i_set_id dev inum i := Inode dev inum (i_ref i) (i_lock i) (i_valid i) (i_type i) (i_major i) (i_minor i) (i_nlink i) (i_size i) (i_addrs i).
Definition i_set_ref r i := Inode (i_dev i) (i_inum i) r (i_lock i) (i_valid i) (i_type i) (i_major i) (i_minor i) (i_nlink i) (i_size i) (i_addrs i).
Definition i_set_lock l i := Inode (i_dev i) (i_inum i) (i_ref i) l (i_valid i) (i_type i) (i_major i) (i_minor i) (i_nlink i) (i_size i) (i_addrs i).
Definition i_set_valid v i := Inode (i_dev i) (i_inum i) (i_ref i) (i_lock i) v (i_type i) (i_major i) (i_minor i) (i_nlink i) (i_size i) (i_addrs i).
Definition i_set_type t i := Inode (i_dev i) (i_inum i) (i_ref i) (i_lock i) (i_valid i) t (i_major i) (i_minor i) (i_nlink i) (i_size i) (i_addrs i).
Definition i_set_nlink n i := Inode (i_dev i) (i_inum i) (i_ref i) (i_lock i) (i_valid i) (i_type i) (i_major i) (i_minor i) n (i_size i) (i_addrs i).
Definition i_set_dev_id mj mn i := Inode (i_dev i) (i_inum i) (i_ref i) (i_lock i) (i_valid i) (i_type i) mj mn (i_nlink i) (i_size i) (i_addrs i).
Definition i_set_size s i := Inode (i_dev i) (i_inum i) (i_ref i) (i_lock i) (i_valid i) (i_type i) (i_major i) (i_minor i) (i_nlink i) s (i_addrs i).
Definition i_set_addr k a i := Inode (i_dev i) (i_inum i) (i_ref i) (i_lock i) (i_valid i) (i_type i) (i_major i) (i_minor i) (i_nlink i) (i_size i) (<[k := a]> (i_addrs i)).
Definition i_load (d : dinode) i := Inode (i_dev i) (i_inum i) (i_ref i) (i_lock i) (i_valid i) (d_type d) (d_major d) (d_minor d) (d_nlink d) (d_size d) (d_addrs d).
Definition dinode_of (i : inode) : dinode := Dinode (i_type i) (i_major i) (i_minor i) (i_nlink i) (i_size i) (i_addrs i).

Record fstate (S U : Type) := Fstate {
  fs_store : S;
  fs_user : U;
  fs_sb : superblock;
  fs_inodes : list inode;
  fs_cwd : nat;                (* myproc()->cwd *)
  fs_pid : Z                   (* myproc()->pid *)
}.
Arguments Fstate {S U}.
Arguments fs_store {S U}.
Arguments fs_user {S U}.
Arguments fs_sb {S U}.
Arguments fs_inodes {S U}.
Arguments fs_cwd {S U}.
Arguments fs_pid {S U}.

Definition NINODEn : nat := Z.to_nat NINODE.
Definition NULL : option nat := None.

(** [either_copyout]'s destination and [either_copyin]'s source. *)
Inductive dest := ToUser (va : Z) | ToKernel.
Inductive source := FromUser (va : Z) | FromKernel (bs : list Z).

Record stat := Stat { st_dev : Z; st_ino : Z; st_type : Z; st_nlink : Z; st_size : Z }.

Section Fs.
Context {St U : Type} `{BlockStore St} `{UserMem U}.
Abbreviation FM := (M (fstate St U)).

#[local] Instance lens_store : Lens (fstate St U) St :=
  { lget := fs_store; lput c s := Fstate c (fs_user s) (fs_sb s) (fs_inodes s) (fs_cwd s) (fs_pid s) }.
#[local] Instance lens_user : Lens (fstate St U) U :=
  { lget := fs_user; lput u s := Fstate (fs_store s) u (fs_sb s) (fs_inodes s) (fs_cwd s) (fs_pid s) }.

Definition set_inodes (l : list inode) (s : fstate St U) : fstate St U :=
  Fstate (fs_store s) (fs_user s) (fs_sb s) l (fs_cwd s) (fs_pid s).
Definition set_sb (sb : superblock) (s : fstate St U) : fstate St U :=
  Fstate (fs_store s) (fs_user s) sb (fs_inodes s) (fs_cwd s) (fs_pid s).
Definition set_cwd (ip : nat) (s : fstate St U) : fstate St U :=
  Fstate (fs_store s) (fs_user s) (fs_sb s) (fs_inodes s) ip (fs_pid s).

Definition f_bread (dev bno : Z) : FM nat := zoom (bs_bread dev bno).
Definition f_data (b : nat) : FM block := zoom (bs_data b).
Definition f_set (b : nat) (d : block) : FM unit := zoom (bs_set b d).
Definition f_log_write (b : nat) : FM unit := zoom (bs_log_write b).
Definition f_brelse (b : nat) : FM unit := zoom (bs_brelse b).

Definition geti (ip : nat) : FM inode :=
  let* o := gets (fun s => fs_inodes s !! ip) in the o.
Definition upd_inode (ip : nat) (f : inode -> inode) (s : fstate St U) : fstate St U :=
  set_inodes (alter f ip (fs_inodes s)) s.
Definition seti (ip : nat) (f : inode -> inode) : FM unit := modify (upd_inode ip f).

Definition inode_lock (ip : nat) : sleeplock_at (fstate St U) :=
  SleeplockAt (LInodeLk ip) (ChInodeLock ip)
    (fun s => i_lock <$> fs_inodes s !! ip)
    (fun l => upd_inode ip (i_set_lock l)).

(** ** Superblock *)

Definition readsb (dev : Z) : FM superblock :=
  let* bp := f_bread dev 1 in
  let* d := f_data bp in
  f_brelse bp ;;
  ret (sb_decode d).

Definition fsinit (dev : Z) : FM unit :=
  let* sb := readsb dev in
  modify (set_sb sb) ;;
  if negb (sb_magic sb =? FSMAGIC) then panic "invalid file system" else
  zoom (bs_initlog dev (LogGeom (sb_logstart sb) (sb_nlog sb))).

(** ** Blocks *)

Definition bzero (dev bno : Z) : FM unit :=
  let* bp := f_bread dev bno in
  let* d := f_data bp in
  f_set bp (splice 0 (replicate BSIZEn 0) d) ;;
  f_log_write bp ;;
  f_brelse bp.

(** The first of [n] bits from [bi] on that is clear. *)
Fixpoint find_free (d : block) (n : nat) (bi : Z) : option Z :=
  match n with
  | O => None
  | S n' => if bm_used d bi then find_free d n' (bi + 1) else Some bi
  end.

Definition bits_here (b : Z) (sb : superblock) : nat := Z.to_nat (Z.min BPB (sb_size sb - b)).
Definition bitmap_fuel (sb : superblock) : nat := S (S (Z.to_nat (sb_size sb / BPB))).

(** One turn of balloc()'s loop over the bitmap blocks. *)
Definition balloc_step (dev : Z) (sb : superblock) (b : Z) : FM (Z + Z) :=
  if negb (b <? sb_size sb) then kputs_ln "balloc: out of blocks" ;; ret (inr 0)
  else
    let* bp := f_bread dev (BBLOCK b sb) in
    let* d := f_data bp in
    match find_free d (bits_here b sb) 0 with
    | Some bi =>
        f_set bp (bm_set d bi) ;;
        f_log_write bp ;;
        f_brelse bp ;;
        bzero dev (b + bi) ;;
        ret (inr (b + bi))
    | None => f_brelse bp ;; ret (inl (b + BPB))
    end.

Definition balloc (dev : Z) : FM Z :=
  let* sb := gets fs_sb in
  iter (bitmap_fuel sb) (balloc_step dev sb) 0.

Definition bfree (dev b : Z) : FM unit :=
  let* sb := gets fs_sb in
  let* bp := f_bread dev (BBLOCK b sb) in
  let* d := f_data bp in
  if negb (bm_used d (b mod BPB)) then panic "freeing free block" else
  f_set bp (bm_clear d (b mod BPB)) ;;
  f_log_write bp ;;
  f_brelse bp.

(** How many of [n] bits from [bi] on are clear. *)
Fixpoint count_free (d : block) (n : nat) (bi : Z) : Z :=
  match n with
  | O => 0
  | S n' => (if bm_used d bi then 0 else 1) + count_free d n' (bi + 1)
  end.

Definition count_step (sb : superblock) (a : Z * Z) : FM (Z * Z + Z) :=
  let '(b, free) := a in
  if negb (b <? sb_size sb) then ret (inr free)
  else
    let* bp := f_bread ROOTDEV (BBLOCK b sb) in
    let* d := f_data bp in
    f_brelse bp ;;
    ret (inl (b + BPB, u32 (free + count_free d (bits_here b sb) 0))).

Definition count_free_blocks : FM Z :=
  let* sb := readsb ROOTDEV in
  iter (bitmap_fuel sb) (count_step sb) (0, 0).

Definition read_disk_size : FM Z :=
  let* sb := readsb ROOTDEV in ret (sb_size sb).

(** ** The inode table *)

Definition iinit : FM unit :=
  initlock LItable ;;
  for_each (seq 0 NINODEn) (fun i => initsleeplock (inode_lock i)).

(** The scan of iget(): an entry for the inode, or the first empty slot. *)
Fixpoint iget_scan (l : list inode) (dev inum : Z) (i : nat) (empty : option nat) : nat + option nat :=
  match l with
  | [] => inr empty
  | x :: t =>
      if (i_ref x >? 0) && (i_dev x =? dev) && (i_inum x =? inum) then inl i
      else iget_scan t dev inum (S i)
             (match empty with
              | None => if i_ref x =? 0 then Some i else None
              | Some e => Some e
              end)
  end.

Definition iget (dev inum : Z) : FM nat :=
  acquire LItable ;;
  let* l := gets fs_inodes in
  match iget_scan l dev inum 0 None with
  | inl ip =>
      seti ip (fun x => i_set_ref (i_ref x + 1) x) ;;
      release LItable ;;
      ret ip
  | inr None => panic "iget: no inodes"
  | inr (Some ip) =>
      seti ip (i_set_id dev inum) ;;
      seti ip (i_set_ref 1) ;;
      seti ip (i_set_valid false) ;;
      release LItable ;;
      ret ip
  end.

Definition idup (ip : nat) : FM nat :=
  acquire LItable ;;
  seti ip (fun x => i_set_ref (i_ref x + 1) x) ;;
  release LItable ;;
  ret ip.

Definition ialloc_step (dev type : Z) (sb : superblock) (inum : Z) : FM (Z + option nat) :=
  if negb (inum <? sb_ninodes sb) then kputs_ln "ialloc: no inodes" ;; ret (inr NULL)
  else
    let* bp := f_bread dev (IBLOCK inum sb) in
    let* d := f_data bp in
    let off := dinode_off inum in
    if d_type (get_dinode off d) =? 0
    then
      f_set bp (put_u16 off type (splice off (replicate (Z.to_nat DINODE_SIZE) 0) d)) ;;
      f_log_write bp ;;
      f_brelse bp ;;
      let* ip := iget dev inum in
      ret (inr (Some ip))
    else f_brelse bp ;; ret (inl (inum + 1)).

Definition ialloc (dev type : Z) : FM (option nat) :=
  let* sb := gets fs_sb in
  iter (S (Z.to_nat (sb_ninodes sb))) (ialloc_step dev type sb) 1.

Definition iupdate (ip : nat) : FM unit :=
  let* i := geti ip in
  let* sb := gets fs_sb in
  let* bp := f_bread (i_dev i) (IBLOCK (i_inum i) sb) in
  let* d := f_data bp in
  f_set bp (put_dinode (dinode_off (i_inum i)) (dinode_of i) d) ;;
  f_log_write bp ;;
  f_brelse bp.

Definition ilock (p : option nat) : FM unit :=
  match p with
  | None => panic "ilock"
  | Some ip =>
      let* i := geti ip in
      if i_ref i <? 1 then panic "ilock" else
      let* pid := gets fs_pid in
      acquiresleep (inode_lock ip) pid ;;
      let* i := geti ip in
      if i_valid i then ret tt else
      let* sb := gets fs_sb in
      let* bp := f_bread (i_dev i) (IBLOCK (i_inum i) sb) in
      let* d := f_data bp in
      seti ip (i_load (get_dinode (dinode_off (i_inum i)) d)) ;;
      f_brelse bp ;;
      seti ip (i_set_valid true) ;;
      let* i := geti ip in
      if i_type i =? 0 then panic "ilock: no type" else ret tt
  end.

Definition iunlock (p : option nat) : FM unit :=
  match p with
  | None => panic "iunlock"
  | Some ip =>
      let* pid := gets fs_pid in
      let* h := holdingsleep (inode_lock ip) pid in
      let* i := geti ip in
      if negb h || (i_ref i <? 1) then panic "iunlock" else
      releasesleep (inode_lock ip)
  end.

(** ** Inode content *)

Definition bmap (ip : nat) (bn : Z) : FM Z :=
  let* i := geti ip in
  if bn <? NDIRECT then
    let* addr := the (i_addrs i !! Z.to_nat bn) in
    if negb (addr =? 0) then ret addr else
    let* addr := balloc (i_dev i) in
    if addr =? 0 then ret 0 else
    seti ip (i_set_addr (Z.to_nat bn) addr) ;;
    ret addr
  else
  let bn := bn - NDIRECT in
  if bn <? NINDIRECT then
    let* addr := the (i_addrs i !! Z.to_nat NDIRECT) in
    let* ind :=
      (if negb (addr =? 0) then ret addr else
       let* addr := balloc (i_dev i) in
       if addr =? 0 then ret 0 else
       seti ip (i_set_addr (Z.to_nat NDIRECT) addr) ;;
       ret addr) in
    if ind =? 0 then ret 0 else
    let* bp := f_bread (i_dev i) ind in
    let* d := f_data bp in
    let addr := get_u32 (4 * Z.to_nat bn) d in
    let* addr :=
      (if negb (addr =? 0) then ret addr else
       let* addr := balloc (i_dev i) in
       (if negb (addr =? 0) then
          let* d := f_data bp in
          f_set bp (put_u32 (4 * Z.to_nat bn) addr d) ;;
          f_log_write bp
        else ret tt) ;;
       ret addr) in
    f_brelse bp ;;
    ret addr
  else panic "bmap: out of range".

Definition itrunc (ip : nat) : FM unit :=
  for_each (seq 0 (Z.to_nat NDIRECT)) (fun k =>
    let* i := geti ip in
    let* addr := the (i_addrs i !! k) in
    if negb (addr =? 0) then
      bfree (i_dev i) addr ;;
      seti ip (i_set_addr k 0)
    else ret tt) ;;
  let* i := geti ip in
  let* ind := the (i_addrs i !! Z.to_nat NDIRECT) in
  (if negb (ind =? 0) then
     let* bp := f_bread (i_dev i) ind in
     for_each (seq 0 (Z.to_nat NINDIRECT)) (fun j =>
       let* d := f_data bp in
       let addr := get_u32 (4 * j) d in
       if negb (addr =? 0) then bfree (i_dev i) addr else ret tt) ;;
     f_brelse bp ;;
     bfree (i_dev i) ind ;;
     seti ip (i_set_addr (Z.to_nat NDIRECT) 0)
   else ret tt) ;;
  seti ip (i_set_size 0) ;;
  iupdate ip.

Definition iput (ip : nat) : FM unit :=
  acquire LItable ;;
  let* i := geti ip in
  (if (i_ref i =? 1) && i_valid i && (i_nlink i =? 0) then
     let* pid := gets fs_pid in
     acquiresleep (inode_lock ip) pid ;;
     release LItable ;;
     itrunc ip ;;
     seti ip (i_set_type 0) ;;
     iupdate ip ;;
     seti ip (i_set_valid false) ;;
     releasesleep (inode_lock ip) ;;
     acquire LItable
   else ret tt) ;;
  seti ip (fun x => i_set_ref (i_ref x - 1) x) ;;
  release LItable.

Definition iunlockput (ip : nat) : FM unit :=
  iunlock (Some ip) ;;
  iput ip.

Definition stati (ip : nat) : FM stat :=
  let* i := geti ip in
  ret (Stat (i_dev i) (i_inum i) (i_type i) (i_nlink i) (i_size i)).

(** ** Reading and writing *)

Definition either_copyout (dst : dest) (tot : Z) (bs : list Z) : FM Z :=
  match dst with
  | ToUser va => zoom (um_copyout (u64 (va + tot)) bs)
  | ToKernel => ret 0
  end.

Definition either_copyin (src : source) (tot : Z) (m : nat) : FM (Z * list Z) :=
  match src with
  | FromUser va => zoom (um_copyin (u64 (va + tot)) m)
  | FromKernel bs => ret (0, slice (Z.to_nat tot) m bs)
  end.

Definition rw_fuel (n : Z) : nat := S (S (S (Z.to_nat (n / BSIZE)))).

(** One block of readi(): the loop variables are [tot], [off] and the bytes
    stored so far at a kernel destination. *)
Definition readi_step (ip : nat) (dev : Z) (dst : dest) (n : Z) (a : Z * Z * list Z)
    : FM (Z * Z * list Z + Z * list Z) :=
  let '(tot, off, acc) := a in
  if negb (tot <? n) then ret (inr (tot, acc)) else
  let* addr := bmap ip (off / BSIZE) in
  if addr =? 0 then ret (inr (tot, acc)) else
  let* bp := f_bread dev addr in
  let m := Z.min (n - tot) (BSIZE - off mod BSIZE) in
  let* d := f_data bp in
  let bs := slice (Z.to_nat (off mod BSIZE)) (Z.to_nat m) d in
  let* r := either_copyout dst tot bs in
  if r =? -1 then f_brelse bp ;; ret (inr (-1, acc)) else
  f_brelse bp ;;
  ret (inl (tot + m, off + m, acc ++ bs)).

(** The result and, for a kernel destination, the bytes stored there. *)
Definition readi (ip : nat) (dst : dest) (off n : Z) : FM (Z * list Z) :=
  let* i := geti ip in
  if (off >? i_size i) || (u32 (off + n) <? off) then ret (0, []) else
  let n := if u32 (off + n) >? i_size i then u32 (i_size i - off) else n in
  iter (rw_fuel n) (readi_step ip (i_dev i) dst n) (0, off, []).

Definition writei_step (ip : nat) (dev : Z) (src : source) (n : Z) (a : Z * Z) : FM (Z * Z + Z * Z) :=
  let '(tot, off) := a in
  if negb (tot <? n) then ret (inr (tot, off)) else
  let* addr := bmap ip (off / BSIZE) in
  if addr =? 0 then ret (inr (tot, off)) else
  let* bp := f_bread dev addr in
  let m := Z.min (n - tot) (BSIZE - off mod BSIZE) in
  let* ' (r, bs) := either_copyin src tot (Z.to_nat m) in
  let* d := f_data bp in
  (match bs with [] => ret tt | _ => f_set bp (splice (Z.to_nat (off mod BSIZE)) bs d) end) ;;
  if r =? -1 then f_brelse bp ;; ret (inr (tot, off)) else
  f_log_write bp ;;
  f_brelse bp ;;
  ret (inl (tot + m, off + m)).

Definition writei (ip : nat) (src : source) (off n : Z) : FM Z :=
  let* i := geti ip in
  if (off >? i_size i) || (u32 (off + n) <? off) then ret (-1) else
  if u32 (off + n) >? MAXFILE * BSIZE then ret (-1) else
  let* ' (tot, off') := iter (rw_fuel n) (writei_step ip (i_dev i) src n) (0, off) in
  let* i := geti ip in
  (if off' >? i_size i then seti ip (i_set_size off') else ret tt) ;;
  iupdate ip ;;
  ret tot.

(** ** Directories *)

Definition namecmp (s t : list Z) : option Z := strncmp s t DIRSIZn.

Definition dir_fuel (size : Z) : nat := S (S (Z.to_nat (size / DIRENT_SIZE))).

(** One directory entry. *)
Definition read_dirent (dp : nat) (off : Z) (msg : string) : FM dirent :=
  let* ' (r, bs) := readi dp ToKernel off DIRENT_SIZE in
  if negb (r =? DIRENT_SIZE) then panic msg else ret (dirent_decode bs).

(** The inode found and the offset stored through [poff]. *)
Definition dirlookup_step (dp : nat) (dev size : Z) (name : list Z) (off : Z) : FM (Z + option (nat * Z)) :=
  if negb (off <? size) then ret (inr None) else
  let* de := read_dirent dp off "dirlookup read" in
  if de_inum de =? 0 then ret (inl (off + DIRENT_SIZE)) else
  let* c := the (namecmp name (de_name de)) in
  if c =? 0 then
    let* ip := iget dev (de_inum de) in
    ret (inr (Some (ip, off)))
  else ret (inl (off + DIRENT_SIZE)).

Definition dirlookup (dp : nat) (name : list Z) : FM (option (nat * Z)) :=
  let* i := geti dp in
  if negb (i_type i =? T_DIR) then panic "dirlookup not DIR" else
  iter (dir_fuel (i_size i)) (dirlookup_step dp (i_dev i) (i_size i) name) 0.

(** The loop that looks for an empty entry. *)
Definition dirlink_step (dp : nat) (size off : Z) : FM (Z + Z) :=
  if negb (off <? size) then ret (inr off) else
  let* de := read_dirent dp off "dirlink read" in
  if de_inum de =? 0 then ret (inr off) else ret (inl (off + DIRENT_SIZE)).

Definition dirlink (dp : nat) (name : list Z) (inum : Z) : FM Z :=
  let* r := dirlookup dp name in
  match r with
  | Some (ip, _) => iput ip ;; ret (-1)
  | None =>
      let* i := geti dp in
      let* off := iter (dir_fuel (i_size i)) (dirlink_step dp (i_size i)) 0 in
      let* nm := the (strncpy name DIRSIZn) in
      let* r := writei dp (FromKernel (dirent_encode (Dirent (u16 inum) nm))) off DIRENT_SIZE in
      if negb (r =? DIRENT_SIZE) then ret (-1) else ret 0
  end.

Definition dirunlink_step (dp : nat) (size : Z) (name : list Z) (off : Z) : FM (Z + Z) :=
  if negb (off <? size) then ret (inr (-1)) else
  let* de := read_dirent dp off "dirunlink read" in
  let* c := the (strncmp (de_name de) name DIRSIZn) in
  if (c =? 0) && negb (de_inum de =? 0) then
    let* r := writei dp (FromKernel (dirent_encode (Dirent 0 (de_name de)))) off DIRENT_SIZE in
    if negb (r =? DIRENT_SIZE) then ret (inr (-1)) else ret (inr 0)
  else ret (inl (off + DIRENT_SIZE)).

Definition dirunlink (dp : nat) (name : list Z) : FM Z :=
  let* i := geti dp in
  iter (dir_fuel (i_size i)) (dirunlink_step dp (i_size i) name) 0.

(** ** Path names *)

(** Skipping slashes, and the length of the element at [path]. *)
Fixpoint skip_slashes (path : list Z) : option (list Z) :=
  match path with
  | [] => None
  | c :: t => if c =? 47 then skip_slashes t else Some path
  end.
Fixpoint elem_len (path : list Z) : option nat :=
  match path with
  | [] => None
  | c :: t => if (c =? 47) || (c =? 0) then Some 0%nat
              else match elem_len t with Some n => Some (S n) | None => None end
  end.

(** The rest of the path and the new contents of [name]; [Some None] is the null
    pointer, [None] an access past the end of [path]. *)
Definition skipelem (path name : list Z) : option (option (list Z * list Z)) :=
  match skip_slashes path with
  | None => None
  | Some [] => None
  | Some ((c :: _) as s) =>
      if c =? 0 then Some None else
      match elem_len s with
      | None => None
      | Some len =>
          let name' := if (DIRSIZn <=? len)%nat then splice 0 (slice 0 DIRSIZn s) name
                       else splice len [0] (splice 0 (slice 0 len s) name) in
          match skip_slashes (drop len s) with
          | None => None
          | Some rest => Some (Some (rest, name'))
          end
      end
  end.

(** One path element of namex(). *)
Definition namex_step (nameiparent : bool) (a : nat * list Z * list Z)
    : FM (nat * list Z * list Z + option nat * list Z) :=
  let '(ip, path, name) := a in
  let* r := the (skipelem path name) in
  match r with
  | None =>
      if nameiparent then iput ip ;; ret (inr (None, name)) else ret (inr (Some ip, name))
  | Some (path, name) =>
      ilock (Some ip) ;;
      let* i := geti ip in
      if negb (i_type i =? T_DIR) then iunlockput ip ;; ret (inr (None, name)) else
      let* c := the (head path) in
      if nameiparent && (c =? 0) then iunlock (Some ip) ;; ret (inr (Some ip, name)) else
      let* next := dirlookup ip name in
      match next with
      | None => iunlockput ip ;; ret (inr (None, name))
      | Some (next, _) => iunlockput ip ;; ret (inl (next, path, name))
      end
  end.

(** The inode and the final contents of [name]. *)
Definition namex (path : list Z) (nameiparent : bool) (name : list Z) : FM (option nat * list Z) :=
  let* c := the (head path) in
  let* ip := (if c =? 47 then iget ROOTDEV ROOTINO
              else let* cwd := gets fs_cwd in idup cwd) in
  iter (S (length path)) (namex_step nameiparent) (ip, path, name).

Definition namei (path : list Z) : FM (option nat) :=
  let* ' (ip, _) := namex path false (replicate DIRSIZn 0) in ret ip.
Definition nameiparent (path name : list Z) : FM (option nat * list Z) := namex path true name.

(** ** Renaming *)

Definition rename (old new : list Z) : FM Z :=
  zoom bs_begin_op ;;
  let* ' (r, old_name) := nameiparent old (replicate DIRSIZn 0) in
  match r with
  | None => zoom bs_end_op ;; ret (-1)
  | Some old_dp =>
      let* r := namei old in
      match r with
      | None => zoom bs_end_op ;; ret (-1)
      | Some ip =>
          ilock (Some ip) ;;
          let* i := geti ip in
          let* r := dirlink old_dp new (i_inum i) in
          if r <? 0 then iunlockput ip ;; zoom bs_end_op ;; ret (-1) else
          ilock (Some old_dp) ;;
          let* r := dirunlink old_dp old_name in
          if r <? 0 then
            dirunlink old_dp new ;;
            iunlockput old_dp ;;
            zoom bs_end_op ;;
            ret (-1)
          else
            iunlockput ip ;;
            iunlockput old_dp ;;
            zoom bs_end_op ;;
            ret 0
      end
  end.
End Fs.
