(* ===== verification/Demo.v ===== *)
(** * A small file system image

    A 16-block file system with a root directory, booted and with an operation in
    progress: the concrete state the witnesses of the file-system theorems use. *)

From S2P Require Import Prelude Machine Sleeplock Bio Store Log LogTxn FsDisk CString Fs.

Open Scope Z_scope.

(** ** Booting from a list of blocks *)

Definition img_disk (l : list block) : gmap Z block :=
  list_to_map ((fun i => (Z.of_nat i, default [] (l !! i))) <$> seq 0 (length l)).

Lemma img_disk_lookup l x : img_disk l !! x = if decide (0 <= x) then l !! Z.to_nat x else None.
Proof.
  unfold img_disk.
  assert (NoDup ((fun i => (Z.of_nat i, default [] (l !! i))) <$> seq 0 (length l)).*1) as Hnd.
  { rewrite <- list_fmap_compose. apply NoDup_fmap_2_strong; [|apply NoDup_seq]. intros i j _ _. cbn. lia. }
  destruct (decide (0 <= x)) as [Hx|Hx].
  - destruct (l !! Z.to_nat x) as [b|] eqn:E.
    + apply elem_of_list_to_map_1; [done|]. apply list_elem_of_fmap. exists (Z.to_nat x). split.
      * rewrite E. cbn. f_equal. lia.
      * apply elem_of_seq. apply lookup_lt_Some in E. lia.
    + apply not_elem_of_list_to_map_1. rewrite <- list_fmap_compose. intros Hin.
      apply list_elem_of_fmap in Hin as (i & -> & Hi). apply elem_of_seq in Hi. cbn in E.
      rewrite Nat2Z.id in E. apply lookup_ge_None in E. lia.
  - apply not_elem_of_list_to_map_1. rewrite <- list_fmap_compose. intros Hin.
    apply list_elem_of_fmap in Hin as (i & -> & Hi). cbn in Hx. lia.
Qed.

Definition booted (g : log_geom) (d : gmap Z block) : lstate :=
  match (boot_log g ;; begin_op) (World [] [] (boot_state d 1)) with
  | Ret (_, w) => user w
  | _ => boot_state d 1
  end.

Lemma booted_rep g d :
  geom_ok g -> disk_ok g d -> log_empty g d -> (forall x, is_Some (d !! x) -> small_int x) ->
  exists d', log_rep g (booted g d) (t_begun (idle_state g d')) /\
             forall x, ~ in_log g x -> d' !! x = d !! x.
Proof.
  intros Hg Hd He Hsm.
  destruct (recovery_prefix g d _ Hg Hd (reflexivity _)) as (H1 & H2 & H3). specialize (H3 eq_refl).
  destruct (log_empty_redo _ _ H3) as (_ & _ & Er). destruct (log_empty_redo _ _ He) as (_ & _ & Er0).
  assert (forall x, ~ in_log g x -> apply_writes (recovery_writes g d) d !! x = d !! x) as Hout.
  { intros x Hx. by rewrite <- Er, (H2 x Hx), Er0. }
  set (Q := fun (_ : unit) (w : world lstate) => exists d', log_rep g (user w) (t_begun (idle_state g d')) /\
             forall x, ~ in_log g x -> d' !! x = d !! x).
  assert (wp (boot_log g ;; begin_op) Q (World [] [] (boot_state d 1))) as Hwp.
  { wp_step. eapply boot_log_wp; [exact Hg|exact Hd|]. intros c t L R W Hat Hn Ho Hc.
    eapply (l_begin_op_wp g (idle_state g (apply_writes (recovery_writes g d) d))); [|reflexivity|cbn; done|].
    - eapply idle_rep; [exact Hg|exact H1|exact H3| |exact R|exact Hat|exact Hn|exact Ho|exact Hc].
      intros x Hx. destruct (decide (in_log g x)) as [Hin|Hni]; [apply Hsm, Hd, Hin|].
      rewrite Hout in Hx by exact Hni. by apply Hsm.
    - intros s' tr R'. eexists. split; [exact R'|exact Hout]. }
  destruct (wp_run _ _ _ Hwp) as ([] & w & Hrun & HQ). unfold booted. rewrite Hrun. exact HQ.
Qed.

(** ** The image *)

Definition pad_block (bs : list Z) : block := bs ++ replicate (BSIZEn - length bs) 0.

Definition demo_sb : superblock := Superblock FSMAGIC 16 4 16 8 2 10 11.
Definition demo_log_geom : log_geom := LogGeom (sb_logstart demo_sb) (sb_nlog demo_sb).

Definition sb_encode (sb : superblock) : list Z :=
  le_bytes 4 (sb_magic sb) ++ le_bytes 4 (sb_size sb) ++ le_bytes 4 (sb_nblocks sb) ++ le_bytes 4 (sb_ninodes sb) ++
  le_bytes 4 (sb_nlog sb) ++ le_bytes 4 (sb_logstart sb) ++ le_bytes 4 (sb_inodestart sb) ++ le_bytes 4 (sb_bmapstart sb).

Definition zero_block : block := replicate BSIZEn 0.
Definition demo_root : dinode := Dinode T_DIR 0 0 1 32 (12 :: replicate 12 0).
Definition demo_dir : list Z :=
  dirent_encode (Dirent 1 (46 :: replicate 13 0)) ++ dirent_encode (Dirent 1 (46 :: 46 :: replicate 12 0)).

(** Boot block, superblock, log, inodes, bitmap, root directory, free blocks. *)
Definition demo_img : list block :=
  [zero_block; pad_block (sb_encode demo_sb)] ++ replicate 8 zero_block ++
  [put_dinode 64 demo_root zero_block; pad_block [255; 31]; pad_block demo_dir] ++ replicate 3 zero_block.

Definition demo_store : lstate := booted demo_log_geom (img_disk demo_img).

Lemma demo_img_lengths : Forall (fun b => length b = BSIZEn) demo_img.
Proof. vm_compute. repeat constructor. Qed.

Lemma demo_img_ok : disk_ok demo_log_geom (img_disk demo_img) /\ log_empty demo_log_geom (img_disk demo_img).
Proof.
  assert (log_empty demo_log_geom (img_disk demo_img)) as He by (vm_compute; reflexivity).
  split; [|exact He]. constructor.
  - intros x b. rewrite img_disk_lookup. case_decide; [|done]. intros Hb.
    pose proof demo_img_lengths as Hl. rewrite Forall_lookup in Hl. by eapply Hl.
  - intros x Hx. unfold in_log in Hx. cbn in Hx. rewrite img_disk_lookup, decide_True by lia.
    apply lookup_lt_is_Some_2. change (length demo_img) with 16%nat. lia.
  - rewrite He. done.
  - rewrite He. done.
  - destruct (log_empty_redo _ _ He) as (-> & _). intros b Hb. by apply not_elem_of_nil in Hb.
Qed.

(** User memory that refuses every access. *)
#[export] Instance no_user_mem : UserMem unit := {
  um_copyout _ _ := ret (-1);
  um_copyin _ _ := ret (-1, [])
}.

#[export] Instance demo_blocks : BlockStore lstate := log_store demo_log_geom.

(** The view of the booted file system. *)
Lemma demo_store_rep :
  exists t, bs_rep demo_store t /\ t_open t = ∅ /\ t_dirty t = ∅ /\ t_logged t = [] /\ t_out t = 1 /\
    forall x, t_view t !! x = if decide (2 <= x < 10) then None else
                              if decide (0 <= x) then demo_img !! Z.to_nat x else None.
Proof.
  destruct demo_img_ok as [Hd He].
  destruct (booted_rep demo_log_geom (img_disk demo_img)) as (d' & Hrep & Hout).
  - by constructor.
  - exact Hd.
  - exact He.
  - intros x [b Hb]. rewrite img_disk_lookup in Hb. case_decide; [|done]. apply lookup_lt_Some in Hb.
    change (length demo_img) with 16%nat in Hb. unfold small_int. lia.
  - eexists. split; [exact Hrep|]. do 4 (split; [reflexivity|]). intros x. cbn [t_view t_begun idle_state].
    rewrite idle_view_lookup. destruct (decide (in_log demo_log_geom x)) as [Hx|Hx].
    + by rewrite decide_True by (unfold in_log in Hx; cbn in Hx; lia).
    + rewrite decide_False by (unfold in_log in Hx; cbn in Hx; lia). by rewrite Hout, img_disk_lookup.
Qed.
