(* ===== verification/FsAlloc.v ===== *)
(** * The block allocator (kernel/fs.c: bzero, balloc, bfree, count_free_blocks)

    The bitmap on disk is the set of blocks in use; balloc() answers the lowest
    free block, zeroed and marked, or 0 when there is none; bfree() unmarks a
    block; count_free_blocks() answers exactly the number of free blocks. *)

From Stdlib Require Import Sorting.Sorted.
From S2P Require Import Prelude Machine Sleeplock Bio Store Log LogTxn FsDisk Fs Demo.

Open Scope Z_scope.

Lemma tstate_eq t t' :
  t_view t = t_view t' -> t_open t = t_open t' -> t_dirty t = t_dirty t' ->
  t_logged t = t_logged t' -> t_out t = t_out t' -> t = t'.
Proof. destruct t, t'. cbn. by intros -> -> -> -> ->. Qed.

Lemma t_close_open x i t : t_open t !! x = None -> t_closed x (t_opened x i t) = t.
Proof. intros Hx. apply tstate_eq; try done. cbn. by apply delete_insert_id. Qed.

(** A block modified and logged inside the transaction. *)
Definition t_update (x : Z) (d : block) (t : tstate) : tstate :=
  Tstate (<[x := d]> (t_view t)) (t_open t) (t_dirty t) (t_add x (t_logged t)) (t_out t).

Lemma t_update_done x i d t :
  t_open t !! x = None -> t_dirty t = ∅ ->
  t_closed x (t_wrote x (t_modified x d (t_opened x i t))) = t_update x d t.
Proof.
  intros Hx Hd. apply tstate_eq; try done; cbn.
  - by apply delete_insert_id.
  - rewrite Hd. set_solver.
Qed.

Lemma wrote_clean x t : x ∉ t_dirty (t_wrote x t).
Proof. unfold t_wrote. cbn [t_dirty]. set_solver. Qed.
Lemma none_dirty x t : t_dirty t = ∅ -> x ∉ t_dirty t.
Proof. intros ->. set_solver. Qed.

Lemma length_t_add x l : (length (t_add x l) <= S (length l))%nat.
Proof. unfold t_add. case_decide; [lia|]. rewrite length_app. cbn. lia. Qed.

(** ** Running fs.c code on the store *)

Section FsStep.
Context {St U : Type} `{BlockStore St} `{UserMem U}.
Context (u : U) (sb : superblock) (cwd : nat) (pid : Z).

Definition fw (tr : list event) (st : St) (il : list inode) : world (fstate St U) :=
  World [] tr (Fstate st u sb il cwd pid).

Lemma f_bread_wp st il tr t x Q :
  bs_rep st t -> can_open t x ->
  (forall i st' tr', bs_rep st' (t_opened x i t) -> Q i (fw tr' st' il)) ->
  wp (f_bread ROOTDEV x) Q (fw tr st il).
Proof.
  intros Hr Hc HQ. unfold f_bread. wp_step. eapply bs_bread_wp; [exact Hr|done|done|].
  intros i s' tr' Hr'. by apply HQ.
Qed.

Lemma f_data_wp st il tr t x i d Q :
  bs_rep st t -> t_open t !! x = Some i -> t_view t !! x = Some d ->
  Q d (fw tr st il) -> wp (f_data i) Q (fw tr st il).
Proof. intros Hr Ho Hd HQ. unfold f_data. wp_step. by eapply bs_data_wp. Qed.

Lemma f_set_wp st il tr t x i d Q :
  bs_rep st t -> t_open t !! x = Some i -> length d = BSIZEn ->
  (forall st' tr', bs_rep st' (t_modified x d t) -> Q tt (fw tr' st' il)) ->
  wp (f_set i d) Q (fw tr st il).
Proof.
  intros Hr Ho Hl HQ. unfold f_set. wp_step. eapply bs_set_wp; [exact Hr|done|done|done|].
  intros s' tr' Hr'. by apply HQ.
Qed.

Lemma f_log_write_wp st il tr t x i Q :
  bs_rep st t -> t_open t !! x = Some i -> (length (t_logged t) < bs_limit)%nat -> 1 <= t_out t ->
  (forall st' tr', bs_rep st' (t_wrote x t) -> Q tt (fw tr' st' il)) ->
  wp (f_log_write i) Q (fw tr st il).
Proof.
  intros Hr Ho Hl Hout HQ. unfold f_log_write. wp_step. eapply bs_log_write_wp; [exact Hr|done|done|done|done|].
  intros s' tr' Hr'. by apply HQ.
Qed.

Lemma f_brelse_wp st il tr t x i Q :
  bs_rep st t -> t_open t !! x = Some i -> x ∉ t_dirty t ->
  (forall st' tr', bs_rep st' (t_closed x t) -> Q tt (fw tr' st' il)) ->
  wp (f_brelse i) Q (fw tr st il).
Proof.
  intros Hr Ho Hd HQ. unfold f_brelse. wp_step. eapply bs_brelse_wp; [exact Hr|done|done|done|].
  intros s' tr' Hr'. by apply HQ.
Qed.

(** Reading a block and letting it go. *)
Lemma read_block_wp {A} st il tr t x d (k : block -> M (fstate St U) A) Q :
  bs_rep st t -> can_open t x -> t_view t !! x = Some d -> t_dirty t = ∅ ->
  (forall st' tr', bs_rep st' t -> wp (k d) Q (fw tr' st' il)) ->
  wp (let* bp := f_bread ROOTDEV x in let* d := f_data bp in f_brelse bp ;; k d) Q (fw tr st il).
Proof.
  intros Hr Hc Hd Hdt HQ. pose proof Hc as (_ & Ho & _).
  wp_step. eapply f_bread_wp; [done|done|]. intros i st1 tr1 R1.
  wp_step. eapply f_data_wp; [exact R1|apply t_opened_eq|exact Hd|].
  wp_step. eapply f_brelse_wp; [exact R1|apply t_opened_eq|by apply none_dirty|].
  intros st2 tr2 R2. rewrite t_close_open in R2 by done. by apply HQ.
Qed.

(** Replacing an open block's contents, logging and releasing it. *)
Lemma write_block_wp {A} st il tr t x i d0 d (k : M (fstate St U) A) Q :
  bs_rep st (t_opened x i t) -> t_open t !! x = None -> t_dirty t = ∅ ->
  t_view t !! x = Some d0 -> length d = BSIZEn ->
  (length (t_logged t) < bs_limit)%nat -> 1 <= t_out t ->
  (forall st' tr', bs_rep st' (t_update x d t) -> wp k Q (fw tr' st' il)) ->
  wp (f_set i d ;; f_log_write i ;; f_brelse i ;; k) Q (fw tr st il).
Proof.
  intros Hr Ho Hdt Hd Hl Hlim Hout HQ.
  wp_step. eapply f_set_wp; [exact Hr|apply t_opened_eq|done|]. intros st1 tr1 R1.
  wp_step. eapply f_log_write_wp; [exact R1|apply t_opened_eq|done|done|]. intros st2 tr2 R2.
  wp_step. eapply f_brelse_wp; [exact R2|apply t_opened_eq|apply wrote_clean|]. intros st3 tr3 R3.
  rewrite t_update_done in R3 by done. by apply HQ.
Qed.
End FsStep.

(** ** The set of blocks in use *)

(** Is block [b] marked in the bitmap? *)
Definition block_used (sb : superblock) (v : gmap Z block) (b : Z) : bool :=
  bm_used (default [] (v !! BBLOCK b sb)) (b mod BPB).

Definition free_blocks (sb : superblock) (v : gmap Z block) : list Z :=
  filter (fun b => block_used sb v b = false) (seqZ 0 (sb_size sb)).

(** The disk has the blocks of the bitmap, which are themselves marked in use,
    and every free block (the log's blocks, marked in use, are not in the view). *)
Record alloc_ok (sb : superblock) (v : gmap Z block) : Prop := AllocOk {
  ao_size : 0 <= sb_size sb < 2 ^ 31;
  ao_len : forall x d, v !! x = Some d -> length d = BSIZEn;
  ao_blocks : forall b, 0 <= b < sb_size sb -> block_used sb v b = false -> is_Some (v !! b);
  ao_range : forall b, 0 <= b < sb_size sb -> 0 <= BBLOCK b sb < sb_size sb;
  ao_bitmap : forall b, 0 <= b < sb_size sb ->
    is_Some (v !! BBLOCK b sb) /\ block_used sb v (BBLOCK b sb) = true
}.

Lemma bitmap_block sb v b :
  alloc_ok sb v -> 0 <= b < sb_size sb ->
  exists d, v !! BBLOCK b sb = Some d /\ length d = BSIZEn /\
            forall b', BBLOCK b' sb = BBLOCK b sb -> block_used sb v b' = bm_used d (b' mod BPB).
Proof.
  intros Hv Hb. destruct (ao_bitmap _ _ Hv b Hb) as [[d Hd] _].
  exists d. split; [done|]. split; [by eapply ao_len|]. intros b' E. unfold block_used. by rewrite E, Hd.
Qed.

Lemma bit_in_block d b : length d = BSIZEn -> bit_in d (b mod BPB).
Proof.
  intros Hl. unfold bit_in. rewrite Hl. pose proof (Z.mod_pos_bound b BPB ltac:(done)).
  unfold BSIZEn, BPB, BSIZE in *. lia.
Qed.

Lemma BBLOCK_shift k bi sb : 0 <= bi < BPB -> BBLOCK (k * BPB + bi) sb = BBLOCK (k * BPB) sb /\ (k * BPB + bi) mod BPB = bi.
Proof.
  intros Hb. unfold BBLOCK. assert (BPB <> 0) by done.
  rewrite Z.div_add_l, Z.div_mul, Z.div_small by lia. split; [lia|].
  rewrite Z.add_comm, Z.mod_add, Z.mod_small by lia. done.
Qed.

(** Marking or clearing a bit changes that block's state only. *)
Lemma block_used_bitmap sb v b d d' b' :
  alloc_ok sb v -> 0 <= b < sb_size sb -> v !! BBLOCK b sb = Some d ->
  (forall bi, bit_in d bi -> bi <> b mod BPB -> bm_used d' bi = bm_used d bi) -> b' <> b ->
  block_used sb (<[BBLOCK b sb := d']> v) b' = block_used sb v b'.
Proof.
  intros Hv Hb Hd Hsame Hne. unfold block_used. destruct (decide (BBLOCK b sb = BBLOCK b' sb)) as [E|E].
  - rewrite <- E, lookup_insert_eq, Hd. cbn. apply Hsame; [apply bit_in_block; by eapply ao_len|].
    intros Hm. apply Hne. unfold BBLOCK in E. assert (b / BPB = b' / BPB) as E' by lia.
    rewrite (Z.div_mod b' BPB), (Z.div_mod b BPB), E', Hm by done. done.
  - by rewrite lookup_insert_ne.
Qed.

Lemma block_used_mark sb v b d :
  alloc_ok sb v -> 0 <= b < sb_size sb -> v !! BBLOCK b sb = Some d ->
  forall b', block_used sb (<[BBLOCK b sb := bm_set d (b mod BPB)]> v) b' = bool_decide (b = b') || block_used sb v b'.
Proof.
  intros Hv Hb Hd b'. pose proof (ao_len _ _ Hv _ _ Hd) as Hl. case_bool_decide as E.
  - subst b'. unfold block_used. rewrite lookup_insert_eq. cbn.
    rewrite bm_used_set by (by apply bit_in_block). by rewrite bool_decide_eq_true_2.
  - cbn. apply (block_used_bitmap sb v b d); try done. intros bi Hbi Hne.
    rewrite bm_used_set by (try done; by apply bit_in_block). by rewrite bool_decide_eq_false_2.
Qed.

Lemma block_used_unmark sb v b d :
  alloc_ok sb v -> 0 <= b < sb_size sb -> v !! BBLOCK b sb = Some d ->
  forall b', block_used sb (<[BBLOCK b sb := bm_clear d (b mod BPB)]> v) b' =
             negb (bool_decide (b = b')) && block_used sb v b'.
Proof.
  intros Hv Hb Hd b'. pose proof (ao_len _ _ Hv _ _ Hd) as Hl. case_bool_decide as E.
  - subst b'. unfold block_used. rewrite lookup_insert_eq. cbn.
    rewrite bm_used_clear by (by apply bit_in_block). by rewrite bool_decide_eq_true_2.
  - cbn. apply (block_used_bitmap sb v b d); try done. intros bi Hbi Hne.
    rewrite bm_used_clear by (try done; by apply bit_in_block). by rewrite bool_decide_eq_false_2.
Qed.

(** Changing a block that is not part of the bitmap. *)
Lemma block_used_other sb v b d b' :
  alloc_ok sb v -> block_used sb v b = false -> 0 <= b' < sb_size sb ->
  block_used sb (<[b := d]> v) b' = block_used sb v b'.
Proof.
  intros Hv Hf Hb'. unfold block_used. rewrite lookup_insert_ne; [done|]. intros ->.
  destruct (ao_bitmap _ _ Hv b' Hb') as [_ Hu]. congruence.
Qed.

(** ** Searching a bitmap block *)

Lemma find_free_spec d n bi :
  match find_free d n bi with
  | Some b => bi <= b < bi + Z.of_nat n /\ bm_used d b = false /\ forall b', bi <= b' < b -> bm_used d b' = true
  | None => forall b', bi <= b' < bi + Z.of_nat n -> bm_used d b' = true
  end.
Proof.
  revert bi. induction n as [|n IH]; intros bi; cbn [find_free]; [lia|].
  destruct (bm_used d bi) eqn:E.
  - specialize (IH (bi + 1)). destruct (find_free d n (bi + 1)) as [b|].
    + destruct IH as (H1 & H2 & H3). split; [lia|]. split; [done|]. intros b' Hb'.
      destruct (decide (b' = bi)) as [->|]; [done|]. apply H3. lia.
    + intros b' Hb'. destruct (decide (b' = bi)) as [->|]; [done|]. apply IH. lia.
  - split; [lia|]. split; [done|]. lia.
Qed.

Lemma count_free_spec d n bi :
  count_free d n bi = Z.of_nat (length (filter (fun b => bm_used d b = false) (seqZ bi (Z.of_nat n)))).
Proof.
  revert bi. induction n as [|n IH]; intros bi; cbn [count_free]; [done|].
  rewrite seqZ_cons by lia. rewrite filter_cons, IH.
  replace (Z.pred (Z.of_nat (S n))) with (Z.of_nat n) by lia. change (Z.succ bi) with (bi + 1).
  destruct (bm_used d bi) eqn:E; [rewrite decide_False by done|rewrite decide_True by done]; cbn [length]; lia.
Qed.

(** ** Specifications *)

Section Alloc.
Context {St U : Type} `{BlockStore St} `{UserMem U}.
Context (u : U) (sb : superblock) (cwd : nat) (pid : Z).
Abbreviation fw := (fw u sb cwd pid).

(** The transaction can take [k] more blocks, with a buffer to spare. *)
Definition room (k : nat) (t : tstate) : Prop :=
  (length (t_logged t) + k <= bs_limit)%nat /\ (size (t_open t) + length (t_logged t) + k <= NBUFn)%nat /\
  t_dirty t = ∅ /\ 1 <= t_out t.

Lemma room_open k t x : room (S k) t -> is_Some (t_view t !! x) -> t_open t !! x = None -> can_open t x.
Proof. intros (_ & Hs & _) Hx Ho. split; [done|]. split; [done|]. right. lia. Qed.

Lemma room_le k k' t : (k' <= k)%nat -> room k t -> room k' t.
Proof. intros Hk (H1 & H2 & H3 & H4). unfold room. split; [lia|]. split; [lia|]. split; done. Qed.

(** How much logging [x] adds to the transaction. *)
Definition pot (x : Z) (t : tstate) : nat := if decide (x ∈ t_logged t) then 0 else 1.

Lemma length_t_add_pot x t : length (t_add x (t_logged t)) = (length (t_logged t) + pot x t)%nat.
Proof. unfold t_add, pot. case_decide; [lia|]. rewrite length_app. cbn. lia. Qed.

Lemma room_update_pot k t x d : room (pot x t + k) t -> room k (t_update x d t).
Proof.
  intros (H1 & H2 & H3 & H4). unfold room, t_update. cbn [t_logged t_open t_dirty t_out]. rewrite length_t_add_pot.
  split; [lia|]. split; [lia|]. split; done.
Qed.

Lemma bzero_wp st il tr t b d Q :
  bs_rep st t -> room 1 t -> t_open t !! b = None -> t_view t !! b = Some d -> length d = BSIZEn ->
  (forall st' tr', bs_rep st' (t_update b (replicate BSIZEn 0) t) -> Q tt (fw tr' st' il)) ->
  wp (bzero ROOTDEV b) Q (fw tr st il).
Proof.
  intros Hr Hroom Ho Hd Hl HQ. unfold bzero. wp_step.
  eapply f_bread_wp; [done|by apply (room_open 0)|]. intros i st1 tr1 R1.
  wp_step. eapply f_data_wp; [exact R1|apply t_opened_eq|exact Hd|].
  destruct Hroom as (Hlim & _ & Hdt & Hout).
  assert (splice 0 (replicate BSIZEn 0) d = replicate BSIZEn 0) as ->.
  { unfold splice. cbn [take app]. rewrite drop_ge; [apply app_nil_r|]. rewrite length_replicate. lia. }
  wp_step. eapply f_set_wp; [exact R1|apply t_opened_eq|apply length_replicate|]. intros st2 tr2 R2.
  wp_step. eapply f_log_write_wp; [exact R2|apply t_opened_eq|cbn; lia|done|]. intros st3 tr3 R3.
  eapply f_brelse_wp; [exact R3|apply t_opened_eq|apply wrote_clean|]. intros st4 tr4 R4.
  rewrite t_update_done in R4 by done. by apply HQ.
Qed.

(** What an allocation of [b] does to the transaction. *)
Definition t_alloc (b : Z) (t : tstate) : tstate :=
  t_update b (replicate BSIZEn 0)
    (t_update (BBLOCK b sb) (bm_set (default [] (t_view t !! BBLOCK b sb)) (b mod BPB)) t).

(** No block balloc() may touch is open. *)
Definition alloc_closed (t : tstate) : Prop :=
  (forall b, 0 <= b < sb_size sb -> t_open t !! BBLOCK b sb = None) /\
  (forall b, 0 <= b < sb_size sb -> block_used sb (t_view t) b = false -> t_open t !! b = None).

Section Balloc.
Context (il : list inode) (t : tstate) (Q : Z -> world (fstate St U) -> Prop).
Hypothesis Hroom : forall b, 0 <= b < sb_size sb -> room (pot (BBLOCK b sb) t + 1) t.
Hypothesis Hok : alloc_ok sb (t_view t).
Hypothesis Hclosed : alloc_closed t.
Hypothesis HQ : forall b st' tr', 0 <= b < sb_size sb -> block_used sb (t_view t) b = false ->
  (forall b', 0 <= b' < b -> block_used sb (t_view t) b' = true) ->
  bs_rep st' (t_alloc b t) -> Q b (fw tr' st' il).
Hypothesis HQ0 : forall st' tr', (forall b, 0 <= b < sb_size sb -> block_used sb (t_view t) b = true) ->
  bs_rep st' t -> Q 0 (fw tr' st' il).

(** The bits balloc() looks at in one block. *)
Lemma bits_here_range k : 0 <= k -> k * BPB < sb_size sb ->
  0 <= Z.of_nat (bits_here (k * BPB) sb) <= BPB /\
  (forall b, k * BPB <= b < (k + 1) * BPB -> b < sb_size sb -> b - k * BPB < Z.of_nat (bits_here (k * BPB) sb)) /\
  k * BPB + Z.of_nat (bits_here (k * BPB) sb) <= sb_size sb.
Proof.
  intros Hk Hlt. unfold bits_here. change BPB with 8192 in *. rewrite Z2Nat.id by lia.
  split; [lia|]. split; [intros; lia|lia].
Qed.

Lemma kputs_wp s st tr (R : unit -> world (fstate St U) -> Prop) :
  (forall tr', R tt (fw tr' st il)) -> wp (kputs_ln s) R (fw tr st il).
Proof.
  intros HR. unfold kputs_ln. wp_step. revert tr. induction s as [|c s IH]; intros tr; cbn [kputs].
  - do 2 wp_step. apply HR.
  - do 2 wp_step. apply IH.
Qed.

Lemma balloc_loop_wp n k st tr :
  0 <= k -> sb_size sb <= (k + Z.of_nat n - 1) * BPB -> (0 < n)%nat -> bs_rep st t ->
  (forall b', 0 <= b' < k * BPB -> b' < sb_size sb -> block_used sb (t_view t) b' = true) ->
  wp (iter n (balloc_step ROOTDEV sb) (k * BPB)) Q (fw tr st il).
Proof.
  destruct Hclosed as [Hc1 Hc2].
  revert k st tr. induction n as [|n IH]; intros k st tr Hk Hn Hpos Hr Hused; [lia|].
  cbn [iter]. wp_step. unfold balloc_step at 1. destruct (Z.ltb_spec (k * BPB) (sb_size sb)) as [Hlt|Hge]; cbn [negb].
  2:{ wp_step. apply kputs_wp. intros tr'. do 2 wp_step. apply HQ0; [|done]. intros b Hb. apply Hused; lia. }
  assert (0 <= k * BPB < sb_size sb) as Hkb by (unfold BPB, BSIZE in *; lia). pose proof (Hroom _ Hkb) as Hrm.
  destruct (bitmap_block _ _ _ Hok Hkb) as (d & Hd & Hl & Hbits).
  destruct (bits_here_range k Hk Hlt) as (Hb1 & Hb2 & Hb3).
  assert (forall bi, 0 <= bi < BPB -> block_used sb (t_view t) (k * BPB + bi) = bm_used d bi) as Hbit.
  { intros bi Hbi. destruct (BBLOCK_shift k bi sb Hbi) as [E1 E2]. by rewrite Hbits, E2. }
  wp_step. eapply f_bread_wp; [exact Hr|apply (room_open (pot (BBLOCK (k * BPB) sb) t)); [by rewrite Nat.add_comm in Hrm|by eexists|by apply Hc1]|]. intros i st1 tr1 R1.
  wp_step. eapply f_data_wp; [exact R1|apply t_opened_eq|exact Hd|].
  pose proof (find_free_spec d (bits_here (k * BPB) sb) 0) as Hff. pose proof Hrm as (Hlim & _ & Hdt & Hout).
  destruct (find_free d _ 0) as [bi|].
  - destruct Hff as (Hbi & Hfree & Hbefore). destruct (BBLOCK_shift k bi sb ltac:(lia)) as [E1 E2].
    assert (0 <= k * BPB + bi < sb_size sb) as Hin by lia.
    assert (block_used sb (t_view t) (k * BPB + bi) = false) as Hfree' by (rewrite Hbit by lia; done).
    eapply write_block_wp; [exact R1|by apply Hc1|done|exact Hd|by rewrite length_bm_set|lia|done|].
    intros st2 tr2 R2. wp_step. destruct (ao_blocks _ _ Hok _ Hin Hfree') as [d' Hd'].
    assert (BBLOCK (k * BPB) sb <> k * BPB + bi) as Hne.
    { intros E. destruct (ao_bitmap _ _ Hok _ Hkb) as [_ Hu]. rewrite E in Hu. congruence. }
    eapply (bzero_wp _ _ _ _ _ d'); [exact R2|by apply room_update_pot| | | |].
    + cbn. by apply Hc2.
    + cbn. by rewrite lookup_insert_ne.
    + by eapply ao_len.
    + intros st3 tr3 R3. do 2 wp_step. apply HQ; [lia|done| |].
      * intros b' Hb'. destruct (decide (b' < k * BPB)); [apply Hused; lia|].
        replace b' with (k * BPB + (b' - k * BPB)) by lia. rewrite Hbit by lia. apply Hbefore. lia.
      * unfold t_alloc. rewrite E1, E2, Hd. exact R3.
  - wp_step. eapply f_brelse_wp; [exact R1|apply t_opened_eq|by apply none_dirty|]. intros st2 tr2 R2.
    rewrite t_close_open in R2 by (by apply Hc1). wp_step.
    replace (k * BPB + BPB) with ((k + 1) * BPB) by lia. apply IH; [lia| | |done|].
    + unfold BPB, BSIZE in *. lia.
    + destruct n; [|lia]. unfold BPB, BSIZE in *. lia.
    + intros b' Hb' Hs. destruct (decide (b' < k * BPB)); [apply Hused; lia|].
      replace b' with (k * BPB + (b' - k * BPB)) by lia. rewrite Hbit by (unfold BPB, BSIZE in *; lia).
      apply Hff. specialize (Hb2 b'). lia.
Qed.

Lemma balloc_wp st tr : bs_rep st t -> wp (balloc ROOTDEV) Q (fw tr st il).
Proof.
  intros Hr. unfold balloc. do 2 wp_step. cbn [user fs_sb FsAlloc.fw].
  apply (balloc_loop_wp _ 0); [lia| |unfold bitmap_fuel; lia|done|lia].
  unfold bitmap_fuel. pose proof (ao_size _ _ Hok).
  pose proof (Z.div_mod (sb_size sb) BPB ltac:(done)). pose proof (Z.mod_pos_bound (sb_size sb) BPB ltac:(done)).
  assert (0 <= sb_size sb / BPB) by (apply Z.div_pos; [lia|done]).
  rewrite !Nat2Z.inj_succ, Z2Nat.id by done. unfold BPB, BSIZE in *. lia.
Qed.
End Balloc.

(** ** bfree() *)

Definition t_free (b : Z) (t : tstate) : tstate :=
  t_update (BBLOCK b sb) (bm_clear (default [] (t_view t !! BBLOCK b sb)) (b mod BPB)) t.

Lemma bfree_wp st il tr t b Q :
  bs_rep st t -> room 1 t -> alloc_ok sb (t_view t) -> 0 <= b < sb_size sb ->
  t_open t !! BBLOCK b sb = None -> block_used sb (t_view t) b = true ->
  (forall st' tr', bs_rep st' (t_free b t) -> Q tt (fw tr' st' il)) ->
  wp (bfree ROOTDEV b) Q (fw tr st il).
Proof.
  intros Hr Hroom Hok Hb Ho Hu HQ. destruct (bitmap_block _ _ _ Hok Hb) as (d & Hd & Hl & Hbits).
  unfold bfree. do 2 wp_step. cbn [user fs_sb FsAlloc.fw].
  wp_step. eapply f_bread_wp; [exact Hr|apply (room_open 0); [done|by eexists|done]|]. intros i st1 tr1 R1.
  wp_step. eapply f_data_wp; [exact R1|apply t_opened_eq|exact Hd|].
  rewrite <- (Hbits b eq_refl), Hu. cbn [negb]. destruct Hroom as (Hlim & _ & Hdt & Hout).
  wp_step. eapply f_set_wp; [exact R1|apply t_opened_eq|by rewrite length_bm_clear|]. intros st2 tr2 R2.
  wp_step. eapply f_log_write_wp; [exact R2|apply t_opened_eq|cbn; lia|done|]. intros st3 tr3 R3.
  eapply f_brelse_wp; [exact R3|apply t_opened_eq|apply wrote_clean|]. intros st4 tr4 R4.
  rewrite t_update_done in R4 by done. apply HQ. unfold t_free. by rewrite Hd.
Qed.

(** ** The effect on the bitmap *)

Lemma t_alloc_used t b b' :
  alloc_ok sb (t_view t) -> 0 <= b < sb_size sb -> block_used sb (t_view t) b = false -> 0 <= b' < sb_size sb ->
  block_used sb (t_view (t_alloc b t)) b' = bool_decide (b = b') || block_used sb (t_view t) b'.
Proof.
  intros Hok Hb Hf Hb'. destruct (bitmap_block _ _ _ Hok Hb) as (d & Hd & Hl & _).
  unfold t_alloc, t_update. cbn [t_view]. rewrite Hd. cbn [default].
  rewrite <- (block_used_mark sb _ b d Hok Hb Hd). unfold block_used.
  rewrite lookup_insert_ne; [done|]. intros E. destruct (ao_bitmap _ _ Hok b' Hb') as [_ Hu]. congruence.
Qed.

Lemma alloc_ok_update t x d :
  alloc_ok sb (t_view t) -> length d = BSIZEn ->
  (forall b, 0 <= b < sb_size sb -> block_used sb (t_view (t_update x d t)) b = false ->
     block_used sb (t_view t) b = false \/ is_Some (t_view t !! b)) ->
  (forall b', 0 <= b' < sb_size sb -> block_used sb (t_view (t_update x d t)) (BBLOCK b' sb) = true) ->
  alloc_ok sb (t_view (t_update x d t)).
Proof.
  intros [H1 H2 H3 Hrg H4] Hl Hf Hu.
  assert (forall b, is_Some (t_view t !! b) -> is_Some (t_view (t_update x d t) !! b)) as Hsome.
  { intros b Hb. cbn [t_view t_update]. destruct (decide (x = b)) as [<-|]; [rewrite lookup_insert_eq; by eexists|].
    by rewrite lookup_insert_ne. }
  constructor; [done| | |done|].
  - intros y b. cbn [t_view t_update]. destruct (decide (x = y)) as [<-|]; [rewrite lookup_insert_eq; congruence|].
    rewrite lookup_insert_ne by done. apply H2.
  - intros b Hb Hfb. apply Hsome. destruct (Hf b Hb Hfb) as [Hf'|]; [by apply H3|done].
  - intros b Hb. split; [apply Hsome, (H4 b Hb)|by apply Hu].
Qed.

Lemma t_alloc_ok t b :
  alloc_ok sb (t_view t) -> 0 <= b < sb_size sb -> block_used sb (t_view t) b = false ->
  alloc_ok sb (t_view (t_alloc b t)).
Proof.
  intros Hok Hb Hf. destruct (bitmap_block _ _ _ Hok Hb) as (d & Hd & Hl & _).
  set (t1 := t_update (BBLOCK b sb) (bm_set d (b mod BPB)) t).
  assert (forall b', block_used sb (t_view t1) b' = bool_decide (b = b') || block_used sb (t_view t) b') as Hu1.
  { by apply block_used_mark. }
  assert (alloc_ok sb (t_view t1)) as H1.
  { apply alloc_ok_update; [done|by rewrite length_bm_set| |]; fold t1.
    - intros b' _. rewrite Hu1. intros E. apply orb_false_iff in E as [_ E]. by left.
    - intros b' Hb'. rewrite Hu1. destruct (ao_bitmap _ _ Hok b' Hb') as [_ ->]. apply orb_true_r. }
  unfold t_alloc. rewrite Hd. cbn [default]. fold t1.
  assert (forall b', 0 <= b' < sb_size sb -> BBLOCK b' sb <> b) as Hnb.
  { intros b' Hb' E. destruct (ao_bitmap _ _ Hok b' Hb') as [_ Hu]. congruence. }
  assert (forall b', 0 <= b' < sb_size sb ->
    block_used sb (t_view (t_update b (replicate BSIZEn 0) t1)) b' = block_used sb (t_view t1) b') as Hsame.
  { intros b' Hb'. unfold block_used at 1. cbn [t_view t_update]. rewrite lookup_insert_ne; [done|].
    intros E. by apply (Hnb b' Hb'). }
  apply alloc_ok_update; [done|apply length_replicate| |].
  - intros b' Hb'. rewrite Hsame by done. by left.
  - intros b' Hb'. rewrite Hsame by (by apply (ao_range _ _ Hok)). by apply (ao_bitmap _ _ H1).
Qed.

Lemma t_free_used t b b' :
  alloc_ok sb (t_view t) -> 0 <= b < sb_size sb ->
  block_used sb (t_view (t_free b t)) b' = negb (bool_decide (b = b')) && block_used sb (t_view t) b'.
Proof.
  intros Hok Hb. destruct (bitmap_block _ _ _ Hok Hb) as (d & Hd & _ & _).
  unfold t_free, t_update. cbn [t_view]. rewrite Hd. by apply block_used_unmark.
Qed.

Lemma t_free_ok t b :
  alloc_ok sb (t_view t) -> 0 <= b < sb_size sb -> is_Some (t_view t !! b) ->
  (forall b', 0 <= b' < sb_size sb -> b <> BBLOCK b' sb) ->
  alloc_ok sb (t_view (t_free b t)).
Proof.
  intros Hok Hb Hsome Hne. destruct (bitmap_block _ _ _ Hok Hb) as (d & Hd & Hl & _).
  pose proof (t_free_used t b) as Hu. unfold t_free in *. rewrite Hd in *. cbn [default] in *.
  apply alloc_ok_update; [done|by rewrite length_bm_clear| |].
  - intros b' Hb'. rewrite Hu by done. intros E. destruct (decide (b = b')) as [<-|Hn]; [by right|left].
    by rewrite bool_decide_eq_false_2 in E.
  - intros b' Hb'. rewrite Hu by done. destruct (ao_bitmap _ _ Hok b' Hb') as [_ ->].
    rewrite bool_decide_eq_false_2; [done|]. by apply Hne.
Qed.

Lemma elem_of_free_blocks v b : b ∈ free_blocks sb v <-> 0 <= b < sb_size sb /\ block_used sb v b = false.
Proof. unfold free_blocks. rewrite list_elem_of_filter, elem_of_seqZ. rewrite Z.add_0_l. tauto. Qed.

Lemma free_blocks_ext v v' :
  (forall b, 0 <= b < sb_size sb -> block_used sb v' b = block_used sb v b) -> free_blocks sb v' = free_blocks sb v.
Proof.
  intros Hu. apply filter_ext_elem. intros b Hb. apply elem_of_seqZ in Hb. by rewrite Hu by lia.
Qed.

(** The free list is in increasing order: its least element comes first. *)
Lemma seqZ_filter_sorted (P : Z -> Prop) `{forall x, Decision (P x)} m n :
  StronglySorted Z.lt (filter P (seqZ m n)).
Proof.
  destruct (decide (0 <= n)) as [Hn|Hn]; [|rewrite seqZ_nil by lia; constructor].
  revert m. apply (Z.right_induction (fun n => forall m, StronglySorted Z.lt (filter P (seqZ m n)))) with (z := 0); [solve_proper| | |done].
  - intros m. constructor.
  - intros k Hk IH m. rewrite seqZ_cons by lia. rewrite filter_cons, Z.pred_succ.
    case_decide; [|apply IH]. constructor; [apply IH|]. apply list.Forall_forall. intros x Hx.
    apply list_elem_of_filter in Hx as [_ Hx]. apply elem_of_seqZ in Hx. lia.
Qed.

Lemma head_of_sorted (l : list Z) b : (forall x, x ∈ l -> b <= x) -> b ∈ l -> StronglySorted Z.lt l -> head l = Some b.
Proof.
  intros Hmin Hin Hs. destruct l as [|x l]; [by apply not_elem_of_nil in Hin|]. cbn. f_equal.
  apply elem_of_cons in Hin as [->|Hin]; [done|].
  apply StronglySorted_inv in Hs as [_ Hs]. rewrite list.Forall_forall in Hs. specialize (Hs b Hin).
  specialize (Hmin x ltac:(by left)). lia.
Qed.

Lemma free_blocks_remove v v' b :
  b ∈ free_blocks sb v ->
  (forall b', 0 <= b' < sb_size sb -> block_used sb v' b' = bool_decide (b = b') || block_used sb v b') ->
  free_blocks sb v ≡ₚ b :: free_blocks sb v'.
Proof.
  intros Hb Hu. assert (NoDup (seqZ 0 (sb_size sb))) as Hnd by apply NoDup_seqZ.
  apply NoDup_Permutation.
  - by apply list.NoDup_filter.
  - apply list.NoDup_cons. split; [|by apply list.NoDup_filter].
    rewrite elem_of_free_blocks. intros [Hr Hf]. rewrite Hu, bool_decide_eq_true_2 in Hf by done. done.
  - intros x. rewrite elem_of_cons, !elem_of_free_blocks. apply elem_of_free_blocks in Hb as [Hr Hf]. split.
    + intros [Hx Hfx]. destruct (decide (x = b)) as [|Hne]; [by left|right]. split; [done|].
      rewrite Hu by done. rewrite bool_decide_eq_false_2 by done. done.
    + intros [->|[Hx Hfx]]; [done|]. split; [done|]. rewrite Hu in Hfx by done. by apply orb_false_iff in Hfx as [_ ?].
Qed.

(** ** count_free_blocks() *)

Lemma length_filter_ext {A B} (P : A -> Prop) (P' : B -> Prop) `{forall x, Decision (P x)} `{forall x, Decision (P' x)}
    (f : A -> B) (l : list A) :
  (forall x, x ∈ l -> P x <-> P' (f x)) -> length (filter P l) = length (filter P' (f <$> l)).
Proof.
  induction l as [|x l IH]; intros Hext; [done|]. rewrite fmap_cons, !filter_cons.
  assert (P x <-> P' (f x)) as Hx by (apply Hext; by left).
  assert (length (filter P l) = length (filter P' (f <$> l))) as E by (apply IH; intros y Hy; apply Hext; by right).
  destruct (decide (P x)), (decide (P' (f x))); cbn [length]; tauto || lia.
Qed.

(** The free blocks below [n]. *)
Definition free_below (v : gmap Z block) (n : Z) : nat :=
  length (filter (fun b => block_used sb v b = false) (seqZ 0 n)).

Lemma free_below_add v k n d :
  0 <= k -> 0 <= n <= BPB -> (forall bi, 0 <= bi < BPB -> block_used sb v (k * BPB + bi) = bm_used d bi) ->
  Z.of_nat (free_below v (k * BPB + n)) = Z.of_nat (free_below v (k * BPB)) + count_free d (Z.to_nat n) 0.
Proof.
  intros Hk Hn Hbit. unfold free_below. assert (0 <= k * BPB) by (unfold BPB, BSIZE; lia).
  rewrite seqZ_app by lia. rewrite list.filter_app, length_app, Nat2Z.inj_add, count_free_spec. f_equal. f_equal.
  rewrite Z2Nat.id by lia. symmetry.
  rewrite Z.add_0_l. replace (seqZ (k * BPB) n) with (Z.add (k * BPB) <$> seqZ 0 n).
  2:{ rewrite fmap_add_seqZ. f_equal. lia. }
  apply length_filter_ext. intros bi Hbi. apply elem_of_seqZ in Hbi. by rewrite Hbit by lia.
Qed.

Lemma free_below_le v n : 0 <= n -> Z.of_nat (free_below v n) <= n.
Proof.
  intros Hn. unfold free_below. pose proof (length_filter (fun b => block_used sb v b = false) (seqZ 0 n)) as Hl.
  rewrite length_seqZ in Hl. lia.
Qed.

Lemma count_loop_wp il t Q n k st tr :
  room 1 t -> alloc_ok sb (t_view t) -> (forall b, 0 <= b < sb_size sb -> t_open t !! BBLOCK b sb = None) ->
  (forall st' tr', bs_rep st' t -> Q (Z.of_nat (length (free_blocks sb (t_view t)))) (fw tr' st' il)) ->
  0 <= k -> sb_size sb <= (k + Z.of_nat n - 1) * BPB -> (0 < n)%nat -> bs_rep st t ->
  wp (iter n (count_step sb) (k * BPB, Z.of_nat (free_below (t_view t) (Z.min (sb_size sb) (k * BPB))))) Q (fw tr st il).
Proof.
  intros Hroom Hok Hc HQ. pose proof (ao_size _ _ Hok) as Hsz.
  revert k st tr. induction n as [|n IH]; intros k st tr Hk Hn Hpos Hr; [lia|].
  cbn [iter]. wp_step. unfold count_step at 1. destruct (Z.ltb_spec (k * BPB) (sb_size sb)) as [Hlt|Hge]; cbn [negb].
  2:{ do 2 wp_step. rewrite Z.min_l by lia. by apply HQ. }
  assert (0 <= k * BPB < sb_size sb) as Hkb by (unfold BPB, BSIZE in *; lia).
  destruct (bitmap_block _ _ _ Hok Hkb) as (d & Hd & Hl & Hbits).
  assert (forall bi, 0 <= bi < BPB -> block_used sb (t_view t) (k * BPB + bi) = bm_used d bi) as Hbit.
  { intros bi Hbi. destruct (BBLOCK_shift k bi sb Hbi) as [E1 E2]. by rewrite Hbits, E2. }
  eapply read_block_wp; [exact Hr|apply (room_open 0); [done|by eexists|by apply Hc]|exact Hd|apply Hroom|].
  intros st' tr' R'. wp_step.
  assert (0 < BPB) as HB by done.
  pose proof (free_below_add (t_view t) k (Z.min BPB (sb_size sb - k * BPB)) d Hk ltac:(lia) Hbit) as Hadd.
  rewrite Z.min_r by lia. unfold bits_here. rewrite <- Hadd.
  replace (k * BPB + Z.min BPB (sb_size sb - k * BPB)) with (Z.min (sb_size sb) ((k + 1) * BPB)) by lia.
  pose proof (free_below_le (t_view t) (Z.min (sb_size sb) ((k + 1) * BPB)) ltac:(lia)).
  rewrite u32_small by lia. replace (k * BPB + BPB) with ((k + 1) * BPB) by lia.
  apply IH; [lia| | |done].
  - unfold BPB, BSIZE in *. lia.
  - destruct n; [|lia]. unfold BPB, BSIZE in *. lia.
Qed.

Lemma count_free_blocks_wp il t Q st tr d1 :
  room 1 t -> alloc_ok sb (t_view t) -> (forall b, 0 <= b < sb_size sb -> t_open t !! BBLOCK b sb = None) ->
  t_view t !! 1 = Some d1 -> sb_decode d1 = sb -> t_open t !! 1 = None -> bs_rep st t ->
  (forall st' tr', bs_rep st' t -> Q (Z.of_nat (length (free_blocks sb (t_view t)))) (fw tr' st' il)) ->
  wp count_free_blocks Q (fw tr st il).
Proof.
  intros Hroom Hok Hc Hd1 Hsb Ho1 Hr HQ. unfold count_free_blocks, readsb. wp_step.
  eapply read_block_wp; [exact Hr|apply (room_open 0); [done|by eexists|done]|exact Hd1|apply Hroom|].
  intros st1 tr1 R1. wp_step. rewrite Hsb. pose proof (ao_size _ _ Hok) as Hsz.
  replace (0, 0) with (0 * BPB, Z.of_nat (free_below (t_view t) (Z.min (sb_size sb) (0 * BPB)))).
  2:{ f_equal. by rewrite Z.min_r by lia. }
  apply (count_loop_wp il t Q _ 0); [done|done|done|done|lia| |unfold bitmap_fuel; lia|done].
  unfold bitmap_fuel.
  pose proof (Z.div_mod (sb_size sb) BPB ltac:(done)). pose proof (Z.mod_pos_bound (sb_size sb) BPB ltac:(done)).
  assert (0 <= sb_size sb / BPB) by (apply Z.div_pos; [lia|done]).
  rewrite !Nat2Z.inj_succ, Z2Nat.id by done. unfold BPB, BSIZE in *. lia.
Qed.
End Alloc.

(** ** The claims *)

Section Claims.
Context {St U : Type} `{BlockStore St} `{UserMem U}.
Context (u : U) (sb : superblock) (cwd : nat) (pid : Z).
Abbreviation fw := (fw u sb cwd pid).

(** C34. balloc() answers the lowest free block, zeroed and now marked in use, and
    changes nothing else; when no block is free it answers 0 and changes nothing.
    The bitmap stays well formed and exactly one block leaves the free set. *)
Theorem balloc_correct st il tr t
    (Hrep : bs_rep st t) (Hroom : room 2 t) (Hok : alloc_ok sb (t_view t)) (Hclosed : alloc_closed sb t) :
  wp (balloc ROOTDEV) (fun b w' => exists t', bs_rep (fs_store (user w')) t' /\ fs_inodes (user w') = il /\
    ((free_blocks sb (t_view t) = [] /\ b = 0 /\ t' = t) \/
     (head (free_blocks sb (t_view t)) = Some b /\
      t_view t' !! b = Some (replicate BSIZEn 0) /\ alloc_ok sb (t_view t') /\
      (forall x, x <> b -> x <> BBLOCK b sb -> t_view t' !! x = t_view t !! x) /\
      free_blocks sb (t_view t) ≡ₚ b :: free_blocks sb (t_view t')))) (fw tr st il).
Proof.
  apply (balloc_wp u sb cwd pid il t); try done.
  - intros b _. eapply room_le; [|exact Hroom]. unfold pot. case_decide; lia.
  - intros b st' tr' Hb Hf Hmin R. exists (t_alloc sb b t). split; [done|]. split; [done|]. right.
    assert (b ∈ free_blocks sb (t_view t)) as Hin by (by apply elem_of_free_blocks).
    split; [|split; [apply lookup_insert_eq|split; [by apply t_alloc_ok|split]]].
    + apply head_of_sorted; [|done|apply seqZ_filter_sorted].
      intros b' Hb'. apply elem_of_free_blocks in Hb' as [Hr' Hf'].
      destruct (decide (b' < b)) as [Hlt|]; [|lia]. rewrite Hmin in Hf' by lia. done.
    + intros x Hx1 Hx2. cbn. by rewrite !lookup_insert_ne.
    + apply free_blocks_remove; [done|]. intros b' Hb'. by apply t_alloc_used.
  - intros st' tr' Hall R. exists t. split; [done|]. split; [done|]. left. split; [|done].
    destruct (free_blocks sb (t_view t)) as [|x l] eqn:E; [done|].
    assert (x ∈ free_blocks sb (t_view t)) as Hx by (rewrite E; by left).
    apply elem_of_free_blocks in Hx as [Hr Hf]. rewrite Hall in Hf; done.
Qed.

(** bfree() of a block in use returns exactly that block to the free set and
    changes nothing but the bitmap; the bitmap stays well formed. *)
Theorem bfree_correct st il tr t b
    (Hrep : bs_rep st t) (Hroom : room 1 t) (Hok : alloc_ok sb (t_view t)) (Hb : 0 <= b < sb_size sb)
    (Hdata : is_Some (t_view t !! b)) (Hmeta : forall b', 0 <= b' < sb_size sb -> b <> BBLOCK b' sb)
    (Hclosed : t_open t !! BBLOCK b sb = None) (Hused : block_used sb (t_view t) b = true) :
  wp (bfree ROOTDEV b) (fun _ w' => exists t', bs_rep (fs_store (user w')) t' /\ fs_inodes (user w') = il /\
    alloc_ok sb (t_view t') /\ free_blocks sb (t_view t') ≡ₚ b :: free_blocks sb (t_view t) /\
    (forall x, x <> BBLOCK b sb -> t_view t' !! x = t_view t !! x)) (fw tr st il).
Proof.
  apply (bfree_wp u sb cwd pid _ _ _ t); try done. intros st' tr' R. exists (t_free sb b t).
  split; [done|]. split; [done|]. split; [by apply t_free_ok|]. split.
  - apply free_blocks_remove.
    + apply elem_of_free_blocks. split; [done|]. rewrite t_free_used by done. by rewrite bool_decide_eq_true_2.
    + intros b' Hb'. rewrite t_free_used by done. case_bool_decide as E; [by subst|done].
  - intros x Hx. cbn. by rewrite lookup_insert_ne.
Qed.

(** Freeing a block that is already free stops the kernel. *)
Theorem bfree_double_free st il tr t b
    (Hrep : bs_rep st t) (Hroom : room 1 t) (Hok : alloc_ok sb (t_view t)) (Hb : 0 <= b < sb_size sb)
    (Hclosed : t_open t !! BBLOCK b sb = None) (Hfree : block_used sb (t_view t) b = false) :
  bfree ROOTDEV b (fw tr st il) = Panic "freeing free block".
Proof.
  destruct (bitmap_block _ _ _ Hok Hb) as (d & Hd & Hl & Hbits). unfold bfree.
  apply panics_bind. wp_step. apply panics_bind. cbn [user fs_sb FsAlloc.fw].
  eapply f_bread_wp; [exact Hrep|apply (room_open 0); [done|by eexists|done]|]. intros i st1 tr1 R1.
  apply panics_bind. eapply f_data_wp; [exact R1|apply t_opened_eq|exact Hd|].
  by rewrite <- (Hbits b eq_refl), Hfree.
Qed.

(** count_free_blocks() answers the number of free blocks and changes nothing. *)
Theorem count_free_blocks_correct st il tr t d1
    (Hrep : bs_rep st t) (Hroom : room 1 t) (Hok : alloc_ok sb (t_view t))
    (Hclosed : forall b, 0 <= b < sb_size sb -> t_open t !! BBLOCK b sb = None)
    (Hd1 : t_view t !! 1 = Some d1) (Hsb : sb_decode d1 = sb) (Ho1 : t_open t !! 1 = None) :
  wp count_free_blocks (fun n w' => bs_rep (fs_store (user w')) t /\ fs_inodes (user w') = il /\
    n = Z.of_nat (length (free_blocks sb (t_view t)))) (fw tr st il).
Proof. by eapply (count_free_blocks_wp u sb cwd pid il t). Qed.
End Claims.

(** ** On the small image *)

#[local] Opaque demo_store.

Lemma demo_alloc_ok v :
  (forall x, v !! x = if decide (2 <= x < 10) then None else if decide (0 <= x) then demo_img !! Z.to_nat x else None) ->
  alloc_ok demo_sb v /\ forall b, 0 <= b < 16 -> block_used demo_sb v b = bool_decide (b < 13).
Proof.
  intros Hv.
  assert (forall b, 0 <= b < 16 -> BBLOCK b demo_sb = 11) as HB.
  { intros b Hb. unfold BBLOCK. change BPB with 8192. rewrite Z.div_small by lia. done. }
  assert (v !! 11 = Some (pad_block [255; 31])) as H11 by (rewrite Hv; done).
  assert (forall b, 0 <= b < 16 -> block_used demo_sb v b = bool_decide (b < 13)) as Hu.
  { intros b Hb. unfold block_used. rewrite HB, H11 by lia. cbn [default].
    assert (forallb (fun b => bool_decide (bm_used (pad_block [255; 31]) (b mod BPB) = bool_decide (b < 13))) (seqZ 0 16) = true)
      as Hall by (vm_compute; reflexivity).
    rewrite forallb_forall in Hall. apply (bool_decide_eq_true_1 _), Hall, list_elem_of_In, elem_of_seqZ. lia. }
  split; [|done]. constructor; cbn [sb_size demo_sb]; [lia| | | |].
  - intros x d. rewrite Hv. repeat case_decide; try done. intros Hd.
    pose proof demo_img_lengths as Hl. rewrite Forall_lookup in Hl. by eapply Hl.
  - intros b Hb. rewrite Hu by done. intros Hf. apply bool_decide_eq_false in Hf.
    rewrite Hv, decide_False, decide_True by lia. apply lookup_lt_is_Some_2. change (length demo_img) with 16%nat. lia.
  - intros b Hb. rewrite HB by lia. lia.
  - intros b Hb. rewrite HB by lia. split; [by eexists|]. by rewrite Hu by lia.
Qed.

Lemma demo_room t :
  t_open t = ∅ -> t_dirty t = ∅ -> t_logged t = [] -> t_out t = 1 -> room 2 t.
Proof.
  intros Ho Hd Hl Hout. unfold room. rewrite Ho, Hd, Hl, Hout.
  split; [apply Nat.leb_le; vm_compute; reflexivity|]. split; [apply Nat.leb_le; vm_compute; reflexivity|]. done.
Qed.

Definition demo_il : list inode := replicate NINODEn (Inode 0 0 0 unlocked false 0 0 0 0 0 (replicate NADDRS 0)).

(** C9 on the image: the first free block is 13. *)
Lemma balloc_correct_witness :
  exists t, bs_rep demo_store t /\ head (free_blocks demo_sb (t_view t)) = Some 13 /\
    wp (balloc ROOTDEV) (fun b w' => exists t', bs_rep (fs_store (user w')) t' /\ fs_inodes (user w') = demo_il /\
      ((free_blocks demo_sb (t_view t) = [] /\ b = 0 /\ t' = t) \/
       (head (free_blocks demo_sb (t_view t)) = Some b /\
        t_view t' !! b = Some (replicate BSIZEn 0) /\ alloc_ok demo_sb (t_view t') /\
        (forall x, x <> b -> x <> BBLOCK b demo_sb -> t_view t' !! x = t_view t !! x) /\
        free_blocks demo_sb (t_view t) ≡ₚ b :: free_blocks demo_sb (t_view t'))))
      (fw tt demo_sb 0 1 [] demo_store demo_il).
Proof.
  destruct demo_store_rep as (t & R & Ho & Hd & Hl & Hout & Hv). destruct (demo_alloc_ok _ Hv) as [Hok Hu].
  exists t. split; [exact R|]. split.
  - apply head_of_sorted; [| |apply seqZ_filter_sorted].
    + intros x Hx. apply elem_of_free_blocks in Hx as [Hx Hf]. rewrite Hu in Hf by exact Hx.
      apply bool_decide_eq_false in Hf. lia.
    + apply elem_of_free_blocks. split; [cbn; lia|]. rewrite Hu by lia. reflexivity.
  - apply (balloc_correct tt demo_sb 0 1 demo_store demo_il [] t); [exact R|exact (demo_room t Ho Hd Hl Hout)|exact Hok|].
    split; intros; rewrite Ho; apply lookup_empty.
Defined.

Lemma bfree_correct_witness :
  exists t, bs_rep demo_store t /\
    wp (bfree ROOTDEV 12) (fun _ w' => exists t', bs_rep (fs_store (user w')) t' /\ fs_inodes (user w') = demo_il /\
      alloc_ok demo_sb (t_view t') /\ free_blocks demo_sb (t_view t') ≡ₚ 12 :: free_blocks demo_sb (t_view t) /\
      (forall x, x <> BBLOCK 12 demo_sb -> t_view t' !! x = t_view t !! x)) (fw tt demo_sb 0 1 [] demo_store demo_il).
Proof.
  destruct demo_store_rep as (t & R & Ho & Hd & Hl & Hout & Hv). destruct (demo_alloc_ok _ Hv) as [Hok Hu].
  exists t. split; [exact R|].
  apply (bfree_correct tt demo_sb 0 1 demo_store demo_il [] t); [exact R| |exact Hok|cbn; lia| | | |].
  - exact (room_le 2 1 t (le_S _ _ (le_n _)) (demo_room t Ho Hd Hl Hout)).
  - rewrite Hv. by eexists.
  - intros b' Hb'. unfold BBLOCK. change BPB with 8192. rewrite Z.div_small by (cbn in Hb'; lia). done.
  - rewrite Ho. apply lookup_empty.
  - by rewrite Hu by lia.
Defined.

Lemma bfree_double_free_witness :
  bfree ROOTDEV 13 (fw tt demo_sb 0 1 [] demo_store demo_il) = Panic "freeing free block".
Proof.
  destruct demo_store_rep as (t & R & Ho & Hd & Hl & Hout & Hv). destruct (demo_alloc_ok _ Hv) as [Hok Hu].
  apply (bfree_double_free tt demo_sb 0 1 demo_store demo_il [] t); [exact R| |exact Hok|cbn; lia| |].
  - exact (room_le 2 1 t (le_S _ _ (le_n _)) (demo_room t Ho Hd Hl Hout)).
  - rewrite Ho. apply lookup_empty.
  - by rewrite Hu by lia.
Defined.

Lemma count_free_blocks_correct_witness :
  exists t, bs_rep demo_store t /\
    wp count_free_blocks (fun n w' => bs_rep (fs_store (user w')) t /\ fs_inodes (user w') = demo_il /\
      n = Z.of_nat (length (free_blocks demo_sb (t_view t)))) (fw tt demo_sb 0 1 [] demo_store demo_il).
Proof.
  destruct demo_store_rep as (t & R & Ho & Hd & Hl & Hout & Hv). destruct (demo_alloc_ok _ Hv) as [Hok Hu].
  exists t. split; [exact R|].
  apply (count_free_blocks_correct tt demo_sb 0 1 demo_store demo_il [] t (pad_block (sb_encode demo_sb)));
    [exact R| |exact Hok| | | |].
  - exact (room_le 2 1 t (le_S _ _ (le_n _)) (demo_room t Ho Hd Hl Hout)).
  - intros b Hb. rewrite Ho. apply lookup_empty.
  - rewrite Hv. reflexivity.
  - vm_compute. reflexivity.
  - rewrite Ho. apply lookup_empty.
Defined.
