(* ===== verification/FsFile.v ===== *)
(** * File contents (kernel/fs.c: bmap, readi, writei, iupdate)

    The bytes of a file as a function of the blocks on disk and its inode; bmap()
    finds or allocates the block of an offset without disturbing any byte, readi()
    answers the bytes of the file, writei() overwrites and extends them. *)

From S2P Require Import Prelude Machine Sleeplock Bio Store FsDisk Fs FsAlloc.

Open Scope Z_scope.

(** ** The blocks of a file *)

Definition ind_addr (i : inode) : Z := i_addrs i !!! Z.to_nat NDIRECT.

(** The disk address of block [n] of the file, 0 if it has none. *)
Definition addr_at (v : gmap Z block) (i : inode) (n : Z) : Z :=
  if n <? NDIRECT then i_addrs i !!! Z.to_nat n
  else if ind_addr i =? 0 then 0
  else get_u32 (4 * Z.to_nat (n - NDIRECT)) (default [] (v !! ind_addr i)).

(** The byte at offset [o] of the file. *)
Definition byte_at (v : gmap Z block) (i : inode) (o : Z) : option Z :=
  let a := addr_at v i (o / BSIZE) in
  if a =? 0 then None else d ← v !! a; d !! Z.to_nat (o mod BSIZE).

Definition file_bytes (v : gmap Z block) (i : inode) (off n : Z) : list Z :=
  (fun k => default 0 (byte_at v i k)) <$> seqZ off n.
Definition content (v : gmap Z block) (i : inode) : list Z := file_bytes v i 0 (i_size i).

(** A block of file data: in use, and neither bitmap nor inodes. *)
Record data_block (sb : superblock) (v : gmap Z block) (x : Z) : Prop := DataBlock {
  db_range : 0 <= x < sb_size sb;
  db_some : is_Some (v !! x);
  db_used : block_used sb v x = true;
  db_bitmap : forall b, 0 <= b < sb_size sb -> x <> BBLOCK b sb;
  db_inode : forall k, 0 <= k < sb_ninodes sb -> x <> IBLOCK k sb
}.

Record fs_ok (sb : superblock) (v : gmap Z block) : Prop := FsOk {
  fk_alloc : alloc_ok sb v;
  fk_boot : 0 < sb_size sb -> block_used sb v 0 = true;
  fk_inodes : forall k, 0 <= k < sb_ninodes sb ->
    is_Some (v !! IBLOCK k sb) /\ 0 <= IBLOCK k sb < sb_size sb /\ block_used sb v (IBLOCK k sb) = true /\
    (forall b, 0 <= b < sb_size sb -> IBLOCK k sb <> BBLOCK b sb)
}.

Definition file_range (n : Z) : Prop := 0 <= n < MAXFILE.

(** The blocks of a file are distinct data blocks, and every byte below its size
    has one. *)
Record file_ok (sb : superblock) (v : gmap Z block) (i : inode) : Prop := FileOk {
  fo_dev : i_dev i = ROOTDEV;
  fo_len : length (i_addrs i) = NADDRS;
  fo_words : Forall word (i_addrs i);
  fo_size : 0 <= i_size i <= MAXFILE * BSIZE;
  fo_inum : 0 <= i_inum i < sb_ninodes sb;
  fo_ind : ind_addr i <> 0 -> data_block sb v (ind_addr i);
  fo_addr : forall n, file_range n -> addr_at v i n <> 0 ->
    data_block sb v (addr_at v i n) /\ addr_at v i n <> ind_addr i;
  fo_inj : forall n m, file_range n -> file_range m -> addr_at v i n = addr_at v i m -> addr_at v i n <> 0 -> n = m;
  fo_full : forall o, 0 <= o < i_size i -> addr_at v i (o / BSIZE) <> 0
}.

Definition i_set_addrs (l : list Z) (i : inode) : inode :=
  Inode (i_dev i) (i_inum i) (i_ref i) (i_lock i) (i_valid i) (i_type i) (i_major i) (i_minor i) (i_nlink i) (i_size i) l.

(** ** Allocation, as a function of the view *)

Section View.
Context (sb : superblock).

Definition v_alloc (b : Z) (v : gmap Z block) : gmap Z block :=
  <[b := replicate BSIZEn 0]> (<[BBLOCK b sb := bm_set (default [] (v !! BBLOCK b sb)) (b mod BPB)]> v).

Definition v_free (v : gmap Z block) (b : Z) : Prop := 0 <= b < sb_size sb /\ block_used sb v b = false.

Lemma v_alloc_view t b : t_view (t_alloc sb b t) = v_alloc b (t_view t).
Proof. done. Qed.

Lemma v_alloc_new v b : v_alloc b v !! b = Some (replicate BSIZEn 0).
Proof. apply lookup_insert_eq. Qed.
Lemma v_alloc_other v b x : x <> b -> x <> BBLOCK b sb -> v_alloc b v !! x = v !! x.
Proof. intros. unfold v_alloc. by rewrite !lookup_insert_ne. Qed.
Lemma v_alloc_some v b x : is_Some (v !! x) -> is_Some (v_alloc b v !! x).
Proof.
  intros Hx. unfold v_alloc. destruct (decide (x = b)) as [->|]; [rewrite lookup_insert_eq; by eexists|].
  rewrite lookup_insert_ne by done. destruct (decide (x = BBLOCK b sb)) as [->|]; [rewrite lookup_insert_eq; by eexists|].
  by rewrite lookup_insert_ne.
Qed.

Definition as_t (v : gmap Z block) : tstate := Tstate v ∅ ∅ [] 0.
Lemma v_alloc_used v b b' :
  alloc_ok sb v -> v_free v b -> 0 <= b' < sb_size sb ->
  block_used sb (v_alloc b v) b' = bool_decide (b = b') || block_used sb v b'.
Proof. intros Hok [Hb Hf] Hb'. by apply (t_alloc_used sb (as_t v)). Qed.
Lemma v_alloc_alloc_ok v b : alloc_ok sb v -> v_free v b -> alloc_ok sb (v_alloc b v).
Proof. intros Hok [Hb Hf]. by apply (t_alloc_ok sb (as_t v)). Qed.

(** Blocks in use that are not bitmap blocks keep their contents. *)
Lemma v_alloc_keeps v b x :
  v_free v b -> block_used sb v x = true -> (forall b, 0 <= b < sb_size sb -> x <> BBLOCK b sb) ->
  v_alloc b v !! x = v !! x.
Proof. intros [Hb Hf] Hu Hx. apply v_alloc_other; [|by apply Hx]. intros ->. congruence. Qed.

Lemma v_alloc_fs_ok v b : fs_ok sb v -> v_free v b -> fs_ok sb (v_alloc b v).
Proof.
  intros [H1 H2 H3] Hb. constructor.
  - by apply v_alloc_alloc_ok.
  - intros Hs. rewrite v_alloc_used, H2 by (done || lia). apply orb_true_r.
  - intros k Hk. destruct (H3 k Hk) as (Ha & Hr & Hu & Hn).
    split; [by apply v_alloc_some|]. split; [done|]. split; [|done]. rewrite v_alloc_used, Hu by done. apply orb_true_r.
Qed.

Lemma v_free_pos v b : fs_ok sb v -> v_free v b -> 0 < b.
Proof.
  intros Hok [Hb Hf]. destruct (decide (b = 0)) as [->|]; [|lia]. rewrite (fk_boot _ _ Hok) in Hf by lia. done.
Qed.

Lemma data_block_alloc v b x : fs_ok sb v -> v_free v b -> data_block sb v x -> data_block sb (v_alloc b v) x.
Proof.
  intros Hok Hb [H1 H2 H3 H4 H5]. constructor; try done; [by apply v_alloc_some|].
  rewrite v_alloc_used, H3 by (done || apply Hok). apply orb_true_r.
Qed.

(** A block just allocated is a data block. *)
Lemma data_block_new v b : fs_ok sb v -> v_free v b -> data_block sb (v_alloc b v) b.
Proof.
  intros Hok [Hb Hf]. constructor; [done|rewrite v_alloc_new; by eexists| | |].
  - rewrite v_alloc_used by (done || apply Hok). by rewrite bool_decide_eq_true_2.
  - intros b' Hb' ->. destruct (ao_bitmap _ _ (fk_alloc _ _ Hok) b' Hb') as [_ Hu]. congruence.
  - intros k Hk ->. destruct (fk_inodes _ _ Hok k Hk) as (_ & _ & Hu & _). congruence.
Qed.

Lemma data_block_ne v b x : v_free v b -> data_block sb v x -> x <> b.
Proof. intros [_ Hf] Hx ->. rewrite (db_used _ _ _ Hx) in Hf. done. Qed.

(** Allocating a block leaves a file as it is. *)
Lemma addr_at_alloc v b i n : v_free v b -> file_ok sb v i -> addr_at (v_alloc b v) i n = addr_at v i n.
Proof.
  intros Hb Hi. unfold addr_at. destruct (n <? NDIRECT); [done|]. destruct (Z.eqb_spec (ind_addr i) 0) as [|Hn]; [done|].
  destruct (fo_ind _ _ _ Hi Hn) as [_ _ Hu Hbm _]. by rewrite v_alloc_keeps.
Qed.

Lemma file_ok_alloc v b i : fs_ok sb v -> v_free v b -> file_ok sb v i -> file_ok sb (v_alloc b v) i.
Proof.
  intros Hok Hb Hi. pose proof (fun n => addr_at_alloc v b i n Hb Hi) as Ha. destruct Hi as [H1 H2 H3 H4 H5 H6 H7 H8 H9].
  constructor; try done.
  - intros Hn. apply data_block_alloc; auto.
  - intros n Hr. rewrite Ha. intros Hn. destruct (H7 n Hr Hn). split; [by apply data_block_alloc|done].
  - intros n m. rewrite !Ha. apply H8.
  - intros o Ho. rewrite Ha. by apply H9.
Qed.
End View.

(** ** What bmap(ip, n) may do *)

Definition not_bitmap (sb : superblock) (x : Z) : Prop := forall b, 0 <= b < sb_size sb -> x <> BBLOCK b sb.

Record fgrow (sb : superblock) (n : Z) (v : gmap Z block) (i : inode) (v' : gmap Z block) (i' : inode) : Prop := Fgrow {
  fg_fs : fs_ok sb v';
  fg_file : file_ok sb v' i';
  fg_same : i' = i_set_addrs (i_addrs i') i;
  fg_ind : ind_addr i <> 0 -> ind_addr i' = ind_addr i;
  fg_addr : forall m, file_range m -> m <> n \/ addr_at v i n <> 0 -> addr_at v' i' m = addr_at v i m;
  fg_data : forall x, 0 <= x < sb_size sb -> block_used sb v x = true -> not_bitmap sb x ->
    (ind_addr i' <> 0 -> x <> ind_addr i') -> v' !! x = v !! x;
  fg_used : forall x, 0 <= x < sb_size sb -> block_used sb v x = true -> block_used sb v' x = true;
  fg_new : addr_at v i n = 0 -> addr_at v' i' n <> 0 ->
    v' !! addr_at v' i' n = Some (replicate BSIZEn 0) /\ block_used sb v (addr_at v' i' n) = false;
  fg_new_ind : ind_addr i = 0 -> ind_addr i' <> 0 -> block_used sb v (ind_addr i') = false
}.

Section Grow.
Context (sb : superblock) (n : Z).
Hypothesis Hn : file_range n.

Lemma fgrow_refl v i : fs_ok sb v -> file_ok sb v i -> fgrow sb n v i v i.
Proof. intros H1 H2. constructor; try done. by destruct i. Qed.

Lemma fgrow_trans v1 i1 v2 i2 v3 i3 : fgrow sb n v1 i1 v2 i2 -> fgrow sb n v2 i2 v3 i3 -> fgrow sb n v1 i1 v3 i3.
Proof.
  intros [A1 A2 A3 A4 A5 A6 A7 A8 A9] [B1 B2 B3 B4 B5 B6 B7 B8 B9].
  assert (forall x, 0 <= x < sb_size sb -> block_used sb v2 x = false -> block_used sb v1 x = false) as Hunused.
  { intros x Hx Hf. destruct (block_used sb v1 x) eqn:E; [|done]. rewrite A7 in Hf; done. }
  assert (ind_addr i1 <> 0 -> ind_addr i3 = ind_addr i1) as Hind.
  { intros H. rewrite B4; [by apply A4|]. by rewrite A4. }
  constructor; try done.
  - rewrite B3, A3. by destruct i1.
  - intros m Hm Hor. rewrite <- A5 by done. apply B5; [done|]. destruct Hor as [|Hor]; [by left|right].
    rewrite A5 by (done || by right). done.
  - intros x Hx Hu Hb Hi. rewrite B6; [apply A6| | | |]; try done; [|by apply A7].
    intros Hi2 E. assert (ind_addr i3 = ind_addr i2) as E3 by (by apply B4). apply Hi; congruence.
  - auto.
  - intros H1 H3. destruct (decide (addr_at v2 i2 n = 0)) as [E|E].
    { destruct (B8 E H3) as [C1 C2]. split; [done|]. apply Hunused; [|done]. by apply (fo_addr _ _ _ B2 n Hn). }
    assert (addr_at v3 i3 n = addr_at v2 i2 n) as E3 by (apply B5; [done|by right]). rewrite E3.
    destruct (fo_addr _ _ _ A2 n Hn E) as [[D1 D2 D3 D4 D5] D6].
    destruct (A8 H1 E) as [C1 C2]. split; [|done]. rewrite B6; [done|done|done|done|]. intros Hi Hx.
    destruct (fo_addr _ _ _ B2 n Hn H3) as [_ D7]. congruence.
  - intros H1 H3. destruct (decide (ind_addr i2 = 0)) as [E|E].
    + apply Hunused; [by apply (fo_ind _ _ _ B2)|by apply B9].
    + rewrite B4 in H3 |- * by done. by apply A9.
Qed.

(** ** Storing an address in the inode *)

Lemma addrs_set i k b k' :
  length (i_addrs i) = NADDRS -> (k < NADDRS)%nat ->
  i_addrs (i_set_addr k b i) !!! k' = if decide (k' = k) then b else i_addrs i !!! k'.
Proof.
  intros Hl Hk. cbn [i_addrs i_set_addr]. case_decide as E.
  - subst. apply list_lookup_total_insert_eq. lia.
  - by apply list_lookup_total_insert_ne.
Qed.

Lemma i_set_addr_addrs k b i : i_set_addr k b i = i_set_addrs (i_addrs (i_set_addr k b i)) i.
Proof. by destruct i. Qed.

Lemma set_addr_words i k b : Forall word (i_addrs i) -> word b -> Forall word (i_addrs (i_set_addr k b i)).
Proof. intros H1 H2. cbn. by apply Forall_insert. Qed.

Lemma v_free_word v b : alloc_ok sb v -> v_free sb v b -> word b.
Proof. intros Hok [Hb _]. pose proof (ao_size _ _ Hok). unfold word. lia. Qed.

Section Step.
Context (v : gmap Z block) (i : inode) (b : Z).
Hypothesis Hfs : fs_ok sb v.
Hypothesis Hfile : file_ok sb v i.
Hypothesis Hb : v_free sb v b.

Lemma addr_ne_new m : file_range m -> addr_at v i m <> b \/ addr_at v i m = 0.
Proof.
  intros Hm. destruct (decide (addr_at v i m = 0)); [by right|left].
  eapply data_block_ne; [done|]. by apply (fo_addr _ _ _ Hfile).
Qed.

(** An address map with one new entry. *)
Lemma inj_set (f g : Z -> Z) :
  (forall m, file_range m -> g m = if decide (m = n) then b else f m) ->
  (forall m, file_range m -> f m = addr_at v i m) ->
  forall m1 m2, file_range m1 -> file_range m2 -> g m1 = g m2 -> g m1 <> 0 -> m1 = m2.
Proof.
  intros Hg Hf m1 m2 H1 H2. rewrite !Hg by done. pose proof (v_free_pos _ _ _ Hfs Hb).
  destruct (addr_ne_new m1 H1), (addr_ne_new m2 H2); repeat case_decide; subst; rewrite ?Hf by done;
    intros E Hne; try done; try congruence; try lia.
  all: by apply (fo_inj _ _ _ Hfile).
Qed.

(** A new view and inode whose address map differs at most at [n], where the new
    block [b] may have appeared. *)
Lemma fgrow_make v' i' a :
  fs_ok sb v' -> i' = i_set_addrs (i_addrs i') i -> length (i_addrs i') = NADDRS -> Forall word (i_addrs i') ->
  (ind_addr i <> 0 -> ind_addr i' = ind_addr i) -> (ind_addr i' <> 0 -> data_block sb v' (ind_addr i')) ->
  (forall x, data_block sb v x -> data_block sb v' x) ->
  (forall m, file_range m -> addr_at v' i' m = if decide (m = n) then a else addr_at v i m) ->
  (forall m, file_range m -> addr_at v i m <> 0 -> addr_at v i m <> ind_addr i') ->
  (a = addr_at v i n \/
   a = b /\ b <> ind_addr i' /\ data_block sb v' b /\ v' !! b = Some (replicate BSIZEn 0) /\ addr_at v i n = 0) ->
  (forall x, 0 <= x < sb_size sb -> block_used sb v x = true -> not_bitmap sb x ->
    (ind_addr i' <> 0 -> x <> ind_addr i') -> v' !! x = v !! x) ->
  (forall x, 0 <= x < sb_size sb -> block_used sb v x = true -> block_used sb v' x = true) ->
  (ind_addr i = 0 -> ind_addr i' <> 0 -> ind_addr i' = b) ->
  fgrow sb n v i v' i'.
Proof.
  intros Hfs' Esame Hlen Hw Hkeep Hind Hdb Haddr Hni Ha Hdata Hused Hnew.
  assert (forall m, file_range m -> m <> n \/ addr_at v i n <> 0 -> addr_at v' i' m = addr_at v i m) as Hm.
  { intros m Hm Hor. rewrite Haddr by done. case_decide as E; [subst m|done]. destruct Ha as [|(_ & _ & _ & _ & E0)]; [done|].
    destruct Hor; done. }
  assert (file_ok sb v' i') as Hf'.
  { pose proof Hfile as [H1 H2 H3 H4 H5 H6 H7 H8 H9].
    assert (i_dev i' = i_dev i /\ i_size i' = i_size i /\ i_inum i' = i_inum i) as (Ed & Es & En) by (rewrite Esame; done).
    constructor; [congruence|done|done|by rewrite Es|by rewrite En|done| | |].
    - intros m Hr. rewrite Haddr by done. case_decide as E; [subst m|]; intros Hne.
      + destruct Ha as [->|(-> & Hb1 & Hb2 & _)]; [|done]. split; [apply Hdb; by apply H7|by apply Hni].
      + split; [apply Hdb; by apply H7|by apply Hni].
    - destruct Ha as [Ea|[Ea _]]; [|subst a; by apply (inj_set (addr_at v i) (addr_at v' i'))].
      intros m1 m2 Hr1 Hr2. rewrite !Haddr by done. subst a. repeat case_decide; subst; by apply H8.
    - rewrite Es. intros o Ho. assert (file_range (o / BSIZE)) as Hr.
      { unfold file_range. split; [apply Z.div_pos|apply Z.div_lt_upper_bound]; unfold BSIZE in *; lia. }
      rewrite Hm; [by apply H9|done|]. destruct (decide (o / BSIZE = n)) as [<-|]; [right; by apply H9|by left]. }
  constructor; try done.
  - intros E0 Hne. rewrite Haddr in Hne |- * by done. rewrite decide_True in Hne |- * by done.
    destruct Ha as [->|(-> & _ & _ & Hz & _)]; [done|]. split; [done|]. apply Hb.
  - intros E0 Hne. rewrite Hnew by done. apply Hb.
Qed.

(** The file with block [n] at the new block [b]: a direct block ... *)
Lemma fgrow_direct :
  n < NDIRECT -> addr_at v i n = 0 -> fgrow sb n v i (v_alloc sb b v) (i_set_addr (Z.to_nat n) b i).
Proof.
  intros Hd E0. pose proof Hfile as [H1 H2 H3 H4 H5 H6 H7 H8 H9]. unfold file_range in Hn. unfold NDIRECT in Hd.
  pose proof (v_free_pos _ _ _ Hfs Hb) as Hpos.
  assert (forall k, i_addrs (i_set_addr (Z.to_nat n) b i) !!! k = if decide (k = Z.to_nat n) then b else i_addrs i !!! k) as Hset.
  { intros k. apply addrs_set; [done|]. unfold NADDRS, NDIRECT. lia. }
  assert (ind_addr (i_set_addr (Z.to_nat n) b i) = ind_addr i) as Ei.
  { unfold ind_addr. rewrite Hset, decide_False by (unfold NDIRECT; lia). done. }
  apply (fgrow_make _ _ b); rewrite ?Ei.
  - by apply v_alloc_fs_ok.
  - apply i_set_addr_addrs.
  - cbn. by rewrite length_insert.
  - apply set_addr_words; [done|]. eapply v_free_word; [apply Hfs|done].
  - done.
  - intros Hi. apply data_block_alloc; auto.
  - intros x. by apply data_block_alloc.
  - intros m Hm. unfold addr_at. rewrite Ei. destruct (Z.ltb_spec m NDIRECT) as [Hlt|Hge].
    + rewrite Hset. unfold file_range in *. repeat case_decide; try lia; done.
    + rewrite decide_False by (unfold NDIRECT in *; lia). destruct (Z.eqb_spec (ind_addr i) 0) as [|Hi]; [done|].
      destruct (H6 Hi) as [_ _ Hu Hbm _]. by rewrite v_alloc_keeps.
  - intros m Hm Hne. by apply H7.
  - right. split; [done|]. split; [|split; [by apply data_block_new|split; [apply v_alloc_new|done]]].
    destruct (decide (ind_addr i = 0)) as [->|Hi]; [lia|]. intros E. by apply (data_block_ne _ _ _ _ Hb (H6 Hi)).
  - intros x Hx Hu Hbm _. by apply v_alloc_keeps.
  - intros x Hx Hu. rewrite v_alloc_used, Hu by (done || apply Hfs). apply orb_true_r.
  - done.
Qed.

(** ... the indirect block itself, which maps nothing yet ... *)
Lemma get_u32_zero k : (4 * k + 4 <= BSIZEn)%nat -> get_u32 (4 * k) (replicate BSIZEn 0) = 0.
Proof.
  intros Hk. unfold get_u32, get_u, slice. rewrite drop_replicate, take_replicate, Nat.min_l by lia. done.
Qed.

Lemma entry_range m : file_range m -> NDIRECT <= m -> (4 * Z.to_nat (m - NDIRECT) + 4 <= BSIZEn)%nat.
Proof.
  unfold file_range. change MAXFILE with 268. change NDIRECT with 12. change BSIZEn with 1024%nat. lia.
Qed.

Lemma fgrow_indirect :
  ind_addr i = 0 -> fgrow sb n v i (v_alloc sb b v) (i_set_addr (Z.to_nat NDIRECT) b i).
Proof.
  intros E0. pose proof Hfile as [H1 H2 H3 H4 H5 H6 H7 H8 H9].
  pose proof (v_free_pos _ _ _ Hfs Hb) as Hpos.
  assert (forall k, i_addrs (i_set_addr (Z.to_nat NDIRECT) b i) !!! k = if decide (k = Z.to_nat NDIRECT) then b else i_addrs i !!! k) as Hset.
  { intros k. apply addrs_set; [done|]. unfold NADDRS, NDIRECT. lia. }
  assert (ind_addr (i_set_addr (Z.to_nat NDIRECT) b i) = b) as Ei.
  { unfold ind_addr. by rewrite Hset, decide_True. }
  apply (fgrow_make _ _ (addr_at v i n)); rewrite ?Ei.
  - by apply v_alloc_fs_ok.
  - apply i_set_addr_addrs.
  - cbn. by rewrite length_insert.
  - apply set_addr_words; [done|]. eapply v_free_word; [apply Hfs|done].
  - done.
  - intros Hi. by apply data_block_new.
  - intros x. by apply data_block_alloc.
  - intros m Hm. assert (addr_at (v_alloc sb b v) (i_set_addr (Z.to_nat NDIRECT) b i) m = addr_at v i m) as ->.
    2:{ by case_decide; subst. }
    unfold addr_at. rewrite Ei, E0. destruct (Z.ltb_spec m NDIRECT) as [Hlt|Hge].
    + rewrite Hset, decide_False by (unfold file_range, NDIRECT in *; lia). done.
    + rewrite (proj2 (Z.eqb_neq _ _)) by lia. rewrite v_alloc_new. apply get_u32_zero. by apply entry_range.
  - intros m Hm Hne. destruct (addr_ne_new m Hm); done.
  - by left.
  - intros x Hx Hu Hbm _. by apply v_alloc_keeps.
  - intros x Hx Hu. rewrite v_alloc_used, Hu by (done || apply Hfs). apply orb_true_r.
  - done.
Qed.

(** ... or an entry of the indirect block. *)
Definition v_entry (d : block) : gmap Z block :=
  <[ind_addr i := put_u32 (4 * Z.to_nat (n - NDIRECT)) b d]> (v_alloc sb b v).

Lemma v_entry_other d x : x <> ind_addr i -> v_entry d !! x = v_alloc sb b v !! x.
Proof. intros. unfold v_entry. by rewrite lookup_insert_ne. Qed.

(** Changing a block that holds no bitmap keeps the bitmap and the inodes. *)
Lemma block_used_insert (w : gmap Z block) x d y :
  not_bitmap sb x -> 0 <= y < sb_size sb -> block_used sb (<[x := d]> w) y = block_used sb w y.
Proof. intros Hx Hy. unfold block_used. rewrite lookup_insert_ne; [done|]. by apply Hx. Qed.

Lemma is_Some_insert (w : gmap Z block) x d y : is_Some (w !! y) -> is_Some (<[x := d]> w !! y).
Proof.
  intros Hy. destruct (decide (x = y)) as [->|]; [rewrite lookup_insert_eq; by eexists|by rewrite lookup_insert_ne].
Qed.

Lemma fs_ok_insert (w : gmap Z block) x d :
  fs_ok sb w -> not_bitmap sb x -> length d = BSIZEn -> fs_ok sb (<[x := d]> w).
Proof.
  intros [[A1 A2 A3 A4 A5] B C] Hx Hl. constructor; [constructor|..].
  - done.
  - intros y e. destruct (decide (x = y)) as [<-|]; [rewrite lookup_insert_eq; congruence|].
    rewrite lookup_insert_ne by done. apply A2.
  - intros y Hy. rewrite block_used_insert by done. intros Hf. by apply is_Some_insert, A3.
  - done.
  - intros y Hy. destruct (A5 y Hy) as [E1 E2]. split; [by apply is_Some_insert|].
    rewrite block_used_insert; [done|done|by apply A4].
  - intros Hs. rewrite block_used_insert; [by apply B|done|lia].
  - intros k Hk. destruct (C k Hk) as (E1 & E2 & E3 & E4).
    split; [by apply is_Some_insert|]. split; [done|]. split; [by rewrite block_used_insert|done].
Qed.

Lemma data_block_insert (w : gmap Z block) x d y :
  not_bitmap sb x -> data_block sb w y -> data_block sb (<[x := d]> w) y.
Proof.
  intros Hx [H1 H2 H3 H4 H5]. constructor; try done; [by apply is_Some_insert|by rewrite block_used_insert].
Qed.

Lemma fgrow_entry d :
  NDIRECT <= n -> ind_addr i <> 0 -> v !! ind_addr i = Some d -> addr_at v i n = 0 -> fgrow sb n v i (v_entry d) i.
Proof.
  intros Hd Hi0 Hd0 E0. pose proof Hfile as [H1 H2 H3 H4 H5 H6 H7 H8 H9]. pose proof (H6 Hi0) as Hdi.
  pose proof (v_free_pos _ _ _ Hfs Hb) as Hpos. pose proof (db_bitmap _ _ _ Hdi) as Hbi.
  assert (ind_addr i <> b) as Hib by (by eapply data_block_ne).
  assert (length d = BSIZEn) as Hl by (by eapply (ao_len _ _ (fk_alloc _ _ Hfs))).
  assert (length (put_u32 (4 * Z.to_nat (n - NDIRECT)) b d) = BSIZEn) as Hl'.
  { unfold put_u32. rewrite length_put_u; [done|]. rewrite Hl. by apply entry_range. }
  apply (fgrow_make _ _ b).
  - apply fs_ok_insert; [by apply v_alloc_fs_ok|done|done].
  - by destruct i.
  - done.
  - done.
  - done.
  - intros _. by apply data_block_insert, data_block_alloc.
  - intros x Hx. by apply data_block_insert, data_block_alloc.
  - intros m Hm. unfold addr_at. destruct (Z.ltb_spec m NDIRECT) as [Hlt|Hge].
    + rewrite decide_False; [done|]. lia.
    + rewrite (proj2 (Z.eqb_neq _ _)) by done. unfold v_entry. rewrite lookup_insert_eq, Hd0. cbn [default from_option id].
      pose proof (entry_range m Hm Hge). pose proof (entry_range n Hn Hd). case_decide as E.
      * subst m. apply get_put_u32; [lia|]. eapply v_free_word; [apply Hfs|done].
      * unfold get_u32, put_u32. apply get_put_u_ne; [lia|lia|]. unfold file_range in *. lia.
  - intros m Hm Hne. by apply H7.
  - right. split; [done|]. split; [done|]. split; [by apply data_block_insert, data_block_new|].
    split; [|done]. rewrite v_entry_other by done. apply v_alloc_new.
  - intros x Hx Hu Hbm Hxi. rewrite v_entry_other by auto. by apply v_alloc_keeps.
  - intros x Hx Hu. unfold v_entry. rewrite block_used_insert by done.
    rewrite v_alloc_used, Hu by (done || apply Hfs). apply orb_true_r.
  - done.
Qed.
End Step.
End Grow.

(** ** How much a write may log

    Besides the data blocks themselves, a write logs bitmap blocks and the indirect
    block: they count once however often they are written. *)

Lemma length_filter_le {A} (P Q : A -> Prop) `{forall x, Decision (P x)} `{forall x, Decision (Q x)} (l : list A) :
  (forall x, Q x -> P x) -> (length (filter Q l) <= length (filter P l))%nat.
Proof.
  intros HQP. induction l as [|x l IH]; [done|]. rewrite !filter_cons.
  destruct (decide (Q x)) as [HQ|HQ]; [rewrite decide_True by auto; cbn; lia|]. case_decide; cbn; lia.
Qed.

Lemma length_filter_less {A} (P Q : A -> Prop) `{forall x, Decision (P x)} `{forall x, Decision (Q x)} (l : list A) x :
  (forall x, Q x -> P x) -> x ∈ l -> P x -> ~ Q x -> (S (length (filter Q l)) <= length (filter P l))%nat.
Proof.
  intros HQP Hx HP HQ. apply list_elem_of_split in Hx as (l1 & l2 & ->).
  rewrite !list.filter_app, !filter_cons, decide_False, decide_True by done. rewrite !length_app. cbn [length].
  pose proof (length_filter_le P Q l1 HQP). pose proof (length_filter_le P Q l2 HQP). lia.
Qed.

Section Budget.
Context {St : Type} `{BlockStore St} (sb : superblock).

Definition bitmap_blocks : list Z := remove_dups ((fun b => BBLOCK b sb) <$> seqZ 0 (sb_size sb)).

Lemma elem_of_bitmap_blocks b : 0 <= b < sb_size sb -> BBLOCK b sb ∈ bitmap_blocks.
Proof.
  intros Hb. apply elem_of_remove_dups, list_elem_of_fmap. exists b. split; [done|]. apply elem_of_seqZ. lia.
Qed.

(** Bitmap blocks, and the indirect block, not yet in the transaction. *)
Definition bpot (t : tstate) : nat := length (filter (fun x => x ∉ t_logged t) bitmap_blocks).
Definition ipot (i : inode) (t : tstate) : nat :=
  if decide (ind_addr i <> 0 /\ ind_addr i ∈ t_logged t) then 0 else 1.
Definition cost (i : inode) (t : tstate) : nat := (length (t_logged t) + bpot t + ipot i t)%nat.

(** The transaction can take [k] data blocks of inode [i]. *)
Definition budget (k : nat) (i : inode) (t : tstate) : Prop :=
  (cost i t + k < bs_limit)%nat /\ (size (t_open t) + cost i t + k + 1 < NBUFn)%nat /\ t_dirty t = ∅ /\ 1 <= t_out t.

Lemma elem_of_t_add x y l : x ∈ t_add y l <-> x ∈ l \/ x = y.
Proof. unfold t_add. case_decide; [|rewrite elem_of_app, list_elem_of_singleton]; intuition congruence. Qed.

Lemma bpot_update t x d : (bpot (t_update x d t) <= bpot t)%nat.
Proof. unfold bpot. apply length_filter_le. intros y. cbn [t_logged t_update]. rewrite elem_of_t_add. tauto. Qed.

Lemma ipot_update i t x d : (ipot i (t_update x d t) <= ipot i t)%nat.
Proof. unfold ipot. cbn [t_logged t_update]. repeat case_decide; try lia. rewrite elem_of_t_add in *. tauto. Qed.

Lemma cost_update i t x d : (cost i (t_update x d t) <= cost i t + pot x t)%nat.
Proof.
  unfold cost, t_update at 1. cbn [t_logged]. rewrite length_t_add_pot.
  pose proof (bpot_update t x d). pose proof (ipot_update i t x d). lia.
Qed.

Lemma cost_bitmap i t b d : 0 <= b < sb_size sb -> (cost i (t_update (BBLOCK b sb) d t) <= cost i t)%nat.
Proof.
  intros Hb. destruct (decide (BBLOCK b sb ∈ t_logged t)) as [Hin|Hni].
  - etransitivity; [apply cost_update|]. unfold pot. rewrite decide_True by done. lia.
  - unfold cost, t_update at 1. cbn [t_logged]. rewrite length_t_add_pot. unfold pot. rewrite decide_False by done.
    assert (S (bpot (t_update (BBLOCK b sb) d t)) <= bpot t)%nat.
    { unfold bpot. apply (length_filter_less _ _ _ (BBLOCK b sb)); cbn [t_logged t_update].
      - intros y. rewrite elem_of_t_add. tauto.
      - by apply elem_of_bitmap_blocks.
      - done.
      - rewrite elem_of_t_add. tauto. }
    pose proof (ipot_update i t (BBLOCK b sb) d). lia.
Qed.

Lemma cost_alloc i t b : 0 <= b < sb_size sb -> (cost i (t_alloc sb b t) <= S (cost i t))%nat.
Proof.
  intros Hb. unfold t_alloc. etransitivity; [apply cost_update|].
  pose proof (cost_bitmap i t b (bm_set (default [] (t_view t !! BBLOCK b sb)) (b mod BPB)) Hb) as Hc.
  etransitivity; [apply Nat.add_le_mono_r, Hc|]. unfold pot. case_decide; lia.
Qed.

(** Logging the indirect block uses up its share. *)
Lemma cost_ind i t d : ind_addr i <> 0 -> (cost i (t_update (ind_addr i) d t) <= cost i t)%nat.
Proof.
  intros Hi. pose proof (bpot_update t (ind_addr i) d). unfold cost, ipot.
  rewrite (decide_True (P := _ /\ ind_addr i ∈ t_logged (t_update _ _ _))).
  2:{ split; [done|]. cbn [t_logged t_update]. apply elem_of_t_add. by right. }
  cbn [t_logged t_update]. rewrite length_t_add_pot. unfold pot.
  destruct (decide (ind_addr i ∈ t_logged t)); [rewrite decide_True by done|rewrite decide_False by tauto]; lia.
Qed.

(** The indirect block of an inode that had none. *)
Lemma cost_alloc_ind i i' t b :
  0 <= b < sb_size sb -> ind_addr i = 0 -> ind_addr i' = b -> b <> 0 -> (cost i' (t_alloc sb b t) <= cost i t)%nat.
Proof.
  intros Hb E E' Hne. pose proof (cost_alloc i t b Hb) as Hc. revert Hc. unfold cost, ipot. rewrite E, E'.
  rewrite (decide_False (P := _ /\ 0 ∈ t_logged t)) by tauto.
  rewrite (decide_False (P := 0 <> 0 /\ _)) by tauto.
  rewrite decide_True; [lia|]. split; [done|]. unfold t_alloc, t_update. cbn [t_logged]. apply elem_of_t_add. by right.
Qed.

Lemma bpot_in t b : 0 <= b < sb_size sb -> (pot (BBLOCK b sb) t <= bpot t)%nat.
Proof.
  intros Hb. unfold pot. case_decide as Hin; [lia|]. unfold bpot.
  assert (BBLOCK b sb ∈ filter (fun x => x ∉ t_logged t) bitmap_blocks) as Hf.
  { apply list_elem_of_filter. split; [done|]. by apply elem_of_bitmap_blocks. }
  destruct (filter _ _); [by apply not_elem_of_nil in Hf|cbn; lia].
Qed.

Lemma budget_room k i t b : 0 <= b < sb_size sb -> budget k i t -> room (pot (BBLOCK b sb) t + 1) t.
Proof.
  intros Hb (H1 & H2 & H3 & H4). pose proof (bpot_in t b Hb). unfold room, cost in *.
  split; [lia|]. split; [lia|]. split; done.
Qed.

Lemma budget_le k k' i t : (k' <= k)%nat -> budget k i t -> budget k' i t.
Proof. intros Hk (H1 & H2 & H3 & H4). unfold budget. split; [lia|]. split; [lia|]. split; done. Qed.
End Budget.

(** ** bmap() *)

Section Bmap.
Context {St U : Type} `{BlockStore St} `{UserMem U}.
Context (u : U) (sb : superblock) (cwd : nat) (pid : Z).
Abbreviation fw := (fw u sb cwd pid).

Lemma list_alter_insert {A} (f : A -> A) (l : list A) j x : l !! j = Some x -> alter f j l = <[j := f x]> l.
Proof.
  intros Hx. apply list_eq. intros m. destruct (decide (m = j)) as [->|Hm].
  - rewrite list_lookup_alter_eq, Hx, list_lookup_insert_eq; [done|]. by eapply lookup_lt_Some.
  - by rewrite list_lookup_alter_ne, list_lookup_insert_ne.
Qed.

Lemma geti_wp st il tr ip i (Q : inode -> world (fstate St U) -> Prop) :
  il !! ip = Some i -> Q i (fw tr st il) -> wp (geti ip) Q (fw tr st il).
Proof. intros Hi HQ. unfold geti. do 2 wp_step. by eapply wp_the. Qed.

Lemma seti_wp st il tr ip i f (Q : unit -> world (fstate St U) -> Prop) :
  il !! ip = Some i -> Q tt (fw tr st (<[ip := f i]> il)) -> wp (seti ip f) Q (fw tr st il).
Proof.
  intros Hi HQ. unfold seti. wp_step. unfold upd_inode, set_inodes, FsAlloc.fw. cbn.
  by rewrite (list_alter_insert f _ _ i).
Qed.

Lemma balloc_file_wp st il tr t k i (Q : Z -> world (fstate St U) -> Prop) :
  bs_rep st t -> fs_ok sb (t_view t) -> budget sb k i t -> alloc_closed sb t ->
  (forall b st' tr', v_free sb (t_view t) b -> bs_rep st' (t_alloc sb b t) -> Q b (fw tr' st' il)) ->
  (forall st' tr', free_blocks sb (t_view t) = [] -> bs_rep st' t -> Q 0 (fw tr' st' il)) ->
  wp (balloc ROOTDEV) Q (fw tr st il).
Proof.
  intros Hr Hfs Hbud Hc HQ HQ0. apply (balloc_wp u sb cwd pid il t); try done.
  - intros b Hb. by eapply budget_room.
  - apply Hfs.
  - intros b st' tr' Hb Hf _ R. by apply HQ.
  - intros st' tr' Hall R. apply HQ0; [|done].
    destruct (free_blocks sb (t_view t)) as [|x l] eqn:E; [done|].
    assert (x ∈ free_blocks sb (t_view t)) as Hx by (rewrite E; by left).
    apply elem_of_free_blocks in Hx as [Hx Hf]. rewrite Hall in Hf; done.
Qed.

Lemma alloc_closed_none t : t_open t = ∅ -> alloc_closed sb t.
Proof. intros Ho. split; intros; rewrite Ho; apply lookup_empty. Qed.

Lemma alloc_closed_open t x j : t_open t = ∅ -> data_block sb (t_view t) x -> alloc_closed sb (t_opened x j t).
Proof.
  intros Ho [H1 H2 H3 H4 H5]. split; intros b Hb.
  - rewrite t_opened_ne, Ho; [apply lookup_empty|]. intros E. by apply (H4 b).
  - intros Hf. rewrite t_opened_ne, Ho; [apply lookup_empty|]. intros ->. cbn in Hf. congruence.
Qed.

Context (il : list inode) (ip : nat) (n : Z) (k : nat).
Hypothesis Hn : file_range n.

(** What bmap() leaves behind. *)
Definition mapped (t : tstate) (i : inode) (a : Z) (t' : tstate) (i' : inode) : Prop :=
  fgrow sb n (t_view t) i (t_view t') i' /\ a = addr_at (t_view t') i' n /\ t_open t' = ∅ /\
  budget sb k i' t' /\ (a ∈ t_logged t' \/ budget sb (S k) i' t') /\ (a = 0 -> free_blocks sb (t_view t') = []).

(** The state of a computation that works on inode [ip]. *)
Definition at_inode (P : tstate -> inode -> Prop) (w : world (fstate St U)) : Prop :=
  exists tr st t i, w = fw tr st (<[ip := i]> il) /\ bs_rep st t /\ P t i.

Lemma lookup_ip i : (ip < length il)%nat -> <[ip := i]> il !! ip = Some i.
Proof. intros. by apply list_lookup_insert_eq. Qed.

Lemma addrs_lookup i j : length (i_addrs i) = NADDRS -> (j < NADDRS)%nat -> i_addrs i !! j = Some (i_addrs i !!! j).
Proof. intros Hl Hj. apply list_lookup_lookup_total_lt. lia. Qed.

Lemma budget_alloc i t b :
  0 <= b < sb_size sb -> budget sb (S k) i t -> budget sb k i (t_alloc sb b t).
Proof.
  intros Hb (H1 & H2 & H3 & H4). pose proof (cost_alloc sb i t b Hb). unfold budget.
  change (t_open (t_alloc sb b t)) with (t_open t). split; [lia|]. split; [lia|]. done.
Qed.

Lemma new_logged t b : b ∈ t_logged (t_alloc sb b t).
Proof. unfold t_alloc. cbn [t_logged t_update]. apply elem_of_t_add. by right. Qed.

Lemma mapped_same t i :
  fs_ok sb (t_view t) -> file_ok sb (t_view t) i -> t_open t = ∅ -> budget sb (S k) i t ->
  (addr_at (t_view t) i n = 0 -> free_blocks sb (t_view t) = []) -> mapped t i (addr_at (t_view t) i n) t i.
Proof.
  intros Hfs Hf Ho Hbud Hnone. split; [by apply fgrow_refl|]. split; [done|]. split; [done|].
  split; [by eapply budget_le; [|exact Hbud]; lia|]. by split; [right|].
Qed.

(** bmap() of a direct block. *)
Lemma bmap_direct_wp st tr t i (Q : Z -> world (fstate St U) -> Prop) :
  (ip < length il)%nat -> n < NDIRECT -> bs_rep st t -> fs_ok sb (t_view t) -> file_ok sb (t_view t) i ->
  t_open t = ∅ -> budget sb (S k) i t ->
  (forall a w, at_inode (mapped t i a) w -> Q a w) ->
  wp (bmap ip n) Q (fw tr st (<[ip := i]> il)).
Proof.
  intros Hip Hd Hr Hfs Hf Ho Hbud HQ. unfold bmap. wp_step. eapply geti_wp; [by apply lookup_ip|].
  rewrite (proj2 (Z.ltb_lt _ _)) by done.
  assert (addr_at (t_view t) i n = i_addrs i !!! Z.to_nat n) as Ea by (unfold addr_at; by rewrite (proj2 (Z.ltb_lt _ _))).
  wp_step. eapply wp_the; [apply addrs_lookup; [apply Hf|]|].
  { unfold file_range in Hn. unfold NADDRS, NDIRECT in *. lia. }
  rewrite <- Ea. destruct (Z.eqb_spec (addr_at (t_view t) i n) 0) as [E0|Hne]; cbn [negb].
  - rewrite (fo_dev _ _ _ Hf). wp_step. eapply balloc_file_wp; [exact Hr|done|exact Hbud|by apply alloc_closed_none| |].
    + intros b st' tr' Hb R. pose proof (v_free_pos _ _ _ Hfs Hb). rewrite (proj2 (Z.eqb_neq _ _)) by lia.
      wp_step. eapply seti_wp; [by apply lookup_ip|]. rewrite list_insert_insert_eq. wp_step. apply HQ.
      exists tr', st', (t_alloc sb b t), (i_set_addr (Z.to_nat n) b i). split; [done|]. split; [done|].
      pose proof (fgrow_direct sb n Hn _ _ _ Hfs Hf Hb Hd E0) as Hg.
      assert (ind_addr (i_set_addr (Z.to_nat n) b i) = ind_addr i) as Ei.
      { unfold ind_addr. rewrite addrs_set, decide_False; [done| |apply Hf|]; unfold file_range, NADDRS, NDIRECT in *; lia. }
      assert (budget sb k (i_set_addr (Z.to_nat n) b i) (t_alloc sb b t)) as Hbud'.
      { pose proof (budget_alloc i t b (proj1 Hb) Hbud) as Hb'. unfold budget, cost, ipot in *. by rewrite Ei. }
      assert (addr_at (t_view (t_alloc sb b t)) (i_set_addr (Z.to_nat n) b i) n = b) as Eb.
      { unfold addr_at. rewrite (proj2 (Z.ltb_lt _ _)) by done. rewrite addrs_set; [by rewrite decide_True|apply Hf|].
        unfold file_range, NADDRS, NDIRECT in *. lia. }
      split; [exact Hg|]. split; [done|]. split; [done|]. split; [done|]. split; [left; apply new_logged|lia].
    + intros st' tr' Hnone R. rewrite Z.eqb_refl. wp_step. apply HQ. exists tr', st', t, i. split; [done|]. split; [done|].
      rewrite <- E0. by apply mapped_same.
  - wp_step. apply HQ. exists tr, st, t, i. split; [done|]. split; [done|]. by apply mapped_same.
Qed.

Lemma budget_ind i t d : ind_addr i <> 0 -> budget sb k i t -> budget sb k i (t_update (ind_addr i) d t).
Proof.
  intros Hi (H1 & H2 & H3 & H4). pose proof (cost_ind sb i t d Hi). unfold budget.
  change (t_open (t_update (ind_addr i) d t)) with (t_open t). split; [lia|]. split; [lia|]. done.
Qed.

Lemma budget_opened i t x j : t_open t = ∅ -> budget sb (S k) i t -> budget sb k i (t_opened x j t).
Proof.
  intros Ho (H1 & H2 & H3 & H4). rewrite Ho, map_size_empty in H2. unfold budget.
  change (cost sb i (t_opened x j t)) with (cost sb i t).
  assert (size (t_open (t_opened x j t)) = 1%nat) as -> by (cbn; by rewrite Ho, insert_empty, map_size_singleton).
  split; [lia|]. split; [lia|]. done.
Qed.

Lemma budget_can_open i t x j : t_open t = ∅ -> budget sb j i t -> is_Some (t_view t !! x) -> can_open t x.
Proof.
  intros Ho (H1 & H2 & H3 & H4) Hx. split; [done|]. split; [rewrite Ho; apply lookup_empty|]. right. unfold cost in *. lia.
Qed.

(** The entry of the indirect block. *)
Lemma bmap_entry_wp st tr t i (Q : Z -> world (fstate St U) -> Prop) :
  NDIRECT <= n -> ind_addr i <> 0 -> bs_rep st t -> fs_ok sb (t_view t) -> file_ok sb (t_view t) i ->
  t_open t = ∅ -> budget sb (S k) i t ->
  (forall a w, at_inode (mapped t i a) w -> Q a w) ->
  wp (let* bp := f_bread ROOTDEV (ind_addr i) in
      let* d := f_data bp in
      let addr := get_u32 (4 * Z.to_nat (n - NDIRECT)) d in
      let* addr :=
        (if negb (addr =? 0) then ret addr else
         let* addr := balloc ROOTDEV in
         (if negb (addr =? 0) then
            let* d := f_data bp in
            f_set bp (put_u32 (4 * Z.to_nat (n - NDIRECT)) addr d) ;;
            f_log_write bp
          else ret tt) ;;
         ret addr) in
      f_brelse bp ;;
      ret addr) Q (fw tr st (<[ip := i]> il)).
Proof.
  intros Hd Hi Hr Hfs Hf Ho Hbud HQ. pose proof (fo_ind _ _ _ Hf Hi) as Hdi. destruct (db_some _ _ _ Hdi) as [d Hdd].
  pose proof Hbud as (Hlim & _ & Hdt & Hout).
  assert (t_open t !! ind_addr i = None) as Hoi by (rewrite Ho; apply lookup_empty).
  assert (addr_at (t_view t) i n = get_u32 (4 * Z.to_nat (n - NDIRECT)) d) as Ea.
  { unfold addr_at. rewrite (proj2 (Z.ltb_ge _ _)), (proj2 (Z.eqb_neq _ _)) by done. by rewrite Hdd. }
  assert (forall st' tr', bs_rep st' t -> (addr_at (t_view t) i n = 0 -> free_blocks sb (t_view t) = []) ->
    Q (addr_at (t_view t) i n) (fw tr' st' (<[ip := i]> il))) as Hsame.
  { intros st' tr' R Hz. apply HQ. exists tr', st', t, i. split; [done|]. split; [done|]. by apply mapped_same. }
  wp_step. eapply f_bread_wp; [exact Hr|by eapply budget_can_open|]. intros j st1 tr1 R1.
  wp_step. eapply f_data_wp; [exact R1|apply t_opened_eq|exact Hdd|]. cbv zeta. rewrite <- Ea.
  destruct (Z.eqb_spec (addr_at (t_view t) i n) 0) as [E0|Hne]; cbn [negb].
  2:{ do 2 wp_step. wp_step. eapply f_brelse_wp; [exact R1|apply t_opened_eq|by apply none_dirty|]. intros st2 tr2 R2.
      rewrite t_close_open in R2 by done. wp_step. by apply Hsame. }
  do 2 wp_step. eapply balloc_file_wp; [exact R1|done|by apply budget_opened|by apply alloc_closed_open| |].
  2:{ intros st2 tr2 Hnone R2. rewrite Z.eqb_refl. cbn [negb]. do 3 wp_step. wp_step.
      eapply f_brelse_wp; [exact R2|apply t_opened_eq|by apply none_dirty|]. intros st3 tr3 R3.
      rewrite t_close_open in R3 by done. wp_step. rewrite <- E0. by apply Hsame. }
  intros b st2 tr2 Hb R2. cbn [t_view t_opened] in Hb. pose proof (v_free_pos _ _ _ Hfs Hb).
  change (t_alloc sb b (t_opened (ind_addr i) j t)) with (t_opened (ind_addr i) j (t_alloc sb b t)) in R2.
  rewrite (proj2 (Z.eqb_neq _ _)) by lia. cbn [negb]. wp_step.
  assert (t_view (t_alloc sb b t) !! ind_addr i = Some d) as Hd2.
  { rewrite v_alloc_view, v_alloc_keeps; [done|done|apply Hdi|apply Hdi]. }
  wp_step. eapply f_data_wp; [exact R2|apply t_opened_eq|exact Hd2|].
  pose proof (ao_len _ _ (fk_alloc _ _ Hfs) _ _ Hdd) as Hl. pose proof (entry_range n Hn Hd) as Her.
  wp_step. eapply f_set_wp; [exact R2|apply t_opened_eq|unfold put_u32; rewrite length_put_u; lia|]. intros st3 tr3 R3.
  eapply f_log_write_wp; [exact R3|apply t_opened_eq| |done|].
  { cbn [t_logged t_modified t_opened]. pose proof (cost_alloc sb i t b (proj1 Hb)). unfold cost in *. lia. }
  intros st4 tr4 R4. do 2 wp_step. eapply f_brelse_wp; [exact R4|apply t_opened_eq|apply wrote_clean|].
  intros st5 tr5 R5. rewrite t_update_done in R5 by done. wp_step. apply HQ.
  exists tr5, st5, (t_update (ind_addr i) (put_u32 (4 * Z.to_nat (n - NDIRECT)) b d) (t_alloc sb b t)), i.
  split; [done|]. split; [exact R5|].
  pose proof (fgrow_entry sb n Hn _ _ _ Hfs Hf Hb d Hd Hi Hdd E0) as Hg.
  split; [exact Hg|]. split; [|split; [done|split; [|split; [|lia]]]].
  - unfold addr_at. rewrite (proj2 (Z.ltb_ge _ _)), (proj2 (Z.eqb_neq _ _)) by done. cbn [t_view t_update].
    rewrite lookup_insert_eq. cbn [default from_option id]. rewrite get_put_u32; [done|lia|]. eapply v_free_word; [apply Hfs|done].
  - apply budget_ind; [done|]. apply budget_alloc; [apply Hb|done].
  - left. cbn [t_logged t_update]. apply elem_of_t_add. left. apply new_logged.
Qed.

(** The indirect block, allocated if need be. *)
Lemma bmap_ind_wp st tr t i (Q : Z -> world (fstate St U) -> Prop) :
  (ip < length il)%nat -> bs_rep st t -> fs_ok sb (t_view t) -> file_ok sb (t_view t) i ->
  t_open t = ∅ -> budget sb (S k) i t ->
  (forall r w, at_inode (fun t' i' => fgrow sb n (t_view t) i (t_view t') i' /\ r = ind_addr i' /\ t_open t' = ∅ /\
     budget sb (S k) i' t' /\ (r = 0 -> free_blocks sb (t_view t) = [] /\ t' = t /\ i' = i)) w -> Q r w) ->
  wp (if negb (ind_addr i =? 0) then ret (ind_addr i) else
      let* addr := balloc ROOTDEV in
      if addr =? 0 then ret 0 else
      seti ip (i_set_addr (Z.to_nat NDIRECT) addr) ;;
      ret addr) Q (fw tr st (<[ip := i]> il)).
Proof.
  intros Hip Hr Hfs Hf Ho Hbud HQ. destruct (Z.eqb_spec (ind_addr i) 0) as [E0|Hne]; cbn [negb].
  2:{ wp_step. apply HQ. exists tr, st, t, i. split; [done|]. split; [done|]. split; [by apply fgrow_refl|done]. }
  wp_step. eapply balloc_file_wp; [exact Hr|done|exact Hbud|by apply alloc_closed_none| |].
  - intros b st' tr' Hb R. pose proof (v_free_pos _ _ _ Hfs Hb). rewrite (proj2 (Z.eqb_neq _ _)) by lia.
    wp_step. eapply seti_wp; [by apply lookup_ip|]. rewrite list_insert_insert_eq. wp_step. apply HQ.
    exists tr', st', (t_alloc sb b t), (i_set_addr (Z.to_nat NDIRECT) b i). split; [done|]. split; [done|].
    assert (ind_addr (i_set_addr (Z.to_nat NDIRECT) b i) = b) as Ei.
    { unfold ind_addr. rewrite addrs_set, decide_True; [done|done|apply Hf|]. unfold NADDRS, NDIRECT. lia. }
    split; [by apply fgrow_indirect|]. split; [done|]. split; [done|]. split; [|lia].
    destruct Hbud as (B1 & B2 & B3 & B4).
    pose proof (cost_alloc_ind sb i _ t b (proj1 Hb) E0 Ei ltac:(lia)). unfold budget.
    change (t_open (t_alloc sb b t)) with (t_open t). split; [lia|]. split; [lia|]. done.
  - intros st' tr' Hnone R. rewrite Z.eqb_refl. wp_step. apply HQ. exists tr', st', t, i.
    split; [done|]. split; [done|]. split; [by apply fgrow_refl|]. done.
Qed.

Lemma mapped_trans t i t1 i1 a t2 i2 :
  fgrow sb n (t_view t) i (t_view t1) i1 -> mapped t1 i1 a t2 i2 -> mapped t i a t2 i2.
Proof. intros Hg (H1 & H2). split; [by eapply fgrow_trans|done]. Qed.

(** bmap() gives block [n] of the file an address and disturbs nothing. *)
Lemma bmap_wp st tr t i (Q : Z -> world (fstate St U) -> Prop) :
  (ip < length il)%nat -> bs_rep st t -> fs_ok sb (t_view t) -> file_ok sb (t_view t) i ->
  t_open t = ∅ -> budget sb (S k) i t ->
  (forall a w, at_inode (mapped t i a) w -> Q a w) ->
  wp (bmap ip n) Q (fw tr st (<[ip := i]> il)).
Proof.
  intros Hip Hr Hfs Hf Ho Hbud HQ. destruct (decide (n < NDIRECT)) as [Hd|Hd]; [by apply (bmap_direct_wp st tr t i)|].
  unfold bmap. wp_step. eapply geti_wp; [by apply lookup_ip|]. rewrite (proj2 (Z.ltb_ge _ _)) by lia. cbv zeta.
  rewrite (proj2 (Z.ltb_lt _ _)) by (unfold file_range, MAXFILE in Hn; lia). rewrite (fo_dev _ _ _ Hf).
  wp_step. eapply wp_the; [apply addrs_lookup; [apply Hf|unfold NADDRS, NDIRECT; lia]|].
  wp_step. apply (bmap_ind_wp st tr t i); try done.
  intros r w (tr1 & st1 & t1 & i1 & -> & R1 & Hg & -> & Ho1 & Hbud1 & Hz).
  destruct (Z.eqb_spec (ind_addr i1) 0) as [E0|Hne].
  - destruct (Hz E0) as (Hnone & -> & ->). wp_step. apply HQ. exists tr1, st1, t, i. split; [done|]. split; [done|].
    assert (addr_at (t_view t) i n = 0) as <-.
    { unfold addr_at. rewrite (proj2 (Z.ltb_ge _ _)) by lia. by rewrite E0. }
    by apply mapped_same.
  - apply (bmap_entry_wp st1 tr1 t1 i1); try done; [lia|apply Hg|apply Hg|].
    intros a w (tr2 & st2 & t2 & i2 & -> & R2 & Hm). apply HQ. exists tr2, st2, t2, i2. split; [done|]. split; [done|].
    by eapply mapped_trans.
Qed.
End Bmap.

(** ** The bytes of a file, block by block *)

Lemma BSIZE_pos : 0 < BSIZE.
Proof. done. Qed.

Ltac blocks := change BSIZE with 1024 in *; Z.div_mod_to_equations; lia.

Lemma length_file_bytes v i off n : length (file_bytes v i off n) = Z.to_nat n.
Proof. unfold file_bytes. by rewrite length_fmap, length_seqZ. Qed.

Lemma file_bytes_lookup v i off n j :
  (j < Z.to_nat n)%nat -> file_bytes v i off n !! j = Some (default 0 (byte_at v i (off + Z.of_nat j))).
Proof. intros Hj. unfold file_bytes. rewrite list_lookup_fmap, lookup_seqZ_lt by lia. done. Qed.

Lemma file_bytes_app v i off a b :
  0 <= a -> 0 <= b -> file_bytes v i off (a + b) = file_bytes v i off a ++ file_bytes v i (off + a) b.
Proof. intros Ha Hb. unfold file_bytes. by rewrite seqZ_app, fmap_app by lia. Qed.

Lemma byte_at_block v i o d :
  addr_at v i (o / BSIZE) <> 0 -> v !! addr_at v i (o / BSIZE) = Some d ->
  byte_at v i o = d !! Z.to_nat (o mod BSIZE).
Proof. intros Hne Hd. unfold byte_at. rewrite (proj2 (Z.eqb_neq _ _)) by done. by rewrite Hd. Qed.

Lemma in_block cur j : 0 <= cur -> 0 <= j < BSIZE - cur mod BSIZE ->
  (cur + j) / BSIZE = cur / BSIZE /\ (cur + j) mod BSIZE = cur mod BSIZE + j.
Proof. intros. split; blocks. Qed.

Lemma file_bytes_block v i cur m d :
  addr_at v i (cur / BSIZE) <> 0 -> v !! addr_at v i (cur / BSIZE) = Some d -> length d = BSIZEn ->
  0 <= cur -> 0 <= m <= BSIZE - cur mod BSIZE ->
  slice (Z.to_nat (cur mod BSIZE)) (Z.to_nat m) d = file_bytes v i cur m.
Proof.
  intros Hne Hd Hl Hc Hm. pose proof (Z.mod_pos_bound cur BSIZE BSIZE_pos).
  apply list_eq. intros j. destruct (decide (j < Z.to_nat m)%nat) as [Hj|Hj].
  - rewrite lookup_slice, file_bytes_lookup by done. destruct (in_block cur (Z.of_nat j) Hc ltac:(lia)) as [E1 E2].
    rewrite (byte_at_block v i (cur + Z.of_nat j) d) by (by rewrite E1). rewrite E2.
    replace (Z.to_nat (cur mod BSIZE) + j)%nat with (Z.to_nat (cur mod BSIZE + Z.of_nat j)) by lia.
    destruct (lookup_lt_is_Some_2 d (Z.to_nat (cur mod BSIZE + Z.of_nat j))) as [c Hc2]; [|by rewrite Hc2].
    rewrite Hl. unfold BSIZEn. lia.
  - rewrite !lookup_ge_None_2; [done|rewrite length_file_bytes; lia|].
    rewrite length_slice; [lia|]. rewrite Hl. unfold BSIZEn. lia.
Qed.

(** The turns the loops of readi() and writei() still make at offset [cur]. *)
Definition turns (stop cur : Z) : Z := if cur <? stop then (stop - 1) / BSIZE - cur / BSIZE + 2 else 1.

Lemma turns_step stop cur m :
  0 <= cur < stop -> m = Z.min (stop - cur) (BSIZE - cur mod BSIZE) ->
  0 < m /\ cur + m <= stop /\ turns stop (cur + m) = turns stop cur - 1.
Proof.
  intros Hc ->. pose proof (Z.mod_pos_bound cur BSIZE BSIZE_pos). split; [lia|]. split; [lia|].
  unfold turns. rewrite (proj2 (Z.ltb_lt cur stop)) by lia. destruct (Z.ltb_spec (cur + Z.min (stop - cur) (BSIZE - cur mod BSIZE)) stop).
  - rewrite Z.min_r by lia. blocks.
  - assert (cur + Z.min (stop - cur) (BSIZE - cur mod BSIZE) = stop) by lia. blocks.
Qed.

Lemma turns_fuel off n : 0 <= off -> 0 <= n -> turns (off + n) off <= Z.of_nat (rw_fuel n).
Proof.
  intros Ho Hn. unfold turns, rw_fuel. assert (0 <= n / BSIZE) by (by apply Z.div_pos).
  rewrite !Nat2Z.inj_succ, Z2Nat.id by done. destruct (Z.ltb_spec off (off + n)); blocks.
Qed.

Lemma turns_pos stop cur : 0 <= cur -> 1 <= turns stop cur.
Proof. intros Hc. unfold turns. destruct (Z.ltb_spec cur stop); [blocks|lia]. Qed.

(** ** readi() *)

Section Readi.
Context {St U : Type} `{BlockStore St} `{UserMem U}.
Context (u : U) (sb : superblock) (cwd : nat) (pid : Z).
Abbreviation fw := (fw u sb cwd pid).

(** Reading needs no transaction. *)
Definition reader (t : tstate) : Prop :=
  t_open t = ∅ /\ t_dirty t = ∅ /\ (length (t_logged t) < NBUFn)%nat.

Lemma reader_open t x : reader t -> is_Some (t_view t !! x) -> can_open t x.
Proof.
  intros (Ho & _ & Hl) Hx. split; [done|]. rewrite Ho. split; [apply lookup_empty|]. right.
  rewrite map_size_empty. lia.
Qed.

Context (il : list inode) (ip : nat) (t : tstate) (i : inode).
Hypothesis Hrd : reader t.
Hypothesis Hlen : forall x d, t_view t !! x = Some d -> length d = BSIZEn.
Hypothesis Hf : file_ok sb (t_view t) i.
Hypothesis Hi : il !! ip = Some i.

Lemma bmap_hit_wp st tr n (Q : Z -> world (fstate St U) -> Prop) :
  bs_rep st t -> file_range n -> addr_at (t_view t) i n <> 0 ->
  (forall st' tr', bs_rep st' t -> Q (addr_at (t_view t) i n) (fw tr' st' il)) ->
  wp (bmap ip n) Q (fw tr st il).
Proof.
  intros Hr Hn Hne HQ. unfold bmap. wp_step. eapply geti_wp; [exact Hi|]. unfold addr_at in Hne, HQ.
  destruct (Z.ltb_spec n NDIRECT) as [Hd|Hd].
  - wp_step. eapply wp_the; [apply addrs_lookup; [apply Hf|unfold file_range, NADDRS, NDIRECT in *; lia]|].
    rewrite (proj2 (Z.eqb_neq _ _)) by done. cbn [negb]. wp_step. by apply HQ.
  - cbv zeta. rewrite (proj2 (Z.ltb_lt _ _)) by (unfold file_range, MAXFILE in Hn; lia).
    wp_step. eapply wp_the; [apply addrs_lookup; [apply Hf|unfold NADDRS, NDIRECT; lia]|]. fold (ind_addr i).
    destruct (Z.eqb_spec (ind_addr i) 0) as [|Hi0]; [done|]. cbn [negb]. do 2 wp_step.
    rewrite (proj2 (Z.eqb_neq _ _)) by done. rewrite (fo_dev _ _ _ Hf).
    destruct (db_some _ _ _ (fo_ind _ _ _ Hf Hi0)) as [d Hd0]. rewrite Hd0 in Hne, HQ. cbn [default from_option id] in Hne, HQ.
    wp_step. eapply f_bread_wp; [exact Hr|apply reader_open; [done|by eexists]|]. intros j st1 tr1 R1.
    wp_step. eapply f_data_wp; [exact R1|apply t_opened_eq|exact Hd0|].
    rewrite (proj2 (Z.eqb_neq _ _)) by done. cbn [negb]. do 2 wp_step. wp_step.
    eapply f_brelse_wp; [exact R1|apply t_opened_eq|apply none_dirty, Hrd|]. intros st2 tr2 R2.
    rewrite t_close_open in R2 by (rewrite (proj1 Hrd); apply lookup_empty). wp_step. by apply HQ.
Qed.

Lemma offset_range o : 0 <= o < i_size i -> file_range (o / BSIZE).
Proof.
  intros Ho. pose proof (fo_size _ _ _ Hf). unfold file_range. split; [apply Z.div_pos; [lia|done]|].
  apply Z.div_lt_upper_bound; [done|]. lia.
Qed.

Lemma readi_loop_wp f off n tot st tr (Q : Z * list Z -> world (fstate St U) -> Prop) :
  0 <= off -> 0 <= tot <= n -> off + n <= i_size i -> turns (off + n) (off + tot) <= Z.of_nat f -> bs_rep st t ->
  (forall st' tr', bs_rep st' t -> Q (n, file_bytes (t_view t) i off n) (fw tr' st' il)) ->
  wp (iter f (readi_step ip ROOTDEV ToKernel n) (tot, off + tot, file_bytes (t_view t) i off tot)) Q (fw tr st il).
Proof.
  intros Hoff Htot Hsz Hfuel Hr HQ. revert tot st tr Htot Hfuel Hr.
  induction f as [|f IH]; intros tot st tr Htot Hfuel Hr.
  { pose proof (turns_pos (off + n) (off + tot) ltac:(lia)). lia. }
  cbn [iter]. wp_step. unfold readi_step at 1. destruct (Z.ltb_spec tot n) as [Hlt|Hge]; cbn [negb].
  2:{ do 2 wp_step. assert (tot = n) as -> by lia. by apply HQ. }
  assert (0 <= off + tot < i_size i) as Ho by lia. pose proof (fo_full _ _ _ Hf _ Ho) as Hne.
  pose proof (offset_range _ Ho) as Hrg. destruct (db_some _ _ _ (proj1 (fo_addr _ _ _ Hf _ Hrg Hne))) as [d Hd].
  wp_step. apply bmap_hit_wp; [done|done|done|]. intros st1 tr1 R1. rewrite (proj2 (Z.eqb_neq _ _)) by done.
  wp_step. eapply f_bread_wp; [exact R1|apply reader_open; [done|by eexists]|]. intros j st2 tr2 R2. cbv zeta.
  wp_step. eapply f_data_wp; [exact R2|apply t_opened_eq|exact Hd|]. wp_step. cbn [either_copyout]. wp_step.
  change (0 =? -1) with false. cbv iota.
  wp_step. eapply f_brelse_wp; [exact R2|apply t_opened_eq|apply none_dirty, Hrd|]. intros st3 tr3 R3.
  rewrite t_close_open in R3 by (rewrite (proj1 Hrd); apply lookup_empty). wp_step.
  set (m := Z.min (n - tot) (BSIZE - (off + tot) mod BSIZE)).
  destruct (turns_step (off + n) (off + tot) m ltac:(lia)) as (Hm0 & Hm1 & Hm2); [unfold m; f_equal; lia|].
  rewrite (file_bytes_block (t_view t) i (off + tot) m d) by (try done; try (by eapply Hlen); lia).
  rewrite <- file_bytes_app by lia. rewrite <- Z.add_assoc. apply IH; [lia| |done].
  rewrite Z.add_assoc, Hm2. lia.
Qed.

Lemma readi_wp st tr off n (Q : Z * list Z -> world (fstate St U) -> Prop) :
  0 <= off -> 0 <= n -> off + n < 2 ^ 32 -> bs_rep st t ->
  (forall st' tr', bs_rep st' t ->
     let m := if off <=? i_size i then Z.min n (i_size i - off) else 0 in
     Q (m, file_bytes (t_view t) i off m) (fw tr' st' il)) ->
  wp (readi ip ToKernel off n) Q (fw tr st il).
Proof.
  intros Ho Hn Hsum Hr HQ. unfold readi. wp_step. eapply geti_wp; [exact Hi|]. cbv zeta.
  pose proof (fo_size _ _ _ Hf) as Hs. rewrite !u32_small by lia. rewrite (proj2 (Z.ltb_ge _ _)) by lia. rewrite orb_false_r.
  destruct (Z.gtb_spec off (i_size i)) as [Hgt|Hle].
  - wp_step. specialize (HQ st tr Hr). rewrite (proj2 (Z.leb_gt _ _)) in HQ by lia. exact HQ.
  - rewrite (fo_dev _ _ _ Hf).
    assert (i_size i - off < 2 ^ 32) by (change (MAXFILE * BSIZE) with 274432 in Hs; lia).
    replace (if off + n >? i_size i then u32 (i_size i - off) else n) with (Z.min n (i_size i - off)).
    2:{ destruct (Z.gtb_spec (off + n) (i_size i)); [rewrite u32_small by lia|]; lia. }
    set (m := Z.min n (i_size i - off)).
    pose proof (readi_loop_wp (rw_fuel m) off m 0 st tr Q Ho ltac:(lia) ltac:(lia)) as Hloop. rewrite Z.add_0_r in Hloop.
    apply Hloop; [apply turns_fuel; lia|done|]. intros st' tr' R'. specialize (HQ st' tr' R').
    rewrite (proj2 (Z.leb_le _ _)) in HQ by lia. exact HQ.
Qed.
End Readi.
