(* ===== verification/FsWrite.v ===== *)
(** * Writing files (kernel/fs.c: writei, iupdate)

    writei() overwrites the file from an offset with the bytes of its source,
    extending it, and touches nothing else; it stops early only when the disk is
    full. *)

From S2P Require Import Prelude Machine Sleeplock Bio Store Log LogTxn FsDisk Fs Demo FsAlloc FsFile.

Open Scope Z_scope.

(** ** Effects on the bytes *)

Lemma fgrow_byte sb n v i v' i' o c :
  fgrow sb n v i v' i' -> file_ok sb v i -> file_range (o / BSIZE) ->
  byte_at v i o = Some c -> byte_at v' i' o = Some c.
Proof.
  intros [A1 A2 A3 A4 A5 A6 A7 A8 A9] Hf Hr. unfold byte_at.
  destruct (Z.eqb_spec (addr_at v i (o / BSIZE)) 0) as [|Hne]; [done|].
  assert (addr_at v' i' (o / BSIZE) = addr_at v i (o / BSIZE)) as E.
  { apply A5; [done|]. destruct (decide (o / BSIZE = n)) as [<-|]; [by right|by left]. }
  rewrite E. rewrite (proj2 (Z.eqb_neq _ _)) by done. destruct (fo_addr _ _ _ Hf _ Hr Hne) as [[D1 D2 D3 D4 D5] D6].
  rewrite A6; [done|done|done|done|]. intros _ Hx. destruct (fo_addr _ _ _ A2 _ Hr) as [_ D7]; congruence.
Qed.

(** The blocks that belong to a file. *)
Definition owned (v : gmap Z block) (i : inode) (x : Z) : Prop :=
  x <> 0 /\ (ind_addr i = x \/ exists n, file_range n /\ addr_at v i n = x).

Lemma fgrow_owned sb n v i v' i' x :
  fgrow sb n v i v' i' -> block_used sb v x = true -> owned v' i' x -> owned v i x.
Proof.
  intros [A1 A2 A3 A4 A5 A6 A7 A8 A9] Hu (Hx & [E|(m & Hm & E)]); (split; [done|]).
  - left. destruct (decide (ind_addr i = 0)) as [E0|Hne]; [|by rewrite <- A4]. subst x.
    rewrite A9 in Hu by done. done.
  - right. exists m. split; [done|]. destruct (decide (m <> n \/ addr_at v i n <> 0)) as [Hor|Hor].
    + by rewrite <- A5.
    + exfalso. assert (m = n) as -> by (destruct (decide (m = n)); [done|tauto]).
      assert (addr_at v i n = 0) as E0 by (destruct (decide (addr_at v i n = 0)); tauto).
      subst x. destruct (A8 E0 Hx) as [_ Hf]. congruence.
Qed.

Section DataWrite.
Context (sb : superblock) (v : gmap Z block) (i : inode) (n : Z) (d' : block).
Hypothesis Hfs : fs_ok sb v.
Hypothesis Hf : file_ok sb v i.
Hypothesis Hn : file_range n.
Hypothesis Hne : addr_at v i n <> 0.
Hypothesis Hl : length d' = BSIZEn.
Abbreviation v' := (<[addr_at v i n := d']> v).

Lemma addr_at_data m : addr_at v' i m = addr_at v i m.
Proof.
  unfold addr_at at 1 3. destruct (m <? NDIRECT); [done|]. destruct (Z.eqb_spec (ind_addr i) 0); [done|].
  rewrite lookup_insert_ne; [done|]. by apply (fo_addr _ _ _ Hf).
Qed.

Lemma data_not_bitmap : not_bitmap sb (addr_at v i n).
Proof. intros b Hb. by apply (db_bitmap _ _ _ (proj1 (fo_addr _ _ _ Hf n Hn Hne))). Qed.

Lemma file_ok_data : file_ok sb v' i.
Proof.
  pose proof data_not_bitmap as Hb. pose proof Hf as [H1 H2 H3 H4 H5 H6 H7 H8 H9]. constructor; try done.
  - intros Hi. apply data_block_insert; auto.
  - intros m Hm. rewrite addr_at_data. intros Hz. destruct (H7 m Hm Hz). split; [by apply data_block_insert|done].
  - intros m1 m2. rewrite !addr_at_data. apply H8.
  - intros o Ho. rewrite addr_at_data. by apply H9.
Qed.

Lemma byte_at_data o :
  file_range (o / BSIZE) ->
  byte_at v' i o = if decide (o / BSIZE = n) then d' !! Z.to_nat (o mod BSIZE) else byte_at v i o.
Proof.
  intros Hr. unfold byte_at. rewrite addr_at_data. case_decide as E.
  - rewrite E, lookup_insert_eq. by rewrite (proj2 (Z.eqb_neq _ _)).
  - destruct (Z.eqb_spec (addr_at v i (o / BSIZE)) 0) as [|Hz]; [done|]. rewrite lookup_insert_ne; [done|].
    intros Ex. apply E. by apply (fo_inj _ _ _ Hf); [..|congruence|].
Qed.
End DataWrite.

(** Changing a block that is neither bitmap nor part of the file. *)
Section OtherWrite.
Context (sb : superblock) (v : gmap Z block) (i : inode) (x : Z) (d' : block).
Hypothesis Hf : file_ok sb v i.
Hypothesis Hb : not_bitmap sb x.
Hypothesis Hx : ~ owned v i x.

Lemma addr_at_other m : addr_at (<[x := d']> v) i m = addr_at v i m.
Proof.
  unfold addr_at. destruct (m <? NDIRECT); [done|]. destruct (Z.eqb_spec (ind_addr i) 0) as [|Hi]; [done|].
  rewrite lookup_insert_ne; [done|]. intros ->. apply Hx. split; [done|]. by left.
Qed.

Lemma byte_at_other o : file_range (o / BSIZE) -> byte_at (<[x := d']> v) i o = byte_at v i o.
Proof.
  intros Hr. unfold byte_at. rewrite addr_at_other. destruct (Z.eqb_spec (addr_at v i (o / BSIZE)) 0) as [|Ha]; [done|].
  rewrite lookup_insert_ne; [done|]. intros ->. apply Hx. split; [done|]. right. by exists (o / BSIZE).
Qed.

Lemma file_ok_other : file_ok sb (<[x := d']> v) i.
Proof.
  pose proof Hf as [H1 H2 H3 H4 H5 H6 H7 H8 H9]. constructor; try done.
  - intros Hi. apply data_block_insert; auto.
  - intros m Hm. rewrite addr_at_other. intros Hz. destruct (H7 m Hm Hz). split; [by apply data_block_insert|done].
  - intros m1 m2. rewrite !addr_at_other. apply H8.
  - intros o Ho. rewrite addr_at_other. by apply H9.
Qed.
End OtherWrite.

Lemma inode_not_owned sb v i k :
  fs_ok sb v -> file_ok sb v i -> 0 <= k < sb_ninodes sb -> not_bitmap sb (IBLOCK k sb) /\ ~ owned v i (IBLOCK k sb).
Proof.
  intros Hfs Hf Hk. split; [intros b Hb; by apply (fk_inodes _ _ Hfs k Hk)|]. intros (Hx & [E|(n & Hn & E)]).
  - assert (ind_addr i <> 0) as Hi by congruence. by apply (db_inode _ _ _ (fo_ind _ _ _ Hf Hi) k Hk).
  - assert (addr_at v i n <> 0) as Ha by congruence. by apply (db_inode _ _ _ (proj1 (fo_addr _ _ _ Hf n Hn Ha)) k Hk).
Qed.

(** Every byte below the size is there. *)
Lemma byte_at_some sb v i o : fs_ok sb v -> file_ok sb v i -> 0 <= o < i_size i -> is_Some (byte_at v i o).
Proof.
  intros Hfs Hf Ho. pose proof (fo_full _ _ _ Hf o Ho) as Hne. pose proof (offset_range sb (as_t v) i Hf o Ho) as Hr.
  destruct (db_some _ _ _ (proj1 (fo_addr _ _ _ Hf _ Hr Hne))) as [d Hd]. rewrite (byte_at_block _ _ o d) by done.
  apply lookup_lt_is_Some_2. rewrite (ao_len _ _ (fk_alloc _ _ Hfs) _ _ Hd).
  pose proof (Z.mod_pos_bound o BSIZE BSIZE_pos). unfold BSIZEn. lia.
Qed.

(** ** The loop of writei() *)

Section Writei.
Context {St U : Type} `{BlockStore St} `{UserMem U}.
Context (u : U) (sb : superblock) (cwd : nat) (pid : Z).
Abbreviation fw := (fw u sb cwd pid).

Context (il : list inode) (ip : nat) (src : source) (bs : list Z) (off n : Z).
Context (t0 : tstate) (i0 : inode).
Hypothesis Hip : (ip < length il)%nat.
Hypothesis Hbs : Z.of_nat (length bs) = n.
Hypothesis Hoff : 0 <= off.
Hypothesis Hmax : off + n <= MAXFILE * BSIZE.

(** The source delivers [bs], piece by piece. *)
Hypothesis Hsrc : forall tot m st l tr (Q : Z * list Z -> world (fstate St U) -> Prop),
  0 <= tot -> tot + Z.of_nat m <= n -> Q (0, slice (Z.to_nat tot) m bs) (fw tr st l) ->
  wp (either_copyin src tot m) Q (fw tr st l).

(** After [tot] bytes. *)
Record wrote (tot : Z) (t : tstate) (i : inode) : Prop := Wrote {
  wr_fs : fs_ok sb (t_view t);
  wr_file : file_ok sb (t_view t) i;
  wr_open : t_open t = ∅;
  wr_same : i = i_set_addrs (i_addrs i) i0;
  wr_new : forall o, off <= o < off + tot -> byte_at (t_view t) i o = bs !! Z.to_nat (o - off);
  wr_old : forall o c, file_range (o / BSIZE) -> ~ (off <= o < off + tot) ->
    byte_at (t_view t0) i0 o = Some c -> byte_at (t_view t) i o = Some c;
  wr_used : forall x, 0 <= x < sb_size sb -> block_used sb (t_view t0) x = true -> block_used sb (t_view t) x = true;
  wr_frame : forall x, 0 <= x < sb_size sb -> block_used sb (t_view t0) x = true -> not_bitmap sb x ->
    ~ owned (t_view t0) i0 x -> t_view t !! x = t_view t0 !! x /\ ~ owned (t_view t) i x;
  wr_whole : tot = 0 \/ tot = n \/ (off + tot) mod BSIZE = 0
}.

Lemma cur_range tot : 0 <= tot < n -> file_range ((off + tot) / BSIZE).
Proof.
  intros Ht. unfold file_range. split; [apply Z.div_pos; [lia|done]|]. apply Z.div_lt_upper_bound; [done|]. lia.
Qed.

(** bmap() keeps the invariant. *)
Lemma wrote_mapped k tot t i a t' i' :
  0 <= tot < n -> mapped sb ((off + tot) / BSIZE) k t i a t' i' -> wrote tot t i -> wrote tot t' i'.
Proof.
  intros Htot (Hg & _ & Ho & _) [A1 A2 A3 A4 A5 A6 A7 A8 A9].
  assert (forall o, off <= o < off + tot -> file_range (o / BSIZE)) as Hr.
  { intros o Ho'. replace o with (off + (o - off)) by lia. apply cur_range. lia. }
  constructor; [apply Hg|apply Hg|done| | | | | |exact A9].
  - rewrite (fg_same _ _ _ _ _ _ Hg), A4. by destruct i0.
  - intros o Ho'. rewrite <- A5 by done. destruct (lookup_lt_is_Some_2 bs (Z.to_nat (o - off))) as [c Hc]; [lia|].
    rewrite A5, Hc by done. eapply fgrow_byte; [exact Hg|done|by apply Hr|]. by rewrite A5.
  - intros o c Hro Hn Hb. eapply fgrow_byte; [exact Hg|done|done|]. by apply A6.
  - intros x Hx Hu. eapply (fg_used _ _ _ _ _ _ Hg); auto.
  - intros x Hx Hu Hb Hno. destruct (A8 x Hx Hu Hb Hno) as [E Hno'].
    assert (~ owned (t_view t') i' x) as Hno2. { intros Hown. apply Hno'. eapply fgrow_owned; [exact Hg|by apply A7|done]. }
    split; [|done]. rewrite <- E. apply (fg_data _ _ _ _ _ _ Hg); [done|by apply A7|done|].
    intros Hi ->. apply Hno2. split; [done|]. by left.
Qed.

(** Storing the next piece keeps it. *)
Lemma wrote_data tot t i d m :
  let cur := off + tot in let a := addr_at (t_view t) i (cur / BSIZE) in
  0 <= tot < n -> a <> 0 -> t_view t !! a = Some d -> length d = BSIZEn ->
  0 < m -> m = Z.min (n - tot) (BSIZE - cur mod BSIZE) -> wrote tot t i ->
  wrote (tot + m) (t_update a (splice (Z.to_nat (cur mod BSIZE)) (slice (Z.to_nat tot) (Z.to_nat m) bs) d) t) i.
Proof.
  intros cur a Htot Hne Hd Hl Hm Em [A1 A2 A3 A4 A5 A6 A7 A8 _]. assert (m <= n - tot /\ m <= BSIZE - cur mod BSIZE) as [Hm1 Hm2] by lia.
  set (d' := splice _ _ d). pose proof (Z.mod_pos_bound cur BSIZE BSIZE_pos) as Hmod.
  assert (length (slice (Z.to_nat tot) (Z.to_nat m) bs) = Z.to_nat m) as Hsl by (apply length_slice; lia).
  assert (Z.to_nat (cur mod BSIZE) + Z.to_nat m <= length d)%nat as Hfit by (rewrite Hl; unfold BSIZEn; lia).
  assert (length d' = BSIZEn) as Hl' by (unfold d'; rewrite length_splice; [done|lia]).
  assert (file_range (cur / BSIZE)) as Hr by (by apply cur_range).
  pose proof (data_not_bitmap sb _ _ _ A2 Hr Hne) as Hnb. fold a in Hnb.
  assert (forall o, file_range (o / BSIZE) -> byte_at (<[a := d']> (t_view t)) i o =
     if decide (cur <= o < cur + m) then bs !! Z.to_nat (o - off) else byte_at (t_view t) i o) as Hbyte.
  { intros o Ho. unfold a. rewrite (byte_at_data sb) by done. pose proof (Z.mod_pos_bound o BSIZE BSIZE_pos) as Hmo.
    pose proof (Z.div_mod cur BSIZE ltac:(done)) as Ec. pose proof (Z.div_mod o BSIZE ltac:(done)) as Eo.
    destruct (decide (o / BSIZE = cur / BSIZE)) as [E|E].
    - rewrite E in Eo. case_decide as Hin.
      + unfold d'. rewrite lookup_splice_in by lia. rewrite lookup_slice by lia. f_equal. lia.
      + unfold d'. rewrite lookup_splice_out by lia. rewrite (byte_at_block _ _ o d) by (by rewrite E). done.
    - rewrite decide_False; [done|]. intros Hin. apply E. pose proof (in_block cur (o - cur) ltac:(lia) ltac:(lia)) as [E1 _].
      by replace (cur + (o - cur)) with o in E1 by lia. }
  constructor; [| | done | done | | | | | ]; cbn [t_view t_update].
  - apply fs_ok_insert; done.
  - by apply (file_ok_data sb).
  - intros o Ho. assert (file_range (o / BSIZE)) by (replace o with (off + (o - off)) by lia; apply cur_range; lia).
    rewrite Hbyte by done. case_decide; [done|]. apply A5. lia.
  - intros o c Hro Hn Hb. rewrite Hbyte by done. rewrite decide_False by lia. apply A6; [done|lia|done].
  - intros x Hx Hu. rewrite block_used_insert by done. by apply A7.
  - intros x Hx Hu Hb Hno. destruct (A8 x Hx Hu Hb Hno) as [E Hno'].
    assert (x <> a) as Hxa. { intros ->. apply Hno'. split; [done|]. right. by exists (cur / BSIZE). }
    split; [by rewrite lookup_insert_ne|]. intros (Hx0 & Hown). apply Hno'. split; [done|].
    destruct Hown as [|(j & Hj & Ej)]; [by left|right]. exists j. split; [done|]. by rewrite <- (addr_at_data sb _ _ (cur / BSIZE) d').
  - right. destruct (decide (m = n - tot)); [left; lia|right]. subst cur. blocks.
Qed.

Lemma budget_update k i t x d :
  budget sb k i t -> x ∈ t_logged t \/ budget sb (S k) i t -> budget sb k i (t_update x d t).
Proof.
  intros (B1 & B2 & B3 & B4) Hor. pose proof (cost_update sb i t x d) as Hc. unfold pot in Hc.
  unfold budget. change (t_open (t_update x d t)) with (t_open t). destruct Hor as [Hin|(C1 & C2 & _)].
  - rewrite decide_True in Hc by done. split; [lia|]. split; [lia|]. done.
  - case_decide; (split; [lia|]; split; [lia|done]).
Qed.

Definition written (tot : Z) (t : tstate) (i : inode) : Prop :=
  wrote tot t i /\ 0 <= tot <= n /\ budget sb 0 i t /\ (tot < n -> free_blocks sb (t_view t) = [] /\ i_size i0 <= off + tot).

Lemma writei_loop_wp f tot st tr t i (Q : Z * Z -> world (fstate St U) -> Prop) :
  0 <= tot <= n -> turns (off + n) (off + tot) <= Z.of_nat f ->
  budget sb (Z.to_nat (turns (off + n) (off + tot) - 1)) i t -> wrote tot t i -> bs_rep st t ->
  (forall tot' w, at_inode u sb cwd pid il ip (written tot') w -> Q (tot', off + tot') w) ->
  wp (iter f (writei_step ip ROOTDEV src n) (tot, off + tot)) Q (fw tr st (<[ip := i]> il)).
Proof.
  intros Htot Hfuel Hbud Hwr Hr HQ. revert tot st tr t i Htot Hfuel Hbud Hwr Hr.
  induction f as [|f IH]; intros tot st tr t i Htot Hfuel Hbud Hwr Hr.
  { pose proof (turns_pos (off + n) (off + tot) ltac:(lia)). lia. }
  cbn [iter]. wp_step. unfold writei_step at 1. destruct (Z.ltb_spec tot n) as [Hlt|Hge]; cbn [negb].
  2:{ do 2 wp_step. apply HQ. exists tr, st, t, i. split; [done|]. split; [done|]. split; [done|]. split; [lia|].
      split; [eapply budget_le; [|exact Hbud]; lia|lia]. }
  set (m := Z.min (n - tot) (BSIZE - (off + tot) mod BSIZE)).
  destruct (turns_step (off + n) (off + tot) m ltac:(lia)) as (Hm0 & Hm1 & Hm2); [unfold m; f_equal; lia|].
  pose proof (turns_pos (off + n) (off + tot + m) ltac:(lia)) as Htp.
  replace (Z.to_nat (turns (off + n) (off + tot) - 1)) with (S (Z.to_nat (turns (off + n) (off + (tot + m)) - 1))) in Hbud
    by (rewrite Z.add_assoc, Hm2; lia).
  set (k := Z.to_nat (turns (off + n) (off + (tot + m)) - 1)) in *.
  pose proof (cur_range tot ltac:(lia)) as Hrg.
  wp_step. apply (bmap_wp u sb cwd pid il ip _ k Hrg st tr t i); [done|done|apply Hwr|apply Hwr|apply Hwr|done|].
  intros a w (tr1 & st1 & t1 & i1 & -> & R1 & Hmap). pose proof (wrote_mapped _ tot _ _ _ _ _ ltac:(lia) Hmap Hwr) as Hwr1.
  destruct Hmap as (Hg & Ea & Ho1 & Hb1 & Hor & Hnone). destruct (Z.eqb_spec a 0) as [E0|Hne].
  { do 2 wp_step. apply HQ. exists tr1, st1, t1, i1. split; [done|]. split; [done|]. split; [done|]. split; [lia|].
    split; [eapply budget_le; [|exact Hb1]; lia|]. intros _. split; [auto|].
    destruct (decide (off + tot < i_size i1)) as [Hin|]; [|rewrite (wr_same _ _ _ Hwr1) in *; cbn in *; lia].
    destruct (fo_full _ _ _ (wr_file _ _ _ Hwr1) (off + tot) ltac:(lia)). congruence. }
  rewrite Ea in Hne, Hor. subst a. clear Hnone.
  destruct (db_some _ _ _ (proj1 (fo_addr _ _ _ (wr_file _ _ _ Hwr1) _ Hrg Hne))) as [d Hd].
  pose proof (ao_len _ _ (fk_alloc _ _ (wr_fs _ _ _ Hwr1)) _ _ Hd) as Hl.
  assert (t_open t1 !! addr_at (t_view t1) i1 ((off + tot) / BSIZE) = None) as Hop by (rewrite Ho1; apply lookup_empty).
  pose proof Hb1 as (Hlim & _ & Hdt & Hout).
  wp_step. eapply f_bread_wp; [exact R1|eapply budget_can_open; [done|exact Hb1|by eexists]|]. intros j st2 tr2 R2. cbv zeta. fold m.
  wp_step. apply Hsrc; [lia|lia|]. wp_step. eapply f_data_wp; [exact R2|apply t_opened_eq|exact Hd|].
  assert (length (slice (Z.to_nat tot) (Z.to_nat m) bs) = Z.to_nat m) as Hsl by (apply length_slice; lia).
  pose proof (Z.mod_pos_bound (off + tot) BSIZE BSIZE_pos) as Hmod.
  destruct (slice (Z.to_nat tot) (Z.to_nat m) bs) as [|c0 cs] eqn:Esl; [cbn in Hsl; lia|]. rewrite <- Esl in *. clear c0 cs Esl.
  wp_step. eapply f_set_wp; [exact R2|apply t_opened_eq|rewrite length_splice; rewrite ?Hsl, Hl; unfold BSIZEn; lia|].
  intros st3 tr3 R3. change (0 =? -1) with false. cbv iota.
  wp_step. eapply f_log_write_wp; [exact R3|apply t_opened_eq|cbn; unfold cost in Hlim; lia|done|]. intros st4 tr4 R4.
  wp_step. eapply f_brelse_wp; [exact R4|apply t_opened_eq|apply wrote_clean|]. intros st5 tr5 R5.
  rewrite t_update_done in R5 by done. wp_step. rewrite <- Z.add_assoc. eapply IH; [lia| | | |exact R5].
  - rewrite Z.add_assoc. lia.
  - fold k. by apply budget_update.
  - apply wrote_data; (done || lia).
Qed.

(** ** iupdate() *)

Definition inode_slot (v : gmap Z block) (k : Z) : dinode := get_dinode (dinode_off k) (default [] (v !! IBLOCK k sb)).

Definition t_iupdate (i : inode) (t : tstate) : tstate :=
  t_update (IBLOCK (i_inum i) sb)
    (put_dinode (dinode_off (i_inum i)) (dinode_of i) (default [] (t_view t !! IBLOCK (i_inum i) sb))) t.

Lemma dinode_off_bound k : (dinode_off k + 64 <= BSIZEn)%nat.
Proof.
  unfold dinode_off. change DINODE_SIZE with 64. change IPB with 16. change BSIZEn with 1024%nat.
  pose proof (Z.mod_pos_bound k 16). lia.
Qed.

Lemma iupdate_wp st tr t i (Q : unit -> world (fstate St U) -> Prop) :
  bs_rep st t -> fs_ok sb (t_view t) -> i_dev i = ROOTDEV -> 0 <= i_inum i < sb_ninodes sb -> dinode_ok (dinode_of i) ->
  t_open t = ∅ -> budget sb 0 i t ->
  (forall st' tr', bs_rep st' (t_iupdate i t) -> Q tt (fw tr' st' (<[ip := i]> il))) ->
  wp (iupdate ip) Q (fw tr st (<[ip := i]> il)).
Proof.
  intros Hr Hfs Hdev Hinum Hdi Ho Hb HQ. destruct (fk_inodes _ _ Hfs _ Hinum) as ([d Hd] & _).
  pose proof (ao_len _ _ (fk_alloc _ _ Hfs) _ _ Hd) as Hl. pose proof (dinode_off_bound (i_inum i)) as Hdo.
  assert (t_open t !! IBLOCK (i_inum i) sb = None) as Hop by (rewrite Ho; apply lookup_empty).
  pose proof Hb as (Hlim & _ & Hdt & Hout).
  unfold iupdate. wp_step. eapply geti_wp; [by apply lookup_ip|]. rewrite Hdev. do 2 wp_step. cbn [user fs_sb FsAlloc.fw].
  wp_step. eapply f_bread_wp; [exact Hr|eapply budget_can_open; [done|exact Hb|by eexists]|]. intros j st1 tr1 R1.
  wp_step. eapply f_data_wp; [exact R1|apply t_opened_eq|exact Hd|].
  wp_step. eapply f_set_wp; [exact R1|apply t_opened_eq|rewrite length_put_dinode; [done|lia|done]|]. intros st2 tr2 R2.
  wp_step. eapply f_log_write_wp; [exact R2|apply t_opened_eq|cbn; unfold cost in Hlim; lia|done|]. intros st3 tr3 R3.
  eapply f_brelse_wp; [exact R3|apply t_opened_eq|apply wrote_clean|]. intros st4 tr4 R4.
  rewrite t_update_done in R4 by done. apply HQ. unfold t_iupdate. by rewrite Hd.
Qed.

(** iupdate() stores the inode in its slot and leaves the other slots alone. *)
Lemma iupdate_slots t i :
  fs_ok sb (t_view t) -> 0 <= i_inum i < sb_ninodes sb -> dinode_ok (dinode_of i) ->
  inode_slot (t_view (t_iupdate i t)) (i_inum i) = dinode_of i /\
  forall k, 0 <= k < sb_ninodes sb -> k <> i_inum i -> inode_slot (t_view (t_iupdate i t)) k = inode_slot (t_view t) k.
Proof.
  intros Hfs Hinum Hdi. destruct (fk_inodes _ _ Hfs _ Hinum) as ([d Hd] & _).
  pose proof (ao_len _ _ (fk_alloc _ _ Hfs) _ _ Hd) as Hl. unfold inode_slot, t_iupdate. cbn [t_view t_update]. rewrite Hd. cbn [default from_option id].
  split.
  - rewrite lookup_insert_eq. cbn [default from_option id]. apply get_put_dinode; [|done]. rewrite Hl. apply dinode_off_bound.
  - intros k Hk Hne. destruct (decide (IBLOCK k sb = IBLOCK (i_inum i) sb)) as [E|E].
    + rewrite E, lookup_insert_eq, Hd. cbn [default from_option id].
      pose proof (dinode_off_bound k) as B1. pose proof (dinode_off_bound (i_inum i)) as B2.
      apply get_put_dinode_ne; [rewrite Hl; done|done|by rewrite Hl|]. unfold dinode_off, IBLOCK in *.
      change DINODE_SIZE with 64 in *. change IPB with 16 in *.
      pose proof (Z.div_mod k 16 ltac:(done)). pose proof (Z.div_mod (i_inum i) 16 ltac:(done)).
      pose proof (Z.mod_pos_bound k 16 ltac:(done)). pose proof (Z.mod_pos_bound (i_inum i) 16 ltac:(done)). lia.
    + by rewrite lookup_insert_ne.
Qed.

Lemma iupdate_fs_ok t i :
  fs_ok sb (t_view t) -> 0 <= i_inum i < sb_ninodes sb -> dinode_ok (dinode_of i) -> fs_ok sb (t_view (t_iupdate i t)).
Proof.
  intros Hfs Hinum Hdi. destruct (fk_inodes _ _ Hfs _ Hinum) as ([d Hd] & _ & _ & Hnb). unfold t_iupdate. rewrite Hd.
  pose proof (ao_len _ _ (fk_alloc _ _ Hfs) _ _ Hd) as Hl. apply fs_ok_insert; [done|done|].
  cbn [default from_option id]. rewrite length_put_dinode; [done| |done]. rewrite Hl. apply dinode_off_bound.
Qed.

(** ** writei() *)

(** What a write of [r] bytes leaves. *)
Record write_result (r : Z) (t : tstate) (i : inode) : Prop := WriteResult {
  ws_range : 0 <= r <= n;
  ws_fs : fs_ok sb (t_view t);
  ws_file : file_ok sb (t_view t) i;
  ws_open : t_open t = ∅;
  ws_content : content (t_view t) i = splice (Z.to_nat off) (take (Z.to_nat r) bs) (content (t_view t0) i0);
  ws_same : i = i_set_size (Z.max (i_size i0) (off + r)) (i_set_addrs (i_addrs i) i0);
  ws_slot : inode_slot (t_view t) (i_inum i0) = dinode_of i;
  ws_slots : forall k, 0 <= k < sb_ninodes sb -> k <> i_inum i0 -> inode_slot (t_view t) k = inode_slot (t_view t0) k;
  ws_full : r < n -> free_blocks sb (t_view t) = [];
  ws_inside : r < n -> i_size i0 <= off + r;
  ws_whole : r = 0 \/ r = n \/ (off + r) mod BSIZE = 0;
  ws_used : forall x, 0 <= x < sb_size sb -> block_used sb (t_view t0) x = true -> block_used sb (t_view t) x = true;
  ws_owned : forall x, 0 <= x < sb_size sb -> block_used sb (t_view t0) x = true -> not_bitmap sb x ->
    ~ owned (t_view t0) i0 x -> ~ owned (t_view t) i x;
  ws_frame : forall x, 0 <= x < sb_size sb -> block_used sb (t_view t0) x = true -> not_bitmap sb x ->
    ~ owned (t_view t0) i0 x -> x <> IBLOCK (i_inum i0) sb -> t_view t !! x = t_view t0 !! x
}.

Hypothesis Hfs0 : fs_ok sb (t_view t0).
Hypothesis Hf0 : file_ok sb (t_view t0) i0.
Hypothesis Hd0 : dinode_ok (dinode_of i0).
Hypothesis Hat : off <= i_size i0.

(** The size the inode gets after [r] bytes. *)
Definition resized (r : Z) (i : inode) : inode := if off + r >? i_size i then i_set_size (off + r) i else i.

Lemma resized_same r i : resized r i = i_set_size (Z.max (i_size i) (off + r)) i.
Proof.
  unfold resized. destruct (Z.gtb_spec (off + r) (i_size i)); [by rewrite Z.max_r by lia|].
  rewrite Z.max_l by lia. by destruct i.
Qed.

Lemma wrote_file r t i : 0 <= r <= n -> wrote r t i -> file_ok sb (t_view t) (resized r i).
Proof.
  intros Hr Hw. pose proof (wr_file _ _ _ Hw) as [H1 H2 H3 H4 H5 H6 H7 H8 H9]. rewrite resized_same. constructor; try done.
  - cbn [i_size i_set_size]. lia.
  - cbn [i_size i_set_size]. intros o Ho. change (addr_at (t_view t) i (o / BSIZE) <> 0).
    destruct (decide (o < i_size i)); [apply H9; lia|]. assert (i_size i0 = i_size i) as Es by (rewrite (wr_same _ _ _ Hw); done).
    pose proof (wr_new _ _ _ Hw o ltac:(lia)) as Hb. unfold byte_at in Hb.
    destruct (Z.eqb_spec (addr_at (t_view t) i (o / BSIZE)) 0) as [|]; [|done].
    destruct (lookup_lt_is_Some_2 bs (Z.to_nat (o - off))) as [c Hc]; [lia|]. congruence.
Qed.

Lemma wrote_dinode r t i : 0 <= r <= n -> wrote r t i -> dinode_ok (dinode_of (resized r i)).
Proof.
  intros Hr Hw. pose proof (wrote_file r t i Hr Hw) as Hf'. pose proof (fo_size _ _ _ Hf') as Hsz.
  rewrite resized_same in *. rewrite (wr_same _ _ _ Hw) in Hsz |- *. destruct Hd0 as [D1 D2 D3 D4 D5 D6 D7].
  constructor; try done; cbn [d_size d_addrs dinode_of i_set_size i_addrs i_set_addrs i_size] in *.
  - unfold word. change (MAXFILE * BSIZE) with 274432 in Hsz. lia.
  - apply (fo_words _ _ _ (wr_file _ _ _ Hw)).
  - apply (fo_len _ _ _ (wr_file _ _ _ Hw)).
Qed.

Lemma wrote_content r t i :
  0 <= r <= n -> wrote r t i ->
  content (t_view t) (resized r i) = splice (Z.to_nat off) (take (Z.to_nat r) bs) (content (t_view t0) i0).
Proof.
  intros Hr Hw. pose proof (fo_size _ _ _ Hf0) as Hs0.
  assert (i_size i = i_size i0) as Es by (rewrite (wr_same _ _ _ Hw); done).
  unfold content. rewrite resized_same. cbn [i_size i_set_size]. rewrite Es. set (sz := Z.max (i_size i0) (off + r)).
  apply list_eq. intros j. rewrite lookup_splice_extend by (rewrite length_file_bytes; lia).
  rewrite length_take, Nat.min_l by lia. destruct (decide (j < Z.to_nat sz)%nat) as [Hj|Hj].
  - rewrite file_bytes_lookup by done. rewrite Z.add_0_l. change (byte_at (t_view t) (i_set_size sz i)) with (byte_at (t_view t) i).
    case_decide as Hin.
    + rewrite (wr_new _ _ _ Hw) by lia. rewrite lookup_take_lt by lia.
      replace (Z.to_nat (Z.of_nat j - off)) with (j - Z.to_nat off)%nat by lia.
      destruct (lookup_lt_is_Some_2 bs (j - Z.to_nat off)%nat) as [c Hc]; [lia|]. by rewrite Hc.
    + rewrite file_bytes_lookup by lia. rewrite Z.add_0_l.
      destruct (byte_at_some sb (t_view t0) i0 (Z.of_nat j) Hfs0 Hf0 ltac:(lia)) as [c Hc]. rewrite Hc.
      rewrite (wr_old _ _ _ Hw _ c); [done| |lia|done]. apply (offset_range sb t0 i0 Hf0). lia.
  - rewrite lookup_ge_None_2 by (rewrite length_file_bytes; lia). rewrite decide_False by lia.
    rewrite lookup_ge_None_2; [done|]. rewrite length_file_bytes. lia.
Qed.

Lemma wrote_result r t i :
  written r t i -> write_result r (t_iupdate (resized r i) t) (resized r i).
Proof.
  intros (Hw & Hr & Hb & Hfull). pose proof (wrote_file r t i Hr Hw) as Hf'. pose proof (wrote_dinode r t i Hr Hw) as Hd'.
  pose proof (wr_fs _ _ _ Hw) as Hfs'.
  assert (i_inum (resized r i) = i_inum i0) as En by (rewrite resized_same, (wr_same _ _ _ Hw); done).
  pose proof (fo_inum _ _ _ Hf') as Hin. destruct (inode_not_owned _ _ _ _ Hfs' Hf' Hin) as [Hnb Hno].
  destruct (iupdate_slots t (resized r i) Hfs' Hin Hd') as [Hs1 Hs2].
  destruct (inode_not_owned _ _ _ (i_inum i0) Hfs0 Hf0 ltac:(by rewrite <- En)) as [_ Hno0].
  assert (forall k, 0 <= k < sb_ninodes sb -> inode_slot (t_view t) k = inode_slot (t_view t0) k) as Hslot.
  { intros k Hk. unfold inode_slot. destruct (inode_not_owned _ _ _ k Hfs0 Hf0 Hk) as [Hnb0 Hno'].
    destruct (fk_inodes _ _ Hfs0 k Hk) as (_ & Hrange & Hu & _). by destruct (wr_frame _ _ _ Hw _ Hrange Hu Hnb0 Hno') as [-> _]. }
  constructor.
  - done.
  - by apply iupdate_fs_ok.
  - apply (file_ok_other sb); done.
  - apply (wr_open _ _ _ Hw).
  - rewrite <- (wrote_content r t i Hr Hw). unfold content, file_bytes. apply list_fmap_ext. intros j o Ho.
    apply lookup_seqZ in Ho as [-> Ho]. f_equal. apply (byte_at_other sb); [exact Hnb|exact Hno|].
    apply (offset_range sb t _ Hf'). pose proof (fo_size _ _ _ Hf'). lia.
  - rewrite resized_same. rewrite (wr_same _ _ _ Hw). done.
  - by rewrite <- En.
  - intros k Hk Hne. rewrite Hs2 by congruence. by apply Hslot.
  - intros Hlt. rewrite <- (proj1 (Hfull Hlt)). apply free_blocks_ext. intros b Hb'. by apply block_used_insert.
  - intros Hlt. apply (Hfull Hlt).
  - apply (wr_whole _ _ _ Hw).
  - intros x Hx Hu. unfold t_iupdate. cbn [t_view t_update]. rewrite block_used_insert by done. by apply (wr_used _ _ _ Hw).
  - intros x Hx Hu Hbm Hown (H0' & Ho). apply (wr_frame _ _ _ Hw x Hx Hu Hbm Hown). split; [done|]. unfold t_iupdate in Ho. cbn [t_view t_update] in Ho.
    destruct Ho as [E|(j & Hj & Ej)]; [left; by rewrite resized_same in E|right]. exists j. split; [done|].
    rewrite (addr_at_other sb _ _ _ _ Hnb Hno) in Ej. by rewrite resized_same in Ej.
  - intros x Hx Hu Hbm Hown Hxi. unfold t_iupdate. cbn [t_view t_update]. rewrite lookup_insert_ne by congruence.
    by apply (wr_frame _ _ _ Hw).
Qed.

Lemma wrote_start : t_open t0 = ∅ -> wrote 0 t0 i0.
Proof. intros Ho. constructor; try done; [by destruct i0|lia|by left]. Qed.

Lemma writei_wp st tr (Q : Z -> world (fstate St U) -> Prop) :
  bs_rep st t0 -> t_open t0 = ∅ -> budget sb (Z.to_nat (turns (off + n) off - 1)) i0 t0 ->
  (forall r w, at_inode u sb cwd pid il ip (write_result r) w -> Q r w) ->
  wp (writei ip src off n) Q (fw tr st (<[ip := i0]> il)).
Proof.
  intros Hr Ho Hb HQ. pose proof (fo_size _ _ _ Hf0) as Hsz. pose proof Hmax as Hmax'.
  change (MAXFILE * BSIZE) with 274432 in Hmax', Hsz.
  unfold writei. wp_step. eapply geti_wp; [by apply lookup_ip|]. rewrite !u32_small by lia.
  destruct (Z.gtb_spec off (i_size i0)); [lia|]. destruct (Z.ltb_spec (off + n) off); [lia|].
  destruct (Z.gtb_spec (off + n) (MAXFILE * BSIZE)); [lia|]. cbn [orb].
  pose proof (fun Q' => writei_loop_wp (rw_fuel n) 0 st tr t0 i0 Q') as Hloop. rewrite Z.add_0_r in Hloop.
  rewrite (fo_dev _ _ _ Hf0). wp_step.
  apply Hloop; [lia|apply turns_fuel; lia|done|by apply wrote_start|done|].
  intros r w (tr1 & st1 & t1 & i1 & -> & R1 & Hwr). pose proof Hwr as (Hw & Hrr & Hb1 & _).
  wp_step. eapply geti_wp; [by apply lookup_ip|]. wp_step.
  assert (forall P : unit -> world (fstate St U) -> Prop, P tt (fw tr1 st1 (<[ip := resized r i1]> il)) ->
    wp (if off + r >? i_size i1 then seti ip (i_set_size (off + r)) else ret tt) P (fw tr1 st1 (<[ip := i1]> il))) as Hset.
  { intros P HP. unfold resized in HP. destruct (off + r >? i_size i1); [|by wp_step].
    eapply seti_wp; [by apply lookup_ip|]. by rewrite list_insert_insert_eq. }
  apply Hset. wp_step. pose proof (wrote_file r t1 i1 Hrr Hw) as Hf1.
  eapply iupdate_wp; [exact R1|apply Hw|apply Hf1|apply Hf1|by eapply wrote_dinode|apply Hw| |].
  - rewrite resized_same. exact Hb1.
  - intros st2 tr2 R2. wp_step. apply HQ. exists tr2, st2, (t_iupdate (resized r i1) t1), (resized r i1).
    split; [done|]. split; [done|]. by apply wrote_result.
Qed.
End Writei.

(** ** The claims *)

Lemma file_bytes_slice v i off m :
  0 <= off -> 0 <= m -> off + m <= i_size i -> file_bytes v i off m = slice (Z.to_nat off) (Z.to_nat m) (content v i).
Proof.
  intros Ho Hm Hs. apply list_eq. intros j. destruct (decide (j < Z.to_nat m)%nat) as [Hj|Hj].
  - unfold content. rewrite lookup_slice, !file_bytes_lookup by lia. f_equal. f_equal. f_equal. lia.
  - rewrite !lookup_ge_None_2; [done|rewrite length_slice; [lia|]|]; unfold content; rewrite length_file_bytes; lia.
Qed.

Section Claims.
Context {St U : Type} `{BlockStore St} `{UserMem U}.
Context (u : U) (sb : superblock) (cwd : nat) (pid : Z).
Abbreviation fw := (fw u sb cwd pid).

(** C20. readi() into kernel memory answers exactly the bytes of the file from [off]
    on: as many as were asked for, cut at the end of the file, none past it; the disk
    and the inodes are unchanged. *)
Theorem readi_correct st il tr t ip i off n
    (Hrep : bs_rep st t) (Hrd : reader t) (Hfs : fs_ok sb (t_view t)) (Hf : file_ok sb (t_view t) i)
    (Hi : il !! ip = Some i) (Hoff : 0 <= off) (Hn : 0 <= n) (Hsum : off + n < 2 ^ 32) :
  wp (readi ip ToKernel off n) (fun r w' => bs_rep (fs_store (user w')) t /\ fs_inodes (user w') = il /\
    r.2 = slice (Z.to_nat off) (Z.to_nat n) (content (t_view t) i) /\ r.1 = Z.of_nat (length r.2)) (fw tr st il).
Proof.
  apply (readi_wp u sb cwd pid il ip t i Hrd (ao_len _ _ (fk_alloc _ _ Hfs)) Hf Hi); [done|done|done|done|].
  intros st' tr' R m. split; [done|]. split; [done|]. cbn [fst snd].
  pose proof (length_file_bytes (t_view t) i 0 (i_size i)) as Hlen. fold (content (t_view t) i) in Hlen.
  pose proof (fo_size _ _ _ Hf). subst m. destruct (Z.leb_spec off (i_size i)) as [Hle|Hgt].
  - rewrite length_file_bytes. split; [|lia]. rewrite file_bytes_slice by lia.
    destruct (decide (n <= i_size i - off)); [by rewrite Z.min_l by lia|]. rewrite Z.min_r by lia.
    unfold slice. rewrite !take_ge by (rewrite length_drop; lia). done.
  - split; [|done]. unfold slice. rewrite drop_ge by lia. by rewrite take_nil.
Qed.

(** C6. writei() from kernel memory overwrites the file from [off] with a prefix of
    the source, extending it if need be, and records the new inode on disk; the prefix
    is everything unless the disk is full, and no other file, inode or block in use
    changes. *)
Theorem writei_correct st il tr t ip i off bs
    (Hrep : bs_rep st t) (Hopen : t_open t = ∅) (Hip : (ip < length il)%nat)
    (Hfs : fs_ok sb (t_view t)) (Hf : file_ok sb (t_view t) i) (Hd : dinode_ok (dinode_of i))
    (Hoff : 0 <= off <= i_size i) (Hmax : off + Z.of_nat (length bs) <= MAXFILE * BSIZE)
    (Hbud : budget sb (Z.to_nat (turns (off + Z.of_nat (length bs)) off - 1)) i t) :
  wp (writei ip (FromKernel bs) off (Z.of_nat (length bs))) (fun r w' => exists t' i',
      bs_rep (fs_store (user w')) t' /\ fs_inodes (user w') = <[ip := i']> il /\
      write_result sb bs off (Z.of_nat (length bs)) t i r t' i')
    (fw tr st (<[ip := i]> il)).
Proof.
  apply (writei_wp u sb cwd pid il ip (FromKernel bs) bs off (Z.of_nat (length bs)) t i); try done; try lia.
  intros r w (tr' & st' & t' & i' & -> & R & Hres). by exists t', i'.
Qed.
End Claims.

(** ** On the small image *)

#[local] Opaque demo_store.

Definition demo_root_inode : inode := Inode ROOTDEV 1 1 (Sleeplock true 1) true T_DIR 0 0 1 32 (12 :: replicate 12 0).
Definition demo_inodes : list inode := <[0%nat := demo_root_inode]> demo_il.

Section DemoFile.
Context (v : gmap Z block).
Hypothesis Hv : forall x, v !! x = if decide (2 <= x < 10) then None else if decide (0 <= x) then demo_img !! Z.to_nat x else None.

Lemma demo_addr n : file_range n -> addr_at v demo_root_inode n = if decide (n = 0) then 12 else 0.
Proof.
  unfold file_range, addr_at. intros Hn. change (ind_addr demo_root_inode) with 0. cbn [Z.eqb].
  destruct (Z.ltb_spec n NDIRECT) as [Hlt|]; [|rewrite decide_False by (unfold NDIRECT in *; lia); done].
  cbn [i_addrs demo_root_inode]. case_decide as E; [by subst|].
  rewrite <- (Nat2Z.id (Z.to_nat n)). rewrite Nat2Z.id. destruct (Z.to_nat n) as [|k] eqn:Ek; [lia|].
  change ((12 :: replicate 12 0) !!! S k) with (replicate 12 0 !!! k). apply lookup_total_replicate_2.
  unfold NDIRECT in Hlt. lia.
Qed.

Lemma demo_fs_ok : fs_ok demo_sb v.
Proof.
  destruct (demo_alloc_ok _ Hv) as [Hok Hu]. constructor; [done| |].
  - intros _. by rewrite Hu.
  - intros k Hk. assert (IBLOCK k demo_sb = 10) as ->.
    { unfold IBLOCK. change IPB with 16. cbn in Hk. rewrite Z.div_small by lia. done. }
    split; [rewrite Hv; by eexists|]. split; [cbn; lia|]. split; [by rewrite Hu|].
    intros b Hb. unfold BBLOCK. change BPB with 8192. cbn in Hb. rewrite Z.div_small by lia. done.
Qed.

Lemma demo_data_block : data_block demo_sb v 12.
Proof.
  destruct (demo_alloc_ok _ Hv) as [Hok Hu]. constructor; [cbn; lia|rewrite Hv; by eexists|by rewrite Hu| |].
  - intros b Hb. unfold BBLOCK. change BPB with 8192. cbn in Hb. rewrite Z.div_small by lia. done.
  - intros k Hk. unfold IBLOCK. change IPB with 16. cbn in Hk. rewrite Z.div_small by lia. done.
Qed.

Lemma demo_file_ok : file_ok demo_sb v demo_root_inode.
Proof.
  constructor; try done.
  - constructor; [done|]. apply Forall_replicate. done.
  - intros n Hn. rewrite demo_addr by done. case_decide; [|done]. intros _. split; [apply demo_data_block|done].
  - intros n m Hn Hm. rewrite !demo_addr by done. repeat case_decide; by subst.
  - intros o Ho. cbn in Ho. rewrite Z.div_small by (change BSIZE with 1024; lia). by rewrite demo_addr.
Qed.
End DemoFile.

Lemma demo_dinode_ok : dinode_ok (dinode_of demo_root_inode).
Proof. constructor; try done. constructor; [done|]. by apply Forall_replicate. Qed.

Lemma demo_budget t :
  t_open t = ∅ -> t_dirty t = ∅ -> t_logged t = [] -> t_out t = 1 -> budget demo_sb 3 demo_root_inode t.
Proof.
  intros Ho Hd Hl Hout. unfold budget, cost, bpot, ipot. rewrite Ho, Hd, Hl, Hout.
  change (filter _ (bitmap_blocks demo_sb)) with [11].
  split; [apply Nat.ltb_lt; vm_compute; reflexivity|]. split; [apply Nat.ltb_lt; vm_compute; reflexivity|]. done.
Qed.

(** Reading the second entry of the root directory. *)
Lemma readi_correct_witness :
  exists t, bs_rep demo_store t /\
    wp (readi 0 ToKernel 16 16) (fun r w' => bs_rep (fs_store (user w')) t /\ fs_inodes (user w') = demo_inodes /\
      r.2 = slice (Z.to_nat 16) (Z.to_nat 16) (content (t_view t) demo_root_inode) /\ r.1 = Z.of_nat (length r.2))
      (fw tt demo_sb 0 1 [] demo_store demo_inodes).
Proof.
  destruct demo_store_rep as (t & R & Ho & Hd & Hl & Hout & Hv). exists t. split; [exact R|].
  apply (readi_correct tt demo_sb 0 1 demo_store demo_inodes [] t 0 demo_root_inode 16 16).
  - exact R.
  - split; [exact Ho|]. split; [exact Hd|]. rewrite Hl. apply Nat.ltb_lt. vm_compute. reflexivity.
  - exact (demo_fs_ok _ Hv).
  - exact (demo_file_ok _ Hv).
  - reflexivity.
  - lia.
  - lia.
  - lia.
Defined.

(** Appending an entry to it. *)
Lemma writei_correct_witness :
  exists t, bs_rep demo_store t /\
    wp (writei 0 (FromKernel (replicate 16 7)) 32 16) (fun r w' => exists t' i',
        bs_rep (fs_store (user w')) t' /\ fs_inodes (user w') = <[0%nat := i']> demo_il /\
        write_result demo_sb (replicate 16 7) 32 16 t demo_root_inode r t' i')
      (fw tt demo_sb 0 1 [] demo_store (<[0%nat := demo_root_inode]> demo_il)).
Proof.
  destruct demo_store_rep as (t & R & Ho & Hd & Hl & Hout & Hv). exists t. split; [exact R|].
  apply (writei_correct tt demo_sb 0 1 demo_store demo_il [] t 0 demo_root_inode 32 (replicate 16 7)).
  - exact R.
  - exact Ho.
  - apply Nat.ltb_lt. vm_compute. reflexivity.
  - exact (demo_fs_ok _ Hv).
  - exact (demo_file_ok _ Hv).
  - exact demo_dinode_ok.
  - cbn. lia.
  - vm_compute. discriminate.
  - apply (budget_le _ 3); [vm_compute; lia|]. exact (demo_budget t Ho Hd Hl Hout).
Defined.
