(* ===== verification/FsPath.v ===== *)
(** * Path names (kernel/fs.c: iget, ilock, iunlock, iput, dirlookup, skipelem, namex)

    namei() follows a path through the directories on disk, holding one reference
    and at most one lock at a time.  The directory tree is what the blocks say: the
    entries of a directory are the records of 16 bytes of its contents.  The table
    of inodes in memory is a cache of the inodes on disk with a reference
    count per inode. *)

From S2P Require Import Prelude Machine Sleeplock Bio Store Log LogTxn FsDisk CString Fs Demo FsAlloc FsFile FsWrite.

Open Scope Z_scope.

(** ** The elements of a path *)

Definition flush (cur : list Z) : list (list Z) := match cur with [] => [] | _ => [cur] end.
Fixpoint split_from (cur s : list Z) : list (list Z) :=
  match s with
  | [] => flush cur
  | c :: t => if c =? 0 then flush cur else if c =? 47 then flush cur ++ split_from [] t else split_from (cur ++ [c]) t
  end.
Definition elements (path : list Z) : list (list Z) := split_from [] path.

Lemma skip_slashes_spec path : 0 ∈ path -> exists s, skip_slashes path = Some s /\ elements s = elements path /\ head s <> Some 47 /\ 0 ∈ s /\
  (length s <= length path)%nat.
Proof.
  induction path as [|c path IH]; intros H0; [by apply elem_of_nil in H0|]. cbn [skip_slashes]. destruct (Z.eqb_spec c 47) as [->|Hc].
  - destruct IH as (s & -> & E & Hh & Hs & Hl); [set_solver|]. exists s. cbn [length]. repeat split; try done. lia.
  - exists (c :: path). split; [done|]. split; [done|]. split; [cbn; congruence|]. split; [done|lia].
Qed.

Lemma elem_len_spec s : 0 ∈ s -> exists len, elem_len s = Some len /\ (len < length s)%nat /\ 0 ∉ take len s /\ 47 ∉ take len s /\
  (exists c, head (drop len s) = Some c /\ (c = 47 \/ c = 0)) /\
  forall cur, split_from cur s = flush (cur ++ take len s) ++ elements (drop len s).
Proof.
  induction s as [|c s IH]; intros H0; [by apply elem_of_nil in H0|]. cbn [elem_len split_from].
  destruct (Z.eqb_spec c 47) as [->|Hc].
  { exists 0%nat. cbn. repeat split; [lia|apply not_elem_of_nil|apply not_elem_of_nil|eauto|]. intros cur. by rewrite app_nil_r. }
  destruct (Z.eqb_spec c 0) as [->|Hc0]; cbn [orb].
  { exists 0%nat. cbn. repeat split; [lia|apply not_elem_of_nil|apply not_elem_of_nil|eauto|]. intros cur. by rewrite !app_nil_r. }
  destruct IH as (len & -> & Hl & Hn0 & Hn47 & Hh & Hsp); [set_solver|]. exists (S len). cbn [length take drop]. repeat split; [lia| | |done|].
  - by apply not_elem_of_cons.
  - by apply not_elem_of_cons.
  - intros cur. by rewrite Hsp, <- app_assoc.
Qed.

Lemma elements_end s : 0 ∈ s -> head s <> Some 47 -> (elements s = [] <-> head s = Some 0).
Proof.
  intros H0 Hh. destruct s as [|c s]; [by apply elem_of_nil in H0|]. unfold elements. cbn. destruct (Z.eqb_spec c 0) as [->|Hc]; [done|].
  destruct (Z.eqb_spec c 47) as [->|Hc47]; [done|]. split; [|congruence]. intros E.
  assert (0 ∈ s) as Hs by set_solver. destruct (elem_len_spec s Hs) as (len & _ & _ & _ & _ & _ & Hsp). rewrite Hsp in E. done.
Qed.

(** The string in a name of DIRSIZ bytes. *)
Definition name_of (s : list Z) : list Z := cut DIRSIZn s.

Lemma cut_prefix n s r : 0 ∉ s -> (length s <= n)%nat -> cut n (s ++ 0 :: r) = s.
Proof.
  revert s. induction n as [|n IH]; intros [|c s] H0 Hl; cbn in *; try done; [lia|]. apply not_elem_of_cons in H0 as [Hc H0].
  rewrite (proj2 (Z.eqb_neq c 0)) by congruence. f_equal. apply IH; [done|lia].
Qed.

Lemma cut_full n s : 0 ∉ s -> length s = n -> cut n s = s.
Proof.
  revert s. induction n as [|n IH]; intros [|c s] H0 Hl; cbn in *; try done. apply not_elem_of_cons in H0 as [Hc H0].
  rewrite (proj2 (Z.eqb_neq c 0)) by congruence. f_equal. apply IH; [done|lia].
Qed.

(** skipelem() splits the first element off, cut to DIRSIZ bytes. *)
Lemma skipelem_spec path name : 0 ∈ path -> length name = DIRSIZn ->
  (elements path = [] /\ skipelem path name = Some None) \/
  (exists e rest name', skipelem path name = Some (Some (rest, name')) /\ elements path = e :: elements rest /\
     name_of name' = take DIRSIZn e /\ length name' = DIRSIZn /\ 0 ∈ rest /\ head rest <> Some 47 /\ (length rest < length path)%nat).
Proof.
  intros H0 Hname. unfold skipelem. destruct (skip_slashes_spec path H0) as (s & -> & <- & Hh & Hs0 & Hsl). destruct s as [|c s]; [by apply elem_of_nil in Hs0|].
  destruct (Z.eqb_spec c 0) as [->|Hc]; [left; done|]. right. set (p := c :: s) in *.
  destruct (elem_len_spec p Hs0) as (len & -> & Hl & Hn0 & Hn47 & (c' & Hc' & Hcc) & Hsp).
  assert (0 < len)%nat as Hpos. { destruct len; [|lia]. cbn in Hc'. injection Hc' as ->. cbn in Hh. destruct Hcc as [-> | ->]; done. }
  assert (0 ∈ drop len p) as Hd0. { rewrite <- (take_drop len p), elem_of_app in Hs0. tauto. }
  destruct (skip_slashes_spec (drop len p) Hd0) as (rest & -> & Erest & Hhr & Hr0 & Hrl). rewrite length_drop in Hrl.
  assert (length (take len p) = len) as Htl by (rewrite length_take; lia).
  exists (take len p), rest. eexists. split; [reflexivity|]. split.
  { unfold elements at 1. rewrite (Hsp []), app_nil_l, <- Erest. destruct (take len p); [cbn in Htl; lia|done]. }
  assert ((len < DIRSIZn)%nat -> splice len [0] (splice 0 (slice 0 len p) name) = take len p ++ 0 :: drop (S len) name) as Hshort.
  { intros Hlt. assert (splice 0 (slice 0 len p) name = take len p ++ drop len name) as ->.
    { unfold splice, slice. rewrite drop_0. cbn. by rewrite Htl. }
    unfold splice. rewrite take_app_le, take_ge by lia. cbn. f_equal. f_equal. rewrite drop_app_ge by lia. rewrite Htl, drop_drop. f_equal. lia. }
  split; [|split; [|split; [done|split; [done|lia]]]].
  - unfold name_of. destruct (Nat.leb_spec DIRSIZn len) as [Hge|Hlt].
    + assert (splice 0 (slice 0 DIRSIZn p) name = take DIRSIZn (take len p)) as ->.
      { unfold splice, slice. rewrite drop_0, take_take, Nat.min_l by lia. cbn. rewrite drop_ge; [by rewrite app_nil_r|].
        rewrite length_take. fold p in Hl. lia. }
      apply cut_full; [|rewrite length_take; lia]. intros Hin. apply Hn0. rewrite <- (take_drop DIRSIZn (take len p)). apply elem_of_app. by left.
    + rewrite Hshort by done. rewrite cut_prefix; [|done|lia]. by rewrite (take_ge (take len p)) by lia.
  - destruct (Nat.leb_spec DIRSIZn len) as [Hge|Hlt].
    + rewrite length_splice; [done|]. rewrite length_slice by lia. lia.
    + rewrite Hshort by done. rewrite length_app. cbn. rewrite length_drop. lia.
Qed.

(** ** Counting over the inode table *)

Definition total (f : inode -> Z) (il : list inode) : Z := foldr (fun x a => f x + a) 0 il.

Lemma total_cons f x il : total f (x :: il) = f x + total f il.
Proof. done. Qed.

Lemma total_insert f il k x y : il !! k = Some x -> total f (<[k := y]> il) = total f il - f x + f y.
Proof.
  revert k. induction il as [|z il IH]; intros [|k] E; try done; cbn in E.
  - injection E as ->. change (<[0%nat := y]> (x :: il)) with (y :: il). rewrite !total_cons. lia.
  - change (<[S k := y]> (z :: il)) with (z :: <[k := y]> il). rewrite !total_cons, (IH k E). lia.
Qed.

Lemma total_nonneg f il : (forall x, 0 <= f x) -> 0 <= total f il.
Proof. intros Hf. induction il as [|z il IH]; [done|]. rewrite total_cons. specialize (Hf z). lia. Qed.

Lemma total_zero f il : (forall k x, il !! k = Some x -> f x = 0) -> total f il = 0.
Proof.
  induction il as [|z il IH]; intros Hz; [done|]. rewrite total_cons, (Hz 0%nat z eq_refl), IH; [done|]. intros k x Hk. by apply (Hz (S k)).
Qed.

(** Only entry [k] counts. *)
Lemma total_single f il k x : il !! k = Some x -> (forall j y, il !! j = Some y -> j <> k -> f y = 0) -> total f il = f x.
Proof.
  revert k. induction il as [|z il IH]; intros [|k] E Hz; try done; cbn in E; rewrite total_cons.
  - injection E as ->. rewrite (total_zero f il); [lia|]. intros j y Hj. by apply (Hz (S j)).
  - rewrite (Hz 0%nat z eq_refl) by lia. rewrite (IH k); [lia|done|]. intros j y Hj Hne. apply (Hz (S j)); [done|lia].
Qed.

Definition holds (n : Z) (x : inode) : Z := if (0 <? i_ref x) && (i_inum x =? n) then i_ref x else 0.
Definition free_slot (x : inode) : Z := if i_ref x =? 0 then 1 else 0.
(** The references to inode [n] in memory, and the unused entries of the table. *)
Definition refs (il : list inode) (n : Z) : Z := total (holds n) il.
Definition idle (il : list inode) : Z := total free_slot il.

Lemma refs_nonneg il n : 0 <= refs il n.
Proof. apply total_nonneg. intros x. unfold holds. destruct (Z.ltb_spec 0 (i_ref x)); cbn; [destruct (_ =? _); lia|lia]. Qed.

Section Path.
Context {St U : Type} `{BlockStore St} `{UserMem U}.
Context (u : U) (sb : superblock) (cwd : nat) (pid : Z).
Abbreviation fw := (fw u sb cwd pid).
Context (t : tstate).
Abbreviation v := (t_view t).
Hypothesis Hrd : reader t.
Hypothesis Hfs : fs_ok sb v.

(** Inode [n] on disk. *)
Definition disk_inode (n : Z) : dinode := get_dinode (dinode_off n) (default [] (v !! IBLOCK n sb)).

(** The table is a cache of the disk: every entry in use is of an inode, once; what is
    valid is what the disk has; and the lock of entry [L], if any, is the only one
    taken. *)
Record table_ok (L : option nat) (il : list inode) : Prop := {
  to_ref : forall k x, il !! k = Some x -> 0 <= i_ref x;
  to_id : forall k x, il !! k = Some x -> 0 < i_ref x -> i_dev x = ROOTDEV /\ 0 <= i_inum x < sb_ninodes sb;
  to_once : forall k j x y, il !! k = Some x -> il !! j = Some y -> 0 < i_ref x -> 0 < i_ref y -> i_inum x = i_inum y -> k = j;
  to_valid : forall k x, il !! k = Some x -> 0 < i_ref x -> i_valid x = true -> dinode_of x = disk_inode (i_inum x);
  to_lock : forall k x, il !! k = Some x -> if decide (L = Some k) then i_lock x = Sleeplock true pid else sl_locked (i_lock x) = false
}.

Lemma refs_entry L il k x : table_ok L il -> il !! k = Some x -> 0 < i_ref x -> refs il (i_inum x) = i_ref x.
Proof.
  intros Ht Hk Hr. unfold refs. rewrite (total_single (holds (i_inum x)) il k x Hk).
  - unfold holds. by rewrite (proj2 (Z.ltb_lt _ _)), Z.eqb_refl by lia.
  - intros j y Hj Hne. unfold holds. destruct (Z.ltb_spec 0 (i_ref y)); [|done]. destruct (Z.eqb_spec (i_inum y) (i_inum x)); [|done].
    destruct Hne. by eapply (to_once _ _ Ht).
Qed.

Lemma iget_scan_spec dev n il base empty :
  match iget_scan il dev n base empty with
  | inl k => exists j x, k = (base + j)%nat /\ il !! j = Some x /\ 0 < i_ref x /\ i_dev x = dev /\ i_inum x = n
  | inr o => (forall j x, il !! j = Some x -> 0 < i_ref x -> i_dev x = dev -> i_inum x <> n) /\
      match o with
      | None => empty = None /\ forall j x, il !! j = Some x -> i_ref x <> 0
      | Some k => empty = Some k \/ exists j x, k = (base + j)%nat /\ il !! j = Some x /\ i_ref x = 0
      end
  end.
Proof.
  revert base empty. induction il as [|z il IH]; intros base empty; cbn [iget_scan]; [split; [done|]; destruct empty; [by left|done]|].
  destruct ((i_ref z >? 0) && (i_dev z =? dev) && (i_inum z =? n)) eqn:E.
  { apply andb_true_iff in E as [[Hr%Z.gtb_lt Hd%Z.eqb_eq]%andb_true_iff Hn%Z.eqb_eq]. exists 0%nat, z. by rewrite Nat.add_0_r. }
  match goal with |- match iget_scan _ _ _ _ ?em with _ => _ end => specialize (IH (S base) em) end.
  destruct (iget_scan il dev n (S base) _) as [k|o]; [destruct IH as (j & x & -> & Hj & IH); exists (S j), x; split; [lia|done]|].
  destruct IH as [H1 H2]. split.
  - intros [|j] x Hj Hr Hd Hn; cbn in Hj; [|by apply (H1 j x)]. injection Hj as ->. rewrite Hd, Hn, !Z.eqb_refl, (proj2 (Z.gtb_lt _ _)) in E by lia. done.
  - destruct o as [k|].
    + destruct H2 as [H2|(j & x & -> & Hj & Hx)]; [|right; exists (S j), x; split; [lia|done]].
      destruct empty as [e|]; [by left|]. destruct (Z.eqb_spec (i_ref z) 0); [|done]. injection H2 as <-. right. exists 0%nat, z. by rewrite Nat.add_0_r.
    + destruct H2 as [He H2]. destruct empty as [e|]; [done|]. split; [done|]. destruct (Z.eqb_spec (i_ref z) 0) as [|Hz]; [done|].
      intros [|j] x Hj; cbn in Hj; [congruence|by apply (H2 j)].
Qed.

(** A world with locks held. *)
Definition fwh (h : list lock) (tr : list event) (st : St) (il : list inode) : world (fstate St U) := World h tr (Fstate st u sb il cwd pid).

Lemma seti_h h tr st il k x f (Q : unit -> world (fstate St U) -> Prop) : il !! k = Some x -> Q tt (fwh h tr st (<[k := f x]> il)) -> wp (seti k f) Q (fwh h tr st il).
Proof. intros Hk HQ. unfold seti. wp_step. unfold upd_inode, set_inodes, fwh. cbn. by rewrite (list_alter_insert f _ _ x). Qed.
Lemma geti_h h tr st il k x (Q : inode -> world (fstate St U) -> Prop) : il !! k = Some x -> Q x (fwh h tr st il) -> wp (geti k) Q (fwh h tr st il).
Proof. intros Hk HQ. unfold geti. do 2 wp_step. by eapply wp_the. Qed.

(** Changing one entry. *)
Lemma table_set L L' il k x y : table_ok L il -> il !! k = Some x -> 0 <= i_ref y ->
  (0 < i_ref y -> i_dev y = ROOTDEV /\ 0 <= i_inum y < sb_ninodes sb /\ (i_valid y = true -> dinode_of y = disk_inode (i_inum y)) /\
     forall j z, il !! j = Some z -> j <> k -> 0 < i_ref z -> i_inum z <> i_inum y) ->
  (if decide (L' = Some k) then i_lock y = Sleeplock true pid else sl_locked (i_lock y) = false) ->
  (forall j, j <> k -> L = Some j <-> L' = Some j) -> table_ok L' (<[k := y]> il).
Proof.
  intros Ht Hk Hr Hy Hl HL. pose proof (lookup_lt_Some _ _ _ Hk) as Hlt.
  assert (forall j z, <[k := y]> il !! j = Some z -> j = k /\ z = y \/ j <> k /\ il !! j = Some z) as Hcase.
  { intros j z Hj. destruct (decide (j = k)) as [->|Hne]; [rewrite list_lookup_insert_eq in Hj by done; left; by simplify_eq|].
    rewrite list_lookup_insert_ne in Hj by done. by right. }
  split.
  - intros j z Hj. destruct (Hcase _ _ Hj) as [[-> ->]|[_ Hj']]; [done|by eapply (to_ref _ _ Ht)].
  - intros j z Hj Hz. destruct (Hcase _ _ Hj) as [[-> ->]|[_ Hj']]; [by destruct (Hy Hz) as (? & ? & _)|by eapply (to_id _ _ Ht)].
  - intros j1 j2 z1 z2 H1 H2 Hz1 Hz2 E. destruct (Hcase _ _ H1) as [[-> ->]|[N1 H1']], (Hcase _ _ H2) as [[-> ->]|[N2 H2']]; [done| | |].
    + destruct (Hy Hz1) as (_ & _ & _ & Hu). by destruct (Hu j2 z2 H2' N2 Hz2).
    + destruct (Hy Hz2) as (_ & _ & _ & Hu). by destruct (Hu j1 z1 H1' N1 Hz1).
    + by eapply (to_once _ _ Ht).
  - intros j z Hj Hz Hv. destruct (Hcase _ _ Hj) as [[-> ->]|[_ Hj']]; [by destruct (Hy Hz) as (_ & _ & Hd & _); apply Hd|by eapply (to_valid _ _ Ht)].
  - intros j z Hj. destruct (Hcase _ _ Hj) as [[-> ->]|[Nj Hj']]; [done|]. pose proof (to_lock _ _ Ht j z Hj') as Hz.
    destruct (decide (L = Some j)) as [E|E], (decide (L' = Some j)) as [E'|E']; try done; apply (HL j Nj) in E || apply (HL j Nj) in E'; done.
Qed.

(** The entries of the other inodes. *)
Lemma others L il k x j z : table_ok L il -> il !! k = Some x -> 0 < i_ref x -> il !! j = Some z -> j <> k -> 0 < i_ref z -> i_inum z <> i_inum x.
Proof. intros Ht Hk Hr Hj Hne Hz E. apply Hne. by eapply (to_once _ _ Ht). Qed.

Lemma free_pos il : 0 < idle il -> exists k x, il !! k = Some x /\ i_ref x = 0.
Proof.
  unfold idle. induction il as [|z il IH]; [done|]. rewrite total_cons. unfold free_slot at 1. destruct (Z.eqb_spec (i_ref z) 0) as [E|E].
  - intros _. by exists 0%nat, z.
  - intros Hp. destruct IH as (k & x & Hk & Hx); [lia|]. by exists (S k), x.
Qed.

Definition one (n m : Z) : Z := if n =? m then 1 else 0.

(** One more reference, through entry [k], to inode [n]. *)
Definition got (L : option nat) (il : list inode) (n : Z) (k : nat) (il' : list inode) : Prop :=
  table_ok L il' /\ (exists y, il' !! k = Some y /\ i_inum y = n /\ 0 < i_ref y) /\ (forall m, refs il' m = refs il m + one n m) /\
  idle il' = idle il - one (refs il n) 0 /\ forall j z, il !! j = Some z -> 0 < i_ref z -> exists r, 0 < r /\ il' !! j = Some (i_set_ref r z).

(** Another reference to an entry in use. *)
Lemma ref_up L il k x : table_ok L il -> il !! k = Some x -> 0 < i_ref x -> got L il (i_inum x) k (<[k := i_set_ref (i_ref x + 1) x]> il).
Proof.
  intros Ht Hk Hr. pose proof (lookup_lt_Some _ _ _ Hk) as Hlt. pose proof (refs_entry L il k x Ht Hk Hr) as Hrefs.
  split; [|split; [|split; [|split]]].
  - apply (table_set L L il k x); [done|done|cbn; lia| |exact (to_lock _ _ Ht k x Hk)|done]. cbn. intros _. destruct (to_id _ _ Ht k x Hk Hr).
    split; [done|]. split; [done|]. split; [exact (to_valid _ _ Ht k x Hk Hr)|]. intros i z Hi Hne Hz. exact (others L il k x i z Ht Hk Hr Hi Hne Hz).
  - eexists. rewrite list_lookup_insert_eq by done. split; [done|]. cbn. split; [done|lia].
  - intros m. unfold refs. rewrite (total_insert _ _ _ _ _ Hk). unfold holds, one. cbn. rewrite !(proj2 (Z.ltb_lt _ _)) by lia. cbn. destruct (_ =? _); lia.
  - unfold idle. rewrite (total_insert _ _ _ _ _ Hk). unfold free_slot, one. cbn. rewrite Hrefs, !(proj2 (Z.eqb_neq _ _)) by lia. lia.
  - intros i z Hi Hz. destruct (decide (i = k)) as [->|Hne].
    + exists (i_ref x + 1). rewrite list_lookup_insert_eq by done. simplify_eq. split; [lia|done].
    + exists (i_ref z). rewrite list_lookup_insert_ne by done. split; [done|]. rewrite Hi. by destruct z.
Qed.

(** A first reference, in an unused entry. *)
Lemma ref_new L il k x n : table_ok L il -> il !! k = Some x -> i_ref x = 0 -> 0 <= n < sb_ninodes sb ->
  (forall j z, il !! j = Some z -> 0 < i_ref z -> i_inum z <> n) ->
  got L il n k (<[k := i_set_valid false (i_set_ref 1 (i_set_id ROOTDEV n x))]> il).
Proof.
  intros Ht Hk Hx Hn Hno. pose proof (lookup_lt_Some _ _ _ Hk) as Hlt. assert (refs il n = 0) as Hrefs.
  { unfold refs. apply total_zero. intros i z Hi. unfold holds. destruct (Z.ltb_spec 0 (i_ref z)); [|done]. cbn.
    destruct (Z.eqb_spec (i_inum z) n); [|done]. by destruct (Hno i z Hi). }
  split; [|split; [|split; [|split]]].
  - apply (table_set L L il k x); [done|done|cbn; lia| |exact (to_lock _ _ Ht k x Hk)|done]. cbn. intros _. split; [done|]. split; [done|]. split; [done|].
    intros i z Hi _ Hz. by apply (Hno i z).
  - eexists. rewrite list_lookup_insert_eq by done. split; [done|]. cbn. split; [done|lia].
  - intros m. unfold refs. rewrite (total_insert _ _ _ _ _ Hk). unfold holds, one. cbn. rewrite Hx. cbn. destruct (_ =? _); lia.
  - unfold idle. rewrite (total_insert _ _ _ _ _ Hk). unfold free_slot, one. cbn. rewrite Hx, Hrefs. cbn. lia.
  - intros i z Hi Hz. exists (i_ref z). rewrite list_lookup_insert_ne by (intros ->; simplify_eq; lia). split; [done|]. rewrite Hi. by destruct z.
Qed.

Lemma iget_wp L il st tr n (Q : nat -> world (fstate St U) -> Prop) : table_ok L il -> 0 <= n < sb_ninodes sb -> 0 < idle il ->
  (forall k il', got L il n k il' -> Q k (fw tr st il')) -> wp (iget ROOTDEV n) Q (fw tr st il).
Proof.
  intros Ht Hn Hidle HQ. unfold iget. wp_step. apply wp_acquire; [apply not_elem_of_nil|]. do 2 wp_step. cbn [FsAlloc.fw user fs_inodes].
  pose proof (iget_scan_spec ROOTDEV n il 0 None) as Hscan. destruct (iget_scan il ROOTDEV n 0 None) as [k|[k|]].
  - destruct Hscan as (j & x & -> & Hj & Hr & Hd & <-). cbn [Nat.add]. wp_step.
    eapply (seti_h [LItable]); [exact Hj|]. wp_step. eapply wp_release; [done|]. wp_step. by apply HQ, ref_up.
  - destruct Hscan as [Hno [?|(j & x & -> & Hj & Hx)]]; [done|]. cbn [Nat.add]. pose proof (lookup_lt_Some _ _ _ Hj) as Hlt.
    wp_step. eapply (seti_h [LItable]); [exact Hj|]. wp_step. eapply seti_h; [by apply list_lookup_insert_eq|]. wp_step.
    eapply seti_h; [apply list_lookup_insert_eq; by rewrite length_insert|]. rewrite !list_insert_insert_eq. wp_step. eapply wp_release; [done|]. wp_step.
    apply HQ, ref_new; try done. intros i z Hi Hz. apply (Hno i z Hi Hz). exact (proj1 (to_id _ _ Ht i z Hi Hz)).
  - destruct Hscan as [_ [_ Hfull]]. destruct (free_pos il Hidle) as (k & x & Hk & Hx). by destruct (Hfull k x Hk).
Qed.

Lemma idup_wp L il k x st tr (Q : nat -> world (fstate St U) -> Prop) : table_ok L il -> il !! k = Some x -> 0 < i_ref x ->
  (forall il', got L il (i_inum x) k il' -> Q k (fw tr st il')) -> wp (idup k) Q (fw tr st il).
Proof.
  intros Ht Hk Hr HQ. unfold idup. wp_step. apply wp_acquire; [apply not_elem_of_nil|]. wp_step. eapply (seti_h [LItable]); [exact Hk|].
  wp_step. eapply wp_release; [done|]. wp_step. by apply HQ, ref_up.
Qed.

(** *** Locking *)

Lemma count_same (f : inode -> Z) il k x y : il !! k = Some x -> f y = f x -> total f (<[k := y]> il) = total f il.
Proof. intros Hk E. rewrite (total_insert _ _ _ _ _ Hk). lia. Qed.

Lemma holds_same n x y : i_ref y = i_ref x -> i_inum y = i_inum x -> holds n y = holds n x.
Proof. unfold holds. by intros -> ->. Qed.
Lemma free_slot_same x y : i_ref y = i_ref x -> free_slot y = free_slot x.
Proof. unfold free_slot. by intros ->. Qed.

(** Entry [y] is entry [x] with its contents read in and its lock taken. *)
Record locked_as (x y : inode) : Prop := {
  la_ref : i_ref y = i_ref x;
  la_inum : i_inum y = i_inum x;
  la_dev : i_dev y = ROOTDEV;
  la_valid : i_valid y = true;
  la_disk : dinode_of y = disk_inode (i_inum x);
  la_lock : i_lock y = Sleeplock true pid
}.

Lemma locked_table il k x y : table_ok None il -> il !! k = Some x -> 0 < i_ref x -> locked_as x y -> table_ok (Some k) (<[k := y]> il).
Proof.
  intros Ht Hk Hr [E1 E2 E3 E4 E5 E6]. destruct (to_id _ _ Ht k x Hk Hr) as [_ Hid]. apply (table_set None (Some k) il k x); [done|done|lia| | |].
  - intros _. rewrite E2. split; [done|]. split; [done|]. split; [done|]. intros j z Hj Hne Hz. exact (others None il k x j z Ht Hk Hr Hj Hne Hz).
  - by rewrite decide_True.
  - intros j Hne. split; [done|congruence].
Qed.

Lemma ilock_wp il k x st tr (Q : unit -> world (fstate St U) -> Prop) : bs_rep st t -> table_ok None il -> il !! k = Some x -> 0 < i_ref x ->
  d_type (disk_inode (i_inum x)) <> 0 ->
  (forall st' tr' y, bs_rep st' t -> locked_as x y -> table_ok (Some k) (<[k := y]> il) -> Q tt (fw tr' st' (<[k := y]> il))) ->
  wp (ilock (Some k)) Q (fw tr st il).
Proof.
  intros Hrep Ht Hk Hr Hty HQ. pose proof (lookup_lt_Some _ _ _ Hk) as Hlt. destruct (to_id _ _ Ht k x Hk Hr) as [Hdev Hid].
  unfold ilock. wp_step. eapply geti_wp; [exact Hk|]. rewrite (proj2 (Z.ltb_ge _ _)) by lia. do 2 wp_step.
  pose proof (to_lock _ _ Ht k x Hk) as Hlk. rewrite decide_False in Hlk by done. wp_step. destruct (i_lock x) as [lb lp] eqn:El. cbn in Hlk. subst lb.
  eapply acquiresleep_wp; [apply not_elem_of_nil|cbn; rewrite Hk; cbn; by rewrite El|]. cbn -[alter]. unfold upd_inode, set_inodes. cbn -[alter].
  rewrite (list_alter_insert _ _ _ x) by done. set (x1 := i_set_lock (Sleeplock true pid) x). wp_step.
  eapply (geti_wp _ _ _ _ st (<[k := x1]> il) tr k x1); [by apply list_lookup_insert_eq|].
  assert (i_valid x1 = i_valid x) as Ev by done. rewrite Ev. destruct (i_valid x) eqn:Hv.
  - wp_step. assert (locked_as x x1) as Hla by (split; try done; exact (to_valid _ _ Ht k x Hk Hr Hv)). apply (HQ st tr x1); [done|done|by eapply locked_table].
  - do 2 wp_step. cbn [FsAlloc.fw user fs_sb]. change (i_dev x1) with (i_dev x). rewrite Hdev. wp_step. destruct (fk_inodes _ _ Hfs _ Hid) as ([d Hd] & _).
    eapply (f_bread_wp u sb cwd pid st (<[k := x1]> il) tr); [exact Hrep|apply reader_open; [done|by eexists]|]. intros b st1 tr1 R1.
    wp_step. eapply f_data_wp; [exact R1|apply t_opened_eq|exact Hd|]. wp_step. eapply seti_wp; [by apply list_lookup_insert_eq|]. rewrite list_insert_insert_eq.
    wp_step. eapply f_brelse_wp; [exact R1|apply t_opened_eq|apply none_dirty, Hrd|]. intros st2 tr2 R2.
    rewrite t_close_open in R2 by (rewrite (proj1 Hrd); apply lookup_empty). wp_step. eapply seti_wp; [by apply list_lookup_insert_eq|].
    rewrite list_insert_insert_eq. set (y := i_set_valid true _). wp_step. eapply geti_wp; [by apply list_lookup_insert_eq|].
    assert (locked_as x y) as Hla.
    { split; try done. unfold disk_inode. rewrite Hd. cbn. by destruct (get_dinode _ d). }
    assert (i_type y = d_type (disk_inode (i_inum x))) as -> by (rewrite <- (la_disk _ _ Hla); done).
    rewrite (proj2 (Z.eqb_neq _ _)) by done. wp_step. apply HQ; [done|done|by eapply locked_table].
Qed.

Lemma iunlock_wp il k y st tr (Q : unit -> world (fstate St U) -> Prop) : table_ok (Some k) il -> il !! k = Some y -> 0 < i_ref y ->
  (forall tr', table_ok None (<[k := i_set_lock unlocked y]> il) -> Q tt (fw tr' st (<[k := i_set_lock unlocked y]> il))) ->
  wp (iunlock (Some k)) Q (fw tr st il).
Proof.
  intros Ht Hk Hr HQ. pose proof (to_lock _ _ Ht k y Hk) as Hlk. rewrite decide_True in Hlk by done. unfold iunlock. do 2 wp_step.
  wp_step. eapply holdingsleep_wp; [apply not_elem_of_nil|cbn; rewrite Hk; cbn; by rewrite Hlk|]. wp_step. eapply geti_wp; [exact Hk|].
  rewrite (proj2 (Z.ltb_ge _ _)) by lia. cbn [negb orb]. eapply releasesleep_wp; [apply not_elem_of_nil|]. cbn -[alter]. unfold upd_inode, set_inodes. cbn -[alter].
  rewrite (list_alter_insert _ _ _ y) by done. apply HQ. destruct (to_id _ _ Ht k y Hk Hr) as [Hd Hn].
  apply (table_set (Some k) None il k y); [done|done|cbn; lia| |done|intros j Hne; split; [congruence|done]]. cbn. intros _. split; [done|]. split; [done|].
  split; [exact (to_valid _ _ Ht k y Hk Hr)|]. intros j z Hj Hne Hz. exact (others (Some k) il k y j z Ht Hk Hr Hj Hne Hz).
Qed.

(** iput() of an inode with links only counts down. *)
Lemma iput_wp L il k y st tr (Q : unit -> world (fstate St U) -> Prop) : table_ok L il -> il !! k = Some y -> 0 < i_ref y ->
  d_nlink (disk_inode (i_inum y)) <> 0 ->
  (forall il', table_ok L il' -> (forall m, refs il' m = refs il m - one (i_inum y) m) -> idle il' = idle il + one (refs il (i_inum y)) 1 ->
     (forall j z, il !! j = Some z -> j <> k -> il' !! j = Some z) -> il' !! k = Some (i_set_ref (i_ref y - 1) y) -> Q tt (fw tr st il')) ->
  wp (iput k) Q (fw tr st il).
Proof.
  intros Ht Hk Hr Hnl HQ. pose proof (refs_entry L il k y Ht Hk Hr) as Hrefs. unfold iput. wp_step. apply wp_acquire; [apply not_elem_of_nil|].
  wp_step. eapply (geti_h [LItable]); [exact Hk|].
  replace ((i_ref y =? 1) && i_valid y && (i_nlink y =? 0)) with false.
  2:{ destruct (i_valid y) eqn:Hv; [|by rewrite andb_false_r]. pose proof (to_valid _ _ Ht k y Hk Hr Hv) as Hd.
      rewrite <- Hd in Hnl. cbn in Hnl. by rewrite (proj2 (Z.eqb_neq _ _) Hnl), andb_false_r. }
  do 2 wp_step. wp_step. eapply seti_h; [exact Hk|]. eapply wp_release; [done|]. apply HQ.
  - destruct (to_id _ _ Ht k y Hk Hr) as [Hd Hn]. apply (table_set L L il k y); [done|done|cbn; lia| |exact (to_lock _ _ Ht k y Hk)|done].
    cbn. intros _. split; [done|]. split; [done|]. split; [exact (to_valid _ _ Ht k y Hk Hr)|].
    intros j z Hj Hne Hz. exact (others L il k y j z Ht Hk Hr Hj Hne Hz).
  - intros m. unfold refs. rewrite (total_insert _ _ _ _ _ Hk). unfold holds, one. cbn.
    rewrite (proj2 (Z.ltb_lt 0 (i_ref y))) by lia. destruct (Z.ltb_spec 0 (i_ref y - 1)), (Z.eqb_spec (i_inum y) m); cbn; lia.
  - unfold idle. rewrite (total_insert _ _ _ _ _ Hk). unfold free_slot, one. cbn. rewrite Hrefs, (proj2 (Z.eqb_neq (i_ref y) 0)) by lia.
    destruct (Z.eqb_spec (i_ref y - 1) 0), (Z.eqb_spec (i_ref y) 1); lia.
  - intros j z Hj Hne. by rewrite list_lookup_insert_ne.
  - by rewrite list_lookup_insert_eq by (by eapply lookup_lt_Some).
Qed.

(** ** Directories *)

(** Inode [n] as read from disk. *)
Definition as_inode (n : Z) : inode := i_load (disk_inode n) (Inode ROOTDEV n 0 unlocked true 0 0 0 0 0 []).

Definition entry_at (n j : Z) : dirent := dirent_decode (file_bytes v (as_inode n) (j * DIRENT_SIZE) DIRENT_SIZE).
Definition dir_len (n : Z) : nat := Z.to_nat (d_size (disk_inode n) / DIRENT_SIZE).
Definition entries (n : Z) : list dirent := entry_at n <$> seqZ 0 (d_size (disk_inode n) / DIRENT_SIZE).

(** The inode that directory [n] has under [name]. *)
Fixpoint find_entry (name : list Z) (l : list dirent) : option Z :=
  match l with
  | [] => None
  | e :: l' => if negb (de_inum e =? 0) && bool_decide (name_of (de_name e) = name) then Some (de_inum e) else find_entry name l'
  end.
Definition dir_find (n : Z) (name : list Z) : option Z := find_entry name (entries n).

Lemma file_ok_as x : i_dev x = ROOTDEV -> dinode_of x = disk_inode (i_inum x) -> file_ok sb v (as_inode (i_inum x)) ->
  file_ok sb v x /\ (forall o k, file_bytes v x o k = file_bytes v (as_inode (i_inum x)) o k) /\ i_size x = d_size (disk_inode (i_inum x)).
Proof.
  unfold as_inode. intros Hd <-. destruct x. cbn in Hd. subst i_dev. cbn. intros Hf. split; [by destruct Hf; split|]. split; [done|done].
Qed.

(** An inode in use that the tree refers to. *)
Definition alive (n : Z) : Prop := 0 <= n < sb_ninodes sb /\ d_type (disk_inode n) <> 0 /\ d_nlink (disk_inode n) <> 0.
(** The directories of the disk are files of whole entries that refer to inodes in use. *)
Definition dirs_ok : Prop := forall n, 0 <= n < sb_ninodes sb -> d_type (disk_inode n) = T_DIR ->
  file_ok sb v (as_inode n) /\ d_size (disk_inode n) mod DIRENT_SIZE = 0 /\ forall e, e ∈ entries n -> de_inum e <> 0 -> alive (de_inum e).
Hypothesis Hdirs : dirs_ok.

Lemma read_dirent_wp il k x j msg st tr (Q : dirent -> world (fstate St U) -> Prop) : bs_rep st t -> il !! k = Some x ->
  i_dev x = ROOTDEV -> dinode_of x = disk_inode (i_inum x) -> file_ok sb v (as_inode (i_inum x)) ->
  0 <= j -> (j + 1) * DIRENT_SIZE <= i_size x ->
  (forall st' tr', bs_rep st' t -> Q (entry_at (i_inum x) j) (fw tr' st' il)) -> wp (read_dirent k (j * DIRENT_SIZE) msg) Q (fw tr st il).
Proof.
  intros Hrep Hk Hdev Hd Hf Hj Hsz HQ. destruct (file_ok_as x Hdev Hd Hf) as (Hfx & Hbytes & _). pose proof (fo_size _ _ _ Hfx) as Hmax.
  change (MAXFILE * BSIZE) with 274432 in Hmax. unfold DIRENT_SIZE, DIRSIZ in *. unfold read_dirent. wp_step.
  apply (readi_wp u sb cwd pid il k t x Hrd (ao_len _ _ (fk_alloc _ _ Hfs)) Hfx Hk); [unfold DIRENT_SIZE, DIRSIZ; lia|done|unfold DIRENT_SIZE, DIRSIZ; lia|done|].
  intros st' tr' R'. cbv zeta. unfold DIRENT_SIZE, DIRSIZ. rewrite (proj2 (Z.leb_le _ _)), Z.min_l by lia. cbv beta iota. rewrite Z.eqb_refl. cbn [negb]. wp_step.
  rewrite Hbytes. by apply HQ.
Qed.

Lemma entries_from n j : 0 <= j < d_size (disk_inode n) / DIRENT_SIZE ->
  entry_at n <$> seqZ j (d_size (disk_inode n) / DIRENT_SIZE - j) = entry_at n j :: (entry_at n <$> seqZ (j + 1) (d_size (disk_inode n) / DIRENT_SIZE - (j + 1))).
Proof.
  intros Hj. rewrite seqZ_cons by lia. cbn. f_equal. replace (Z.succ j) with (j + 1) by lia. f_equal. f_equal. lia.
Qed.

Lemma dirlookup_wp il k x name st tr (Q : option (nat * Z) -> world (fstate St U) -> Prop) : bs_rep st t -> table_ok (Some k) il -> il !! k = Some x ->
  0 < i_ref x -> i_valid x = true -> d_type (disk_inode (i_inum x)) = T_DIR -> length name = DIRSIZn -> 0 < idle il ->
  (dir_find (i_inum x) (name_of name) = None -> forall st' tr', bs_rep st' t -> Q None (fw tr' st' il)) ->
  (forall n k' off st' tr' il', dir_find (i_inum x) (name_of name) = Some n -> alive n -> bs_rep st' t -> got (Some k) il n k' il' ->
     Q (Some (k', off)) (fw tr' st' il')) -> wp (dirlookup k name) Q (fw tr st il).
Proof.
  intros Hrep Ht Hk Hr Hv Hty Hname Hidle HN HS. destruct (to_id _ _ Ht k x Hk Hr) as [Hdev Hid]. pose proof (to_valid _ _ Ht k x Hk Hr Hv) as Hd.
  destruct (Hdirs (i_inum x) Hid Hty) as (Hf & Hmod & Hent). destruct (file_ok_as x Hdev Hd Hf) as (_ & _ & Esz).
  unfold dirlookup. wp_step. eapply geti_wp; [exact Hk|]. replace (i_type x) with T_DIR by (rewrite <- Hty, <- Hd; done). rewrite Z.eqb_refl. cbn [negb].
  rewrite Hdev, Esz. set (n := i_inum x) in *. set (sz := d_size (disk_inode n)) in *. assert (0 <= sz) as Hsz by (rewrite <- Esz; apply (file_ok_as x Hdev Hd Hf)).
  assert (forall r j fuel st tr, r = Z.to_nat (sz / DIRENT_SIZE - j) -> 0 <= j <= sz / DIRENT_SIZE -> (r < fuel)%nat -> bs_rep st t ->
    dir_find n (name_of name) = find_entry (name_of name) (entry_at n <$> seqZ j (sz / DIRENT_SIZE - j)) ->
    wp (iter fuel (dirlookup_step k ROOTDEV sz name) (j * DIRENT_SIZE)) Q (fw tr st il)) as Hloop.
  2:{ change 0 with (0 * DIRENT_SIZE) at 1. apply (Hloop (Z.to_nat (sz / DIRENT_SIZE - 0)) 0); [done|split; [lia|by apply Z.div_pos]|unfold dir_fuel; lia|done|].
      unfold dir_find, entries. by rewrite Z.sub_0_r. }
  clear st tr Hrep. induction r as [|r IH]; intros j fuel st tr Er Hj Hfuel Hrep Hfind; (destruct fuel as [|fuel]; [lia|]); cbn [iter]; wp_step;
    unfold dirlookup_step at 1; pose proof (Z.div_mod sz DIRENT_SIZE ltac:(done)) as Hdm; rewrite Hmod in Hdm.
  - assert (j = sz / DIRENT_SIZE) as -> by lia. rewrite (proj2 (Z.ltb_ge _ _)) by lia. cbn [negb]. do 2 wp_step. apply HN; [|done].
    rewrite Hfind. by rewrite Z.sub_diag.
  - rewrite entries_from in Hfind by (fold sz; lia). assert (entry_at n j ∈ entries n) as Hin.
    { unfold entries. apply list_elem_of_fmap. exists j. split; [done|]. apply elem_of_seqZ. fold sz. lia. }
    rewrite (proj2 (Z.ltb_lt _ _)) by (unfold DIRENT_SIZE, DIRSIZ in *; lia). cbn [negb]. wp_step.
    apply (read_dirent_wp il k x j); [done|done|done|done|done|lia|rewrite Esz; unfold DIRENT_SIZE, DIRSIZ in *; lia|]. intros st1 tr1 R1. fold n.
    assert (j * DIRENT_SIZE + DIRENT_SIZE = (j + 1) * DIRENT_SIZE) as Enext by lia. cbn [find_entry] in Hfind.
    destruct (Z.eqb_spec (de_inum (entry_at n j)) 0) as [E0|E0]; cbn [negb andb] in Hfind.
    { wp_step. rewrite Enext. apply IH; [fold sz; lia|lia|lia|done|done]. }
    assert (length (de_name (entry_at n j)) = DIRSIZn) as Hl.
    { unfold entry_at, dirent_decode. cbn. apply length_slice. rewrite length_file_bytes. done. }
    destruct (strncmp_spec DIRSIZn name (de_name (entry_at n j))) as (c & Ec & Hc); [by apply readable_length; lia|by apply readable_length; lia|].
    wp_step. eapply wp_the; [exact Ec|]. fold (name_of name) in Hc. fold (name_of (de_name (entry_at n j))) in Hc.
    destruct (Z.eqb_spec c 0) as [->|Hne].
    + rewrite bool_decide_eq_true_2 in Hfind by (symmetry; by apply Hc). wp_step. pose proof (Hent _ Hin E0) as Hal.
      apply (iget_wp (Some k) il); [done|apply Hal|done|]. intros k' il' Hgot. do 2 wp_step.
      by apply (HS (de_inum (entry_at n j))).
    + rewrite bool_decide_eq_false_2 in Hfind by (intros E; apply Hne, Hc; done). wp_step. rewrite Enext. apply IH; [fold sz; lia|lia|lia|done|done].
Qed.

(** ** Paths *)

(** The inode a path leads to from directory [n]. *)
Fixpoint follow (n : Z) (es : list (list Z)) : option Z :=
  match es with
  | [] => Some n
  | e :: es' => if d_type (disk_inode n) =? T_DIR then m ← dir_find n (take DIRSIZn e); follow m es' else None
  end.
(** The directory of the last element, and that element. *)
Fixpoint follow_parent (n : Z) (es : list (list Z)) : option (Z * list Z) :=
  match es with
  | [] => None
  | e :: es' =>
      if d_type (disk_inode n) =? T_DIR then
        match es' with
        | [] => Some (n, take DIRSIZn e)
        | _ => m ← dir_find n (take DIRSIZn e); follow_parent m es'
        end
      else None
  end.

(** The outcome of a walk: one reference more, to the inode found, or none. *)
Definition settled (il0 : list inode) (o : option Z) (r : option nat) (w : world (fstate St U)) : Prop :=
  exists st tr il, w = fw tr st il /\ bs_rep st t /\ table_ok None il /\
  match o with
  | Some n => exists k x, r = Some k /\ il !! k = Some x /\ i_inum x = n /\ 0 < i_ref x /\ forall m, refs il m = refs il0 m + one n m
  | None => r = None /\ forall m, refs il m = refs il0 m
  end.

Lemma settled_none il0 st tr il : bs_rep st t -> table_ok None il -> (forall m, refs il m = refs il0 m) -> settled il0 None None (fw tr st il).
Proof. intros Hrep Ht Hr. exists st, tr, il. done. Qed.
Lemma settled_some il0 st tr il n k x : bs_rep st t -> table_ok None il -> il !! k = Some x -> i_inum x = n -> 0 < i_ref x ->
  (forall m, refs il m = refs il0 m + one n m) -> settled il0 (Some n) (Some k) (fw tr st il).
Proof. intros Hrep Ht Hk Hn Hx Hr. exists st, tr, il. split; [done|]. split; [done|]. split; [done|]. by exists k, x. Qed.

(** iunlockput() of the inode whose entry is locked. *)
Lemma unlockput_wp il k y st tr (Q : unit -> world (fstate St U) -> Prop) : table_ok (Some k) il -> il !! k = Some y -> 0 < i_ref y -> alive (i_inum y) ->
  (forall tr' il', table_ok None il' -> (forall m, refs il' m = refs il m - one (i_inum y) m) -> idle il' = idle il + one (refs il (i_inum y)) 1 ->
     (forall j z, il !! j = Some z -> j <> k -> il' !! j = Some z) ->
     (exists z, il' !! k = Some z /\ i_inum z = i_inum y /\ i_ref z = i_ref y - 1) -> Q tt (fw tr' st il')) ->
  wp (iunlockput k) Q (fw tr st il).
Proof.
  intros Ht Hk Hr (_ & _ & Hnl) HQ. pose proof (lookup_lt_Some _ _ _ Hk) as Hlt. unfold iunlockput. wp_step. apply (iunlock_wp il k y); [done|done|done|].
  intros tr' Ht'. set (y' := i_set_lock unlocked y). apply (iput_wp None _ k y'); [done|by apply list_lookup_insert_eq|done|done|].
  assert (forall m, refs (<[k := y']> il) m = refs il m) as Er by (intros m; apply (count_same _ _ _ y); [done|by apply holds_same]).
  assert (idle (<[k := y']> il) = idle il) as Ei by (apply (count_same _ _ _ y); [done|by apply free_slot_same]).
  intros il' Ht2 Hrefs Hidle Hkeep Hself. apply HQ; [done| | | |by eexists].
  - intros m. rewrite Hrefs, Er. done.
  - rewrite Hidle, Ei, Er. done.
  - intros j z Hj Hne. apply Hkeep; [|done]. by rewrite list_lookup_insert_ne.
Qed.

Lemma one_eq n : one n n = 1.
Proof. unfold one. by rewrite Z.eqb_refl. Qed.
Lemma one_ne n m : n <> m -> one n m = 0.
Proof. intros. unfold one. by rewrite (proj2 (Z.eqb_neq _ _)). Qed.
Lemma one_range n m : 0 <= one n m <= 1.
Proof. unfold one. destruct (_ =? _); lia. Qed.

(** While the walk is at inode [n], through entry [k]. *)
Definition walking (il0 : list inode) (n : Z) (k : nat) (il : list inode) : Prop :=
  table_ok None il /\ (exists x, il !! k = Some x /\ i_inum x = n /\ 0 < i_ref x) /\
  (forall m, refs il m = refs il0 m + one n m) /\ idle il = idle il0 - one (refs il0 n) 0.

(** From directory [n], whose entry is locked, with entry [k'] for [m] found in it, to [m]. *)
Lemma step_walk il0 n k m k' il il1 il2 y : (forall i, refs il i = refs il0 i + one n i) -> idle il = idle il0 - one (refs il0 n) 0 ->
  got (Some k) il m k' il1 -> il1 !! k = Some y -> i_inum y = n ->
  table_ok None il2 -> (forall i, refs il2 i = refs il1 i - one n i) -> idle il2 = idle il1 + one (refs il1 n) 1 ->
  (forall j z, il1 !! j = Some z -> j <> k -> il2 !! j = Some z) -> (exists z, il2 !! k = Some z /\ i_inum z = i_inum y /\ i_ref z = i_ref y - 1) ->
  walking il0 m k' il2.
Proof.
  intros Hr Hi (Ht1 & (x & Hx & Hxm & Hxr) & Hr1 & Hi1 & _) Hy Hyn Ht2 Hr2 Hi2 Hkeep (z & Hz & Hzn & Hzr).
  pose proof (refs_nonneg il0 n) as Hnn. pose proof (refs_nonneg il0 m) as Hmm. split; [done|]. split; [|split].
  - destruct (decide (k' = k)) as [->|Hne]; [|exists x; split; [by apply Hkeep|done]].
    assert (y = x) as -> by congruence. exists z. split; [done|]. split; [congruence|]. rewrite Hzr.
    pose proof (refs_entry _ _ _ _ Ht1 Hx Hxr) as E. rewrite Hxm in E. assert (m = n) as -> by congruence. rewrite Hr1, Hr, one_eq in E. lia.
  - intros i. rewrite Hr2, Hr1, Hr. lia.
  - rewrite Hi2, Hi1, Hi, Hr1, Hr, Hr, one_eq. destruct (decide (m = n)) as [->|Hne].
    + rewrite one_eq. unfold one. destruct (Z.eqb_spec (refs il0 n + 1) 0), (Z.eqb_spec (refs il0 n + 1 + 1) 1), (Z.eqb_spec (refs il0 n) 0); lia.
    + rewrite (one_ne n m), (one_ne m n) by congruence. unfold one. destruct (Z.eqb_spec (refs il0 n) 0), (Z.eqb_spec (refs il0 m + 0) 0), (Z.eqb_spec (refs il0 n + 1 + 0) 1), (Z.eqb_spec (refs il0 m) 0); lia.
Qed.

Definition namex_post (parent : bool) (il0 : list inode) (n : Z) (es : list (list Z)) (r : option nat * list Z) (w : world (fstate St U)) : Prop :=
  if parent then settled il0 (fst <$> follow_parent n es) r.1 w /\ (forall d e, follow_parent n es = Some (d, e) -> name_of r.2 = e)
  else settled il0 (follow n es) r.1 w.

(** Giving up in a directory. *)
Lemma give_up_wp (parent : bool) il0 n es k y (name : list Z) il st tr : bs_rep st t -> table_ok (Some k) il -> il !! k = Some y -> i_inum y = n -> 0 < i_ref y -> alive n ->
  (forall m, refs il m = refs il0 m + one n m) -> (if parent then follow_parent n es = None else follow n es = None) ->
  wp (iunlockput k ;; ret (inr (None, name)) : M (fstate St U) (nat * list Z * list Z + option nat * list Z))
    (fun r w => exists b, r = inr b /\ namex_post parent il0 n es b w) (fw tr st il).
Proof.
  intros Hrep Ht Hk Hyn Hyr Hal Hrefs Hnone. wp_step. apply (unlockput_wp il k y); [done|done|done|by rewrite Hyn|]. intros tr3 il3 Ht3 Hr3 _ _ _.
  wp_step. eexists. split; [done|]. assert (settled il0 None None (fw tr3 st il3)) as Hs.
  { apply settled_none; [done|done|]. intros m. rewrite Hr3, Hrefs, Hyn. lia. }
  unfold namex_post. destruct parent; rewrite Hnone; [split; [done|congruence]|done].
Qed.

Lemma namex_step_wp parent path name il0 n k il st tr : 0 ∈ path -> length name = DIRSIZn -> 2 <= idle il0 -> alive n -> bs_rep st t -> walking il0 n k il ->
  wp (namex_step parent (k, path, name)) (fun r w => match r with
    | inl (k', path', name') => exists m st' tr' il', w = fw tr' st' il' /\ bs_rep st' t /\ walking il0 m k' il' /\ alive m /\ 0 ∈ path' /\
        (length path' < length path)%nat /\ length name' = DIRSIZn /\
        forall r w, namex_post parent il0 m (elements path') r w -> namex_post parent il0 n (elements path) r w
    | inr b => namex_post parent il0 n (elements path) b w
    end) (fw tr st il).
Proof.
  intros Hnul Hname Hidle Hal Hrep (Ht & (x & Hx & Hxn & Hxr) & Hrefs & Hid). pose proof (one_range (refs il0 n) 0) as Hone. unfold namex_step.
  destruct (skipelem_spec path name Hnul Hname) as [[Eel Esk]|(e & rest & name' & Esk & Eel & Ename & Hname' & Hr0 & Hrh & Hrl)];
    (wp_step; eapply wp_the; [exact Esk|]); rewrite Eel.
  - unfold namex_post. destruct parent.
    + wp_step. apply (iput_wp None il k x); [done|done|done|rewrite Hxn; apply Hal|]. intros il' Ht' Hr' _ _ _. wp_step. cbn. split; [|done].
      apply settled_none; [done|done|]. intros m. rewrite Hr', Hrefs, Hxn. lia.
    + wp_step. by apply (settled_some il0 st tr il n k x).
  - wp_step. apply (ilock_wp il k x); [done|done|done|done|rewrite Hxn; apply Hal|]. intros st1 tr1 y R1 Hla Ht1. set (il1 := <[k := y]> il) in *.
    pose proof (lookup_lt_Some _ _ _ Hx) as Hlt. assert (il1 !! k = Some y) as Hy by (by apply list_lookup_insert_eq).
    assert (forall m, refs il1 m = refs il0 m + one n m) as Hrefs1.
    { intros m. rewrite <- Hrefs. apply (count_same _ _ _ x); [done|apply holds_same; apply Hla]. }
    assert (idle il1 = idle il) as Hid1 by (apply (count_same _ _ _ x); [done|apply free_slot_same; apply Hla]).
    assert (i_inum y = n) as Hyn by (rewrite (la_inum _ _ Hla); done). assert (0 < i_ref y) as Hyr by (rewrite (la_ref _ _ Hla); done).
    wp_step. eapply geti_wp; [exact Hy|]. assert (i_type y = d_type (disk_inode n)) as -> by (rewrite <- Hxn, <- (la_disk _ _ Hla); done).
    destruct (Z.eqb_spec (d_type (disk_inode n)) T_DIR) as [Hty|Hty]; cbn [negb].
    2:{ eapply wp_mono; [eapply (give_up_wp parent il0 n (e :: elements rest)); try done|by intros r w (b & -> & Hp)].
        destruct parent; cbn; by rewrite (proj2 (Z.eqb_neq _ _)). }
    assert (exists c, head rest = Some c /\ (c = 0 <-> elements rest = [])) as (c & Hc & Hcz).
    { destruct rest as [|c rest]; [by apply elem_of_nil in Hr0|]. exists c. split; [done|]. rewrite (elements_end _ Hr0 Hrh). cbn. split; congruence. }
    wp_step. eapply wp_the; [exact Hc|]. destruct (parent && (c =? 0)) eqn:Epar.
    + apply andb_true_iff in Epar as [-> E0%Z.eqb_eq]. apply Hcz in E0. wp_step. apply (iunlock_wp il1 k y); [done|done|done|]. intros tr2 Ht2. wp_step.
      unfold namex_post. rewrite E0. cbn [follow_parent fst snd fmap option_fmap option_map]. rewrite Hty. cbn. split; [|intros d e0 [= <- <-]; done].
      eapply settled_some; [done|done|apply list_lookup_insert_eq; by eapply lookup_lt_Some|done|done|]. intros m. rewrite <- Hrefs1. apply (count_same _ _ _ y); [done|by apply holds_same].
    + assert (forall d, dir_find n (take DIRSIZn e) = Some d -> forall r w, namex_post parent il0 d (elements rest) r w -> namex_post parent il0 n (e :: elements rest) r w) as Hpost.
      { intros d Hd r w. unfold namex_post. cbn [follow follow_parent]. rewrite Hty, Z.eqb_refl, Hd. cbn. destruct parent; [|done].
        cbn in Epar. apply Z.eqb_neq in Epar. destruct (elements rest); [by destruct Epar; apply Hcz|done]. }
      wp_step. apply (dirlookup_wp il1 k y name'); [done|done|done|done|apply Hla|by rewrite Hyn|done|lia| |]; rewrite Hyn, Ename.
      * intros Hno st2 tr2 R2. eapply wp_mono; [eapply (give_up_wp parent il0 n (e :: elements rest)); try done|by intros r w (b & -> & Hp)].
        destruct parent; cbn [follow follow_parent]; rewrite Hty, Z.eqb_refl, Hno; [|done]. cbn in Epar. apply Z.eqb_neq in Epar. destruct (elements rest); [by destruct Epar; apply Hcz|done].
      * intros m k' off st2 tr2 il2 Hm Halm R2 Hgot. pose proof Hgot as (Ht2 & _ & _ & _ & Hkeep). destruct (Hkeep k y Hy Hyr) as (r & Hr & Hk2).
        wp_step. apply (unlockput_wp il2 k (i_set_ref r y)); [done|done|done|cbn; by rewrite Hyn|]. cbn [i_set_ref i_inum]. rewrite Hyn.
        intros tr3 il3 Ht3 Hr3 Hi3 Hkeep3 Hself. wp_step. exists m, st2, tr3, il3. split; [done|]. split; [done|]. split; [|split; [done|]].
        { eapply (step_walk il0 n k m k' il1 il2 il3); try done; [lia|]. cbn. by rewrite Hyn. }
        split; [done|]. split; [done|]. split; [done|]. by apply Hpost.
Qed.

Lemma namex_loop parent il0 fuel : 2 <= idle il0 -> forall path name n k il st tr, (length path < fuel)%nat -> 0 ∈ path -> length name = DIRSIZn ->
  alive n -> bs_rep st t -> walking il0 n k il ->
  wp (iter fuel (namex_step parent) (k, path, name)) (namex_post parent il0 n (elements path)) (fw tr st il).
Proof.
  intros Hidle. induction fuel as [|fuel IH]; intros path name n k il st tr Hf Hnul Hname Hal Hrep Hw; [lia|]. cbn [iter]. wp_step.
  eapply wp_mono; [by eapply (namex_step_wp parent path name il0 n k)|]. intros [[[k' path'] name']|b] w.
  - intros (m & st' & tr' & il' & -> & R' & Hw' & Halm & Hn' & Hl & Hlen & Hpost). eapply wp_mono; [apply (IH path' name' m k' il'); try done; lia|]. exact Hpost.
  - intros Hp. by wp_step.
Qed.

(** Where a path starts: at the root, or at the current directory. *)
Definition starts (il : list inode) (path : list Z) (n : Z) : Prop :=
  if decide (head path = Some 47) then n = ROOTINO else exists x, il !! cwd = Some x /\ 0 < i_ref x /\ i_inum x = n.

Lemma namex_wp parent path name il n st tr : bs_rep st t -> table_ok None il -> 2 <= idle il -> starts il path n -> alive n -> 0 ∈ path -> length name = DIRSIZn ->
  wp (namex path parent name) (namex_post parent il n (elements path)) (fw tr st il).
Proof.
  intros Hrep Ht Hidle Hst Hal Hnul Hname. unfold namex. destruct path as [|c path]; [by apply elem_of_nil in Hnul|]. unfold starts in Hst. cbn [head] in Hst.
  wp_step. eapply wp_the; [done|]. assert (forall k il', got None il n k il' -> walking il n k il') as Hgw.
  { intros k il' (Ht' & (y & Hy & Hyn & Hyr) & Hr' & Hi' & _). split; [done|]. split; [by exists y|done]. }
  assert (wp (if c =? 47 then iget ROOTDEV ROOTINO else let* cwd := gets fs_cwd in idup cwd)
    (fun k w => exists il', w = fw tr st il' /\ walking il n k il') (fw tr st il)) as Hfirst.
  { destruct (Z.eqb_spec c 47) as [->|Hc].
    - rewrite decide_True in Hst by done. subst n. apply (iget_wp None il); [done|apply Hal|lia|]. intros k il' Hg. exists il'. auto.
    - rewrite decide_False in Hst by congruence. destruct Hst as (x & Hx & Hxr & <-). do 2 wp_step. apply (idup_wp None il cwd x); [done|done|done|].
      intros il' Hg. exists il'. auto. }
  wp_step. eapply wp_mono; [exact Hfirst|]. intros k w (il' & -> & Hw). apply (namex_loop parent il); try done. lia.
Qed.
End Path.

(** C14. namei() and nameiparent() find what the directories on disk say. From the root or the
    current directory they follow the elements of the path, each cut to DIRSIZ
    bytes, through the first entry of that name of each directory, and answer the
    inode the path leads to - or its last directory, with the last element in the name buffer -
    and 0 when an element is missing or is no directory. They
    terminate, lock one inode at a time and leave none locked, and take exactly one
    reference more, to the inode they answer, or none when they fail: every other
    reference taken on the way, also on the error paths, is given back. *)
Theorem namex_correct {St U} `{BlockStore St} `{UserMem U} (u : U) sb cwd pid t parent path name il n st tr :
  reader t -> fs_ok sb (t_view t) -> dirs_ok sb t -> bs_rep st t -> table_ok sb pid t None il -> 2 <= idle il ->
  starts cwd il path n -> alive sb t n -> 0 ∈ path -> length name = DIRSIZn ->
  wp (namex path parent name) (namex_post u sb cwd pid t parent il n (elements path)) (fw u sb cwd pid tr st il).
Proof. intros. by apply namex_wp. Qed.

(** The path [/./..//] on the small image. *)
Section DemoPath.
Context (t : tstate).
Hypothesis Hv : forall x, t_view t !! x = if decide (2 <= x < 10) then None else if decide (0 <= x) then demo_img !! Z.to_nat x else None.

Lemma demo_disk_inode n : 0 <= n < 16 -> disk_inode demo_sb t n = if decide (n = 1) then demo_root else Dinode 0 0 0 0 0 (replicate 13 0).
Proof.
  intros Hn. unfold disk_inode. assert (IBLOCK n demo_sb = 10) as -> by (unfold IBLOCK; change IPB with 16; rewrite Z.div_small by lia; done).
  rewrite Hv. cbn [decide]. rewrite decide_False, decide_True by lia. change (demo_img !! Z.to_nat 10) with (Some (put_dinode 64 demo_root zero_block)). cbn [default from_option id].
  assert (n ∈ seqZ 0 16) as Hin by (apply elem_of_seqZ; lia). revert n Hn Hin. change (seqZ 0 16) with [0; 1; 2; 3; 4; 5; 6; 7; 8; 9; 10; 11; 12; 13; 14; 15].
  intros n _ Hin. repeat (apply elem_of_cons in Hin as [->|Hin]; [vm_compute; reflexivity|]). by apply elem_of_nil in Hin.
Qed.

Lemma demo_alive : alive demo_sb t 1.
Proof. unfold alive. rewrite demo_disk_inode by lia. cbn. split; [lia|done]. Qed.

Lemma demo_as_inode : as_inode demo_sb t 1 = i_set_ref 0 (i_set_lock unlocked demo_root_inode).
Proof. unfold as_inode. rewrite demo_disk_inode by lia. done. Qed.

Lemma demo_entries : entries demo_sb t 1 = [Dirent 1 (46 :: replicate 13 0); Dirent 1 (46 :: 46 :: replicate 12 0)].
Proof.
  unfold entries, entry_at. rewrite demo_as_inode, demo_disk_inode by lia. change (seqZ 0 _) with [0; 1].
  assert (forall j, j = 0 \/ j = 1 -> file_bytes (t_view t) (i_set_ref 0 (i_set_lock unlocked demo_root_inode)) (j * DIRENT_SIZE) DIRENT_SIZE =
    slice (Z.to_nat (j * DIRENT_SIZE)) (Z.to_nat DIRENT_SIZE) (pad_block demo_dir)) as E.
  { intros j Hj. assert (0 <= j * DIRENT_SIZE <= 16) as Hb by (unfold DIRENT_SIZE, DIRSIZ; lia).
    assert (addr_at (t_view t) demo_root_inode (j * DIRENT_SIZE / BSIZE) = 12) as Ea.
    { rewrite Z.div_small by (change BSIZE with 1024; lia). done. }
    assert (t_view t !! 12 = Some (pad_block demo_dir)) as Ed by (rewrite Hv, decide_False, decide_True by lia; reflexivity).
    change (file_bytes _ (i_set_ref _ _) _ _) with (file_bytes (t_view t) demo_root_inode (j * DIRENT_SIZE) DIRENT_SIZE).
    rewrite <- (file_bytes_block _ _ _ _ (pad_block demo_dir)); rewrite ?Ea; try done; try lia; [|by rewrite Z.mod_small by (change BSIZE with 1024; lia); change BSIZE with 1024; unfold DIRENT_SIZE, DIRSIZ; lia].
    by rewrite Z.mod_small by (change BSIZE with 1024; lia). }
  cbn [fmap list_fmap]. rewrite !E by lia. vm_compute. reflexivity.
Qed.

Lemma demo_dirs_ok : dirs_ok demo_sb t.
Proof.
  intros n Hn. cbn in Hn. rewrite demo_disk_inode by lia. destruct (decide (n = 1)) as [->|]; [|done]. intros _.
  pose proof (demo_file_ok _ Hv) as Hf. split; [rewrite demo_as_inode; by destruct Hf; split|]. split; [done|].
  rewrite demo_entries. intros e He _. rewrite !elem_of_cons, elem_of_nil in He. destruct He as [->|[->|[]]]; apply demo_alive.
Qed.

Lemma demo_follow : follow demo_sb t 1 (elements [47; 46; 47; 46; 46; 47; 47; 0]) = Some 1.
Proof.
  assert (dir_find demo_sb t 1 [46] = Some 1 /\ dir_find demo_sb t 1 [46; 46] = Some 1) as [E1 E2] by (unfold dir_find; rewrite demo_entries; done).
  assert (d_type (disk_inode demo_sb t 1) = T_DIR) as Ety by (rewrite demo_disk_inode by lia; done).
  change (elements _) with [[46]; [46; 46]]. cbn [follow]. change (take DIRSIZn [46]) with [46]. change (take DIRSIZn [46; 46]) with [46; 46].
  rewrite Ety, E1. cbn [mbind option_bind Z.eqb Pos.eqb T_DIR]. rewrite Ety, E2. done.
Qed.
End DemoPath.

Lemma demo_table t : table_ok demo_sb 1 t None demo_il.
Proof.
  assert (forall k x, demo_il !! k = Some x -> x = Inode 0 0 0 unlocked false 0 0 0 0 0 (replicate NADDRS 0)) as Hall.
  { intros k x Hk. unfold demo_il in Hk. by apply lookup_replicate in Hk as [-> _]. }
  split; try (by intros k x ->%Hall). by intros k j x y ->%Hall _.
Qed.

Lemma namex_correct_witness : exists t, bs_rep demo_store t /\
  wp (namex [47; 46; 47; 46; 46; 47; 47; 0] false (replicate DIRSIZn 0)) (fun r w => exists k x, r.1 = Some k /\
    fs_inodes (user w) !! k = Some x /\ i_inum x = 1 /\ 0 < i_ref x /\ refs (fs_inodes (user w)) 1 = 1) (fw tt demo_sb 0 1 [] demo_store demo_il).
Proof.
  destruct demo_store_rep as (t & R & Ho & Hd & Hl & Hout & Hv). exists t. split; [exact R|].
  eapply wp_mono; [apply (namex_correct tt demo_sb 0 1 t false [47; 46; 47; 46; 46; 47; 47; 0] (replicate DIRSIZn 0) demo_il 1 demo_store [])|].
  - split; [exact Ho|]. split; [exact Hd|]. rewrite Hl. apply Nat.ltb_lt. vm_compute. reflexivity.
  - exact (demo_fs_ok _ Hv).
  - exact (demo_dirs_ok t Hv).
  - exact R.
  - exact (demo_table t).
  - vm_compute. discriminate.
  - reflexivity.
  - exact (demo_alive t Hv).
  - repeat (left || right).
  - reflexivity.
  - intros r w Hp. cbn [namex_post] in Hp. rewrite (demo_follow t Hv) in Hp. destruct Hp as (st & tr & il & -> & _ & _ & k & x & Hr & Hk & Hx & Hx0 & Hrefs).
    exists k, x. split; [exact Hr|]. split; [exact Hk|]. split; [exact Hx|]. split; [exact Hx0|]. rewrite Hrefs. vm_compute. reflexivity.
Defined.
