(* ===== verification/FsDir.v ===== *)
(** * Directories (dirlink() and dirunlink() of kernel/fs.c)

    A directory is the list of its entries; what it means is the first entry with
    a name and an inode number for each name ([dir_find]).  dirlink() adds a name and dirunlink()
    takes one away; every other name, directory and file keeps its meaning. *)

From S2P Require Import Prelude Machine CString Sleeplock Bio Store Log LogTxn FsDisk Fs Demo FsAlloc FsFile FsWrite FsPath.

Open Scope Z_scope.

(** ** Lists of entries *)

(** The entries with entry [j] replaced, or with one more when [j] is their number. *)
Definition enter (j : nat) (e : dirent) (l : list dirent) : list dirent := take j l ++ e :: drop (S j) l.

(** The first unused entry, or their number. *)
Fixpoint first_free (l : list dirent) : nat :=
  match l with [] => 0%nat | e :: l' => if de_inum e =? 0 then 0%nat else S (first_free l') end.

Definition is_entry (name : list Z) (e : dirent) : bool := negb (de_inum e =? 0) && bool_decide (name_of (de_name e) = name).

(** The first entry of that name. *)
Fixpoint find_index (name : list Z) (l : list dirent) : option nat :=
  match l with [] => None | e :: l' => if is_entry name e then Some 0%nat else S <$> find_index name l' end.

(** No name is there twice. *)
Definition names_once (l : list dirent) : Prop :=
  forall i j a b, l !! i = Some a -> l !! j = Some b -> de_inum a <> 0 -> de_inum b <> 0 ->
    name_of (de_name a) = name_of (de_name b) -> i = j.

Lemma first_free_le l : (first_free l <= length l)%nat.
Proof. induction l as [|e l IH]; cbn; [lia|]. destruct (_ =? 0); lia. Qed.

Lemma first_free_at l j e : l !! j = Some e -> de_inum e = 0 -> Forall (fun e => de_inum e <> 0) (take j l) -> first_free l = j.
Proof.
  revert j. induction l as [|a l IH]; intros [|j] He H0 Hl; cbn in *; simplify_eq.
  - by rewrite H0.
  - apply Forall_cons_1 in Hl as [Ha Hl]. rewrite (proj2 (Z.eqb_neq _ _)) by done. f_equal. by apply IH.
Qed.
Lemma first_free_none l : Forall (fun e => de_inum e <> 0) l -> first_free l = length l.
Proof. induction 1 as [|a l Ha _ IH]; [done|]. cbn. by rewrite (proj2 (Z.eqb_neq _ _)), IH. Qed.

Lemma find_app name l l' : find_entry name (l ++ l') = match find_entry name l with Some n => Some n | None => find_entry name l' end.
Proof. induction l as [|e l IH]; [done|]. cbn. rewrite IH. by destruct (_ && _). Qed.

Lemma find_none name l : (forall e, e ∈ l -> is_entry name e = false) -> find_entry name l = None.
Proof.
  induction l as [|e l IH]; [done|]. intros Hl. cbn. fold (is_entry name e). rewrite (Hl e) by (by left). apply IH. intros. apply Hl. by right.
Qed.

(** Entering an unused place. *)
Lemma find_enter_free l inum nm name : find_entry (name_of nm) l = None -> inum <> 0 ->
  find_entry name (enter (first_free l) (Dirent inum nm) l) = if decide (name = name_of nm) then Some inum else find_entry name l.
Proof.
  intros Hn Hi. unfold enter. induction l as [|e l IH].
  - cbn. rewrite (proj2 (Z.eqb_neq _ _)) by done. cbn. case_decide as E; [by rewrite bool_decide_eq_true_2|]. rewrite bool_decide_eq_false_2 by congruence. done.
  - cbn in Hn. cbn [first_free]. destruct (Z.eqb_spec (de_inum e) 0) as [E|E].
    + cbn in Hn |- *. rewrite E, (proj2 (Z.eqb_neq inum 0)) by done. cbn in Hn |- *.
      case_decide as En; [by rewrite bool_decide_eq_true_2|]. by rewrite bool_decide_eq_false_2 by congruence.
    + cbn in Hn |- *. rewrite (proj2 (Z.eqb_neq (de_inum e) 0)) by done. cbn in Hn |- *. destruct (bool_decide (name_of (de_name e) = name_of nm)) eqn:Eb; [done|].
      rewrite (IH Hn). apply bool_decide_eq_false in Eb. case_bool_decide as Hc; [|done]. rewrite decide_False by congruence. done.
Qed.

(** Clearing the entry of a name. *)
Lemma find_index_some name l j : find_index name l = Some j -> exists e, l !! j = Some e /\ is_entry name e = true /\
  find_entry name l = Some (de_inum e).
Proof.
  revert j. induction l as [|e l IH]; intros j; cbn; [done|]. fold (is_entry name e). destruct (is_entry name e) eqn:E.
  - intros [= <-]. by exists e.
  - destruct (find_index name l) as [k|]; [|done]. intros [= <-]. destruct (IH k eq_refl) as (e' & ? & ? & ?). by exists e'.
Qed.
Lemma find_index_none name l : find_index name l = None <-> find_entry name l = None.
Proof.
  induction l as [|e l IH]; [done|]. cbn. fold (is_entry name e). destruct (is_entry name e); [done|]. rewrite <- IH.
  by destruct (find_index name l).
Qed.

Lemma is_entry_name name e : is_entry name e = true <-> de_inum e <> 0 /\ name_of (de_name e) = name.
Proof. unfold is_entry. rewrite andb_true_iff, negb_true_iff, Z.eqb_neq, bool_decide_eq_true. done. Qed.

Lemma find_index_at name l j e : l !! j = Some e -> is_entry name e = true -> Forall (fun e => ~ is_entry name e = true) (take j l) -> find_index name l = Some j.
Proof.
  revert j. induction l as [|a l IH]; intros [|j] He H0 Hl; cbn in *; simplify_eq.
  - by rewrite H0.
  - apply Forall_cons_1 in Hl as [Ha Hl]. apply not_true_is_false in Ha. by rewrite Ha, (IH j He H0 Hl).
Qed.

Lemma find_enter_clear l j nm name other : names_once l -> find_index name l = Some j ->
  find_entry other (enter j (Dirent 0 nm) l) = if decide (other = name) then None else find_entry other l.
Proof.
  intros Hon Hj. destruct (find_index_some _ _ _ Hj) as (e & He & [H0 Hname]%is_entry_name & _). unfold enter. rewrite find_app.
  assert (find_entry other l = match find_entry other (take j l) with Some n => Some n | None => find_entry other (e :: drop (S j) l) end) as ->
    by (rewrite <- find_app; by rewrite list.take_drop_middle). cbn [find_entry de_inum Z.eqb negb andb].
  fold (is_entry other e). case_decide as Eo.
  - subst other. assert (forall i a, l !! i = Some a -> i <> j -> is_entry name a = false) as Hoth.
    { intros i a Ha Hne. destruct (is_entry name a) eqn:Ea; [|done]. apply is_entry_name in Ea as [Ha0 Ea]. destruct Hne.
      apply (Hon i j a e); try done. congruence. }
    rewrite !find_none; [done| |]; intros a Ha; apply list_elem_of_lookup_1 in Ha as [i Hi].
    + rewrite lookup_drop in Hi. eapply Hoth; [exact Hi|lia].
    + apply lookup_take_Some in Hi as [Hi Hlt]. eapply Hoth; [exact Hi|lia].
  - destruct (is_entry other e) eqn:Ee; [apply is_entry_name in Ee as [_ Ee]; congruence|]. done.
Qed.

Lemma lookup_enter j e l i : (j <= length l)%nat -> enter j e l !! i = if decide (i = j) then Some e else l !! i.
Proof.
  intros Hj. unfold enter. case_decide as E.
  - subst. rewrite lookup_app_r by (rewrite length_take; lia). rewrite length_take, Nat.min_l, Nat.sub_diag by lia. done.
  - destruct (decide (i < j)%nat).
    + rewrite lookup_app_l by (rewrite length_take; lia). by rewrite lookup_take_lt.
    + rewrite lookup_app_r by (rewrite length_take; lia). rewrite length_take, Nat.min_l by lia.
      replace (i - j)%nat with (S (i - S j)) by lia.
      change ((e :: drop (S j) l) !! S (i - S j)) with (drop (S j) l !! (i - S j)%nat). rewrite lookup_drop. f_equal. lia.
Qed.

Lemma names_once_enter j e l : (j <= length l)%nat -> names_once l ->
  (de_inum e <> 0 -> find_entry (name_of (de_name e)) l = None) -> names_once (enter j e l).
Proof.
  intros Hj Hon Hnew a b x y Ha Hb Hx Hy E. rewrite lookup_enter in Ha, Hb by done.
  assert (forall i z, l !! i = Some z -> de_inum z <> 0 -> de_inum e <> 0 -> name_of (de_name z) <> name_of (de_name e)) as Hother.
  { intros i z Hi Hz He Ez. specialize (Hnew He). apply find_index_none in Hnew. revert i z Hi Hz Ez Hnew. clear. induction l as [|w l IH]; [done|].
    intros [|i] z Hi Hz Ez; cbn in Hi |- *; destruct (is_entry _ w) eqn:Ew; try done.
    - simplify_eq. rewrite (proj2 (is_entry_name _ _)) in Ew; done.
    - intros Hf. eapply IH; [exact Hi|done|done|]. by destruct (find_index _ l). }
  destruct (decide (a = j)) as [->|Na], (decide (b = j)) as [->|Nb]; [done| | |by eapply Hon].
  - injection Ha as <-. exfalso. eapply Hother; [exact Hb|done|done|done].
  - injection Hb as <-. exfalso. eapply Hother; [exact Ha|done|done|done].
Qed.

(** ** The bytes of a directory *)

Definition DSn : nat := Z.to_nat DIRENT_SIZE.
Definition decode_all (c : list Z) : list dirent := (fun j => dirent_decode (slice (DSn * j) DSn c)) <$> seq 0 (length c / DSn).

Lemma lookup_decode_all c j : decode_all c !! j = if decide (j < length c / DSn)%nat then Some (dirent_decode (slice (DSn * j) DSn c)) else None.
Proof.
  unfold decode_all. rewrite list_lookup_fmap. case_decide as H.
  - by rewrite lookup_seq_lt by done.
  - by rewrite lookup_seq_ge by lia.
Qed.
Lemma length_decode_all c : length (decode_all c) = (length c / DSn)%nat.
Proof. unfold decode_all. by rewrite length_fmap, length_seq. Qed.

(** Writing one entry. *)
Lemma decode_splice c j bs : length bs = DSn -> (length c = DSn * (length c / DSn))%nat -> (j <= length c / DSn)%nat ->
  decode_all (splice (DSn * j) bs c) = enter j (dirent_decode bs) (decode_all c).
Proof.
  intros Hb Hc Hj. set (L := (length c / DSn)%nat) in *. apply list_eq. intros i.
  rewrite lookup_enter by (rewrite length_decode_all; exact Hj). rewrite !lookup_decode_all. fold L.
  assert (length (splice (DSn * j) bs c) = DSn * Nat.max L (S j))%nat as Hl.
  { unfold splice. rewrite !length_app, length_take, length_drop. change DSn with 16%nat in *. lia. }
  rewrite Hl, (Nat.mul_comm DSn (Nat.max _ _)), Nat.div_mul by done. change DSn with 16%nat in *.
  destruct (decide (i = j)) as [->|Hne].
  - rewrite decide_True by lia. do 2 f_equal. apply list_eq. intros k. destruct (decide (k < 16)%nat).
    + rewrite lookup_slice by done. rewrite lookup_splice_extend by lia. rewrite decide_True by lia. f_equal. lia.
    + rewrite !lookup_ge_None_2; [done|lia|]. rewrite length_slice; lia.
  - destruct (decide (i < L)%nat) as [Hi|Hi]; [|by rewrite decide_False by lia]. rewrite decide_True by lia. do 2 f_equal.
    apply list_eq. intros k. destruct (decide (k < 16)%nat).
    + rewrite !lookup_slice by done. rewrite lookup_splice_extend by lia. rewrite decide_False by lia. done.
    + rewrite !lookup_ge_None_2; [done| |]; rewrite length_slice; lia.
Qed.

Lemma entries_decode sb t n : 0 <= d_size (disk_inode sb t n) -> entries sb t n = decode_all (content (t_view t) (as_inode sb t n)).
Proof.
  intros Hs. set (c := content _ _). assert (length c = Z.to_nat (d_size (disk_inode sb t n))) as Hl by (unfold c, content; by rewrite length_file_bytes).
  assert (length c / DSn = Z.to_nat (d_size (disk_inode sb t n) / DIRENT_SIZE))%nat as Hd by (rewrite Hl; unfold DSn; by rewrite Z2Nat.inj_div).
  apply list_eq. intros j. rewrite lookup_decode_all, Hd. unfold entries. rewrite list_lookup_fmap. case_decide as Hj.
  - rewrite lookup_seqZ_lt by lia. cbn. f_equal. unfold entry_at. f_equal. rewrite Z.add_0_l.
    pose proof (Z.div_mod (d_size (disk_inode sb t n)) DIRENT_SIZE ltac:(done)) as E.
    pose proof (Z.mod_pos_bound (d_size (disk_inode sb t n)) DIRENT_SIZE ltac:(done)).
    rewrite file_bytes_slice; unfold DSn; change DIRENT_SIZE with 16 in *; [|lia|lia|].
    + f_equal. lia.
    + change (i_size (as_inode sb t n)) with (d_size (disk_inode sb t n)). lia.
  - by rewrite lookup_seqZ_ge by lia.
Qed.

(** ** What a write to one file leaves of the others *)

Section Frame.
Context (sb : superblock) (v v' : gmap Z block) (i : inode).
Hypothesis Hf : file_ok sb v i.
Hypothesis Hsame : forall x, owned v i x -> v' !! x = v !! x.
Hypothesis Hused : forall x, owned v i x -> block_used sb v x = true -> block_used sb v' x = true.

Lemma addr_at_frame m : addr_at v' i m = addr_at v i m.
Proof.
  unfold addr_at. destruct (m <? NDIRECT); [done|]. destruct (Z.eqb_spec (ind_addr i) 0) as [|Hi]; [done|].
  rewrite Hsame; [done|]. split; [done|]. by left.
Qed.
Lemma owned_frame x : owned v' i x <-> owned v i x.
Proof. unfold owned. by setoid_rewrite addr_at_frame. Qed.
Lemma byte_at_frame o : file_range (o / BSIZE) -> byte_at v' i o = byte_at v i o.
Proof.
  intros Hr. unfold byte_at. rewrite addr_at_frame. destruct (Z.eqb_spec (addr_at v i (o / BSIZE)) 0) as [|Ha]; [done|].
  rewrite Hsame; [done|]. split; [done|]. right. by exists (o / BSIZE).
Qed.
Lemma content_frame : content v' i = content v i.
Proof.
  unfold content, file_bytes. apply list_fmap_ext. intros j o Ho. apply lookup_seqZ in Ho as [-> Ho]. f_equal. apply byte_at_frame.
  apply (offset_range sb (as_t v) i Hf). lia.
Qed.
Lemma data_block_frame x : owned v i x -> data_block sb v x -> data_block sb v' x.
Proof. intros Ho [H1 H2 H3 H4 H5]. constructor; try done; [by rewrite Hsame|by apply Hused]. Qed.
Lemma file_ok_frame : file_ok sb v' i.
Proof.
  pose proof Hf as [H1 H2 H3 H4 H5 H6 H7 H8 H9]. constructor; try done.
  - intros Hi. apply data_block_frame; [|by apply H6]. split; [done|]. by left.
  - intros m Hm. rewrite addr_at_frame. intros Hz. destruct (H7 m Hm Hz). split; [|done]. apply data_block_frame; [|done].
    split; [done|]. right. by exists m.
  - intros m1 m2. rewrite !addr_at_frame. apply H8.
  - intros o Ho. rewrite addr_at_frame. by apply H9.
Qed.
End Frame.

Lemma owned_data sb v i x : file_ok sb v i -> owned v i x -> data_block sb v x.
Proof.
  intros Hf (Hx & [E|(m & Hm & E)]); subst x; [by apply (fo_ind _ _ _ Hf)|by apply (fo_addr _ _ _ Hf)].
Qed.

(** ** The tree of files *)

Definition live (sb : superblock) (t : tstate) (n : Z) : Prop := 0 <= n < sb_ninodes sb /\ d_type (disk_inode sb t n) <> 0.

(** The inodes in use are files that share no block; directories are lists of entries of
    inodes that have links, and have no name twice. *)
Record tree_ok (sb : superblock) (t : tstate) : Prop := {
  tk_fs : fs_ok sb (t_view t);
  tk_dirs : dirs_ok sb t;
  tk_file : forall n, live sb t n -> file_ok sb (t_view t) (as_inode sb t n) /\ dinode_ok (disk_inode sb t n);
  tk_apart : forall n m x, live sb t n -> live sb t m -> n <> m -> owned (t_view t) (as_inode sb t n) x -> ~ owned (t_view t) (as_inode sb t m) x;
  tk_once : forall n, live sb t n -> d_type (disk_inode sb t n) = T_DIR -> names_once (entries sb t n)
}.

(** An entry of the inode table stands for the inode on disk. *)
Lemma as_inode_like sb t x : i_dev x = ROOTDEV -> dinode_of x = disk_inode sb t (i_inum x) ->
  (file_ok sb (t_view t) x <-> file_ok sb (t_view t) (as_inode sb t (i_inum x))) /\
  content (t_view t) (as_inode sb t (i_inum x)) = content (t_view t) x /\
  (forall y, owned (t_view t) (as_inode sb t (i_inum x)) y <-> owned (t_view t) x y).
Proof.
  unfold as_inode. intros Hd <-. destruct x. cbn in Hd. subst i_dev. cbn. split; [|done]. split; intros Hf; by destruct Hf; split.
Qed.

Section AfterWrite.
Context (sb : superblock) (t t' : tstate) (x i' : inode) (off r : Z) (j : nat) (e : dirent).
Abbreviation n := (i_inum x).
Hypothesis Ht : tree_ok sb t.
Hypothesis Hn : live sb t n.
Hypothesis Hdir : d_type (disk_inode sb t n) = T_DIR.
Hypothesis Hdev : i_dev x = ROOTDEV.
Hypothesis Hx : dinode_of x = disk_inode sb t n.
Hypothesis Hj : (j <= length (entries sb t n))%nat.
Hypothesis Hoff : off = Z.of_nat j * DIRENT_SIZE.
Hypothesis He : 0 <= de_inum e < 2 ^ 16 /\ length (de_name e) = DIRSIZn.
Hypothesis Hw : write_result sb (dirent_encode e) off DIRENT_SIZE t x r t' i'.
Hypothesis Hok : de_inum e = 0 \/ alive sb t (de_inum e) /\ find_entry (name_of (de_name e)) (entries sb t n) = None.

Lemma aw_all_or_nothing : r = 0 \/ r = DIRENT_SIZE.
Proof.
  pose proof (ws_range _ _ _ _ _ _ _ _ _ Hw). destruct (ws_whole _ _ _ _ _ _ _ _ _ Hw) as [?|[?|Hm]]; [by left|by right|].
  destruct (decide (r = DIRENT_SIZE)); [by right|left]. rewrite Hoff in Hm. change DIRENT_SIZE with 16 in *. change BSIZE with 1024 in Hm. Z.div_mod_to_equations. lia.
Qed.

Lemma aw_other m : 0 <= m < sb_ninodes sb -> m <> n -> disk_inode sb t' m = disk_inode sb t m.
Proof. intros. by apply (ws_slots _ _ _ _ _ _ _ _ _ Hw). Qed.
Lemma aw_inum : i_inum i' = n /\ i_dev i' = ROOTDEV /\ dinode_of i' = disk_inode sb t' n.
Proof.
  rewrite (ws_same _ _ _ _ _ _ _ _ _ Hw). cbn. split; [done|]. split; [done|]. rewrite <- (ws_same _ _ _ _ _ _ _ _ _ Hw).
  symmetry. apply (ws_slot _ _ _ _ _ _ _ _ _ Hw).
Qed.
Lemma aw_self : d_type (disk_inode sb t' n) = d_type (disk_inode sb t n) /\ d_nlink (disk_inode sb t' n) = d_nlink (disk_inode sb t n).
Proof. destruct aw_inum as (_ & _ & <-). rewrite (ws_same _ _ _ _ _ _ _ _ _ Hw), <- Hx. done. Qed.
Lemma aw_type m : 0 <= m < sb_ninodes sb -> d_type (disk_inode sb t' m) = d_type (disk_inode sb t m) /\ d_nlink (disk_inode sb t' m) = d_nlink (disk_inode sb t m).
Proof. intros Hm. destruct (decide (m = n)) as [->|Hne]; [apply aw_self|]. by rewrite aw_other. Qed.
Lemma aw_live m : live sb t' m <-> live sb t m.
Proof. unfold live. split; intros [Hm ?]; (split; [done|]); by destruct (aw_type m Hm) as [E _]; rewrite E in *. Qed.
Lemma aw_alive m : alive sb t' m <-> alive sb t m.
Proof. unfold alive. split; intros [Hm ?]; (split; [done|]); by destruct (aw_type m Hm) as [E E']; rewrite E, E' in *. Qed.

(** The other files. *)
Lemma aw_frame m : live sb t m -> m <> n -> as_inode sb t' m = as_inode sb t m /\
  (forall y, owned (t_view t) (as_inode sb t m) y -> t_view t' !! y = t_view t !! y).
Proof.
  intros Hm Hne. split; [unfold as_inode; by rewrite aw_other by (done || apply Hm)|]. intros y Hy.
  destruct (owned_data _ _ _ _ (proj1 (tk_file _ _ Ht m Hm)) Hy) as [D1 D2 D3 D4 D5].
  apply (ws_frame _ _ _ _ _ _ _ _ _ Hw); [done|done|exact D4| |apply D5, Hn].
  rewrite <- (proj2 (proj2 (as_inode_like sb t x Hdev Hx))). by apply (tk_apart _ _ Ht m n).
Qed.
Lemma aw_content m : live sb t m -> m <> n -> content (t_view t') (as_inode sb t' m) = content (t_view t) (as_inode sb t m) /\
  file_ok sb (t_view t') (as_inode sb t' m) /\ forall y, owned (t_view t') (as_inode sb t' m) y <-> owned (t_view t) (as_inode sb t m) y.
Proof.
  intros Hm Hne. destruct (aw_frame m Hm Hne) as [-> Hs]. pose proof (proj1 (tk_file _ _ Ht m Hm)) as Hf.
  assert (forall y, owned (t_view t) (as_inode sb t m) y -> block_used sb (t_view t) y = true -> block_used sb (t_view t') y = true) as Hu.
  { intros y Hy. apply (ws_used _ _ _ _ _ _ _ _ _ Hw), (owned_data _ _ _ _ Hf Hy). }
  split; [by apply (content_frame sb)|]. split; [by apply (file_ok_frame sb (t_view t))|]. intros y. by apply owned_frame.
Qed.
Lemma aw_entries m : live sb t m -> m <> n -> entries sb t' m = entries sb t m.
Proof.
  intros Hm Hne. pose proof (fo_size _ _ _ (proj1 (tk_file _ _ Ht m Hm))) as Hs. change (i_size _) with (d_size (disk_inode sb t m)) in Hs.
  rewrite !entries_decode; [|lia|rewrite aw_other by (done || apply Hm); lia]. f_equal. by apply aw_content.
Qed.

(** The directory itself. *)
Lemma aw_size : 0 <= d_size (disk_inode sb t n) /\ d_size (disk_inode sb t n) mod DIRENT_SIZE = 0 /\
  Z.of_nat (length (entries sb t n)) * DIRENT_SIZE = d_size (disk_inode sb t n) /\
  d_size (disk_inode sb t' n) = Z.max (d_size (disk_inode sb t n)) (off + r).
Proof.
  destruct (tk_dirs _ _ Ht n (proj1 Hn) Hdir) as (Hf & Hm & _). pose proof (fo_size _ _ _ Hf) as Hs.
  change (i_size _) with (d_size (disk_inode sb t n)) in Hs. split; [lia|]. split; [done|].
  rewrite entries_decode, length_decode_all by lia. unfold content. rewrite length_file_bytes. change (i_size _) with (d_size (disk_inode sb t n)). split.
  - unfold DSn. rewrite <- Z2Nat.inj_div by (lia || done). rewrite Z2Nat.id by (apply Z.div_pos; [lia|done]). change DIRENT_SIZE with 16 in *. Z.div_mod_to_equations. lia.
  - destruct aw_inum as (_ & _ & <-). rewrite (ws_same _ _ _ _ _ _ _ _ _ Hw), <- Hx. done.
Qed.

Lemma aw_dir : entries sb t' n = if decide (r = 0) then entries sb t n else enter j e (entries sb t n).
Proof.
  destruct aw_size as (Hs & Hm & Hl & Hs'). destruct aw_inum as (Ein & Edev & Edi). destruct He as [Hei Hen].
  rewrite (entries_decode sb t') by lia. rewrite <- Ein in Edi. destruct (as_inode_like sb t' i' Edev Edi) as (_ & Ec & _). rewrite Ein in Ec.
  rewrite Ec, (ws_content _ _ _ _ _ _ _ _ _ Hw). destruct (as_inode_like sb t x Hdev Hx) as (_ & Ec0 & _). rewrite <- Ec0.
  pose proof Hj as Hj'. rewrite entries_decode in Hl, Hj' |- * by done. set (c := content (t_view t) (as_inode sb t n)) in *. rewrite length_decode_all in Hl, Hj'.
  assert (length c = Z.to_nat (d_size (disk_inode sb t n))) as Hlc by (unfold c, content; by rewrite length_file_bytes).
  assert (Z.to_nat off = DSn * j)%nat as Eoff by (rewrite Hoff; unfold DSn; change DIRENT_SIZE with 16; lia). rewrite Eoff.
  assert (length c = DSn * (length c / DSn))%nat as Hc by (unfold DSn in *; change DIRENT_SIZE with 16 in *; lia).
  destruct aw_all_or_nothing as [->| ->].
  - rewrite decide_True by done. f_equal. unfold splice. cbn [Z.to_nat firstn length app]. rewrite Nat.add_0_r. apply take_drop.
  - rewrite decide_False by done. rewrite take_ge by (by rewrite length_dirent_encode). rewrite decode_splice; [|by rewrite length_dirent_encode|done|done].
    by rewrite dirent_roundtrip.
Qed.

Lemma aw_like : file_ok sb (t_view t') (as_inode sb t' n) /\ dinode_ok (disk_inode sb t' n) /\
  forall y, owned (t_view t') (as_inode sb t' n) y <-> owned (t_view t') i' y.
Proof.
  destruct aw_inum as (Ein & Edev & Edi). pose proof (ws_file _ _ _ _ _ _ _ _ _ Hw) as Hf. rewrite <- Ein in Edi.
  destruct (as_inode_like sb t' i' Edev Edi) as (Ef & _ & Eo). rewrite Ein in *. split; [by apply Ef|]. split; [|done].
  destruct (tk_file _ _ Ht n Hn) as [_ [D1 D2 D3 D4 D5 D6 D7]]. rewrite <- Hx in *. pose proof (fo_size _ _ _ Hf) as Hs. change (MAXFILE * BSIZE) with 274432 in Hs.
  rewrite <- Edi. constructor; try (rewrite (ws_same _ _ _ _ _ _ _ _ _ Hw); done).
  - unfold word. change (d_size (dinode_of i')) with (i_size i'). lia.
  - apply (fo_words _ _ _ Hf).
  - apply (fo_len _ _ _ Hf).
Qed.

Lemma aw_apart m y : live sb t m -> m <> n -> owned (t_view t') (as_inode sb t' m) y -> ~ owned (t_view t') (as_inode sb t' n) y.
Proof.
  intros Hm Hne Ho. destruct aw_like as (_ & _ & ->). apply (proj2 (proj2 (aw_content m Hm Hne))) in Ho.
  destruct (owned_data _ _ _ _ (proj1 (tk_file _ _ Ht m Hm)) Ho) as [D1 _ D3 D4 _].
  apply (ws_owned _ _ _ _ _ _ _ _ _ Hw); [done|done|exact D4|]. rewrite <- (proj2 (proj2 (as_inode_like sb t x Hdev Hx))).
  by apply (tk_apart _ _ Ht m n).
Qed.

Lemma aw_dirs : dirs_ok sb t'.
Proof.
  pose proof aw_size as (Hs & Hm & Hl & Hs'). intros m Hm' Hty. assert (live sb t m) as Hlm by (apply aw_live; split; [done|by rewrite Hty]).
  destruct (tk_dirs _ _ Ht m Hm') as (_ & Hmod & Hent); [by destruct (aw_type m Hm') as [<- _]|]. destruct (decide (m = n)) as [->|Hne].
  - split; [apply aw_like|]. split.
    + rewrite Hs', Hoff. destruct aw_all_or_nothing as [->| ->]; change DIRENT_SIZE with 16 in *;
        match goal with |- Z.max ?a ?b mod _ = 0 => destruct (Z.max_spec a b) as [[_ ->]|[_ ->]] end; Z.div_mod_to_equations; lia.
    + intros a Ha H0. apply aw_alive. rewrite aw_dir in Ha. case_decide; [by apply Hent|]. unfold enter in Ha.
      apply elem_of_app in Ha as [Ha|[->|Ha]%elem_of_cons].
      * apply Hent; [|done]. rewrite <- (take_drop j). apply elem_of_app. by left.
      * by destruct Hok as [?|[? _]].
      * apply Hent; [|done]. rewrite <- (take_drop (S j)). apply elem_of_app. by right.
  - split; [by apply aw_content|]. split; [by rewrite aw_other|]. intros a Ha H0. apply aw_alive. rewrite aw_entries in Ha by done. by apply Hent.
Qed.

Lemma aw_tree : tree_ok sb t'.
Proof.
  constructor.
  - apply (ws_fs _ _ _ _ _ _ _ _ _ Hw).
  - apply aw_dirs.
  - intros m Hm%aw_live. destruct (decide (m = n)) as [->|Hne]; [split; apply aw_like|].
    split; [by apply aw_content|]. rewrite aw_other by (done || apply Hm). by apply (tk_file _ _ Ht).
  - intros m1 m2 y H1%aw_live H2%aw_live Hne Ho1 Ho2. destruct (decide (m1 = n)) as [->|N1]; [by apply (aw_apart m2 y)|].
    destruct (decide (m2 = n)) as [->|N2]; [by apply (aw_apart m1 y)|]. apply (proj2 (proj2 (aw_content _ H1 N1))) in Ho1.
    apply (proj2 (proj2 (aw_content _ H2 N2))) in Ho2. by apply (tk_apart _ _ Ht m1 m2 y).
  - intros m Hm%aw_live Hty. destruct (decide (m = n)) as [->|Hne].
    + rewrite aw_dir. case_decide; [by apply (tk_once _ _ Ht)|]. apply names_once_enter; [done|by apply (tk_once _ _ Ht)|]. intros H0. by destruct Hok as [?|[_ ?]].
    + rewrite aw_entries by done. apply (tk_once _ _ Ht); [done|]. by destruct (aw_type m (proj1 Hm)) as [<- _].
Qed.

(** The inode table is still a cache of the disk. *)
Lemma aw_table pid k il : table_ok sb pid t (Some k) il -> il !! k = Some x -> 0 < i_ref x -> table_ok sb pid t' (Some k) (<[k := i']> il).
Proof.
  intros [T1 T2 T3 T4 T5] Hk Hr. pose proof (lookup_lt_Some _ _ _ Hk) as Hlt. destruct aw_inum as (Ein & Edev & Edi).
  assert (i_ref i' = i_ref x /\ i_lock i' = i_lock x) as [Er El] by (rewrite (ws_same _ _ _ _ _ _ _ _ _ Hw); done).
  assert (forall a z, <[k := i']> il !! a = Some z -> exists z0, il !! a = Some z0 /\ i_ref z = i_ref z0 /\ i_inum z = i_inum z0 /\ i_dev z = i_dev z0 /\
    i_lock z = i_lock z0 /\ (a = k \/ z = z0)) as Hcase.
  { intros a z Ha. destruct (decide (a = k)) as [->|Hne]; [rewrite list_lookup_insert_eq in Ha by done; simplify_eq; exists x|rewrite list_lookup_insert_ne in Ha by done; exists z].
    - rewrite Edev, Hdev. auto 10.
    - auto 10. }
  split.
  - intros a z (z0 & H0 & -> & _)%Hcase. by apply (T1 a z0).
  - intros a z (z0 & H0 & -> & -> & -> & _)%Hcase. by apply (T2 a z0).
  - intros a b y z (y0 & Ha & -> & -> & _)%Hcase (z0 & Hb & -> & -> & _)%Hcase. by apply (T3 a b y0 z0).
  - intros a z Ha Hz Hv. destruct (decide (a = k)) as [->|Hne]; [rewrite list_lookup_insert_eq in Ha by done; simplify_eq; by rewrite Ein|].
    rewrite list_lookup_insert_ne in Ha by done. rewrite aw_other; [by apply (T4 a z)|apply (T2 a z Ha Hz)|]. intros E. apply Hne. by apply (T3 a k z x).
  - intros a z (z0 & H0 & _ & _ & _ & -> & _)%Hcase. by apply (T5 a z0).
Qed.
End AfterWrite.

Section Dir.
Context {St U : Type} `{BlockStore St} `{UserMem U}.
Context (u : U) (sb : superblock) (cwd : nat) (pid : Z).
Abbreviation fw := (fw u sb cwd pid).
Context (t : tstate) (il : list inode) (k : nat) (x : inode).
Abbreviation n := (i_inum x).
Abbreviation es := (entries sb t n).
Hypothesis Htree : tree_ok sb t.
Hypothesis Htab : table_ok sb pid t (Some k) il.
Hypothesis Hk : il !! k = Some x.
Hypothesis Href : 0 < i_ref x.
Hypothesis Hval : i_valid x = true.
Hypothesis Hdir : d_type (disk_inode sb t n) = T_DIR.
Hypothesis Hopen : t_open t = ∅.
Hypothesis Hbud : budget sb 1 x t.

Lemma d_reader : reader t.
Proof. destruct Hbud as (B1 & B2 & B3 & _). split; [done|]. split; [done|]. unfold cost in B2. lia. Qed.
Lemma d_id : i_dev x = ROOTDEV /\ live sb t n /\ dinode_of x = disk_inode sb t n /\ file_ok sb (t_view t) (as_inode sb t n) /\
  file_ok sb (t_view t) x /\ i_size x = Z.of_nat (length es) * DIRENT_SIZE.
Proof.
  destruct (to_id _ _ _ _ _ Htab k x Hk Href) as [Hdev Hid]. pose proof (to_valid _ _ _ _ _ Htab k x Hk Href Hval) as Hx.
  destruct (tk_dirs _ _ Htree n Hid Hdir) as (Hf & Hm & _). split; [done|]. split; [split; [done|by rewrite Hdir]|]. split; [done|]. split; [done|].
  split; [by apply (as_inode_like sb t x)|]. pose proof (fo_size _ _ _ Hf) as Hs. change (i_size (as_inode _ _ _)) with (d_size (disk_inode sb t n)) in Hs.
  change (i_size x) with (d_size (dinode_of x)). rewrite Hx, entries_decode, length_decode_all by lia. unfold content. rewrite length_file_bytes.
  change (i_size (as_inode _ _ _)) with (d_size (disk_inode sb t n)). unfold DSn. rewrite <- Z2Nat.inj_div by (lia || done).
  rewrite Z2Nat.id by (apply Z.div_pos; [lia|done]). change DIRENT_SIZE with 16 in *. Z.div_mod_to_equations. lia.
Qed.

Lemma entry_at_es j e : es !! j = Some e -> entry_at sb t n (Z.of_nat j) = e.
Proof.
  unfold entries. rewrite list_lookup_fmap. intros Hj. destruct (seqZ 0 _ !! j) as [z|] eqn:E; [|done]. apply lookup_seqZ in E as [-> _].
  cbn in Hj. by injection Hj.
Qed.

(** A loop over the entries, that ends at the first entry that [stops] it. *)
Lemma dir_scan_wp {B} (step : Z -> M (fstate St U) (Z + B)) (stops : dirent -> Prop) (Q : B -> world (fstate St U) -> Prop) fuel st tr :
  (length es < fuel)%nat -> bs_rep st t ->
  (forall st tr, bs_rep st t -> Forall (fun e => ~ stops e) es ->
     wp (step (Z.of_nat (length es) * DIRENT_SIZE)) (fun r w => match r with inr b => Q b w | inl _ => False end) (fw tr st il)) ->
  (forall j e st tr, bs_rep st t -> es !! j = Some e -> Forall (fun e => ~ stops e) (take j es) ->
     wp (step (Z.of_nat j * DIRENT_SIZE)) (fun r w => match r with
       | inr b => Q b w
       | inl o => ~ stops e /\ o = Z.of_nat j * DIRENT_SIZE + DIRENT_SIZE /\ exists st' tr', w = fw tr' st' il /\ bs_rep st' t
       end) (fw tr st il)) ->
  wp (iter fuel step 0) Q (fw tr st il).
Proof.
  intros Hfuel Hrep Hend Hstep.
  eapply wp_iter with (v := fun o _ => (length es - Z.to_nat (o / DIRENT_SIZE))%nat)
    (I := fun o w => exists j st tr, o = Z.of_nat j * DIRENT_SIZE /\ (j <= length es)%nat /\ w = fw tr st il /\ bs_rep st t /\ Forall (fun e => ~ stops e) (take j es)).
  - exists 0%nat, st, tr. split; [done|]. split; [lia|]. split; [done|]. split; [done|]. constructor.
  - cbn. lia.
  - intros o w (j & st1 & tr1 & -> & Hj & -> & R & Hno). destruct (decide (j = length es)) as [->|Hne].
    + rewrite take_ge in Hno by lia. eapply wp_mono; [by apply Hend|]. by intros [|] ?.
    + destruct (lookup_lt_is_Some_2 es j) as [e He]; [lia|]. eapply wp_mono; [by apply (Hstep j e)|]. intros [o|b] w; [|done].
      intros (Hs & -> & st2 & tr2 & -> & R2). split.
      * exists (S j), st2, tr2. split; [lia|]. split; [lia|]. split; [done|]. split; [done|]. rewrite (take_S_r _ _ _ He).
        apply Forall_app. split; [done|]. constructor; [done|constructor].
      * replace (Z.of_nat j * DIRENT_SIZE + DIRENT_SIZE) with ((Z.of_nat j + 1) * DIRENT_SIZE) by lia. rewrite !Z.div_mul by done. lia.
Qed.

(** Reading entry [j]. *)
Lemma read_entry_wp j e msg st tr (Q : dirent -> world (fstate St U) -> Prop) : bs_rep st t -> es !! j = Some e ->
  (forall st' tr', bs_rep st' t -> Q e (fw tr' st' il)) -> wp (read_dirent k (Z.of_nat j * DIRENT_SIZE) msg) Q (fw tr st il).
Proof.
  intros R He HQ. destruct d_id as (Hdev & _ & Hx & Hf & _ & Hs). pose proof (lookup_lt_Some _ _ _ He) as Hlt.
  apply (read_dirent_wp u sb cwd pid t d_reader (tk_fs _ _ Htree) il k x); [done|done|done|done|done|lia|rewrite Hs; change DIRENT_SIZE with 16; lia|].
  rewrite (entry_at_es j e He). done.
Qed.
Lemma past_entries : (Z.of_nat (length es) * DIRENT_SIZE <? i_size x) = false.
Proof. destruct d_id as (_ & _ & _ & _ & _ & ->). apply Z.ltb_irrefl. Qed.
Lemma at_entry j e : es !! j = Some e -> (Z.of_nat j * DIRENT_SIZE <? i_size x) = true.
Proof.
  intros He%lookup_lt_Some. destruct d_id as (_ & _ & _ & _ & _ & ->). apply Z.ltb_lt. change DIRENT_SIZE with 16. lia.
Qed.
Lemma enough : (length es < dir_fuel (i_size x))%nat.
Proof. destruct d_id as (_ & _ & _ & _ & _ & ->). unfold dir_fuel. rewrite Z.div_mul by done. lia. Qed.

(** Writing entry [j], or one more. *)
Lemma write_entry_wp j e st tr (Q : Z -> world (fstate St U) -> Prop) : bs_rep st t -> (j <= length es)%nat ->
  Z.of_nat j * DIRENT_SIZE + DIRENT_SIZE <= MAXFILE * BSIZE -> length (de_name e) = DIRSIZn ->
  (forall r st' tr' t' i', bs_rep st' t' -> write_result sb (dirent_encode e) (Z.of_nat j * DIRENT_SIZE) DIRENT_SIZE t x r t' i' ->
     Q r (fw tr' st' (<[k := i']> il))) ->
  wp (writei k (FromKernel (dirent_encode e)) (Z.of_nat j * DIRENT_SIZE) DIRENT_SIZE) Q (fw tr st il).
Proof.
  intros R Hj Hmax He HQ. destruct d_id as (Hdev & Hlive & Hx & _ & Hf & Hs). rewrite <- (list_insert_id il k x Hk) at 1.
  pose proof (length_dirent_encode e He) as Hl. change DIRENT_SIZE with 16 in *.
  apply (writei_wp u sb cwd pid il k (FromKernel (dirent_encode e)) (dirent_encode e) (Z.of_nat j * 16) 16 t x); try done; try lia.
  - by eapply lookup_lt_Some.
  - apply (tk_fs _ _ Htree).
  - rewrite Hx. by apply (tk_file _ _ Htree).
  - eapply budget_le; [|exact Hbud]. unfold turns. rewrite (proj2 (Z.ltb_lt _ _)) by lia. blocks.
  - intros r w (tr' & st' & t' & i' & -> & R' & Hw). by apply (HQ r st' tr' t' i').
Qed.

(** What an operation on the directory leaves. *)
Record dir_after (t' : tstate) (il' : list inode) : Prop := {
  da_tree : tree_ok sb t';
  da_table : table_ok sb pid t' (Some k) il';
  da_refs : forall m, refs il' m = refs il m;
  da_files : forall m, live sb t m -> m <> n -> live sb t' m /\ content (t_view t') (as_inode sb t' m) = content (t_view t) (as_inode sb t m)
}.

Lemma dir_after_refl : dir_after t il.
Proof. by constructor. Qed.

Lemma dir_after_write j e r t' i' : (j <= length es)%nat -> 0 <= de_inum e < 2 ^ 16 -> length (de_name e) = DIRSIZn ->
  de_inum e = 0 \/ alive sb t (de_inum e) /\ find_entry (name_of (de_name e)) es = None ->
  write_result sb (dirent_encode e) (Z.of_nat j * DIRENT_SIZE) DIRENT_SIZE t x r t' i' ->
  dir_after t' (<[k := i']> il) /\
  ((r = DIRENT_SIZE /\ entries sb t' n = enter j e es) \/
   (r <> DIRENT_SIZE /\ j = length es /\ free_blocks sb (t_view t') = [] /\ entries sb t' n = es)).
Proof.
  intros Hj Hi He Hok Hw. destruct d_id as (Hdev & Hlive & Hx & _ & Hf & Hs).
  pose proof (aw_all_or_nothing sb t t' x i' _ r j e Hj eq_refl (conj Hi He) Hw) as Hr.
  split; [constructor|].
  - by apply (aw_tree sb t t' x i' _ r j e Htree Hlive Hdir Hdev Hx Hj eq_refl (conj Hi He) Hw).
  - by apply (aw_table sb t t' x i' _ r j e Hdev eq_refl Hw).
  - intros m. apply (count_same _ _ _ x); [done|]. apply holds_same; by rewrite (ws_same _ _ _ _ _ _ _ _ _ Hw).
  - intros m Hm Hne. split; [by apply (aw_live sb t t' x i' _ r e Hdev Hx Hw)|by apply (aw_content sb t t' x i' _ r e Htree Hlive Hdev Hx Hw)].
  - rewrite (aw_dir sb t t' x i' _ r j e Htree Hlive Hdir Hdev Hx Hj eq_refl (conj Hi He) Hw). destruct Hr as [->| ->]; [right|by left].
    split; [done|]. pose proof (ws_inside _ _ _ _ _ _ _ _ _ Hw) as Hin. rewrite Hs in Hin. change DIRENT_SIZE with 16 in *.
    split; [lia|]. split; [by apply (ws_full _ _ _ _ _ _ _ _ _ Hw)|done].
Qed.

(** ** dirlink() *)

Lemma find_free_wp st tr (Q : Z -> world (fstate St U) -> Prop) : bs_rep st t ->
  (forall st' tr', bs_rep st' t -> Q (Z.of_nat (first_free es) * DIRENT_SIZE) (fw tr' st' il)) ->
  wp (iter (dir_fuel (i_size x)) (dirlink_step k (i_size x)) 0) Q (fw tr st il).
Proof.
  intros R HQ. eapply (dir_scan_wp _ (fun e => de_inum e = 0)); [apply enough|exact R| |].
  - intros st1 tr1 R1 Hall. unfold dirlink_step. rewrite past_entries. cbn [negb]. wp_step. rewrite <- (first_free_none es) by exact Hall. by apply HQ.
  - intros j e st1 tr1 R1 He Hno. unfold dirlink_step. rewrite (at_entry j e He). cbn [negb]. wp_step. eapply read_entry_wp; [exact R1|exact He|].
    intros st2 tr2 R2. destruct (Z.eqb_spec (de_inum e) 0) as [E|E]; wp_step.
    + rewrite <- (first_free_at es j e He E Hno). by apply HQ.
    + split; [done|]. split; [done|]. by exists st2, tr2.
Qed.

(** The names of the directory after it. *)
Definition dirlink_post (name : list Z) (inum r : Z) (w : world (fstate St U)) : Prop :=
  exists st' tr' t' il', w = fw tr' st' il' /\ bs_rep st' t' /\ dir_after t' il' /\
  match dir_find sb t n name with
  | Some _ => r = -1 /\ t' = t
  | None =>
      (r = 0 /\ forall o, dir_find sb t' n o = if decide (o = name) then Some inum else dir_find sb t n o) \/
      (r = -1 /\ free_blocks sb (t_view t') = [] /\ forall o, dir_find sb t' n o = dir_find sb t n o)
  end.

Lemma dirlink_wp name inum st tr : bs_rep st t -> length name = DIRSIZn -> 0 < idle il -> 0 < inum < 2 ^ 16 -> alive sb t inum ->
  i_size x + DIRENT_SIZE <= MAXFILE * BSIZE ->
  wp (dirlink k name inum) (dirlink_post (name_of name) inum) (fw tr st il).
Proof.
  intros R Hname Hidle Hinum Hal Hmax. unfold dirlink. wp_step.
  apply (dirlookup_wp u sb cwd pid t d_reader (tk_fs _ _ Htree) (tk_dirs _ _ Htree) il k x); try done.
  - intros Hnone st1 tr1 R1. wp_step. eapply geti_wp; [exact Hk|]. wp_step. apply find_free_wp; [exact R1|]. intros st2 tr2 R2.
    destruct (strncpy name DIRSIZn) as [nm|] eqn:Enm; [|rewrite strncpy_spec in Enm by (apply readable_length; lia); done].
    destruct (strncpy_cut DIRSIZn name nm) as [Hl Hcut]; [apply readable_length; lia|done|]. wp_step. eapply wp_the; [reflexivity|].
    destruct d_id as (_ & _ & _ & _ & _ & Hs). pose proof (first_free_le es) as Hle. rewrite u16_small by lia. wp_step.
    apply write_entry_wp; [exact R2|exact Hle|change DIRENT_SIZE with 16 in *; lia|exact Hl|]. intros r st3 tr3 t' i' R3 Hw.
    destruct (dir_after_write (first_free es) (Dirent inum nm) r t' i') as [Ha He]; [exact Hle|cbn; lia|exact Hl| |exact Hw|].
    { right. split; [done|]. unfold name_of in *. cbn [de_name]. by rewrite Hcut. }
    destruct He as [[-> He]|(Hr & _ & Hfull & He)].
    + rewrite Z.eqb_refl. cbn [negb]. wp_step. exists st3, tr3, t', (<[k := i']> il). split; [done|]. split; [done|]. split; [done|].
      rewrite Hnone. left. split; [done|]. intros o. unfold dir_find in *. rewrite He.
      replace (name_of name) with (name_of nm) in * by exact Hcut. apply find_enter_free; [exact Hnone|lia].
    + rewrite (proj2 (Z.eqb_neq _ _) Hr). cbn [negb]. wp_step. exists st3, tr3, t', (<[k := i']> il). split; [done|]. split; [done|]. split; [done|].
      rewrite Hnone. right. split; [done|]. split; [done|]. intros o. unfold dir_find. by rewrite He.
  - intros m k' off st1 tr1 il1 Hfind (Hm1 & Hm2 & Hm3) R1 (Ht1 & (y & Hy & Hyn & Hyr) & Hrefs & _). wp_step.
    apply (iput_wp u sb cwd pid t (Some k) il1 k' y); [exact Ht1|exact Hy|exact Hyr|by rewrite Hyn|]. intros il2 Ht2 Hrefs2 _ _ _.
    wp_step. exists st1, tr1, t, il2. split; [done|]. split; [done|]. rewrite Hfind. split; [|done]. constructor; try done.
    intros m'. rewrite Hrefs2, Hrefs, Hyn. lia.
Qed.

(** ** dirunlink() *)

Definition dirunlink_post (name : list Z) (r : Z) (w : world (fstate St U)) : Prop :=
  exists st' tr' t' il', w = fw tr' st' il' /\ bs_rep st' t' /\ dir_after t' il' /\
  match dir_find sb t n name with
  | None => r = -1 /\ t' = t
  | Some _ => r = 0 /\ forall o, dir_find sb t' n o = if decide (o = name) then None else dir_find sb t n o
  end.

Lemma dirunlink_wp name st tr : bs_rep st t -> length name = DIRSIZn ->
  wp (dirunlink k name) (dirunlink_post (name_of name)) (fw tr st il).
Proof.
  intros R Hname. destruct d_id as (_ & Hlive & _ & _ & Hf & Hs). pose proof (fo_size _ _ _ Hf) as Hmax.
  unfold dirunlink. wp_step. eapply geti_wp; [exact Hk|].
  eapply (dir_scan_wp _ (fun e => is_entry (name_of name) e = true)); [apply enough|exact R| |].
  - intros st1 tr1 R1 Hall. unfold dirunlink_step. rewrite past_entries. cbn [negb]. wp_step. exists st1, tr1, t, il. split; [done|]. split; [done|].
    split; [apply dir_after_refl|]. unfold dir_find. rewrite find_none; [done|]. intros e He. apply not_true_is_false. rewrite list.Forall_forall in Hall. by apply Hall.
  - intros j e st1 tr1 R1 He Hno. unfold dirunlink_step. rewrite (at_entry j e He). cbn [negb]. wp_step. eapply read_entry_wp; [exact R1|exact He|].
    intros st2 tr2 R2. assert (length (de_name e) = DIRSIZn) as Hl.
    { rewrite <- (entry_at_es j e He). unfold entry_at, dirent_decode. cbn. apply length_slice. by rewrite length_file_bytes. }
    destruct (strncmp_spec DIRSIZn (de_name e) name) as (c & Ec & Hc); [apply readable_length; lia|apply readable_length; lia|].
    wp_step. eapply wp_the; [exact Ec|]. fold (name_of name) in Hc. fold (name_of (de_name e)) in Hc.
    assert ((c =? 0) && negb (de_inum e =? 0) = is_entry (name_of name) e) as ->.
    { unfold is_entry. rewrite andb_comm. f_equal. apply eq_true_iff_eq. rewrite Z.eqb_eq, bool_decide_eq_true. exact Hc. }
    destruct (is_entry (name_of name) e) eqn:Ee; [|wp_step; split; [done|]; split; [done|]; by exists st2, tr2].
    pose proof (find_index_at _ _ _ _ He Ee Hno) as Hidx. pose proof (lookup_lt_Some _ _ _ He) as Hlt. wp_step.
    apply write_entry_wp; [exact R2|lia|rewrite Hs in Hmax; change DIRENT_SIZE with 16 in *; lia|exact Hl|]. intros r st3 tr3 t' i' R3 Hw.
    destruct (dir_after_write j (Dirent 0 (de_name e)) r t' i') as [Ha Hent]; [lia|cbn; lia|exact Hl|by left|exact Hw|].
    destruct Hent as [[-> Hent]|(_ & -> & _)]; [|lia]. rewrite Z.eqb_refl. cbn [negb]. wp_step. exists st3, tr3, t', (<[k := i']> il).
    split; [done|]. split; [done|]. split; [done|]. unfold dir_find at 1. destruct (find_index_some _ _ _ Hidx) as (e' & _ & _ & ->). split; [done|].
    intros o. unfold dir_find. rewrite Hent. apply find_enter_clear; [by apply (tk_once _ _ Htree)|done].
Qed.
End Dir.

(** ** The claims *)

(** C15. dirlink() adds a name to a directory. If the name is there it answers -1 and changes
    nothing; otherwise it answers 0, and afterwards the name leads to the inode and every
    other name of the directory to what it did before - or it answers -1 because the directory
    had to grow and the disk has no free block, and then every name keeps its meaning. In each case
    the other files and directories keep their bytes, no blocks are shared, no name is twice in
    the directory, the inode table agrees with the disk, and no reference is gained or lost. *)
Theorem dirlink_correct {St U} `{BlockStore St} `{UserMem U} (u : U) sb cwd pid t il k x name inum st tr
    (Htree : tree_ok sb t) (Htab : table_ok sb pid t (Some k) il) (Hk : il !! k = Some x) (Href : 0 < i_ref x) (Hval : i_valid x = true)
    (Hdir : d_type (disk_inode sb t (i_inum x)) = T_DIR) (Hopen : t_open t = ∅) (Hbud : budget sb 1 x t) (Hrep : bs_rep st t)
    (Hname : length name = DIRSIZn) (Hidle : 0 < idle il) (Hinum : 0 < inum < 2 ^ 16) (Hal : alive sb t inum)
    (Hmax : i_size x + DIRENT_SIZE <= MAXFILE * BSIZE) :
  wp (dirlink k name inum) (dirlink_post u sb cwd pid t il k x (name_of name) inum) (fw u sb cwd pid tr st il).
Proof. by apply dirlink_wp. Qed.

(** C21. dirunlink() takes a name out of a directory. If the name is not there it answers -1 and
    changes nothing; otherwise it answers 0 - it never lacks a block - and afterwards
    the name is not there and every other name leads to what it did before; the other files,
    the inode table and the references are as for dirlink(). *)
Theorem dirunlink_correct {St U} `{BlockStore St} `{UserMem U} (u : U) sb cwd pid t il k x name st tr
    (Htree : tree_ok sb t) (Htab : table_ok sb pid t (Some k) il) (Hk : il !! k = Some x) (Href : 0 < i_ref x) (Hval : i_valid x = true)
    (Hdir : d_type (disk_inode sb t (i_inum x)) = T_DIR) (Hopen : t_open t = ∅) (Hbud : budget sb 1 x t) (Hrep : bs_rep st t)
    (Hname : length name = DIRSIZn) :
  wp (dirunlink k name) (dirunlink_post u sb cwd pid t il k x (name_of name)) (fw u sb cwd pid tr st il).
Proof. by apply dirunlink_wp. Qed.

(** ** On the small image *)

#[local] Opaque demo_store.

Section DemoDir.
Context (t : tstate).
Hypothesis Hv : forall x, t_view t !! x = if decide (2 <= x < 10) then None else if decide (0 <= x) then demo_img !! Z.to_nat x else None.

Lemma demo_live n : live demo_sb t n -> n = 1.
Proof. intros [Hn Ht]. cbn in Hn. rewrite demo_disk_inode in Ht by (done || lia). by destruct (decide (n = 1)). Qed.

Lemma demo_tree : tree_ok demo_sb t.
Proof.
  constructor.
  - exact (demo_fs_ok _ Hv).
  - exact (demo_dirs_ok t Hv).
  - intros n ->%demo_live. rewrite demo_as_inode, demo_disk_inode by (done || lia). pose proof (demo_file_ok _ Hv) as Hf.
    split; [by destruct Hf; split|]. exact demo_dinode_ok.
  - intros n m y ->%demo_live ->%demo_live. done.
  - intros n ->%demo_live _. rewrite demo_entries by done.
    intros [|[|i]] [|[|j]] a b Ha Hb; cbn in Ha, Hb; simplify_eq; intros _ _ E; [done|vm_compute in E; done|vm_compute in E; done|done].
Qed.

Lemma demo_root_table : table_ok demo_sb 1 t (Some 0%nat) demo_inodes.
Proof.
  apply (table_set demo_sb 1 t None (Some 0%nat) demo_il 0 (Inode 0 0 0 unlocked false 0 0 0 0 0 (replicate NADDRS 0))).
  - exact (demo_table t).
  - reflexivity.
  - vm_compute. discriminate.
  - intros _. split; [done|]. split; [vm_compute; split; [discriminate|reflexivity]|]. split; [intros _; by rewrite demo_disk_inode by (done || lia)|].
    intros j z Hj _ Hz. unfold demo_il in Hj. apply lookup_replicate in Hj as [-> _]. by vm_compute in Hz.
  - reflexivity.
  - intros j Hj. split; [done|congruence].
Qed.
End DemoDir.

Definition demo_name (c : Z) : list Z := c :: replicate 13 0.

Lemma dirlink_correct_witness : exists t, bs_rep demo_store t /\
  wp (dirlink 0 (demo_name 97) 1) (dirlink_post tt demo_sb 0 1 t demo_inodes 0 demo_root_inode [97] 1) (fw tt demo_sb 0 1 [] demo_store demo_inodes) /\
  dir_find demo_sb t 1 [97] = None.
Proof.
  destruct demo_store_rep as (t & R & Ho & Hd & Hl & Hout & Hv). exists t. split; [exact R|]. split.
  - apply (dirlink_correct tt demo_sb 0 1 t demo_inodes 0 demo_root_inode (demo_name 97) 1 demo_store []).
    + exact (demo_tree t Hv).
    + exact (demo_root_table t Hv).
    + reflexivity.
    + reflexivity.
    + reflexivity.
    + change (i_inum demo_root_inode) with 1. rewrite demo_disk_inode by (done || lia). reflexivity.
    + exact Ho.
    + apply (budget_le _ 3); [lia|]. exact (demo_budget t Ho Hd Hl Hout).
    + exact R.
    + reflexivity.
    + vm_compute. reflexivity.
    + lia.
    + exact (demo_alive t Hv).
    + vm_compute. discriminate.
  - unfold dir_find. rewrite demo_entries by done. reflexivity.
Defined.

Lemma dirunlink_correct_witness : exists t, bs_rep demo_store t /\
  wp (dirunlink 0 (demo_name 46)) (dirunlink_post tt demo_sb 0 1 t demo_inodes 0 demo_root_inode [46]) (fw tt demo_sb 0 1 [] demo_store demo_inodes) /\
  dir_find demo_sb t 1 [46] = Some 1.
Proof.
  destruct demo_store_rep as (t & R & Ho & Hd & Hl & Hout & Hv). exists t. split; [exact R|]. split.
  - apply (dirunlink_correct tt demo_sb 0 1 t demo_inodes 0 demo_root_inode (demo_name 46) demo_store []).
    + exact (demo_tree t Hv).
    + exact (demo_root_table t Hv).
    + reflexivity.
    + reflexivity.
    + reflexivity.
    + change (i_inum demo_root_inode) with 1. rewrite demo_disk_inode by (done || lia). reflexivity.
    + exact Ho.
    + apply (budget_le _ 3); [lia|]. exact (demo_budget t Ho Hd Hl Hout).
    + exact R.
    + reflexivity.
  - unfold dir_find. rewrite demo_entries by done. reflexivity.
Defined.
