(* ===== verification/FsTrunc.v ===== *)
(** * Giving a file back (itrunc() of kernel/fs.c, and iput() of the last reference)

    itrunc() frees the blocks of a file, each once, and nothing else; iput() of the last
    reference to an inode without links frees the inode as well. *)

From S2P Require Import Prelude Machine CString Sleeplock Bio Store Log LogTxn FsDisk Fs Demo FsAlloc FsFile FsWrite FsPath FsDir.

Open Scope Z_scope.

Lemma owned_iff v i x : x <> 0 /\ (ind_addr i = x \/ Exists (fun n => addr_at v i n = x) (seqZ 0 MAXFILE)) <-> owned v i x.
Proof.
  unfold owned. rewrite list.Exists_exists. setoid_rewrite elem_of_seqZ. unfold file_range. split; intros (Hx & [E|(n & Hn & E)]); (split; [done|]); try (by left);
    right; exists n; (split; [lia|done]).
Qed.
#[export] Instance owned_dec v i x : Decision (owned v i x).
Proof.
  destruct (decide (x <> 0 /\ (ind_addr i = x \/ Exists (fun n => addr_at v i n = x) (seqZ 0 MAXFILE)))); [left|right]; by rewrite <- owned_iff.
Defined.

Section Trunc.
Context {St U : Type} `{BlockStore St} `{UserMem U}.
Context (u : U) (sb : superblock) (cwd : nat) (pid : Z).
Abbreviation fw := (fw u sb cwd pid).
Context (il : list inode) (ip : nat) (t0 : tstate) (i0 : inode).
Hypothesis Hip : (ip < length il)%nat.
Hypothesis Hfs0 : fs_ok sb (t_view t0).
Hypothesis Hf0 : file_ok sb (t_view t0) i0.
Hypothesis Hd0 : dinode_ok (dinode_of i0).
Hypothesis Hopen0 : t_open t0 = ∅.
Hypothesis Hbud : budget sb 1 i0 t0.

(** The blocks of [P] have been freed. *)
Record freed (P : Z -> Prop) (t : tstate) : Prop := Freed {
  fr_fs : fs_ok sb (t_view t);
  fr_out : forall b, 0 <= b < sb_size sb -> ~ P b -> block_used sb (t_view t) b = block_used sb (t_view t0) b;
  fr_in : forall b, 0 <= b < sb_size sb -> P b -> block_used sb (t_view t) b = false;
  fr_view : forall y, not_bitmap sb y -> t_view t !! y = t_view t0 !! y;
  fr_cost : (cost sb i0 t <= cost sb i0 t0)%nat;
  fr_dirty : t_dirty t = ∅;
  fr_txn : t_out t = t_out t0
}.

Lemma freed_start : freed (fun _ => False) t0.
Proof. constructor; try done. apply Hbud. Qed.
Lemma freed_iff P P' t : (forall b, P b <-> P' b) -> freed P t -> freed P' t.
Proof. intros HP [A1 A2 A3 A4 A5 A6 A7]. constructor; try done; intros b Hb; rewrite <- HP; auto. Qed.
Lemma freed_opened P x i t : freed P (t_opened x i t) <-> freed P t.
Proof. split; intros [A1 A2 A3 A4 A5 A6 A7]; by constructor. Qed.
Lemma freed_closed P x t : freed P (t_closed x t) <-> freed P t.
Proof. split; intros [A1 A2 A3 A4 A5 A6 A7]; by constructor. Qed.

Lemma freed_step P t b : freed P t -> b <> 0 -> data_block sb (t_view t0) b -> ~ P b -> freed (fun y => P y \/ y = b) (t_free sb b t).
Proof.
  intros [A1 A2 A3 A4 A5 A6 A7] Hb0 [D1 D2 D3 D4 D5] Hn.
  assert (forall b', block_used sb (t_view (t_free sb b t)) b' = negb (bool_decide (b = b')) && block_used sb (t_view t) b') as Hu
    by (intros b'; apply t_free_used; [apply A1|done]).
  assert (is_Some (t_view t !! b)) as Hs by (rewrite A4; done).
  constructor.
  - destruct A1 as [B1 B2 B3]. constructor; [by apply t_free_ok|intros Hp; rewrite Hu, B2 by done; by rewrite bool_decide_eq_false_2|].
    intros k Hk. destruct (B3 k Hk) as (E1 & E2 & E3 & E4). split; [|split; [done|split; [|done]]].
    + unfold t_free, t_update. cbn [t_view]. by apply is_Some_insert.
    + rewrite Hu, E3. rewrite bool_decide_eq_false_2; [done|]. by apply D5.
  - intros b' Hb' Hno. rewrite Hu, bool_decide_eq_false_2 by (intros ->; tauto). cbn. apply A2; tauto.
  - intros b' Hb' [HP| ->]; rewrite Hu; [rewrite A3 by done; apply andb_false_r|by rewrite bool_decide_eq_true_2].
  - intros y Hy. unfold t_free, t_update. cbn [t_view]. rewrite lookup_insert_ne by (intros E; by apply (Hy b D1)). by apply A4.
  - etransitivity; [|exact A5]. unfold t_free. by apply cost_bitmap.
  - done.
  - done.
Qed.

(** bfree() of one more block of the file; at most one buffer is held. *)
Lemma free_one_wp P st tr l t b (Q : unit -> world (fstate St U) -> Prop) : bs_rep st t -> freed P t -> (size (t_open t) <= 1)%nat ->
  b <> 0 -> data_block sb (t_view t0) b -> ~ P b -> t_open t !! BBLOCK b sb = None ->
  (forall st' tr', bs_rep st' (t_free sb b t) -> freed (fun y => P y \/ y = b) (t_free sb b t) -> Q tt (fw tr' st' l)) ->
  wp (bfree ROOTDEV b) Q (fw tr st l).
Proof.
  intros R Hf Hsz Hb0 Hd Hn Ho HQ. pose proof Hd as [D1 D2 D3 D4 D5]. destruct Hbud as (B1 & B2 & B3 & B4). rewrite Hopen0, map_size_empty in B2.
  apply (bfree_wp u sb cwd pid st l tr t b); [done| |apply Hf|done|done|by rewrite (fr_out _ _ Hf)|].
  - pose proof (fr_cost _ _ Hf) as Hc. unfold cost in *. split; [lia|]. split; [lia|]. split; [apply Hf|]. by rewrite (fr_txn _ _ Hf).
  - intros st' tr' R'. apply HQ; [done|]. by apply freed_step.
Qed.

(** The blocks of the file below block [n]. *)
Definition low (n b : Z) : Prop := b <> 0 /\ exists m, 0 <= m < n /\ addr_at (t_view t0) i0 m = b.

Lemma low_same n : 0 <= n -> addr_at (t_view t0) i0 n = 0 -> forall b, low n b <-> low (n + 1) b.
Proof.
  intros Hn E b. unfold low. split; intros (Hb & m & Hm & Em); (split; [done|]).
  - exists m. split; [lia|done].
  - exists m. destruct (decide (m = n)) as [->|]; [congruence|]. split; [lia|done].
Qed.
Lemma low_next n : 0 <= n -> addr_at (t_view t0) i0 n <> 0 -> forall b, low n b \/ b = addr_at (t_view t0) i0 n <-> low (n + 1) b.
Proof.
  intros Hn E b. unfold low. split.
  - intros [(Hb & m & Hm & Em)| ->]; (split; [done|]); [exists m|exists n]; (split; [lia|done]).
  - intros (Hb & m & Hm & Em). destruct (decide (m = n)) as [->|]; [by right|left]. split; [done|]. exists m. split; [lia|done].
Qed.
Lemma low_new n : file_range n -> addr_at (t_view t0) i0 n <> 0 -> ~ low n (addr_at (t_view t0) i0 n).
Proof.
  intros Hn E (_ & m & Hm & Em). assert (m = n); [|lia]. apply (fo_inj _ _ _ Hf0); [unfold file_range in *; lia|done|done|congruence].
Qed.

(** The inode with its first [k] addresses cleared. *)
Definition cleared (k : nat) : inode := i_set_addrs (replicate k 0 ++ drop k (i_addrs i0)) i0.

Lemma cleared_lookup k : (k < NADDRS)%nat -> i_addrs (cleared k) !! k = Some (i_addrs i0 !!! k).
Proof.
  intros Hk. cbn. rewrite lookup_app_r by (by rewrite length_replicate). rewrite length_replicate, Nat.sub_diag, lookup_drop, Nat.add_0_r.
  apply list_lookup_lookup_total_lt. rewrite (fo_len _ _ _ Hf0). done.
Qed.
Lemma cleared_set k : (k < NADDRS)%nat -> i_set_addr k 0 (cleared k) = cleared (S k).
Proof.
  intros Hk. unfold cleared, i_set_addr, i_set_addrs. cbn [i_addrs i_dev i_inum i_ref i_lock i_valid i_type i_major i_minor i_nlink i_size]. f_equal.
  rewrite insert_app_r_alt by (by rewrite length_replicate). rewrite length_replicate, Nat.sub_diag.
  destruct (lookup_lt_is_Some_2 (i_addrs i0) k) as [a Ha]; [by rewrite (fo_len _ _ _ Hf0)|]. rewrite (drop_S _ _ _ Ha). cbn.
  change (0 :: replicate k 0 ++ drop (S k) (i_addrs i0)) with (replicate (S k) 0 ++ drop (S k) (i_addrs i0)).
  rewrite replicate_S_end, <- app_assoc. done.
Qed.
Lemma cleared_same k : (k < NADDRS)%nat -> i_addrs i0 !!! k = 0 -> cleared k = cleared (S k).
Proof.
  intros Hk E. rewrite <- cleared_set by done. unfold i_set_addr. rewrite list_insert_id by (by rewrite cleared_lookup, E). by destruct i0.
Qed.

(** The loop over the direct blocks. *)
Definition direct_freed (k : nat) (w : world (fstate St U)) : Prop :=
  exists tr st t, w = fw tr st (<[ip := cleared k]> il) /\ bs_rep st t /\ freed (low (Z.of_nat k)) t /\ t_open t = ∅.

Lemma direct_wp k w : (k < Z.to_nat NDIRECT)%nat -> direct_freed k w ->
  wp (let* i := geti ip in let* addr := the (i_addrs i !! k) in
      if negb (addr =? 0) then bfree (i_dev i) addr ;; seti ip (i_set_addr k 0) else ret tt) (fun _ => direct_freed (S k)) w.
Proof.
  intros Hk (tr & st & t & -> & R & Hf & Ho). change (Z.to_nat NDIRECT) with 12%nat in Hk.
  assert (addr_at (t_view t0) i0 (Z.of_nat k) = i_addrs i0 !!! k) as Ea.
  { unfold addr_at. rewrite (proj2 (Z.ltb_lt _ _)) by (change NDIRECT with 12; lia). by rewrite Nat2Z.id. }
  assert (file_range (Z.of_nat k)) as Hr by (unfold file_range; change MAXFILE with 268; lia).
  assert (k < NADDRS)%nat as Hka by (change NADDRS with 13%nat; lia).
  wp_step. eapply geti_wp; [by apply lookup_ip|]. wp_step. eapply wp_the; [by apply cleared_lookup|]. rewrite <- Ea.
  destruct (Z.eqb_spec (addr_at (t_view t0) i0 (Z.of_nat k)) 0) as [E|E]; cbn [negb].
  - wp_step. exists tr, st, t. rewrite <- cleared_same; [|done|congruence]. split; [done|]. split; [done|]. split; [|done].
    eapply freed_iff; [|exact Hf]. replace (Z.of_nat (S k)) with (Z.of_nat k + 1) by lia. apply low_same; [lia|done].
  - change (i_dev (cleared k)) with (i_dev i0). rewrite (fo_dev _ _ _ Hf0). wp_step.
    eapply free_one_wp; [exact R|exact Hf|rewrite Ho, map_size_empty; lia|done|by apply (fo_addr _ _ _ Hf0)|by apply low_new|by rewrite Ho|].
    intros st' tr' R' Hf'. eapply seti_wp; [by apply lookup_ip|]. rewrite list_insert_insert_eq, cleared_set by done.
    eexists _, _, _. split; [done|]. split; [exact R'|]. split; [|done]. eapply freed_iff; [|exact Hf'].
    replace (Z.of_nat (S k)) with (Z.of_nat k + 1) by lia. apply low_next; [lia|done].
Qed.

(** The loop over the entries of the indirect block, which is in buffer [bp]. *)
Abbreviation ind := (ind_addr i0).

Definition entries_freed (bp j : nat) (w : world (fstate St U)) : Prop :=
  exists tr st t, w = fw tr st (<[ip := cleared (Z.to_nat NDIRECT)]> il) /\ bs_rep st t /\ freed (low (NDIRECT + Z.of_nat j)) t /\ t_open t = {[ ind := bp ]}.

Lemma entry_wp bp j w : ind <> 0 -> (j < Z.to_nat NINDIRECT)%nat -> entries_freed bp j w ->
  wp (let* d := f_data bp in let addr := get_u32 (4 * j) d in
      if negb (addr =? 0) then bfree ROOTDEV addr else ret tt) (fun _ => entries_freed bp (S j)) w.
Proof.
  intros Hi Hj (tr & st & t & -> & R & Hf & Ho). change (Z.to_nat NINDIRECT) with 256%nat in Hj. pose proof (fo_ind _ _ _ Hf0 Hi) as Hdi.
  destruct (db_some _ _ _ Hdi) as [d Hd]. set (m := NDIRECT + Z.of_nat j) in *.
  assert (addr_at (t_view t0) i0 m = get_u32 (4 * j) d) as Ea.
  { unfold addr_at, m. rewrite (proj2 (Z.ltb_ge _ _)) by lia. rewrite (proj2 (Z.eqb_neq _ _)), Hd by done. cbn [default from_option id]. do 2 f_equal. lia. }
  assert (file_range m) as Hr by (unfold file_range, m; change MAXFILE with 268; change NDIRECT with 12; lia).
  assert (0 <= m) as Hm by apply Hr. assert (NDIRECT + Z.of_nat (S j) = m + 1) as Es by (unfold m; lia).
  wp_step. eapply f_data_wp; [exact R|rewrite Ho; apply lookup_singleton_eq|rewrite (fr_view _ _ Hf); [exact Hd|exact (db_bitmap _ _ _ Hdi)]|]. cbv zeta. rewrite <- Ea.
  destruct (Z.eqb_spec (addr_at (t_view t0) i0 m) 0) as [E|E]; cbn [negb].
  - wp_step. exists tr, st, t. rewrite Es. split; [done|]. split; [done|]. split; [|done]. eapply freed_iff; [|exact Hf]. by apply low_same.
  - destruct (fo_addr _ _ _ Hf0 m Hr E) as [Hda _].
    eapply free_one_wp; [exact R|exact Hf|rewrite Ho, map_size_singleton; lia|done|done|by apply low_new| |].
    { rewrite Ho. apply lookup_singleton_ne. apply (db_bitmap _ _ _ Hdi), Hda. }
    intros st' tr' R' Hf'. eexists _, _, _. rewrite Es. split; [done|]. split; [exact R'|]. split; [|done]. eapply freed_iff; [|exact Hf']. by apply low_next.
Qed.

(** All blocks of the file. *)
Lemma owned_low b : owned (t_view t0) i0 b <-> b <> 0 /\ (low MAXFILE b \/ b = ind).
Proof.
  unfold owned, low, file_range. split.
  - intros (Hb & [<-|(m & Hm & Em)]); (split; [done|]); [by right|left]. split; [done|]. by exists m.
  - intros (Hb & [(_ & m & Hm & Em)| ->]); (split; [done|]); [right; by exists m|by left].
Qed.
Lemma low_no_ind b : ind = 0 -> low NDIRECT b <-> owned (t_view t0) i0 b.
Proof.
  intros Hi. rewrite owned_low. unfold low. change NDIRECT with 12. change MAXFILE with 268. split.
  - intros (Hb & m & Hm & Em). split; [done|]. left. split; [done|]. exists m. split; [lia|done].
  - intros (Hb & [(_ & m & Hm & Em)| ->]); [|done]. split; [done|]. destruct (decide (m < 12)); [exists m; split; [lia|done]|].
    unfold addr_at in Em. rewrite (proj2 (Z.ltb_ge _ _)) in Em by (change NDIRECT with 12; lia). by rewrite Hi in Em.
Qed.

(** The inode without blocks. *)
Definition emptied : inode := i_set_size 0 (i_set_addrs (replicate NADDRS 0) i0).

Definition all_freed (w : world (fstate St U)) : Prop :=
  exists tr st t, w = fw tr st (<[ip := i_set_addrs (replicate NADDRS 0) i0]> il) /\ bs_rep st t /\ freed (owned (t_view t0) i0) t /\ t_open t = ∅.

Lemma cleared_all : cleared NADDRS = i_set_addrs (replicate NADDRS 0) i0.
Proof. unfold cleared. rewrite drop_ge by (rewrite (fo_len _ _ _ Hf0); lia). by rewrite app_nil_r. Qed.

Lemma indirect_wp tr st t : bs_rep st t -> freed (low NDIRECT) t -> t_open t = ∅ ->
  wp (if negb (ind =? 0) then
        let* bp := f_bread ROOTDEV ind in
        for_each (seq 0 (Z.to_nat NINDIRECT)) (fun j => let* d := f_data bp in
          let addr := get_u32 (4 * j) d in if negb (addr =? 0) then bfree ROOTDEV addr else ret tt) ;;
        f_brelse bp ;; bfree ROOTDEV ind ;; seti ip (i_set_addr (Z.to_nat NDIRECT) 0)
      else ret tt) (fun _ => all_freed) (fw tr st (<[ip := cleared (Z.to_nat NDIRECT)]> il)).
Proof.
  intros R Hf Ho. destruct (Z.eqb_spec ind 0) as [E|E]; cbn [negb].
  - wp_step. exists tr, st, t. rewrite <- cleared_all. change NADDRS with (S (Z.to_nat NDIRECT)) at 1. rewrite <- cleared_same; [|apply Nat.ltb_lt; reflexivity|exact E].
    split; [done|]. split; [done|]. split; [|done]. eapply freed_iff; [|exact Hf]. intros b. by apply low_no_ind.
  - pose proof (fo_ind _ _ _ Hf0 E) as Hdi. wp_step. eapply f_bread_wp; [exact R| |].
    { destruct Hbud as (_ & B2 & _). rewrite Hopen0, map_size_empty in B2. pose proof (fr_cost _ _ Hf) as Hc. unfold cost in *. split; [|split].
      - rewrite (fr_view _ _ Hf) by exact (db_bitmap _ _ _ Hdi). apply Hdi.
      - by rewrite Ho.
      - right. rewrite Ho, map_size_empty. lia. }
    intros bp st1 tr1 R1. wp_step. eapply (wp_for_seq (entries_freed bp)).
    { exists tr1, st1, (t_opened ind bp t). split; [done|]. split; [done|]. split; [by apply freed_opened; rewrite Z.add_0_r|]. cbn. by rewrite Ho, insert_empty. }
    { intros j w Hj. apply entry_wp; [done|lia]. }
    intros w (tr2 & st2 & t2 & -> & R2 & Hf2 & Ho2). change (NDIRECT + Z.of_nat (0 + Z.to_nat NINDIRECT)) with MAXFILE in Hf2.
    wp_step. eapply f_brelse_wp; [exact R2|rewrite Ho2; apply lookup_singleton_eq|apply none_dirty, Hf2|]. intros st3 tr3 R3.
    assert (t_open (t_closed ind t2) = ∅) as Ho3 by (cbn; rewrite Ho2; apply delete_singleton_eq).
    wp_step. eapply (free_one_wp (low MAXFILE)); [exact R3|by apply freed_closed|rewrite Ho3, map_size_empty; lia|done|done| |by rewrite Ho3|].
    { intros (_ & m & Hm & Em). assert (addr_at (t_view t0) i0 m <> 0) as Hm0 by congruence. by destruct (fo_addr _ _ _ Hf0 m Hm Hm0). }
    intros st4 tr4 R4 Hf4. eapply seti_wp; [by apply lookup_ip|]. rewrite list_insert_insert_eq, cleared_set by (change NADDRS with 13%nat; change (Z.to_nat NDIRECT) with 12%nat; lia).
    eexists _, _, _. rewrite <- cleared_all. split; [done|]. split; [exact R4|]. split; [|done]. eapply freed_iff; [|exact Hf4]. intros b. rewrite owned_low.
    split; [|tauto]. intros [Hl| ->]; [|by auto]. split; [apply Hl|by left].
Qed.

(** ** itrunc() *)

Record truncated (t' : tstate) : Prop := {
  tn_fs : fs_ok sb (t_view t');
  tn_file : file_ok sb (t_view t') emptied;
  tn_open : t_open t' = ∅;
  tn_dirty : t_dirty t' = ∅;
  tn_txn : t_out t' = t_out t0;
  tn_cost : (cost sb emptied t' <= cost sb i0 t0 + 2)%nat;
  tn_used : forall b, 0 <= b < sb_size sb -> block_used sb (t_view t') b = true <-> block_used sb (t_view t0) b = true /\ ~ owned (t_view t0) i0 b;
  tn_slot : disk_inode sb t' (i_inum i0) = dinode_of emptied;
  tn_slots : forall k, 0 <= k < sb_ninodes sb -> k <> i_inum i0 -> disk_inode sb t' k = disk_inode sb t0 k;
  tn_frame : forall y, not_bitmap sb y -> (forall k, 0 <= k < sb_ninodes sb -> y <> IBLOCK k sb) -> t_view t' !! y = t_view t0 !! y
}.

Lemma emptied_addr v m : addr_at v emptied m = 0.
Proof.
  unfold addr_at, ind_addr, emptied. cbn [i_addrs i_set_size i_set_addrs].
  assert (forall j, (j < NADDRS)%nat -> replicate NADDRS 0 !!! j = 0) as E by (intros j Hj; by apply lookup_total_replicate_2).
  change NDIRECT with 12 in *. change NADDRS with 13%nat in *. rewrite (E (Z.to_nat 12)) by lia. destruct (Z.ltb_spec m 12); [|done]. apply E. lia.
Qed.
Lemma emptied_file v : file_ok sb v emptied.
Proof.
  pose proof Hf0 as [H1 _ _ _ H5 _ _ _ _]. apply (FileOk sb v emptied); [exact H1|done| | |exact H5|done| | |].
  - apply Forall_replicate. unfold word. lia.
  - change (0 <= 0 <= 274432). lia.
  - intros m _ Hm. by rewrite emptied_addr in Hm.
  - intros m1 m2 _ _ _ Hm. by rewrite emptied_addr in Hm.
  - change (i_size emptied) with 0. lia.
Qed.
Lemma emptied_not_owned v y : ~ owned v emptied y.
Proof. intros (Hy & [E|(m & _ & E)]); [by unfold ind_addr in E; cbn in E|by rewrite emptied_addr in E]. Qed.
Lemma emptied_dinode : dinode_ok (dinode_of emptied).
Proof.
  destruct Hd0 as [D1 D2 D3 D4 D5 D6 D7]. constructor; try done. cbn. apply Forall_replicate. unfold word. lia.
Qed.
Lemma cost_emptied t : (cost sb emptied t <= cost sb i0 t + 1)%nat.
Proof. unfold cost, ipot. repeat case_decide; lia. Qed.

Lemma iupdated P t : freed P t -> (forall b, P b <-> owned (t_view t0) i0 b) -> t_open t = ∅ -> truncated (t_iupdate sb emptied t).
Proof.
  intros Hf HP Ho. pose proof (fr_fs _ _ Hf) as Hfs. pose proof (fo_inum _ _ _ Hf0) as Hin. pose proof emptied_dinode as Hd.
  destruct (iupdate_slots sb il ip [] Hip t emptied Hfs Hin Hd) as [Hs1 Hs2]. destruct (fk_inodes _ _ Hfs _ Hin) as (_ & Hrange & Hu & Hnb).
  assert (forall k, 0 <= k < sb_ninodes sb -> t_view t !! IBLOCK k sb = t_view t0 !! IBLOCK k sb) as Hblk by (intros k Hk; apply (fr_view _ _ Hf); intros b; apply (fk_inodes _ _ Hfs k Hk)).
  constructor.
  - by apply (iupdate_fs_ok sb il ip [] Hip).
  - apply emptied_file.
  - done.
  - apply Hf.
  - apply Hf.
  - pose proof (fr_cost _ _ Hf). pose proof (cost_emptied t). unfold t_iupdate. etransitivity; [apply cost_update|]. unfold pot. case_decide; lia.
  - intros b Hb. unfold t_iupdate, t_update. cbn [t_view]. rewrite block_used_insert by done. destruct (decide (owned (t_view t0) i0 b)) as [Hown|Hown].
    + rewrite (fr_in _ _ Hf) by (done || by apply HP). by split; [|intros [_ ?]].
    + rewrite (fr_out _ _ Hf) by (done || by rewrite HP). tauto.
  - exact Hs1.
  - intros k Hk Hne. etransitivity; [exact (Hs2 k Hk Hne)|]. unfold inode_slot, disk_inode. by rewrite Hblk.
  - intros y Hy Hyi. unfold t_iupdate, t_update. cbn [t_view]. rewrite lookup_insert_ne by (intros E; by apply (Hyi _ Hin)). by apply (fr_view _ _ Hf).
Qed.

Lemma itrunc_wp st tr (Q : unit -> world (fstate St U) -> Prop) : bs_rep st t0 ->
  (forall st' tr' t', bs_rep st' t' -> truncated t' -> Q tt (fw tr' st' (<[ip := emptied]> il))) ->
  wp (itrunc ip) Q (fw tr st (<[ip := i0]> il)).
Proof.
  intros R HQ. unfold itrunc. wp_step. eapply (wp_for_seq direct_freed).
  { exists tr, st, t0. unfold cleared. cbn [replicate drop app]. split; [by destruct i0|]. split; [done|]. split; [|done].
    eapply freed_iff; [|exact freed_start]. intros b. unfold low. split; [done|]. intros (_ & m & Hm & _). lia. }
  { intros k w Hk. apply direct_wp. lia. }
  intros w (tr1 & st1 & t1 & -> & R1 & Hf1 & Ho1). change (Z.of_nat (0 + Z.to_nat NDIRECT)) with NDIRECT in Hf1. cbn [Nat.add].
  wp_step. eapply geti_wp; [by apply lookup_ip|]. wp_step.
  eapply wp_the; [apply cleared_lookup; apply Nat.ltb_lt; reflexivity|]. fold ind. change (i_dev (cleared _)) with (i_dev i0). rewrite (fo_dev _ _ _ Hf0).
  wp_step. eapply wp_mono; [by apply (indirect_wp tr1 st1 t1)|]. intros [] w (tr2 & st2 & t2 & -> & R2 & Hf2 & Ho2).
  wp_step. eapply seti_wp; [by apply lookup_ip|]. rewrite list_insert_insert_eq. fold emptied.
  apply (iupdate_wp u sb cwd pid il ip [] Hip st2 tr2 t2 emptied); [done|apply Hf2|apply Hf0|apply Hf0|exact emptied_dinode|done| |].
  - pose proof (cost_emptied t2). pose proof (fr_cost _ _ Hf2). destruct Hbud as (B1 & B2 & B3 & B4). rewrite Hopen0, map_size_empty in B2.
    split; [lia|]. split; [rewrite Ho2, map_size_empty; lia|]. split; [apply Hf2|by rewrite (fr_txn _ _ Hf2)].
  - intros st' tr' R'. apply (HQ st' tr' (t_iupdate sb emptied t2)); [done|]. by apply (iupdated (owned (t_view t0) i0)).
Qed.
End Trunc.

(** ** The tree after a file is gone *)

Section AfterFree.
Context (sb : superblock) (t t' : tstate) (n : Z).
Hypothesis Ht : tree_ok sb t.
Hypothesis Hn : live sb t n.
Hypothesis Hnl : d_nlink (disk_inode sb t n) = 0.
Hypothesis Hfs : fs_ok sb (t_view t').
Hypothesis Hgone : d_type (disk_inode sb t' n) = 0.
Hypothesis Hslots : forall m, 0 <= m < sb_ninodes sb -> m <> n -> disk_inode sb t' m = disk_inode sb t m.
Hypothesis Hused : forall b, 0 <= b < sb_size sb -> block_used sb (t_view t') b = true <-> block_used sb (t_view t) b = true /\ ~ owned (t_view t) (as_inode sb t n) b.
Hypothesis Hframe : forall y, not_bitmap sb y -> (forall k, 0 <= k < sb_ninodes sb -> y <> IBLOCK k sb) -> t_view t' !! y = t_view t !! y.

Lemma af_live m : live sb t' m <-> live sb t m /\ m <> n.
Proof.
  unfold live. split.
  - intros [Hm Hty]. destruct (decide (m = n)) as [->|Hne]; [done|]. by rewrite Hslots in Hty.
  - intros [[Hm Hty] Hne]. by rewrite Hslots.
Qed.
Lemma af_file m : live sb t m -> m <> n -> as_inode sb t' m = as_inode sb t m /\ file_ok sb (t_view t') (as_inode sb t' m) /\
  content (t_view t') (as_inode sb t' m) = content (t_view t) (as_inode sb t m) /\
  forall y, owned (t_view t') (as_inode sb t' m) y <-> owned (t_view t) (as_inode sb t m) y.
Proof.
  intros Hm Hne. assert (as_inode sb t' m = as_inode sb t m) as E by (unfold as_inode; rewrite Hslots by (done || apply Hm); done). rewrite E.
  pose proof (proj1 (tk_file _ _ Ht m Hm)) as Hf.
  assert (forall y, owned (t_view t) (as_inode sb t m) y -> t_view t' !! y = t_view t !! y) as Hs.
  { intros y Hy. destruct (owned_data _ _ _ _ Hf Hy) as [D1 D2 D3 D4 D5]. by apply Hframe. }
  assert (forall y, owned (t_view t) (as_inode sb t m) y -> block_used sb (t_view t) y = true -> block_used sb (t_view t') y = true) as Hu.
  { intros y Hy Huy. apply Hused; [apply (owned_data _ _ _ _ Hf Hy)|]. split; [done|]. by apply (tk_apart _ _ Ht m n). }
  split; [done|]. split; [by apply (file_ok_frame sb (t_view t))|]. split; [by apply (content_frame sb)|]. intros y. by apply owned_frame.
Qed.
Lemma af_entries m : live sb t m -> m <> n -> entries sb t' m = entries sb t m.
Proof.
  intros Hm Hne. pose proof (fo_size _ _ _ (proj1 (tk_file _ _ Ht m Hm))) as Hs. change (i_size _) with (d_size (disk_inode sb t m)) in Hs.
  rewrite !entries_decode; [|lia|rewrite Hslots by (done || apply Hm); lia]. f_equal. by apply af_file.
Qed.

Lemma af_tree : tree_ok sb t'.
Proof.
  constructor.
  - done.
  - intros m Hm Hty. assert (live sb t' m) as [Hlm Hne]%af_live by (split; [done|by rewrite Hty]). split; [by apply af_file|].
    rewrite Hslots in Hty |- * by done. destruct (tk_dirs _ _ Ht m Hm Hty) as (_ & Hmod & Hent). split; [done|].
    rewrite af_entries by done. intros e He H0. destruct (Hent e He H0) as (A1 & A2 & A3). assert (de_inum e <> n) as Hen by congruence.
    unfold alive. by rewrite Hslots.
  - intros m [Hm Hne]%af_live. split; [by apply af_file|]. rewrite Hslots by (done || apply Hm). by apply (tk_file _ _ Ht).
  - intros m1 m2 y [H1 N1]%af_live [H2 N2]%af_live Hne Ho1 Ho2. apply (af_file _ H1 N1) in Ho1. apply (af_file _ H2 N2) in Ho2.
    by apply (tk_apart _ _ Ht m1 m2 y).
  - intros m [Hm Hne]%af_live Hty. rewrite af_entries by done. apply (tk_once _ _ Ht); [done|]. by rewrite Hslots in Hty by (done || apply Hm).
Qed.
End AfterFree.

(** ** iput() of the last reference *)

Section Iput.
Context {St U : Type} `{BlockStore St} `{UserMem U}.
Context (u : U) (sb : superblock) (cwd : nat) (pid : Z).
Abbreviation fw := (fw u sb cwd pid).
Context (t : tstate) (il : list inode) (k : nat) (y : inode).
Abbreviation n := (i_inum y).
Hypothesis Htree : tree_ok sb t.
Hypothesis Htab : table_ok sb pid t None il.
Hypothesis Hk : il !! k = Some y.
Hypothesis Href : i_ref y = 1.
Hypothesis Hval : i_valid y = true.
Hypothesis Hty : d_type (disk_inode sb t n) <> 0.
Hypothesis Hnl : d_nlink (disk_inode sb t n) = 0.
Hypothesis Hopen : t_open t = ∅.
Hypothesis Hbud : budget sb 2 y t.

(** The file is gone: its blocks and its inode are free, and nothing else changed. *)
Record file_gone (t' : tstate) (il' : list inode) : Prop := {
  fg_tree : tree_ok sb t';
  fg_table : table_ok sb pid t' None il';
  fg_refs : forall m, refs il' m = if decide (m = n) then 0 else refs il m;
  fg_inode : d_type (disk_inode sb t' n) = 0;
  fg_blocks : forall b, 0 <= b < sb_size sb -> block_used sb (t_view t') b = true <-> block_used sb (t_view t) b = true /\ ~ owned (t_view t) (as_inode sb t n) b;
  fg_files : forall m, live sb t m -> m <> n -> live sb t' m /\ content (t_view t') (as_inode sb t' m) = content (t_view t) (as_inode sb t m)
}.

Lemma ip_id : i_dev y = ROOTDEV /\ live sb t n /\ dinode_of y = disk_inode sb t n /\ file_ok sb (t_view t) y /\ dinode_ok (dinode_of y).
Proof.
  destruct (to_id _ _ _ _ _ Htab k y Hk ltac:(lia)) as [Hdev Hid]. pose proof (to_valid _ _ _ _ _ Htab k y Hk ltac:(lia) Hval) as Hx.
  assert (live sb t n) as Hl by done. destruct (tk_file _ _ Htree n Hl) as [Hf Hd]. split; [done|]. split; [done|]. split; [done|].
  split; [by apply (as_inode_like sb t y)|by rewrite Hx].
Qed.

(** The entry of the table is free afterwards. *)
Lemma table_freed t' z : i_ref z = 0 -> sl_locked (i_lock z) = false ->
  (forall m, 0 <= m < sb_ninodes sb -> m <> n -> disk_inode sb t' m = disk_inode sb t m) ->
  table_ok sb pid t' None (<[k := z]> il) /\ forall m, refs (<[k := z]> il) m = if decide (m = n) then 0 else refs il m.
Proof.
  intros Hz Hlk Hslots. pose proof (lookup_lt_Some _ _ _ Hk) as Hlt. pose proof Htab as [T1 T2 T3 T4 T5].
  assert (forall a w, <[k := z]> il !! a = Some w -> (a = k /\ w = z) \/ (a <> k /\ il !! a = Some w)) as Hcase.
  { intros a w Ha. destruct (decide (a = k)) as [->|Hne]; [rewrite list_lookup_insert_eq in Ha by done; simplify_eq; by left|].
    rewrite list_lookup_insert_ne in Ha by done. by right. }
  split; [split|].
  - intros a w [[-> ->]|[_ Ha]]%Hcase; [lia|by apply (T1 a w)].
  - intros a w [[-> ->]|[_ Ha]]%Hcase Hr; [lia|by apply (T2 a w)].
  - intros a b w1 w2 [[-> ->]|[_ Ha]]%Hcase [[-> ->]|[_ Hb]]%Hcase H1 H2; [done|lia|lia|by apply (T3 a b w1 w2)].
  - intros a w [[-> ->]|[Hne Ha]]%Hcase Hr Hv; [lia|]. rewrite Hslots; [by apply (T4 a w)|apply (T2 a w Ha Hr)|].
    intros E. apply Hne, (T3 a k w y); [done|done|done|lia|done].
  - intros a w [[-> ->]|[_ Ha]]%Hcase; [done|by apply (T5 a w)].
  - intros m. pose proof (refs_entry sb pid t None il k y Htab Hk ltac:(lia)) as Hrefs. unfold refs in *. rewrite (total_insert _ _ _ y) by done.
    unfold holds at 2 3. rewrite Hz, Href. cbn [Z.ltb Z.compare andb]. case_decide as E.
    + subst m. rewrite Z.eqb_refl, Hrefs, Href. done.
    + rewrite (proj2 (Z.eqb_neq n m)) by congruence. change (0 <? 0) with false. cbn [andb]. destruct (0 <? 1); lia.
Qed.

Lemma gone t1 (y1 y2 z : inode) : dinode_of y1 = dinode_of y -> n = i_inum y1 -> y2 = i_set_type 0 (emptied y1) -> truncated sb t y1 t1 ->
  dinode_ok (dinode_of y2) -> i_ref z = 0 -> sl_locked (i_lock z) = false -> file_gone (t_iupdate sb y2 t1) (<[k := z]> il).
Proof.
  intros Ed En -> Hn1 Hd2 Hz Hzl. destruct ip_id as (Hdev & Hlive & Hx & Hf & Hd). pose proof (lookup_lt_Some _ _ _ Hk) as Hlt.
  set (y2 := i_set_type 0 (emptied y1)) in *. pose proof (tn_fs _ _ _ _ Hn1) as Hfs1. assert (i_inum y2 = n) as En2 by (by rewrite En).
  assert (0 <= i_inum y2 < sb_ninodes sb) as Hin by (rewrite En2; apply Hlive). destruct (fk_inodes _ _ Hfs1 _ Hin) as (_ & _ & _ & Hnb).
  destruct (iupdate_slots sb il k [] Hlt t1 y2 Hfs1 Hin Hd2) as [Hs1 Hs2]. rewrite En2 in Hs1, Hs2.
  assert (forall m, 0 <= m < sb_ninodes sb -> m <> n -> disk_inode sb (t_iupdate sb y2 t1) m = disk_inode sb t m) as Hslots.
  { intros m Hm Hne. etransitivity; [exact (Hs2 m Hm Hne)|]. apply (tn_slots _ _ _ _ Hn1); [done|congruence]. }
  assert (forall b, owned (t_view t) y1 b <-> owned (t_view t) (as_inode sb t n) b) as Hown.
  { intros b. rewrite (proj2 (proj2 (as_inode_like sb t y Hdev Hx))). unfold owned, addr_at, ind_addr. by replace (i_addrs y1) with (i_addrs y) by (by injection Ed). }
  assert (forall b, 0 <= b < sb_size sb -> block_used sb (t_view (t_iupdate sb y2 t1)) b = true <-> block_used sb (t_view t) b = true /\ ~ owned (t_view t) (as_inode sb t n) b) as Hused.
  { intros b Hb. unfold t_iupdate, t_update. cbn [t_view]. rewrite block_used_insert by done. rewrite (tn_used _ _ _ _ Hn1 b Hb). by rewrite Hown. }
  assert (d_type (disk_inode sb (t_iupdate sb y2 t1) n) = 0) as Hgone by (change (d_type (inode_slot sb (t_view (t_iupdate sb y2 t1)) n) = 0); by rewrite Hs1).
  assert (fs_ok sb (t_view (t_iupdate sb y2 t1))) as Hfs2 by (by apply (iupdate_fs_ok sb il k [] Hlt)).
  assert (forall x, not_bitmap sb x -> (forall j, 0 <= j < sb_ninodes sb -> x <> IBLOCK j sb) -> t_view (t_iupdate sb y2 t1) !! x = t_view t !! x) as Hframe.
  { intros x Hxb Hxi. unfold t_iupdate, t_update. cbn [t_view]. rewrite lookup_insert_ne by (intros E; by apply (Hxi _ Hin)). by apply (tn_frame _ _ _ _ Hn1). }
  destruct (table_freed (t_iupdate sb y2 t1) z Hz Hzl Hslots) as [Htab' Hrefs'].
  constructor; try done.
  - by apply (af_tree sb t _ n).
  - intros m Hm Hne. split; [by apply (af_live sb t _ n)|by apply (af_file sb t _ n)].
Qed.

Lemma iput_last_wp st tr : bs_rep st t ->
  wp (iput k) (fun _ w' => exists st' tr' t' il', w' = fw tr' st' il' /\ bs_rep st' t' /\ file_gone t' il') (fw tr st il).
Proof.
  intros R. destruct ip_id as (Hdev & Hlive & Hx & Hf & Hd). pose proof (lookup_lt_Some _ _ _ Hk) as Hlt.
  unfold iput. wp_step. apply wp_acquire; [apply not_elem_of_nil|]. wp_step. eapply (geti_h u sb cwd pid [LItable]); [exact Hk|].
  assert (i_nlink y = 0) as Enl by (rewrite <- Hnl, <- Hx; done). rewrite Href, Hval, Enl. cbn [Z.eqb Pos.eqb andb].
  do 4 wp_step.
  pose proof (to_lock _ _ _ _ _ Htab k y Hk) as Hlk. rewrite decide_False in Hlk by done. destruct (i_lock y) as [lb lp] eqn:El. cbn in Hlk. subst lb.
  eapply acquiresleep_wp; [cbn; by intros ?%list_elem_of_singleton|cbn; rewrite Hk; cbn; by rewrite El|]. cbn -[alter]. unfold upd_inode, set_inodes. cbn -[alter].
  rewrite (list_alter_insert _ _ _ y) by done. set (y1 := i_set_lock (Sleeplock true pid) y). wp_step. eapply wp_release; [done|]. cbn [user held trace].
  set (y2 := i_set_type 0 (emptied y1)).
  assert (dinode_of y1 = dinode_of y) as Ed by done.
  assert (file_ok sb (t_view t) y1) as Hf1 by (by destruct Hf; split).
  assert (budget sb 1 y1 t) as Hb1 by (eapply budget_le; [|exact Hbud]; lia).
  wp_step. eapply (itrunc_wp u sb cwd pid il k t y1); [done|apply Htree|done|by rewrite Ed|done|done|exact R|]. intros st1 tr1 t1 R1 Hn1.
  wp_step. eapply seti_wp; [by apply lookup_ip|]. rewrite list_insert_insert_eq. fold y2.
  assert (dinode_ok (dinode_of y2)) as Hd2.
  { destruct Hd as [D1 D2 D3 D4 D5 D6 D7]. constructor; try done. apply Forall_replicate. unfold word. lia. }
  wp_step. apply (iupdate_wp u sb cwd pid il k [] Hlt st1 tr1 t1 y2); [done|apply Hn1|done|apply Hlive|done|apply Hn1| |].
  { destruct Hbud as (B1 & B2 & B3 & B4). rewrite Hopen, map_size_empty in B2. pose proof (tn_cost _ _ _ _ Hn1) as Hc.
    change (cost sb y1 t) with (cost sb y t) in Hc. unfold budget. change (cost sb y2 t1) with (cost sb (emptied y1) t1). rewrite (tn_open _ _ _ _ Hn1), map_size_empty.
    split; [lia|]. split; [lia|]. split; [apply Hn1|]. by rewrite (tn_txn _ _ _ _ Hn1). }
  intros st2 tr2 R2. wp_step. eapply seti_wp; [by apply lookup_ip|]. rewrite list_insert_insert_eq.
  wp_step. eapply releasesleep_wp; [apply not_elem_of_nil|]. cbn -[alter]. unfold upd_inode, set_inodes. cbn -[alter].
  rewrite (list_alter_insert _ _ _ (i_set_valid false y2)) by (by apply lookup_ip). rewrite list_insert_insert_eq.
  apply wp_acquire; [apply not_elem_of_nil|]. cbn [user held trace]. wp_step.
  eapply (seti_h u sb cwd pid [LItable]); [by apply lookup_ip|]. rewrite list_insert_insert_eq. eapply wp_release; [done|]. cbn [user held trace].
  eexists _, _, (t_iupdate sb y2 t1), _. split; [reflexivity|]. split; [exact R2|]. apply (gone t1 y1 y2); try done. cbn. lia.
Qed.
End Iput.

(** C16. iput() of the last reference to an inode without links gives the file back: its blocks,
    direct, indirect and the indirect block itself, are free afterwards, each freed once and no other
    block, its inode is free on disk and in the table, every other file keeps its
    inode and its bytes, and what the directories and the table say is still true. *)
Theorem iput_last_correct {St U} `{BlockStore St} `{UserMem U} (u : U) sb cwd pid t il k y st tr
    (Htree : tree_ok sb t) (Htab : table_ok sb pid t None il) (Hk : il !! k = Some y) (Href : i_ref y = 1) (Hval : i_valid y = true)
    (Hty : d_type (disk_inode sb t (i_inum y)) <> 0) (Hnl : d_nlink (disk_inode sb t (i_inum y)) = 0)
    (Hopen : t_open t = ∅) (Hbud : budget sb 2 y t) (Hrep : bs_rep st t) :
  wp (iput k) (fun _ w' => exists st' tr' t' il', w' = fw u sb cwd pid tr' st' il' /\ bs_rep st' t' /\ file_gone sb pid t il y t' il')
    (fw u sb cwd pid tr st il).
Proof. by apply iput_last_wp. Qed.

(** ** On the small image *)

#[local] Opaque demo_store.

(** Inode 1 as a file without links. *)
Definition demo_orphan : inode := Inode ROOTDEV 1 1 unlocked true T_FILE 0 0 0 32 (12 :: replicate 12 0).
Definition orphan_table : list inode := <[0%nat := demo_orphan]> demo_il.

Section DemoOrphan.
Context (t : tstate).
Hypothesis Hv : forall x, t_view t !! x = if decide (2 <= x < 10) then None else if decide (0 <= x) then demo_img !! Z.to_nat x else None.
Abbreviation t1 := (t_iupdate demo_sb demo_orphan t).

Lemma orphan_in : (0 < length demo_il)%nat.
Proof. apply Nat.ltb_lt. vm_compute. reflexivity. Qed.
Lemma orphan_dinode_ok : dinode_ok (dinode_of demo_orphan).
Proof. destruct demo_dinode_ok. by constructor. Qed.
Lemma orphan_fs : fs_ok demo_sb (t_view t1).
Proof. apply (iupdate_fs_ok demo_sb demo_il 0 [] orphan_in); [exact (demo_fs_ok _ Hv)|cbn; lia|exact orphan_dinode_ok]. Qed.

Lemma orphan_disk : disk_inode demo_sb t1 1 = dinode_of demo_orphan /\ forall n, 0 <= n < 16 -> n <> 1 -> d_type (disk_inode demo_sb t1 n) = 0.
Proof.
  destruct (iupdate_slots demo_sb demo_il 0 [] orphan_in t demo_orphan) as [H1 H2]; [exact (demo_fs_ok _ Hv)|cbn; lia|exact orphan_dinode_ok|].
  split; [exact H1|]. intros n Hn Hne. change (d_type (inode_slot demo_sb (t_view t1) n) = 0). rewrite (H2 n) by (cbn; lia).
  change (d_type (disk_inode demo_sb t n) = 0). rewrite demo_disk_inode by (done || lia). by rewrite decide_False.
Qed.
Lemma orphan_live n : live demo_sb t1 n -> n = 1.
Proof. intros [Hn Hty]. cbn in Hn. destruct (decide (n = 1)) as [|Hne]; [done|]. destruct Hty. apply orphan_disk; [lia|done]. Qed.

Lemma orphan_file : file_ok demo_sb (t_view t1) demo_orphan.
Proof.
  assert (file_ok demo_sb (t_view t) demo_orphan) as Hf by (pose proof (demo_file_ok _ Hv) as Hf; by destruct Hf; split).
  destruct (inode_not_owned _ _ _ 1 (demo_fs_ok _ Hv) Hf) as [Hnb Hno]; [cbn; lia|]. by apply (file_ok_other demo_sb).
Qed.
Lemma orphan_tree : tree_ok demo_sb t1.
Proof.
  destruct orphan_disk as [Hd1 _]. constructor.
  - exact orphan_fs.
  - intros n Hn Hty. assert (n = 1) as -> by (apply orphan_live; split; [done|by rewrite Hty]). by rewrite Hd1 in Hty.
  - intros n ->%orphan_live. split; [|rewrite Hd1; exact orphan_dinode_ok].
    apply (proj1 (as_inode_like demo_sb t1 demo_orphan eq_refl (eq_sym Hd1))), orphan_file.
  - intros n m y ->%orphan_live ->%orphan_live. done.
  - intros n ->%orphan_live Hty. by rewrite Hd1 in Hty.
Qed.
Lemma orphan_table_ok : table_ok demo_sb 1 t1 None orphan_table.
Proof.
  apply (table_set demo_sb 1 t1 None None demo_il 0 (Inode 0 0 0 unlocked false 0 0 0 0 0 (replicate NADDRS 0))); [exact (demo_table t1)|done|vm_compute; discriminate| |done|done].
  intros _. split; [done|]. split; [cbn; lia|]. split; [intros _; symmetry; apply orphan_disk|].
  intros j z Hj _ Hz. unfold demo_il in Hj. apply lookup_replicate in Hj as [-> _]. by vm_compute in Hz.
Qed.
End DemoOrphan.

(** The inode is written out without links, and then dropped. *)
Lemma iput_last_correct_witness : exists t, bs_rep demo_store t /\
  wp (iupdate 0 ;; iput 0) (fun _ w' => exists st' tr' t' il', w' = fw tt demo_sb 0 1 tr' st' il' /\ bs_rep st' t' /\
      file_gone demo_sb 1 (t_iupdate demo_sb demo_orphan t) orphan_table demo_orphan t' il')
    (fw tt demo_sb 0 1 [] demo_store orphan_table).
Proof.
  destruct demo_store_rep as (t & R & Ho & Hd & Hl & Hout & Hv). exists t. split; [exact R|].
  assert (budget demo_sb 3 demo_orphan t) as Hb by exact (demo_budget t Ho Hd Hl Hout).
  wp_step. apply (iupdate_wp tt demo_sb 0 1 demo_il 0 [] orphan_in demo_store [] t demo_orphan).
  - exact R.
  - exact (demo_fs_ok _ Hv).
  - reflexivity.
  - cbn. lia.
  - exact orphan_dinode_ok.
  - exact Ho.
  - apply (budget_le _ 3); [lia|exact Hb].
  - intros st' tr' R'. apply (iput_last_correct tt demo_sb 0 1 (t_iupdate demo_sb demo_orphan t) orphan_table 0 demo_orphan st' tr').
    + exact (orphan_tree t Hv).
    + exact (orphan_table_ok t Hv).
    + reflexivity.
    + reflexivity.
    + reflexivity.
    + change (i_inum demo_orphan) with 1. rewrite (proj1 (orphan_disk t Hv)). discriminate.
    + change (i_inum demo_orphan) with 1. rewrite (proj1 (orphan_disk t Hv)). reflexivity.
    + exact Ho.
    + apply (budget_update demo_sb demo_il 0 [] orphan_in); [apply (budget_le _ 3); [lia|exact Hb]|right; exact Hb].
    + exact R'.
Defined.
