(* ===== verification/Vm.v ===== *)
(** * Virtual memory (kernel/vm.c)

    Page tables in physical memory, byte for byte: a page table is the address of
    its root page and an entry eight bytes of it.  The kernel side of copyout(),
    copyin() and copyinstr() is the sequence of bytes at the kernel pointer. *)

From S2P Require Import Prelude Machine Mem Kalloc Fs.

Open Scope Z_scope.

Section Vm.
Variable kend : Z.
Abbreviation KM := (M kmem).
Abbreviation kfree := (kfree kend).

Definition rd64 (a : Z) : KM Z := gets (fun k => load64 (kmem_mem k) a).
Definition wr64 (a v : Z) : KM unit := modify (set_mem (fun m => store64 m a v)).
Definition memset0 (pa n : Z) : KM unit := modify (set_mem (fun m => memset m pa 0 n)).

Definition has (pte flag : Z) : bool := negb (Z.land pte flag =? 0).

(** [&pagetable[PX(level, va)]] *)
Definition pte_addr (pagetable level va : Z) : Z := pagetable + 8 * PX level va.

(** The loop of walk() over the levels above 0; 0 is the null pointer. *)
Fixpoint walk_from (levels : list Z) (pagetable va : Z) (alloc : bool) : KM Z :=
  match levels with
  | [] => ret (pte_addr pagetable 0 va)
  | level :: levels =>
      let pte := pte_addr pagetable level va in
      let* e := rd64 pte in
      if has e PTE_V then walk_from levels (PTE2PA e) va alloc else
      if negb alloc then ret 0 else
      let* p := kalloc in
      if p =? 0 then ret 0 else
      memset0 p PGSIZE ;;
      wr64 pte (Z.lor (PA2PTE p) PTE_V) ;;
      walk_from levels p va alloc
  end.

Definition walk (pagetable va : Z) (alloc : bool) : KM Z :=
  if va >=? MAXVA then panic "walk" else walk_from [2; 1] pagetable va alloc.

Definition walkaddr (pagetable va : Z) : KM Z :=
  if va >=? MAXVA then ret 0 else
  let* pte := walk pagetable va false in
  if pte =? 0 then ret 0 else
  let* e := rd64 pte in
  if negb (has e PTE_V) then ret 0 else
  if negb (has e PTE_U) then ret 0 else
  ret (PTE2PA e).

(** One page of mappages(); the loop variables are [a] and [pa]. *)
Definition mappages_step (pagetable last perm : Z) (s : Z * Z) : KM (Z * Z + Z) :=
  let '(a, pa) := s in
  let* pte := walk pagetable a true in
  if pte =? 0 then ret (inr (-1)) else
  let* e := rd64 pte in
  if has e PTE_V then panic "mappages: remap" else
  wr64 pte (Z.lor (Z.lor (PA2PTE pa) perm) PTE_V) ;;
  if a =? last then ret (inr 0) else
  ret (inl (u64 (a + PGSIZE), u64 (pa + PGSIZE))).

Definition mappages (pagetable va size pa perm : Z) : KM Z :=
  if size =? 0 then panic "mappages: size" else
  let a := PGROUNDDOWN va in
  let last := PGROUNDDOWN (u64 (va + size - 1)) in
  iter (S (Z.to_nat ((last - a) / PGSIZE))) (mappages_step pagetable last perm) (a, pa).

Definition kvmmap (kpgtbl va pa sz perm : Z) : KM unit :=
  let* r := mappages kpgtbl va sz pa perm in
  if negb (r =? 0) then panic "kvmmap" else ret tt.

(** kernel/proc.c: a stack for each process. *)
Definition proc_mapstacks (kpgtbl : Z) : KM unit :=
  for_each (seqZ 0 NPROC) (fun p =>
    let* pa := kalloc in
    if pa =? 0 then panic "kalloc" else
    kvmmap kpgtbl (KSTACK p) pa PGSIZE (Z.lor PTE_R PTE_W)).

(** [etext] and [trampoline] are set by the linker. *)
Definition kvmmake (etext trampoline : Z) : KM Z :=
  let* kpgtbl := kalloc in
  memset0 kpgtbl PGSIZE ;;
  kvmmap kpgtbl UART0 UART0 PGSIZE (Z.lor PTE_R PTE_W) ;;
  kvmmap kpgtbl VIRTIO0 VIRTIO0 PGSIZE (Z.lor PTE_R PTE_W) ;;
  kvmmap kpgtbl PLIC PLIC 4194304 (Z.lor PTE_R PTE_W) ;;
  kvmmap kpgtbl KERNBASE KERNBASE (etext - KERNBASE) (Z.lor PTE_R PTE_X) ;;
  kvmmap kpgtbl etext etext (PHYSTOP - etext) (Z.lor PTE_R PTE_W) ;;
  kvmmap kpgtbl TRAMPOLINE trampoline PGSIZE (Z.lor PTE_R PTE_X) ;;
  proc_mapstacks kpgtbl ;;
  ret kpgtbl.

Definition uvmunmap_step (pagetable stop : Z) (do_free : bool) (a : Z) : KM (Z + unit) :=
  if negb (a <? stop) then ret (inr tt) else
  let* pte := walk pagetable a false in
  if pte =? 0 then panic "uvmunmap: walk" else
  let* e := rd64 pte in
  if negb (has e PTE_V) then panic "uvmunmap: not mapped" else
  if PTE_FLAGS e =? PTE_V then panic "uvmunmap: not a leaf" else
  (if do_free then kfree (PTE2PA e) else ret tt) ;;
  wr64 pte 0 ;;
  ret (inl (u64 (a + PGSIZE))).

Definition uvmunmap (pagetable va npages : Z) (do_free : bool) : KM unit :=
  if negb (va mod PGSIZE =? 0) then panic "uvmunmap: not aligned" else
  iter (S (Z.to_nat npages)) (uvmunmap_step pagetable (u64 (va + npages * PGSIZE)) do_free) va.

Definition uvmcreate : KM Z :=
  let* pagetable := kalloc in
  if pagetable =? 0 then ret 0 else
  memset0 pagetable PGSIZE ;;
  ret pagetable.

Definition uvmfirst (pagetable : Z) (src : list Z) (sz : Z) : KM unit :=
  if sz >=? PGSIZE then panic "uvmfirst: more than a page" else
  let* mem := kalloc in
  memset0 mem PGSIZE ;;
  mappages pagetable 0 PGSIZE mem (Z.lor (Z.lor (Z.lor PTE_W PTE_R) PTE_X) PTE_U) ;;
  modify (set_mem (fun m => store m mem (take (Z.to_nat sz) src))).

Definition uvmdealloc (pagetable oldsz newsz : Z) : KM Z :=
  if newsz >=? oldsz then ret oldsz else
  (if PGROUNDUP newsz <? PGROUNDUP oldsz then
     let npages := s32 ((PGROUNDUP oldsz - PGROUNDUP newsz) / PGSIZE) in
     uvmunmap pagetable (PGROUNDUP newsz) (u64 npages) true
   else ret tt) ;;
  ret newsz.

Definition uvmalloc_step (pagetable oldsz newsz xperm a : Z) : KM (Z + Z) :=
  if negb (a <? newsz) then ret (inr newsz) else
  let* mem := kalloc in
  if mem =? 0 then
    uvmdealloc pagetable a oldsz ;;
    ret (inr 0)
  else
  memset0 mem PGSIZE ;;
  let* r := mappages pagetable a PGSIZE mem (Z.lor (Z.lor PTE_R PTE_U) xperm) in
  if negb (r =? 0) then
    kfree mem ;;
    uvmdealloc pagetable a oldsz ;;
    ret (inr 0)
  else ret (inl (u64 (a + PGSIZE))).

Definition uvmalloc (pagetable oldsz newsz xperm : Z) : KM Z :=
  if newsz <? oldsz then ret oldsz else
  let oldsz := PGROUNDUP oldsz in
  iter (S (S (Z.to_nat ((newsz - oldsz) / PGSIZE)))) (uvmalloc_step pagetable oldsz newsz xperm) oldsz.

(** The recursion is as deep as the table: [depth] levels below this one. *)
Fixpoint freewalk (depth : nat) (pagetable : Z) : KM unit :=
  match depth with
  | O => fun _ => NoFuel
  | S depth =>
      for_each (seqZ 0 512) (fun i =>
        let* pte := rd64 (pagetable + 8 * i) in
        if has pte PTE_V && (Z.land pte (Z.lor (Z.lor PTE_R PTE_W) PTE_X) =? 0) then
          freewalk depth (PTE2PA pte) ;;
          wr64 (pagetable + 8 * i) 0
        else if has pte PTE_V then panic "freewalk: leaf"
        else ret tt) ;;
      kfree pagetable
  end.

Definition uvmfree (pagetable sz : Z) : KM unit :=
  (if sz >? 0 then uvmunmap pagetable 0 (PGROUNDUP sz / PGSIZE) true else ret tt) ;;
  freewalk 3 pagetable.

(** The copying loop; it answers -1 through [err]. *)
Definition uvmcopy_step (old new sz i : Z) : KM (Z + Z) :=
  let err := uvmunmap new 0 (i / PGSIZE) true ;; ret (inr (-1)) in
  if negb (i <? sz) then ret (inr 0) else
  let* pte := walk old i false in
  if pte =? 0 then panic "uvmcopy: pte should exist" else
  let* e := rd64 pte in
  if negb (has e PTE_V) then panic "uvmcopy: page not present" else
  let pa := PTE2PA e in
  let flags := PTE_FLAGS e in
  let* mem := kalloc in
  if mem =? 0 then err else
  modify (set_mem (fun m => memmove m mem pa PGSIZE)) ;;
  let* r := mappages new i PGSIZE mem flags in
  if negb (r =? 0) then kfree mem ;; err
  else ret (inl (u64 (i + PGSIZE))).

Definition uvmcopy (old new sz : Z) : KM Z :=
  iter (S (S (Z.to_nat (sz / PGSIZE)))) (uvmcopy_step old new sz) 0.

Definition uvmclear (pagetable va : Z) : KM unit :=
  let* pte := walk pagetable va false in
  if pte =? 0 then panic "uvmclear" else
  let* e := rd64 pte in
  wr64 pte (Z.land e (u64 (Z.lnot PTE_U))).

(** ** Between kernel and user memory *)

Definition copy_fuel (len : nat) : nat := S (S (S (Z.to_nat (Z.of_nat len / PGSIZE)))).

Definition copyout_step (pagetable : Z) (s : Z * list Z) : KM (Z * list Z + Z) :=
  let '(dstva, src) := s in
  match src with
  | [] => ret (inr 0)
  | _ =>
      let va0 := PGROUNDDOWN dstva in
      let* pa0 := walkaddr pagetable va0 in
      if pa0 =? 0 then ret (inr (-1)) else
      let n := Z.to_nat (Z.min (PGSIZE - (dstva - va0)) (Z.of_nat (length src))) in
      modify (set_mem (fun m => store m (pa0 + (dstva - va0)) (take n src))) ;;
      ret (inl (u64 (va0 + PGSIZE), drop n src))
  end.

Definition copyout (pagetable dstva : Z) (src : list Z) : KM Z :=
  iter (copy_fuel (length src)) (copyout_step pagetable) (dstva, src).

(** The loop variables are [srcva], [len] and the bytes at [dst] so far. *)
Definition copyin_step (pagetable : Z) (s : Z * nat * list Z) : KM (Z * nat * list Z + Z * list Z) :=
  let '(srcva, len, dst) := s in
  match len with
  | O => ret (inr (0, dst))
  | _ =>
      let va0 := PGROUNDDOWN srcva in
      let* pa0 := walkaddr pagetable va0 in
      if pa0 =? 0 then ret (inr (-1, dst)) else
      let n := Z.to_nat (Z.min (PGSIZE - (srcva - va0)) (Z.of_nat len)) in
      let* bs := gets (fun k => load (kmem_mem k) (pa0 + (srcva - va0)) n) in
      ret (inl (u64 (va0 + PGSIZE), (len - n)%nat, dst ++ bs))
  end.

Definition copyin (pagetable srcva : Z) (len : nat) : KM (Z * list Z) :=
  iter (copy_fuel len) (copyin_step pagetable) (srcva, len, []).

(** The inner loop of copyinstr(): the bytes stored at [dst], and whether a NUL
    was met. *)
Fixpoint copystr_page (bs : list Z) : list Z * bool :=
  match bs with
  | [] => ([], false)
  | c :: t => if c =? 0 then ([0], true) else let '(r, b) := copystr_page t in (c :: r, b)
  end.

Definition copyinstr_step (pagetable : Z) (s : Z * nat * list Z) : KM (Z * nat * list Z + Z * list Z) :=
  let '(srcva, max, dst) := s in
  match max with
  | O => ret (inr (-1, dst))
  | _ =>
      let va0 := PGROUNDDOWN srcva in
      let* pa0 := walkaddr pagetable va0 in
      if pa0 =? 0 then ret (inr (-1, dst)) else
      let n := Z.to_nat (Z.min (PGSIZE - (srcva - va0)) (Z.of_nat max)) in
      let* bs := gets (fun k => load (kmem_mem k) (pa0 + (srcva - va0)) n) in
      let '(r, got_null) := copystr_page bs in
      if got_null then ret (inr (0, dst ++ r))
      else ret (inl (u64 (va0 + PGSIZE), (max - n)%nat, dst ++ r))
  end.

Definition copyinstr (pagetable srcva : Z) (max : nat) : KM (Z * list Z) :=
  iter (copy_fuel max) (copyinstr_step pagetable) (srcva, max, []).
End Vm.

(** What fs.c sees of the current process's memory. *)
Record umem := Umem { um_phys : kmem; um_pagetable : Z }.

#[export] Instance lens_phys : Lens umem kmem :=
  { lget := um_phys; lput k s := Umem k (um_pagetable s) }.

#[export] Instance vm_user_mem : UserMem umem := {
  um_copyout dstva src := let* s := get in zoom (copyout (um_pagetable s) dstva src);
  um_copyin srcva len := let* s := get in zoom (copyin (um_pagetable s) srcva len)
}.
