(* ===== verification/VmTable.v ===== *)
(** * Page tables as trees (kernel/vm.c: walk)

    A page table is a root page, its second-level pages by index and its
    third-level pages by pair of indices; [pt_wf] says the entries in memory are
    that tree.  walk() finds the entry of an address and can extend the tree
    without changing any existing translation. *)

From S2P Require Import Prelude Machine Mem Kalloc Vm.

Open Scope Z_scope.

#[local] Opaque memset memmove store64 load64 load store.

(** ** Entries *)

Lemma has_bit e n : 0 <= n -> has e (Z.shiftl 1 n) = Z.testbit e n.
Proof.
  intros Hn. unfold has. rewrite Z.shiftl_1_l.
  destruct (Z.testbit e n) eqn:E.
  - apply negb_true_iff, Z.eqb_neq. intros H0. assert (Z.testbit (Z.land e (2 ^ n)) n = true) as Ht.
    { rewrite Z.land_spec, E, Z.pow2_bits_true by done. done. }
    by rewrite H0, Z.bits_0 in Ht.
  - apply negb_false_iff, Z.eqb_eq. apply Z.bits_inj'. intros m Hm. rewrite Z.land_spec, Z.bits_0, Z.pow2_bits_eqb by done.
    destruct (Z.eqb_spec n m) as [<-|]; [by rewrite E|apply andb_false_r].
Qed.

Lemma has_0 n : 0 <= n -> has 0 (Z.shiftl 1 n) = false.
Proof. intros. rewrite has_bit by done. apply Z.bits_0. Qed.

Lemma has_flags e n : 0 <= n < 10 -> has e (Z.shiftl 1 n) = Z.testbit (PTE_FLAGS e) n.
Proof.
  intros Hn. rewrite has_bit by lia. unfold PTE_FLAGS. change 1023 with (Z.ones 10).
  rewrite Z.land_ones by lia. by rewrite Z.mod_pow2_bits_low by lia.
Qed.

Definition in_page (p b : Z) : Prop := p <= b < p + PGSIZE.

(** Memory is unchanged outside the pages [P]. *)
Definition outside (P : list Z) (m m' : mem) : Prop :=
  forall b, (forall p, p ∈ P -> ~ in_page p b) -> rd8 m' b = rd8 m b.

Lemma outside_refl P m : outside P m m.
Proof. by intros b _. Qed.

Lemma outside_trans P m1 m2 m3 : outside P m1 m2 -> outside P m2 m3 -> outside P m1 m3.
Proof. intros H1 H2 b Hb. by rewrite H2, H1. Qed.

Lemma outside_mono P P' m m' : (forall p, p ∈ P -> p ∈ P') -> outside P m m' -> outside P' m m'.
Proof. intros HP H b Hb. apply H. auto. Qed.

Lemma outside_one p m m' : same_except p m m' -> outside [p] m m'.
Proof. intros H b Hb. apply H. specialize (Hb p ltac:(by left)). unfold in_page in Hb. lia. Qed.

Section Pages.
Context (kend : Z).
Hypothesis kend_pos : 0 < kend.
Abbreviation good_page := (good_page kend).

Lemma good_page_disjoint p q b : good_page p -> good_page q -> in_page p b -> in_page q b -> p = q.
Proof.
  intros Hp Hq Hb1 Hb2. destruct (decide (p = q)) as [|Hne]; [done|].
  destruct (pages_apart kend p q Hp Hq Hne); unfold in_page in *; lia.
Qed.

Lemma outside_rd P m m' p b :
  outside P m m' -> Forall good_page P -> good_page p -> p ∉ P -> in_page p b -> rd8 m' b = rd8 m b.
Proof.
  intros Ho HP Hp Hni Hb. apply Ho. intros q Hq Hbq. apply Hni.
  rewrite (good_page_disjoint p q b); [done|done| |done|done]. rewrite list.Forall_forall in HP. auto.
Qed.

(** The entry [j] of the table in page [p]. *)
Definition ent (m : mem) (p j : Z) : Z := load64 m (p + 8 * j).

Lemma ent_ext m m' p j : 0 <= j < 512 -> (forall b, in_page p b -> rd8 m' b = rd8 m b) -> ent m' p j = ent m p j.
Proof. intros Hj H. apply load64_ext. intros b Hb. apply H. unfold in_page, PGSIZE. lia. Qed.

Lemma ent_outside P m m' p j :
  outside P m m' -> Forall good_page P -> good_page p -> p ∉ P -> 0 <= j < 512 -> ent m' p j = ent m p j.
Proof. intros Ho HP Hp Hni Hj. apply ent_ext; [done|]. intros b Hb. by eapply outside_rd. Qed.

Lemma ent_store m p j v j' :
  0 <= j < 512 -> 0 <= j' < 512 -> 0 <= v < 2 ^ 64 ->
  ent (store64 m (p + 8 * j) v) p j' = if decide (j' = j) then v else ent m p j'.
Proof.
  intros Hj Hj' Hv. unfold ent. case_decide as E.
  - subst. by apply load64_store64_same.
  - apply load64_store64_disj. lia.
Qed.

Lemma store_outside m p j v : 0 <= j < 512 -> outside [p] m (store64 m (p + 8 * j) v).
Proof.
  intros Hj b Hb. apply rd8_store64_out. specialize (Hb p ltac:(by left)). unfold in_page, PGSIZE in Hb. lia.
Qed.

Lemma ent_zero m p j : 0 <= j < 512 -> ent (memset m p 0 PGSIZE) p j = 0.
Proof.
  intros Hj. unfold ent. transitivity (load64 ∅ (p + 8 * j)).
  - apply load64_ext. intros b Hb. rewrite memset_rd, decide_True, rd8_empty by (unfold PGSIZE; lia). done.
  - apply load64_empty.
Qed.

Lemma free_list_outside k m' l P :
  free_list kend k l -> outside P (kmem_mem k) m' -> Forall good_page P -> (forall p, p ∈ P -> p ∉ l) -> mem_bytes m' ->
  free_list kend (Kmem m' (kmem_freelist k)) l.
Proof.
  intros (Hc & Hnd & Hg & _) Ho HP Hd Hb. split; [|done]. cbn. revert Hc. generalize (kmem_freelist k).
  clear Hnd. induction l as [|x l IH]; intros p; cbn; [done|]. intros [-> Hc]. apply Forall_cons_1 in Hg as [Hx Hg].
  split; [done|]. replace (load64 m' x) with (load64 (kmem_mem k) x).
  - apply IH; [done| |done]. intros q Hq Hin. apply (Hd q Hq). by right.
  - symmetry. apply load64_ext. intros b Hbx. eapply outside_rd; [exact Ho|done|exact Hx| |unfold in_page, PGSIZE; lia].
    intros Hin. apply (Hd x Hin). by left.
Qed.

Lemma good_page_pa p : good_page p -> 0 <= p < 2 ^ 56 /\ p mod PGSIZE = 0.
Proof. intros [H1 H2]. unfold PHYSTOP, KERNBASE in H2. split; [lia|done]. Qed.

Lemma table_pte q :
  good_page q -> let e := Z.lor (PA2PTE q) PTE_V in
  has e PTE_V = true /\ PTE2PA e = q /\ PTE_FLAGS e = PTE_V /\ 0 <= e < 2 ^ 64.
Proof.
  intros Hq e. destruct (good_page_pa q Hq) as [Hr Ha].
  destruct (PTE_roundtrip q PTE_V Hr Ha ltac:(done)) as [E1 E2].
  split; [|split; [done|split; [done|]]].
  - change (has e (Z.shiftl 1 0) = true). rewrite has_flags by lia. unfold e. by rewrite E2.
  - unfold e. rewrite pte_lor_add by done. rewrite PA2PTE_eq by done.
    change PTE_V with 1. Z.div_mod_to_equations. lia.
Qed.
End Pages.

(** ** The tree *)

Record ptab := Ptab {
  pt_root : Z;
  pt_mid : gmap Z Z;          (* second-level pages, by index in the root *)
  pt_low : gmap (Z * Z) Z     (* third-level pages, by both indices *)
}.

Definition pt_pages (T : ptab) : list Z := pt_root T :: (map_to_list (pt_mid T)).*2 ++ (map_to_list (pt_low T)).*2.

Definition table_entry (m : mem) (p j : Z) (o : option Z) : Prop :=
  match o with
  | Some q => ent m p j = Z.lor (PA2PTE q) PTE_V
  | None => has (ent m p j) PTE_V = false
  end.

Record pt_wf (kend : Z) (m : mem) (T : ptab) : Prop := PtWf {
  pw_good : Forall (good_page kend) (pt_pages T);
  pw_nodup : NoDup (pt_pages T);
  pw_root : forall i, 0 <= i < 512 -> table_entry m (pt_root T) i (pt_mid T !! i);
  pw_mid : forall i p, pt_mid T !! i = Some p ->
    0 <= i < 512 /\ forall j, 0 <= j < 512 -> table_entry m p j (pt_low T !! (i, j));
  pw_low : forall i j q, pt_low T !! (i, j) = Some q -> is_Some (pt_mid T !! i) /\ 0 <= j < 512
}.

(** Where the entry of [va] is, and its value (0 when there is no table for it). *)
Definition pte_slot (T : ptab) (va : Z) : option Z :=
  (fun q => pte_addr q 0 va) <$> pt_low T !! (PX 2 va, PX 1 va).
Definition pte_of (m : mem) (T : ptab) (va : Z) : Z :=
  match pt_low T !! (PX 2 va, PX 1 va) with Some q => ent m q (PX 0 va) | None => 0 end.

Lemma elem_root T : pt_root T ∈ pt_pages T.
Proof. by left. Qed.
Lemma elem_mid T i p : pt_mid T !! i = Some p -> p ∈ pt_pages T.
Proof.
  intros H. right. apply elem_of_app. left. apply list_elem_of_fmap. exists (i, p). split; [done|]. by apply elem_of_map_to_list.
Qed.
Lemma elem_low T i q : pt_low T !! i = Some q -> q ∈ pt_pages T.
Proof.
  intros H. right. apply elem_of_app. right. apply list_elem_of_fmap. exists (i, q). split; [done|]. by apply elem_of_map_to_list.
Qed.

Lemma low_not_root T i q : NoDup (pt_pages T) -> pt_low T !! i = Some q -> q <> pt_root T.
Proof.
  intros Hnd Hq ->. apply list.NoDup_cons in Hnd as [Hni _]. apply Hni, elem_of_app. right.
  apply list_elem_of_fmap. exists (i, pt_root T). split; [done|]. by apply elem_of_map_to_list.
Qed.

Lemma low_not_mid T i q j p : NoDup (pt_pages T) -> pt_low T !! i = Some q -> pt_mid T !! j = Some p -> q <> p.
Proof.
  intros Hnd Hq Hp ->. apply list.NoDup_cons in Hnd as [_ Hnd]. apply list.NoDup_app in Hnd as (_ & Hd & _).
  apply (Hd p); apply list_elem_of_fmap; [exists (j, p)|exists (i, p)]; (split; [done|]; by apply elem_of_map_to_list).
Qed.

Lemma NoDup_snd_inj {K} `{Countable K} (M : gmap K Z) i j q : NoDup (map_to_list M).*2 -> M !! i = Some q -> M !! j = Some q -> i = j.
Proof.
  intros Hnd Hi Hj. apply elem_of_map_to_list in Hi, Hj. apply list_elem_of_lookup_1 in Hi as [a Ha]. apply list_elem_of_lookup_1 in Hj as [b Hb].
  assert (a = b) as ->; [|congruence]. eapply NoDup_lookup; [exact Hnd|..]; rewrite list_lookup_fmap; [rewrite Ha|rewrite Hb]; done.
Qed.

Lemma low_inj T i j q : NoDup (pt_pages T) -> pt_low T !! i = Some q -> pt_low T !! j = Some q -> i = j.
Proof.
  intros Hnd. apply list.NoDup_cons in Hnd as [_ Hnd]. apply list.NoDup_app in Hnd as (_ & _ & Hnd). by apply NoDup_snd_inj.
Qed.

Lemma mid_value_inj T i j q : NoDup (pt_pages T) -> pt_mid T !! i = Some q -> pt_mid T !! j = Some q -> i = j.
Proof.
  intros Hnd. apply list.NoDup_cons in Hnd as [_ Hnd]. apply list.NoDup_app in Hnd as (Hnd & _ & _). by apply NoDup_snd_inj.
Qed.

(** ** Changing the tree *)

Section Tree.
Context (kend : Z).
Hypothesis kend_pos : 0 < kend.
Abbreviation good_page := (good_page kend).
Abbreviation pt_wf := (pt_wf kend).

Lemma pw_page m T p : pt_wf m T -> p ∈ pt_pages T -> good_page p.
Proof. intros [Hg _ _ _ _] Hp. rewrite list.Forall_forall in Hg. auto. Qed.

(** Memory changes in third-level pages, or elsewhere, keep the tree. *)
Lemma pt_wf_outside m m' T P :
  pt_wf m T -> outside P m m' -> Forall good_page P -> pt_root T ∉ P ->
  (forall i p, pt_mid T !! i = Some p -> p ∉ P) -> pt_wf m' T.
Proof.
  intros Hw Ho HP Hr Hm. pose proof Hw as [H1 H2 H3 H4 H5]. constructor; try done.
  - intros i Hi. specialize (H3 i Hi). unfold table_entry in *.
    rewrite (ent_outside kend P m m') by (try done; by eapply pw_page, elem_root). done.
  - intros i p Hp. destruct (H4 i p Hp) as [Hi Hj]. split; [done|]. intros j Hjr. specialize (Hj j Hjr). unfold table_entry in *.
    rewrite (ent_outside kend P m m'); try done; [by eapply pw_page, elem_mid|by eapply Hm].
Qed.

Lemma pte_of_outside m m' T P va :
  pt_wf m T -> outside P m m' -> Forall good_page P -> (forall i q, pt_low T !! i = Some q -> q ∉ P) ->
  pte_of m' T va = pte_of m T va.
Proof.
  intros Hw Ho HP Hl. unfold pte_of. destruct (pt_low T !! _) as [q|] eqn:E; [|done].
  eapply ent_outside; [exact Ho|done|by eapply pw_page, elem_low|by eapply Hl|by apply PX_range].
Qed.


(** Storing an entry of a third-level page. *)
Lemma leaf_store m T va q v :
  pt_wf m T -> pt_low T !! (PX 2 va, PX 1 va) = Some q -> 0 <= v < 2 ^ 64 ->
  pt_wf (store64 m (pte_addr q 0 va) v) T /\
  forall va', pte_of (store64 m (pte_addr q 0 va) v) T va' =
    if decide (PX 2 va' = PX 2 va /\ PX 1 va' = PX 1 va /\ PX 0 va' = PX 0 va) then v else pte_of m T va'.
Proof.
  intros Hw Hq Hv. pose proof (PX_range 0 va ltac:(lia)) as Hj. pose proof (store_outside m q (PX 0 va) v Hj) as Ho.
  assert (good_page q) as Hg by (by eapply pw_page, elem_low).
  assert (Forall good_page [q]) as HP by (constructor; [done|constructor]). unfold pte_addr.
  split.
  - eapply pt_wf_outside; [exact Hw|exact Ho|done| |].
    + intros Hin. apply list_elem_of_singleton in Hin. by eapply low_not_root; [apply Hw|exact Hq|].
    + intros i p Hp Hin. apply list_elem_of_singleton in Hin. subst. by eapply low_not_mid; [apply Hw|exact Hq|exact Hp|].
  - intros va'. unfold pte_of. destruct (pt_low T !! (PX 2 va', PX 1 va')) as [q'|] eqn:E.
    + destruct (decide (q' = q)) as [->|Hne].
      * pose proof (low_inj _ _ _ _ (pw_nodup _ _ _ Hw) E Hq) as [= E2 E1]. rewrite ent_store by (done || apply PX_range; lia).
        repeat case_decide; try done; tauto.
      * rewrite decide_False. 2:{ intros (E2 & E1 & _). rewrite E2, E1, Hq in E. congruence. }
        eapply ent_outside; [exact Ho|done|by eapply pw_page, elem_low| |by apply PX_range].
        intros Hin. by apply list_elem_of_singleton in Hin.
    + rewrite decide_False; [done|]. intros (E2 & E1 & _). rewrite E2, E1, Hq in E. done.
Qed.

(** A new, empty table [x] hung in entry [j] of the table [p]. *)
Definition hang (m : mem) (p j x : Z) : mem := store64 (memset m x 0 PGSIZE) (p + 8 * j) (Z.lor (PA2PTE x) PTE_V).

Section Hang.
Context (m : mem) (p j x : Z).
Hypothesis Hp : good_page p.
Hypothesis Hx : good_page x.
Hypothesis Hpx : p <> x.
Hypothesis Hj : 0 <= j < 512.

Lemma hang_outside : outside [p; x] m (hang m p j x).
Proof.
  unfold hang. eapply outside_trans.
  - eapply outside_mono; [|apply outside_one, same_except_memset]. intros q Hq. by right.
  - eapply outside_mono; [|by apply store_outside]. intros q Hq. apply list_elem_of_singleton in Hq as ->. by left.
Qed.

Lemma hang_new j' : 0 <= j' < 512 -> ent (hang m p j x) x j' = 0.
Proof.
  intros Hj'. unfold hang. etransitivity; [|apply (ent_zero m x j' Hj')].
  eapply ent_outside; [apply store_outside; done|constructor; [exact Hp|constructor]|done| |done].
  intros Hin. apply list_elem_of_singleton in Hin. by apply Hpx.
Qed.

Lemma hang_parent j' : 0 <= j' < 512 ->
  ent (hang m p j x) p j' = if decide (j' = j) then Z.lor (PA2PTE x) PTE_V else ent m p j'.
Proof.
  intros Hj'. unfold hang. rewrite ent_store by (try done; apply (table_pte kend kend_pos x Hx)). case_decide; [done|].
  eapply ent_outside; [apply outside_one, same_except_memset|constructor; [exact Hx|constructor]|done| |done].
  intros Hin. apply list_elem_of_singleton in Hin. by apply Hpx.
Qed.

Lemma hang_other q j' : good_page q -> q <> p -> q <> x -> 0 <= j' < 512 -> ent (hang m p j x) q j' = ent m q j'.
Proof.
  intros Hq H1 H2 Hj'. eapply ent_outside; [apply hang_outside| |done| |done].
  - constructor; [done|]. constructor; [done|constructor].
  - intros Hin. apply elem_of_cons in Hin as [|Hin]; [done|]. by apply list_elem_of_singleton in Hin.
Qed.
End Hang.

Definition add_mid (T : ptab) (i x : Z) : ptab := Ptab (pt_root T) (<[i := x]> (pt_mid T)) (pt_low T).
Definition add_low (T : ptab) (i j x : Z) : ptab := Ptab (pt_root T) (pt_mid T) (<[(i, j) := x]> (pt_low T)).

Lemma add_mid_pages T i x : pt_mid T !! i = None -> pt_pages (add_mid T i x) ≡ₚ x :: pt_pages T.
Proof.
  intros Hi. unfold pt_pages. cbn [pt_root pt_mid pt_low add_mid]. rewrite map_to_list_insert by done. cbn. apply Permutation_swap.
Qed.
Lemma add_low_pages T i j x : pt_low T !! (i, j) = None -> pt_pages (add_low T i j x) ≡ₚ x :: pt_pages T.
Proof.
  intros Hi. unfold pt_pages. cbn [pt_root pt_mid pt_low add_low]. rewrite map_to_list_insert by done. rewrite fmap_cons. cbn [snd].
  rewrite <- Permutation_middle. apply Permutation_swap.
Qed.

Lemma table_none m p j : ent m p j = 0 -> table_entry m p j None.
Proof. unfold table_entry. intros ->. done. Qed.

Lemma wf_add_mid m T i x :
  pt_wf m T -> good_page x -> x ∉ pt_pages T -> 0 <= i < 512 -> pt_mid T !! i = None ->
  pt_wf (hang m (pt_root T) i x) (add_mid T i x) /\
  forall va, pte_of (hang m (pt_root T) i x) (add_mid T i x) va = pte_of m T va.
Proof.
  intros Hw Hx Hni Hi Hnone. pose proof Hw as [H1 H2 H3 H4 H5]. assert (good_page (pt_root T)) as Hr by (by eapply pw_page, elem_root).
  assert (pt_root T <> x) as Hrx by (intros E; apply Hni; rewrite <- E; apply elem_root).
  assert (forall q, q ∈ pt_pages T -> q <> x) as Hqx by (intros q Hq ->; done).
  assert (forall j q, pt_low T !! (i, j) = Some q -> False) as Hlow.
  { intros j q E. destruct (H5 _ _ _ E) as [[p Hp] _]. congruence. }
  split.
  - constructor.
    + rewrite add_mid_pages by done. by constructor.
    + rewrite add_mid_pages by done. by constructor.
    + intros k Hk. cbn [pt_root pt_mid add_mid]. unfold table_entry. rewrite hang_parent by done. case_decide as E.
      * subst. by rewrite lookup_insert_eq.
      * rewrite lookup_insert_ne by done. by apply H3.
    + intros k p. cbn [pt_mid add_mid pt_low]. destruct (decide (k = i)) as [->|Hk].
      * rewrite lookup_insert_eq. intros [= <-]. split; [done|]. intros j Hj.
        destruct (pt_low T !! (i, j)) as [q|] eqn:E; [by apply Hlow in E|]. apply table_none. by apply hang_new.
      * rewrite lookup_insert_ne by done. intros Hp. destruct (H4 k p Hp) as [Hkr Hj]. split; [done|]. intros j Hjr.
        specialize (Hj j Hjr). unfold table_entry in *. rewrite hang_other; [done|done|done|done| | | |done].
        -- by eapply pw_page, elem_mid.
        -- intros ->. apply list.NoDup_cons in H2 as [Hn _]. apply Hn, elem_of_app. left.
           apply list_elem_of_fmap. exists (k, pt_root T). split; [done|]. by apply elem_of_map_to_list.
        -- by eapply Hqx, elem_mid.
    + intros k j q E. cbn [pt_low pt_mid add_mid] in *. destruct (H5 _ _ _ E) as [Hs Hj]. split; [|done].
      destruct (decide (k = i)) as [->|]; [rewrite lookup_insert_eq; by eexists|by rewrite lookup_insert_ne].
  - intros va. unfold pte_of. cbn [pt_low add_mid]. destruct (pt_low T !! _) as [q|] eqn:E; [|done].
    apply hang_other; try done; [by eapply pw_page, elem_low|by eapply low_not_root|by eapply Hqx, elem_low|by apply PX_range].
Qed.

Lemma wf_add_low m T i j p x :
  pt_wf m T -> good_page x -> x ∉ pt_pages T -> 0 <= j < 512 -> pt_mid T !! i = Some p -> pt_low T !! (i, j) = None ->
  pt_wf (hang m p j x) (add_low T i j x) /\
  forall va, pte_of (hang m p j x) (add_low T i j x) va = pte_of m T va.
Proof.
  intros Hw Hx Hni Hj Hmid Hnone. pose proof Hw as [H1 H2 H3 H4 H5]. assert (good_page p) as Hp by (by eapply pw_page, elem_mid).
  assert (forall q, q ∈ pt_pages T -> q <> x) as Hqx by (intros q Hq ->; done).
  assert (p <> x) as Hpx by (by eapply Hqx, elem_mid).
  assert (pt_root T <> p) as Hrp.
  { intros E. apply list.NoDup_cons in H2 as [Hn _]. apply Hn, elem_of_app. left.
    apply list_elem_of_fmap. exists (i, p). split; [done|]. by apply elem_of_map_to_list. }
  split.
  - constructor.
    + rewrite add_low_pages by done. by constructor.
    + rewrite add_low_pages by done. by constructor.
    + intros k Hk. specialize (H3 k Hk). cbn [pt_root pt_mid add_low]. unfold table_entry in *.
      rewrite hang_other; try done; [by eapply pw_page, elem_root|by eapply Hqx, elem_root].
    + intros k p'. cbn [pt_mid add_low pt_low]. intros Hp'. destruct (H4 k p' Hp') as [Hk Hjs]. split; [done|]. intros j' Hj'.
      specialize (Hjs j' Hj'). destruct (decide (k = i)) as [->|Hki].
      * assert (p' = p) as -> by congruence. unfold table_entry in *. rewrite hang_parent by done. case_decide as E.
        -- subst j'. by rewrite lookup_insert_eq.
        -- rewrite lookup_insert_ne by congruence. done.
      * rewrite lookup_insert_ne by congruence. unfold table_entry in *. rewrite hang_other; try done.
        -- by eapply pw_page, elem_mid.
        -- intros ->. apply Hki. by eapply mid_value_inj.
        -- by eapply Hqx, elem_mid.
    + intros k j' q. cbn [pt_low pt_mid add_low]. destruct (decide ((k, j') = (i, j))) as [[= -> ->]|Hne].
      * intros _. split; [by eexists|done].
      * rewrite lookup_insert_ne by done. apply H5.
  - intros va. unfold pte_of. cbn [pt_low add_low]. destruct (decide ((PX 2 va, PX 1 va) = (i, j))) as [E|Hne].
    + rewrite E, lookup_insert_eq, Hnone. apply hang_new; try done. by apply PX_range.
    + rewrite lookup_insert_ne by done. destruct (pt_low T !! (PX 2 va, PX 1 va)) as [q|] eqn:E; [|done].
      apply hang_other; try done; [by eapply pw_page, elem_low|exact (low_not_mid _ _ _ _ _ H2 E Hmid)|by eapply Hqx, elem_low|by apply PX_range].
Qed.
End Tree.

(** ** walk() *)

Section Walk.
Context (kend : Z).
Hypothesis kend_pos : 0 < kend.
Abbreviation good_page := (good_page kend).
Abbreviation pt_wf := (pt_wf kend).
Abbreviation free_list := (free_list kend).

(** A page table and the free list, apart from each other. *)
Record vm_ok (k : kmem) (T : ptab) (l : list Z) : Prop := VmOk {
  vo_wf : pt_wf (kmem_mem k) T;
  vo_free : free_list k l;
  vo_nodup : NoDup (pt_pages T ++ l)
}.

(** The tree may grow with pages from the free list, keeping every translation. *)
Record pt_grow (k : kmem) (T : ptab) (l : list Z) (k' : kmem) (T' : ptab) (l' : list Z) : Prop := PtGrow {
  pg_ok : vm_ok k' T' l';
  pg_root : pt_root T' = pt_root T;
  pg_keep : forall key q, pt_low T !! key = Some q -> pt_low T' !! key = Some q;
  pg_split : exists ps, l = ps ++ l' /\ pt_pages T' ≡ₚ ps ++ pt_pages T;
  pg_pte : forall va, pte_of (kmem_mem k') T' va = pte_of (kmem_mem k) T va;
  pg_out : outside (pt_pages T') (kmem_mem k) (kmem_mem k')
}.

Lemma pt_grow_refl k T l : vm_ok k T l -> pt_grow k T l k T l.
Proof. intros H. constructor; try done. by exists []. Qed.

Lemma pt_grow_trans k1 T1 l1 k2 T2 l2 k3 T3 l3 :
  pt_grow k1 T1 l1 k2 T2 l2 -> pt_grow k2 T2 l2 k3 T3 l3 -> pt_grow k1 T1 l1 k3 T3 l3.
Proof.
  intros [A1 A2 A3 (ps & A4 & A5) A6 A7] [B1 B2 B3 (ps' & B4 & B5) B6 B7]. constructor.
  - done.
  - congruence.
  - auto.
  - exists (ps ++ ps'). rewrite <- app_assoc, <- B4. split; [done|]. rewrite B5, A5. rewrite !app_assoc. apply Permutation_app; [apply Permutation_app_comm|done].
  - intros va. by rewrite B6, A6.
  - eapply outside_trans; [|exact B7]. eapply outside_mono; [|exact A7]. intros p Hp. rewrite B5. apply elem_of_app. by right.
Qed.

Lemma walk_from_found levels e p va alloc h tr k (Q : Z -> world kmem -> Prop) pte lv :
  load64 (kmem_mem k) (pte_addr pte lv va) = e -> has e PTE_V = true -> PTE2PA e = p ->
  wp (walk_from levels p va alloc) Q (World h tr k) -> wp (walk_from (lv :: levels) pte va alloc) Q (World h tr k).
Proof. intros He Hv Hp Hw. cbn [walk_from]. unfold rd64. do 2 wp_step. cbn [user]. rewrite He, Hv, Hp. exact Hw. Qed.

Lemma walk_from_stop levels e va h tr k (Q : Z -> world kmem -> Prop) pte lv :
  load64 (kmem_mem k) (pte_addr pte lv va) = e -> has e PTE_V = false ->
  Q 0 (World h tr k) -> wp (walk_from (lv :: levels) pte va false) Q (World h tr k).
Proof. intros He Hv HQ. cbn [walk_from]. unfold rd64. do 2 wp_step. cbn [user]. rewrite He, Hv. cbn [negb]. by wp_step. Qed.

Lemma table_found m p j q : table_entry m p j (Some q) -> good_page q ->
  has (ent m p j) PTE_V = true /\ PTE2PA (ent m p j) = q.
Proof. intros E Hq. cbn in E. rewrite E. destruct (table_pte kend kend_pos q Hq) as (H1 & H2 & _). done. Qed.

Lemma MAXVA_test va : 0 <= va < MAXVA -> (va >=? MAXVA) = false.
Proof. intros. rewrite Z.geb_leb. apply Z.leb_gt. lia. Qed.

(** walk() without allocation: the slot of the entry, or null. *)
Lemma walk_false_wp k T va h tr (Q : Z -> world kmem -> Prop) :
  pt_wf (kmem_mem k) T -> 0 <= va < MAXVA ->
  Q (default 0 (pte_slot T va)) (World h tr k) -> wp (walk (pt_root T) va false) Q (World h tr k).
Proof.
  intros Hw Hva HQ. unfold walk. rewrite MAXVA_test by done. unfold pte_slot in HQ.
  pose proof (pw_root _ _ _ Hw (PX 2 va) ltac:(by apply PX_range)) as Hr.
  destruct (pt_mid T !! PX 2 va) as [p|] eqn:Em.
  - destruct (table_found _ _ _ _ Hr) as [Hv Hp]; [by eapply pw_page, elem_mid|].
    eapply walk_from_found; [reflexivity|exact Hv|exact Hp|].
    pose proof (proj2 (pw_mid _ _ _ Hw _ _ Em) (PX 1 va) ltac:(by apply PX_range)) as Hm.
    destruct (pt_low T !! (PX 2 va, PX 1 va)) as [q|] eqn:El.
    + destruct (table_found _ _ _ _ Hm) as [Hv' Hq]; [by eapply pw_page, elem_low|].
      eapply walk_from_found; [reflexivity|exact Hv'|exact Hq|]. cbn [walk_from]. wp_step. exact HQ.
    + eapply walk_from_stop; [reflexivity|exact Hm|exact HQ].
  - assert (pt_low T !! (PX 2 va, PX 1 va) = None) as El.
    { destruct (pt_low T !! _) as [q|] eqn:E; [|done]. destruct (pw_low _ _ _ Hw _ _ _ E) as [[p Hp] _]. congruence. }
    rewrite El in HQ. eapply walk_from_stop; [reflexivity|exact Hr|exact HQ].
Qed.

(** Allocating a table and hanging it in entry [j] of page [p]. *)
Record hung (k : kmem) (T : ptab) (l : list Z) (p j x : Z) (l' : list Z) (k' : kmem) (m1 : mem) : Prop := Hung {
  hu_list : l = x :: l';
  hu_good : good_page x;
  hu_new : x ∉ pt_pages T;
  hu_wf : pt_wf m1 T;
  hu_pte : forall va, pte_of m1 T va = pte_of (kmem_mem k) T va;
  hu_mem : kmem_mem k' = hang m1 p j x;
  hu_free : free_list k' l';
  hu_out : outside (x :: pt_pages T) (kmem_mem k) (kmem_mem k')
}.

Lemma hang_wp k T l p j h tr (K : Z -> M kmem Z) (Q : Z -> world kmem -> Prop) :
  vm_ok k T l -> LKmem ∉ h -> p ∈ pt_pages T -> 0 <= j < 512 ->
  (l = [] -> Q 0 (World h tr k)) ->
  (forall x l' k' m1, hung k T l p j x l' k' m1 -> wp (K x) Q (World h tr k')) ->
  wp (let* x := kalloc in
      if x =? 0 then ret 0 else
      memset0 x PGSIZE ;;
      wr64 (p + 8 * j) (Z.lor (PA2PTE x) PTE_V) ;;
      K x) Q (World h tr k).
Proof.
  intros [Hw Hf Hnd] Hlk Hp Hj Hnil HK. wp_step. apply (kalloc_wp kend kend_pos l); [done|done|..].
  - intros ->. rewrite Z.eqb_refl. wp_step. by apply Hnil.
  - intros x l' k1 -> Hf1 Hs1 _. cbn [user held trace] in *.
    assert (good_page x) as Hx. { destruct Hf as (_ & _ & Hg & _). by apply Forall_cons_1 in Hg as [? _]. }
    rewrite (proj2 (Z.eqb_neq _ _)) by (by eapply good_page_ne_0).
    apply list.NoDup_app in Hnd as (_ & Hd & _).
    assert (forall q, q ∈ pt_pages T -> q <> x) as Hqx. { intros q Hq ->. apply (Hd x Hq). by left. }
    assert (Forall good_page [x]) as HP by (constructor; [done|constructor]).
    assert (pt_wf (kmem_mem k1) T) as Hw1.
    { eapply pt_wf_outside; [exact Hw|by apply outside_one|done| |].
      - intros Hin. apply list_elem_of_singleton in Hin. by eapply Hqx; [apply elem_root|].
      - intros i q Hq Hin. apply list_elem_of_singleton in Hin. by eapply Hqx; [eapply elem_mid|]. }
    unfold memset0, wr64. wp_step. wp_step. wp_step. wp_step. cbn [set_mem kmem_mem kmem_freelist].
    apply (HK x l' _ (kmem_mem k1)). constructor; [reflexivity|exact Hx| |exact Hw1| |reflexivity| |].
    + intros Hin. by eapply Hqx.
    + intros va. eapply pte_of_outside; [exact Hw|by apply outside_one|done|].
      intros i q Hq Hin. apply list_elem_of_singleton in Hin. by eapply Hqx; [eapply elem_low|].
    + cbn [kmem_mem set_mem]. apply (free_list_outside kend k1 _ _ [p; x]); [done| | | |].
      * exact (hang_outside (kmem_mem k1) p j x Hj).
      * constructor; [by eapply pw_page|done].
      * intros q Hq Hin. apply elem_of_cons in Hq as [->|Hq]; [apply (Hd p Hp); by right|].
        apply list_elem_of_singleton in Hq as ->. destruct Hf as (_ & Hnd & _). by apply list.NoDup_cons in Hnd as [Hn _].
      * apply mem_bytes_store64, mem_bytes_memset. apply Hf1.
    + cbn [kmem_mem set_mem]. eapply outside_trans; [eapply outside_mono; [|by apply outside_one]|eapply outside_mono; [|exact (hang_outside (kmem_mem k1) p j x Hj)]].
      * intros q Hq. apply list_elem_of_singleton in Hq as ->. by left.
      * intros q Hq. apply elem_of_cons in Hq as [->|Hq]; [by right|]. apply list_elem_of_singleton in Hq as ->. by left.
Qed.

Lemma grown_nodup T l x l' T' :
  NoDup (pt_pages T ++ l) -> l = x :: l' -> pt_pages T' ≡ₚ x :: pt_pages T -> NoDup (pt_pages T' ++ l').
Proof.
  intros Hnd -> HP. assert (pt_pages T' ++ l' ≡ₚ pt_pages T ++ x :: l') as E; [|by rewrite E].
  rewrite HP. apply Permutation_middle.
Qed.

Lemma grow_mid k T l i x l' k' m1 :
  vm_ok k T l -> 0 <= i < 512 -> pt_mid T !! i = None -> hung k T l (pt_root T) i x l' k' m1 ->
  pt_grow k T l k' (add_mid T i x) l'.
Proof.
  intros [Hw Hf Hnd] Hi Hnone [H1 H2 H3 H4 H5 H6 H7 H8].
  destruct (wf_add_mid kend kend_pos m1 T i x H4 H2 H3 Hi Hnone) as [Hw' Hp'].
  pose proof (add_mid_pages T i x Hnone) as HP. constructor.
  - constructor; [by rewrite H6|done|by eapply grown_nodup].
  - done.
  - done.
  - exists [x]. split; [exact H1|exact HP].
  - intros va. by rewrite H6, Hp', H5.
  - eapply outside_mono; [|exact H8]. intros q Hq. by rewrite HP.
Qed.

Lemma grow_low k T l i j p x l' k' m1 :
  vm_ok k T l -> 0 <= j < 512 -> pt_mid T !! i = Some p -> pt_low T !! (i, j) = None -> hung k T l p j x l' k' m1 ->
  pt_grow k T l k' (add_low T i j x) l'.
Proof.
  intros [Hw Hf Hnd] Hj Hmid Hnone [H1 H2 H3 H4 H5 H6 H7 H8].
  destruct (wf_add_low kend kend_pos m1 T i j p x H4 H2 H3 Hj Hmid Hnone) as [Hw' Hp'].
  pose proof (add_low_pages T i j x Hnone) as HP. constructor.
  - constructor; [by rewrite H6|done|by eapply grown_nodup].
  - done.
  - intros key q Hq. cbn [pt_low add_low]. rewrite lookup_insert_ne; [done|]. intros <-. congruence.
  - exists [x]. split; [exact H1|exact HP].
  - intros va. by rewrite H6, Hp', H5.
  - eapply outside_mono; [|exact H8]. intros q Hq. by rewrite HP.
Qed.

Lemma low_addr_pos m T key q va : pt_wf m T -> pt_low T !! key = Some q -> pte_addr q 0 va <> 0.
Proof.
  intros Hw Hq. assert (good_page q) as [_ Hg] by (by eapply pw_page, elem_low). unfold pte_addr.
  pose proof (PX_range 0 va ltac:(lia)). lia.
Qed.

(** What walk() with allocation answers: null when the free list runs out, else the
    slot, in a tree that may have grown. *)
Definition walked (va : Z) (k : kmem) (T : ptab) (l : list Z) (r : Z) (k' : kmem) : Prop :=
  exists T' l', pt_grow k T l k' T' l' /\ (r = 0 /\ l' = [] \/ pte_slot T' va = Some r /\ r <> 0).

Lemma walk_low_wp k T l va p h tr (Q : Z -> world kmem -> Prop) :
  vm_ok k T l -> LKmem ∉ h -> pt_mid T !! PX 2 va = Some p ->
  (forall r k', walked va k T l r k' -> Q r (World h tr k')) ->
  wp (walk_from [1] p va true) Q (World h tr k).
Proof.
  intros Hok Hlk Hmid HQ. pose proof (vo_wf _ _ _ Hok) as Hw. pose proof (PX_range 1 va ltac:(lia)) as Hj.
  pose proof (proj2 (pw_mid _ _ _ Hw _ _ Hmid) _ Hj) as Hm.
  destruct (pt_low T !! (PX 2 va, PX 1 va)) as [q|] eqn:El.
  - destruct (table_found _ _ _ _ Hm) as [Hv Hq]; [by eapply pw_page, elem_low|].
    eapply walk_from_found; [reflexivity|exact Hv|exact Hq|]. cbn [walk_from]. wp_step. apply HQ. exists T, l.
    split; [by apply pt_grow_refl|]. right. unfold pte_slot. rewrite El. split; [done|]. by eapply low_addr_pos.
  - cbn [walk_from]. unfold rd64 at 1. do 2 wp_step. cbn [user]. change (load64 (kmem_mem k) (pte_addr p 1 va)) with (ent (kmem_mem k) p (PX 1 va)).
    cbn in Hm. rewrite Hm. cbn [negb]. apply (hang_wp k T l p (PX 1 va)); [done|done|by eapply elem_mid|done| |].
    + intros ->. apply HQ. exists T, []. split; [by apply pt_grow_refl|]. by left.
    + intros x l' k' m1 Hh. wp_step. apply HQ. pose proof (grow_low _ _ _ _ _ _ _ _ _ _ Hok Hj Hmid El Hh) as Hg.
      exists (add_low T (PX 2 va) (PX 1 va) x), l'. split; [done|]. right. unfold pte_slot. cbn [pt_low add_low].
      rewrite lookup_insert_eq. split; [done|]. eapply low_addr_pos; [apply Hg|]. cbn [pt_low add_low]. apply lookup_insert_eq.
Qed.

Lemma walk_true_wp k T l va h tr (Q : Z -> world kmem -> Prop) :
  vm_ok k T l -> LKmem ∉ h -> 0 <= va < MAXVA ->
  (forall r k', walked va k T l r k' -> Q r (World h tr k')) ->
  wp (walk (pt_root T) va true) Q (World h tr k).
Proof.
  intros Hok Hlk Hva HQ. unfold walk. rewrite MAXVA_test by done. pose proof (vo_wf _ _ _ Hok) as Hw.
  pose proof (PX_range 2 va ltac:(lia)) as Hi. pose proof (pw_root _ _ _ Hw _ Hi) as Hr.
  destruct (pt_mid T !! PX 2 va) as [p|] eqn:Em.
  - destruct (table_found _ _ _ _ Hr) as [Hv Hp]; [by eapply pw_page, elem_mid|].
    eapply walk_from_found; [reflexivity|exact Hv|exact Hp|]. by apply (walk_low_wp k T l).
  - cbn [walk_from]. unfold rd64 at 1. do 2 wp_step. cbn [user].
    change (load64 (kmem_mem k) (pte_addr (pt_root T) 2 va)) with (ent (kmem_mem k) (pt_root T) (PX 2 va)).
    cbn in Hr. rewrite Hr. cbn [negb]. apply (hang_wp k T l (pt_root T) (PX 2 va)); [done|done|apply elem_root|done| |].
    + intros ->. apply HQ. exists T, []. split; [by apply pt_grow_refl|]. by left.
    + intros x l' k' m1 Hh. pose proof (grow_mid _ _ _ _ _ _ _ _ Hok Hi Em Hh) as Hg.
      apply (walk_low_wp k' (add_mid T (PX 2 va) x) l'); [apply Hg|done|cbn [pt_mid add_mid]; apply lookup_insert_eq|].
      intros r k2 (T2 & l2 & Hg2 & Hres). apply HQ. exists T2, l2. split; [by eapply pt_grow_trans|done].
Qed.
End Walk.
