(* ===== verification/VmCopy.v ===== *)
(** * Copying between kernel and user memory (kernel/vm.c: walkaddr, copyout, copyin,
    copyinstr)

    [uphys] is the translation of a user address: where the byte is in physical
    memory if the page is valid and the user's.  copyout() stores exactly the bytes
    it is given at exactly the translated addresses, copyin() reads exactly them,
    and both stop at the first address the user may not touch. *)

From S2P Require Import Prelude Machine Mem Kalloc Vm VmTable.

Open Scope Z_scope.

#[local] Opaque memset memmove store64 load64 load store.

(** ** Page offsets *)

Definition page_of (va : Z) : Z := va - va mod PGSIZE.

Ltac pages := unfold page_of, in_page in *; change PGSIZE with 4096 in *; Z.div_mod_to_equations; lia.

Lemma page_of_range va : 0 <= va -> 0 <= page_of va <= va /\ va < page_of va + PGSIZE /\ page_of va mod PGSIZE = 0.
Proof. intros. split; [pages|]. split; [pages|]. unfold page_of. rewrite Zminus_mod_idemp_r, Z.sub_diag. done. Qed.

Lemma page_of_same va va' : 0 <= va -> 0 <= va' -> va / PGSIZE = va' / PGSIZE -> page_of va = page_of va'.
Proof. intros. pages. Qed.

Lemma page_of_in va p : p mod PGSIZE = 0 -> p <= va < p + PGSIZE -> page_of va = p.
Proof. intros. pages. Qed.

Lemma page_below va : 0 <= va < MAXVA -> page_of va < MAXVA.
Proof. change MAXVA with 274877906944. intros. pages. Qed.

(** ** User addresses *)

Definition user_pte (e : Z) : bool := has e PTE_V && has e PTE_U.

Definition uphys (m : mem) (T : ptab) (va : Z) : option Z :=
  if bool_decide (0 <= va < MAXVA) && user_pte (pte_of m T (page_of va))
  then Some (PTE2PA (pte_of m T (page_of va)) + va mod PGSIZE) else None.

(** The byte the user finds at [va]. *)
Definition ubyte (k : kmem) (T : ptab) (va : Z) : option Z := rd8 (kmem_mem k) <$> uphys (kmem_mem k) T va.

Definition aligned (va : Z) : Prop := va mod PGSIZE = 0.

(** A process's memory: the pages below TRAPFRAME are its own, each mapped once,
    apart from the page table and the free list; above, nothing is accessible to
    the user. *)
Record us_ok (kend : Z) (k : kmem) (T : ptab) (l : list Z) : Prop := UsOk {
  us_vm : vm_ok kend k T l;
  us_own : forall va, aligned va -> 0 <= va < TRAPFRAME -> has (pte_of (kmem_mem k) T va) PTE_V = true ->
    let e := pte_of (kmem_mem k) T va in
    good_page kend (PTE2PA e) /\ PTE2PA e ∉ pt_pages T /\ PTE2PA e ∉ l /\ PTE_FLAGS e <> PTE_V;
  us_inj : forall va va', aligned va -> aligned va' -> 0 <= va < TRAPFRAME -> 0 <= va' < TRAPFRAME ->
    has (pte_of (kmem_mem k) T va) PTE_V = true -> has (pte_of (kmem_mem k) T va') PTE_V = true ->
    PTE2PA (pte_of (kmem_mem k) T va) = PTE2PA (pte_of (kmem_mem k) T va') -> va = va';
  us_high : forall va, aligned va -> TRAPFRAME <= va < MAXVA -> user_pte (pte_of (kmem_mem k) T va) = false
}.

Section Copy.
Context (kend : Z).
Hypothesis kend_pos : 0 < kend.
Abbreviation us_ok := (us_ok kend).

Section User.
Context (k : kmem) (T : ptab) (l : list Z).
Hypothesis Hok : us_ok k T l.
Abbreviation m := (kmem_mem k).

(** An accessible page is one of the process's own. *)
Lemma user_page va :
  aligned va -> 0 <= va < MAXVA -> user_pte (pte_of m T va) = true ->
  0 <= va < TRAPFRAME /\ has (pte_of m T va) PTE_V = true /\ good_page kend (PTE2PA (pte_of m T va)) /\
  PTE2PA (pte_of m T va) ∉ pt_pages T /\ PTE2PA (pte_of m T va) ∉ l.
Proof.
  intros Ha Hva Hu. destruct (decide (va < TRAPFRAME)) as [Hlt|Hge].
  - assert (has (pte_of m T va) PTE_V = true) as Hv by (unfold user_pte in Hu; by apply andb_true_iff in Hu as [? _]).
    destruct (us_own _ _ _ _ Hok va Ha ltac:(lia) Hv) as (H1 & H2 & H3 & _). split; [lia|]. done.
  - rewrite (us_high _ _ _ _ Hok va Ha) in Hu by lia. done.
Qed.

Lemma uphys_some va b :
  uphys m T va = Some b ->
  0 <= va < MAXVA /\ user_pte (pte_of m T (page_of va)) = true /\ b = PTE2PA (pte_of m T (page_of va)) + va mod PGSIZE.
Proof.
  unfold uphys. case_bool_decide; cbn; [|done]. destruct (user_pte _) eqn:E; [|done]. by intros [= <-].
Qed.

(** Two user addresses have different bytes. *)
Lemma uphys_inj va va' b : uphys m T va = Some b -> uphys m T va' = Some b -> va = va'.
Proof.
  intros H1 H2. apply uphys_some in H1 as (R1 & U1 & E1). apply uphys_some in H2 as (R2 & U2 & E2).
  destruct (page_of_range va ltac:(lia)) as (A1 & A2 & A3). destruct (page_of_range va' ltac:(lia)) as (B1 & B2 & B3).
  pose proof (page_below va R1). pose proof (page_below va' R2).
  destruct (user_page (page_of va) A3 ltac:(lia) U1) as (C1 & C2 & C3 & _). destruct (user_page (page_of va') B3 ltac:(lia) U2) as (D1 & D2 & D3 & _).
  assert (PTE2PA (pte_of m T (page_of va)) = PTE2PA (pte_of m T (page_of va'))) as E.
  { apply (good_page_disjoint kend _ _ b); [done|done|subst b; pages|rewrite E2; pages]. }
  assert (page_of va = page_of va') as Ep by (by apply (us_inj _ _ _ _ Hok)).
  rewrite Ep in E1. rewrite E1 in E2. pages.
Qed.

(** walkaddr() translates a page the user may touch. *)
Lemma walkaddr_wp va h tr (Q : Z -> world kmem -> Prop) :
  0 <= va -> aligned va -> Q (default 0 (uphys m T va)) (World h tr k) -> wp (walkaddr (pt_root T) va) Q (World h tr k).
Proof.
  intros Hva Ha HQ. unfold walkaddr. assert (page_of va = va) as Ep by (unfold page_of; rewrite Ha; lia).
  unfold uphys in HQ. rewrite Ep, Ha, Z.add_0_r in HQ. destruct (Z.geb_spec va MAXVA) as [Hge|Hlt].
  { wp_step. rewrite bool_decide_eq_false_2 in HQ by lia. exact HQ. }
  rewrite bool_decide_eq_true_2 in HQ by lia. cbn [andb] in HQ.
  pose proof (vo_wf _ _ _ _ (us_vm _ _ _ _ Hok)) as Hw.
  wp_step. apply (walk_false_wp kend kend_pos _ T); [done|lia|]. unfold pte_slot, pte_of in *.
  destruct (pt_low T !! (PX 2 va, PX 1 va)) as [q|] eqn:E; cbn [fmap option_fmap option_map default from_option id].
  - rewrite (proj2 (Z.eqb_neq _ _)) by (by eapply low_addr_pos). unfold rd64. do 2 wp_step. cbn [user].
    change (load64 m (pte_addr q 0 va)) with (ent m q (PX 0 va)). unfold user_pte in HQ.
    destruct (has (ent m q (PX 0 va)) PTE_V); cbn [negb andb] in *; [|by wp_step].
    destruct (has (ent m q (PX 0 va)) PTE_U); cbn [negb andb] in *; by wp_step.
  - rewrite Z.eqb_refl. wp_step. exact HQ.
Qed.

Lemma uphys_nonzero va b : aligned va -> uphys m T va = Some b -> b <> 0.
Proof.
  intros Ha H. apply uphys_some in H as (R & U & ->). assert (page_of va = va) as Ep by (unfold page_of; rewrite Ha; lia).
  rewrite Ep in *. destruct (user_page va Ha R U) as (_ & _ & [_ Hg] & _). rewrite Ha. lia.
Qed.

(** The bytes of a page are consecutive. *)
Lemma uphys_page va va0 : 0 <= va0 -> aligned va0 -> va0 <= va < va0 + PGSIZE ->
  uphys m T va = (fun b => b + (va - va0)) <$> uphys m T va0.
Proof.
  intros H0 Ha Hva. unfold uphys. assert (page_of va = va0) as -> by (by apply page_of_in).
  assert (page_of va0 = va0) as -> by (unfold page_of; rewrite Ha; lia).
  assert ((0 <= va < MAXVA) <-> (0 <= va0 < MAXVA)) as Hiff.
  { unfold aligned in Ha. change MAXVA with 274877906944. pages. }
  rewrite (bool_decide_ext _ _ Hiff). destruct (bool_decide _ && _); [|done]. cbn. f_equal.
  unfold aligned in Ha. pages.
Qed.

(** Storing into one of the process's pages. *)
Lemma us_store va0 b m' :
  0 <= va0 -> aligned va0 -> uphys m T va0 = Some b -> outside [b] m m' -> mem_bytes m' ->
  us_ok (Kmem m' (kmem_freelist k)) T l /\ (forall va, pte_of m' T va = pte_of m T va) /\ (forall va, uphys m' T va = uphys m T va).
Proof.
  intros H0 Ha Hb Ho Hbytes. apply uphys_some in Hb as (R & U & ->).
  assert (page_of va0 = va0) as Ep by (unfold page_of; rewrite Ha; lia). rewrite Ep in *. rewrite Ha, Z.add_0_r in Ho.
  destruct (user_page va0 Ha R U) as (_ & _ & Hg & Hnp & Hnl). destruct (us_vm _ _ _ _ Hok) as [Hw Hf Hnd].
  assert (Forall (good_page kend) [PTE2PA (pte_of m T va0)]) as HP by (constructor; [done|constructor]).
  assert (forall p, p ∈ pt_pages T -> p ∉ [PTE2PA (pte_of m T va0)]) as Hd.
  { intros p Hp Hin. apply list_elem_of_singleton in Hin. by subst. }
  assert (forall va, pte_of m' T va = pte_of m T va) as Hpte.
  { intros va. eapply pte_of_outside; [exact Hw|exact Ho|done|]. intros i q Hq. apply Hd. by eapply elem_low. }
  split; [|split; [done|intros va; unfold uphys; by rewrite Hpte]].
  destruct Hok as [_ Hown Hinj Hhigh]. constructor; cbn [kmem_mem].
  - constructor; [|eapply free_list_outside; [exact Hf|exact Ho|done| |done]|done].
    + eapply pt_wf_outside; [exact Hw|exact Ho|done|apply Hd, elem_root|]. intros i p Hp. apply Hd. by eapply elem_mid.
    + intros p Hp. apply list_elem_of_singleton in Hp as ->. done.
  - intros va Hva Hr. rewrite Hpte. by apply Hown.
  - intros va va' H1 H2 H3 H4. rewrite !Hpte. by apply Hinj.
  - intros va H1 H2. rewrite Hpte. by apply Hhigh.
Qed.
End User.

(** ** copyout() *)

(** The turns the loops make for [len] bytes from [cur]. *)
Definition pturns (len cur : Z) : Z := if len <=? 0 then 1 else (cur + len - 1) / PGSIZE - cur / PGSIZE + 2.

Lemma pturns_step len cur n :
  0 <= cur -> 0 < len -> n = Z.min (PGSIZE - (cur - page_of cur)) len ->
  0 < n <= len /\ pturns (len - n) (page_of cur + PGSIZE) = pturns len cur - 1 /\
  (n < len -> cur + n = page_of cur + PGSIZE).
Proof.
  intros Hc Hl ->. destruct (page_of_range cur Hc) as (A1 & A2 & A3). split; [lia|]. split; [|lia]. unfold pturns.
  rewrite (proj2 (Z.leb_gt len 0)) by lia. destruct (Z.leb_spec (len - Z.min (PGSIZE - (cur - page_of cur)) len) 0); pages.
Qed.

Lemma pturns_fuel len cur : 0 <= cur -> pturns (Z.of_nat len) cur <= Z.of_nat (copy_fuel len).
Proof.
  intros Hc. unfold pturns, copy_fuel. assert (0 <= Z.of_nat len / PGSIZE) by (apply Z.div_pos; [lia|done]).
  rewrite !Nat2Z.inj_succ, Z2Nat.id by done. destruct (Z.leb_spec (Z.of_nat len) 0); pages.
Qed.

Lemma pturns_pos len cur : 0 <= cur -> 1 <= pturns len cur.
Proof. intros. unfold pturns. destruct (Z.leb_spec len 0); [lia|pages]. Qed.

(** The first [n] bytes of [src] are in place. *)
Record copied_out (T : ptab) (l : list Z) (dstva : Z) (src : list Z) (n : nat) (k k' : kmem) : Prop := CopiedOut {
  co_ok : us_ok k' T l;
  co_map : forall va, uphys (kmem_mem k') T va = uphys (kmem_mem k) T va;
  co_in : forall i, (i < n)%nat -> exists b, uphys (kmem_mem k) T (dstva + Z.of_nat i) = Some b /\
    rd8 (kmem_mem k') b = default 0 (src !! i);
  co_out : forall b, (forall i, (i < n)%nat -> uphys (kmem_mem k) T (dstva + Z.of_nat i) <> Some b) ->
    rd8 (kmem_mem k') b = rd8 (kmem_mem k) b
}.

Lemma copied_out_start T l dstva src k : us_ok k T l -> copied_out T l dstva src 0 k k.
Proof. intros H. constructor; [done|done|lia|done]. Qed.

Lemma store_in_page m0 b off bs :
  Forall is_byte bs -> 0 <= off -> off + Z.of_nat (length bs) <= PGSIZE -> outside [b] m0 (store m0 (b + off) bs).
Proof.
  intros Hb H0 Hl x Hx. apply rd8_store_out; [done|]. specialize (Hx b ltac:(by left)). unfold in_page in Hx. lia.
Qed.

Lemma copied_out_step T l dstva src n k k1 j b :
  copied_out T l dstva src n k k1 -> Forall is_byte src -> 0 <= dstva ->
  let cur := dstva + Z.of_nat n in
  (n + j <= length src)%nat -> Z.of_nat j <= PGSIZE - (cur - page_of cur) -> uphys (kmem_mem k) T (page_of cur) = Some b ->
  copied_out T l dstva src (n + j) k
    (Kmem (store (kmem_mem k1) (b + (cur - page_of cur)) (take j (drop n src))) (kmem_freelist k1)).
Proof.
  intros [H1 H2 H3 H4] Hsrc Hd cur Hj Hfit Hb. destruct (page_of_range cur ltac:(lia)) as (A1 & A2 & A3).
  set (bs := take j (drop n src)). assert (length bs = j) as Hlen by (unfold bs; rewrite length_take, length_drop; lia).
  assert (Forall is_byte bs) as Hbs by (unfold bs; auto using Forall_take, Forall_drop).
  set (m' := store (kmem_mem k1) (b + (cur - page_of cur)) bs).
  assert (uphys (kmem_mem k1) T (page_of cur) = Some b) as Hb1 by (by rewrite H2).
  destruct (us_store k1 T l H1 (page_of cur) b m') as (S1 & S2 & S3); try done; [lia| | |].
  { apply store_in_page; [done|lia|rewrite Hlen; lia]. }
  { apply mem_bytes_store. destruct (vo_free _ _ _ _ (us_vm _ _ _ _ H1)) as (_ & _ & _ & Hbb). exact Hbb. }
  assert (forall i, (i < j)%nat -> uphys (kmem_mem k) T (cur + Z.of_nat i) = Some (b + (cur - page_of cur) + Z.of_nat i)) as Hin.
  { intros i Hi. rewrite (uphys_page k T _ (page_of cur)) by (done || lia). rewrite Hb. cbn. f_equal. lia. }
  assert (forall x, rd8 m' x = if decide (b + (cur - page_of cur) <= x < b + (cur - page_of cur) + Z.of_nat j)
     then default 0 (bs !! Z.to_nat (x - (b + (cur - page_of cur)))) else rd8 (kmem_mem k1) x) as Hrd.
  { intros x. unfold m'. rewrite rd8_store by done. by rewrite Hlen. }
  constructor; cbn [kmem_mem]; fold m'.
  - exact S1.
  - intros va. by rewrite S3, H2.
  - intros i Hi. destruct (decide (i < n)%nat) as [Hlt|Hge].
    + destruct (H3 i Hlt) as (x & Hx & Hr). exists x. split; [done|]. rewrite Hrd, decide_False; [done|].
      intros Hrange. set (o := x - (b + (cur - page_of cur))) in *.
      assert (dstva + Z.of_nat i = cur + Z.of_nat (Z.to_nat o)) as E; [|lia].
      apply (uphys_inj k1 T l H1 _ _ x); rewrite H2; [done|]. rewrite Hin by lia. f_equal. lia.
    + exists (b + (cur - page_of cur) + Z.of_nat (i - n)). split.
      * rewrite <- Hin by lia. f_equal. lia.
      * rewrite Hrd, decide_True by lia. f_equal. unfold bs. rewrite lookup_take_lt by lia. rewrite lookup_drop. f_equal. lia.
  - intros x Hx. rewrite Hrd. rewrite decide_False.
    + apply H4. intros i Hi. apply Hx. lia.
    + intros Hrange. set (o := Z.to_nat (x - (b + (cur - page_of cur)))). apply (Hx (n + o)%nat); [lia|].
      replace (dstva + Z.of_nat (n + o)) with (cur + Z.of_nat o) by lia. rewrite Hin by lia. f_equal. lia.
Qed.

(** One more byte, copied on its own. *)
Lemma copied_out_snoc T l dstva src n c k k1 k2 :
  copied_out T l dstva src n k k1 -> src !! n = Some c -> copied_out T l (dstva + Z.of_nat n) [c] 1 k1 k2 ->
  copied_out T l dstva src (S n) k k2.
Proof.
  intros [A1 A2 A3 A4] Hc [B1 B2 B3 B4]. destruct (B3 0%nat ltac:(lia)) as (b & Hb & Hrb).
  rewrite A2 in Hb. cbn in Hrb. rewrite Z.add_0_r in Hb.
  assert (forall x, x <> b -> rd8 (kmem_mem k2) x = rd8 (kmem_mem k1) x) as Hout.
  { intros x Hx. apply B4. intros i Hi. rewrite A2. replace i with 0%nat by lia. rewrite Z.add_0_r. congruence. }
  split.
  - done.
  - intros va. by rewrite B2, A2.
  - intros i Hi. destruct (decide (i = n)) as [->|].
    + exists b. rewrite Hc. done.
    + destruct (A3 i ltac:(lia)) as (x & Hx & Hr). exists x. split; [done|]. rewrite Hout; [done|]. intros ->.
      assert (dstva + Z.of_nat i = dstva + Z.of_nat n); [|lia]. apply (uphys_inj k1 T l A1 _ _ b); by rewrite A2.
  - intros x Hx. rewrite Hout; [apply A4; intros i Hi; apply Hx; lia|]. intros ->. by apply (Hx n); [lia|].
Qed.

Lemma copyout_loop_wp f T l dstva src n k k1 h tr (Q : Z -> world kmem -> Prop) :
  copied_out T l dstva src n k k1 -> Forall is_byte src -> 0 <= dstva -> dstva + Z.of_nat n < 2 ^ 64 -> (n <= length src)%nat ->
  pturns (Z.of_nat (length src - n)) (dstva + Z.of_nat n) <= Z.of_nat f ->
  (forall k', copied_out T l dstva src (length src) k k' -> Q 0 (World h tr k')) ->
  (forall n' k', copied_out T l dstva src n' k k' -> (n' < length src)%nat -> uphys (kmem_mem k) T (dstva + Z.of_nat n') = None ->
     Q (-1) (World h tr k')) ->
  wp (iter f (copyout_step (pt_root T)) (dstva + Z.of_nat n, drop n src)) Q (World h tr k1).
Proof.
  intros Hc Hsrc Hd Hr Hn Hf HQ0 HQ1. revert n k1 Hc Hr Hn Hf. induction f as [|f IH]; intros n k1 Hc Hr Hn Hf.
  { pose proof (pturns_pos (Z.of_nat (length src - n)) (dstva + Z.of_nat n) ltac:(lia)). lia. }
  cbn [iter]. wp_step. unfold copyout_step at 1. destruct (drop n src) as [|c cs] eqn:Edrop.
  { do 2 wp_step. assert (length (drop n src) = 0%nat) as El by (by rewrite Edrop). rewrite length_drop in El.
    apply HQ0. by replace (length src) with n by lia. }
  rewrite <- Edrop. assert (n < length src)%nat as Hlt.
  { assert (length (drop n src) = S (length cs)) as El by (by rewrite Edrop). rewrite length_drop in El. lia. }
  clear c cs Edrop. set (cur := dstva + Z.of_nat n) in *. destruct (page_of_range cur ltac:(lia)) as (A1 & A2 & A3).
  assert (PGROUNDDOWN cur = page_of cur) as -> by (apply PGROUNDDOWN_eq; lia).
  wp_step. apply (walkaddr_wp k1 T l); [apply Hc|lia|done|]. rewrite (co_map _ _ _ _ _ _ _ Hc).
  destruct (uphys (kmem_mem k) T (page_of cur)) as [b|] eqn:Eb; cbn [default from_option id].
  2:{ rewrite Z.eqb_refl. do 2 wp_step. apply (HQ1 n); [done|done|]. fold cur. rewrite (uphys_page k T _ (page_of cur)) by (done || lia). by rewrite Eb. }
  assert (b <> 0) as Hb0. { eapply (uphys_nonzero k1 T l); [apply Hc|exact A3|]. by rewrite (co_map _ _ _ _ _ _ _ Hc). }
  rewrite (proj2 (Z.eqb_neq _ _)) by done. cbv zeta. rewrite length_drop.
  assert (cur < MAXVA) as Hmax.
  { assert (is_Some (uphys (kmem_mem k) T cur)) as [x Hx]; [|by apply uphys_some in Hx as (? & _); lia].
    rewrite (uphys_page k T _ (page_of cur)) by (done || lia). rewrite Eb. by eexists. }
  change MAXVA with 274877906944 in Hmax.
  set (nn := Z.min (PGSIZE - (cur - page_of cur)) (Z.of_nat (length src - n))).
  destruct (pturns_step (Z.of_nat (length src - n)) cur nn ltac:(lia) ltac:(lia) eq_refl) as (N1 & N2 & N3).
  wp_step. wp_step. wp_step. rewrite u64_small by (unfold PGSIZE in *; lia). rewrite drop_drop.
  pose proof (copied_out_step T l dstva src n k k1 (Z.to_nat nn) b Hc Hsrc Hd) as Hc'. cbv zeta in Hc'. fold cur in Hc'.
  specialize (Hc' ltac:(lia) ltac:(lia) Eb).
  destruct (decide (nn < Z.of_nat (length src - n))) as [Hmore|Hlast].
  - replace (page_of cur + PGSIZE) with (dstva + Z.of_nat (n + Z.to_nat nn)) by lia.
    apply IH; [exact Hc'|unfold PGSIZE in *; lia|lia|].
    replace (dstva + Z.of_nat (n + Z.to_nat nn)) with (page_of cur + PGSIZE) by lia.
    replace (Z.of_nat (length src - (n + Z.to_nat nn))) with (Z.of_nat (length src - n) - nn) by lia. lia.
  - assert (n + Z.to_nat nn = length src)%nat as El by lia. rewrite El in *. rewrite drop_ge by lia.
    pose proof (pturns_pos (Z.of_nat (length src - n) - nn) (page_of cur + PGSIZE) ltac:(unfold PGSIZE; lia)).
    destruct f as [|f]; [lia|]. cbn [iter]. wp_step. cbn [copyout_step]. do 2 wp_step. apply HQ0. exact Hc'.
Qed.

(** ** copyin() *)

Definition ubytes (k : kmem) (T : ptab) (va : Z) (n : nat) : list Z :=
  (fun i => default 0 (ubyte k T (va + Z.of_nat i))) <$> seq 0 n.

Lemma length_ubytes k T va n : length (ubytes k T va n) = n.
Proof. unfold ubytes. by rewrite length_fmap, length_seq. Qed.

Lemma ubytes_lookup k T va n i : (i < n)%nat -> ubytes k T va n !! i = Some (default 0 (ubyte k T (va + Z.of_nat i))).
Proof. intros. unfold ubytes. rewrite list_lookup_fmap, lookup_seq_lt by done. done. Qed.

Lemma ubytes_app k T va n j : ubytes k T va (n + j) = ubytes k T va n ++ ubytes k T (va + Z.of_nat n) j.
Proof.
  apply list_eq. intros i. destruct (decide (i < n)%nat) as [Hi|Hi].
  - rewrite lookup_app_l by (by rewrite length_ubytes). by rewrite !ubytes_lookup by lia.
  - rewrite lookup_app_r by (rewrite length_ubytes; lia). rewrite length_ubytes. destruct (decide (i < n + j)%nat).
    + rewrite !ubytes_lookup by lia. do 3 f_equal. lia.
    + rewrite !lookup_ge_None_2; [done|rewrite length_ubytes; lia|rewrite length_ubytes; lia].
Qed.

(** Part of a page, as copyin() reads it. *)
Lemma load_ubytes k T va b n :
  0 <= va -> Z.of_nat n <= PGSIZE - (va - page_of va) -> uphys (kmem_mem k) T (page_of va) = Some b ->
  load (kmem_mem k) (b + (va - page_of va)) n = ubytes k T va n.
Proof.
  intros Hva Hn Hb. destruct (page_of_range va Hva) as (A1 & A2 & A3). apply list_eq. intros i. destruct (decide (i < n)%nat) as [Hi|Hi].
  - rewrite load_lookup, ubytes_lookup by done. unfold ubyte. rewrite (uphys_page k T _ (page_of va)) by (done || lia).
    rewrite Hb. cbn. do 2 f_equal. lia.
  - rewrite !lookup_ge_None_2; [done|rewrite length_ubytes; lia|rewrite length_load; lia].
Qed.

Section CopyIn.
Context (k : kmem) (T : ptab) (l : list Z) (va : Z) (h : list lock) (tr : list event).
Hypothesis Hok : us_ok k T l.
Hypothesis Hva : 0 <= va.

(** The page of the next byte: its bytes, or the address the loops stop at. *)
Lemma page_wp {A} n (K : Z -> M kmem A) (Q : A -> world kmem -> Prop) :
  va + Z.of_nat n < 2 ^ 64 -> let cur := va + Z.of_nat n in
  (uphys (kmem_mem k) T cur = None -> wp (K 0) Q (World h tr k)) ->
  (forall b, b <> 0 -> cur < MAXVA -> uphys (kmem_mem k) T (page_of cur) = Some b -> wp (K b) Q (World h tr k)) ->
  wp (let* pa0 := walkaddr (pt_root T) (PGROUNDDOWN cur) in K pa0) Q (World h tr k).
Proof.
  intros Hr cur HQ0 HQ1. destruct (page_of_range cur ltac:(lia)) as (A1 & A2 & A3).
  assert (PGROUNDDOWN cur = page_of cur) as -> by (apply PGROUNDDOWN_eq; lia).
  assert (uphys (kmem_mem k) T cur = (fun b => b + (cur - page_of cur)) <$> uphys (kmem_mem k) T (page_of cur)) as E
    by (apply uphys_page; (done || lia)).
  wp_step. apply (walkaddr_wp k T l); [done|lia|done|].
  destruct (uphys (kmem_mem k) T (page_of cur)) as [b|] eqn:Eb; cbn [default from_option id].
  - apply HQ1; [by eapply (uphys_nonzero k T l)| |done]. by apply uphys_some in E as [? _]; lia.
  - apply HQ0. exact E.
Qed.

Definition readable_upto (n : nat) : Prop := forall i, (i < n)%nat -> is_Some (uphys (kmem_mem k) T (va + Z.of_nat i)).

Lemma readable_page n j b :
  readable_upto n -> let cur := va + Z.of_nat n in
  uphys (kmem_mem k) T (page_of cur) = Some b -> Z.of_nat j <= PGSIZE - (cur - page_of cur) -> readable_upto (n + j).
Proof.
  intros Hr cur Hb Hj i Hi. destruct (decide (i < n)%nat); [by apply Hr|].
  assert (cur = va + Z.of_nat n) as Ec by done. clearbody cur.
  destruct (page_of_range cur ltac:(lia)) as (A1 & A2 & A3).
  rewrite (uphys_page k T _ (page_of cur)) by (done || lia). rewrite Hb. by eexists.
Qed.

Lemma copyin_loop_wp f len n (Q : Z * list Z -> world kmem -> Prop) :
  va + Z.of_nat n < 2 ^ 64 -> (n <= len)%nat -> readable_upto n ->
  pturns (Z.of_nat (len - n)) (va + Z.of_nat n) <= Z.of_nat f ->
  (readable_upto len -> Q (0, ubytes k T va len) (World h tr k)) ->
  (forall n', (n' < len)%nat -> readable_upto n' -> uphys (kmem_mem k) T (va + Z.of_nat n') = None ->
     Q (-1, ubytes k T va n') (World h tr k)) ->
  wp (iter f (copyin_step (pt_root T)) (va + Z.of_nat n, (len - n)%nat, ubytes k T va n)) Q (World h tr k).
Proof.
  intros Hr Hn Hrd Hf HQ0 HQ1. revert n Hr Hn Hrd Hf. induction f as [|f IH]; intros n Hr Hn Hrd Hf.
  { pose proof (pturns_pos (Z.of_nat (len - n)) (va + Z.of_nat n) ltac:(lia)). lia. }
  cbn [iter]. wp_step. unfold copyin_step at 1. destruct (len - n)%nat as [|c] eqn:Elen.
  { do 2 wp_step. replace n with len in * by lia. by apply HQ0. }
  rewrite <- Elen in *. assert (0 < len - n)%nat as Hlt by lia. clear c Elen. cbv zeta. apply (page_wp n); [done| |].
  - intros Hnone. rewrite Z.eqb_refl. do 2 wp_step. apply HQ1; [lia|done|done].
  - intros b Hb0 Hmax Hb. set (cur := va + Z.of_nat n) in *. rewrite (proj2 (Z.eqb_neq _ _)) by done.
    assert (PGROUNDDOWN cur = page_of cur) as -> by (apply PGROUNDDOWN_eq; lia).
    set (nn := Z.min (PGSIZE - (cur - page_of cur)) (Z.of_nat (len - n))). change MAXVA with 274877906944 in Hmax.
    destruct (page_of_range cur ltac:(lia)) as (A1 & A2 & A3).
    destruct (pturns_step (Z.of_nat (len - n)) cur nn ltac:(lia) ltac:(lia) eq_refl) as (N1 & N2 & N3).
    pose proof (readable_page n (Z.to_nat nn) b Hrd) as Hrd'. cbv zeta in Hrd'. fold cur in Hrd'. specialize (Hrd' Hb ltac:(lia)).
    do 3 wp_step. cbn [user]. rewrite (load_ubytes k T cur b (Z.to_nat nn)) by (done || lia).
    unfold cur. rewrite <- ubytes_app. fold cur. rewrite u64_small by (unfold PGSIZE in *; lia).
    replace (len - n - Z.to_nat nn)%nat with (len - (n + Z.to_nat nn))%nat by lia.
    destruct (decide (nn < Z.of_nat (len - n))) as [Hmore|Hlast].
    + replace (page_of cur + PGSIZE) with (va + Z.of_nat (n + Z.to_nat nn)) by lia.
      apply IH; [unfold PGSIZE in *; lia|lia|done|].
      replace (va + Z.of_nat (n + Z.to_nat nn)) with (page_of cur + PGSIZE) by lia.
      replace (Z.of_nat (len - (n + Z.to_nat nn))) with (Z.of_nat (len - n) - nn) by lia. lia.
    + assert (n + Z.to_nat nn = len)%nat as El by lia. rewrite El in *. rewrite Nat.sub_diag.
      pose proof (pturns_pos (Z.of_nat (len - n) - nn) (page_of cur + PGSIZE) ltac:(unfold PGSIZE; lia)).
      destruct f as [|f]; [lia|]. cbn [iter]. wp_step. cbn [copyin_step]. do 2 wp_step. by apply HQ0.
Qed.

(** ** copyinstr() *)

Lemma copystr_page_spec bs :
  match copystr_page bs with
  | (r, true) => exists s, r = s ++ [0] /\ 0 ∉ s /\ r = take (S (length s)) bs /\ (length s < length bs)%nat
  | (r, false) => r = bs /\ 0 ∉ bs
  end.
Proof.
  induction bs as [|c bs IH]; cbn; [split; [done|apply not_elem_of_nil]|].
  destruct (Z.eqb_spec c 0) as [->|Hc].
  - exists []. cbn. split; [done|]. split; [apply not_elem_of_nil|]. split; [done|lia].
  - destruct (copystr_page bs) as [r [|]].
    + destruct IH as (s & -> & Hs & E & Hl). exists (c :: s). cbn. split; [done|]. split; [|split; [|lia]].
      * apply not_elem_of_cons. split; [congruence|done].
      * f_equal. exact E.
    + destruct IH as [-> Hn]. split; [done|]. apply not_elem_of_cons. split; [congruence|done].
Qed.

Lemma copyinstr_loop_wp f max n (Q : Z * list Z -> world kmem -> Prop) :
  va + Z.of_nat n < 2 ^ 64 -> (n <= max)%nat -> readable_upto n -> 0 ∉ ubytes k T va n ->
  pturns (Z.of_nat (max - n)) (va + Z.of_nat n) <= Z.of_nat f ->
  (forall s, (length s < max)%nat -> readable_upto (S (length s)) -> 0 ∉ s -> ubytes k T va (S (length s)) = s ++ [0] ->
     Q (0, s ++ [0]) (World h tr k)) ->
  (forall n', (n' <= max)%nat -> readable_upto n' -> 0 ∉ ubytes k T va n' ->
     n' = max \/ uphys (kmem_mem k) T (va + Z.of_nat n') = None -> Q (-1, ubytes k T va n') (World h tr k)) ->
  wp (iter f (copyinstr_step (pt_root T)) (va + Z.of_nat n, (max - n)%nat, ubytes k T va n)) Q (World h tr k).
Proof.
  intros Hr Hn Hrd Hz Hf HQ0 HQ1. revert n Hr Hn Hrd Hz Hf. induction f as [|f IH]; intros n Hr Hn Hrd Hz Hf.
  { pose proof (pturns_pos (Z.of_nat (max - n)) (va + Z.of_nat n) ltac:(lia)). lia. }
  cbn [iter]. wp_step. unfold copyinstr_step at 1. destruct (max - n)%nat as [|c] eqn:Elen.
  { do 2 wp_step. apply HQ1; [lia|done|done|left; lia]. }
  rewrite <- Elen in *. assert (0 < max - n)%nat as Hlt by lia. clear c Elen. cbv zeta. apply (page_wp n); [done| |].
  - intros Hnone. rewrite Z.eqb_refl. do 2 wp_step. apply HQ1; [lia|done|done|by right].
  - intros b Hb0 Hmax Hb. set (cur := va + Z.of_nat n) in *. rewrite (proj2 (Z.eqb_neq _ _)) by done.
    assert (PGROUNDDOWN cur = page_of cur) as -> by (apply PGROUNDDOWN_eq; lia).
    set (nn := Z.min (PGSIZE - (cur - page_of cur)) (Z.of_nat (max - n))). change MAXVA with 274877906944 in Hmax.
    destruct (page_of_range cur ltac:(lia)) as (A1 & A2 & A3).
    destruct (pturns_step (Z.of_nat (max - n)) cur nn ltac:(lia) ltac:(lia) eq_refl) as (N1 & N2 & N3).
    pose proof (fun j => readable_page n j b Hrd) as Hrd'. cbv zeta in Hrd'. fold cur in Hrd'.
    do 2 wp_step. cbn [user]. rewrite (load_ubytes k T cur b (Z.to_nat nn)) by (done || lia).
    pose proof (copystr_page_spec (ubytes k T cur (Z.to_nat nn))) as Hspec. destruct (copystr_page _) as [r [|]].
    + destruct Hspec as (s & Er & Hs & Et & Hl). rewrite length_ubytes in Hl. do 2 wp_step. rewrite Er, app_assoc.
      assert (ubytes k T va (S (length (ubytes k T va n ++ s))) = (ubytes k T va n ++ s) ++ [0]) as Eu.
      { rewrite length_app, length_ubytes, <- Nat.add_succ_r, ubytes_app, <- app_assoc. f_equal. rewrite <- Er, Et. fold cur.
        replace (Z.to_nat nn) with (S (length s) + (Z.to_nat nn - S (length s)))%nat at 1 by lia.
        rewrite ubytes_app, take_app_length' by (by rewrite length_ubytes). done. }
      apply HQ0; [rewrite length_app, length_ubytes; lia| | |done].
      * rewrite length_app, length_ubytes, <- Nat.add_succ_r. apply Hrd'; [done|lia].
      * intros Hin. apply elem_of_app in Hin as [|]; done.
    + destruct Hspec as [-> Hn0]. wp_step. unfold cur at 2. rewrite <- ubytes_app. rewrite u64_small by (unfold PGSIZE in *; lia).
      replace (max - n - Z.to_nat nn)%nat with (max - (n + Z.to_nat nn))%nat by lia.
      assert (0 ∉ ubytes k T va (n + Z.to_nat nn)) as Hz'. { rewrite ubytes_app. intros Hin. apply elem_of_app in Hin as [|]; done. }
      destruct (decide (nn < Z.of_nat (max - n))) as [Hmore|Hlast].
      * replace (page_of cur + PGSIZE) with (va + Z.of_nat (n + Z.to_nat nn)) by lia.
        apply IH; [unfold PGSIZE in *; lia|lia|apply Hrd'; [done|lia]|done|].
        replace (va + Z.of_nat (n + Z.to_nat nn)) with (page_of cur + PGSIZE) by lia.
        replace (Z.of_nat (max - (n + Z.to_nat nn))) with (Z.of_nat (max - n) - nn) by lia. lia.
      * assert (n + Z.to_nat nn = max)%nat as El by lia. specialize (Hrd' (Z.to_nat nn) Hb ltac:(lia)). rewrite El in *. rewrite Nat.sub_diag.
        pose proof (pturns_pos (Z.of_nat (max - n) - nn) (page_of cur + PGSIZE) ltac:(unfold PGSIZE; lia)).
        destruct f as [|f]; [lia|]. cbn [iter]. wp_step. cbn [copyinstr_step]. do 2 wp_step. apply HQ1; [lia|done|done|by left].
Qed.
End CopyIn.
End Copy.

(** ** The claims *)

Lemma copyout_wp (kend : Z) k T l dstva src h tr (Q : Z -> world kmem -> Prop) :
  0 < kend -> us_ok kend k T l -> 0 <= dstva < 2 ^ 64 -> Forall is_byte src ->
  (forall k', copied_out kend T l dstva src (length src) k k' -> Q 0 (World h tr k')) ->
  (forall n k', copied_out kend T l dstva src n k k' -> (n < length src)%nat ->
     uphys (kmem_mem k) T (dstva + Z.of_nat n) = None -> Q (-1) (World h tr k')) ->
  wp (copyout (pt_root T) dstva src) Q (World h tr k).
Proof.
  intros Hpos Hok Hva Hsrc H1 H2. unfold copyout.
  pose proof (copyout_loop_wp kend Hpos (copy_fuel (length src)) T l dstva src 0 k k h tr Q) as Hloop.
  rewrite Z.add_0_r, Nat.sub_0_r in Hloop. change (drop 0 src) with src in Hloop.
  apply Hloop; [by apply copied_out_start|done|lia|lia|lia|apply pturns_fuel; lia|done|done].
Qed.

Lemma copyin_wp (kend : Z) k T l srcva len h tr (Q : Z * list Z -> world kmem -> Prop) :
  0 < kend -> us_ok kend k T l -> 0 <= srcva < 2 ^ 64 ->
  (readable_upto k T srcva len -> Q (0, ubytes k T srcva len) (World h tr k)) ->
  (forall n, (n < len)%nat -> readable_upto k T srcva n -> uphys (kmem_mem k) T (srcva + Z.of_nat n) = None ->
     Q (-1, ubytes k T srcva n) (World h tr k)) ->
  wp (copyin (pt_root T) srcva len) Q (World h tr k).
Proof.
  intros Hpos Hok Hva H1 H2. unfold copyin.
  pose proof (copyin_loop_wp kend Hpos k T l srcva h tr Hok ltac:(lia) (copy_fuel len) len 0 Q) as Hloop.
  rewrite Z.add_0_r, Nat.sub_0_r in Hloop. change (ubytes k T srcva 0) with ([] : list Z) in Hloop.
  apply Hloop; [lia|lia|intros i Hi; lia|apply pturns_fuel; lia|done|done].
Qed.

(** C27. copyout() writes a prefix of the source to the user's memory: byte [i] where
    the address [dstva + i] is mapped, and no other byte of physical memory changes, the
    page table and the free list included.  The prefix is everything and the answer 0,
    or it ends at the first address the user may not access and the answer is -1. *)
Theorem copyout_correct (kend : Z) k T l dstva src h tr
    (Hpos : 0 < kend) (Hok : us_ok kend k T l) (Hva : 0 <= dstva < 2 ^ 64) (Hsrc : Forall is_byte src) :
  wp (copyout (pt_root T) dstva src) (fun r w' => exists n, copied_out kend T l dstva src n k (user w') /\
    (r = 0 /\ n = length src \/
     r = -1 /\ (n < length src)%nat /\ uphys (kmem_mem k) T (dstva + Z.of_nat n) = None)) (World h tr k).
Proof.
  apply (copyout_wp kend k T l); try done.
  - intros k' Hc. exists (length src). split; [done|]. by left.
  - intros n k' Hc Hn Hnone. exists n. split; [done|]. by right.
Qed.

(** C28. copyin() answers 0 and the bytes the user has at [srcva] when all of them are
    accessible, else -1 and the bytes before the first that is not; it changes nothing. *)
Theorem copyin_correct (kend : Z) k T l srcva len h tr
    (Hpos : 0 < kend) (Hok : us_ok kend k T l) (Hva : 0 <= srcva < 2 ^ 64) :
  wp (copyin (pt_root T) srcva len) (fun r w' => w' = World h tr k /\ exists n,
    r.2 = ubytes k T srcva n /\ readable_upto k T srcva n /\
    (r.1 = 0 /\ n = len \/ r.1 = -1 /\ (n < len)%nat /\ uphys (kmem_mem k) T (srcva + Z.of_nat n) = None)) (World h tr k).
Proof.
  apply (copyin_wp kend k T l); try done.
  - intros Hr. split; [done|]. exists len. split; [done|]. split; [done|]. by left.
  - intros n Hn Hr Hnone. split; [done|]. exists n. split; [done|]. split; [done|]. by right.
Qed.

(** copyinstr() answers 0 exactly when there is a NUL among the first [max]
    accessible bytes, and has then stored the string up to and including it; otherwise it
    answers -1.  It changes nothing of the user's. *)
Theorem copyinstr_correct (kend : Z) k T l srcva max h tr
    (Hpos : 0 < kend) (Hok : us_ok kend k T l) (Hva : 0 <= srcva < 2 ^ 64) :
  wp (copyinstr (pt_root T) srcva max) (fun r w' => w' = World h tr k /\
    ((exists s, r = (0, s ++ [0]) /\ 0 ∉ s /\ (length s < max)%nat /\ readable_upto k T srcva (S (length s)) /\
        ubytes k T srcva (S (length s)) = s ++ [0]) \/
     (exists n, r = (-1, ubytes k T srcva n) /\ (n <= max)%nat /\ readable_upto k T srcva n /\ 0 ∉ ubytes k T srcva n /\
        (n = max \/ uphys (kmem_mem k) T (srcva + Z.of_nat n) = None)))) (World h tr k).
Proof.
  unfold copyinstr. pose proof (fun Q => copyinstr_loop_wp kend Hpos k T l srcva h tr Hok ltac:(lia) (copy_fuel max) max 0 Q) as Hloop.
  rewrite Z.add_0_r, Nat.sub_0_r in Hloop. change (ubytes k T srcva 0) with ([] : list Z) in Hloop.
  apply Hloop; [lia|lia|intros i Hi; lia|apply not_elem_of_nil|apply pturns_fuel; lia| |].
  - intros s Hs Hr Hz Eu. split; [done|]. left. by exists s.
  - intros n Hn Hr Hz Hor. split; [done|]. right. by exists n.
Qed.

(** ** A process with one page *)

Definition demo_page (i : Z) : Z := KERNBASE + i * PGSIZE.
Definition demo_pte : Z := Z.lor (Z.lor (PA2PTE (demo_page 3)) (Z.lor (Z.lor PTE_R PTE_W) PTE_U)) PTE_V.
Definition demo_tab : ptab := add_low (add_mid (Ptab (demo_page 0) ∅ ∅) 0 (demo_page 1)) 0 0 (demo_page 2).
Definition demo_mem : mem :=
  store64 (hang (hang ∅ (demo_page 0) 0 (demo_page 1)) (demo_page 1) 0 (demo_page 2)) (pte_addr (demo_page 2) 0 0) demo_pte.
Definition demo_kmem : kmem := Kmem demo_mem 0.

Lemma demo_page_good i : 0 <= i < 10 -> good_page KERNBASE (demo_page i).
Proof.
  intros Hi. unfold good_page, demo_page. split; [|unfold PHYSTOP, KERNBASE, PGSIZE; lia].
  change KERNBASE with (524288 * PGSIZE). rewrite <- Z.mul_add_distr_r. apply Z.mod_mul. done.
Qed.

Lemma demo_tab_wf :
  pt_wf KERNBASE demo_mem demo_tab /\
  forall va, 0 <= va -> pte_of demo_mem demo_tab va = if decide (PX 2 va = 0 /\ PX 1 va = 0 /\ PX 0 va = 0) then demo_pte else 0.
Proof.
  assert (pt_wf KERNBASE ∅ (Ptab (demo_page 0) ∅ ∅)) as W0.
  { constructor.
    - constructor; [by apply demo_page_good|constructor].
    - apply NoDup_singleton.
    - intros i Hi. cbn [pt_mid]. rewrite lookup_empty. apply table_none, load64_empty.
    - intros i p. cbn [pt_mid]. by rewrite lookup_empty.
    - intros i j q. cbn [pt_low]. by rewrite lookup_empty. }
  destruct (wf_add_mid KERNBASE ltac:(done) ∅ _ 0 (demo_page 1) W0) as [W1 P1]; [by apply demo_page_good| |lia|done|].
  { intros Hin. by apply list_elem_of_singleton in Hin. }
  destruct (wf_add_low KERNBASE ltac:(done) _ _ 0 0 (demo_page 1) (demo_page 2) W1) as [W2 P2]; [by apply demo_page_good| |lia|done|done|].
  { rewrite add_mid_pages by done. intros Hin. apply elem_of_cons in Hin as [|Hin]; [done|]. by apply list_elem_of_singleton in Hin. }
  destruct (leaf_store KERNBASE _ _ 0 (demo_page 2) demo_pte W2) as [W3 P3]; [reflexivity|vm_compute; split; congruence|].
  split; [exact W3|]. intros va Hva. etransitivity; [apply P3|]. change (PX 2 0) with 0. change (PX 1 0) with 0. change (PX 0 0) with 0.
  destruct (decide (PX 2 va = 0 /\ PX 1 va = 0 /\ PX 0 va = 0)); [reflexivity|].
  rewrite P2, P1. unfold pte_of. cbn [pt_low]. by rewrite lookup_empty.
Qed.

Lemma demo_page_3 : PTE2PA demo_pte = demo_page 3 /\ PTE_FLAGS demo_pte = 23 /\ user_pte demo_pte = true.
Proof. vm_compute. done. Qed.

Lemma demo_us_ok : us_ok KERNBASE demo_kmem demo_tab [].
Proof.
  destruct demo_tab_wf as [Hw Hp]. destruct demo_page_3 as (E1 & E2 & E3).
  assert (forall va, aligned va -> 0 <= va < MAXVA -> has (pte_of demo_mem demo_tab va) PTE_V = true ->
    va = 0 /\ pte_of demo_mem demo_tab va = demo_pte) as Honly.
  { intros va Ha Hva. rewrite Hp by lia. case_decide as E; [|done]. intros _. split; [|done].
    destruct E as (X2 & X1 & X0). apply PX_inj; [done|done|exact Ha|done|..]; by rewrite ?X2, ?X1, ?X0. }
  assert (forall va, 0 <= va < TRAPFRAME -> 0 <= va < MAXVA) as Hlow.
  { intros va. unfold TRAPFRAME, TRAMPOLINE, PGSIZE. lia. }
  constructor; cbv zeta; change (kmem_mem demo_kmem) with demo_mem.
  - constructor; [exact Hw| |].
    + split; [reflexivity|]. split; [constructor|]. split; [constructor|].
      apply mem_bytes_store64. unfold hang. apply mem_bytes_store64, mem_bytes_memset, mem_bytes_store64, mem_bytes_memset, mem_bytes_empty.
    + rewrite app_nil_r. apply Hw.
  - intros va Ha Hva Hv. destruct (Honly va Ha (Hlow va Hva) Hv) as [_ ->]. rewrite E1, E2.
    split; [by apply demo_page_good|]. split; [|split; [apply not_elem_of_nil|done]].
    unfold demo_tab. rewrite add_low_pages, add_mid_pages by done. intros Hin.
    repeat (apply elem_of_cons in Hin as [Hin|Hin]; [done|]). by apply not_elem_of_nil in Hin.
  - intros va va' Ha Ha' Hva Hva' Hv Hv' _. destruct (Honly va Ha (Hlow va Hva) Hv) as [-> _].
    by destruct (Honly va' Ha' (Hlow va' Hva') Hv') as [-> _].
  - intros va Ha Hva. unfold user_pte. destruct (has (pte_of demo_mem demo_tab va) PTE_V) eqn:Hv; [|done].
    change TRAPFRAME with 274877898752 in Hva. destruct (Honly va Ha ltac:(lia) Hv) as [-> _]. lia.
Qed.

#[local] Opaque demo_kmem.

Lemma copyout_correct_witness :
  wp (copyout (pt_root demo_tab) 4094 [1; 2; 3]) (fun r w' => exists n, copied_out KERNBASE demo_tab [] 4094 [1; 2; 3] n demo_kmem (user w') /\
    (r = 0 /\ n = 3%nat \/ r = -1 /\ (n < 3)%nat /\ uphys (kmem_mem demo_kmem) demo_tab (4094 + Z.of_nat n) = None)) (World [] [] demo_kmem).
Proof.
  apply (copyout_correct KERNBASE demo_kmem demo_tab [] 4094 [1; 2; 3] [] []).
  - done.
  - exact demo_us_ok.
  - lia.
  - repeat constructor; lia.
Defined.

Lemma copyin_correct_witness :
  wp (copyin (pt_root demo_tab) 4090 6) (fun r w' => w' = World [] [] demo_kmem /\ exists n,
    r.2 = ubytes demo_kmem demo_tab 4090 n /\ readable_upto demo_kmem demo_tab 4090 n /\
    (r.1 = 0 /\ n = 6%nat \/ r.1 = -1 /\ (n < 6)%nat /\ uphys (kmem_mem demo_kmem) demo_tab (4090 + Z.of_nat n) = None)) (World [] [] demo_kmem).
Proof.
  apply (copyin_correct KERNBASE demo_kmem demo_tab [] 4090 6 [] []).
  - done.
  - exact demo_us_ok.
  - lia.
Defined.

Lemma copyinstr_correct_witness :
  wp (copyinstr (pt_root demo_tab) 100 128) (fun r w' => w' = World [] [] demo_kmem /\
    ((exists s, r = (0, s ++ [0]) /\ 0 ∉ s /\ (length s < 128)%nat /\ readable_upto demo_kmem demo_tab 100 (S (length s)) /\
        ubytes demo_kmem demo_tab 100 (S (length s)) = s ++ [0]) \/
     (exists n, r = (-1, ubytes demo_kmem demo_tab 100 n) /\ (n <= 128)%nat /\ readable_upto demo_kmem demo_tab 100 n /\ 0 ∉ ubytes demo_kmem demo_tab 100 n /\
        (n = 128%nat \/ uphys (kmem_mem demo_kmem) demo_tab (100 + Z.of_nat n) = None)))) (World [] [] demo_kmem).
Proof.
  apply (copyinstr_correct KERNBASE demo_kmem demo_tab [] 100 128 [] []).
  - done.
  - exact demo_us_ok.
  - lia.
Defined.
