(* ===== verification/VmMap.v ===== *)
(** * Mapping and unmapping user memory (kernel/vm.c: mappages, uvmunmap, uvmalloc,
    uvmdealloc, uvmcopy)

    What the functions that build an address space do to it: a page is mapped by
    one entry of the page table and by tables taken from the free list, and
    unmapped by clearing the entry and giving the page back.  uvmalloc() and
    uvmcopy() fill a range of pages, with zeroes or with the bytes of another
    process, and undo what they did when memory runs out. *)

From S2P Require Import Prelude Machine Mem Kalloc Vm VmTable VmCopy.

Open Scope Z_scope.

#[local] Opaque memset memmove store64 load64 load store.

Section Map.
Context (kend : Z).
Hypothesis kend_pos : 0 < kend.
Abbreviation good_page := (good_page kend).
Abbreviation pt_wf := (pt_wf kend).
Abbreviation free_list := (free_list kend).
Abbreviation vm_ok := (vm_ok kend).
Abbreviation us_ok := (us_ok kend).
Abbreviation pte k T va := (pte_of (kmem_mem k) T va).

Lemma below_max va : 0 <= va < TRAPFRAME -> 0 <= va < MAXVA.
Proof. change TRAPFRAME with 274877898752. change MAXVA with 274877906944. lia. Qed.
Lemma high_max va : TRAPFRAME <= va < MAXVA -> 0 <= va < MAXVA.
Proof. change TRAPFRAME with 274877898752. lia. Qed.
Lemma invalid_0 : has 0 PTE_V = false.
Proof. done. Qed.

Lemma flags_U e : has (PTE_FLAGS e) PTE_U = has e PTE_U.
Proof. unfold has, PTE_FLAGS. by rewrite <- Z.land_assoc. Qed.

(** ** What leaves an address space alone *)

Lemma free_list_good k l p : free_list k l -> p ∈ l -> good_page p.
Proof. intros (_ & _ & Hg & _) Hp. rewrite list.Forall_forall in Hg. auto. Qed.

Lemma pte_outside k k' T P va :
  pt_wf (kmem_mem k) T -> outside P (kmem_mem k) (kmem_mem k') -> Forall good_page P ->
  (forall p, p ∈ P -> p ∉ pt_pages T) -> pte k' T va = pte k T va.
Proof. intros Hw Ho HP Hd. eapply pte_of_outside; [exact Hw|exact Ho|done|]. intros i q Hq Hin. by eapply Hd, elem_low. Qed.

Lemma vm_ok_frame k k' T l l' P :
  vm_ok k T l -> outside P (kmem_mem k) (kmem_mem k') -> Forall good_page P ->
  (forall p, p ∈ P -> p ∉ pt_pages T) -> free_list k' l' -> (forall p, p ∈ l' -> p ∉ pt_pages T) -> vm_ok k' T l'.
Proof.
  intros [Hw Hf Hnd] Ho HP Hd Hf' Hl. constructor; [|done|].
  - eapply pt_wf_outside; [exact Hw|exact Ho|done| |].
    + intros Hin. by eapply Hd, elem_root.
    + intros i p Hp Hin. by eapply Hd, elem_mid.
  - apply list.NoDup_app. split; [apply Hw|]. split; [|apply Hf']. intros p Hp Hin. by eapply Hl.
Qed.

(** The pages of a process: its tables and its memory. *)
Definition owns (k : kmem) (T : ptab) (p : Z) : Prop :=
  p ∈ pt_pages T \/
  exists va, aligned va /\ 0 <= va < TRAPFRAME /\ has (pte k T va) PTE_V = true /\ PTE2PA (pte k T va) = p.

Lemma owns_good k T l p : us_ok k T l -> owns k T p -> good_page p.
Proof.
  intros Hu [Hp|(va & Ha & Hva & Hv & <-)]; [by eapply pw_page; [apply Hu|]|]. by apply (us_own _ _ _ _ Hu va).
Qed.

Lemma owns_not_free k T l p : us_ok k T l -> owns k T p -> p ∉ l.
Proof.
  intros Hu [Hp|(va & Ha & Hva & Hv & <-)].
  - destruct (us_vm _ _ _ _ Hu) as [_ _ Hnd]. apply list.NoDup_app in Hnd as (_ & Hd & _). auto.
  - by apply (us_own _ _ _ _ Hu va).
Qed.

(** Changing pages that are no tables of the process, and taking pages off the free list
    or putting on it pages that are not the process's, keeps its memory. *)
Lemma us_frame k k' T l l' P :
  us_ok k T l -> outside P (kmem_mem k) (kmem_mem k') -> Forall good_page P ->
  (forall p, p ∈ P -> p ∉ pt_pages T) -> free_list k' l' -> (forall p, p ∈ l' -> ~ owns k T p) ->
  us_ok k' T l' /\ forall va, pte k' T va = pte k T va.
Proof.
  intros [Hvm Hown Hinj Hhigh] Ho HP Hd Hf Hl.
  assert (forall va, pte k' T va = pte k T va) as Hpte by (intros va; eapply pte_outside; [apply Hvm|exact Ho|done|done]).
  split; [|done]. constructor.
  - eapply vm_ok_frame; [exact Hvm|exact Ho|done|done|done|]. intros p Hp Hin. apply (Hl p Hp). by left.
  - intros va Ha Hva. cbv zeta. rewrite !Hpte. intros Hv. destruct (Hown va Ha Hva Hv) as (H1 & H2 & _ & H4).
    split; [done|]. split; [done|]. split; [|done]. intros Hin. apply (Hl _ Hin). right. by exists va.
  - intros va va' H1 H2 H3 H4. rewrite !Hpte. by apply Hinj.
  - intros va H1 H2. rewrite Hpte. by apply Hhigh.
Qed.

(** ** Setting one entry *)

(** The entry of [a] becomes [v]; the tree may have grown. *)
Record pt_put (k : kmem) (T : ptab) (l : list Z) (a v : Z) (k' : kmem) (T' : ptab) (l' : list Z) : Prop := PtPut {
  pp_ok : vm_ok k' T' l';
  pp_root : pt_root T' = pt_root T;
  pp_split : exists ps, l = ps ++ l' /\ pt_pages T' ≡ₚ ps ++ pt_pages T;
  pp_pte : forall va, aligned va -> 0 <= va < MAXVA -> pte k' T' va = if decide (va = a) then v else pte k T va;
  pp_out : outside (pt_pages T') (kmem_mem k) (kmem_mem k')
}.

Lemma put_slot k T l a q v :
  vm_ok k T l -> aligned a -> 0 <= a < MAXVA -> pt_low T !! (PX 2 a, PX 1 a) = Some q -> 0 <= v < 2 ^ 64 ->
  pt_put k T l a v (Kmem (store64 (kmem_mem k) (pte_addr q 0 a) v) (kmem_freelist k)) T l.
Proof.
  intros Hok Ha Har Hq Hv. pose proof Hok as [Hw Hf Hnd].
  destruct (leaf_store kend _ _ _ _ _ Hw Hq Hv) as [Hw' Hpte].
  pose proof (store_outside (kmem_mem k) q (PX 0 a) v (PX_range 0 a ltac:(lia))) as Ho.
  assert (q ∈ pt_pages T) as Hin by (by eapply elem_low).
  assert (good_page q) as Hg by (by eapply pw_page).
  constructor; cbn [kmem_mem]; [|done|by exists []| |].
  - constructor; [done| |done]. eapply free_list_outside; [exact Hf|exact Ho|by constructor; [|constructor]| |].
    + intros p ->%list_elem_of_singleton Hl. apply list.NoDup_app in Hnd as (_ & Hd & _). by apply (Hd q).
    + apply mem_bytes_store64, Hf.
  - intros va Hva Hr. rewrite Hpte. destruct (decide (va = a)) as [->|Hne]; [by rewrite decide_True|].
    rewrite decide_False; [done|]. intros (E2 & E1 & E0). apply Hne. unfold aligned in *. by apply PX_inj.
  - eapply outside_mono; [|exact Ho]. intros p ->%list_elem_of_singleton. done.
Qed.

Lemma grow_put k T l k1 T1 l1 a v k2 T2 l2 :
  pt_grow kend k T l k1 T1 l1 -> pt_put k1 T1 l1 a v k2 T2 l2 -> pt_put k T l a v k2 T2 l2.
Proof.
  intros [A1 A2 A3 (ps & A4 & A5) A6 A7] [B1 B2 (ps' & B3 & B4) B5 B6]. constructor.
  - done.
  - congruence.
  - exists (ps ++ ps'). rewrite <- app_assoc, <- B3. split; [done|]. rewrite B4, A5, !app_assoc.
    apply Permutation_app; [apply Permutation_app_comm|done].
  - intros va H1 H2. rewrite B5 by done. by rewrite A6.
  - eapply outside_trans; [|exact B6]. eapply outside_mono; [|exact A7]. intros p Hp. rewrite B4. apply elem_of_app. by right.
Qed.

(** A leaf entry as mappages() writes it. *)
Definition leaf (pa perm : Z) : Z := Z.lor (Z.lor (PA2PTE pa) perm) PTE_V.

Lemma leaf_spec pa perm :
  good_page pa -> 0 <= perm < 1024 ->
  has (leaf pa perm) PTE_V = true /\ PTE2PA (leaf pa perm) = pa /\ PTE_FLAGS (leaf pa perm) = Z.lor perm PTE_V /\
  0 <= leaf pa perm < 2 ^ 64.
Proof.
  intros Hg Hp. destruct (good_page_pa kend kend_pos pa Hg) as [Hr Ha].
  assert (0 <= Z.lor perm PTE_V < 1024) as Hf.
  { change PTE_V with 1. assert (0 <= Z.lor perm 1) as H0 by (apply Z.lor_nonneg; lia). split; [done|].
    destruct (Z.eq_dec (Z.lor perm 1) 0) as [->|Hne]; [lia|]. change 1024 with (2 ^ 10). apply Z.log2_lt_pow2; [lia|].
    rewrite Z.log2_lor by lia. change (Z.log2 1) with 0.
    destruct (Z.eq_dec perm 0) as [->|]; [cbn; lia|]. assert (Z.log2 perm < 10) by (apply Z.log2_lt_pow2; lia). lia. }
  unfold leaf. rewrite <- Z.lor_assoc. destruct (PTE_roundtrip pa _ Hr Ha Hf) as [E1 E2].
  split; [|split; [done|split; [done|]]].
  - change (has (Z.lor (PA2PTE pa) (Z.lor perm PTE_V)) (Z.shiftl 1 0) = true). rewrite has_flags, E2, Z.lor_spec by lia.
    change (Z.testbit PTE_V 0) with true. apply orb_true_r.
  - rewrite pte_lor_add by done. rewrite PA2PTE_eq by done. Z.div_mod_to_equations. lia.
Qed.

Lemma MAXVA_u64 a : 0 <= a < MAXVA -> u64 a = a /\ u64 (a + PGSIZE) = a + PGSIZE.
Proof. change MAXVA with 274877906944. change PGSIZE with 4096. intros. by rewrite !u64_small by lia. Qed.

(** mappages() of one page: its entry is set, or there is no memory for the tables. *)
Lemma map_page_wp k T l a pa perm h tr (Q : Z -> world kmem -> Prop) :
  vm_ok k T l -> LKmem ∉ h -> aligned a -> 0 <= a < MAXVA -> good_page pa -> 0 <= perm < 1024 ->
  has (pte k T a) PTE_V = false ->
  (forall k' T', pt_grow kend k T l k' T' [] -> Q (-1) (World h tr k')) ->
  (forall k' T' l', pt_put k T l a (leaf pa perm) k' T' l' -> Q 0 (World h tr k')) ->
  wp (mappages (pt_root T) a PGSIZE pa perm) Q (World h tr k).
Proof.
  intros Hok Hlk Ha Har Hpa Hperm Hinv Hfail Hdone. unfold mappages.
  change (PGSIZE =? 0) with false. cbv iota zeta. unfold aligned in Ha.
  assert (PGROUNDDOWN a = a) as E1 by (apply PGROUNDDOWN_aligned; [change MAXVA with 274877906944 in Har; lia|done]).
  assert (PGROUNDDOWN (u64 (a + PGSIZE - 1)) = a) as E2.
  { change MAXVA with 274877906944 in Har. change PGSIZE with 4096 in *. rewrite u64_small by lia.
    rewrite PGROUNDDOWN_eq by lia. change PGSIZE with 4096. Z.div_mod_to_equations. lia. }
  rewrite E1, E2, Z.sub_diag. change (S (Z.to_nat (0 / PGSIZE))) with 1%nat. cbn [iter]. wp_step. unfold mappages_step.
  wp_step. apply (walk_true_wp kend kend_pos k T l); [done|done|done|]. intros r k1 (T1 & l1 & Hg & Hr).
  destruct Hr as [[-> ->]|[Hs Hr]].
  - cbn [Z.eqb]. do 2 wp_step. eapply Hfail. exact Hg.
  - rewrite (proj2 (Z.eqb_neq _ _) Hr). unfold rd64, wr64. do 2 wp_step. cbn [user].
    unfold pte_slot in Hs. destruct (pt_low T1 !! (PX 2 a, PX 1 a)) as [q|] eqn:Eq; [|done]. injection Hs as <-.
    replace (load64 (kmem_mem k1) (pte_addr q 0 a)) with (pte k T a).
    2:{ rewrite <- (pg_pte _ _ _ _ _ _ _ Hg). unfold pte_of. rewrite Eq. done. }
    rewrite Hinv. do 2 wp_step. rewrite Z.eqb_refl. do 2 wp_step.
    eapply Hdone, grow_put; [exact Hg|]. apply put_slot; [apply Hg|done|done|done|]. by apply leaf_spec.
Qed.

(** ** What the changes do to an address space *)

Lemma us_grow k T l k' T' l' : us_ok k T l -> pt_grow kend k T l k' T' l' -> us_ok k' T' l'.
Proof.
  intros [Hvm Hown Hinj Hhigh] [Hok Hr _ (ps & -> & Hpp) Hpte _]. constructor.
  - done.
  - intros va Ha Hva. cbv zeta. rewrite !Hpte. intros Hv. destruct (Hown va Ha Hva Hv) as (H1 & H2 & H3 & H4).
    rewrite elem_of_app in H3. split; [done|]. rewrite Hpp, elem_of_app. split; [tauto|]. split; [tauto|done].
  - intros va va' H1 H2 H3 H4. rewrite !Hpte. by apply Hinj.
  - intros va H1 H2. rewrite Hpte. by apply Hhigh.
Qed.

(** An entry is set below TRAPFRAME, to a page that is nobody's, or to an invalid entry. *)
Lemma us_put k T l a v k' T' l' :
  us_ok k T l -> pt_put k T l a v k' T' l' -> aligned a -> 0 <= a < TRAPFRAME ->
  (has v PTE_V = true -> good_page (PTE2PA v) /\ ~ owns k T (PTE2PA v) /\ PTE2PA v ∉ l /\ PTE_FLAGS v <> PTE_V) ->
  us_ok k' T' l'.
Proof.
  intros [Hvm Hown Hinj Hhigh] [Hok Hr (ps & -> & Hpp) Hpte _] Ha Har Hv.
  pose proof below_max as Hlt.
  constructor.
  - done.
  - intros va Hva Hvr. cbv zeta. rewrite !Hpte by auto. rewrite Hpp, elem_of_app. case_decide as E.
    + intros Hvv. destruct (Hv Hvv) as (H1 & H2 & H3 & H4). rewrite elem_of_app in H3. split; [done|]. split; [|tauto].
      intros [Hin|Hin]; [tauto|]. apply H2. by left.
    + intros Hvv. destruct (Hown va Hva Hvr Hvv) as (H1 & H2 & H3 & H4). rewrite elem_of_app in H3. tauto.
  - intros va va' H1 H2 H3 H4. rewrite !Hpte by auto. do 2 case_decide; subst; try done; [| |by apply Hinj].
    + intros Hvv Hv' E. exfalso. destruct (Hv Hvv) as (_ & Hn & _). apply Hn. right. by exists va'.
    + intros Hv' Hvv E. exfalso. destruct (Hv Hvv) as (_ & Hn & _). apply Hn. right. by exists va.
  - intros va H1 H2. rewrite Hpte; [|done|by apply high_max]. rewrite decide_False by lia. by apply Hhigh.
Qed.

(** A mapped page is given back and its entry cleared. *)
Lemma us_drop k T l a k1 q :
  us_ok k T l -> aligned a -> 0 <= a < TRAPFRAME -> has (pte k T a) PTE_V = true ->
  pt_low T !! (PX 2 a, PX 1 a) = Some q ->
  free_list k1 (PTE2PA (pte k T a) :: l) -> same_except (PTE2PA (pte k T a)) (kmem_mem k) (kmem_mem k1) ->
  let k' := Kmem (store64 (kmem_mem k1) (pte_addr q 0 a) 0) (kmem_freelist k1) in
  us_ok k' T (PTE2PA (pte k T a) :: l) /\
  (forall va, aligned va -> 0 <= va < MAXVA -> pte k' T va = if decide (va = a) then 0 else pte k T va) /\
  outside (PTE2PA (pte k T a) :: pt_pages T) (kmem_mem k) (kmem_mem k').
Proof.
  intros Hu Ha Har Hv Hq Hf Hse. set (p := PTE2PA (pte k T a)) in *. cbv zeta.
  pose proof (below_max a Har) as Ham.
  destruct (us_own _ _ _ _ Hu a Ha Har Hv) as (Hg & Hnt & Hnl & _).
  assert (forall p', p' ∈ [p] -> p' ∉ pt_pages T) as Hd by (intros p' ->%list_elem_of_singleton; done).
  assert (Forall good_page [p]) as HP by (constructor; [done|constructor]).
  assert (vm_ok k1 T (p :: l)) as Hok1.
  { eapply vm_ok_frame; [apply Hu|by apply outside_one|done|done|done|].
    intros p' Hp' Hin. apply elem_of_cons in Hp' as [->|Hp']; [done|]. eapply owns_not_free; [exact Hu| |exact Hp']. by left. }
  assert (forall va, pte k1 T va = pte k T va) as Hpte.
  { intros va. eapply pte_outside; [apply Hu|by apply outside_one|done|done]. }
  pose proof (put_slot k1 T (p :: l) a q 0 Hok1 Ha Ham Hq ltac:(lia)) as [Hok2 _ _ Hp2 Ho2].
  set (k' := Kmem _ _) in *.
  assert (forall va, aligned va -> 0 <= va < MAXVA -> pte k' T va = if decide (va = a) then 0 else pte k T va) as Hp3.
  { intros va H1 H2. rewrite Hp2 by done. by rewrite Hpte. }
  split; [|split; [done|]].
  2:{ eapply outside_trans; [eapply outside_mono; [|by apply outside_one]|eapply outside_mono; [|exact Ho2]].
      - intros p' ->%list_elem_of_singleton. by left.
      - intros p' Hp'. by right. }
  destruct Hu as [Hvm Hown Hinj Hhigh].
  pose proof below_max as Hlt.
  constructor; [done|..].
  - intros va Hva Hvr. cbv zeta. rewrite !Hp3 by auto. case_decide as E; [by rewrite invalid_0|]. intros Hvv.
    destruct (Hown va Hva Hvr Hvv) as (H1 & H2 & H3 & H4). split; [done|]. split; [done|]. split; [|done].
    intros [E2|]%elem_of_cons; [|done]. by apply E, (Hinj va a).
  - intros va va' H1 H2 H3 H4. rewrite !Hp3 by auto. do 2 case_decide; rewrite ?invalid_0; try done. by apply Hinj.
  - intros va H1 H2. rewrite Hp3; [|done|by apply high_max]. rewrite decide_False by lia. by apply Hhigh.
Qed.

(** ** uvmunmap() *)

(** The pages mapped at [n] consecutive addresses from [a]. *)
Fixpoint upages (k : kmem) (T : ptab) (a : Z) (n : nat) : list Z :=
  match n with
  | O => []
  | S n => PTE2PA (pte k T a) :: upages k T (a + PGSIZE) n
  end.

Lemma upages_ext k T k' T' a n :
  (forall i, 0 <= i < Z.of_nat n -> pte k' T' (a + i * PGSIZE) = pte k T (a + i * PGSIZE)) -> upages k' T' a n = upages k T a n.
Proof.
  revert a. induction n as [|n IH]; intros a H; cbn [upages]; [done|]. f_equal.
  - specialize (H 0 ltac:(lia)). by rewrite Z.mul_0_l, Z.add_0_r in H; rewrite H.
  - apply IH. intros i Hi. replace (a + PGSIZE + i * PGSIZE) with (a + (i + 1) * PGSIZE) by lia. apply H. lia.
Qed.

Lemma upages_snoc k T a n : upages k T a (S n) = upages k T a n ++ [PTE2PA (pte k T (a + Z.of_nat n * PGSIZE))].
Proof.
  revert a. induction n as [|n IH]; intros a; [cbn; by rewrite Z.add_0_r|].
  change (upages k T a (S (S n))) with (PTE2PA (pte k T a) :: upages k T (a + PGSIZE) (S n)). rewrite IH. cbn [upages app].
  replace (a + PGSIZE + Z.of_nat n * PGSIZE) with (a + Z.of_nat (S n) * PGSIZE) by lia. done.
Qed.

Lemma length_upages k T a n : length (upages k T a n) = n.
Proof. revert a. induction n as [|n IH]; intros a; cbn; [done|]. by rewrite IH. Qed.

Lemma elem_of_upages k T a n p :
  p ∈ upages k T a n <-> exists i, 0 <= i < Z.of_nat n /\ p = PTE2PA (pte k T (a + i * PGSIZE)).
Proof.
  revert a. induction n as [|n IH]; intros a; cbn [upages].
  - split; [intros H; inversion H|intros (i & ? & _); lia].
  - rewrite elem_of_cons, IH. split.
    + intros [->|(i & ? & ->)]; [exists 0|exists (i + 1)]; (split; [lia|]); do 2 f_equal; lia.
    + intros (i & Hi & ->). destruct (Z.eq_dec i 0) as [->|]; [left; do 2 f_equal; lia|].
      right. exists (i - 1). split; [lia|]. do 2 f_equal. lia.
Qed.

(** [n] mapped pages from [a], below the trap frame. *)
Definition run_of (k : kmem) (T : ptab) (a : Z) (n : nat) : Prop :=
  aligned a /\ 0 <= a /\ a + Z.of_nat n * PGSIZE <= TRAPFRAME /\
  forall i, 0 <= i < Z.of_nat n -> has (pte k T (a + i * PGSIZE)) PTE_V = true.

Lemma aligned_add a i : aligned a -> aligned (a + i * PGSIZE).
Proof. unfold aligned. change PGSIZE with 4096. intros. rewrite Z_mod_plus_full. done. Qed.

Lemma valid_slot m T a : has (pte_of m T a) PTE_V = true -> exists q, pt_low T !! (PX 2 a, PX 1 a) = Some q.
Proof. unfold pte_of. destruct (pt_low T !! _) as [q|]; [by exists q|]. by rewrite invalid_0. Qed.

(** One mapped page: found, given back and cleared. *)
Lemma unmap_step_wp k T l a stop h tr (Q : Z + unit -> world kmem -> Prop) :
  us_ok k T l -> LKmem ∉ h -> aligned a -> 0 <= a < TRAPFRAME -> a < stop -> has (pte k T a) PTE_V = true ->
  (forall k', us_ok k' T (PTE2PA (pte k T a) :: l) ->
     (forall va, aligned va -> 0 <= va < MAXVA -> pte k' T va = if decide (va = a) then 0 else pte k T va) ->
     outside (PTE2PA (pte k T a) :: pt_pages T) (kmem_mem k) (kmem_mem k') -> Q (inl (a + PGSIZE)) (World h tr k')) ->
  wp (uvmunmap_step kend (pt_root T) stop true a) Q (World h tr k).
Proof.
  intros Hu Hlk Ha Har Hst Hv HQ. unfold uvmunmap_step. rewrite (proj2 (Z.ltb_lt a stop)) by lia. cbn [negb].
  pose proof (below_max a Har) as Ham. destruct (MAXVA_u64 a Ham) as [_ Eu].
  wp_step. apply (walk_false_wp kend kend_pos k T); [apply Hu|done|].
  destruct (valid_slot _ _ _ Hv) as [q Hq]. unfold pte_slot. rewrite Hq. cbn [fmap option_fmap option_map default from_option id].
  rewrite (proj2 (Z.eqb_neq _ _)) by (by eapply low_addr_pos; [| |exact Hq]; [|apply Hu]).
  unfold rd64, wr64. do 2 wp_step. cbn [user].
  assert (load64 (kmem_mem k) (pte_addr q 0 a) = pte k T a) as -> by (unfold pte_of; by rewrite Hq).
  rewrite Hv. cbn [negb]. destruct (us_own _ _ _ _ Hu a Ha Har Hv) as (Hg & Hnt & Hnl & Hfl).
  rewrite (proj2 (Z.eqb_neq _ _) Hfl). wp_step. apply (kfree_wp kend kend_pos _ l); cbn [user held trace]; [apply Hu|done|done|done|].
  intros k1 Hf Hse. destruct (us_drop k T l a k1 q Hu Ha Har Hv Hq Hf Hse) as (H1 & H2 & H3).
  do 3 wp_step. rewrite Eu. by apply HQ.
Qed.

Lemma unmap_loop_wp n fuel k T l a h tr (Q : unit -> world kmem -> Prop) :
  us_ok k T l -> LKmem ∉ h -> run_of k T a n -> (n < fuel)%nat ->
  (forall k', us_ok k' T (reverse (upages k T a n) ++ l) ->
     (forall va, aligned va -> 0 <= va < MAXVA ->
        pte k' T va = if decide (a <= va < a + Z.of_nat n * PGSIZE) then 0 else pte k T va) ->
     outside (upages k T a n ++ pt_pages T) (kmem_mem k) (kmem_mem k') -> Q tt (World h tr k')) ->
  wp (iter fuel (uvmunmap_step kend (pt_root T) (a + Z.of_nat n * PGSIZE) true) a) Q (World h tr k).
Proof.
  revert k l a fuel. induction n as [|n IH]; intros k l a fuel Hu Hlk (Ha & H0 & Hr & Hv) Hf HQ; (destruct fuel as [|fuel]; [lia|]); cbn [iter]; wp_step.
  - unfold uvmunmap_step. rewrite (proj2 (Z.ltb_ge _ _)) by lia. cbn [negb]. do 2 wp_step. apply HQ; [done| |apply outside_refl].
    intros va H1 H2. by rewrite decide_False by lia.
  - pose proof (Hv 0 ltac:(lia)) as Hv0. rewrite Z.mul_0_l, Z.add_0_r in Hv0.
    assert (0 < PGSIZE) as Hpg by done.
    apply (unmap_step_wp k T l); [done|done|done|lia|lia|done|]. intros k1 Hu1 Hp1 Ho1.
    assert (forall i, 0 <= i < Z.of_nat n -> pte k1 T (a + PGSIZE + i * PGSIZE) = pte k T (a + PGSIZE + i * PGSIZE)) as Hsame.
    { intros i Hi. replace (a + PGSIZE + i * PGSIZE) with (a + (i + 1) * PGSIZE) by lia. rewrite Hp1; [|by apply aligned_add|].
      - rewrite decide_False by lia. done.
      - apply below_max. nia. }
    replace (a + Z.of_nat (S n) * PGSIZE) with (a + PGSIZE + Z.of_nat n * PGSIZE) by lia.
    apply (IH k1 (PTE2PA (pte k T a) :: l)); [done|done| |lia|].
    { split; [by apply (aligned_add a 1)|]. split; [lia|]. split; [lia|]. intros i Hi. rewrite Hsame by done.
      replace (a + PGSIZE + i * PGSIZE) with (a + (i + 1) * PGSIZE) by lia. apply Hv. lia. }
    rewrite (upages_ext k T k1 T (a + PGSIZE) n Hsame). intros k2 Hu2 Hp2 Ho2. apply HQ.
    + cbn [upages]. rewrite reverse_cons, <- app_assoc. exact Hu2.
    + intros va H1 H2. rewrite Hp2, Hp1 by done. unfold aligned in *. change PGSIZE with 4096 in *.
      repeat case_decide; try done; try lia. exfalso. Z.div_mod_to_equations. lia.
    + cbn [upages app]. eapply outside_trans; (eapply outside_mono; [|eassumption]); intros p; rewrite ?elem_of_cons, ?elem_of_app; tauto.
Qed.

Lemma uvmunmap_wp n k T l a h tr (Q : unit -> world kmem -> Prop) :
  us_ok k T l -> LKmem ∉ h -> run_of k T a n ->
  (forall k', us_ok k' T (reverse (upages k T a n) ++ l) ->
     (forall va, aligned va -> 0 <= va < MAXVA ->
        pte k' T va = if decide (a <= va < a + Z.of_nat n * PGSIZE) then 0 else pte k T va) ->
     outside (upages k T a n ++ pt_pages T) (kmem_mem k) (kmem_mem k') -> Q tt (World h tr k')) ->
  wp (uvmunmap kend (pt_root T) a (Z.of_nat n) true) Q (World h tr k).
Proof.
  intros Hu Hlk Hrun HQ. pose proof Hrun as (Ha & H0 & Hr & _). unfold uvmunmap. unfold aligned in Ha. rewrite Ha. cbn [Z.eqb negb].
  rewrite u64_small by (change TRAPFRAME with 274877898752 in Hr; change PGSIZE with 4096 in *; lia).
  rewrite Nat2Z.id. apply (unmap_loop_wp n _ k T l); try done. lia.
Qed.

(** ** Filling a range of pages *)

Lemma perm_around {A} (a b c a' c' : list A) : a' ++ c' ≡ₚ a ++ c -> a ++ b ++ c ≡ₚ a' ++ b ++ c'.
Proof. intros H. rewrite !(Permutation_app_comm b), !app_assoc. by rewrite H. Qed.

Definition same_pte (e e' : Z) : Prop := e' = e \/ has e PTE_V = false /\ has e' PTE_V = false.

Lemma same_pte_trans e1 e2 e3 : same_pte e1 e2 -> same_pte e2 e3 -> same_pte e1 e3.
Proof. unfold same_pte. intros [->|[]] [->|[]]; tauto. Qed.

(** The address space [T0], whose free pages were [l0], has got [n] pages from [base], with
    flags [fl] and bytes [bytes], and is otherwise as it was; the pages [hand] are
    off the free list and not yet, or no longer, anybody's.  Every page that was
    free is mapped, a new table, in hand or still free. *)
Record filled (k0 : kmem) (T0 : ptab) (l0 : list Z) (base : Z) (fl bytes : Z -> Z)
    (hand : list Z) (n : nat) (k : kmem) (T : ptab) (l : list Z) : Prop := Filled {
  fi_us : us_ok k T l;
  fi_root : pt_root T = pt_root T0;
  fi_split : exists ps, pt_pages T ≡ₚ ps ++ pt_pages T0 /\ l0 ≡ₚ hand ++ upages k T base n ++ ps ++ l;
  fi_out : outside (l0 ++ pt_pages T0) (kmem_mem k0) (kmem_mem k);
  fi_same : forall va, aligned va -> 0 <= va < MAXVA -> ~ (base <= va < base + Z.of_nat n * PGSIZE) ->
    same_pte (pte k0 T0 va) (pte k T va);
  fi_new : forall i, 0 <= i < Z.of_nat n -> let va := base + i * PGSIZE in
    has (pte k T va) PTE_V = true /\ PTE_FLAGS (pte k T va) = fl va /\
    forall off, 0 <= off < PGSIZE -> rd8 (kmem_mem k) (PTE2PA (pte k T va) + off) = bytes (va + off)
}.

Section Fill.
Context (k0 : kmem) (T0 : ptab) (l0 : list Z) (base : Z) (fl bytes : Z -> Z).
Hypothesis Hus0 : us_ok k0 T0 l0.
Hypothesis Hbase : aligned base /\ 0 <= base.
Abbreviation filled := (filled k0 T0 l0 base fl bytes).

Lemma filled_start : filled [] 0 k0 T0 l0.
Proof.
  constructor; [done|done|by exists []|apply outside_refl|by left|]. intros i Hi. lia.
Qed.

Lemma l0_NoDup : NoDup l0.
Proof. apply Hus0. Qed.

Lemma l0_not_table p : p ∈ l0 -> p ∉ pt_pages T0.
Proof. intros Hp Ht. eapply owns_not_free; [exact Hus0| |exact Hp]. by left. Qed.

Lemma filled_pages hand n k T l p : filled hand n k T l -> p ∈ hand \/ p ∈ l -> p ∈ l0.
Proof. clear Hbase. intros [_ _ (ps & _ & E) _ _ _] Hp. rewrite E, !elem_of_app. tauto. Qed.

Lemma filled_tables hand n k T l p : filled hand n k T l -> p ∈ pt_pages T -> p ∈ l0 \/ p ∈ pt_pages T0.
Proof. clear Hbase. intros [_ _ (ps & E1 & E2) _ _ _] Hp. rewrite E1, elem_of_app in Hp. rewrite E2, !elem_of_app. tauto. Qed.

Lemma filled_run hand n k T l : filled hand n k T l -> base + Z.of_nat n * PGSIZE <= TRAPFRAME -> run_of k T base n.
Proof.
  intros Hf Hr. destruct Hbase. split; [done|]. split; [done|]. split; [done|]. intros i Hi. by apply (fi_new _ _ _ _ _ _ _ _ _ _ _ Hf i).
Qed.

(** An address in the range is that of one of its pages. *)
Lemma range_addr n va : aligned va -> base <= va < base + Z.of_nat n * PGSIZE ->
  exists i, 0 <= i < Z.of_nat n /\ base + i * PGSIZE = va.
Proof.
  destruct Hbase as [Hb _]. unfold aligned in *. change PGSIZE with 4096 in *. intros Ha Hva. exists ((va - base) / 4096).
  Z.div_mod_to_equations. lia.
Qed.

(** A page in hand is nobody's. *)
Lemma hand_free hand n k T l p :
  filled hand n k T l -> p ∈ hand -> good_page p /\ ~ owns k T p /\ p ∉ l.
Proof.
  intros Hf Hp. pose proof (filled_pages _ _ _ _ _ p Hf ltac:(by left)) as Hp0.
  pose proof Hf as [Hu _ (ps & E1 & E2) _ Hsame Hnew]. pose proof l0_NoDup as Hnd. rewrite E2 in Hnd.
  apply list.NoDup_app in Hnd as (_ & Hd & _). specialize (Hd p Hp). rewrite !elem_of_app in Hd.
  split; [eapply free_list_good; [apply Hus0|done]|]. split; [|tauto]. intros [Ht|(va & Ha & Hva & Hv & E)].
  - rewrite E1, elem_of_app in Ht. destruct Ht as [|Ht]; [tauto|]. exact (l0_not_table p Hp0 Ht).
  - destruct (decide (base <= va < base + Z.of_nat n * PGSIZE)) as [Hin|Hout].
    + apply Hd. left. apply elem_of_upages. destruct (range_addr n va Ha Hin) as (i & Hi & Eva). exists i. by rewrite Eva.
    + destruct (Hsame va Ha (below_max _ Hva) Hout) as [Es|[_ Hn]]; [|congruence]. rewrite Es in *.
      destruct (us_own _ _ _ _ Hus0 va Ha Hva Hv) as (_ & _ & Hnl & _). apply Hnl. by rewrite E.
Qed.

Lemma spare_page hand n k T l p : filled hand n k T l -> p ∈ hand ++ l -> good_page p /\ ~ owns k T p.
Proof.
  intros Hf [Hp|Hp]%elem_of_app; [by edestruct hand_free as (? & ? & _)|].
  pose proof (fi_us _ _ _ _ _ _ _ _ _ _ _ Hf) as Hu. split; [by eapply free_list_good; [apply Hu|]|].
  intros Ho. by eapply owns_not_free.
Qed.

(** The address of the [i]-th page. *)
Lemma page_addr i n : base + Z.of_nat n * PGSIZE <= TRAPFRAME -> 0 <= i < Z.of_nat n ->
  aligned (base + i * PGSIZE) /\ 0 <= base + i * PGSIZE < TRAPFRAME.
Proof.
  destruct Hbase as [Ha Hb]. intros Hr Hi. split; [by apply aligned_add|]. change PGSIZE with 4096 in *. lia.
Qed.

(** The bytes of a page of the process do not change with pages that are not the process's. *)
Lemma page_bytes k T l k' P va off :
  us_ok k T l -> outside P (kmem_mem k) (kmem_mem k') -> Forall good_page P -> aligned va -> 0 <= va < TRAPFRAME ->
  has (pte k T va) PTE_V = true -> PTE2PA (pte k T va) ∉ P -> 0 <= off < PGSIZE ->
  rd8 (kmem_mem k') (PTE2PA (pte k T va) + off) = rd8 (kmem_mem k) (PTE2PA (pte k T va) + off).
Proof.
  intros Hu Ho HP Ha Hva Hv Hni Hoff. eapply (outside_rd kend); [exact Ho|done| |exact Hni|unfold in_page; lia].
  by apply (us_own _ _ _ _ Hu va).
Qed.

(** A page in hand or on the free list is written, taken or given back. *)
Lemma filled_frame hand n k T l x hand' k' l' :
  filled hand n k T l -> base + Z.of_nat n * PGSIZE <= TRAPFRAME -> x ∈ hand ++ l ->
  outside [x] (kmem_mem k) (kmem_mem k') -> free_list k' l' -> hand' ++ l' ≡ₚ hand ++ l -> filled hand' n k' T l'.
Proof.
  intros Hf Hr Hx Ho Hl' HP. destruct (spare_page _ _ _ _ _ x Hf Hx) as [Hg Hno].
  assert (Forall good_page [x]) as HPx by (constructor; [done|constructor]).
  assert (x ∈ l0) as Hx0. { eapply filled_pages; [exact Hf|]. by apply elem_of_app in Hx. }
  pose proof Hf as [Hu Hrt (ps & E1 & E2) Hout Hsame Hnew].
  destruct (us_frame k k' T l l' [x] Hu Ho HPx) as [Hu' Hpte]; [|done| |].
  { intros p ->%list_elem_of_singleton Ht. apply Hno. by left. }
  { intros p Hp Hop. destruct (spare_page _ _ _ _ _ p Hf) as [_ Hn]; [|done]. rewrite <- HP. apply elem_of_app. by right. }
  constructor; [done|done| | | |].
  - exists ps. split; [done|]. rewrite (upages_ext k T k' T) by done. rewrite E2.
    rewrite !(app_assoc (upages _ _ _ _)). by apply perm_around.
  - eapply outside_trans; [exact Hout|]. eapply outside_mono; [|exact Ho]. intros p ->%list_elem_of_singleton. apply elem_of_app. by left.
  - intros va H1 H2 H3. rewrite Hpte. by apply Hsame.
  - intros i Hi va. destruct (page_addr i n Hr Hi) as [Ha Hva]. destruct (Hnew i Hi) as (H1 & H2 & H3). rewrite Hpte.
    split; [done|]. split; [done|]. intros off Hoff. rewrite <- H3 by done. eapply page_bytes; [exact Hu|exact Ho|done|done|done|done| |done].
    intros E%list_elem_of_singleton. apply Hno. right. by exists (base + i * PGSIZE).
Qed.

(** The tables grow: the new ones come from the free list. *)
Lemma split_grow hand n k T l ps' l' (T' : ptab) k' :
  filled hand n k T l -> l = ps' ++ l' -> pt_pages T' ≡ₚ ps' ++ pt_pages T -> upages k' T' base n = upages k T base n ->
  exists ps, pt_pages T' ≡ₚ ps ++ pt_pages T0 /\ l0 ≡ₚ hand ++ upages k' T' base n ++ ps ++ l'.
Proof.
  intros [_ _ (ps & E1 & E2) _ _ _] -> HP ->. exists (ps ++ ps'). split.
  - rewrite HP, E1, !app_assoc. apply Permutation_app; [apply Permutation_app_comm|done].
  - by rewrite E2, <- !app_assoc.
Qed.

Lemma out_grow hand n k T l T' ps' l' k' :
  filled hand n k T l -> l = ps' ++ l' -> pt_pages T' ≡ₚ ps' ++ pt_pages T ->
  outside (pt_pages T') (kmem_mem k) (kmem_mem k') -> outside (l0 ++ pt_pages T0) (kmem_mem k0) (kmem_mem k').
Proof.
  intros Hf -> HP Ho. eapply outside_trans; [apply Hf|]. eapply outside_mono; [|exact Ho]. intros p Hp.
  rewrite HP, elem_of_app in Hp. apply elem_of_app. destruct Hp as [Hp|Hp].
  - left. eapply filled_pages; [exact Hf|]. right. apply elem_of_app. by left.
  - by eapply filled_tables.
Qed.

Lemma filled_grow hand n k T l k' T' l' :
  filled hand n k T l -> base + Z.of_nat n * PGSIZE <= TRAPFRAME -> pt_grow kend k T l k' T' l' -> filled hand n k' T' l'.
Proof.
  intros Hf Hr Hg. pose proof Hf as [Hu Hrt _ Hout Hsame Hnew]. pose proof (us_grow _ _ _ _ _ _ Hu Hg) as Hu'.
  pose proof Hg as [Hok Hrt' _ (ps & Hl & HP) Hpte Ho]. constructor; [done|congruence| | | |].
  - eapply split_grow; [exact Hf|exact Hl|done|]. by apply upages_ext.
  - by eapply out_grow.
  - intros va H1 H2 H3. rewrite Hpte. by apply Hsame.
  - intros i Hi va. destruct (page_addr i n Hr Hi) as [Ha Hva]. destruct (Hnew i Hi) as (H1 & H2 & H3). rewrite Hpte.
    split; [done|]. split; [done|]. intros off Hoff. rewrite <- H3 by done. eapply page_bytes; [exact Hu|exact Ho|apply Hok|done|done|done| |done].
    fold va. rewrite <- (Hpte va). apply (us_own _ _ _ _ Hu' va); [done|done|]. by rewrite Hpte.
Qed.

(** The page in hand is mapped next. *)
Lemma filled_put n k T l x perm k' T' l' :
  let va := base + Z.of_nat n * PGSIZE in
  filled [x] n k T l -> base + Z.of_nat (S n) * PGSIZE <= TRAPFRAME -> pt_put k T l va (leaf x perm) k' T' l' ->
  0 <= perm < 1024 -> Z.lor perm PTE_V = fl va -> fl va <> PTE_V ->
  (forall off, 0 <= off < PGSIZE -> rd8 (kmem_mem k) (x + off) = bytes (va + off)) -> filled [] (S n) k' T' l'.
Proof.
  intros va Hf Hr Hput Hperm Hfl Hne Hb. pose proof Hf as [Hu Hrt Hsp Hout Hsame Hnew].
  destruct (hand_free _ _ _ _ _ x Hf ltac:(by left)) as (Hg & Hno & Hnl).
  destruct (leaf_spec x perm Hg Hperm) as (L1 & L2 & L3 & _).
  destruct (page_addr (Z.of_nat n) (S n) Hr ltac:(lia)) as [Hva Hvr]. fold va in Hva, Hvr.
  assert (us_ok k' T' l') as Hu'.
  { eapply us_put; [exact Hu|exact Hput|done|done|]. rewrite L2, L3, Hfl. done. }
  pose proof Hput as [Hok Hrt' (ps & Hl & HP) Hpte Ho].
  assert (pte k' T' va = leaf x perm) as Eva by (rewrite Hpte, decide_True by (done || by apply below_max); done).
  assert (forall i, 0 <= i < Z.of_nat n -> pte k' T' (base + i * PGSIZE) = pte k T (base + i * PGSIZE)) as Hold.
  { intros i Hi. destruct (page_addr i (S n) Hr ltac:(lia)) as [Ha Hvi]. rewrite Hpte by (done || by apply below_max).
    rewrite decide_False; [done|]. unfold va. change PGSIZE with 4096. lia. }
  constructor; [done|congruence| | | |].
  - destruct (split_grow [x] n k T l ps l' T' k' Hf Hl HP (upages_ext _ _ _ _ _ _ Hold)) as (ps0 & E1 & E2).
    exists ps0. split; [done|]. rewrite upages_snoc. fold va. rewrite Eva, L2, E2. cbn [app]. rewrite <- app_assoc. by rewrite Permutation_middle.
  - by eapply out_grow.
  - intros va' H1 H2 H3. rewrite Hpte by done. rewrite decide_False by (unfold va; change PGSIZE with 4096 in *; lia).
    apply Hsame; [done|done|change PGSIZE with 4096 in *; lia].
  - intros i Hi va'. destruct (page_addr i (S n) Hr Hi) as [Ha Hvi]. destruct (decide (i = Z.of_nat n)) as [->|Hni].
    + unfold va'. fold va. rewrite Eva, L2, L3. split; [done|]. split; [done|]. intros off Hoff. rewrite <- Hb by done.
      eapply (outside_rd kend); [exact Ho|apply Hok|exact Hg| |unfold in_page; lia]. rewrite <- L2, <- Eva.
      apply (us_own _ _ _ _ Hu' va); [done|done|]. by rewrite Eva.
    + destruct (Hnew i ltac:(lia)) as (H1 & H2 & H3). fold va' in H1, H2, H3.
      assert (pte k' T' va' = pte k T va') as Ev by (apply Hold; lia). rewrite Ev. split; [done|]. split; [done|].
      intros off Hoff. rewrite <- H3 by done. eapply page_bytes; [exact Hu|exact Ho|apply Hok|done|done|done| |done].
      rewrite <- Ev. apply (us_own _ _ _ _ Hu' va'); [done|done|]. by rewrite Ev.
Qed.

(** Everything that was mapped is unmapped again. *)
Lemma filled_undo n k T l k' :
  filled [] n k T l -> base + Z.of_nat n * PGSIZE <= TRAPFRAME ->
  us_ok k' T (reverse (upages k T base n) ++ l) ->
  (forall va, aligned va -> 0 <= va < MAXVA -> pte k' T va = if decide (base <= va < base + Z.of_nat n * PGSIZE) then 0 else pte k T va) ->
  outside (upages k T base n ++ pt_pages T) (kmem_mem k) (kmem_mem k') ->
  (forall i, 0 <= i < Z.of_nat n -> has (pte k0 T0 (base + i * PGSIZE)) PTE_V = false) ->
  filled [] 0 k' T (reverse (upages k T base n) ++ l).
Proof.
  intros Hf Hr Hu' Hpte Ho Hinv. pose proof Hf as [Hu Hrt (ps & E1 & E2) Hout Hsame Hnew]. constructor; [done|done| | | |].
  - exists ps. split; [done|]. rewrite E2. cbn [upages app]. rewrite reverse_Permutation, !app_assoc.
    apply Permutation_app; [apply Permutation_app_comm|done].
  - eapply outside_trans; [exact Hout|]. eapply outside_mono; [|exact Ho]. intros p [Hp|Hp]%elem_of_app; apply elem_of_app.
    + left. rewrite E2, !elem_of_app. tauto.
    + by eapply filled_tables.
  - intros va H1 H2 _. rewrite Hpte by done. case_decide as E; [|by apply Hsame]. right. split; [|by rewrite invalid_0].
    destruct (range_addr n va H1 E) as (i & Hi & <-). by apply Hinv.
  - intros i Hi. lia.
Qed.

Abbreviation empty_before n := (forall i, 0 <= i < Z.of_nat n -> has (pte k0 T0 (base + i * PGSIZE)) PTE_V = false).

Lemma undo_wp n k T l h tr (Q : unit -> world kmem -> Prop) :
  filled [] n k T l -> LKmem ∉ h -> base + Z.of_nat n * PGSIZE <= TRAPFRAME -> empty_before n ->
  (forall k' l', filled [] 0 k' T l' -> length l' = (n + length l)%nat -> Q tt (World h tr k')) ->
  wp (uvmunmap kend (pt_root T0) base (Z.of_nat n) true) Q (World h tr k).
Proof.
  intros Hf Hlk Hr Hinv HQ. rewrite <- (fi_root _ _ _ _ _ _ _ _ _ _ _ Hf).
  apply (uvmunmap_wp n k T l); [apply Hf|done|by eapply filled_run|]. intros k' H1 H2 H3.
  eapply HQ; [eapply filled_undo; [exact Hf|done|exact H1|exact H2|exact H3|done]|].
  by rewrite length_app, length_reverse, length_upages.
Qed.

(** kalloc() puts a page in the hand, and kfree() takes it back. *)
Lemma hand_take_wp n k T l h tr (Q : Z -> world kmem -> Prop) :
  filled [] n k T l -> LKmem ∉ h -> base + Z.of_nat n * PGSIZE <= TRAPFRAME ->
  (l = [] -> Q 0 (World h tr k)) ->
  (forall x k' l', x <> 0 -> filled [x] n k' T l' -> Q x (World h tr k')) ->
  wp kalloc Q (World h tr k).
Proof.
  intros Hf Hlk Hr H0 HQ. pose proof (us_vm _ _ _ _ (fi_us _ _ _ _ _ _ _ _ _ _ _ Hf)) as Hvm.
  apply (kalloc_wp kend kend_pos l); [apply Hvm|done|done|]. intros x t k' -> Hf' Hse _. cbn [user held trace] in *. apply (HQ x k' t).
  - eapply good_page_ne_0; [done|]. eapply free_list_good; [apply Hvm|by left].
  - eapply filled_frame; [exact Hf|done|by left|by apply outside_one|done|done].
Qed.

Lemma give_back_wp n k T l x h tr (Q : unit -> world kmem -> Prop) :
  filled [x] n k T l -> LKmem ∉ h -> base + Z.of_nat n * PGSIZE <= TRAPFRAME ->
  (forall k', filled [] n k' T (x :: l) -> Q tt (World h tr k')) -> wp (kfree kend x) Q (World h tr k).
Proof.
  intros Hf Hlk Hr HQ. destruct (hand_free _ _ _ _ _ x Hf ltac:(by left)) as (Hg & _ & Hnl).
  apply (kfree_wp kend kend_pos x l); [apply (us_vm _ _ _ _ (fi_us _ _ _ _ _ _ _ _ _ _ _ Hf))|done|done|done|].
  intros k' Hf' Hse. apply (HQ k'). eapply filled_frame; [exact Hf|done|by left|by apply outside_one|done|done].
Qed.

(** The page in the hand is written. *)
Lemma write_hand n k T l x (f : mem -> mem) :
  filled [x] n k T l -> base + Z.of_nat n * PGSIZE <= TRAPFRAME ->
  outside [x] (kmem_mem k) (f (kmem_mem k)) -> mem_bytes (f (kmem_mem k)) -> filled [x] n (set_mem f k) T l.
Proof.
  intros Hf Hr Ho Hb. destruct (hand_free _ _ _ _ _ x Hf ltac:(by left)) as (Hg & _ & Hnl).
  eapply filled_frame; [exact Hf|done|by left|exact Ho| |done].
  eapply (free_list_outside kend); [apply (us_vm _ _ _ _ (fi_us _ _ _ _ _ _ _ _ _ _ _ Hf))|exact Ho|constructor; [done|constructor]| |done].
  by intros p ->%list_elem_of_singleton.
Qed.

(** The page in the hand, which has the right bytes, is mapped, or there is no memory for tables. *)
Lemma map_hand_wp n k T l x perm h tr (Q : Z -> world kmem -> Prop) :
  let va := base + Z.of_nat n * PGSIZE in
  filled [x] n k T l -> LKmem ∉ h -> base + Z.of_nat (S n) * PGSIZE <= TRAPFRAME -> empty_before (S n) ->
  0 <= perm < 1024 -> Z.lor perm PTE_V = fl va -> fl va <> PTE_V ->
  (forall off, 0 <= off < PGSIZE -> rd8 (kmem_mem k) (x + off) = bytes (va + off)) ->
  (forall k' T', filled [x] n k' T' [] -> Q (-1) (World h tr k')) ->
  (forall k' T' l', filled [] (S n) k' T' l' -> Q 0 (World h tr k')) ->
  wp (mappages (pt_root T0) va PGSIZE x perm) Q (World h tr k).
Proof.
  intros va Hf Hlk Hr Hinv Hperm Hfl Hne Hb Hfail Hdone. destruct (hand_free _ _ _ _ _ x Hf ltac:(by left)) as (Hg & _ & _).
  destruct (page_addr (Z.of_nat n) (S n) Hr ltac:(lia)) as [Hva Hvr]. fold va in Hva, Hvr.
  assert (base + Z.of_nat n * PGSIZE <= TRAPFRAME) as Hr' by (change PGSIZE with 4096 in *; lia).
  rewrite <- (fi_root _ _ _ _ _ _ _ _ _ _ _ Hf).
  apply (map_page_wp k T l); [apply Hf|done|done|by apply below_max|done|done| | |].
  - destruct (fi_same _ _ _ _ _ _ _ _ _ _ _ Hf va Hva (below_max _ Hvr) ltac:(unfold va; lia)) as [->|[_ H]]; [|done].
    apply Hinv. lia.
  - intros k' T' Hgr. eapply Hfail, filled_grow; [exact Hf|done|exact Hgr].
  - intros k' T' l' Hput. eapply Hdone, filled_put; [exact Hf|done|exact Hput|done|done|done|done].
Qed.

(** Its pages are old ones and pages that were free. *)
Lemma filled_owns hand n k T l p : filled hand n k T l -> owns k T p -> p ∈ l0 \/ owns k0 T0 p.
Proof.
  intros Hf [Ht|(va & Ha & Hva & Hv & E)].
  - destruct (filled_tables _ _ _ _ _ p Hf Ht); [by left|]. right. by left.
  - destruct (decide (base <= va < base + Z.of_nat n * PGSIZE)) as [Hin|Hout].
    + left. destruct Hf as [_ _ (ps & _ & E2) _ _ _]. rewrite E2, !elem_of_app. right. left. apply elem_of_upages.
      destruct (range_addr n va Ha Hin) as (i & Hi & Eva). exists i. by rewrite Eva.
    + right. right. exists va. destruct (fi_same _ _ _ _ _ _ _ _ _ _ _ Hf va Ha (below_max _ Hva) Hout) as [Es|[_ Hn]]; [|congruence].
      by rewrite <- Es.
Qed.

(** What the process sees: the new bytes where its pages are the user's, the old ones elsewhere. *)
Lemma filled_new_byte n k T l va :
  filled [] n k T l -> base + Z.of_nat n * PGSIZE <= TRAPFRAME -> base <= va < base + Z.of_nat n * PGSIZE ->
  ubyte k T va = if has (fl (page_of va)) PTE_U then Some (bytes va) else None.
Proof.
  intros Hf Hr Hva. destruct Hbase as [Hb H0]. set (i := (va - base) / PGSIZE).
  assert (page_of va = base + i * PGSIZE /\ 0 <= i < Z.of_nat n) as [Ep Hi] by (unfold i, aligned in *; pages).
  destruct (page_addr i n Hr Hi) as [Ha Hvr]. destruct (fi_new _ _ _ _ _ _ _ _ _ _ _ Hf i Hi) as (H1 & H2 & H3).
  rewrite <- Ep in Ha, Hvr, H1, H2, H3. unfold ubyte, uphys, user_pte. rewrite bool_decide_eq_true_2.
  2:{ split; [lia|]. change TRAPFRAME with 274877898752 in Hr. change MAXVA with 274877906944. lia. }
  rewrite H1, <- H2, flags_U. cbn [andb].
  destruct (has _ PTE_U); [|done]. cbn. f_equal. rewrite H3 by (change PGSIZE with 4096; Z.div_mod_to_equations; lia).
  f_equal. unfold page_of. lia.
Qed.

Lemma filled_old_byte n k T l va :
  filled [] n k T l -> base + Z.of_nat n * PGSIZE <= TRAPFRAME -> ~ (base <= va < base + Z.of_nat n * PGSIZE) ->
  ubyte k T va = ubyte k0 T0 va.
Proof.
  intros Hf Hr Hva. destruct (decide (0 <= va < MAXVA)) as [Hm|Hm].
  2:{ unfold ubyte, uphys. by rewrite !bool_decide_eq_false_2. }
  destruct (page_of_range va ltac:(lia)) as (P1 & P2 & P3). pose proof (page_below va Hm) as P4.
  assert (~ (base <= page_of va < base + Z.of_nat n * PGSIZE)) as Hp by (destruct Hbase as [Hb _]; unfold aligned in Hb; pages).
  unfold ubyte, uphys. rewrite !bool_decide_eq_true_2 by done. cbn [andb].
  destruct (fi_same _ _ _ _ _ _ _ _ _ _ _ Hf (page_of va) P3 ltac:(lia) Hp) as [->|[E1 E2]].
  2:{ unfold user_pte. by rewrite E1, E2. }
  destruct (user_pte (pte k0 T0 (page_of va))) eqn:Eu; [|done]. cbn. f_equal.
  destruct (user_page kend k0 T0 l0 Hus0 (page_of va) P3 ltac:(lia) Eu) as (U1 & U2 & U3 & U4 & U5).
  eapply page_bytes; [exact Hus0|apply Hf| |done|done|done| |change PGSIZE with 4096; Z.div_mod_to_equations; lia].
  - apply list.Forall_app. split; [apply (us_vm _ _ _ _ Hus0)|apply (us_vm _ _ _ _ Hus0)].
  - rewrite elem_of_app. tauto.
Qed.
End Fill.

(** ** uvmalloc() *)

Definition pages_between (a b : Z) : nat := Z.to_nat ((PGROUNDUP b - PGROUNDUP a) / PGSIZE).

Lemma TRAPFRAME_aligned : TRAPFRAME mod PGSIZE = 0.
Proof. done. Qed.

Lemma PGROUNDUP_below b : 0 <= b <= TRAPFRAME -> PGROUNDUP b mod PGSIZE = 0 /\ b <= PGROUNDUP b < b + PGSIZE /\ PGROUNDUP b <= TRAPFRAME.
Proof.
  intros Hb. destruct (PGROUNDUP_spec b) as [H1 H2]; [lia|change TRAPFRAME with 274877898752 in Hb; change PGSIZE with 4096; lia|].
  split; [done|]. split; [done|]. change TRAPFRAME with 274877898752 in *. change PGSIZE with 4096 in *. Z.div_mod_to_equations. lia.
Qed.

Lemma pages_between_spec a b :
  0 <= a <= b -> b <= TRAPFRAME ->
  PGROUNDUP a + Z.of_nat (pages_between a b) * PGSIZE = PGROUNDUP b /\
  forall n, PGROUNDUP a + Z.of_nat n * PGSIZE < b <-> (n < pages_between a b)%nat.
Proof.
  intros Ha Hb. destruct (PGROUNDUP_below a ltac:(lia)) as (A1 & A2 & A3). destruct (PGROUNDUP_below b ltac:(lia)) as (B1 & B2 & B3).
  unfold pages_between. change PGSIZE with 4096 in *. split; [Z.div_mod_to_equations; lia|]. intros n. Z.div_mod_to_equations. lia.
Qed.

Definition user_perm (xperm : Z) : Z := Z.lor (Z.lor PTE_R PTE_U) xperm.

Lemma user_perm_spec xperm :
  0 <= xperm < 1024 -> 0 <= user_perm xperm < 1024 /\ Z.lor (user_perm xperm) PTE_V <> PTE_V /\ has (Z.lor (user_perm xperm) PTE_V) PTE_U = true.
Proof.
  intros Hx. unfold user_perm. change (Z.lor PTE_R PTE_U) with 18. split; [|split].
  - assert (0 <= Z.lor 18 xperm) by (apply Z.lor_nonneg; lia). split; [done|]. change 1024 with (2 ^ 10).
    destruct (Z.eq_dec (Z.lor 18 xperm) 0) as [->|]; [lia|]. apply Z.log2_lt_pow2; [lia|]. rewrite Z.log2_lor by lia.
    destruct (Z.eq_dec xperm 0) as [->|]; [cbn; lia|]. assert (Z.log2 xperm < 10) by (apply Z.log2_lt_pow2; lia). change (Z.log2 18) with 4. lia.
  - intros E. apply (f_equal (fun z => Z.testbit z 4)) in E. rewrite !Z.lor_spec in E. done.
  - change PTE_U with (Z.shiftl 1 4). rewrite has_bit, !Z.lor_spec by lia. done.
Qed.

Section Alloc.
Context (k0 : kmem) (T0 : ptab) (l0 : list Z) (oldsz newsz xperm : Z) (h : list lock) (tr : list event).
Hypothesis Hus0 : us_ok k0 T0 l0.
Hypothesis Hlk : LKmem ∉ h.
Hypothesis Hsz : 0 <= oldsz <= newsz.
Hypothesis Hnew : newsz <= TRAPFRAME.
Hypothesis Hx : 0 <= xperm < 1024.
Hypothesis Hempty : forall va, aligned va -> PGROUNDUP oldsz <= va < newsz -> has (pte k0 T0 va) PTE_V = false.
Abbreviation base := (PGROUNDUP oldsz).
Abbreviation grown := (filled k0 T0 l0 base (fun _ => Z.lor (user_perm xperm) PTE_V) (fun _ => 0)).

Lemma base_ok : aligned base /\ 0 <= base.
Proof. destruct (PGROUNDUP_below oldsz ltac:(lia)) as (H1 & H2 & _). split; [done|lia]. Qed.

Lemma empty_upto n : (n <= pages_between oldsz newsz)%nat -> forall i, 0 <= i < Z.of_nat n -> has (pte k0 T0 (base + i * PGSIZE)) PTE_V = false.
Proof.
  intros Hn i Hi. destruct base_ok as [Ha H0]. apply Hempty; [by apply aligned_add|].
  destruct (pages_between_spec oldsz newsz Hsz Hnew) as [_ Hlt]. destruct (Hlt (Z.to_nat i)) as [_ H]. rewrite Z2Nat.id in H by lia.
  split; [change PGSIZE with 4096; lia|]. apply H. lia.
Qed.

Lemma upto_max n : (n <= pages_between oldsz newsz)%nat -> base + Z.of_nat n * PGSIZE <= TRAPFRAME.
Proof.
  intros Hn. destruct (pages_between_spec oldsz newsz Hsz Hnew) as [E _]. destruct (PGROUNDUP_below newsz ltac:(lia)) as (_ & _ & H).
  change PGSIZE with 4096 in *. lia.
Qed.

(** The error path: uvmdealloc() takes back what was allocated. *)
Lemma dealloc_wp n k T l (Q : Z -> world kmem -> Prop) :
  grown [] n k T l -> (n <= pages_between oldsz newsz)%nat ->
  (forall r k' l', grown [] 0 k' T l' -> length l' = (n + length l)%nat -> Q r (World h tr k')) ->
  wp (uvmdealloc kend (pt_root T0) (base + Z.of_nat n * PGSIZE) base) Q (World h tr k).
Proof.
  intros Hf Hn HQ. pose proof (upto_max n Hn) as Hr. destruct base_ok as [Ha H0]. unfold uvmdealloc.
  rewrite Z.geb_leb. destruct (Z.leb_spec (base + Z.of_nat n * PGSIZE) base) as [Hle|Hgt].
  - assert (n = 0%nat) as -> by (change PGSIZE with 4096 in Hle; lia). wp_step. by eapply HQ.
  - pose proof (aligned_add base (Z.of_nat n) Ha) as Han. change TRAPFRAME with 274877898752 in Hr. unfold aligned in *.
    rewrite !(PGROUNDUP_aligned (base + _)), (PGROUNDUP_aligned base) by (try done; change PGSIZE with 4096 in *; lia).
    rewrite (proj2 (Z.ltb_lt _ _)) by lia. replace (base + Z.of_nat n * PGSIZE - base) with (Z.of_nat n * PGSIZE) by lia.
    rewrite Z.div_mul by done. cbv zeta. rewrite s32_small, u64_small by (change PGSIZE with 4096 in *; lia).
    wp_step. eapply (undo_wp k0 T0 l0 base _ _ ltac:(exact (conj Ha H0))); [exact Hf|done|exact Hr|by apply empty_upto|].
    intros k' l' Hf' Hlen. wp_step. by eapply HQ.
Qed.

Lemma alloc_step_wp n k T l (Q : Z + Z -> world kmem -> Prop) :
  grown [] n k T l -> (n <= pages_between oldsz newsz)%nat ->
  (n = pages_between oldsz newsz -> Q (inr newsz) (World h tr k)) ->
  (forall k' T' l', (n < pages_between oldsz newsz)%nat -> grown [] (S n) k' T' l' -> Q (inl (base + Z.of_nat (S n) * PGSIZE)) (World h tr k')) ->
  (forall k' T' l', grown [] 0 k' T' l' -> (length l' <= pages_between oldsz newsz)%nat -> Q (inr 0) (World h tr k')) ->
  wp (uvmalloc_step kend (pt_root T0) base newsz xperm (base + Z.of_nat n * PGSIZE)) Q (World h tr k).
Proof.
  intros Hf Hn Hdone Hnext Hfail. destruct (pages_between_spec oldsz newsz Hsz Hnew) as [_ Hlt]. unfold uvmalloc_step.
  destruct (Z.ltb_spec (base + Z.of_nat n * PGSIZE) newsz) as [H|H]; cbn [negb].
  2:{ wp_step. apply Hdone. destruct (decide (n < pages_between oldsz newsz)%nat) as [Hl|]; [|lia]. apply Hlt in Hl. lia. }
  apply Hlt in H. pose proof (upto_max n ltac:(lia)) as Hr. pose proof (upto_max (S n) ltac:(lia)) as Hr1. wp_step.
  eapply (hand_take_wp k0 T0 l0 base _ _ Hus0 base_ok n k T l); [exact Hf|done|done| |].
  { intros ->. rewrite Z.eqb_refl. wp_step. apply (dealloc_wp n k T []); [done|lia|]. intros r k' l' Hf' Hlen. wp_step.
    eapply Hfail; [exact Hf'|]. cbn in Hlen. lia. }
  intros x k1 l1 Hx0 Hf1. rewrite (proj2 (Z.eqb_neq _ _) Hx0). unfold memset0. do 2 wp_step. cbn [user].
  pose proof (fi_us _ _ _ _ _ _ _ _ _ _ _ Hf1) as Hu1.
  assert (grown [x] n (set_mem (fun m => memset m x 0 PGSIZE) k1) T l1) as Hf2.
  { eapply (write_hand k0 T0 l0 base _ _ Hus0 base_ok); [done|done|apply outside_one, same_except_memset|].
    apply mem_bytes_memset, (us_vm _ _ _ _ Hu1). }
  destruct (user_perm_spec xperm Hx) as (X1 & X2 & _).
  wp_step. eapply (map_hand_wp k0 T0 l0 base _ _ Hus0 base_ok n _ T l1 x); [exact Hf2|done|done|by apply empty_upto|done|done|done| | |].
  - intros off Hoff. cbn. rewrite memset_rd, decide_True by lia. done.
  - intros k' T' Hf3. change (negb (-1 =? 0)) with true. cbv iota. wp_step.
    eapply (give_back_wp k0 T0 l0 base _ _ Hus0 base_ok n k' T' [] x); [exact Hf3|done|done|]. intros k2 Hf4. wp_step.
    apply (dealloc_wp n k2 T' [x]); [done|lia|]. intros r k3 l3 Hf5 Hlen. wp_step. eapply Hfail; [exact Hf5|]. cbn in Hlen. lia.
  - intros k' T' l' Hf3. cbn [Z.eqb negb]. wp_step. destruct (MAXVA_u64 (base + Z.of_nat n * PGSIZE)) as [_ E].
    { apply below_max. destruct base_ok. change PGSIZE with 4096 in *. lia. }
    rewrite E. replace (base + Z.of_nat n * PGSIZE + PGSIZE) with (base + Z.of_nat (S n) * PGSIZE) by lia. eapply Hnext; [lia|exact Hf3].
Qed.

Lemma uvmalloc_wp (Q : Z -> world kmem -> Prop) :
  (forall k' T' l', grown [] (pages_between oldsz newsz) k' T' l' -> Q newsz (World h tr k')) ->
  (forall k' T' l', grown [] 0 k' T' l' -> (length l' <= pages_between oldsz newsz)%nat -> Q 0 (World h tr k')) ->
  wp (uvmalloc kend (pt_root T0) oldsz newsz xperm) Q (World h tr k0).
Proof.
  intros Hdone Hfail. unfold uvmalloc. rewrite (proj2 (Z.ltb_ge _ _)) by lia. cbv zeta.
  apply (wp_iter (fun a _ => (pages_between oldsz newsz - Z.to_nat ((a - base) / PGSIZE))%nat)
    (fun a w => exists n k T l, a = base + Z.of_nat n * PGSIZE /\ w = World h tr k /\ grown [] n k T l /\ (n <= pages_between oldsz newsz)%nat)).
  - exists 0%nat, k0, T0, l0. split; [lia|]. split; [done|]. split; [by apply filled_start|lia].
  - unfold pages_between. rewrite Z.sub_diag. change (0 / PGSIZE) with 0. destruct (PGROUNDUP_below newsz ltac:(lia)) as (_ & H & _).
    change PGSIZE with 4096 in *. Z.div_mod_to_equations. lia.
  - intros a w (n & k & T & l & -> & -> & Hf & Hn). apply (alloc_step_wp n k T l); [done|done| | |].
    + intros ->. by eapply Hdone.
    + intros k' T' l' Hlt Hf'. split; [by exists (S n), k', T', l'|].
      replace (base + Z.of_nat (S n) * PGSIZE - base) with (Z.of_nat (S n) * PGSIZE) by lia.
      replace (base + Z.of_nat n * PGSIZE - base) with (Z.of_nat n * PGSIZE) by lia. rewrite !Z.div_mul by done. lia.
    + done.
Qed.
End Alloc.

(** ** uvmcopy() *)

Section Copying.
Context (k0 : kmem) (T T0 : ptab) (l0 : list Z) (sz : Z) (h : list lock) (tr : list event).
Hypothesis Hold : us_ok k0 T l0.
Hypothesis Hus0 : us_ok k0 T0 l0.
Hypothesis Hapart : forall p, owns k0 T p -> ~ owns k0 T0 p.
Hypothesis Hlk : LKmem ∉ h.
Hypothesis Hsz : 0 <= sz <= TRAPFRAME.
Hypothesis Hmapped : forall va, aligned va -> 0 <= va < sz -> has (pte k0 T va) PTE_V = true.
Hypothesis Hempty : forall va, aligned va -> 0 <= va < sz -> has (pte k0 T0 va) PTE_V = false.

Definition parent_flags (va : Z) : Z := PTE_FLAGS (pte k0 T va).
Definition parent_byte (va : Z) : Z := rd8 (kmem_mem k0) (PTE2PA (pte k0 T (page_of va)) + va mod PGSIZE).
Abbreviation copied := (filled k0 T0 l0 0 parent_flags parent_byte).
Abbreviation total := (pages_between 0 sz).

Lemma arena_good : Forall good_page (l0 ++ pt_pages T0).
Proof. apply list.Forall_app. split; apply (us_vm _ _ _ _ Hus0). Qed.

Lemma parent_apart p : owns k0 T p -> p ∉ l0 ++ pt_pages T0.
Proof.
  intros Ho [Hp|Hp]%elem_of_app; [exact (owns_not_free _ _ _ _ Hold Ho Hp)|]. apply (Hapart p Ho). by left.
Qed.

(** The parent's memory is as before. *)
Lemma parent_kept hand n k T' l :
  copied hand n k T' l ->
  us_ok k T l /\ (forall va, pte k T va = pte k0 T va) /\
  forall va off, aligned va -> 0 <= va < TRAPFRAME -> has (pte k0 T va) PTE_V = true -> 0 <= off < PGSIZE ->
    rd8 (kmem_mem k) (PTE2PA (pte k0 T va) + off) = rd8 (kmem_mem k0) (PTE2PA (pte k0 T va) + off).
Proof.
  intros Hf. pose proof Hf as [Hu _ _ Hout _ _].
  destruct (us_frame k0 k T l0 l (l0 ++ pt_pages T0) Hold Hout arena_good) as [H1 H2]; [|apply Hu| |].
  - intros p Hp Ht. eapply parent_apart; [|exact Hp]. by left.
  - intros p Hp Ho. eapply parent_apart; [exact Ho|]. apply elem_of_app. left. eapply filled_pages; [exact Hf|by right].
  - split; [done|]. split; [done|]. intros va off Ha Hva Hv Hoff.
    eapply page_bytes; [exact Hold|exact Hout|apply arena_good|done|done|done| |done]. apply parent_apart. right. by exists va.
Qed.

Lemma PGROUNDUP_0 : PGROUNDUP 0 = 0.
Proof. done. Qed.

Lemma copy_upto n : (n <= total)%nat -> 0 + Z.of_nat n * PGSIZE <= TRAPFRAME.
Proof.
  intros Hn. destruct (pages_between_spec 0 sz ltac:(lia) ltac:(lia)) as [E _]. rewrite PGROUNDUP_0 in E.
  destruct (PGROUNDUP_below sz Hsz) as (_ & _ & H). change PGSIZE with 4096 in *. lia.
Qed.

Lemma copy_next n : (n < total)%nat <-> 0 + Z.of_nat n * PGSIZE < sz.
Proof. destruct (pages_between_spec 0 sz ltac:(lia) ltac:(lia)) as [_ H]. rewrite PGROUNDUP_0 in H. by rewrite (H n). Qed.

Lemma copy_empty n : (n <= total)%nat -> forall i, 0 <= i < Z.of_nat n -> has (pte k0 T0 (0 + i * PGSIZE)) PTE_V = false.
Proof.
  intros Hn i Hi. apply Hempty; [by apply (aligned_add 0)|]. destruct (copy_next (Z.to_nat i)) as [H _]. rewrite Z2Nat.id in H by lia.
  split; [change PGSIZE with 4096; lia|]. apply H. lia.
Qed.

Lemma zero_ok : aligned 0 /\ 0 <= 0.
Proof. done. Qed.

(** The error path. *)
Lemma copy_err_wp n k T' l (Q : Z + Z -> world kmem -> Prop) :
  copied [] n k T' l -> (n <= total)%nat ->
  (forall k' l', copied [] 0 k' T' l' -> length l' = (n + length l)%nat -> Q (inr (-1)) (World h tr k')) ->
  wp (uvmunmap kend (pt_root T0) 0 (Z.of_nat n * PGSIZE / PGSIZE) true ;; ret (inr (-1))) Q (World h tr k).
Proof.
  intros Hf Hn HQ. rewrite Z.div_mul by done. wp_step.
  eapply (undo_wp k0 T0 l0 0 _ _ zero_ok); [exact Hf|done|by apply copy_upto|by apply copy_empty|].
  intros k' l' Hf' Hlen. wp_step. by eapply HQ.
Qed.

(** The entry of a page of the parent. *)
Lemma parent_pte_wp {A} n k T' l hand (K : Z -> M kmem A) (Q : A -> world kmem -> Prop) :
  copied hand n k T' l -> (n < total)%nat ->
  wp (K (pte k0 T (Z.of_nat n * PGSIZE))) Q (World h tr k) ->
  wp (let* pte := walk (pt_root T) (Z.of_nat n * PGSIZE) false in
      if pte =? 0 then panic "uvmcopy: pte should exist" else let* e := rd64 pte in K e) Q (World h tr k).
Proof.
  intros Hf Hn HK. set (va := Z.of_nat n * PGSIZE) in *. destruct (parent_kept _ _ _ _ _ Hf) as (Hu & Hpte & _).
  pose proof (copy_upto (S n) ltac:(lia)) as Hr. pose proof (proj1 (copy_next n) Hn) as Hlt.
  assert (0 <= va < TRAPFRAME) as Hva by (unfold va; change PGSIZE with 4096 in *; lia).
  pose proof (Hmapped va (aligned_add 0 _ (proj1 zero_ok)) ltac:(unfold va in *; lia)) as Hv. rewrite <- Hpte in Hv, HK.
  wp_step. apply (walk_false_wp kend kend_pos k T); [apply Hu|by apply below_max|].
  destruct (valid_slot _ _ _ Hv) as [q Hq]. unfold pte_slot. rewrite Hq. cbn [fmap option_fmap option_map default from_option id].
  rewrite (proj2 (Z.eqb_neq _ _)) by (by eapply low_addr_pos; [| |exact Hq]; [|apply Hu]).
  unfold rd64. do 2 wp_step. cbn [user].
  assert (load64 (kmem_mem k) (pte_addr q 0 va) = pte k T va) as -> by (unfold pte_of; by rewrite Hq). exact HK.
Qed.

(** The bytes memmove() copies. *)
Lemma copied_bytes n k T' l x off :
  copied [x] n k T' l -> (n < total)%nat -> 0 <= off < PGSIZE ->
  rd8 (memmove (kmem_mem k) x (PTE2PA (pte k0 T (Z.of_nat n * PGSIZE))) PGSIZE) (x + off) = parent_byte (Z.of_nat n * PGSIZE + off).
Proof.
  intros Hf Hn Hoff. set (va := Z.of_nat n * PGSIZE). destruct (parent_kept _ _ _ _ _ Hf) as (Hu & _ & Hby).
  pose proof (copy_upto (S n) ltac:(lia)) as Hr. pose proof (proj1 (copy_next n) Hn) as Hlt.
  assert (0 <= va < TRAPFRAME) as Hva by (unfold va; change PGSIZE with 4096 in *; lia).
  pose proof (aligned_add 0 (Z.of_nat n) (proj1 zero_ok)) as Ha. change (aligned va) in Ha.
  rewrite memmove_rd, decide_True by (try apply (us_vm _ _ _ _ Hu); try done; lia). replace (x + off - x) with off by lia.
  rewrite Hby; [|done|done|apply Hmapped; [done|unfold va in *; lia]|done]. unfold parent_byte.
  rewrite (page_of_in (va + off) va) by (done || lia). do 2 f_equal. unfold aligned in Ha. change PGSIZE with 4096 in *. Z.div_mod_to_equations. lia.
Qed.

Lemma lor_valid e : has e PTE_V = true -> Z.lor (PTE_FLAGS e) PTE_V = PTE_FLAGS e.
Proof.
  change PTE_V with (Z.shiftl 1 0). rewrite has_flags by lia. intros Hv. change (Z.shiftl 1 0) with 1. apply Z.bits_inj'. intros i Hi.
  rewrite Z.lor_spec. destruct (decide (i = 0)) as [->|]; [by rewrite Hv|]. replace (Z.testbit 1 i) with false; [by rewrite orb_false_r|].
  symmetry. change 1 with (2 ^ 0). apply Z.pow2_bits_false. lia.
Qed.

Lemma flags_range e : 0 <= PTE_FLAGS e < 1024.
Proof. unfold PTE_FLAGS. change 1023 with (Z.ones 10). rewrite Z.land_ones by lia. apply Z.mod_pos_bound. lia. Qed.

Lemma copy_step_wp n k T' l (Q : Z + Z -> world kmem -> Prop) :
  copied [] n k T' l -> (n <= total)%nat ->
  (n = total -> Q (inr 0) (World h tr k)) ->
  (forall k' T' l', (n < total)%nat -> copied [] (S n) k' T' l' -> Q (inl (Z.of_nat (S n) * PGSIZE)) (World h tr k')) ->
  (forall k' T' l', copied [] 0 k' T' l' -> (length l' <= total)%nat -> Q (inr (-1)) (World h tr k')) ->
  wp (uvmcopy_step kend (pt_root T) (pt_root T0) sz (Z.of_nat n * PGSIZE)) Q (World h tr k).
Proof.
  intros Hf Hn Hdone Hnext Hfail. unfold uvmcopy_step. cbv zeta.
  destruct (Z.ltb_spec (Z.of_nat n * PGSIZE) sz) as [H|H]; cbn [negb].
  2:{ wp_step. apply Hdone. destruct (decide (n < total)%nat) as [Hl|]; [|lia]. apply copy_next in Hl. lia. }
  assert (n < total)%nat as Hlt by (apply copy_next; lia).
  pose proof (copy_upto n Hn) as Hr. pose proof (copy_upto (S n) ltac:(lia)) as Hr1. set (va := Z.of_nat n * PGSIZE).
  assert (aligned va /\ 0 <= va < TRAPFRAME) as [Ha Hva].
  { split; [by apply (aligned_add 0)|]. unfold va. change PGSIZE with 4096 in *. lia. }
  pose proof (Hmapped va Ha ltac:(unfold va in *; lia)) as Hv.
  apply (parent_pte_wp n k T' l []); [done|done|]. fold va. rewrite Hv. cbn [negb]. wp_step.
  eapply (hand_take_wp k0 T0 l0 0 _ _ Hus0 zero_ok n k T' l); [exact Hf|done|exact Hr| |].
  { intros ->. rewrite Z.eqb_refl. apply (copy_err_wp n k T' []); [done|done|]. intros k' l' Hf' Hlen. eapply Hfail; [exact Hf'|]. cbn in Hlen. lia. }
  intros x k1 l1 Hx0 Hf1. rewrite (proj2 (Z.eqb_neq _ _) Hx0). do 2 wp_step. cbn [user].
  pose proof (us_vm _ _ _ _ (fi_us _ _ _ _ _ _ _ _ _ _ _ Hf1)) as Hvm1.
  assert (copied [x] n (set_mem (fun m => memmove m x (PTE2PA (pte k0 T va)) PGSIZE) k1) T' l1) as Hf2.
  { eapply (write_hand k0 T0 l0 0 _ _ Hus0 zero_ok); [exact Hf1|exact Hr| |apply mem_bytes_memmove; [apply Hvm1|done]].
    intros b Hb. rewrite memmove_rd by (apply Hvm1 || done). rewrite decide_False; [done|]. apply (Hb x). by left. }
  wp_step. eapply (map_hand_wp k0 T0 l0 0 _ _ Hus0 zero_ok n _ T' l1 x); [exact Hf2|done|exact Hr1|by apply copy_empty|apply flags_range| | | | |].
  - unfold parent_flags. rewrite Z.add_0_l. fold va. by apply lor_valid.
  - unfold parent_flags. rewrite Z.add_0_l. fold va. by apply (us_own _ _ _ _ Hold va).
  - intros off Hoff. rewrite Z.add_0_l. by apply (copied_bytes n k1 T' l1).
  - intros k' T2 Hf3. change (negb (-1 =? 0)) with true. cbv iota. wp_step.
    eapply (give_back_wp k0 T0 l0 0 _ _ Hus0 zero_ok n k' T2 [] x); [exact Hf3|done|exact Hr|]. intros k2 Hf4.
    apply (copy_err_wp n k2 T2 [x]); [done|done|]. intros k3 l3 Hf5 Hlen. eapply Hfail; [exact Hf5|]. cbn in Hlen. lia.
  - intros k' T2 l' Hf3. cbn [Z.eqb negb]. wp_step. destruct (MAXVA_u64 va (below_max va Hva)) as [_ E].
    rewrite E. replace (va + PGSIZE) with (Z.of_nat (S n) * PGSIZE) by (unfold va; lia). by eapply Hnext.
Qed.

Lemma uvmcopy_wp (Q : Z -> world kmem -> Prop) :
  (forall k' T' l', copied [] total k' T' l' -> Q 0 (World h tr k')) ->
  (forall k' T' l', copied [] 0 k' T' l' -> (length l' <= total)%nat -> Q (-1) (World h tr k')) ->
  wp (uvmcopy kend (pt_root T) (pt_root T0) sz) Q (World h tr k0).
Proof.
  intros Hdone Hfail. unfold uvmcopy.
  apply (wp_iter (fun a _ => (total - Z.to_nat (a / PGSIZE))%nat)
    (fun a w => exists n k T' l, a = Z.of_nat n * PGSIZE /\ w = World h tr k /\ copied [] n k T' l /\ (n <= total)%nat)).
  - exists 0%nat, k0, T0, l0. split; [lia|]. split; [done|]. split; [by apply filled_start|lia].
  - unfold pages_between. change (0 / PGSIZE) with 0. rewrite PGROUNDUP_0. destruct (PGROUNDUP_below sz Hsz) as (_ & H & _).
    change PGSIZE with 4096 in *. Z.div_mod_to_equations. lia.
  - intros a w (n & k & T' & l & -> & -> & Hf & Hn). apply (copy_step_wp n k T' l); [done|done| | |].
    + intros ->. by eapply Hdone.
    + intros k' T2 l' Hlt Hf'. split; [by exists (S n), k', T2, l'|]. rewrite !Z.div_mul by done. lia.
    + done.
Qed.

(** Parent and child afterwards. *)
Lemma child_apart hand n k T' l p : copied hand n k T' l -> owns k T p -> ~ owns k T' p.
Proof.
  intros Hf Ho Hc. destruct (parent_kept _ _ _ _ _ Hf) as (_ & Hpte & _).
  assert (owns k0 T p) as Ho0.
  { destruct Ho as [Ht|(va & H1 & H2 & H3 & H4)]; [by left|]. right. exists va. by rewrite Hpte in H3, H4. }
  pose proof (parent_apart p Ho0) as Hni. destruct (filled_owns k0 T0 l0 0 _ _ zero_ok _ _ _ _ _ _ Hf Hc) as [Hl|Hl]; [|by eapply Hapart].
  apply Hni, elem_of_app. by left.
Qed.

Lemma parent_ubyte hand n k T' l va : copied hand n k T' l -> ubyte k T va = ubyte k0 T va.
Proof.
  intros Hf. destruct (parent_kept _ _ _ _ _ Hf) as (_ & Hpte & Hby). unfold ubyte, uphys. rewrite Hpte.
  case_bool_decide as Hm; cbn [andb]; [|done]. destruct (user_pte (pte k0 T (page_of va))) eqn:Eu; [|done]. cbn. f_equal.
  destruct (page_of_range va ltac:(lia)) as (P1 & P2 & P3). pose proof (page_below va Hm) as P4.
  destruct (user_page kend k0 T l0 Hold (page_of va) P3 ltac:(lia) Eu) as (U1 & U2 & _).
  apply Hby; [done|done|done|]. change PGSIZE with 4096. Z.div_mod_to_equations. lia.
Qed.

Lemma below_sz va : 0 <= va < PGROUNDUP sz -> aligned (page_of va) /\ 0 <= page_of va < sz.
Proof.
  intros Hva. destruct (page_of_range va ltac:(lia)) as (P1 & P2 & P3). destruct (PGROUNDUP_below sz Hsz) as (S1 & S2 & _).
  split; [done|]. split; [lia|]. change PGSIZE with 4096 in *. Z.div_mod_to_equations. lia.
Qed.

Lemma child_ubyte k T' l va :
  copied [] total k T' l -> ubyte k T' va = if decide (0 <= va < PGROUNDUP sz) then ubyte k0 T va else ubyte k0 T0 va.
Proof.
  intros Hf. destruct (pages_between_spec 0 sz ltac:(lia) ltac:(lia)) as [E _]. rewrite PGROUNDUP_0 in E.
  pose proof (copy_upto total ltac:(lia)) as Hr. rewrite <- E. case_decide as Hva.
  2:{ eapply (filled_old_byte k0 T0 l0 0); [done|apply zero_ok|exact Hf|exact Hr|done]. }
  erewrite (filled_new_byte k0 T0 l0 0); [|apply zero_ok|exact Hf|exact Hr|exact Hva]. rewrite E in Hva.
  destruct (below_sz va Hva) as [Ha Hlt]. unfold parent_flags, parent_byte. rewrite flags_U. unfold ubyte, uphys, user_pte.
  rewrite (Hmapped _ Ha Hlt), bool_decide_eq_true_2; [|rewrite E in Hr; apply below_max; lia]. cbn [andb].
  by destruct (has _ PTE_U).
Qed.

Lemma child_flags k T' l va :
  copied [] total k T' l -> aligned va -> 0 <= va < sz -> PTE_FLAGS (pte k T' va) = PTE_FLAGS (pte k0 T va).
Proof.
  intros Hf Ha Hva. destruct (pages_between_spec 0 sz ltac:(lia) ltac:(lia)) as [E _]. rewrite PGROUNDUP_0 in E.
  destruct (PGROUNDUP_below sz Hsz) as (_ & S2 & _).
  destruct (range_addr 0 parent_flags parent_byte zero_ok total va Ha ltac:(lia)) as (i & Hi & <-).
  by destruct (fi_new _ _ _ _ _ _ _ _ _ _ _ Hf i Hi) as (_ & -> & _).
Qed.
End Copying.
End Map.
