(* ===== verification/VmSpace.v ===== *)
(** * Address spaces grow, are copied and are freed (kernel/vm.c: uvmalloc, uvmcopy,
    freewalk, uvmfree)

    The promises of vm.c to proc.c: a process that grows finds zeroes in its new
    memory, a child finds the bytes of its parent in pages of its own, and a
    process that is freed gives back every page it had; when memory runs out,
    what was taken is given back. *)

From S2P Require Import Prelude Machine Mem Kalloc Vm VmTable VmCopy VmMap.

Open Scope Z_scope.

#[local] Opaque memset memmove store64 load64 load store.

(** ** Growing *)

(** C22. uvmalloc() grows a process to [newsz] bytes. It terminates without a panic, and
    either answers [newsz], and the process sees zeroes in every new page and its old
    bytes everywhere else, or answers 0, and the process sees exactly what it saw
    before. The pages it used came off the free list: each is mapped once, a new
    page table, or - when it fails - back on the list; it changes no other
    memory, and it fails only when there are at most as many free pages as it asks for. *)
Theorem uvmalloc_correct (kend : Z) k T l oldsz newsz xperm h tr
  (Hk : 0 < kend) (Hu : us_ok kend k T l) (Hlk : LKmem ∉ h) (Hsz : 0 <= oldsz <= newsz) (Hnew : newsz <= TRAPFRAME) (Hx : 0 <= xperm < 1024)
  (He : forall va, aligned va -> PGROUNDUP oldsz <= va < newsz -> has (pte_of (kmem_mem k) T va) PTE_V = false) :
  wp (uvmalloc kend (pt_root T) oldsz newsz xperm) (fun r w => exists k' T' l' ps,
    w = World h tr k' /\ us_ok kend k' T' l' /\ pt_root T' = pt_root T /\
    pt_pages T' ≡ₚ ps ++ pt_pages T /\ outside (l ++ pt_pages T) (kmem_mem k) (kmem_mem k') /\
    (r = newsz /\ l ≡ₚ upages k' T' (PGROUNDUP oldsz) (pages_between oldsz newsz) ++ ps ++ l' /\
       (forall va, ubyte k' T' va = if decide (PGROUNDUP oldsz <= va < PGROUNDUP newsz) then Some 0 else ubyte k T va) \/
     r = 0 /\ l ≡ₚ ps ++ l' /\ (length l' <= pages_between oldsz newsz)%nat /\
       forall va, ubyte k' T' va = ubyte k T va)) (World h tr k).
Proof.
  destruct (pages_between_spec oldsz newsz Hsz Hnew) as [Eb _]. pose proof (base_ok oldsz newsz Hsz Hnew) as Hb.
  destruct (PGROUNDUP_below newsz ltac:(lia)) as (_ & _ & Hmax). destruct (user_perm_spec xperm Hx) as (_ & _ & HU).
  apply (uvmalloc_wp kend Hk k T l oldsz newsz xperm h tr Hu Hlk Hsz Hnew Hx He).
  - intros k' T' l' Hf. pose proof Hf as [H1 H2 (ps & H3 & H4) H5 _ _]. exists k', T', l', ps.
    split; [done|]. split; [done|]. split; [done|]. split; [done|]. split; [done|]. left. split; [done|]. split; [exact H4|].
    intros va. rewrite <- Eb in *. case_decide as E.
    + erewrite (filled_new_byte kend k T l); [|done|exact Hf|done|done]. cbv beta. by rewrite HU.
    + eapply (filled_old_byte kend k T l); [done|done|exact Hf|done|done].
  - intros k' T' l' Hf Hlen. pose proof Hf as [H1 H2 (ps & H3 & H4) H5 _ _]. exists k', T', l', ps.
    split; [done|]. split; [done|]. split; [done|]. split; [done|]. split; [done|]. right. split; [done|]. split; [exact H4|]. split; [done|].
    intros va. eapply (filled_old_byte kend k T l); [done|done|exact Hf| |]; change PGSIZE with 4096 in *; lia.
Qed.

(** ** Copying *)

(** C8. uvmcopy() gives a child the memory of its parent. It terminates without a panic; the
    parent's page table and bytes are as before, and the pages of the two are
    different, so that neither sees what the other writes. When it answers 0 the
    child has every page of the parent below [sz], with the parent's
    permissions and its bytes; when it answers -1 the child has no more than it had, and every page
    taken, new page tables apart, is free again. *)
Theorem uvmcopy_correct (kend : Z) k T T0 l sz h tr
  (Hk : 0 < kend) (Hp : us_ok kend k T l) (Hc : us_ok kend k T0 l) (Hap : forall p, owns k T p -> ~ owns k T0 p)
  (Hlk : LKmem ∉ h) (Hsz : 0 <= sz <= TRAPFRAME)
  (Hm : forall va, aligned va -> 0 <= va < sz -> has (pte_of (kmem_mem k) T va) PTE_V = true)
  (He : forall va, aligned va -> 0 <= va < sz -> has (pte_of (kmem_mem k) T0 va) PTE_V = false) :
  wp (uvmcopy kend (pt_root T) (pt_root T0) sz) (fun r w => exists k' T' l' ps,
    w = World h tr k' /\ us_ok kend k' T l' /\ us_ok kend k' T' l' /\ pt_root T' = pt_root T0 /\
    (forall p, owns k' T p -> ~ owns k' T' p) /\ (forall va, pte_of (kmem_mem k') T va = pte_of (kmem_mem k) T va) /\
    (forall va, ubyte k' T va = ubyte k T va) /\ pt_pages T' ≡ₚ ps ++ pt_pages T0 /\
    (r = 0 /\ l ≡ₚ upages k' T' 0 (pages_between 0 sz) ++ ps ++ l' /\
       (forall va, aligned va -> 0 <= va < sz -> PTE_FLAGS (pte_of (kmem_mem k') T' va) = PTE_FLAGS (pte_of (kmem_mem k) T va)) /\
       (forall va, ubyte k' T' va = if decide (0 <= va < PGROUNDUP sz) then ubyte k T va else ubyte k T0 va) \/
     r = -1 /\ l ≡ₚ ps ++ l' /\ (length l' <= pages_between 0 sz)%nat /\ forall va, ubyte k' T' va = ubyte k T0 va)) (World h tr k).
Proof.
  apply (uvmcopy_wp kend Hk k T T0 l sz h tr Hp Hc Hap Hlk Hsz Hm He).
  - intros k' T' l' Hf. destruct (parent_kept kend k T T0 l Hp Hc Hap _ _ _ _ _ Hf) as (P1 & P2 & _).
    pose proof Hf as [H1 H2 (ps & H3 & H4) H5 _ _]. exists k', T', l', ps.
    split; [done|]. split; [done|]. split; [done|]. split; [done|]. split; [intros p; exact (child_apart _ _ _ _ _ Hp Hc Hap _ _ _ _ _ p Hf)|]. split; [done|].
    split; [intros va; exact (parent_ubyte _ _ _ _ _ Hp Hc Hap _ _ _ _ _ va Hf)|]. split; [done|]. left. split; [done|]. split; [exact H4|].
    split; [intros va; exact (child_flags _ _ _ _ _ _ Hsz _ _ _ va Hf)|]. intros va. exact (child_ubyte _ _ _ _ _ _ Hc Hsz Hm _ _ _ va Hf).
  - intros k' T' l' Hf Hlen. destruct (parent_kept kend k T T0 l Hp Hc Hap _ _ _ _ _ Hf) as (P1 & P2 & _).
    pose proof Hf as [H1 H2 (ps & H3 & H4) H5 _ _]. exists k', T', l', ps.
    split; [done|]. split; [done|]. split; [done|]. split; [done|]. split; [intros p; exact (child_apart _ _ _ _ _ Hp Hc Hap _ _ _ _ _ p Hf)|]. split; [done|].
    split; [intros va; exact (parent_ubyte _ _ _ _ _ Hp Hc Hap _ _ _ _ _ va Hf)|]. split; [done|]. right. split; [done|]. split; [exact H4|]. split; [done|].
    intros va. eapply (filled_old_byte kend k T0 l 0); [done|done|exact Hf|done|]. change PGSIZE with 4096 in *. lia.
Qed.

(** ** Freeing *)

Section Free.
Context (kend : Z).
Hypothesis kend_pos : 0 < kend.
Context (h : list lock) (tr : list event).
Hypothesis Hlk : LKmem ∉ h.
Abbreviation good_page := (good_page kend).
Abbreviation free_list := (free_list kend).

(** freewalk() of the table in page [p], with [d] levels, gives back the pages [ps] of the tree
    that memory [m] has there, whatever else happens to be free. *)
Definition freeable (m : mem) (d : nat) (p : Z) (ps : list Z) : Prop :=
  forall k l, free_list k l -> (forall q b, q ∈ ps -> in_page q b -> rd8 (kmem_mem k) b = rd8 m b) -> (forall q, q ∈ ps -> q ∉ l) ->
  wp (freewalk kend d p) (fun _ w => exists k' l', w = World h tr k' /\ free_list k' l' /\ l' ≡ₚ ps ++ l /\
    outside ps (kmem_mem k) (kmem_mem k')) (World h tr k).

(** What freewalk() does with entry [i] of a table. *)
Definition freewalk_turn (d : nat) (p i : Z) : M kmem unit :=
  let* pte := rd64 (p + 8 * i) in
  if has pte PTE_V && (Z.land pte (Z.lor (Z.lor PTE_R PTE_W) PTE_X) =? 0) then freewalk kend d (PTE2PA pte) ;; wr64 (p + 8 * i) 0
  else if has pte PTE_V then panic "freewalk: leaf" else ret tt.

Lemma freewalk_eq d p : freewalk kend (S d) p = (for_each (seqZ 0 512) (freewalk_turn d p) ;; kfree kend p).
Proof. reflexivity. Qed.

(** Entry [i]: the pages below it, or none. *)
Definition entry_frees (m : mem) (d : nat) (p i : Z) (ps : list Z) : Prop :=
  has (ent m p i) PTE_V = false /\ ps = [] \/
  exists q, ent m p i = Z.lor (PA2PTE q) PTE_V /\ good_page q /\ freeable m d q ps.

Lemma free_turn_wp m d p i ps k l (Q : unit -> world kmem -> Prop) :
  entry_frees m d p i ps -> 0 <= i < 512 -> good_page p -> Forall good_page ps -> free_list k l -> p ∉ l -> p ∉ ps ->
  ent (kmem_mem k) p i = ent m p i ->
  (forall q b, q ∈ ps -> in_page q b -> rd8 (kmem_mem k) b = rd8 m b) -> (forall q, q ∈ ps -> q ∉ l) ->
  (forall k' l', free_list k' l' -> l' ≡ₚ ps ++ l -> (forall b, (forall q, q ∈ ps -> ~ in_page q b) -> ~ in_page p b -> rd8 (kmem_mem k') b = rd8 (kmem_mem k) b) ->
     (forall j, 0 <= j < 512 -> j <> i -> ent (kmem_mem k') p j = ent (kmem_mem k) p j) -> Q tt (World h tr k')) ->
  wp (freewalk_turn d p i) Q (World h tr k).
Proof.
  intros He Hi Hp Hgs Hf Hpl Hpp Hent Hm Hd HQ. unfold freewalk_turn, rd64, wr64. do 2 wp_step. cbn [user].
  change (load64 (kmem_mem k) (p + 8 * i)) with (ent (kmem_mem k) p i). rewrite Hent.
  destruct He as [[Hv ->]|(q & E & Hq & Hfr)].
  - rewrite Hv. cbn [andb]. wp_step. by apply (HQ k l).
  - destruct (table_pte kend kend_pos q Hq) as (V1 & V2 & V3 & _). rewrite E, V1, V2. cbn [andb].
    replace (Z.land _ _ =? 0) with true.
    2:{ symmetry. apply Z.eqb_eq. change (Z.lor (Z.lor PTE_R PTE_W) PTE_X) with (Z.land 1023 14). rewrite Z.land_assoc. fold (PTE_FLAGS (Z.lor (PA2PTE q) PTE_V)). by rewrite V3. }
    wp_step. eapply wp_mono; [by apply (Hfr k l)|]. intros [] w (k1 & l1 & -> & Hf1 & HP & Ho). wp_step.
    pose proof (store_outside (kmem_mem k1) p i 0 Hi) as Ho2.
    assert (p ∉ l1) as Hp1 by (rewrite HP, elem_of_app; tauto).
    apply (HQ _ l1); [| done | |]; unfold set_mem; cbn [kmem_mem].
    + eapply (free_list_outside kend); [exact Hf1|exact Ho2|constructor; [done|constructor]| |apply mem_bytes_store64, Hf1].
      by intros p' ->%list_elem_of_singleton.
    + intros b Hb1 Hb2. rewrite Ho2; [by apply Ho|]. by intros p' ->%list_elem_of_singleton.
    + intros j Hj Hne. rewrite ent_store, decide_False by (done || lia). by apply (ent_outside kend ps).
Qed.

Lemma turns_wp m d p (under : Z -> list Z) js k l (Q : unit -> world kmem -> Prop) :
  (forall i, i ∈ js -> 0 <= i < 512 /\ entry_frees m d p i (under i)) -> NoDup js ->
  NoDup (p :: (js ≫= under)) -> Forall good_page (p :: (js ≫= under)) -> free_list k l -> (forall q, q ∈ p :: (js ≫= under) -> q ∉ l) ->
  (forall i, i ∈ js -> ent (kmem_mem k) p i = ent m p i) ->
  (forall q b, q ∈ js ≫= under -> in_page q b -> rd8 (kmem_mem k) b = rd8 m b) ->
  (forall k' l', free_list k' l' -> l' ≡ₚ (js ≫= under) ++ l -> outside (p :: (js ≫= under)) (kmem_mem k) (kmem_mem k') -> Q tt (World h tr k')) ->
  wp (for_each js (freewalk_turn d p)) Q (World h tr k).
Proof.
  revert k l. induction js as [|i js IH]; intros k l He Hj Hnd Hg Hf Hd Hent Hm HQ; cbn [for_each].
  { wp_step. by apply (HQ k l); [| |apply outside_refl]. }
  destruct (He i ltac:(by left)) as [Hi Hei]. apply list.NoDup_cons in Hj as [Hij Hj].
  change ((i :: js) ≫= under) with (under i ++ (js ≫= under)) in *.
  apply Forall_cons_1 in Hg as [Hgp Hg]. apply list.Forall_app in Hg as [Hg1 Hg2].
  apply list.NoDup_cons in Hnd as [Hpn Hnd]. rewrite elem_of_app in Hpn. apply list.NoDup_app in Hnd as (Hn1 & Hn12 & Hn2).
  wp_step. apply (free_turn_wp m d p i (under i) k l); try done; [apply Hd; by left|tauto|apply Hent; by left| | |].
  { intros q b Hq. apply Hm, elem_of_app. by left. }
  { intros q Hq. apply Hd. right. apply elem_of_app. by left. }
  intros k1 l1 Hf1 HP1 Ho1 He1.
  assert (forall q b, q ∈ js ≫= under -> in_page q b -> rd8 (kmem_mem k1) b = rd8 (kmem_mem k) b) as Hkeep.
  { rewrite list.Forall_forall in Hg1, Hg2. intros q b Hq Hb. apply Ho1.
    - intros q' Hq' Hb'. apply (Hn12 q'); [done|]. by rewrite (good_page_disjoint kend q' q b) by auto.
    - intros Hb'. apply Hpn. right. by rewrite (good_page_disjoint kend p q b) by auto. }
  apply (IH k1 l1); try done.
  - intros i' Hi'. apply He. by right.
  - apply list.NoDup_cons. tauto.
  - by constructor.
  - intros q Hq. rewrite HP1, elem_of_app. apply elem_of_cons in Hq as [->|Hq].
    + intros [?|Hin]; [tauto|]. by apply (Hd p); [left|].
    + intros [Hin|Hin]; [by apply (Hn12 q)|]. apply (Hd q); [|done]. right. apply elem_of_app. by right.
  - intros i' Hi'. rewrite He1; [apply Hent; by right|apply He; by right|]. by intros ->.
  - intros q b Hq Hb. rewrite (Hkeep q) by done. apply (Hm q); [|done]. apply elem_of_app. by right.
  - intros k' l' Hf' HP' Ho'. apply (HQ k' l'); [done| |].
    + rewrite HP', HP1, !app_assoc. apply Permutation_app; [apply Permutation_app_comm|done].
    + intros b Hb. rewrite Ho'.
      * apply Ho1; [intros q Hq; apply Hb; right; apply elem_of_app; by left|apply Hb; by left].
      * intros q Hq. apply Hb. apply elem_of_cons in Hq as [->|Hq]; [by left|]. right. apply elem_of_app. by right.
Qed.

(** A table whose entries' trees can be freed. *)
Lemma freeable_node m d p (under : Z -> list Z) :
  (forall i, 0 <= i < 512 -> entry_frees m d p i (under i)) ->
  NoDup (p :: (seqZ 0 512 ≫= under)) -> Forall good_page (p :: (seqZ 0 512 ≫= under)) ->
  freeable m (S d) p (p :: (seqZ 0 512 ≫= under)).
Proof.
  intros He Hnd Hg k l Hf Hm Hd. rewrite freewalk_eq. set (ps := seqZ 0 512 ≫= under) in *. pose proof Hg as [Hgp _]%Forall_cons_1.
  wp_step. apply (turns_wp m d p under (seqZ 0 512) k l); try done.
  - intros i Hi%elem_of_seqZ. split; [lia|]. apply He. lia.
  - apply NoDup_seqZ.
  - intros i Hi%elem_of_seqZ. apply ent_ext; [lia|]. intros b. apply Hm. by left.
  - intros q b Hq. apply Hm. by right.
  - fold ps. intros k1 l1 Hf1 HP1 Ho1. apply list.NoDup_cons in Hnd as [Hpn Hnd].
    assert (p ∉ l1) as Hpl. { rewrite HP1, elem_of_app. intros [?|Hin]; [done|]. by apply (Hd p); [left|]. }
    apply (kfree_wp kend kend_pos p l1); cbn [user held trace]; try done. intros k2 Hf2 Hse. exists k2, (p :: l1).
    split; [done|]. split; [done|]. split; [by rewrite HP1|]. eapply outside_trans; [exact Ho1|].
    eapply outside_mono; [|by apply outside_one]. intros q ->%list_elem_of_singleton. by left.
Qed.

(** The pages of the tree in the order freewalk() meets them. *)
Definition low_under (T : ptab) (i j : Z) : list Z := from_option (fun q => [q]) [] (pt_low T !! (i, j)).
Definition mid_under (T : ptab) (i : Z) : list Z :=
  from_option (fun p => p :: (seqZ 0 512 ≫= low_under T i)) [] (pt_mid T !! i).
Definition tree_pages (T : ptab) : list Z := pt_root T :: (seqZ 0 512 ≫= mid_under T).

Lemma elem_of_low_under T i x : x ∈ seqZ 0 512 ≫= low_under T i -> exists j, pt_low T !! (i, j) = Some x.
Proof.
  intros (j & Hx & _)%list_elem_of_bind. unfold low_under in Hx. destruct (pt_low T !! (i, j)) as [q|] eqn:E; cbn in Hx.
  - apply list_elem_of_singleton in Hx as ->. by exists j.
  - by apply not_elem_of_nil in Hx.
Qed.

Lemma elem_of_mid_under T i x : x ∈ mid_under T i -> pt_mid T !! i = Some x \/ exists j, pt_low T !! (i, j) = Some x.
Proof.
  unfold mid_under. destruct (pt_mid T !! i) as [p|] eqn:E; cbn; [|by intros ?%not_elem_of_nil].
  intros [->|Hx]%elem_of_cons; [by left|]. right. by apply elem_of_low_under.
Qed.

Lemma NoDup_low_under T i : NoDup (pt_pages T) -> NoDup (seqZ 0 512 ≫= low_under T i).
Proof.
  intros Hnd. apply NoDup_bind; [|intros j _; unfold low_under; destruct (pt_low T !! (i, j)); cbn; [apply NoDup_singleton|constructor]|apply NoDup_seqZ].
  intros j1 j2 y _ _. unfold low_under. destruct (pt_low T !! (i, j1)) as [q1|] eqn:E1; cbn; [|by intros ?%not_elem_of_nil].
  destruct (pt_low T !! (i, j2)) as [q2|] eqn:E2; cbn; [|by intros _ ?%not_elem_of_nil].
  intros ->%list_elem_of_singleton ->%list_elem_of_singleton. by pose proof (low_inj _ _ _ _ Hnd E1 E2) as [= ->].
Qed.

Lemma NoDup_mid_under T i : NoDup (pt_pages T) -> NoDup (mid_under T i).
Proof.
  intros Hnd. unfold mid_under. destruct (pt_mid T !! i) as [p|] eqn:E; cbn; [|constructor].
  apply list.NoDup_cons. split; [|by apply NoDup_low_under]. intros [j Hj]%elem_of_low_under. by eapply low_not_mid.
Qed.

Lemma root_not_mid T i p : NoDup (pt_pages T) -> pt_mid T !! i = Some p -> p <> pt_root T.
Proof.
  intros Hnd Hp ->. apply list.NoDup_cons in Hnd as [Hni _]. apply Hni, elem_of_app. left.
  apply list_elem_of_fmap. exists (i, pt_root T). split; [done|]. by apply elem_of_map_to_list.
Qed.

Lemma NoDup_tree_pages T : NoDup (pt_pages T) -> NoDup (tree_pages T).
Proof.
  intros Hnd. apply list.NoDup_cons. split.
  - intros (i & Hx & _)%list_elem_of_bind. apply elem_of_mid_under in Hx as [Hx|[j Hx]]; [by eapply root_not_mid|by eapply low_not_root].
  - apply NoDup_bind; [|intros i _; by apply NoDup_mid_under|apply NoDup_seqZ].
    intros i1 i2 y _ _ [H1|[j1 H1]]%elem_of_mid_under [H2|[j2 H2]]%elem_of_mid_under.
    + by eapply mid_value_inj.
    + exfalso. by eapply low_not_mid.
    + exfalso. by eapply low_not_mid.
    + by pose proof (low_inj _ _ _ _ Hnd H1 H2) as [= -> _].
Qed.

Lemma elem_of_pages T x :
  x ∈ pt_pages T <-> x = pt_root T \/ (exists i, pt_mid T !! i = Some x) \/ exists i j, pt_low T !! (i, j) = Some x.
Proof.
  unfold pt_pages. rewrite elem_of_cons, elem_of_app, !list_elem_of_fmap. split.
  - intros [|[([i y] & -> & H%elem_of_map_to_list)|([[i j] y] & -> & H%elem_of_map_to_list)]]; cbn in *; [by left|right; left; by exists i|right; right; by exists i, j].
  - intros [|[[i H]|(i & j & H)]]; [by left| |]; apply elem_of_map_to_list in H; right; [left; by exists (i, x)|right; by exists (i, j, x)].
Qed.

Lemma tree_pages_perm m T : pt_wf kend m T -> tree_pages T ≡ₚ pt_pages T.
Proof.
  intros Hw. apply list.NoDup_Permutation; [apply NoDup_tree_pages, Hw|apply Hw|]. intros x. rewrite elem_of_pages. unfold tree_pages.
  rewrite elem_of_cons, list_elem_of_bind. split.
  - intros [|(i & Hx & _)]; [by left|]. apply elem_of_mid_under in Hx as [|[j ?]]; eauto.
  - intros [|[[i H]|(i & j & H)]]; [by left| |]; right; exists i.
    + destruct (pw_mid _ _ _ Hw _ _ H) as [Hi _]. split; [|apply elem_of_seqZ; lia]. unfold mid_under. rewrite H. by left.
    + destruct (pw_low _ _ _ Hw _ _ _ H) as [[p Hp] Hj]. destruct (pw_mid _ _ _ Hw _ _ Hp) as [Hi _].
      split; [|apply elem_of_seqZ; lia]. unfold mid_under. rewrite Hp. right. apply list_elem_of_bind. exists j.
      split; [|apply elem_of_seqZ; lia]. unfold low_under. rewrite H. by left.
Qed.

Lemma bind_none {A B} (l : list A) : (l ≫= fun _ => []) = [] :> list B.
Proof. induction l as [|x l IH]; [done|]. exact IH. Qed.

(** A tree without leaves. *)
Definition no_leaves (m : mem) (T : ptab) : Prop :=
  forall i j q, pt_low T !! (i, j) = Some q -> forall c, 0 <= c < 512 -> has (ent m q c) PTE_V = false.

Section Tree.
Context (m : mem) (T : ptab).
Hypothesis Hw : pt_wf kend m T.
Hypothesis Hno : no_leaves m T.

Lemma freeable_low i j q : pt_low T !! (i, j) = Some q -> freeable m 1 q [q].
Proof.
  intros Hq. pose proof (freeable_node m 0 q (fun _ => [])) as Hn. rewrite bind_none in Hn. apply Hn.
  - intros c Hc. left. split; [by eapply Hno|done].
  - apply NoDup_singleton.
  - constructor; [|constructor]. by eapply pw_page, elem_low.
Qed.

Lemma freeable_mid i p : pt_mid T !! i = Some p -> freeable m 2 p (mid_under T i).
Proof.
  intros Hp. pose proof (NoDup_mid_under T i (pw_nodup _ _ _ Hw)) as Hnd. unfold mid_under in *. rewrite Hp in *. cbn in *.
  apply freeable_node; [|done|].
  - intros j Hj. destruct (pw_mid _ _ _ Hw _ _ Hp) as [_ He]. specialize (He j Hj). unfold low_under.
    destruct (pt_low T !! (i, j)) as [q|] eqn:E; cbn in *; [|by left]. right. exists q. split; [done|].
    split; [by eapply pw_page, elem_low|by eapply freeable_low].
  - apply list.Forall_forall. intros x [->|[j Hj]%elem_of_low_under]%elem_of_cons; [by eapply pw_page, elem_mid|by eapply pw_page, elem_low].
Qed.

Lemma freeable_tree : freeable m 3 (pt_root T) (tree_pages T).
Proof.
  apply freeable_node.
  - intros i Hi. pose proof (pw_root _ _ _ Hw i Hi) as He. destruct (pt_mid T !! i) as [p|] eqn:E; cbn in He.
    + right. exists p. split; [done|]. split; [by eapply pw_page, elem_mid|by apply freeable_mid].
    + left. split; [done|]. unfold mid_under. by rewrite E.
  - apply NoDup_tree_pages, Hw.
  - change (Forall good_page (tree_pages T)). rewrite (tree_pages_perm m T Hw). apply Hw.
Qed.
End Tree.

(** The address of a leaf. *)
Lemma leaf_addr i j c : 0 <= i < 256 -> 0 <= j < 512 -> 0 <= c < 512 ->
  let va := i * 2 ^ 30 + j * 2 ^ 21 + c * 2 ^ 12 in aligned va /\ 0 <= va < MAXVA /\ PX 2 va = i /\ PX 1 va = j /\ PX 0 va = c.
Proof.
  intros Hi Hj Hc va. unfold aligned. rewrite !PX_eq by lia. unfold va, PXSHIFT, PGSHIFT. change MAXVA with 274877906944. change PGSIZE with 4096.
  change (2 ^ (12 + 9 * 2)) with 1073741824. change (2 ^ (12 + 9 * 1)) with 2097152. change (2 ^ (12 + 9 * 0)) with 4096.
  change (2 ^ 30) with 1073741824. change (2 ^ 21) with 2097152. change (2 ^ 12) with 4096.
  split; [|split; [lia|split; [|split]]]; Z.div_mod_to_equations; lia.
Qed.

Lemma no_leaves_from m T :
  pt_wf kend m T -> (forall i p, pt_mid T !! i = Some p -> i < 256) ->
  (forall va, aligned va -> 0 <= va < MAXVA -> has (pte_of m T va) PTE_V = false) -> no_leaves m T.
Proof.
  intros Hw Hlow Hv i j q Hq c Hc. destruct (pw_low _ _ _ Hw _ _ _ Hq) as [[p Hp] Hj]. destruct (pw_mid _ _ _ Hw _ _ Hp) as [Hi _].
  pose proof (Hlow i p Hp). destruct (leaf_addr i j c ltac:(lia) Hj Hc) as (A1 & A2 & A3 & A4 & A5).
  specialize (Hv _ A1 A2). unfold pte_of in Hv. rewrite A3, A4, A5, Hq in Hv. done.
Qed.
End Free.

Lemma run_below kend k T l sz :
  us_ok kend k T l -> 0 <= sz <= TRAPFRAME ->
  (forall va, aligned va -> 0 <= va < sz -> has (pte_of (kmem_mem k) T va) PTE_V = true) -> run_of k T 0 (pages_between 0 sz).
Proof.
  intros Hu Hsz Hm. destruct (pages_between_spec 0 sz ltac:(lia) ltac:(lia)) as [E Hlt]. change (PGROUNDUP 0) with 0 in *.
  destruct (PGROUNDUP_below sz Hsz) as (_ & _ & Hmax). split; [done|]. split; [lia|]. split; [lia|]. intros i Hi.
  apply Hm; [by apply (aligned_add 0)|]. destruct (Hlt (Z.to_nat i)) as [_ H]. rewrite Z2Nat.id in H by lia.
  split; [change PGSIZE with 4096; lia|]. apply H. lia.
Qed.

(** C23. uvmfree() gives back every page of a process. For a process with [sz] bytes of memory
    and nothing mapped above (proc_freepagetable() has removed the trampoline and the
    trap frame), it terminates without a panic, and the free pages afterwards are
    those from before, the pages of its memory and the pages of its page table,
    each once; no other memory changes. *)
Theorem uvmfree_correct (kend : Z) k T l sz h tr
  (Hk : 0 < kend) (Hu : us_ok kend k T l) (Hlk : LKmem ∉ h) (Hsz : 0 <= sz <= TRAPFRAME)
  (Hm : forall va, aligned va -> 0 <= va < sz -> has (pte_of (kmem_mem k) T va) PTE_V = true)
  (He : forall va, aligned va -> sz <= va < MAXVA -> has (pte_of (kmem_mem k) T va) PTE_V = false)
  (Hlow : forall i p, pt_mid T !! i = Some p -> i < 256) :
  wp (uvmfree kend (pt_root T) sz) (fun _ w => exists k' l', w = World h tr k' /\ free_list kend k' l' /\
    l' ≡ₚ pt_pages T ++ upages k T 0 (pages_between 0 sz) ++ l /\
    outside (pt_pages T ++ upages k T 0 (pages_between 0 sz)) (kmem_mem k) (kmem_mem k')) (World h tr k).
Proof.
  pose proof (run_below _ _ _ _ _ Hu Hsz Hm) as Hrun. destruct (pages_between_spec 0 sz ltac:(lia) ltac:(lia)) as [E _].
  change (PGROUNDUP 0) with 0 in E. destruct (PGROUNDUP_below sz Hsz) as (_ & Hup & _). set (n := pages_between 0 sz) in *.
  assert (forall k1, us_ok kend k1 T (reverse (upages k T 0 n) ++ l) ->
    (forall va, aligned va -> 0 <= va < MAXVA -> pte_of (kmem_mem k1) T va = if decide (0 <= va < 0 + Z.of_nat n * PGSIZE) then 0 else pte_of (kmem_mem k) T va) ->
    outside (upages k T 0 n ++ pt_pages T) (kmem_mem k) (kmem_mem k1) ->
    wp (freewalk kend 3 (pt_root T)) (fun _ w => exists k' l', w = World h tr k' /\ free_list kend k' l' /\
      l' ≡ₚ pt_pages T ++ upages k T 0 n ++ l /\ outside (pt_pages T ++ upages k T 0 n) (kmem_mem k) (kmem_mem k')) (World h tr k1)) as Hwalk.
  { intros k1 Hu1 Hp1 Ho1. destruct (us_vm _ _ _ _ Hu1) as [Hw1 Hf1 Hnd1].
    assert (no_leaves (kmem_mem k1) T) as Hno.
    { apply (no_leaves_from kend); [done|done|]. intros va Ha Hva. rewrite Hp1 by done. case_decide; [done|]. apply He; [done|lia]. }
    pose proof (tree_pages_perm kend _ _ Hw1) as HP.
    eapply wp_mono; [apply (freeable_tree kend Hk h tr Hlk (kmem_mem k1) T Hw1 Hno k1 _ Hf1); [done|]|].
    - intros q Hq Hin. rewrite HP in Hq. apply list.NoDup_app in Hnd1 as (_ & Hd & _). by apply (Hd q).
    - intros _ w (k2 & l2 & -> & Hf2 & HP2 & Ho2). exists k2, l2. split; [done|]. split; [done|].
      split; [by rewrite HP2, HP, reverse_Permutation|].
      eapply outside_trans; (eapply outside_mono; [|eassumption]); intros q; rewrite ?HP, !elem_of_app; tauto. }
  unfold uvmfree. rewrite Z.gtb_ltb. destruct (Z.ltb_spec 0 sz) as [Hpos|Hz].
  - wp_step. replace (PGROUNDUP sz / PGSIZE) with (Z.of_nat n) by (rewrite <- E, Z.add_0_l, Z.div_mul by done; done).
    by apply (uvmunmap_wp kend Hk n k T l).
  - wp_step. wp_step. assert (n = 0%nat) as En by (assert (sz = 0) as E0 by lia; unfold n; by rewrite E0).
    apply Hwalk; rewrite En; [done| |apply outside_refl]. intros va _ _. by rewrite decide_False by lia.
Qed.

(** ** A process with one page, an empty one and five free pages *)

Definition demo_child : ptab := Ptab (demo_page 4) ∅ ∅.
Definition demo_spare : list Z := demo_page <$> [5; 6; 7; 8; 9].

(** Pages that are nobody's are put on the free list. *)
Lemma give_pages_wp kend xs k l (Ts : list ptab) h tr (Q : unit -> world kmem -> Prop) :
  0 < kend -> LKmem ∉ h -> NoDup xs -> (forall x, x ∈ xs -> good_page kend x /\ x ∉ l /\ forall T, T ∈ Ts -> ~ owns k T x) ->
  free_list kend k l -> (forall T, T ∈ Ts -> us_ok kend k T l) ->
  (forall k', (forall T, T ∈ Ts -> us_ok kend k' T (reverse xs ++ l) /\ forall va, pte_of (kmem_mem k') T va = pte_of (kmem_mem k) T va) -> Q tt (World h tr k')) ->
  wp (for_each xs (kfree kend)) Q (World h tr k).
Proof.
  intros Hk Hlk. revert k l. induction xs as [|x xs IH]; intros k l Hnd Hx Hf HT HQ; cbn [for_each].
  { wp_step. apply HQ. intros T HTs. split; [by apply HT|done]. }
  apply list.NoDup_cons in Hnd as [Hni Hnd]. destruct (Hx x ltac:(by left)) as (Hg & Hxl & Hxo).
  wp_step. apply (kfree_wp kend Hk x l); cbn [user held trace]; try done. intros k1 Hf1 Hse.
  assert (forall T, T ∈ Ts -> us_ok kend k1 T (x :: l) /\ forall va, pte_of (kmem_mem k1) T va = pte_of (kmem_mem k) T va) as H1.
  { intros T HTs. apply (us_frame kend k k1 T l (x :: l) [x]); [by apply HT|by apply outside_one|constructor; [done|constructor]| |done|].
    - intros p ->%list_elem_of_singleton Ht. apply (Hxo T HTs). by left.
    - intros p [->|Hp]%elem_of_cons; [by apply Hxo|]. intros Ho. by eapply owns_not_free; [apply HT| |]. }
  apply (IH k1 (x :: l)); [done| |done|intros T HTs; by apply H1|].
  - intros y Hy. destruct (Hx y ltac:(by right)) as (A & B & C). split; [done|]. split; [intros [->|]%elem_of_cons; done|].
    intros T HTs Ho. apply (C T HTs). destruct (H1 T HTs) as [_ Hp]. destruct Ho as [Ht|(va & B1 & B2 & B3 & B4)]; [by left|].
    right. exists va. by rewrite Hp in B3, B4.
  - intros k2 H2. apply HQ. intros T HTs. destruct (H2 T HTs) as [Hu Hp]. rewrite reverse_cons, <- app_assoc. split; [done|].
    intros va. rewrite Hp. by apply H1.
Qed.

Lemma demo_outside : outside [demo_page 0; demo_page 1; demo_page 2] ∅ demo_mem.
Proof.
  assert (forall m p j x, 0 <= j < 512 -> outside [p; x] m (hang m p j x)) as Hh.
  { intros m p j x Hj. eapply outside_trans.
    - eapply outside_mono; [|apply (outside_one x), same_except_memset]. set_solver.
    - eapply outside_mono; [|by apply (store_outside _ p)]. set_solver. }
  unfold demo_mem. eapply outside_trans; [eapply outside_mono; [|apply (Hh ∅ (demo_page 0) 0 (demo_page 1)); lia]; set_solver|].
  eapply outside_trans; [eapply outside_mono; [|apply (Hh _ (demo_page 1) 0 (demo_page 2)); lia]; set_solver|].
  eapply outside_mono; [|apply (store_outside _ (demo_page 2) (PX 0 0)); apply PX_range; lia]. set_solver.
Qed.

#[local] Opaque demo_kmem demo_mem.

Lemma demo_child_ok : us_ok KERNBASE demo_kmem demo_child [].
Proof.
  assert (forall va, pte_of (kmem_mem demo_kmem) demo_child va = 0) as Hp.
  { intros va. unfold pte_of, demo_child. cbn [pt_low]. by rewrite lookup_empty. }
  constructor.
  - constructor; [|apply (us_vm _ _ _ _ demo_us_ok)|apply NoDup_singleton]. constructor.
    + constructor; [by apply demo_page_good|constructor].
    + apply NoDup_singleton.
    + intros i Hi. cbn [pt_mid demo_child]. rewrite lookup_empty. apply table_none.
      transitivity (ent ∅ (demo_page 4) i); [|apply load64_empty]. apply (ent_outside KERNBASE [demo_page 0; demo_page 1; demo_page 2]);
      [exact demo_outside|repeat (constructor; [by apply demo_page_good|]); constructor|by apply demo_page_good|set_solver|done].
    + intros i p. cbn [pt_mid demo_child]. by rewrite lookup_empty.
    + intros i j q. cbn [pt_low demo_child]. by rewrite lookup_empty.
  - intros va _ _ Hv. by rewrite Hp in Hv.
  - intros va va' _ _ _ _ Hv. by rewrite Hp in Hv.
  - intros va _ _. by rewrite Hp.
Qed.

Lemma demo_ptes va : aligned va -> 0 <= va < MAXVA -> pte_of (kmem_mem demo_kmem) demo_tab va = if decide (va = 0) then demo_pte else 0.
Proof.
  intros Ha Hva. destruct demo_tab_wf as [_ Hp]. etransitivity; [apply Hp; lia|].
  destruct (decide (va = 0)) as [->|Hne]; [done|]. rewrite decide_False; [done|]. intros (E2 & E1 & E0). apply Hne.
  apply PX_inj; [done|done|exact Ha|done|..]; by rewrite ?E2, ?E1, ?E0.
Qed.

Lemma demo_owns p : owns demo_kmem demo_tab p -> exists i, 0 <= i < 4 /\ p = demo_page i.
Proof.
  intros [Hp|(va & Ha & Hva & Hv & <-)].
  - unfold demo_tab in Hp. rewrite add_low_pages, add_mid_pages in Hp by done.
    repeat (apply elem_of_cons in Hp as [->|Hp]; [eexists; split; [|reflexivity]; lia|]). by apply not_elem_of_nil in Hp.
  - rewrite demo_ptes in * by (done || by apply below_max). case_decide; [|done]. exists 3. split; [lia|]. by destruct demo_page_3 as (-> & _).
Qed.

Lemma demo_child_owns p : owns demo_kmem demo_child p -> p = demo_page 4.
Proof.
  intros [Hp|(va & _ & _ & Hv & _)]; [by apply list_elem_of_singleton in Hp|].
  unfold pte_of, demo_child in Hv. cbn [pt_low] in Hv. by rewrite lookup_empty in Hv.
Qed.

Lemma wp_returns {S A} (m : M S A) Q w : wp m Q w -> exists a w', m w = Ret (a, w') /\ Q a w'.
Proof. unfold wp. destruct (m w) as [[a w']| | |]; [by exists a, w'|done|done|done]. Qed.

Lemma demo_page_inj i j : demo_page i = demo_page j -> i = j.
Proof. unfold demo_page. change PGSIZE with 4096. lia. Qed.

Abbreviation demo_give := (for_each demo_spare (kfree KERNBASE) (World [] [] demo_kmem)).

Lemma demo_ready : exists k, demo_give = Ret (tt, World [] [] k) /\
  us_ok KERNBASE k demo_tab (reverse demo_spare) /\ us_ok KERNBASE k demo_child (reverse demo_spare) /\
  (forall p, owns k demo_tab p -> ~ owns k demo_child p) /\
  (forall va, pte_of (kmem_mem k) demo_tab va = pte_of (kmem_mem demo_kmem) demo_tab va) /\ forall va, pte_of (kmem_mem k) demo_child va = 0.
Proof.
  assert (wp (for_each demo_spare (kfree KERNBASE)) (fun _ w => exists k, w = World [] [] k /\
    forall T, T ∈ [demo_tab; demo_child] -> us_ok KERNBASE k T (reverse demo_spare) /\ forall va, pte_of (kmem_mem k) T va = pte_of (kmem_mem demo_kmem) T va)
    (World [] [] demo_kmem)) as Hw.
  { apply (give_pages_wp KERNBASE demo_spare demo_kmem [] [demo_tab; demo_child]); [done|apply not_elem_of_nil| | | | |].
    - apply NoDup_fmap_2; [exact demo_page_inj|]. apply (bool_decide_unpack _). by vm_compute.
    - intros x (i & -> & Hi)%list_elem_of_fmap. assert (5 <= i < 10) as Hi' by (repeat (apply elem_of_cons in Hi as [->|Hi]; [lia|]); by apply not_elem_of_nil in Hi).
      split; [apply demo_page_good; lia|]. split; [apply not_elem_of_nil|].
      intros T [-> | ->%list_elem_of_singleton]%elem_of_cons Ho.
      + apply demo_owns in Ho as (j & Hj & E%demo_page_inj). lia.
      + apply demo_child_owns in Ho as E%demo_page_inj. lia.
    - apply (us_vm _ _ _ _ demo_us_ok).
    - intros T [-> | ->%list_elem_of_singleton]%elem_of_cons; [apply demo_us_ok|apply demo_child_ok].
    - intros k' Hk'. exists k'. rewrite app_nil_r in Hk'. done. }
  apply wp_returns in Hw as ([] & w & Eg & k & -> & HT). exists k. split; [exact Eg|]. clear Eg.
  destruct (HT demo_tab ltac:(by left)) as [A1 A2]. destruct (HT demo_child ltac:(by right; left)) as [B1 B2].
  assert (forall va, pte_of (kmem_mem k) demo_child va = 0) as B3 by (intros va; unfold pte_of; cbn [pt_low demo_child]; by rewrite lookup_empty).
  split; [done|]. split; [done|]. split; [|done]. intros p Ho [Hc|(va & _ & _ & Hv & _)]; [|by rewrite B3 in Hv].
  apply list_elem_of_singleton in Hc as ->. assert (owns demo_kmem demo_tab (demo_page 4)) as Ho'.
  { destruct Ho as [|(va & C1 & C2 & C3 & C4)]; [by left|]. right. exists va. by rewrite A2 in C3, C4. }
  apply demo_owns in Ho' as (j & Hj & E%demo_page_inj). lia.
Qed.

Lemma demo_mapped va : aligned va -> 0 <= va < 4096 -> pte_of (kmem_mem demo_kmem) demo_tab va = demo_pte.
Proof.
  intros Ha Hva. assert (va = 0) as -> by (unfold aligned in Ha; change PGSIZE with 4096 in Ha; rewrite Z.mod_small in Ha by lia; done).
  by rewrite demo_ptes.
Qed.

Lemma demo_unmapped va : aligned va -> 4096 <= va < MAXVA -> pte_of (kmem_mem demo_kmem) demo_tab va = 0.
Proof. intros Ha Hva. rewrite demo_ptes by (done || lia). by rewrite decide_False by lia. Qed.

Lemma uvmalloc_correct_witness : exists k, demo_give = Ret (tt, World [] [] k) /\
  wp (uvmalloc KERNBASE (pt_root demo_tab) 4096 8192 PTE_W) (fun r w => exists k' T', w = World [] [] k' /\ pt_root T' = pt_root demo_tab /\
    (r = 8192 /\ ubyte k' T' 8191 = Some 0 \/ r = 0 /\ ubyte k' T' 8191 = ubyte k demo_tab 8191)) (World [] [] k).
Proof.
  destruct demo_ready as (k & Eg & Hu & _ & _ & Hp & _). exists k. split; [exact Eg|]. clear Eg.
  eapply wp_mono; [apply (uvmalloc_correct KERNBASE k demo_tab (reverse demo_spare) 4096 8192 PTE_W [] [])|].
  - done.
  - exact Hu.
  - apply not_elem_of_nil.
  - lia.
  - done.
  - done.
  - intros va Ha Hva. rewrite Hp, demo_unmapped; [done|done|]. change (PGROUNDUP 4096) with 4096 in Hva. change MAXVA with 274877906944. lia.
  - intros r w (k' & T' & l' & ps & -> & _ & Hr & _ & _ & [(-> & _ & Hb)|(-> & _ & _ & Hb)]); exists k', T'.
    + split; [done|]. split; [done|]. left. split; [done|]. rewrite Hb. done.
    + split; [done|]. split; [done|]. right. by rewrite Hb.
Defined.

Lemma uvmcopy_correct_witness : exists k, demo_give = Ret (tt, World [] [] k) /\
  wp (uvmcopy KERNBASE (pt_root demo_tab) (pt_root demo_child) 4096) (fun r w => exists k' T', w = World [] [] k' /\
    (r = 0 /\ ubyte k' T' 100 = ubyte k demo_tab 100 \/ r = -1 /\ ubyte k' T' 100 = ubyte k demo_child 100)) (World [] [] k).
Proof.
  destruct demo_ready as (k & Eg & Hu & Hc & Hap & Hp & H0). exists k. split; [exact Eg|]. clear Eg.
  eapply wp_mono; [apply (uvmcopy_correct KERNBASE k demo_tab demo_child (reverse demo_spare) 4096 [] [])|].
  - done.
  - exact Hu.
  - exact Hc.
  - exact Hap.
  - apply not_elem_of_nil.
  - done.
  - intros va Ha Hva. by rewrite Hp, demo_mapped.
  - intros va Ha Hva. by rewrite H0.
  - intros r w (k' & T' & l' & ps & -> & _ & _ & _ & _ & _ & _ & _ & [(-> & _ & _ & Hb)|(-> & _ & _ & Hb)]); exists k', T'; (split; [done|]).
    + left. split; [done|]. rewrite Hb. done.
    + right. by rewrite Hb.
Defined.

Lemma uvmfree_correct_witness :
  wp (uvmfree KERNBASE (pt_root demo_tab) 4096) (fun _ w => exists k' l', w = World [] [] k' /\ free_list KERNBASE k' l' /\ length l' = 4%nat)
    (World [] [] demo_kmem).
Proof.
  eapply wp_mono; [apply (uvmfree_correct KERNBASE demo_kmem demo_tab [] 4096 [] [])|].
  - done.
  - exact demo_us_ok.
  - apply not_elem_of_nil.
  - done.
  - intros va Ha Hva. by rewrite demo_mapped.
  - intros va Ha Hva. by rewrite demo_unmapped.
  - intros i p. cbn [demo_tab add_low add_mid pt_mid]. rewrite insert_empty, lookup_singleton_Some. intros [<- _]. lia.
  - intros [] w (k' & l' & -> & Hf & HP & _). exists k', l'. split; [done|]. split; [exact Hf|]. rewrite HP. done.
Defined.
