(* ===== verification/Asm.v ===== *)
(** * The assembly of the kernel (kernel/swtch.S, kernel/trampoline.S, kernel/kernelvec.S,
    kernel/entry.S)

    A RISC-V hart as the assembly files see it: its registers, the control and
    status registers they name, the privilege mode, the program counter and
    physical memory.  Each routine is the list of its instructions, in the
    order of the file; what an instruction does is in [step].  Loads and stores go
    through the page table that satp selects, the argument [xlate], except in
    machine mode; where the code lies is not modelled, only what it does, and
    sstatus and mstatus are registers of their own.

    The theorems are what the C code relies on: a user program finds all its registers
    again after a trap, a thread after it was switched out and in, and kernel code
    after an interrupt. *)

From S2P Require Import Prelude Machine Mem.

Open Scope Z_scope.

#[local] Opaque store64 load64.

Definition NCPU : Z := 8.

(** ** Registers *)

Inductive reg :=
  | ra | sp | gp | tp | t0 | t1 | t2 | t3 | t4 | t5 | t6
  | s0 | s1 | s2 | s3 | s4 | s5 | s6 | s7 | s8 | s9 | s10 | s11
  | a0 | a1 | a2 | a3 | a4 | a5 | a6 | a7.

Inductive creg :=
  | sscratch | satp | sepc | sstatus | sip | sie
  | mscratch | mhartid | mepc | mstatus | mtvec | mie | medeleg | mideleg | pmpaddr0 | pmpcfg0.

Inductive mode := User | Supervisor | Machine.

#[export] Instance reg_eq_dec : EqDecision reg.
Proof. solve_decision. Defined.
#[export] Instance creg_eq_dec : EqDecision creg.
Proof. solve_decision. Defined.
#[export] Instance mode_eq_dec : EqDecision mode.
Proof. solve_decision. Defined.

Record rv := Rv {
  rv_reg : reg -> Z;
  rv_csr : creg -> Z;
  rv_mode : mode;
  rv_pc : Z;
  rv_mem : mem
}.

Definition set_reg (r : reg) (v : Z) (c : rv) : rv :=
  Rv (fun r' => if decide (r' = r) then v else rv_reg c r') (rv_csr c) (rv_mode c) (rv_pc c) (rv_mem c).
(** Of sip only the software interrupt (bit 1) can be written. *)
Definition csr_value (x : creg) (old v : Z) : Z :=
  match x with sip => Z.lor (Z.land old (u64 (Z.lnot 2))) (Z.land v 2) | _ => v end.
Definition set_csr (x : creg) (v : Z) (c : rv) : rv :=
  Rv (rv_reg c) (fun x' => if decide (x' = x) then csr_value x (rv_csr c x) v else rv_csr c x') (rv_mode c) (rv_pc c) (rv_mem c).
Definition set_memory (m : mem) (c : rv) : rv := Rv (rv_reg c) (rv_csr c) (rv_mode c) (rv_pc c) m.
Definition set_pc (pc : Z) (c : rv) : rv := Rv (rv_reg c) (rv_csr c) (rv_mode c) pc (rv_mem c).
Definition set_mode (md : mode) (c : rv) : rv := Rv (rv_reg c) (rv_csr c) md (rv_pc c) (rv_mem c).

(** ** Instructions *)

Inductive instr :=
  | SD (rs : reg) (off : Z) (base : reg)
  | LD (rd : reg) (off : Z) (base : reg)
  | LI (rd : reg) (v : Z)
  | LA (rd : reg) (v : Z)
  | ADDI (rd rs : reg) (imm : Z)
  | ADD (rd rs1 rs2 : reg)
  | MUL (rd rs1 rs2 : reg)
  | CSRR (rd : reg) (x : creg)
  | CSRW (x : creg) (rs : reg)
  | CSRRW (rd : reg) (x : creg) (rs : reg)
  | SFENCE_VMA
  | JR (rs : reg)
  | RET
  | SRET
  | MRET.

Definition bit (x n : Z) : Z := if Z.testbit x n then 1 else 0.

(** sstatus after sret: SIE (bit 1) from SPIE (bit 5), SPIE set, SPP (bit 8) clear. *)
Definition sret_status (x : Z) : Z :=
  Z.lor (Z.land x (u64 (Z.lnot (2 + 32 + 256)))) (2 * bit x 5 + 32).
Definition sret_mode (x : Z) : mode := if Z.testbit x 8 then Supervisor else User.

(** mstatus after mret: MIE (bit 3) from MPIE (bit 7), MPIE set, MPP (bits 11, 12) clear. *)
Definition mret_status (x : Z) : Z :=
  Z.lor (Z.land x (u64 (Z.lnot (8 + 128 + 6144)))) (8 * bit x 7 + 128).
Definition mret_mode (x : Z) : mode :=
  match Z.land (Z.shiftr x 11) 3 with 0 => User | 1 => Supervisor | _ => Machine end.

Section Hart.
(** The address the hardware uses for a virtual address, given satp. *)
Variable xlate : Z -> Z -> Z.

Definition addr (c : rv) (base : reg) (off : Z) : Z :=
  let va := u64 (rv_reg c base + off) in
  if decide (rv_mode c = Machine) then va else xlate (rv_csr c satp) va.

Definition step (i : instr) (c : rv) : rv :=
  match i with
  | SD rs off base => set_memory (store64 (rv_mem c) (addr c base off) (rv_reg c rs)) c
  | LD rd off base => set_reg rd (load64 (rv_mem c) (addr c base off)) c
  | LI rd v | LA rd v => set_reg rd (u64 v) c
  | ADDI rd rs imm => set_reg rd (u64 (rv_reg c rs + imm)) c
  | ADD rd rs1 rs2 => set_reg rd (u64 (rv_reg c rs1 + rv_reg c rs2)) c
  | MUL rd rs1 rs2 => set_reg rd (u64 (rv_reg c rs1 * rv_reg c rs2)) c
  | CSRR rd x => set_reg rd (rv_csr c x) c
  | CSRW x rs => set_csr x (rv_reg c rs) c
  | CSRRW rd x rs => set_reg rd (rv_csr c x) (set_csr x (rv_reg c rs) c)
  | SFENCE_VMA => c
  | JR rs => set_pc (rv_reg c rs) c
  | RET => set_pc (rv_reg c ra) c
  | SRET => set_pc (rv_csr c sepc) (set_mode (sret_mode (rv_csr c sstatus)) (set_csr sstatus (sret_status (rv_csr c sstatus)) c))
  | MRET => set_pc (rv_csr c mepc) (set_mode (mret_mode (rv_csr c mstatus)) (set_csr mstatus (mret_status (rv_csr c mstatus)) c))
  end.

(** Straight-line code. *)
Fixpoint run (code : list instr) (c : rv) : rv :=
  match code with
  | [] => c
  | i :: code => run code (step i c)
  end.

(** ** swtch.S *)

Definition swtch : list instr := [
  SD ra 0 a0; SD sp 8 a0; SD s0 16 a0; SD s1 24 a0; SD s2 32 a0; SD s3 40 a0; SD s4 48 a0; SD s5 56 a0;
  SD s6 64 a0; SD s7 72 a0; SD s8 80 a0; SD s9 88 a0; SD s10 96 a0; SD s11 104 a0;

  LD ra 0 a1; LD sp 8 a1; LD s0 16 a1; LD s1 24 a1; LD s2 32 a1; LD s3 40 a1; LD s4 48 a1; LD s5 56 a1;
  LD s6 64 a1; LD s7 72 a1; LD s8 80 a1; LD s9 88 a1; LD s10 96 a1; LD s11 104 a1;

  RET].

(** ** trampoline.S *)

Definition uservec : list instr := [
  (* save user a0 in sscratch so a0 can be used to get at TRAPFRAME *)
  CSRW sscratch a0;
  LI a0 TRAPFRAME;

  (* save the user registers in TRAPFRAME *)
  SD ra 40 a0; SD sp 48 a0; SD gp 56 a0; SD tp 64 a0; SD t0 72 a0; SD t1 80 a0; SD t2 88 a0;
  SD s0 96 a0; SD s1 104 a0;
  SD a1 120 a0; SD a2 128 a0; SD a3 136 a0; SD a4 144 a0; SD a5 152 a0; SD a6 160 a0; SD a7 168 a0;
  SD s2 176 a0; SD s3 184 a0; SD s4 192 a0; SD s5 200 a0; SD s6 208 a0; SD s7 216 a0; SD s8 224 a0;
  SD s9 232 a0; SD s10 240 a0; SD s11 248 a0;
  SD t3 256 a0; SD t4 264 a0; SD t5 272 a0; SD t6 280 a0;

  (* save the user a0 in p->trapframe->a0 *)
  CSRR t0 sscratch;
  SD t0 112 a0;

  (* kernel_sp, kernel_hartid, kernel_trap, kernel_satp *)
  LD sp 8 a0;
  LD tp 32 a0;
  LD t0 16 a0;
  LD t1 0 a0;

  (* install the kernel page table *)
  SFENCE_VMA;
  CSRW satp t1;
  SFENCE_VMA;

  (* jump to usertrap() *)
  JR t0].

Definition userret : list instr := [
  (* switch to the user page table *)
  SFENCE_VMA;
  CSRW satp a0;
  SFENCE_VMA;

  LI a0 TRAPFRAME;

  (* restore all but a0 from TRAPFRAME *)
  LD ra 40 a0; LD sp 48 a0; LD gp 56 a0; LD tp 64 a0; LD t0 72 a0; LD t1 80 a0; LD t2 88 a0;
  LD s0 96 a0; LD s1 104 a0;
  LD a1 120 a0; LD a2 128 a0; LD a3 136 a0; LD a4 144 a0; LD a5 152 a0; LD a6 160 a0; LD a7 168 a0;
  LD s2 176 a0; LD s3 184 a0; LD s4 192 a0; LD s5 200 a0; LD s6 208 a0; LD s7 216 a0; LD s8 224 a0;
  LD s9 232 a0; LD s10 240 a0; LD s11 248 a0;
  LD t3 256 a0; LD t4 264 a0; LD t5 272 a0; LD t6 280 a0;

  (* restore user a0 *)
  LD a0 112 a0;

  (* return to user mode and user pc *)
  SRET].

(** ** kernelvec.S *)

(** Up to the call of kerneltrap(). *)
Definition kernelvec_save : list instr := [
  (* make room to save registers *)
  ADDI sp sp (-256);

  (* save the registers *)
  SD ra 0 sp; SD sp 8 sp; SD gp 16 sp; SD tp 24 sp; SD t0 32 sp; SD t1 40 sp; SD t2 48 sp;
  SD s0 56 sp; SD s1 64 sp;
  SD a0 72 sp; SD a1 80 sp; SD a2 88 sp; SD a3 96 sp; SD a4 104 sp; SD a5 112 sp; SD a6 120 sp; SD a7 128 sp;
  SD s2 136 sp; SD s3 144 sp; SD s4 152 sp; SD s5 160 sp; SD s6 168 sp; SD s7 176 sp; SD s8 184 sp;
  SD s9 192 sp; SD s10 200 sp; SD s11 208 sp;
  SD t3 216 sp; SD t4 224 sp; SD t5 232 sp; SD t6 240 sp].

(** After kerneltrap() has returned. *)
Definition kernelvec_restore : list instr := [
  LD ra 0 sp; LD sp 8 sp; LD gp 16 sp;
  (* not tp (contains hartid), in case we moved CPUs *)
  LD t0 32 sp; LD t1 40 sp; LD t2 48 sp;
  LD s0 56 sp; LD s1 64 sp;
  LD a0 72 sp; LD a1 80 sp; LD a2 88 sp; LD a3 96 sp; LD a4 104 sp; LD a5 112 sp; LD a6 120 sp; LD a7 128 sp;
  LD s2 136 sp; LD s3 144 sp; LD s4 152 sp; LD s5 160 sp; LD s6 168 sp; LD s7 176 sp; LD s8 184 sp;
  LD s9 192 sp; LD s10 200 sp; LD s11 208 sp;
  LD t3 216 sp; LD t4 224 sp; LD t5 232 sp; LD t6 240 sp;

  ADDI sp sp 256;

  (* return to whatever we were doing in the kernel *)
  SRET].

(** The machine-mode timer interrupt. *)
Definition timervec : list instr := [
  CSRRW a0 mscratch a0;
  SD a1 0 a0;
  SD a2 8 a0;
  SD a3 16 a0;

  (* schedule the next timer interrupt by adding interval to mtimecmp *)
  LD a1 24 a0;
  LD a2 32 a0;
  LD a3 0 a1;
  ADD a3 a3 a2;
  SD a3 0 a1;

  (* arrange for a supervisor software interrupt after this handler returns *)
  LI a1 2;
  CSRW sip a1;

  LD a3 16 a0;
  LD a2 8 a0;
  LD a1 0 a0;
  CSRRW a0 mscratch a0;

  MRET].

(** ** entry.S *)

(** Up to the call of start(); [stack0] is set by the linker. *)
Definition entry (stack0 : Z) : list instr := [
  LA sp stack0;
  LI a0 (1024 * 4);
  CSRR a1 mhartid;
  ADDI a1 a1 1;
  MUL a0 a0 a1;
  ADD sp sp a0].

(** ** Saving and restoring *)

Definition saves (base : reg) (l : list (reg * Z)) : list instr := (fun x => SD x.1 x.2 base) <$> l.
Definition loads (base : reg) (l : list (reg * Z)) : list instr := (fun x => LD x.1 x.2 base) <$> l.

Lemma run_app l1 l2 c : run (l1 ++ l2) c = run l2 (run l1 c).
Proof. revert c. induction l1 as [|i l1 IH]; intros c; [done|]. apply IH. Qed.

(** [n] bytes from what [base] points to lie at physical address [p]. *)
Definition points (c : rv) (base : reg) (p n : Z) : Prop := forall off, 0 <= off -> off + 8 <= n -> addr c base off = p + off.

Definition inside (n : Z) (l : list (reg * Z)) : Prop := Forall (fun x => 0 <= x.2 /\ x.2 + 8 <= n) l.

(** Slots do not overlap. *)
Definition slots_apart (l : list (reg * Z)) : Prop :=
  Forall (fun x => Forall (fun y => x = y \/ x.2 + 8 <= y.2 \/ y.2 + 8 <= x.2) l) l.

#[export] Instance inside_dec n l : Decision (inside n l).
Proof. unfold inside. apply _. Defined.
#[export] Instance slots_apart_dec l : Decision (slots_apart l).
Proof. unfold slots_apart. apply _. Defined.

Fixpoint save_all (p : Z) (l : list (reg * Z)) (R : reg -> Z) (m : mem) : mem :=
  match l with
  | [] => m
  | (r, off) :: l => save_all p l R (store64 m (p + off) (R r))
  end.

Lemma run_saves base l c p n :
  points c base p n -> inside n l -> run (saves base l) c = set_memory (save_all p l (rv_reg c) (rv_mem c)) c.
Proof.
  revert c. induction l as [|[r off] l IH]; intros c Hp Hl; [by destruct c|]. apply Forall_cons_1 in Hl as [[H1 H2] Hl].
  change (run (saves base ((r, off) :: l)) c) with (run (saves base l) (step (SD r off base) c)).
  rewrite IH; [|exact Hp|done]. cbn [step save_all]. by rewrite (Hp off H1 H2).
Qed.

Lemma save_all_out p l R m n b : inside n l -> ~ (p <= b < p + n) -> rd8 (save_all p l R m) b = rd8 m b.
Proof.
  revert m. induction l as [|[r off] l IH]; intros m Hl Hb; [done|]. apply Forall_cons_1 in Hl as [[H1 H2] Hl]. cbn in H1, H2.
  cbn [save_all]. rewrite IH by done. apply rd8_store64_out. lia.
Qed.

Lemma save_all_other p l R m a :
  Forall (fun x => p + x.2 + 8 <= a \/ a + 8 <= p + x.2) l -> load64 (save_all p l R m) a = load64 m a.
Proof.
  revert m. induction l as [|[r off] l IH]; intros m Hl; [done|]. apply Forall_cons_1 in Hl as [H1 Hl]. cbn [save_all].
  rewrite IH by done. apply load64_store64_disj. cbn in H1. lia.
Qed.

Lemma save_all_load p l R m r off :
  slots_apart l -> NoDup l -> (r, off) ∈ l -> 0 <= R r < 2 ^ 64 -> load64 (save_all p l R m) (p + off) = R r.
Proof.
  intros Ha Hnd Hin HR. revert m. assert (forall y, y ∈ l -> (r, off) = y \/ off + 8 <= y.2 \/ y.2 + 8 <= off) as Hd.
  { unfold slots_apart in Ha. rewrite list.Forall_forall in Ha. specialize (Ha _ Hin). by rewrite list.Forall_forall in Ha. }
  clear Ha. induction l as [|[r' off'] l IH]; intros m; [by apply not_elem_of_nil in Hin|]. apply list.NoDup_cons in Hnd as [Hni Hnd].
  cbn [save_all]. apply elem_of_cons in Hin as [E|Hin].
  - injection E as <- <-. rewrite save_all_other; [by apply load64_store64_same|]. apply list.Forall_forall. intros y Hy.
    destruct (Hd y ltac:(by right)) as [<-|?]; [done|lia].
  - apply IH; [done|done|]. intros y Hy. apply Hd. by right.
Qed.

Lemma run_loads base l c p n :
  points c base p n -> inside n l -> base ∉ l.*1 -> NoDup l.*1 ->
  let c' := run (loads base l) c in
  (forall r off, (r, off) ∈ l -> rv_reg c' r = load64 (rv_mem c) (p + off)) /\ (forall r, r ∉ l.*1 -> rv_reg c' r = rv_reg c r) /\
  rv_csr c' = rv_csr c /\ rv_mode c' = rv_mode c /\ rv_pc c' = rv_pc c /\ rv_mem c' = rv_mem c.
Proof.
  revert c. induction l as [|[r off] l IH]; intros c Hp Hl Hb Hnd; [cbn; split; [by intros r off ?%not_elem_of_nil|done]|].
  apply Forall_cons_1 in Hl as [[H1 H2] Hl]. cbn in Hb, Hnd. apply not_elem_of_cons in Hb as [Hbr Hb]. apply list.NoDup_cons in Hnd as [Hr Hnd].
  change (run (loads base ((r, off) :: l)) c) with (run (loads base l) (step (LD r off base) c)).
  assert (points (step (LD r off base) c) base p n) as Hp'.
  { intros o Ho1 Ho2. rewrite <- (Hp o Ho1 Ho2). unfold addr. cbn [step set_reg rv_reg rv_mode rv_csr]. by destruct (decide (base = r)). }
  destruct (IH (step (LD r off base) c) Hp' Hl Hb Hnd) as (I1 & I2 & I3 & I4 & I5 & I6). cbv zeta. split; [|split].
  - intros r' off' [E|Hin]%elem_of_cons.
    + injection E as -> ->. rewrite I2 by done. cbn [step set_reg rv_reg]. rewrite decide_True by done. by rewrite (Hp off H1 H2).
    + by apply I1.
  - intros r' Hr'. cbn in Hr'. apply not_elem_of_cons in Hr' as [Hne Hr']. rewrite I2 by done. cbn [step set_reg rv_reg]. by rewrite decide_False.
  - rewrite I3, I4, I5, I6. done.
Qed.

Lemma save_all_ext p l R R' m : Forall (fun x => R x.1 = R' x.1) l -> save_all p l R m = save_all p l R' m.
Proof.
  revert m. induction l as [|[r off] l IH]; intros m Hl; [done|]. apply Forall_cons_1 in Hl as [E Hl]. cbn [save_all]. cbn in E. by rewrite E, IH.
Qed.

Lemma save_all_snoc p l R m r off : save_all p (l ++ [(r, off)]) R m = store64 (save_all p l R m) (p + off) (R r).
Proof. revert m. induction l as [|[r' off'] l IH]; intros m; [done|]. cbn [save_all app]. apply IH. Qed.

Definition regs_ok (c : rv) : Prop := forall r, 0 <= rv_reg c r < 2 ^ 64.

(** ** Traps from user space *)

(** The offsets of struct trapframe. *)
Definition tf_off (r : reg) : Z :=
  match r with
  | ra => 40 | sp => 48 | gp => 56 | tp => 64 | t0 => 72 | t1 => 80 | t2 => 88 | s0 => 96 | s1 => 104
  | a0 => 112 | a1 => 120 | a2 => 128 | a3 => 136 | a4 => 144 | a5 => 152 | a6 => 160 | a7 => 168
  | s2 => 176 | s3 => 184 | s4 => 192 | s5 => 200 | s6 => 208 | s7 => 216 | s8 => 224 | s9 => 232 | s10 => 240 | s11 => 248
  | t3 => 256 | t4 => 264 | t5 => 272 | t6 => 280
  end.

(** All registers but a0, in the order of trampoline.S. *)
Definition tf_regs : list reg :=
  [ra; sp; gp; tp; t0; t1; t2; s0; s1; a1; a2; a3; a4; a5; a6; a7; s2; s3; s4; s5; s6; s7; s8; s9; s10; s11; t3; t4; t5; t6].
Definition tf_slots : list (reg * Z) := (fun r => (r, tf_off r)) <$> tf_regs.

Lemma tf_slots_ok : inside 288 tf_slots /\ slots_apart (tf_slots ++ [(a0, 112)]) /\ NoDup (tf_slots ++ [(a0, 112)]) /\ a0 ∉ tf_slots.*1 /\ NoDup tf_slots.*1.
Proof. apply (bool_decide_unpack _). vm_compute. exact I. Qed.

Lemma tf_slot r : (r, tf_off r) ∈ tf_slots ++ [(a0, 112)].
Proof. apply (bool_decide_unpack _). destruct r; vm_compute; exact I. Qed.

(** Physical address [tf] is where a page table has the trap frame. *)
Definition tf_mapped (pt tf : Z) : Prop := forall off, 0 <= off < PGSIZE -> xlate pt (TRAPFRAME + off) = tf + off.

Lemma points_tf c pt tf :
  rv_mode c <> Machine -> rv_csr c satp = pt -> rv_reg c a0 = TRAPFRAME -> tf_mapped pt tf -> points c a0 tf 288.
Proof.
  intros Hm Hs Ha Ht off H1 H2. unfold addr. rewrite Ha, decide_False, Hs by done.
  rewrite u64_small by (change TRAPFRAME with 274877898752; lia). apply Ht. change PGSIZE with 4096. lia.
Qed.

Lemma uservec_eq : uservec = [CSRW sscratch a0; LI a0 TRAPFRAME] ++ saves a0 tf_slots ++ [CSRR t0 sscratch; SD t0 112 a0] ++
  loads a0 [(sp, 8); (tp, 32); (t0, 16); (t1, 0)] ++ [SFENCE_VMA; CSRW satp t1; SFENCE_VMA; JR t0].
Proof. reflexivity. Qed.

Lemma userret_eq : userret = [SFENCE_VMA; CSRW satp a0; SFENCE_VMA; LI a0 TRAPFRAME] ++ loads a0 tf_slots ++ [LD a0 112 a0; SRET].
Proof. reflexivity. Qed.

Lemma enter_spec c :
  let c' := run [SFENCE_VMA; CSRW satp t1; SFENCE_VMA; JR t0] c in
  rv_mem c' = rv_mem c /\ (forall r, rv_reg c' r = rv_reg c r) /\ rv_csr c' satp = rv_reg c t1 /\ rv_pc c' = rv_reg c t0 /\ rv_mode c' = rv_mode c.
Proof. done. Qed.

(** uservec saves every register in the trap frame and enters the kernel. *)
Lemma uservec_spec c tf :
  rv_mode c <> Machine -> tf_mapped (rv_csr c satp) tf ->
  let c' := run uservec c in let m := save_all tf (tf_slots ++ [(a0, 112)]) (rv_reg c) (rv_mem c) in
  rv_mem c' = m /\ rv_reg c' sp = load64 m (tf + 8) /\ rv_reg c' tp = load64 m (tf + 32) /\
  rv_csr c' satp = load64 m (tf + 0) /\ rv_pc c' = load64 m (tf + 16) /\ rv_mode c' = rv_mode c.
Proof.
  intros Hm Ht. cbv zeta. rewrite uservec_eq, !run_app. destruct tf_slots_ok as (Hin & _ & _ & Ha0 & _).
  set (c0 := run [CSRW sscratch a0; LI a0 TRAPFRAME] c).
  assert (points c0 a0 tf 288) as Hp by (by apply (points_tf c0 (rv_csr c satp) tf)).
  rewrite (run_saves a0 tf_slots c0 tf 288 Hp Hin).
  set (m := save_all tf (tf_slots ++ [(a0, 112)]) (rv_reg c) (rv_mem c)).
  set (c1 := run [CSRR t0 sscratch; SD t0 112 a0] _).
  assert (points c1 a0 tf 288) as Hp1 by exact Hp.
  assert (rv_mem c1 = m) as Em.
  { unfold m. rewrite save_all_snoc. unfold c1. cbn [run step set_memory set_reg rv_mem rv_reg rv_csr].
    change (addr _ a0 112) with (addr c0 a0 112). rewrite (Hp 112) by lia.
    rewrite (save_all_ext _ _ (rv_reg c0) (rv_reg c)); [done|]. apply list.Forall_forall. intros [r off] Hr. unfold c0.
    cbn [run step set_reg set_csr rv_reg fst]. rewrite decide_False; [done|]. intros ->. apply Ha0, list_elem_of_fmap. by exists (a0, off). }
  destruct (run_loads a0 [(sp, 8); (tp, 32); (t0, 16); (t1, 0)] c1 tf 288 Hp1) as (R1 & _ & R3 & R4 & _ & R6).
  { apply (bool_decide_unpack _). vm_compute. exact I. }
  { apply (bool_decide_unpack _). vm_compute. exact I. }
  { apply (bool_decide_unpack _). vm_compute. exact I. }
  destruct (enter_spec (run (loads a0 [(sp, 8); (tp, 32); (t0, 16); (t1, 0)]) c1)) as (E1 & E2 & E3 & E4 & E5).
  set (c2 := run (loads a0 _) c1) in *. clearbody c2. set (c3 := run [SFENCE_VMA; _; _; _] c2) in *. clearbody c3.
  rewrite <- Em, E1, !E2, E3, E4, E5, R4, R6. split; [done|].
  split; [apply R1; repeat constructor|]. split; [apply R1; repeat constructor|].
  split; [apply R1; repeat constructor|]. split; [apply R1; repeat constructor|]. done.
Qed.

(** userret loads every register from the trap frame and leaves the kernel. *)
Lemma userret_spec c tf :
  rv_mode c <> Machine -> tf_mapped (rv_reg c a0) tf ->
  let c' := run userret c in
  (forall r, rv_reg c' r = load64 (rv_mem c) (tf + tf_off r)) /\ rv_mem c' = rv_mem c /\ rv_csr c' satp = rv_reg c a0 /\
  rv_pc c' = rv_csr c sepc /\ rv_mode c' = sret_mode (rv_csr c sstatus) /\ rv_csr c' sstatus = sret_status (rv_csr c sstatus).
Proof.
  intros Hm Ht. cbv zeta. rewrite userret_eq, !run_app. destruct tf_slots_ok as (Hin & _ & _ & Ha0 & Hnd).
  set (c0 := run [SFENCE_VMA; CSRW satp a0; SFENCE_VMA; LI a0 TRAPFRAME] c).
  assert (points c0 a0 tf 288) as Hp by (by apply (points_tf c0 (rv_reg c a0) tf)).
  destruct (run_loads a0 tf_slots c0 tf 288 Hp Hin Ha0 Hnd) as (R1 & R2 & R3 & R4 & R5 & R6).
  set (c1 := run (loads a0 tf_slots) c0) in *.
  assert (addr c1 a0 112 = tf + 112) as Ea.
  { rewrite <- (Hp 112) by lia. unfold addr. by rewrite R2, R3, R4 by done. }
  cbn [run step set_pc set_mode set_csr set_reg rv_mem rv_reg rv_csr rv_mode rv_pc csr_value]. rewrite R3, R6, Ea.
  split; [|done]. intros r. case_decide as E; [by subst|].
  apply R1. pose proof (tf_slot r) as Hs. apply elem_of_app in Hs as [|Hs%list_elem_of_singleton]; [done|]. by injection Hs.
Qed.

(** ** Context switches *)

Definition ctx_off (r : reg) : Z :=
  match r with
  | ra => 0 | sp => 8 | s0 => 16 | s1 => 24 | s2 => 32 | s3 => 40 | s4 => 48 | s5 => 56 | s6 => 64 | s7 => 72 | s8 => 80
  | s9 => 88 | s10 => 96 | s11 => 104 | _ => 0
  end.
(** The registers that the calling convention lets a caller keep, in the order of swtch.S. *)
Definition callee_saved : list reg := [ra; sp; s0; s1; s2; s3; s4; s5; s6; s7; s8; s9; s10; s11].
Definition ctx_slots : list (reg * Z) := (fun r => (r, ctx_off r)) <$> callee_saved.

Lemma ctx_slots_ok : inside 112 ctx_slots /\ slots_apart ctx_slots /\ NoDup ctx_slots /\ a1 ∉ ctx_slots.*1 /\ a0 ∉ ctx_slots.*1 /\ NoDup ctx_slots.*1.
Proof. apply (bool_decide_unpack _). vm_compute. exact I. Qed.

Lemma ctx_slot r : r ∈ callee_saved -> (r, ctx_off r) ∈ ctx_slots.
Proof. intros Hr. apply list_elem_of_fmap. by exists r. Qed.

Lemma swtch_eq : swtch = saves a0 ctx_slots ++ loads a1 ctx_slots ++ [RET].
Proof. reflexivity. Qed.

(** swtch() saves the registers in [old] and loads those in [new]. *)
Lemma swtch_spec c old new :
  points c a0 old 112 -> points c a1 new 112 ->
  let c' := run swtch c in let m := save_all old ctx_slots (rv_reg c) (rv_mem c) in
  rv_mem c' = m /\ (forall r, r ∈ callee_saved -> rv_reg c' r = load64 m (new + ctx_off r)) /\
  (forall r, r ∉ callee_saved -> rv_reg c' r = rv_reg c r) /\ rv_pc c' = load64 m (new + 0) /\
  rv_csr c' = rv_csr c /\ rv_mode c' = rv_mode c.
Proof.
  intros Ho Hn. cbv zeta. rewrite swtch_eq, !run_app. destruct ctx_slots_ok as (Hin & _ & _ & Ha1 & Ha0 & Hnd).
  rewrite (run_saves a0 ctx_slots c old 112 Ho Hin). set (m := save_all old ctx_slots (rv_reg c) (rv_mem c)).
  destruct (run_loads a1 ctx_slots (set_memory m c) new 112 Hn Hin Ha1 Hnd) as (R1 & R2 & R3 & R4 & R5 & R6).
  set (c1 := run (loads a1 ctx_slots) (set_memory m c)) in *. cbn [run step set_pc rv_mem rv_reg rv_csr rv_mode rv_pc].
  split; [exact R6|]. split; [|split; [|split; [|done]]].
  - intros r Hr. by apply R1, ctx_slot.
  - intros r Hr. apply R2. intros ([r' o] & -> & Hin')%list_elem_of_fmap. apply Hr.
    apply list_elem_of_fmap in Hin' as (r2 & [= -> ->] & H2). done.
  - by apply (R1 ra 0), (ctx_slot ra ltac:(by left)).
Qed.

(** ** Traps from the kernel *)

Definition kv_off (r : reg) : Z :=
  match r with
  | ra => 0 | sp => 8 | gp => 16 | tp => 24 | t0 => 32 | t1 => 40 | t2 => 48 | s0 => 56 | s1 => 64
  | a0 => 72 | a1 => 80 | a2 => 88 | a3 => 96 | a4 => 104 | a5 => 112 | a6 => 120 | a7 => 128
  | s2 => 136 | s3 => 144 | s4 => 152 | s5 => 160 | s6 => 168 | s7 => 176 | s8 => 184 | s9 => 192 | s10 => 200 | s11 => 208
  | t3 => 216 | t4 => 224 | t5 => 232 | t6 => 240
  end.
(** The registers that are restored after ra and sp. *)
Definition kv_rest : list reg :=
  [gp; t0; t1; t2; s0; s1; a0; a1; a2; a3; a4; a5; a6; a7; s2; s3; s4; s5; s6; s7; s8; s9; s10; s11; t3; t4; t5; t6].
Definition kv_slots (l : list reg) : list (reg * Z) := (fun r => (r, kv_off r)) <$> l.
Definition kv_regs : list reg :=
  [ra; sp; gp; tp; t0; t1; t2; s0; s1; a0; a1; a2; a3; a4; a5; a6; a7; s2; s3; s4; s5; s6; s7; s8; s9; s10; s11; t3; t4; t5; t6].

Lemma kv_slots_ok : inside 256 (kv_slots kv_regs) /\ slots_apart (kv_slots kv_regs) /\ NoDup (kv_slots kv_regs) /\
  inside 256 (kv_slots kv_rest) /\ sp ∉ (kv_slots kv_rest).*1 /\ NoDup (kv_slots kv_rest).*1 /\ tp ∉ (kv_slots kv_rest).*1 /\ ra ∉ (kv_slots kv_rest).*1.
Proof. apply (bool_decide_unpack _). vm_compute. exact I. Qed.

Lemma kv_slot r : (r, kv_off r) ∈ kv_slots kv_regs.
Proof. apply (bool_decide_unpack _). destruct r; vm_compute; exact I. Qed.

Lemma kv_rest_all r : r = ra \/ r = sp \/ r = tp \/ (r, kv_off r) ∈ kv_slots kv_rest.
Proof. apply (bool_decide_unpack _). destruct r; vm_compute; exact I. Qed.

Lemma kernelvec_save_spec c stk :
  256 <= rv_reg c sp < 2 ^ 64 -> points (set_reg sp (rv_reg c sp - 256) c) sp stk 256 -> regs_ok c ->
  let c' := run kernelvec_save c in
  rv_reg c' sp = rv_reg c sp - 256 /\ (forall b, ~ (stk <= b < stk + 256) -> rd8 (rv_mem c') b = rd8 (rv_mem c) b) /\
  forall r, load64 (rv_mem c') (stk + kv_off r) = if decide (r = sp) then rv_reg c sp - 256 else rv_reg c r.
Proof.
  intros Hsp Hp Hr. cbv zeta. change kernelvec_save with ([ADDI sp sp (-256)] ++ saves sp (kv_slots kv_regs)). rewrite run_app.
  destruct kv_slots_ok as (Hin & Hap & Hnd & _). set (c0 := run [ADDI sp sp (-256)] c).
  assert (forall r, rv_reg c0 r = if decide (r = sp) then rv_reg c sp - 256 else rv_reg c r) as Er.
  { intros r. unfold c0. cbn. case_decide; [|done]. rewrite u64_small by lia. lia. }
  assert (points c0 sp stk 256) as Hp0.
  { intros off H1 H2. rewrite <- (Hp off H1 H2). unfold addr, c0. cbn. by rewrite (u64_small (rv_reg c sp + -256)) by lia. }
  rewrite (run_saves sp _ c0 stk 256 Hp0 Hin). cbn [set_memory rv_reg rv_mem]. split; [by rewrite Er, decide_True|].
  split; [intros b Hb; by apply (save_all_out _ _ _ _ 256)|]. intros r. rewrite <- Er. apply save_all_load; [done|done|apply kv_slot|].
  rewrite Er. case_decide; [lia|apply Hr].
Qed.

Lemma kernelvec_restore_spec c stk :
  256 <= rv_reg c sp + 256 < 2 ^ 64 -> points c sp stk 256 -> load64 (rv_mem c) (stk + 8) = rv_reg c sp ->
  let c' := run kernelvec_restore c in
  rv_reg c' sp = rv_reg c sp + 256 /\ rv_reg c' tp = rv_reg c tp /\ rv_mem c' = rv_mem c /\ rv_pc c' = rv_csr c sepc /\
  rv_mode c' = sret_mode (rv_csr c sstatus) /\
  forall r, r <> sp -> r <> tp -> rv_reg c' r = load64 (rv_mem c) (stk + kv_off r).
Proof.
  intros Hsp Hp Hs. cbv zeta.
  change kernelvec_restore with ([LD ra 0 sp; LD sp 8 sp] ++ loads sp (kv_slots kv_rest) ++ [ADDI sp sp 256; SRET]). rewrite !run_app.
  destruct kv_slots_ok as (_ & _ & _ & Hin & Hs1 & Hnd & Htp & Hra). set (c0 := run [LD ra 0 sp; LD sp 8 sp] c).
  assert (forall r, rv_reg c0 r = if decide (r = ra) then load64 (rv_mem c) (stk + 0) else rv_reg c r) as Er.
  { intros r. unfold c0. cbn [run step set_reg rv_reg rv_mem].
    replace (addr _ sp 8) with (stk + 8) by (rewrite <- (Hp 8) by lia; done). rewrite (Hp 0) by lia. rewrite Hs.
    repeat case_decide; subst; congruence. }
  assert (points c0 sp stk 256) as Hp0.
  { intros off H1 H2. rewrite <- (Hp off H1 H2). unfold addr. rewrite Er. by rewrite (decide_False (P := sp = ra)) by done. }
  destruct (run_loads sp _ c0 stk 256 Hp0 Hin Hs1 Hnd) as (R1 & R2 & R3 & R4 & R5 & R6). set (c1 := run (loads sp _) c0) in *.
  cbn [run step set_pc set_mode set_csr set_reg rv_mem rv_reg rv_csr rv_mode rv_pc csr_value]. rewrite R3, R6.
  split; [rewrite decide_True, R2, Er by done; rewrite decide_False by done; apply u64_small; lia|].
  split; [rewrite R2, Er by done; by rewrite decide_False|]. split; [done|]. split; [done|]. split; [done|].
  intros r H1 H2. rewrite decide_False by done. destruct (kv_rest_all r) as [->|[->|[->|Hin']]]; [|done|done|by apply R1].
  by rewrite R2, Er by done.
Qed.

(** ** The timer *)

Lemma points_machine c base p n : rv_mode c = Machine -> rv_reg c base = p -> 0 <= p -> p + n < 2 ^ 64 -> points c base p n.
Proof. intros Hm Hb H0 Hn off H1 H2. unfold addr. rewrite Hm, Hb, decide_True by done. apply u64_small. lia. Qed.

Lemma timervec_eq : timervec = [CSRRW a0 mscratch a0] ++ saves a0 [(a1, 0); (a2, 8); (a3, 16)] ++ loads a0 [(a1, 24); (a2, 32)] ++
  [LD a3 0 a1; ADD a3 a3 a2; SD a3 0 a1; LI a1 2; CSRW sip a1] ++ loads a0 [(a3, 16); (a2, 8); (a1, 0)] ++ [CSRRW a0 mscratch a0; MRET].
Proof. reflexivity. Qed.

(** The middle of timervec, with a1 the address of mtimecmp and a2 the interval. *)
Lemma tick_spec c cmp :
  rv_mode c = Machine -> rv_reg c a1 = cmp -> 0 <= cmp -> cmp + 8 < 2 ^ 64 ->
  let c' := run [LD a3 0 a1; ADD a3 a3 a2; SD a3 0 a1; LI a1 2; CSRW sip a1] c in
  rv_mem c' = store64 (rv_mem c) cmp (u64 (load64 (rv_mem c) cmp + rv_reg c a2)) /\
  (forall r, r <> a1 -> r <> a3 -> rv_reg c' r = rv_reg c r) /\ rv_mode c' = Machine /\
  (forall x, x <> sip -> rv_csr c' x = rv_csr c x) /\ Z.testbit (rv_csr c' sip) 1 = true.
Proof.
  intros Hm Ha H0 H1. cbv zeta. assert (u64 (cmp + 0) = cmp) as Ec by (rewrite u64_small by lia; lia).
  unfold run, step, addr. cbn [set_reg set_memory set_csr rv_reg rv_mem rv_csr rv_mode]. rewrite Hm, !(decide_True (P := Machine = Machine)) by done.
  repeat (rewrite (decide_False (P := a1 = a3)) by done || rewrite (decide_False (P := a2 = a3)) by done || rewrite (decide_True (P := a3 = a3)) by done ||
          rewrite (decide_True (P := a1 = a1)) by done || rewrite (decide_True (P := sip = sip)) by done).
  rewrite Ha, Ec. split; [done|]. split; [|split; [done|split]].
  - intros r Hr1 Hr3. by rewrite !decide_False by done.
  - intros x Hx. by rewrite decide_False by done.
  - rewrite decide_True by done. unfold csr_value. rewrite Z.lor_spec. replace (Z.testbit (Z.land (u64 2) 2) 1) with true by done. apply orb_true_r.
Qed.

(** Its end: the registers it used are restored. *)
Lemma timer_back c c3 s :
  rv_mode c3 = Machine -> rv_reg c3 a0 = s -> 0 <= s -> s + 40 < 2 ^ 64 -> rv_csr c3 mscratch = rv_reg c a0 ->
  (forall r off, (r, off) ∈ [(a1, 0); (a2, 8); (a3, 16)] -> load64 (rv_mem c3) (s + off) = rv_reg c r) ->
  (forall r, r <> a0 /\ r <> a1 /\ r <> a2 /\ r <> a3 -> rv_reg c3 r = rv_reg c r) ->
  let c' := run (loads a0 [(a3, 16); (a2, 8); (a1, 0)] ++ [CSRRW a0 mscratch a0; MRET]) c3 in
  (forall r, rv_reg c' r = rv_reg c r) /\ rv_csr c' mscratch = s /\ rv_csr c' sip = rv_csr c3 sip /\ rv_mem c' = rv_mem c3 /\
  rv_pc c' = rv_csr c3 mepc /\ rv_mode c' = mret_mode (rv_csr c3 mstatus).
Proof.
  intros Hm Ha H0 H1 Hs Hslot Hr. cbv zeta. rewrite run_app.
  destruct (run_loads a0 [(a3, 16); (a2, 8); (a1, 0)] c3 s 40) as (L1 & L2 & L3 & _ & _ & L6);
    [by apply points_machine; [| | |lia]|apply (bool_decide_unpack _); vm_compute; exact I..|]. set (c4 := run (loads a0 _) c3) in *. clearbody c4.
  cbn [run step set_pc set_mode set_csr set_reg rv_mem rv_reg rv_csr rv_mode rv_pc csr_value]. rewrite L3, L6.
  split; [|split; [by rewrite L2 by (by apply (bool_decide_unpack _))|done]].
  intros r. case_decide as E; [by subst r|].
  destruct (decide (r = a1)) as [->|N1]; [rewrite (L1 a1 0) by repeat constructor; apply Hslot; repeat constructor|].
  destruct (decide (r = a2)) as [->|N2]; [rewrite (L1 a2 8) by repeat constructor; apply Hslot; repeat constructor|].
  destruct (decide (r = a3)) as [->|N3]; [rewrite (L1 a3 16) by repeat constructor; apply Hslot; repeat constructor|].
  rewrite L2; [by apply Hr|]. cbn. rewrite !not_elem_of_cons. split; [done|]. split; [done|]. split; [done|]. apply not_elem_of_nil.
Qed.

Lemma timervec_spec c s cmp interval :
  rv_mode c = Machine -> regs_ok c -> rv_csr c mscratch = s -> 0 <= s -> s + 40 < 2 ^ 64 -> 0 <= cmp -> cmp + 8 < 2 ^ 64 ->
  load64 (rv_mem c) (s + 24) = cmp -> load64 (rv_mem c) (s + 32) = interval -> s + 40 <= cmp \/ cmp + 8 <= s ->
  let c' := run timervec c in
  (forall r, rv_reg c' r = rv_reg c r) /\ rv_csr c' mscratch = s /\ Z.testbit (rv_csr c' sip) 1 = true /\
  load64 (rv_mem c') cmp = u64 (load64 (rv_mem c) cmp + interval) /\ rv_pc c' = rv_csr c mepc /\ rv_mode c' = mret_mode (rv_csr c mstatus) /\
  forall b, ~ (s <= b < s + 24) -> ~ (cmp <= b < cmp + 8) -> rd8 (rv_mem c') b = rd8 (rv_mem c) b.
Proof.
  intros Hm Hr Hs H0 H1 H2 H3 Hc Hi Hd. cbv zeta. rewrite timervec_eq, !run_app. set (l := [(a1, 0); (a2, 8); (a3, 16)]).
  set (c0 := run [CSRRW a0 mscratch a0] c).
  assert (rv_reg c0 a0 = s /\ (forall r, r <> a0 -> rv_reg c0 r = rv_reg c r) /\ rv_csr c0 mscratch = rv_reg c a0 /\
    (forall x, x <> mscratch -> rv_csr c0 x = rv_csr c x) /\ rv_mode c0 = Machine /\ rv_mem c0 = rv_mem c) as (F1 & F2 & F3 & F4 & F5 & F6).
  { unfold c0. cbn. rewrite <- Hs. split; [done|]. split; [intros r Hne; by rewrite decide_False|]. split; [done|].
    split; [intros x Hne; by rewrite decide_False|]. done. }
  clearbody c0. assert (points c0 a0 s 40) as Hp0 by (by apply points_machine; [| | |lia]).
  rewrite (run_saves a0 l c0 s 40 Hp0) by (apply (bool_decide_unpack _); vm_compute; exact I).
  set (m1 := save_all s l (rv_reg c0) (rv_mem c0)).
  assert (forall r off, (r, off) ∈ l -> load64 m1 (s + off) = rv_reg c r) as Hm1.
  { intros r off Hin. rewrite <- F2.
    - apply save_all_load; [apply (bool_decide_unpack _); vm_compute; exact I|apply (bool_decide_unpack _); vm_compute; exact I|done|].
      destruct (decide (r = a0)) as [->|Hne]; [rewrite F1; lia|rewrite F2 by done; apply Hr].
    - intros ->. unfold l in Hin. repeat (apply elem_of_cons in Hin as [[=]|Hin]; []). by apply not_elem_of_nil in Hin. }
  assert (forall a, (s + 24 <= a \/ a + 8 <= s) -> load64 m1 a = load64 (rv_mem c) a) as Ho1.
  { intros a Ha. unfold m1. rewrite save_all_other, F6; [done|]. do 3 (constructor; [cbn; lia|]). constructor. }
  assert (forall b, ~ (s <= b < s + 24) -> rd8 m1 b = rd8 (rv_mem c) b) as Hb1.
  { intros b Hb. rewrite <- F6. apply (save_all_out _ _ _ _ 24); [apply (bool_decide_unpack _); vm_compute; exact I|done]. }
  clearbody m1.
  destruct (run_loads a0 [(a1, 24); (a2, 32)] (set_memory m1 c0) s 40 Hp0) as (R1 & R2 & R3 & R4 & _ & R6);
    [apply (bool_decide_unpack _); vm_compute; exact I..|]. set (c2 := run (loads a0 _) (set_memory m1 c0)) in *. clearbody c2.
  cbn [set_memory rv_mem rv_csr rv_mode rv_reg] in *.
  destruct (tick_spec c2 cmp) as (K1 & K2 & K3 & K4 & K5); [by rewrite R4| |done|done|].
  { rewrite (R1 a1 24) by repeat constructor. by rewrite Ho1 by lia. }
  set (c3 := run [LD a3 0 a1; _; _; _; _] c2) in *. clearbody c3.
  rewrite (R1 a2 32), R6, (Ho1 (s + 32)), (Ho1 cmp), Hi in K1 by first [lia | repeat constructor].
  assert (forall a, a + 8 <= cmp \/ cmp + 8 <= a -> load64 (rv_mem c3) a = load64 m1 a) as Hm3.
  { intros a Ha. rewrite K1. by apply load64_store64_disj. }
  rewrite <- run_app. destruct (timer_back c c3 s) as (B1 & B2 & B3 & B4 & B5 & B6); try done.
  { by rewrite K2, R2 by (done || by apply (bool_decide_unpack _)). }
  { by rewrite K4, R3 by done. }
  { intros r off Hin. rewrite Hm3; [by apply Hm1|]. unfold l in Hin. repeat (apply elem_of_cons in Hin as [[= -> ->]|Hin]; [lia|]). by apply not_elem_of_nil in Hin. }
  { intros r (N0 & N1 & N2 & N3). rewrite K2, R2, F2; [done|done| |done|done].
    cbn. rewrite !not_elem_of_cons. split; [done|]. split; [done|]. apply not_elem_of_nil. }
  split; [done|]. split; [done|]. rewrite B3, B4, B5, B6, (K4 mepc), (K4 mstatus), !R3, !F4 by done. split; [done|]. split; [|split; [done|split; [done|]]].
  - rewrite K1. apply load64_store64_same, u64_range.
  - intros b Hb2 Hb3. rewrite K1, rd8_store64_out by lia. by apply Hb1.
Qed.
End Hart.

(** C17. A user program does not notice a trap. uservec, entered with the user's page
    table, saves every register at its place in the trap frame, changes
    no other memory, and enters the kernel with the kernel's stack, hart
    number, page table and handler from the trap frame. When later - whatever the
    kernel did in between - userret is called with the user's page table, every register whose
    place in the trap frame was left alone has the value it had at the trap, every
    other one the value the kernel put there (the result of a system call in a0), and
    the program goes on in user mode at sepc if usertrapret() cleared SPP. *)
Theorem trap_roundtrip (xlate : Z -> Z -> Z) c c2 tf
  (Hm : rv_mode c = Supervisor) (Hr : regs_ok c) (Ht : tf_mapped xlate (rv_csr c satp) tf)
  (Hm2 : rv_mode c2 = Supervisor) (Ha : rv_reg c2 a0 = rv_csr c satp) :
  let c1 := run xlate uservec c in let c3 := run xlate userret c2 in
  (forall r, load64 (rv_mem c1) (tf + tf_off r) = rv_reg c r) /\
  (forall b, ~ (tf + 40 <= b < tf + 288) -> rd8 (rv_mem c1) b = rd8 (rv_mem c) b) /\
  rv_reg c1 sp = load64 (rv_mem c) (tf + 8) /\ rv_reg c1 tp = load64 (rv_mem c) (tf + 32) /\
  rv_csr c1 satp = load64 (rv_mem c) (tf + 0) /\ rv_pc c1 = load64 (rv_mem c) (tf + 16) /\
  (forall r, rv_reg c3 r = load64 (rv_mem c2) (tf + tf_off r)) /\
  (forall r, load64 (rv_mem c2) (tf + tf_off r) = load64 (rv_mem c1) (tf + tf_off r) -> rv_reg c3 r = rv_reg c r) /\
  rv_csr c3 satp = rv_csr c satp /\ rv_pc c3 = rv_csr c2 sepc /\ rv_mem c3 = rv_mem c2 /\
  (Z.testbit (rv_csr c2 sstatus) 8 = false -> rv_mode c3 = User).
Proof.
  cbv zeta. destruct (uservec_spec xlate c tf) as (U1 & U2 & U3 & U4 & U5 & _); [by rewrite Hm|done|].
  destruct (userret_spec xlate c2 tf) as (V1 & V2 & V3 & V4 & V5 & _); [by rewrite Hm2|by rewrite Ha|].
  destruct tf_slots_ok as (Hin & Hap & Hnd & _).
  set (c1 := run xlate uservec c) in *. clearbody c1. set (c3 := run xlate userret c2) in *. clearbody c3.
  assert (forall r, load64 (rv_mem c1) (tf + tf_off r) = rv_reg c r) as Hsave.
  { intros r. rewrite U1. apply save_all_load; [done|done|apply tf_slot|apply Hr]. }
  assert (Forall (fun x : reg * Z => 40 <= x.2 /\ x.2 + 8 <= 288) (tf_slots ++ [(a0, 112)])) as Hlow by (apply (bool_decide_unpack _); vm_compute; exact I).
  assert (forall off, 0 <= off -> off + 8 <= 40 -> load64 (rv_mem c1) (tf + off) = load64 (rv_mem c) (tf + off)) as Hkeep.
  { intros off H1 H2. rewrite U1. apply save_all_other. eapply list.Forall_impl; [exact Hlow|]. intros x [? ?]. lia. }
  split; [done|]. split; [|rewrite <- !Hkeep, U2, U3, U4, U5 by lia; rewrite <- U1].
  { intros b Hb. rewrite U1. clear -Hb Hlow. generalize (rv_mem c). induction Hlow as [|[r o] l [H1 H2] _ IH]; intros m; [done|].
    cbn [save_all]. cbn in H1, H2. rewrite IH. apply rd8_store64_out. lia. }
  split; [done|]. split; [done|]. split; [done|]. split; [done|]. split; [done|]. split; [intros r E; by rewrite V1, E|].
  split; [by rewrite V3|]. split; [done|]. split; [done|]. intros Hs. rewrite V5. unfold sret_mode. by rewrite Hs.
Qed.

(** C18. A thread that is switched out finds its registers again. swtch() called with
    the thread's context as [old] saves the registers the C code relies on; when some thread later
    switches to that context, unchanged in between, swtch() returns to the
    first one's caller with its stack pointer, return address and saved registers,
    and with every other register of the caller that switched. *)
Theorem swtch_roundtrip (xlate : Z -> Z -> Z) c c2 ctx other ctx2
  (Hr : regs_ok c) (H1 : points xlate c a0 ctx 112) (H2 : points xlate c a1 other 112)
  (H3 : points xlate c2 a0 ctx2 112) (H4 : points xlate c2 a1 ctx 112) (Hd : ctx2 + 112 <= ctx \/ ctx + 112 <= ctx2) :
  let c1 := run xlate swtch c in let c3 := run xlate swtch c2 in
  (forall b, ~ (ctx <= b < ctx + 112) -> rd8 (rv_mem c1) b = rd8 (rv_mem c) b) /\
  ((forall b, ctx <= b < ctx + 112 -> rd8 (rv_mem c2) b = rd8 (rv_mem c1) b) ->
     (forall r, r ∈ callee_saved -> rv_reg c3 r = rv_reg c r) /\ rv_pc c3 = rv_reg c ra) /\
  (forall r, r ∉ callee_saved -> rv_reg c3 r = rv_reg c2 r) /\
  (forall r, r ∈ callee_saved -> 0 <= rv_reg c2 r < 2 ^ 64 -> load64 (rv_mem c3) (ctx2 + ctx_off r) = rv_reg c2 r).
Proof.
  cbv zeta. destruct (swtch_spec xlate c ctx other H1 H2) as (A1 & _).
  destruct (swtch_spec xlate c2 ctx2 ctx H3 H4) as (B1 & B2 & B3 & B4 & _).
  set (c1 := run xlate swtch c) in *. clearbody c1. set (c3 := run xlate swtch c2) in *. clearbody c3.
  destruct ctx_slots_ok as (Hin & Hap & Hnd & _).
  assert (forall r, r ∈ callee_saved -> 0 <= ctx_off r /\ ctx_off r + 8 <= 112) as Hoff.
  { intros r Hr'. unfold inside in Hin. rewrite list.Forall_forall in Hin. exact (Hin _ (ctx_slot r Hr')). }
  split; [intros b Hb; rewrite A1; by apply (save_all_out _ _ _ _ 112)|]. split; [|split; [done|]].
  - intros Hkeep.
    assert (forall r, r ∈ callee_saved -> load64 (save_all ctx2 ctx_slots (rv_reg c2) (rv_mem c2)) (ctx + ctx_off r) = rv_reg c r) as Hback.
    { intros r Hr'. destruct (Hoff r Hr'). transitivity (load64 (rv_mem c1) (ctx + ctx_off r)).
      - apply load64_ext. intros b Hb. rewrite (save_all_out _ _ _ _ 112) by (done || lia). apply Hkeep. lia.
      - rewrite A1. apply save_all_load; [done|done|by apply ctx_slot|apply Hr]. }
    split; [intros r Hr'; rewrite B2 by done; by apply Hback|]. rewrite B4. apply (Hback ra). by left.
  - intros r Hr' Hrange. rewrite B1. apply save_all_load; [done|done|by apply ctx_slot|done].
Qed.

(** C24. Kernel code does not notice an interrupt. kernelvec pushes all registers on the
    stack, changing nothing but the 256 bytes below the stack pointer; when kerneltrap()
    has returned, with the stack pointer and these bytes as they were, every
    register is restored and the interrupted code goes on, except that tp
    keeps the hart number of the CPU that kerneltrap() returned on. *)
Theorem kernelvec_transparent (xlate : Z -> Z -> Z) c c2 stk
  (Hr : regs_ok c) (Hs : 256 <= rv_reg c sp) (Hp : points xlate (set_reg sp (rv_reg c sp - 256) c) sp stk 256)
  (Hsp : rv_reg c2 sp = rv_reg c sp - 256) (Hp2 : points xlate c2 sp stk 256)
  (Hkeep : forall b, stk <= b < stk + 256 -> rd8 (rv_mem c2) b = rd8 (rv_mem (run xlate kernelvec_save c)) b) :
  let c1 := run xlate kernelvec_save c in let c3 := run xlate kernelvec_restore c2 in
  rv_reg c1 sp = rv_reg c sp - 256 /\ (forall b, ~ (stk <= b < stk + 256) -> rd8 (rv_mem c1) b = rd8 (rv_mem c) b) /\
  (forall r, r <> tp -> rv_reg c3 r = rv_reg c r) /\ rv_reg c3 tp = rv_reg c2 tp /\ rv_mem c3 = rv_mem c2 /\ rv_pc c3 = rv_csr c2 sepc.
Proof.
  cbv zeta. pose proof (Hr sp) as Hsr. destruct (kernelvec_save_spec xlate c stk) as (A1 & A2 & A3); [lia|done|done|].
  set (c1 := run xlate kernelvec_save c) in *. clearbody c1.
  assert (forall r, load64 (rv_mem c2) (stk + kv_off r) = if decide (r = sp) then rv_reg c sp - 256 else rv_reg c r) as Hl.
  { intros r. rewrite <- A3. apply load64_ext. intros b Hb. apply Hkeep.
    destruct kv_slots_ok as (Hin & _). unfold inside in Hin. rewrite list.Forall_forall in Hin. specialize (Hin _ (kv_slot r)). cbn in Hin. lia. }
  destruct (kernelvec_restore_spec xlate c2 stk) as (B1 & B2 & B3 & B4 & _ & B6); [rewrite Hsp; lia|done|by rewrite Hsp; apply (Hl sp)|].
  set (c3 := run xlate kernelvec_restore c2) in *. clearbody c3.
  split; [done|]. split; [done|]. split; [|done]. intros r Hne. destruct (decide (r = sp)) as [->|Hns]; [rewrite B1, Hsp; lia|].
  rewrite B6, Hl by done. by rewrite decide_False.
Qed.

(** entry.S gives every hart a stack of its own. *)
Lemma entry_stack (xlate : Z -> Z -> Z) c stack0 :
  0 <= stack0 -> 0 <= rv_csr c mhartid < NCPU -> stack0 + 4096 * NCPU < 2 ^ 64 ->
  rv_reg (run xlate (entry stack0) c) sp = stack0 + 4096 * (rv_csr c mhartid + 1).
Proof.
  change NCPU with 8. intros H0 H1 H2.
  change (rv_reg _ sp) with (u64 (u64 stack0 + u64 (4096 * u64 (rv_csr c mhartid + 1)))).
  rewrite (u64_small (rv_csr c mhartid + 1)), (u64_small (4096 * _)), (u64_small stack0) by lia. apply u64_small. lia.
Qed.

(** ** Witnesses *)

Definition demo_rv : rv := Rv (fun r => 1000 + tf_off r) (fun _ => 0) Supervisor 0 ∅.
Definition demo_xlate (pt va : Z) : Z := va.

Lemma mem_set_reg r v c : rv_mem (set_reg r v c) = rv_mem c.
Proof. done. Qed.

Lemma demo_regs_ok : regs_ok demo_rv.
Proof. intros r. destruct r; cbn; lia. Qed.

Lemma trap_roundtrip_witness :
  let c1 := run demo_xlate uservec demo_rv in
  let c3 := run demo_xlate userret (set_reg a0 0 c1) in
  (forall r, rv_reg c3 r = rv_reg demo_rv r) /\ rv_mode c3 = User.
Proof.
  destruct (trap_roundtrip demo_xlate demo_rv (set_reg a0 0 (run demo_xlate uservec demo_rv)) TRAPFRAME) as (_ & _ & _ & _ & _ & _ & _ & H & _ & _ & _ & Hu).
  - reflexivity.
  - exact demo_regs_ok.
  - intros off Hoff. reflexivity.
  - reflexivity.
  - reflexivity.
  - cbv zeta. split; [|by apply Hu]. intros r. apply H. by rewrite mem_set_reg.
Defined.

Lemma points_flat c base p n : rv_reg c base = p -> 0 <= p -> p + n < 2 ^ 64 -> points demo_xlate c base p n.
Proof. intros Hb H0 Hn off H1 H2. unfold addr, demo_xlate. rewrite Hb, u64_small by lia. by destruct (decide _). Qed.

Definition demo_thread : rv := set_reg a0 8192 (set_reg a1 12288 demo_rv).

Lemma swtch_roundtrip_witness :
  let c1 := run demo_xlate swtch demo_thread in
  let c3 := run demo_xlate swtch (set_reg a1 8192 (set_reg a0 12288 c1)) in
  rv_reg c3 sp = 1048 /\ rv_pc c3 = 1040.
Proof.
  destruct (swtch_roundtrip demo_xlate demo_thread (set_reg a1 8192 (set_reg a0 12288 (run demo_xlate swtch demo_thread))) 8192 12288 12288) as (_ & H & _).
  - intros r. destruct r; vm_compute; split; done.
  - apply points_flat; [reflexivity|lia|lia].
  - apply points_flat; [reflexivity|lia|lia].
  - apply points_flat; [reflexivity|lia|lia].
  - apply points_flat; [reflexivity|lia|lia].
  - lia.
  - cbv zeta. destruct H as [H1 H2]; [intros b _; by rewrite !mem_set_reg|]. split; [apply (H1 sp); repeat constructor|exact H2].
Defined.

Lemma kernelvec_transparent_witness :
  let c1 := run demo_xlate kernelvec_save demo_rv in
  let c3 := run demo_xlate kernelvec_restore (set_reg tp 5 (set_reg t0 7 c1)) in
  rv_reg c3 t0 = rv_reg demo_rv t0 /\ rv_reg c3 sp = rv_reg demo_rv sp /\ rv_reg c3 tp = 5.
Proof.
  destruct (kernelvec_transparent demo_xlate demo_rv (set_reg tp 5 (set_reg t0 7 (run demo_xlate kernelvec_save demo_rv))) 792) as (_ & _ & H & Htp & _).
  - exact demo_regs_ok.
  - cbn. lia.
  - apply points_flat; [reflexivity|lia|lia].
  - reflexivity.
  - apply points_flat; [reflexivity|lia|lia].
  - intros b _. by rewrite !mem_set_reg.
  - cbv zeta. split; [by apply (H t0)|]. split; [by apply (H sp)|]. exact Htp.
Defined.
