(* ===== verification/Kernel.v ===== *)
(** * The kernel's shared state (kernel/proc.h, kernel/file.h, kernel/pipe.c)

    The process table, the table of open files, the pipes and the console, beside the file
    system of Fs.v and the physical memory of Vm.v, as one state on which
    proc.c, file.c, pipe.c, exec.c and the system calls run.  A pointer into a
    static table is an index and the null pointer is [None]; a trap frame is the
    page of physical memory it is in the C code.  The functions of proc.c that
    the other files call without creating or destroying processes are here. *)

From S2P Require Import Prelude Machine Mem Kalloc Sleeplock Store FsDisk Fs Vm.

Open Scope Z_scope.

(** ** Processes *)

Inductive procstate := UNUSED | USED | SLEEPING | RUNNABLE | RUNNING | ZOMBIE.
#[export] Instance procstate_eq_dec : EqDecision procstate.
Proof. solve_decision. Defined.

(** [struct context]: ra, sp and the callee-saved s0 to s11. *)
Record context := Context { ctx_ra : Z; ctx_sp : Z; ctx_s : list Z }.
Definition context0 : context := Context 0 0 (replicate 12 0).

Record proc := Proc {
  p_state : procstate;
  p_chan : option chan;
  p_killed : bool;
  p_xstate : Z;
  p_pid : Z;
  p_parent : option nat;
  p_kstack : Z;
  p_sz : Z;
  p_pagetable : Z;
  p_trapframe : Z;
  p_context : context;
  p_ofile : list (option nat);
  p_cwd : option nat;
  p_name : list Z
}.

Definition p_set_state v x := Proc v (p_chan x) (p_killed x) (p_xstate x) (p_pid x) (p_parent x) (p_kstack x) (p_sz x) (p_pagetable x) (p_trapframe x) (p_context x) (p_ofile x) (p_cwd x) (p_name x).
Definition p_set_chan v x := Proc (p_state x) v (p_killed x) (p_xstate x) (p_pid x) (p_parent x) (p_kstack x) (p_sz x) (p_pagetable x) (p_trapframe x) (p_context x) (p_ofile x) (p_cwd x) (p_name x).
Definition p_set_killed v x := Proc (p_state x) (p_chan x) v (p_xstate x) (p_pid x) (p_parent x) (p_kstack x) (p_sz x) (p_pagetable x) (p_trapframe x) (p_context x) (p_ofile x) (p_cwd x) (p_name x).
Definition p_set_xstate v x := Proc (p_state x) (p_chan x) (p_killed x) v (p_pid x) (p_parent x) (p_kstack x) (p_sz x) (p_pagetable x) (p_trapframe x) (p_context x) (p_ofile x) (p_cwd x) (p_name x).
Definition p_set_pid v x := Proc (p_state x) (p_chan x) (p_killed x) (p_xstate x) v (p_parent x) (p_kstack x) (p_sz x) (p_pagetable x) (p_trapframe x) (p_context x) (p_ofile x) (p_cwd x) (p_name x).
Definition p_set_parent v x := Proc (p_state x) (p_chan x) (p_killed x) (p_xstate x) (p_pid x) v (p_kstack x) (p_sz x) (p_pagetable x) (p_trapframe x) (p_context x) (p_ofile x) (p_cwd x) (p_name x).
Definition p_set_kstack v x := Proc (p_state x) (p_chan x) (p_killed x) (p_xstate x) (p_pid x) (p_parent x) v (p_sz x) (p_pagetable x) (p_trapframe x) (p_context x) (p_ofile x) (p_cwd x) (p_name x).
Definition p_set_sz v x := Proc (p_state x) (p_chan x) (p_killed x) (p_xstate x) (p_pid x) (p_parent x) (p_kstack x) v (p_pagetable x) (p_trapframe x) (p_context x) (p_ofile x) (p_cwd x) (p_name x).
Definition p_set_pagetable v x := Proc (p_state x) (p_chan x) (p_killed x) (p_xstate x) (p_pid x) (p_parent x) (p_kstack x) (p_sz x) v (p_trapframe x) (p_context x) (p_ofile x) (p_cwd x) (p_name x).
Definition p_set_trapframe v x := Proc (p_state x) (p_chan x) (p_killed x) (p_xstate x) (p_pid x) (p_parent x) (p_kstack x) (p_sz x) (p_pagetable x) v (p_context x) (p_ofile x) (p_cwd x) (p_name x).
Definition p_set_context v x := Proc (p_state x) (p_chan x) (p_killed x) (p_xstate x) (p_pid x) (p_parent x) (p_kstack x) (p_sz x) (p_pagetable x) (p_trapframe x) v (p_ofile x) (p_cwd x) (p_name x).
Definition p_set_ofile v x := Proc (p_state x) (p_chan x) (p_killed x) (p_xstate x) (p_pid x) (p_parent x) (p_kstack x) (p_sz x) (p_pagetable x) (p_trapframe x) (p_context x) v (p_cwd x) (p_name x).
Definition p_set_cwd v x := Proc (p_state x) (p_chan x) (p_killed x) (p_xstate x) (p_pid x) (p_parent x) (p_kstack x) (p_sz x) (p_pagetable x) (p_trapframe x) (p_context x) (p_ofile x) v (p_name x).
Definition p_set_name v x := Proc (p_state x) (p_chan x) (p_killed x) (p_xstate x) (p_pid x) (p_parent x) (p_kstack x) (p_sz x) (p_pagetable x) (p_trapframe x) (p_context x) (p_ofile x) (p_cwd x) v.

(** The fields of [struct trapframe] the kernel's C code uses, as offsets. *)
Definition TF_kernel_satp : Z := 0.
Definition TF_kernel_sp : Z := 8.
Definition TF_kernel_trap : Z := 16.
Definition TF_epc : Z := 24.
Definition TF_kernel_hartid : Z := 32.
Definition TF_sp : Z := 48.
Definition TF_a0 : Z := 112.
Definition TF_a (n : Z) : Z := TF_a0 + 8 * n.
Definition TF_SIZE : Z := 288.

(** ** Open files and pipes *)

Inductive fdtype := FD_NONE | FD_PIPE | FD_INODE | FD_DEVICE.
#[export] Instance fdtype_eq_dec : EqDecision fdtype.
Proof. solve_decision. Defined.

Record file := File {
  f_type : fdtype;
  f_ref : Z;
  f_readable : bool;
  f_writable : bool;
  f_pipe : Z;
  f_ip : option nat;
  f_off : Z;
  f_major : Z
}.

Definition f_set_type v x := File v (f_ref x) (f_readable x) (f_writable x) (f_pipe x) (f_ip x) (f_off x) (f_major x).
Definition f_set_ref v x := File (f_type x) v (f_readable x) (f_writable x) (f_pipe x) (f_ip x) (f_off x) (f_major x).
Definition f_set_readable v x := File (f_type x) (f_ref x) v (f_writable x) (f_pipe x) (f_ip x) (f_off x) (f_major x).
Definition f_set_writable v x := File (f_type x) (f_ref x) (f_readable x) v (f_pipe x) (f_ip x) (f_off x) (f_major x).
Definition f_set_pipe v x := File (f_type x) (f_ref x) (f_readable x) (f_writable x) v (f_ip x) (f_off x) (f_major x).
Definition f_set_ip v x := File (f_type x) (f_ref x) (f_readable x) (f_writable x) (f_pipe x) v (f_off x) (f_major x).
Definition f_set_off v x := File (f_type x) (f_ref x) (f_readable x) (f_writable x) (f_pipe x) (f_ip x) v (f_major x).
Definition f_set_major v x := File (f_type x) (f_ref x) (f_readable x) (f_writable x) (f_pipe x) (f_ip x) (f_off x) v.

Definition PIPESIZE : Z := 512.

Record pipe := Pipe {
  pi_data : list Z;
  pi_nread : Z;
  pi_nwrite : Z;
  pi_readopen : bool;
  pi_writeopen : bool
}.

Definition NPROCn : nat := Z.to_nat NPROC.
Definition NOFILEn : nat := Z.to_nat NOFILE.
Definition NFILEn : nat := Z.to_nat NFILE.

(** ** The console and the UART *)

Definition INPUT_BUF_SIZE : Z := 128.

Record cons := Cons { c_buf : list Z; c_r : Z; c_w : Z; c_e : Z }.

Definition UART_TX_BUF_SIZE : Z := 32.

(** The transmit buffer, and what the device answers when its line status and
    receive registers are read, read after read. *)
Record uart := Uart {
  tx_buf : list Z;
  tx_w : Z;
  tx_r : Z;
  lsr : list Z;
  rhr : list Z
}.

(** ** The state *)

Record kernel (St : Type) := Kernel {
  k_store : St;                  (* the disk, the buffer cache and the log *)
  k_phys : kmem;
  k_sb : superblock;
  k_inodes : list inode;
  k_files : list file;           (* ftable.file *)
  k_pipes : gmap Z pipe;         (* by the address of their page *)
  k_procs : list proc;           (* proc *)
  k_cur : option nat;            (* mycpu()->proc *)
  k_nextpid : Z;
  k_initproc : option nat;
  k_ticks : Z;
  k_first : bool;                (* forkret()'s static variable *)
  k_cons : cons;
  k_uart : uart
}.
Arguments Kernel {St}.
Arguments k_store {St}.
Arguments k_phys {St}.
Arguments k_sb {St}.
Arguments k_inodes {St}.
Arguments k_files {St}.
Arguments k_pipes {St}.
Arguments k_procs {St}.
Arguments k_cur {St}.
Arguments k_nextpid {St}.
Arguments k_initproc {St}.
Arguments k_ticks {St}.
Arguments k_first {St}.
Arguments k_cons {St}.
Arguments k_uart {St}.

Section Kernel.
Context {St : Type}.
Abbreviation K := (M (kernel St)).

Definition k_set_inodes (v : list inode) (k : kernel St) : kernel St :=
  Kernel (k_store k) (k_phys k) (k_sb k) v (k_files k) (k_pipes k) (k_procs k) (k_cur k) (k_nextpid k) (k_initproc k) (k_ticks k) (k_first k) (k_cons k) (k_uart k).
Definition k_set_files (v : list file) (k : kernel St) : kernel St :=
  Kernel (k_store k) (k_phys k) (k_sb k) (k_inodes k) v (k_pipes k) (k_procs k) (k_cur k) (k_nextpid k) (k_initproc k) (k_ticks k) (k_first k) (k_cons k) (k_uart k).
Definition k_set_pipes (v : gmap Z pipe) (k : kernel St) : kernel St :=
  Kernel (k_store k) (k_phys k) (k_sb k) (k_inodes k) (k_files k) v (k_procs k) (k_cur k) (k_nextpid k) (k_initproc k) (k_ticks k) (k_first k) (k_cons k) (k_uart k).
Definition k_set_procs (v : list proc) (k : kernel St) : kernel St :=
  Kernel (k_store k) (k_phys k) (k_sb k) (k_inodes k) (k_files k) (k_pipes k) v (k_cur k) (k_nextpid k) (k_initproc k) (k_ticks k) (k_first k) (k_cons k) (k_uart k).
Definition k_set_cur (v : option nat) (k : kernel St) : kernel St :=
  Kernel (k_store k) (k_phys k) (k_sb k) (k_inodes k) (k_files k) (k_pipes k) (k_procs k) v (k_nextpid k) (k_initproc k) (k_ticks k) (k_first k) (k_cons k) (k_uart k).
Definition k_set_nextpid (v : Z) (k : kernel St) : kernel St :=
  Kernel (k_store k) (k_phys k) (k_sb k) (k_inodes k) (k_files k) (k_pipes k) (k_procs k) (k_cur k) v (k_initproc k) (k_ticks k) (k_first k) (k_cons k) (k_uart k).
Definition k_set_initproc (v : option nat) (k : kernel St) : kernel St :=
  Kernel (k_store k) (k_phys k) (k_sb k) (k_inodes k) (k_files k) (k_pipes k) (k_procs k) (k_cur k) (k_nextpid k) v (k_ticks k) (k_first k) (k_cons k) (k_uart k).
Definition k_set_ticks (v : Z) (k : kernel St) : kernel St :=
  Kernel (k_store k) (k_phys k) (k_sb k) (k_inodes k) (k_files k) (k_pipes k) (k_procs k) (k_cur k) (k_nextpid k) (k_initproc k) v (k_first k) (k_cons k) (k_uart k).
Definition k_set_first (v : bool) (k : kernel St) : kernel St :=
  Kernel (k_store k) (k_phys k) (k_sb k) (k_inodes k) (k_files k) (k_pipes k) (k_procs k) (k_cur k) (k_nextpid k) (k_initproc k) (k_ticks k) v (k_cons k) (k_uart k).

Definition k_set_cons (v : cons) (k : kernel St) : kernel St :=
  Kernel (k_store k) (k_phys k) (k_sb k) (k_inodes k) (k_files k) (k_pipes k) (k_procs k) (k_cur k) (k_nextpid k) (k_initproc k) (k_ticks k) (k_first k) v (k_uart k).
Definition k_set_uart (v : uart) (k : kernel St) : kernel St :=
  Kernel (k_store k) (k_phys k) (k_sb k) (k_inodes k) (k_files k) (k_pipes k) (k_procs k) (k_cur k) (k_nextpid k) (k_initproc k) (k_ticks k) (k_first k) (k_cons k) v.

Definition cur_proc (k : kernel St) : option proc := i ← k_cur k; k_procs k !! i.

(** What fs.c sees: the memory, directory and pid of the current process.  A
    null directory is an inode index past the table. *)
#[export] Instance lens_fs : Lens (kernel St) (fstate St umem) := {
  lget k := Fstate (k_store k) (Umem (k_phys k) (from_option p_pagetable 0 (cur_proc k)))
              (k_sb k) (k_inodes k) (default NINODEn (p ← cur_proc k; p_cwd p))
              (from_option p_pid 0 (cur_proc k));
  lput s k := Kernel (fs_store s) (um_phys (fs_user s)) (fs_sb s) (fs_inodes s) (k_files k) (k_pipes k)
                (k_procs k) (k_cur k) (k_nextpid k) (k_initproc k) (k_ticks k) (k_first k) (k_cons k) (k_uart k)
}.

#[export] Instance lens_kmem : Lens (kernel St) kmem := {
  lget := k_phys;
  lput m k := Kernel (k_store k) m (k_sb k) (k_inodes k) (k_files k) (k_pipes k)
                (k_procs k) (k_cur k) (k_nextpid k) (k_initproc k) (k_ticks k) (k_first k) (k_cons k) (k_uart k)
}.

#[export] Instance lens_kstore : Lens (kernel St) St := {
  lget := k_store;
  lput s k := Kernel s (k_phys k) (k_sb k) (k_inodes k) (k_files k) (k_pipes k)
                (k_procs k) (k_cur k) (k_nextpid k) (k_initproc k) (k_ticks k) (k_first k) (k_cons k) (k_uart k)
}.

(** Code of vm.c and kalloc.c, and of fs.c, run by the kernel. *)
Definition on_mem {A} (m : M kmem A) : K A := zoom m.
Definition on_fs {A} (m : M (fstate St umem) A) : K A := zoom m.
Definition kbegin_op `{BlockStore St} : K unit := zoom bs_begin_op.
Definition kend_op `{BlockStore St} : K unit := zoom bs_end_op.

Definition getp (i : nat) : K proc := let* o := gets (fun k => k_procs k !! i) in the o.
Definition upd_proc (i : nat) (f : proc -> proc) (k : kernel St) : kernel St :=
  k_set_procs (alter f i (k_procs k)) k.
Definition setp (i : nat) (f : proc -> proc) : K unit := modify (upd_proc i f).

Definition getf (i : nat) : K file := let* o := gets (fun k => k_files k !! i) in the o.
Definition upd_file (i : nat) (f : file -> file) (k : kernel St) : kernel St :=
  k_set_files (alter f i (k_files k)) k.
Definition setf (i : nat) (f : file -> file) : K unit := modify (upd_file i f).

Definition getpipe (a : Z) : K pipe := let* o := gets (fun k => k_pipes k !! a) in the o.
Definition setpipe (a : Z) (f : pipe -> pipe) : K unit :=
  modify (fun k => k_set_pipes (alter f a (k_pipes k)) k).

Definition read_inode (ip : option nat) : K inode := let* i := the ip in on_fs (geti i).

(** ** kernel/proc.c *)

Definition myproc : K nat := let* o := gets k_cur in the o.

Definition setkilled (p : nat) : K unit :=
  acquire (LProc p) ;; setp p (p_set_killed true) ;; release (LProc p).

Definition killed (p : nat) : K bool :=
  acquire (LProc p) ;;
  let* x := getp p in
  release (LProc p) ;;
  ret (p_killed x).

Definition wakeup (c : chan) : K unit :=
  for_each (seq 0 NPROCn) (fun p =>
    let* me := gets k_cur in
    if bool_decide (me = Some p) then ret tt else
    acquire (LProc p) ;;
    let* x := getp p in
    (if bool_decide (p_state x = SLEEPING) && bool_decide (p_chan x = Some c)
     then setp p (p_set_state RUNNABLE) else ret tt) ;;
    release (LProc p)).

(** One turn of kill()'s loop. *)
Definition kill_step (pid : Z) (p : nat) : K (nat + Z) :=
  if negb (p <? NPROCn)%nat then ret (inr (-1)) else
  acquire (LProc p) ;;
  let* x := getp p in
  if p_pid x =? pid then
    setp p (p_set_killed true) ;;
    (if bool_decide (p_state x = SLEEPING) then setp p (p_set_state RUNNABLE) else ret tt) ;;
    release (LProc p) ;;
    ret (inr 0)
  else
    release (LProc p) ;;
    ret (inl (S p)).

Definition kill (pid : Z) : K Z := iter (S (S NPROCn)) (kill_step pid) 0%nat.

(** ** Trap frame fields *)

Definition tf_get (p : nat) (off : Z) : K Z :=
  let* x := getp p in on_mem (rd64 (p_trapframe x + off)).
Definition tf_set (p : nat) (off v : Z) : K unit :=
  let* x := getp p in on_mem (wr64 (p_trapframe x + off) v).

(** Copying to and from the current process's memory. *)
Definition copyout_cur (va : Z) (bs : list Z) : K Z :=
  let* p := myproc in let* x := getp p in on_mem (copyout (p_pagetable x) va bs).
Definition copyin_cur (va : Z) (n : nat) : K (Z * list Z) :=
  let* p := myproc in let* x := getp p in on_mem (copyin (p_pagetable x) va n).
End Kernel.
