(* ===== verification/Sched.v ===== *)
(** * Scheduling, sleep and wakeup on several CPUs (kernel/proc.c)

    scheduler(), sched(), yield(), sleep(), wakeup(), kill() and the end of exit()
    as the statements of a multiprocessor: each CPU is at a point of the scheduler
    loop or runs a process that is at a point of one of these functions, and each
    turn executes one statement of one CPU.  Processes use condition variables
    the way the kernel does: under a lock, [while(!cond) sleep(chan, lk)] on one
    side, and setting the condition and calling wakeup(chan) on the other. *)

From S2P Require Import Prelude Machine Kernel Spin.

Open Scope nat_scope.

(** ** Where a process is *)

(** Condition variable [v] has its lock, its channel and its condition. *)
Inductive point :=
  | User                         (* in user space or elsewhere, no lock held *)
  | CAcquire (v : nat)           (* at acquire(lk), to wait for the condition *)
  | CLock (v : nat)              (* at acquire(lk), to change it *)
  | CTest (v : nat)              (* lk held, at while(!cond) *)
  | CHold (v : nat)              (* lk held, past the loop *)
  | CRelease (v : nat)           (* at release(lk) *)
  | ZLock (v : nat)              (* sleep(): at acquire(&p->lock) *)
  | ZRelease (v : nat)           (* at release(lk) *)
  | ZSet (v : nat)               (* at p->chan = chan; p->state = SLEEPING *)
  | ZSched (v : nat)             (* at sched() *)
  | ZWoken (v : nat)             (* back from sched(), at p->chan = 0 *)
  | ZUnlock (v : nat)            (* at release(&p->lock) *)
  | WLock (v i : nat)            (* wakeup(): at acquire(&proc[i].lock) *)
  | WCheck (v i : nat)           (* at the test of proc[i] *)
  | WUnlock (v i : nat)          (* at release(&proc[i].lock) *)
  | KLock (i : nat)              (* kill(): at acquire(&proc[i].lock) *)
  | KCheck (i : nat)             (* the pid matches: at the test of the state *)
  | KUnlock (i : nat)            (* at release(&proc[i].lock) *)
  | YLock                        (* yield(): at acquire(&p->lock) *)
  | YSet                         (* at p->state = RUNNABLE *)
  | YSched                       (* at sched() *)
  | YUnlock                      (* back from sched(), or in forkret(): at release(&p->lock) *)
  | XLock                        (* exit(): at acquire(&p->lock) *)
  | XSet                         (* at p->state = ZOMBIE *)
  | XSched.                      (* at sched() *)

(** Where a CPU is. *)
Inductive cpu_pc :=
  | SLock (i : nat)              (* scheduler(): at acquire(&proc[i].lock) *)
  | SCheck (i : nat)             (* at if(p->state == RUNNABLE) *)
  | SBack (i : nat)              (* back from swtch(), at c->proc = 0 *)
  | SUnlock (i : nat)            (* at release(&p->lock) *)
  | On (p : nat) (k : point).    (* running process p *)

Record sched := Sched {
  s_state : nat -> procstate;
  s_chan : nat -> option nat;
  s_lock : nat -> option nat;    (* the CPU that holds p->lock *)
  s_ctx : nat -> point;          (* where swtch(..., &p->context) resumes *)
  s_lk : nat -> option nat;      (* the CPU that holds lk of the variable *)
  s_cond : nat -> bool;
  s_pc : nat -> cpu_pc
}.

Definition set_state p x s := Sched (upd (s_state s) p x) (s_chan s) (s_lock s) (s_ctx s) (s_lk s) (s_cond s) (s_pc s).
Definition set_chan p x s := Sched (s_state s) (upd (s_chan s) p x) (s_lock s) (s_ctx s) (s_lk s) (s_cond s) (s_pc s).
Definition set_plock p x s := Sched (s_state s) (s_chan s) (upd (s_lock s) p x) (s_ctx s) (s_lk s) (s_cond s) (s_pc s).
Definition set_ctx p x s := Sched (s_state s) (s_chan s) (s_lock s) (upd (s_ctx s) p x) (s_lk s) (s_cond s) (s_pc s).
Definition set_lk v x s := Sched (s_state s) (s_chan s) (s_lock s) (s_ctx s) (upd (s_lk s) v x) (s_cond s) (s_pc s).
Definition set_cond v x s := Sched (s_state s) (s_chan s) (s_lock s) (s_ctx s) (s_lk s) (upd (s_cond s) v x) (s_pc s).
Definition goto c x s := Sched (s_state s) (s_chan s) (s_lock s) (s_ctx s) (s_lk s) (s_cond s) (upd (s_pc s) c x).

(** ** One statement *)

(** Taking a lock is a turn only when the lock is free: otherwise the CPU spins. *)
Definition take_plock (c i : nat) (s : sched) : option sched :=
  match s_lock s i with None => Some (set_plock i (Some c) s) | Some _ => None end.
Definition take_lk (c v : nat) (s : sched) : option sched :=
  match s_lk s v with None => Some (set_lk v (Some c) s) | Some _ => None end.

Definition next_proc (i : nat) : nat := if (S i <? NPROCn) then S i else 0.

Definition scheduler_turn (c : nat) (x : cpu_pc) (s : sched) : option sched :=
  match x with
  | SLock i => s ← take_plock c i s; Some (goto c (SCheck i) s)
  | SCheck i => if decide (s_state s i = RUNNABLE)
                then Some (goto c (On i (s_ctx s i)) (set_state i RUNNING s))
                else Some (goto c (SUnlock i) s)
  | SBack i => Some (goto c (SUnlock i) s)
  | SUnlock i => Some (goto c (SLock (next_proc i)) (set_plock i None s))
  | On _ _ => None
  end.

(** sched(): swtch() to this CPU's scheduler, to be resumed at [k]. *)
Definition sched_turn (c p : nat) (k : point) (s : sched) : sched := goto c (SBack p) (set_ctx p k s).

Definition yield_turn (c p : nat) (k : point) (s : sched) : option sched :=
  match k with
  | YLock => s ← take_plock c p s; Some (goto c (On p YSet) s)
  | YSet => Some (goto c (On p YSched) (set_state p RUNNABLE s))
  | YSched => Some (sched_turn c p YUnlock s)
  | YUnlock => Some (goto c (On p User) (set_plock p None s))
  | _ => None
  end.

Definition sleep_turn (c p : nat) (k : point) (s : sched) : option sched :=
  match k with
  | ZLock v => s ← take_plock c p s; Some (goto c (On p (ZRelease v)) s)
  | ZRelease v => Some (goto c (On p (ZSet v)) (set_lk v None s))
  | ZSet v => Some (goto c (On p (ZSched v)) (set_state p SLEEPING (set_chan p (Some v) s)))
  | ZSched v => Some (sched_turn c p (ZWoken v) s)
  | ZWoken v => Some (goto c (On p (ZUnlock v)) (set_chan p None s))
  | ZUnlock v => Some (goto c (On p (CAcquire v)) (set_plock p None s))
  | _ => None
  end.

Definition wakeup_turn (c p : nat) (k : point) (s : sched) : option sched :=
  match k with
  | WLock v i => if NPROCn <=? i then Some (goto c (On p (CHold v)) s)
                 else if decide (i = p) then Some (goto c (On p (WLock v (S i))) s)
                 else s ← take_plock c i s; Some (goto c (On p (WCheck v i)) s)
  | WCheck v i => Some (goto c (On p (WUnlock v i))
                    (if decide (s_state s i = SLEEPING /\ s_chan s i = Some v) then set_state i RUNNABLE s else s))
  | WUnlock v i => Some (goto c (On p (WLock v (S i))) (set_plock i None s))
  | _ => None
  end.

Definition kill_turn (c p : nat) (k : point) (s : sched) : option sched :=
  match k with
  | KLock i => s ← take_plock c i s; Some (goto c (On p (KCheck i)) s)
  | KCheck i => Some (goto c (On p (KUnlock i)) (if decide (s_state s i = SLEEPING) then set_state i RUNNABLE s else s))
  | KUnlock i => Some (goto c (On p User) (set_plock i None s))
  | _ => None
  end.

Definition exit_turn (c p : nat) (k : point) (s : sched) : option sched :=
  match k with
  | XLock => s ← take_plock c p s; Some (goto c (On p XSet) s)
  | XSet => Some (goto c (On p XSched) (set_state p ZOMBIE s))
  | XSched => Some (sched_turn c p XSched s)
  | _ => None
  end.

(** A process with the lock of a condition variable. *)
Definition client_turn (c p : nat) (k : point) (s : sched) : option sched :=
  match k with
  | CAcquire v => s ← take_lk c v s; Some (goto c (On p (CTest v)) s)
  | CLock v => s ← take_lk c v s; Some (goto c (On p (CHold v)) s)
  | CTest v => Some (goto c (On p (if s_cond s v then CHold v else ZLock v)) s)
  | CRelease v => Some (goto c (On p User) (set_lk v None s))
  | _ => None
  end.

Definition proc_turn (c p : nat) (k : point) (s : sched) : option sched :=
  match k with
  | YLock | YSet | YSched | YUnlock => yield_turn c p k s
  | ZLock _ | ZRelease _ | ZSet _ | ZSched _ | ZWoken _ | ZUnlock _ => sleep_turn c p k s
  | WLock _ _ | WCheck _ _ | WUnlock _ _ => wakeup_turn c p k s
  | KLock _ | KCheck _ | KUnlock _ => kill_turn c p k s
  | XLock | XSet | XSched => exit_turn c p k s
  | CAcquire _ | CLock _ | CTest _ | CRelease _ => client_turn c p k s
  | User | CHold _ => None
  end.

Definition sturn (c : nat) (s : sched) : option sched :=
  match s_pc s c with
  | On p k => proc_turn c p k s
  | x => scheduler_turn c x s
  end.

(** ** Interleavings

    Besides the statements, a process that holds no lock may start to yield, to
    exit, to kill or to use a condition variable, and one that holds the lock of
    a condition variable may signal it, clear it or let it go. *)
Inductive sched_step : sched -> sched -> Prop :=
  | st_turn c s s' : sturn c s = Some s' -> sched_step s s'
  | st_enter c p k s :
      s_pc s c = On p User -> k ∈ [YLock; XLock] \/ (exists v, k = CAcquire v \/ k = CLock v) \/ (exists i, i < NPROCn /\ k = KLock i) ->
      sched_step s (goto c (On p k) s)
  | st_signal c p v s :
      s_pc s c = On p (CHold v) -> sched_step s (goto c (On p (WLock v 0)) (set_cond v true s))
  | st_clear c p v s :
      s_pc s c = On p (CHold v) -> sched_step s (set_cond v false s)
  | st_done c p v s :
      s_pc s c = On p (CHold v) -> sched_step s (goto c (On p (CRelease v)) s).

Inductive sched_reach (s0 : sched) : sched -> Prop :=
  | re_start : sched_reach s0 s0
  | re_step s s' : sched_reach s0 s -> sched_step s s' -> sched_reach s0 s'.

(** Every CPU is about to enter the scheduler and the first [n] processes are new:
    runnable, to start in forkret(). *)
Definition sched_init (n : nat) : sched :=
  Sched (fun p => if decide (p < n /\ p < NPROCn) then RUNNABLE else UNUSED) (fun _ => None) (fun _ => None)
    (fun _ => YUnlock) (fun _ => None) (fun _ => false) (fun _ => SLock 0).

(** ** What a CPU holds, by where it is *)

Definition holds_plock (x : cpu_pc) (i : nat) : bool :=
  match x with
  | SLock _ => false
  | SCheck j | SBack j | SUnlock j => bool_decide (j = i)
  | On p (YSet | YSched | YUnlock | ZRelease _ | ZSet _ | ZSched _ | ZWoken _ | ZUnlock _ | XSet | XSched) => bool_decide (p = i)
  | On _ (WCheck _ j | WUnlock _ j | KCheck j | KUnlock j) => bool_decide (j = i)
  | On _ _ => false
  end.

Definition holds_lk (x : cpu_pc) (v : nat) : bool :=
  match x with
  | On _ (CTest u | CHold u | CRelease u | ZLock u | ZRelease u | WLock u _ | WCheck u _ | WUnlock u _) => bool_decide (u = v)
  | _ => false
  end.

(** The state of a process that is on a CPU. *)
Definition state_at (k : point) : procstate :=
  match k with YSched => RUNNABLE | ZSched _ => SLEEPING | XSched => ZOMBIE | _ => RUNNING end.

(** A wakeup of [v] that has yet to examine process [p]. *)
Definition will_wake (x : cpu_pc) (v p : nat) : Prop :=
  match x with
  | On _ (WLock u i) | On _ (WCheck u i) => u = v /\ i <= p
  | On _ (WUnlock u i) => u = v /\ i < p
  | _ => False
  end.

Definition committed (s : sched) (p v : nat) : Prop :=
  (exists c, s_pc s c = On p (ZSet v)) \/ (s_state s p = SLEEPING /\ s_chan s p = Some v).

Record sched_ok (s : sched) : Prop := SchedOk {
  ok_plock i c : s_lock s i = Some c <-> holds_plock (s_pc s c) i = true;
  ok_lk v c : s_lk s v = Some c <-> holds_lk (s_pc s c) v = true;
  ok_one c c' p k k' : s_pc s c = On p k -> s_pc s c' = On p k' -> c = c';
  ok_on c p k : s_pc s c = On p k -> s_state s p = state_at k /\ p < NPROCn;
  ok_off p : (forall c k, s_pc s c <> On p k) ->
             s_state s p <> RUNNING /\ (s_state s p <> UNUSED -> p < NPROCn) /\
             (s_state s p = RUNNABLE -> s_ctx s p = YUnlock \/ exists v, s_ctx s p = ZWoken v) /\
             (s_state s p = SLEEPING -> exists v, s_chan s p = Some v /\ s_ctx s p = ZWoken v);
  ok_zsched c p v : s_pc s c = On p (ZSched v) -> s_chan s p = Some v;
  ok_test c p v : s_pc s c = On p (ZLock v) \/ s_pc s c = On p (ZRelease v) -> s_cond s v = false;
  ok_scan c i : s_pc s c = SLock i \/ s_pc s c = SCheck i \/ s_pc s c = SBack i \/ s_pc s c = SUnlock i -> i < NPROCn;
  ok_wake p v : s_cond s v = true -> committed s p v -> exists c, will_wake (s_pc s c) v p
}.

(** ** Locks

    CPU [c] moves from [s_pc s c] to [x], taking and giving back what it must. *)

Definition lock_moves (holds : cpu_pc -> nat -> bool) (c : nat) (lock : nat -> option nat) (x x' : cpu_pc) (lock' : nat -> option nat) : Prop :=
  forall i, lock' i = (if holds x' i then Some c else if holds x i then None else lock i) /\
            (holds x' i = true -> holds x i = false -> lock i = None).

Lemma locks_follow (holds : cpu_pc -> nat -> bool) c lock lock' pc x :
  (forall i c', lock i = Some c' <-> holds (pc c') i = true) ->
  lock_moves holds c lock (pc c) x lock' ->
  forall i c', lock' i = Some c' <-> holds (upd pc c x c') i = true.
Proof.
  intros Hl Hm i c'. destruct (Hm i) as [-> Hfree]. destruct (decide (c' = c)) as [->|Hne].
  - rewrite upd_eq. destruct (holds x i) eqn:Ex; [done|]. destruct (holds (pc c) i) eqn:Ec; [done|].
    rewrite Hl. rewrite Ec. done.
  - rewrite upd_ne by done. destruct (holds x i) eqn:Ex.
    + split; [congruence|]. intros Hc'. apply Hl in Hc'. destruct (holds (pc c) i) eqn:Ec.
      * apply Hl in Ec. congruence.
      * rewrite Hfree in Hc' by done. done.
    + destruct (holds (pc c) i) eqn:Ec; [|apply Hl]. split; [done|]. intros Hc'. apply Hl in Hc', Ec. congruence.
Qed.

Lemma lock_moves_same holds c lock x x' : (forall i, holds x' i = holds x i) ->
  (forall i, holds x i = true -> lock i = Some c) -> lock_moves holds c lock x x' lock.
Proof.
  intros He Hc i. rewrite He. split; [|congruence]. destruct (holds x i) eqn:E; [by rewrite Hc|done].
Qed.

(** ** A process on a CPU takes a step *)

Section Move.
Variables (s s' : sched) (c p : nat) (k k' : point).
Hypothesis Hok : sched_ok s.
Hypothesis Hpc : s_pc s c = On p k.

Lemma other_cpu c' q k'' : c' <> c -> s_pc s c' = On q k'' -> q <> p.
Proof. intros Hne Hq ->. apply Hne. by eapply (ok_one _ Hok). Qed.

Lemma plock_excl c' i : holds_plock (On p k) i = true -> holds_plock (s_pc s c') i = true -> c' = c.
Proof.
  rewrite <- Hpc. intros H1 H2. apply (ok_plock _ Hok) in H1, H2. congruence.
Qed.

Lemma lk_excl c' v : holds_lk (On p k) v = true -> holds_lk (s_pc s c') v = true -> c' = c.
Proof.
  rewrite <- Hpc. intros H1 H2. apply (ok_lk _ Hok) in H1, H2. congruence.
Qed.

Lemma on_move :
  s_pc s' = upd (s_pc s) c (On p k') ->
  lock_moves holds_plock c (s_lock s) (On p k) (On p k') (s_lock s') ->
  lock_moves holds_lk c (s_lk s) (On p k) (On p k') (s_lk s') ->
  s_ctx s' = s_ctx s -> s_state s' p = state_at k' ->
  (forall q, q <> p -> s_state s' q = s_state s q \/
     s_state s q = SLEEPING /\ s_state s' q = RUNNABLE /\ holds_plock (On p k) q = true) ->
  (forall q, q <> p -> s_chan s' q = s_chan s q) ->
  (forall v, k' = ZSched v -> s_chan s' p = Some v) ->
  (forall v, s_cond s' v = s_cond s v \/ holds_lk (On p k) v = true) ->
  (forall v, k' = ZLock v \/ k' = ZRelease v -> s_cond s' v = false) ->
  (forall q v, s_cond s' v = true -> committed s' q v ->
     will_wake (On p k') v q \/
     s_cond s v = true /\ committed s q v /\ (will_wake (On p k) v q -> will_wake (On p k') v q)) ->
  sched_ok s'.
Proof.
  intros Epc Hl Hlk Hctx Hst Hoth Hch Hz Hco Ht Hw.
  assert (forall c' x, c' <> c -> s_pc s' c' = x <-> s_pc s c' = x) as Hsame by (intros; rewrite Epc, upd_ne by done; done).
  assert (s_pc s' c = On p k') as Hpc' by (rewrite Epc; apply upd_eq).
  assert (forall c' q k'', s_pc s' c' = On q k'' -> c' = c /\ q = p /\ k'' = k' \/ c' <> c /\ q <> p /\ s_pc s c' = On q k'') as Hon.
  { intros c' q k'' Hq. destruct (decide (c' = c)) as [->|Hne].
    { left. rewrite Hpc' in Hq. by injection Hq as <- <-. }
    right.
    apply Hsame in Hq; [|done]. split; [done|]. split; [|done]. by eapply other_cpu. }
  split.
  - rewrite Epc. apply (locks_follow _ c (s_lock s)); [apply (ok_plock _ Hok)|]. by rewrite Hpc.
  - rewrite Epc. apply (locks_follow _ c (s_lk s)); [apply (ok_lk _ Hok)|]. by rewrite Hpc.
  - intros c1 c2 q k1 k2 H1 H2.
    destruct (Hon _ _ _ H1) as [(-> & -> & _)|(N1 & Q1 & P1)], (Hon _ _ _ H2) as [(-> & ? & _)|(N2 & Q2 & P2)]; try done.
    by eapply (ok_one _ Hok).
  - intros c' q k'' Hq. destruct (Hon _ _ _ Hq) as [(-> & -> & ->)|(Hne & Hqp & Hq')].
    + split; [done|]. by eapply (ok_on _ Hok).
    + destruct (ok_on _ Hok _ _ _ Hq') as [Hs Hb]. split; [|done]. destruct (Hoth q Hqp) as [->|(Hsl & _ & Hh)]; [done|].
      exfalso. apply Hne. apply (plock_excl c' q Hh). rewrite Hq'. destruct k''; cbn in *; try congruence.
      by apply bool_decide_eq_true_2.
  - intros q Hq. assert (q <> p) as Hqp by (intros ->; by apply (Hq c k')).
    assert (forall c' k'', s_pc s c' <> On q k'') as Hq'.
    { intros c' k'' Hc'. apply (Hq c' k''). apply Hsame; [|done]. intros ->. congruence. }
    destruct (ok_off _ Hok q Hq') as (O1 & O2 & O3 & O4). rewrite Hctx, (Hch q Hqp).
    destruct (Hoth q Hqp) as [->|(Hsl & -> & _)]; [done|]. split; [done|]. split; [intros _; apply O2; congruence|].
    split; [|done]. intros _. right. destruct (O4 Hsl) as (v & _ & ?). eauto.
  - intros c' q v Hq. destruct (Hon _ _ _ Hq) as [(-> & -> & E)|(Hne & Hqp & Hq')]; [by apply Hz|].
    rewrite Hch by done. by eapply (ok_zsched _ Hok).
  - intros c' q v Hq. assert (exists k'', s_pc s' c' = On q k'' /\ (k'' = ZLock v \/ k'' = ZRelease v)) as (k'' & Hk & Hkk)
      by (destruct Hq; eauto).
    destruct (Hon _ _ _ Hk) as [(-> & -> & ->)|(Hne & Hqp & Hq')]; [by apply Ht|].
    destruct (Hco v) as [->|Hh]; [apply (ok_test _ Hok c' q); destruct Hkk as [-> | ->]; auto|].
    exfalso. apply Hne, (lk_excl c' v Hh). rewrite Hq'. destruct Hkk as [-> | ->]; by apply bool_decide_eq_true_2.
  - intros c' i Hi. assert (c' <> c) as Hne by (intros ->; rewrite Hpc' in Hi; destruct Hi as [?|[?|[?|?]]]; done).
    apply (ok_scan _ Hok c'). by rewrite Epc, upd_ne in Hi.
  - intros q v Hc Hcm. destruct (Hw q v Hc Hcm) as [Hww|(Hc0 & Hcm0 & Hkeep)]; [exists c; by rewrite Hpc'|].
    destruct (ok_wake _ Hok q v Hc0 Hcm0) as [c' Hc']. destruct (decide (c' = c)) as [->|Hne].
    + exists c. rewrite Hpc'. rewrite Hpc in Hc'. auto.
    + exists c'. by rewrite Epc, upd_ne.
Qed.
End Move.

Lemma moves_take (holds : cpu_pc -> nat -> bool) c lock x x' i :
  lock i = None -> (forall j, holds x' j = holds x j || bool_decide (j = i)) ->
  (forall j, holds x j = true -> lock j = Some c) -> lock_moves holds c lock x x' (upd lock i (Some c)).
Proof.
  intros Hi Hx Hc j. rewrite Hx. unfold upd. destruct (holds x j) eqn:E; cbn.
  - rewrite (Hc j E). split; [by case_decide|done].
  - split; repeat case_decide; repeat case_bool_decide; naive_solver.
Qed.

Lemma moves_give (holds : cpu_pc -> nat -> bool) c lock x x' i :
  holds x i = true -> (forall j, holds x' j = holds x j && negb (bool_decide (j = i))) ->
  (forall j, holds x j = true -> lock j = Some c) -> lock_moves holds c lock x x' (upd lock i None).
Proof.
  intros Hi Hx Hc j. rewrite Hx. unfold upd. destruct (holds x j) eqn:E; cbn.
  - rewrite (Hc j E). split; repeat case_decide; repeat case_bool_decide; naive_solver.
  - split; [|done]. case_decide; [congruence|done].
Qed.

Section Moves.
Variables (s : sched) (c : nat).
Hypothesis Hok : sched_ok s.

Lemma mine_plock x i : s_pc s c = x -> holds_plock x i = true -> s_lock s i = Some c.
Proof. intros <-. apply (ok_plock _ Hok). Qed.
Lemma mine_lk x v : s_pc s c = x -> holds_lk x v = true -> s_lk s v = Some c.
Proof. intros <-. apply (ok_lk _ Hok). Qed.

(** The scheduler takes a step without switching. *)
Lemma scheduler_move x x' lock' :
  s_pc s c = x -> (forall q k, x <> On q k) -> (forall q k, x' <> On q k) ->
  lock_moves holds_plock c (s_lock s) x x' lock' ->
  (forall i, x' = SLock i \/ x' = SCheck i \/ x' = SBack i \/ x' = SUnlock i -> i < NPROCn) ->
  sched_ok (Sched (s_state s) (s_chan s) lock' (s_ctx s) (s_lk s) (s_cond s) (upd (s_pc s) c x')).
Proof.
  intros Hpc Hx Hx' Hl Hn. set (s' := Sched _ _ _ _ _ _ _).
  assert (forall c' q k, s_pc s' c' = On q k <-> s_pc s c' = On q k) as Hon.
  { intros c' q k. cbn. destruct (decide (c' = c)) as [->|Hne]; [|by rewrite upd_ne]. rewrite upd_eq, Hpc.
    specialize (Hx q k). specialize (Hx' q k). tauto. }
  split.
  - cbn. apply (locks_follow _ c (s_lock s)); [apply (ok_plock _ Hok)|]. by rewrite Hpc.
  - cbn. apply (locks_follow _ c (s_lk s)); [apply (ok_lk _ Hok)|]. rewrite Hpc.
    apply lock_moves_same; [|intros i Hi; by eapply mine_lk].
    intros i. destruct x, x'; try done; exfalso; [by eapply Hx'|by eapply Hx'|by eapply Hx'|by eapply Hx'|by eapply Hx..].
  - intros c1 c2 q k1 k2 H1 H2. apply Hon in H1, H2. by eapply (ok_one _ Hok).
  - intros c' q k H1. apply Hon in H1. by eapply (ok_on _ Hok).
  - intros q Hq. apply (ok_off _ Hok). intros c' k Hc. apply (Hq c' k). by apply Hon.
  - intros c' q v H1. apply Hon in H1. by eapply (ok_zsched _ Hok).
  - intros c' q v H1. apply (ok_test _ Hok c' q). rewrite !Hon in H1. done.
  - intros c' i Hi. cbn in Hi. destruct (decide (c' = c)) as [->|Hne]; [rewrite upd_eq in Hi; by apply Hn|].
    rewrite upd_ne in Hi by done. by eapply (ok_scan _ Hok).
  - intros q v Hc Hcm. destruct (ok_wake _ Hok q v Hc) as [c' Hc'].
    { destruct Hcm as [[c' Hc']|?]; [left; exists c'; by apply Hon|by right]. }
    exists c'. cbn. destruct (decide (c' = c)) as [->|Hne]; [|by rewrite upd_ne]. rewrite Hpc in Hc'. destruct x; try done.
    exfalso. by eapply Hx.
Qed.

(** A process leaves its CPU in sched(). *)
Lemma switch_out p k k' :
  s_pc s c = On p k ->
  (k = YSched /\ k' = YUnlock) \/ (exists v, k = ZSched v /\ k' = ZWoken v) \/ (k = XSched /\ k' = XSched) ->
  sched_ok (sched_turn c p k' s).
Proof.
  intros Hpc Hk. set (s' := sched_turn c p k' s).
  assert (forall c' q k'', s_pc s' c' = On q k'' <-> s_pc s c' = On q k'' /\ c' <> c) as Hon.
  { intros c' q k''. cbn. destruct (decide (c' = c)) as [->|Hne]; [rewrite upd_eq; naive_solver|]. rewrite upd_ne by done. tauto. }
  assert (forall i, holds_plock (SBack p) i = holds_plock (On p k) i) as Hh.
  { intros i. destruct Hk as [[-> ->]|[(v & -> & ->)|[-> ->]]]; done. }
  destruct (ok_on _ Hok _ _ _ Hpc) as [Hst Hp].
  split.
  - cbn. apply (locks_follow _ c (s_lock s)); [apply (ok_plock _ Hok)|]. rewrite Hpc.
    apply lock_moves_same; [done|intros i Hi; by eapply mine_plock].
  - cbn. apply (locks_follow _ c (s_lk s)); [apply (ok_lk _ Hok)|]. rewrite Hpc.
    apply lock_moves_same; [|intros i Hi; by eapply mine_lk].
    intros i. destruct Hk as [[-> ->]|[(v & -> & ->)|[-> ->]]]; done.
  - intros c1 c2 q k1 k2 H1 H2. apply Hon in H1 as [H1 _], H2 as [H2 _]. by eapply (ok_one _ Hok).
  - intros c' q k'' H1. apply Hon in H1 as [H1 _]. by eapply (ok_on _ Hok).
  - intros q Hq. cbn. destruct (decide (q = p)) as [->|Hne].
    + rewrite upd_eq, Hst. destruct Hk as [[-> ->]|[(v & -> & ->)|[-> ->]]]; cbn; (split; [done|]); (split; [done|]);
        (split; [auto|]); try done. intros _. exists v. split; [|done]. by eapply (ok_zsched _ Hok).
    + rewrite upd_ne by done. apply (ok_off _ Hok). intros c' k'' Hc. apply (Hq c' k''). apply Hon. split; [done|].
      intros ->. congruence.
  - intros c' q v H1. apply Hon in H1 as [H1 _]. by eapply (ok_zsched _ Hok).
  - intros c' q v H1. apply (ok_test _ Hok c' q). rewrite !Hon in H1. tauto.
  - intros c' i Hi. cbn in Hi. destruct (decide (c' = c)) as [->|Hne].
    + rewrite upd_eq in Hi. destruct Hi as [?|[?|[Hi|?]]]; try done. by injection Hi as <-.
    + rewrite upd_ne in Hi by done. by eapply (ok_scan _ Hok).
  - intros q v Hc Hcm. destruct (ok_wake _ Hok q v Hc) as [c' Hc'].
    { destruct Hcm as [[c' Hc']|?]; [left; exists c'; by apply Hon|by right]. }
    exists c'. cbn. destruct (decide (c' = c)) as [->|Hne]; [|by rewrite upd_ne]. rewrite Hpc in Hc'.
    destruct Hk as [[-> ->]|[(u & -> & ->)|[-> ->]]]; done.
Qed.

(** The scheduler resumes a runnable process. *)
Lemma switch_in i :
  s_pc s c = SCheck i -> s_state s i = RUNNABLE ->
  sched_ok (goto c (On i (s_ctx s i)) (set_state i RUNNING s)).
Proof.
  intros Hpc Hst. set (s' := goto _ _ _).
  assert (forall c' k, s_pc s c' <> On i k) as Hoff.
  { intros c' k Hc. destruct (ok_on _ Hok _ _ _ Hc) as [Hk _]. rewrite Hst in Hk. destruct k; try done.
    assert (s_lock s i = Some c') as H1 by (apply (ok_plock _ Hok); rewrite Hc; by apply bool_decide_eq_true_2).
    assert (s_lock s i = Some c) as H2 by (apply (ok_plock _ Hok); rewrite Hpc; by apply bool_decide_eq_true_2).
    congruence. }
  destruct (ok_off _ Hok i Hoff) as (_ & Hn & Hctx & _). specialize (Hctx Hst).
  assert (i < NPROCn) as Hi by (apply Hn; congruence).
  assert (s_pc s' c = On i (s_ctx s i)) as Hpc' by (cbn; apply upd_eq).
  assert (forall c' q k, c' <> c -> s_pc s' c' = On q k <-> s_pc s c' = On q k) as Hon by (intros; cbn; rewrite upd_ne by done; done).
  assert (forall c' q k, s_pc s' c' = On q k -> c' = c /\ q = i /\ k = s_ctx s i \/ c' <> c /\ q <> i /\ s_pc s c' = On q k) as Hcase.
  { intros c' q k Hq. destruct (decide (c' = c)) as [->|Hne]; [left; rewrite Hpc' in Hq; by injection Hq as <- <-|].
    right. apply Hon in Hq; [|done]. split; [done|]. split; [|done]. intros ->. by apply Hoff in Hq. }
  assert (forall j, holds_plock (On i (s_ctx s i)) j = holds_plock (SCheck i) j) as Hh by (destruct Hctx as [->|[v ->]]; done).
  assert (forall j, holds_lk (On i (s_ctx s i)) j = holds_lk (SCheck i) j) as Hh' by (destruct Hctx as [->|[v ->]]; done).
  split.
  - cbn. apply (locks_follow _ c (s_lock s)); [apply (ok_plock _ Hok)|]. rewrite Hpc.
    apply lock_moves_same; [done|intros j Hj; by eapply mine_plock].
  - cbn. apply (locks_follow _ c (s_lk s)); [apply (ok_lk _ Hok)|]. rewrite Hpc.
    apply lock_moves_same; [done|intros j Hj; by eapply mine_lk].
  - intros c1 c2 q k1 k2 H1 H2.
    destruct (Hcase _ _ _ H1) as [(-> & -> & _)|(N1 & Q1 & P1)], (Hcase _ _ _ H2) as [(-> & ? & _)|(N2 & Q2 & P2)]; try done.
    by eapply (ok_one _ Hok).
  - intros c' q k Hq. cbn. destruct (Hcase _ _ _ Hq) as [(-> & -> & ->)|(Hne & Hqi & Hq')].
    + rewrite upd_eq. split; [|done]. destruct Hctx as [->|[v ->]]; done.
    + rewrite upd_ne by done. by eapply (ok_on _ Hok).
  - intros q Hq. cbn. destruct (decide (q = i)) as [->|Hne]; [by apply Hq in Hpc'|]. rewrite upd_ne by done.
    apply (ok_off _ Hok). intros c' k Hc. apply (Hq c' k). apply Hon; [|done]. intros ->. congruence.
  - intros c' q v Hq. destruct (Hcase _ _ _ Hq) as [(-> & -> & E)|(_ & _ & Hq')]; [|by eapply (ok_zsched _ Hok)].
    exfalso. destruct Hctx as [?|[? ?]]; congruence.
  - intros c' q v Hq. assert (exists k, s_pc s' c' = On q k /\ (k = ZLock v \/ k = ZRelease v)) as (k & Hk & Hkk) by (destruct Hq; eauto).
    destruct (Hcase _ _ _ Hk) as [(-> & -> & E)|(_ & _ & Hq')].
    + exfalso. destruct Hctx as [?|[? ?]], Hkk; congruence.
    + apply (ok_test _ Hok c' q). destruct Hkk as [<- | <-]; auto.
  - intros c' j Hj. cbn in Hj. destruct (decide (c' = c)) as [->|Hne].
    + rewrite upd_eq in Hj. destruct Hj as [?|[?|[?|?]]]; done.
    + rewrite upd_ne in Hj by done. by eapply (ok_scan _ Hok).
  - intros q v Hc Hcm. destruct (ok_wake _ Hok q v Hc) as [c' Hc'].
    { destruct Hcm as [[c' Hc']|[H1 H2]].
      - destruct (Hcase _ _ _ Hc') as [(_ & _ & E)|(_ & _ & Hq')]; [|left; eauto]. exfalso. destruct Hctx as [?|[? ?]]; congruence.
      - right. cbn in H1, H2. destruct (decide (q = i)) as [->|Hne]; [by rewrite upd_eq in H1|]. by rewrite upd_ne in H1. }
    exists c'. cbn. destruct (decide (c' = c)) as [->|Hne]; [|by rewrite upd_ne]. rewrite Hpc in Hc'. done.
Qed.
End Moves.

(** ** Every statement *)

Ltac holds_tac := intros ?; cbn [holds_plock holds_lk orb andb]; repeat case_bool_decide; subst; try done; congruence.

Section Turns.
Variables (s : sched) (c p : nat) (k : point).
Hypothesis Hok : sched_ok s.
Hypothesis Hpc : s_pc s c = On p k.

(** Only the locks and the point change. *)
Lemma plain_move k' lock' lk' :
  lock_moves holds_plock c (s_lock s) (On p k) (On p k') lock' ->
  lock_moves holds_lk c (s_lk s) (On p k) (On p k') lk' ->
  state_at k' = state_at k -> (forall v, k' <> ZSched v) ->
  (forall v, k' = ZLock v \/ k' = ZRelease v \/ k' = ZSet v -> s_cond s v = false) ->
  (forall q v, q < NPROCn -> committed s q v -> will_wake (On p k) v q -> will_wake (On p k') v q) ->
  sched_ok (Sched (s_state s) (s_chan s) lock' (s_ctx s) lk' (s_cond s) (upd (s_pc s) c (On p k'))).
Proof.
  intros Hl Hlk Hst Hz Ht Hw. destruct (ok_on _ Hok _ _ _ Hpc) as [Hs Hp].
  apply (on_move s _ c p k k' Hok Hpc); cbn; auto.
  - congruence.
  - intros v E. by apply Hz in E.
  - intros v [?|?]; auto.
  - intros q v Hc Hcm. right. split; [done|].
    assert (committed s q v) as Hcm0.
    { destruct Hcm as [[c' Hc']|?]; [|by right]. cbn in Hc'. destruct (decide (c' = c)) as [->|Hne].
      - rewrite upd_eq in Hc'. injection Hc' as <- ->. rewrite Ht in Hc by auto. done.
      - rewrite upd_ne in Hc' by done. left. eauto. }
    split; [done|]. apply Hw; [|done]. destruct Hcm0 as [[c' Hc']|[H1 _]]; [by eapply (ok_on _ Hok)|].
    destruct (decide (q < NPROCn)) as [|Hn]; [done|].
    assert (forall c' k', s_pc s c' <> On q k') as Hoff by (intros c' k0 Hc'; apply Hn; by eapply (ok_on _ Hok)).
    apply (ok_off _ Hok q Hoff). congruence.
Qed.

Lemma plock_same k' : (forall i, holds_plock (On p k') i = holds_plock (On p k) i) ->
  lock_moves holds_plock c (s_lock s) (On p k) (On p k') (s_lock s).
Proof. intros H. apply lock_moves_same; [done|]. intros i Hi. by eapply mine_plock. Qed.
Lemma lk_same k' : (forall i, holds_lk (On p k') i = holds_lk (On p k) i) ->
  lock_moves holds_lk c (s_lk s) (On p k) (On p k') (s_lk s).
Proof. intros H. apply lock_moves_same; [done|]. intros i Hi. by eapply mine_lk. Qed.
Lemma plock_take k' i : s_lock s i = None -> (forall j, holds_plock (On p k') j = holds_plock (On p k) j || bool_decide (j = i)) ->
  lock_moves holds_plock c (s_lock s) (On p k) (On p k') (upd (s_lock s) i (Some c)).
Proof. intros. apply moves_take; [done|done|]. intros j Hj. by eapply mine_plock. Qed.
Lemma plock_give k' i : holds_plock (On p k) i = true ->
  (forall j, holds_plock (On p k') j = holds_plock (On p k) j && negb (bool_decide (j = i))) ->
  lock_moves holds_plock c (s_lock s) (On p k) (On p k') (upd (s_lock s) i None).
Proof. intros. apply moves_give; [done|done|]. intros j Hj. by eapply mine_plock. Qed.
Lemma lk_take k' i : s_lk s i = None -> (forall j, holds_lk (On p k') j = holds_lk (On p k) j || bool_decide (j = i)) ->
  lock_moves holds_lk c (s_lk s) (On p k) (On p k') (upd (s_lk s) i (Some c)).
Proof. intros. apply moves_take; [done|done|]. intros j Hj. by eapply mine_lk. Qed.
Lemma lk_give k' i : holds_lk (On p k) i = true ->
  (forall j, holds_lk (On p k') j = holds_lk (On p k) j && negb (bool_decide (j = i))) ->
  lock_moves holds_lk c (s_lk s) (On p k) (On p k') (upd (s_lk s) i None).
Proof. intros. apply moves_give; [done|done|]. intros j Hj. by eapply mine_lk. Qed.
End Turns.

(** The plain moves: the tactic finds how the locks change. *)
Ltac lock_tac :=
  cbn [s_lock s_lk set_plock set_lk set_state set_chan set_cond goto];
  first [ apply plock_same; [assumption|assumption|holds_tac]
        | apply lk_same; [assumption|assumption|holds_tac]
        | apply plock_take; [assumption|assumption|assumption|holds_tac]
        | apply lk_take; [assumption|assumption|assumption|holds_tac]
        | apply plock_give; [assumption|assumption|by apply bool_decide_eq_true_2|holds_tac]
        | apply lk_give; [assumption|assumption|by apply bool_decide_eq_true_2|holds_tac] ].

Ltac take_tac E :=
  unfold take_plock, take_lk in E;
  repeat match type of E with
  | context [match s_lock ?s ?i with _ => _ end] => destruct (s_lock s i) eqn:?; [done|]
  | context [match s_lk ?s ?i with _ => _ end] => destruct (s_lk s i) eqn:?; [done|]
  end; cbn in E; injection E as <-.

Section States.
Variables (s : sched) (c p : nat) (k : point).
Hypothesis Hok : sched_ok s.
Hypothesis Hpc : s_pc s c = On p k.

(** The process changes its own state, under its lock, to anything but SLEEPING. *)
Lemma own_state_move k' :
  (forall i, holds_plock (On p k') i = holds_plock (On p k) i) -> (forall v, holds_lk (On p k') v = holds_lk (On p k) v) ->
  state_at k' <> SLEEPING -> (forall v, k' <> ZLock v /\ k' <> ZRelease v /\ k' <> ZSet v) ->
  (forall v q, ~ will_wake (On p k) v q) ->
  sched_ok (goto c (On p k') (set_state p (state_at k') s)).
Proof.
  intros Hp Hl Hst Hz Hw. apply (on_move s _ c p k k' Hok Hpc); cbn; auto.
  - by apply plock_same.
  - by apply lk_same.
  - apply upd_eq.
  - intros q Hq. left. by rewrite upd_ne.
  - intros v ->. done.
  - intros v. destruct (Hz v) as (? & ? & _). by intros [?|?].
  - intros q v Hc [[c' Hc']|[H1 H2]]; right; (split; [done|]); (split; [|by intros ?%Hw]).
    + left. cbn in Hc'. destruct (decide (c' = c)) as [->|Hne].
      * rewrite upd_eq in Hc'. injection Hc' as <- E. destruct (Hz v) as (_ & _ & ?). congruence.
      * rewrite upd_ne in Hc' by done. eauto.
    + right. cbn in H1. destruct (decide (q = p)) as [->|Hne]; [by rewrite upd_eq in H1|]. by rewrite upd_ne in H1.
Qed.

(** Process [i], whose lock this CPU holds, is woken or left alone. *)
Lemma wake_move i k' b :
  (forall j, holds_plock (On p k') j = holds_plock (On p k) j) -> (forall v, holds_lk (On p k') v = holds_lk (On p k) v) ->
  holds_plock (On p k) i = true -> state_at k = RUNNING -> state_at k' = RUNNING ->
  (forall v, k' <> ZLock v /\ k' <> ZRelease v /\ k' <> ZSet v) ->
  (b = true -> s_state s i = SLEEPING) ->
  (forall q v, committed (if b then set_state i RUNNABLE s else s) q v -> will_wake (On p k) v q -> will_wake (On p k') v q) ->
  sched_ok (goto c (On p k') (if b : bool then set_state i RUNNABLE s else s)).
Proof.
  intros Hp Hl Hi Hst Hst' Hz Hb Hw. destruct (ok_on _ Hok _ _ _ Hpc) as [Hs _]. rewrite Hst in Hs.
  assert (b = true -> i <> p) as Hip by (intros Et ->; rewrite (Hb Et) in Hs; done).
  assert (forall (A : Type) (f : sched -> A), f (set_state i RUNNABLE s) = f s -> f (if b then set_state i RUNNABLE s else s) = f s) as Hif
    by (intros; by destruct b).
  apply (on_move s _ c p k k' Hok Hpc); cbn.
  - by rewrite (Hif _ s_pc).
  - rewrite (Hif _ s_lock) by done. by apply plock_same.
  - rewrite (Hif _ s_lk) by done. by apply lk_same.
  - by apply (Hif _ s_ctx).
  - rewrite Hst'. destruct b; [|done]. cbn. rewrite upd_ne; [done|]. intros E. by apply Hip.
  - intros q Hq. destruct b; [|by left]. cbn. destruct (decide (q = i)) as [->|Hne]; [|left; by rewrite upd_ne].
    right. rewrite upd_eq. auto.
  - intros q Hq. by rewrite (Hif _ s_chan).
  - intros v E. rewrite E in Hst'. done.
  - intros v. left. by rewrite (Hif _ s_cond).
  - intros v. destruct (Hz v) as (? & ? & _). by intros [?|?].
  - intros q v Hc Hcm. rewrite (Hif _ s_cond) in Hc by done.
    assert (committed (if b then set_state i RUNNABLE s else s) q v) as Hcm'.
    { destruct Hcm as [[c' Hc']|?]; [|by right]. cbn in Hc'. rewrite (Hif _ s_pc) in Hc' by done.
      destruct (decide (c' = c)) as [->|Hne].
      - rewrite upd_eq in Hc'. injection Hc' as <- E. destruct (Hz v) as (_ & _ & ?). congruence.
      - rewrite upd_ne in Hc' by done. left. exists c'. by rewrite (Hif _ s_pc). }
    right. split; [done|]. split; [|by apply Hw].
    destruct b; [|done]. destruct Hcm' as [?|[H1 H2]]; [by left|]. right. split; [|done]. cbn in H1.
    destruct (decide (q = i)) as [->|Hne]; [by rewrite upd_eq in H1|]. by rewrite upd_ne in H1.
Qed.
(** The lock of process [i] keeps every other CPU out of [i]'s sleep(). *)
Lemma checked_not_setting i v c' :
  holds_plock (On p k) i = true -> (forall u, k <> ZSet u) -> s_pc s c' <> On i (ZSet v).
Proof.
  intros Hh Hk Hc. assert (c' = c) as ->.
  { apply (plock_excl s c p k Hok Hpc c' i Hh). rewrite Hc. by apply bool_decide_eq_true_2. }
  rewrite Hpc in Hc. injection Hc as -> ->. by apply (Hk v).
Qed.

End States.

Section Preserved.
Variables (s s' : sched) (c p : nat) (k : point).
Hypothesis Hok : sched_ok s.
Hypothesis Hpc : s_pc s c = On p k.

Lemma yield_ok : yield_turn c p k s = Some s' -> sched_ok s'.
Proof.
  intros E. destruct k eqn:Ek; try done; cbn [yield_turn] in E.
  - take_tac E. apply (plain_move s c p _ Hok Hpc YSet); try done; try lock_tac. intros v [?|[?|?]]; done.
  - injection E as <-. apply (own_state_move s c p _ Hok Hpc YSched); try done; try holds_tac. by intros ? ? [].
  - injection E as <-. eapply switch_out; [done|exact Hpc|auto].
  - injection E as <-. apply (plain_move s c p _ Hok Hpc User); try done; try lock_tac. intros v [?|[?|?]]; done.
Qed.

Lemma exit_ok : exit_turn c p k s = Some s' -> sched_ok s'.
Proof.
  intros E. destruct k eqn:Ek; try done; cbn [exit_turn] in E.
  - take_tac E. apply (plain_move s c p _ Hok Hpc XSet); try done; try lock_tac. intros v [?|[?|?]]; done.
  - injection E as <-. apply (own_state_move s c p _ Hok Hpc XSched); try done; try holds_tac. by intros ? ? [].
  - injection E as <-. eapply switch_out; [done|exact Hpc|auto].
Qed.

Lemma client_ok : client_turn c p k s = Some s' -> sched_ok s'.
Proof.
  intros E. destruct k as [| | | | | | | | | | | | | | | | | | | | | | | |] eqn:Ek; try done; cbn [client_turn] in E.
  - take_tac E. apply (plain_move s c p _ Hok Hpc (CTest v)); try done; try lock_tac. intros u [?|[?|?]]; done.
  - take_tac E. apply (plain_move s c p _ Hok Hpc (CHold v)); try done; try lock_tac. intros u [?|[?|?]]; done.
  - destruct (s_cond s v) eqn:Ec; injection E as <-.
    + apply (plain_move s c p _ Hok Hpc (CHold v)); try done; try lock_tac. intros u [?|[?|?]]; done.
    + apply (plain_move s c p _ Hok Hpc (ZLock v)); try done; try lock_tac. intros u [[= <-]|[?|?]]; done.
  - injection E as <-. apply (plain_move s c p _ Hok Hpc User); try done; try lock_tac. intros u [?|[?|?]]; done.
Qed.

Lemma sleep_ok : sleep_turn c p k s = Some s' -> sched_ok s'.
Proof.
  intros E. destruct k as [| | | | | | | | | | | | | | | | | | | | | | | |] eqn:Ek; try done; cbn [sleep_turn] in E.
  - take_tac E. apply (plain_move s c p _ Hok Hpc (ZRelease v)); try done; try lock_tac.
    intros u [?|[[= <-]|?]]; try done. apply (ok_test _ Hok c p). auto.
  - injection E as <-. apply (plain_move s c p _ Hok Hpc (ZSet v)); try done; try lock_tac.
    intros u [?|[?|[= <-]]]; try done. apply (ok_test _ Hok c p). auto.
  - injection E as <-. apply (on_move s _ c p _ (ZSched v) Hok Hpc); try done; try lock_tac; cbn; auto.
    + apply upd_eq.
    + intros q Hq. left. by rewrite upd_ne.
    + intros q Hq. by rewrite upd_ne.
    + intros u [= <-]. apply upd_eq.
    + intros u [?|?]; done.
    + intros q u Hc Hcm. right. split; [done|]. split; [|done]. destruct Hcm as [[c' Hc']|[H1 H2]]; cbn in *.
      * destruct (decide (c' = c)) as [->|Hne]; [by rewrite upd_eq in Hc'|]. rewrite upd_ne in Hc' by done. left. eauto.
      * destruct (decide (q = p)) as [->|Hne].
        -- rewrite upd_eq in H2. injection H2 as <-. left. eauto.
        -- rewrite upd_ne in H1 by done. rewrite upd_ne in H2 by done. by right.
  - injection E as <-. eapply switch_out; [done|exact Hpc|eauto].
  - injection E as <-. apply (on_move s _ c p _ (ZUnlock v) Hok Hpc); try done; try lock_tac; cbn; auto.
    + by apply (ok_on _ Hok _ _ _ Hpc).
    + intros q Hq. by rewrite upd_ne.
    + intros u [?|?]; done.
    + intros q u Hc Hcm. right. split; [done|]. split; [|done]. destruct Hcm as [[c' Hc']|[H1 H2]]; cbn in *.
      * destruct (decide (c' = c)) as [->|Hne]; [by rewrite upd_eq in Hc'|]. rewrite upd_ne in Hc' by done. left. eauto.
      * destruct (decide (q = p)) as [->|Hne]; [by rewrite upd_eq in H2|]. rewrite upd_ne in H2 by done. by right.
  - injection E as <-. apply (plain_move s c p _ Hok Hpc (CAcquire v)); try done; try lock_tac. intros u [?|[?|?]]; done.
Qed.

Lemma wakeup_ok : wakeup_turn c p k s = Some s' -> sched_ok s'.
Proof.
  intros E. destruct k as [| | | | | | | | | | | | | | | | | | | | | | | |] eqn:Ek; try done; cbn [wakeup_turn] in E.
  - destruct (NPROCn <=? i) eqn:En; [|destruct (decide (i = p)) as [Eip|Eip]].
    + apply Nat.leb_le in En. injection E as <-. apply (plain_move s c p _ Hok Hpc (CHold v)); try done; try lock_tac.
      * intros u [?|[?|?]]; done.
      * intros q u Hq Hcm Hw. cbn [will_wake] in Hw. lia.
    + injection E as <-. apply (plain_move s c p _ Hok Hpc (WLock v (S i))); try done; try lock_tac.
      * intros u [?|[?|?]]; done.
      * intros q u Hq Hcm [-> Hw]. split; [done|]. destruct (decide (q = i)) as [->|]; [|lia]. subst i.
        exfalso. destruct Hcm as [[c' Hc']|[H1 _]].
        -- assert (c' = c) as -> by (by eapply (ok_one _ Hok)). congruence.
        -- destruct (ok_on _ Hok _ _ _ Hpc) as [Hs _]. rewrite Hs in H1. done.
    + take_tac E. apply (plain_move s c p _ Hok Hpc (WCheck v i)); try done; try lock_tac.
      intros u [?|[?|?]]; done.
  - injection E as <-. assert (holds_plock (On p (WCheck v i)) i = true) as Hh by (by apply bool_decide_eq_true_2).
    destruct (decide (s_state s i = SLEEPING /\ s_chan s i = Some v)) as [[Hs Hch]|Hn].
    + apply (wake_move s c p _ Hok Hpc i (WUnlock v i) true); try done; try holds_tac.
      intros q u Hcm [-> Hw]. split; [done|]. destruct (decide (q = i)) as [->|]; [|lia].
      exfalso. destruct Hcm as [[c' Hc']|[H1 _]].
      * by eapply (checked_not_setting s c p _ Hok Hpc i u c').
      * cbn in H1. by rewrite upd_eq in H1.
    + apply (wake_move s c p _ Hok Hpc i (WUnlock v i) false); try done; try holds_tac.
      intros q u Hcm [-> Hw]. split; [done|]. destruct (decide (q = i)) as [->|]; [|lia].
      exfalso. destruct Hcm as [[c' Hc']|[H1 H2]].
      * by eapply (checked_not_setting s c p _ Hok Hpc i u c').
      * by apply Hn.
  - injection E as <-. apply (plain_move s c p _ Hok Hpc (WLock v (S i))); try done; try lock_tac.
    intros u [?|[?|?]]; done.
Qed.

Lemma kill_ok : kill_turn c p k s = Some s' -> sched_ok s'.
Proof.
  intros E. destruct k as [| | | | | | | | | | | | | | | | | | | | | | | |] eqn:Ek; try done; cbn [kill_turn] in E.
  - take_tac E. apply (plain_move s c p _ Hok Hpc (KCheck i)); try done; try lock_tac. intros u [?|[?|?]]; done.
  - injection E as <-. assert (holds_plock (On p (KCheck i)) i = true) as Hh by (by apply bool_decide_eq_true_2).
    destruct (decide (s_state s i = SLEEPING)) as [Hs|Hn].
    + apply (wake_move s c p _ Hok Hpc i (KUnlock i) true); try done; try holds_tac.
    + apply (wake_move s c p _ Hok Hpc i (KUnlock i) false); try done; try holds_tac.
  - injection E as <-. apply (plain_move s c p _ Hok Hpc User); try done; try lock_tac. intros u [?|[?|?]]; done.
Qed.
End Preserved.

Lemma next_proc_range i : next_proc i < NPROCn.
Proof. unfold next_proc. destruct (Nat.ltb_spec (S i) NPROCn); [done|]. unfold NPROCn, NPROC. lia. Qed.

Lemma scheduler_ok s s' c x :
  sched_ok s -> s_pc s c = x -> (forall p k, x <> On p k) -> scheduler_turn c x s = Some s' -> sched_ok s'.
Proof.
  intros Hok Hpc Hx E. destruct x as [i|i|i|i|p k]; [..|by specialize (Hx p k)]; cbn [scheduler_turn] in E.
  all: assert (i < NPROCn) as Hi by (apply (ok_scan _ Hok c); auto).
  - take_tac E. apply (scheduler_move s c Hok (SLock i) (SCheck i)); try done.
    + apply moves_take; [done|holds_tac|]. intros j Hj. by eapply mine_plock.
    + intros j [?|[[= <-]|[?|?]]]; done.
  - destruct (decide _) as [Hs|Hs]; injection E as <-; [by apply switch_in|].
    apply (scheduler_move s c Hok (SCheck i) (SUnlock i)); try done.
    + apply lock_moves_same; [holds_tac|]. intros j Hj. by eapply mine_plock.
    + intros j [?|[?|[?|[= <-]]]]; done.
  - injection E as <-. apply (scheduler_move s c Hok (SBack i) (SUnlock i)); try done.
    + apply lock_moves_same; [holds_tac|]. intros j Hj. by eapply mine_plock.
    + intros j [?|[?|[?|[= <-]]]]; done.
  - injection E as <-. apply (scheduler_move s c Hok (SUnlock i) (SLock (next_proc i))); try done.
    + apply moves_give; [by apply bool_decide_eq_true_2|holds_tac|]. intros j Hj. by eapply mine_plock.
    + intros j [[= <-]|[?|[?|?]]]; try done. apply next_proc_range.
Qed.

Lemma turn_preserves s s' c : sched_ok s -> sturn c s = Some s' -> sched_ok s'.
Proof.
  intros Hok E. unfold sturn in E. destruct (s_pc s c) as [i|i|i|i|p k] eqn:Hpc.
  1-4: eapply scheduler_ok; [exact Hok|exact Hpc|done|exact E].
  destruct k; cbn [proc_turn] in E; try done;
    first [ exact (yield_ok _ _ _ _ _ Hok Hpc E) | exact (sleep_ok _ _ _ _ _ Hok Hpc E) | exact (wakeup_ok _ _ _ _ _ Hok Hpc E)
          | exact (kill_ok _ _ _ _ _ Hok Hpc E) | exact (exit_ok _ _ _ _ _ Hok Hpc E) | exact (client_ok _ _ _ _ _ Hok Hpc E) ].
Qed.

Lemma signal_ok s c p v :
  sched_ok s -> s_pc s c = On p (CHold v) -> sched_ok (goto c (On p (WLock v 0)) (set_cond v true s)).
Proof.
  intros Hok Hpc. apply (on_move s _ c p (CHold v) (WLock v 0) Hok Hpc); try done; try lock_tac; cbn; auto.
  - by apply (ok_on _ Hok _ _ _ Hpc).
  - intros u. destruct (decide (u = v)) as [->|Hne]; [right; by apply bool_decide_eq_true_2|]. left. by rewrite upd_ne.
  - intros u [?|?]; done.
  - intros q u Hc Hcm. destruct (decide (u = v)) as [->|Hne]; [left; split; [done|lia]|]. right.
    rewrite upd_ne in Hc by done. split; [done|]. split; [|done]. destruct Hcm as [[c' Hc']|?]; [|by right].
    cbn in Hc'. destruct (decide (c' = c)) as [->|Hnc]; [by rewrite upd_eq in Hc'|]. rewrite upd_ne in Hc' by done. left. eauto.
Qed.

Lemma clear_ok s c p v : sched_ok s -> s_pc s c = On p (CHold v) -> sched_ok (set_cond v false s).
Proof.
  intros Hok Hpc. destruct Hok as [H1 H2 H3 H4 H5 H6 H7 H8 H9]. split; try done; cbn.
  - intros c' q u Hq. destruct (decide (u = v)) as [->|Hne]; [by rewrite upd_eq|]. rewrite upd_ne by done. by eapply H7.
  - intros q u Hc Hcm. destruct (decide (u = v)) as [->|Hne]; [by rewrite upd_eq in Hc|]. rewrite upd_ne in Hc by done.
    by apply H9.
Qed.

Lemma enter_ok s c p k :
  sched_ok s -> s_pc s c = On p User ->
  k ∈ [YLock; XLock] \/ (exists v, k = CAcquire v \/ k = CLock v) \/ (exists i, i < NPROCn /\ k = KLock i) ->
  sched_ok (goto c (On p k) s).
Proof.
  intros Hok Hpc Hk.
  assert (k = YLock \/ k = XLock \/ (exists v, k = CAcquire v) \/ (exists v, k = CLock v) \/ (exists i, k = KLock i)) as Hk'.
  { destruct Hk as [Hk|[[v [->| ->]]|[i [_ ->]]]]; eauto 6. apply elem_of_cons in Hk as [->|Hk]; [auto|].
    apply list_elem_of_singleton in Hk as ->. auto. }
  clear Hk. apply (plain_move s c p User Hok Hpc k); try done.
  - apply plock_same; [done|done|]. destruct Hk' as [->|[->|[[v ->]|[[v ->]|[i ->]]]]]; done.
  - apply lk_same; [done|done|]. destruct Hk' as [->|[->|[[v ->]|[[v ->]|[i ->]]]]]; done.
  - destruct Hk' as [->|[->|[[v ->]|[[v ->]|[i ->]]]]]; done.
  - destruct Hk' as [->|[->|[[v ->]|[[v ->]|[i ->]]]]]; done.
  - intros u Hu. exfalso. destruct Hk' as [->|[->|[[v ->]|[[v ->]|[i ->]]]]]; destruct Hu as [?|[?|?]]; done.
Qed.

Lemma step_preserves s s' : sched_ok s -> sched_step s s' -> sched_ok s'.
Proof.
  intros Hok Hs. revert Hok.
  destruct Hs as [c s1 s2 E|c p k s1 Hpc Hk|c p v s1 Hpc|c p v s1 Hpc|c p v s1 Hpc]; intros Hok.
  - by eapply turn_preserves.
  - by apply enter_ok.
  - by apply signal_ok.
  - by eapply clear_ok.
  - apply (plain_move s1 c p _ Hok Hpc (CRelease v)); try done; try lock_tac. intros u [?|[?|?]]; done.
Qed.

Lemma sched_init_ok n : sched_ok (sched_init n).
Proof.
  split; cbn; try done; try (by intros; split).
  - intros p _. case_decide as Hp; [|done]. split; [done|]. split; [lia|]. split; [auto|done].
  - intros c i [[= <-]|[?|[?|?]]]; try done. unfold NPROCn, NPROC. lia.
Qed.

Lemma reach_preserves s0 s : sched_ok s0 -> sched_reach s0 s -> sched_ok s.
Proof. intros H0 Hr. induction Hr as [|s s' _ IH Hs]; [done|]. by eapply step_preserves. Qed.

(** C9. No process runs on two CPUs.  In every interleaving of scheduler(),
    yield(), sleep(), wakeup(), kill() and exit() on any number of CPUs, two CPUs
    never execute the same process, a process that is executing is RUNNING until
    it has changed its own state under its lock, p->lock has one holder, and a
    RUNNABLE process that is on no CPU has a context to resume. *)
Theorem sched_one_cpu n s :
  sched_reach (sched_init n) s ->
  (forall c c' p k k', s_pc s c = On p k -> s_pc s c' = On p k' -> c = c') /\
  (forall c p k, s_pc s c = On p k -> s_state s p = RUNNING \/ s_lock s p = Some c) /\
  (forall c c' i, holds_plock (s_pc s c) i = true -> holds_plock (s_pc s c') i = true -> c = c') /\
  (forall p, (forall c k, s_pc s c <> On p k) -> s_state s p = RUNNABLE ->
     s_ctx s p = YUnlock \/ exists v, s_ctx s p = ZWoken v).
Proof.
  intros Hr. pose proof (reach_preserves _ _ (sched_init_ok n) Hr) as Hok. split; [|split; [|split]].
  - intros. by eapply (ok_one _ Hok).
  - intros c p k Hpc. destruct (ok_on _ Hok _ _ _ Hpc) as [-> _]. destruct k; cbn; auto; right;
      apply (ok_plock _ Hok); rewrite Hpc; by apply bool_decide_eq_true_2.
  - intros c c' i H1 H2. apply (ok_plock _ Hok) in H1, H2. congruence.
  - intros p Hp Hs. by apply (ok_off _ Hok p Hp).
Qed.

(** C10. Wakeups are not lost.  A process sleeps on a channel while its condition
    holds only if some CPU is in a wakeup() of that channel that has yet to examine
    the process: sleep() takes p->lock before it gives up the condition's lock,
    so a wakeup() that starts later finds it SLEEPING. *)
Theorem no_lost_wakeup n s p v :
  sched_reach (sched_init n) s -> s_state s p = SLEEPING -> s_chan s p = Some v -> s_cond s v = true ->
  exists c, will_wake (s_pc s c) v p.
Proof.
  intros Hr Hs Hc Hv. apply (ok_wake _ (reach_preserves _ _ (sched_init_ok n) Hr)); [done|]. by right.
Qed.

(** ** Process 0 sleeps while process 1 signals *)

Definition step_cpu (c : nat) (s : sched) : sched := default s (sturn c s).
Fixpoint steps_cpu (n c : nat) (s : sched) : sched := match n with O => s | S n => step_cpu c (steps_cpu n c s) end.

Lemma reach_steps s0 s c n : sched_reach s0 s -> sched_reach s0 (steps_cpu n c s).
Proof.
  intros Hr. induction n as [|n IH]; [done|]. cbn. unfold step_cpu. destruct (sturn c _) as [s'|] eqn:E; [|done].
  eapply re_step; [exact IH|]. by apply (st_turn c).
Qed.

(** CPU 0 resumes process 0, which goes to sleep on variable 3. *)
Definition demo_asleep : sched := steps_cpu 5 0 (goto 0 (On 0 (CAcquire 3)) (steps_cpu 3 0 (sched_init 2))).
(** CPU 1 resumes process 1, which takes the lock and signals. *)
Definition demo_holding : sched := steps_cpu 1 1 (goto 1 (On 1 (CLock 3)) (steps_cpu 6 1 (steps_cpu 3 0 demo_asleep))).
Definition demo_signalled : sched := goto 1 (On 1 (WLock 3 0)) (set_cond 3 true demo_holding).

Lemma demo_signalled_reach : sched_reach (sched_init 2) demo_signalled.
Proof.
  eapply re_step; [|apply st_signal; reflexivity]. unfold demo_holding, demo_asleep.
  apply reach_steps. eapply re_step; [|apply st_enter; [reflexivity|eauto]].
  do 2 apply reach_steps. apply reach_steps. eapply re_step; [|apply st_enter; [reflexivity|eauto]].
  apply reach_steps, re_start.
Qed.

Lemma sched_one_cpu_witness :
  s_pc demo_signalled 1 = On 1 (WLock 3 0) /\
  (forall c c' p k k', s_pc demo_signalled c = On p k -> s_pc demo_signalled c' = On p k' -> c = c') /\
  (forall c p k, s_pc demo_signalled c = On p k -> s_state demo_signalled p = RUNNING \/ s_lock demo_signalled p = Some c) /\
  (forall c c' i, holds_plock (s_pc demo_signalled c) i = true -> holds_plock (s_pc demo_signalled c') i = true -> c = c') /\
  (forall p, (forall c k, s_pc demo_signalled c <> On p k) -> s_state demo_signalled p = RUNNABLE ->
     s_ctx demo_signalled p = YUnlock \/ exists v, s_ctx demo_signalled p = ZWoken v).
Proof. split; [reflexivity|]. apply (sched_one_cpu 2 demo_signalled). exact demo_signalled_reach. Defined.

Lemma no_lost_wakeup_witness : exists c, will_wake (s_pc demo_signalled c) 3 0.
Proof.
  apply (no_lost_wakeup 2 demo_signalled 0 3).
  - exact demo_signalled_reach.
  - reflexivity.
  - reflexivity.
  - reflexivity.
Defined.
