(* ===== verification/File.v ===== *)
(** * Open files and pipes (kernel/file.c, kernel/pipe.c)

    The reference-counted table of open files, reading and writing through a
    descriptor, and pipes.  A device's read and write functions are the entries
    of [devsw], an argument here; struct stat's four padding bytes are whatever
    the kernel stack held. *)

From S2P Require Import Prelude Machine Mem Kalloc Sleeplock Store FsDisk Fs Vm Kernel.

Open Scope Z_scope.

(** [devsw[major]]: the device's functions, [None] for a null pointer. *)
Record devsw_entry (St : Type) := Devsw {
  dv_read : option (bool -> Z -> Z -> M (kernel St) Z);
  dv_write : option (bool -> Z -> Z -> M (kernel St) Z)
}.
Arguments Devsw {St}.
Arguments dv_read {St}.
Arguments dv_write {St}.

(** ** The ring buffer of a pipe *)

Definition pipe_new (data : list Z) : pipe := Pipe data 0 0 true true.
Definition pipe_full (pi : pipe) : bool := pi_nwrite pi =? u32 (pi_nread pi + PIPESIZE).
Definition pipe_empty (pi : pipe) : bool := pi_nread pi =? pi_nwrite pi.

(** [pi->data[pi->nwrite++ % PIPESIZE] = ch;] *)
Definition pipe_put (ch : Z) (pi : pipe) : pipe :=
  Pipe (<[Z.to_nat (pi_nwrite pi mod PIPESIZE) := ch]> (pi_data pi))
    (pi_nread pi) (u32 (pi_nwrite pi + 1)) (pi_readopen pi) (pi_writeopen pi).

(** [ch = pi->data[pi->nread++ % PIPESIZE];] *)
Definition pipe_head (pi : pipe) : Z := nth (Z.to_nat (pi_nread pi mod PIPESIZE)) (pi_data pi) 0.
Definition pipe_get (pi : pipe) : pipe :=
  Pipe (pi_data pi) (u32 (pi_nread pi + 1)) (pi_nwrite pi) (pi_readopen pi) (pi_writeopen pi).

Definition pipe_shut (writable : bool) (pi : pipe) : pipe :=
  if writable then Pipe (pi_data pi) (pi_nread pi) (pi_nwrite pi) (pi_readopen pi) false
  else Pipe (pi_data pi) (pi_nread pi) (pi_nwrite pi) false (pi_writeopen pi).

(** struct stat as it lies in memory. *)
Definition stat_bytes (pad : list Z) (st : stat) : list Z :=
  le_bytes 4 (st_dev st) ++ le_bytes 4 (st_ino st) ++ le_bytes 2 (st_type st) ++
  le_bytes 2 (st_nlink st) ++ pad ++ le_bytes 8 (st_size st).

Section File.
Context {St : Type} `{BlockStore St}.
Variable kend : Z.
Variable devsw : Z -> devsw_entry St.
Variable stat_pad : list Z.
Abbreviation K := (M (kernel St)).

(** ** The file table *)

Definition fileinit : K unit := initlock LFtable.

Fixpoint find_unreferenced (l : list file) (i : nat) : option nat :=
  match l with
  | [] => None
  | f :: t => if f_ref f =? 0 then Some i else find_unreferenced t (S i)
  end.

Definition filealloc : K (option nat) :=
  acquire LFtable ;;
  let* l := gets k_files in
  match find_unreferenced l 0 with
  | Some f => setf f (f_set_ref 1) ;; release LFtable ;; ret (Some f)
  | None => release LFtable ;; ret None
  end.

Definition filedup (f : nat) : K nat :=
  acquire LFtable ;;
  let* x := getf f in
  if f_ref x <? 1 then panic "filedup" else
  setf f (fun x => f_set_ref (f_ref x + 1) x) ;;
  release LFtable ;;
  ret f.

(** ** Closing *)

Definition pipeclose (pi : Z) (writable : bool) : K unit :=
  acquire (LPipe pi) ;;
  setpipe pi (pipe_shut writable) ;;
  (if writable then wakeup (ChPipeRead pi) else wakeup (ChPipeWrite pi)) ;;
  let* x := getpipe pi in
  if negb (pi_readopen x) && negb (pi_writeopen x) then
    release (LPipe pi) ;;
    modify (fun k => k_set_pipes (delete pi (k_pipes k)) k) ;;
    on_mem (kfree kend pi)
  else release (LPipe pi).

Definition fileclose (f : nat) : K unit :=
  acquire LFtable ;;
  let* x := getf f in
  if f_ref x <? 1 then panic "fileclose" else
  setf f (f_set_ref (f_ref x - 1)) ;;
  if f_ref x - 1 >? 0 then release LFtable else
  setf f (fun x => f_set_type FD_NONE (f_set_ref 0 x)) ;;
  release LFtable ;;
  match f_type x with
  | FD_PIPE => pipeclose (f_pipe x) (f_writable x)
  | FD_INODE | FD_DEVICE =>
      kbegin_op ;;
      let* ip := the (f_ip x) in
      on_fs (iput ip) ;;
      kend_op
  | FD_NONE => ret tt
  end.

(** ** Pipes *)

(** The cleanup at [bad:]; no caller reaches it with a pipe allocated. *)
Definition pipealloc_bad (f0 f1 : option nat) : K (Z * option nat * option nat) :=
  (match f0 with Some f => fileclose f | None => ret tt end) ;;
  (match f1 with Some f => fileclose f | None => ret tt end) ;;
  ret (-1, f0, f1).

(** The status and the two files.  The pipe's data is what the page held. *)
Definition pipealloc : K (Z * option nat * option nat) :=
  let* f0 := filealloc in
  match f0 with
  | None => pipealloc_bad None None
  | Some r =>
      let* f1 := filealloc in
      match f1 with
      | None => pipealloc_bad f0 None
      | Some w =>
          let* pi := on_mem kalloc in
          if pi =? 0 then pipealloc_bad f0 f1 else
          let* data := on_mem (gets (fun m => load (kmem_mem m) (pi + 24) (Z.to_nat PIPESIZE))) in
          modify (fun k => k_set_pipes (<[pi := pipe_new data]> (k_pipes k)) k) ;;
          initlock (LPipe pi) ;;
          setf r (fun x => f_set_pipe pi (f_set_writable false (f_set_readable true (f_set_type FD_PIPE x)))) ;;
          setf w (fun x => f_set_pipe pi (f_set_writable true (f_set_readable false (f_set_type FD_PIPE x)))) ;;
          ret (0, f0, f1)
      end
  end.

(** [ch = pi->data[pi->nread++ % PIPESIZE];] and
    [pi->data[pi->nwrite++ % PIPESIZE] = ch;] *)
Definition pipe_take (pi : Z) : K Z :=
  let* x := getpipe pi in
  setpipe pi pipe_get ;;
  ret (pipe_head x).
Definition pipe_store (pi ch : Z) : K unit := setpipe pi (pipe_put ch).

(** One turn of pipewrite()'s loop: [inl] is the next [i], [inr (i, None)] the
    end of the loop and [inr (i, Some r)] the return inside it. *)
Definition pipewrite_step (pr : nat) (pi addr n : Z) (i : Z) : K (Z + Z * option Z) :=
  if negb (i <? n) then ret (inr (i, None)) else
  let* x := getpipe pi in
  let* dead := (if negb (pi_readopen x) then ret true else killed pr) in
  if dead then release (LPipe pi) ;; ret (inr (i, Some (-1))) else
  if pipe_full x then wakeup (ChPipeRead pi) ;; sleep (ChPipeWrite pi) (LPipe pi) else
  let* ' (r, bs) := copyin_cur (u64 (addr + i)) 1 in
  if r =? -1 then ret (inr (i, None)) else
  let* ch := the (head bs) in
  pipe_store pi ch ;;
  ret (inl (i + 1)).

Definition pipewrite (pi addr n : Z) : K Z :=
  let* pr := myproc in
  acquire (LPipe pi) ;;
  let* ' (i, r) := iter (S (S (Z.to_nat n))) (pipewrite_step pr pi addr n) 0 in
  match r with
  | Some r => ret r
  | None => wakeup (ChPipeRead pi) ;; release (LPipe pi) ;; ret i
  end.

(** One turn of the copying loop of piperead(). *)
Definition piperead_step (pi addr n : Z) (i : Z) : K (Z + Z) :=
  if negb (i <? n) then ret (inr i) else
  let* x := getpipe pi in
  if pipe_empty x then ret (inr i) else
  let* ch := pipe_take pi in
  let* r := copyout_cur (u64 (addr + i)) [ch] in
  if r =? -1 then ret (inr i) else ret (inl (i + 1)).

(** The loop that waits for data ends, returns or sleeps. *)
Definition piperead (pi addr n : Z) : K Z :=
  let* pr := myproc in
  acquire (LPipe pi) ;;
  let* x := getpipe pi in
  let* dead := (if pipe_empty x && pi_writeopen x then
                  let* k := killed pr in
                  if k then ret true else sleep (ChPipeRead pi) (LPipe pi)
                else ret false) in
  if dead : bool then release (LPipe pi) ;; ret (-1) else
  let* i := iter (S (S (Z.to_nat n))) (piperead_step pi addr n) 0 in
  wakeup (ChPipeWrite pi) ;;
  release (LPipe pi) ;;
  ret i.

(** ** Reading, writing and stat *)

Definition filestat (f : nat) (addr : Z) : K Z :=
  let* x := getf f in
  match f_type x with
  | FD_INODE | FD_DEVICE =>
      on_fs (ilock (f_ip x)) ;;
      let* ip := the (f_ip x) in
      let* st := on_fs (stati ip) in
      on_fs (iunlock (f_ip x)) ;;
      let* r := copyout_cur addr (stat_bytes stat_pad st) in
      if r <? 0 then ret (-1) else ret 0
  | _ => ret (-1)
  end.

Definition fileread (f : nat) (addr n : Z) : K Z :=
  let* x := getf f in
  if negb (f_readable x) then ret (-1) else
  match f_type x with
  | FD_PIPE => piperead (f_pipe x) addr n
  | FD_DEVICE =>
      if (f_major x <? 0) || (f_major x >=? NDEV) then ret (-1) else
      match dv_read (devsw (f_major x)) with
      | None => ret (-1)
      | Some read => read true addr n
      end
  | FD_INODE =>
      on_fs (ilock (f_ip x)) ;;
      let* ip := the (f_ip x) in
      let* x := getf f in
      let* ' (r, _) := on_fs (readi ip (ToUser addr) (f_off x) (u32 n)) in
      (if s32 r >? 0 then setf f (fun x => f_set_off (u32 (f_off x + r)) x) else ret tt) ;;
      on_fs (iunlock (f_ip x)) ;;
      ret (s32 r)
  | FD_NONE => panic "fileread"
  end.

(** The most bytes filewrite() passes to one writei(). *)
Definition write_max : Z := (MAXOPBLOCKS - 1 - 1 - 2) / 2 * BSIZE.

(** One turn of the loop over transactions. *)
Definition filewrite_step (f : nat) (addr n : Z) (i : Z) : K (Z + Z) :=
  if negb (i <? n) then ret (inr i) else
  let n1 := Z.min (n - i) write_max in
  kbegin_op ;;
  let* x := getf f in
  on_fs (ilock (f_ip x)) ;;
  let* ip := the (f_ip x) in
  let* x := getf f in
  let* r := on_fs (writei ip (FromUser (u64 (addr + i))) (f_off x) n1) in
  (if r >? 0 then setf f (fun x => f_set_off (u32 (f_off x + r)) x) else ret tt) ;;
  on_fs (iunlock (f_ip x)) ;;
  kend_op ;;
  if negb (r =? n1) then ret (inr i) else ret (inl (i + r)).

Definition filewrite (f : nat) (addr n : Z) : K Z :=
  let* x := getf f in
  if negb (f_writable x) then ret (-1) else
  match f_type x with
  | FD_PIPE => pipewrite (f_pipe x) addr n
  | FD_DEVICE =>
      if (f_major x <? 0) || (f_major x >=? NDEV) then ret (-1) else
      match dv_write (devsw (f_major x)) with
      | None => ret (-1)
      | Some write => write true addr n
      end
  | FD_INODE =>
      let* i := iter (S (S (Z.to_nat (n / write_max)))) (filewrite_step f addr n) 0 in
      ret (if i =? n then n else -1)
  | FD_NONE => panic "filewrite"
  end.
End File.
