(* ===== verification/DemoKernel.v ===== *)
(** * A small running kernel

    The file system image of Demo.v mounted, one running process with one page of
    memory and a trap frame, and fifteen free pages: the concrete state on which the
    witnesses of the kernel's theorems run. *)

From S2P Require Import Prelude Machine Mem Kalloc Sleeplock Bio Store Log LogTxn FsDisk CString Fs Demo Vm Kernel.

Open Scope Z_scope.

Definition dk_page (i : Z) : Z := KERNBASE + i * PGSIZE.
Definition dk_pte (i f : Z) : Z := Z.lor (PA2PTE (dk_page i)) f.

(** Page 0 is the process's page table with its two lower levels in 1 and 2, page
    3 its memory at address 0 (the string /f), page 4 its trap frame; 5 to 19 are on the
    free list. *)
Definition dk_mem : mem :=
  fold_right (fun '(a, v) m => store64 m a v) ∅ (
    [(dk_page 0, dk_pte 1 PTE_V); (dk_page 1, dk_pte 2 PTE_V);
     (dk_page 2, dk_pte 3 (Z.lor PTE_V (Z.lor PTE_R (Z.lor PTE_W PTE_U))));
     (dk_page 3, le_val [47; 102])] ++
  ((fun i => (dk_page i, dk_page (i + 1))) <$> seqZ 5 14)).
Definition dk_kmem : kmem := Kmem dk_mem (dk_page 5).

Definition dk_unused (i : nat) : proc :=
  Proc UNUSED None false 0 0 None (KSTACK (Z.of_nat i)) 0 0 0 context0 (replicate NOFILEn None) None (replicate 16 0).
Definition dk_running : proc :=
  Proc RUNNING None false 0 1 None (KSTACK 0) PGSIZE (dk_page 0) (dk_page 4) context0
    (replicate NOFILEn None) (Some 0%nat) (105 :: 110 :: 105 :: 116 :: replicate 12 0).
Definition dk_procs : list proc := dk_running :: (dk_unused <$> seq 1 (NPROCn - 1)).

Definition dk_inode : inode := Inode 0 0 0 (Sleeplock false 0) false 0 0 0 0 0 (replicate NADDRS 0).
Definition dk_root : inode := Inode ROOTDEV 1 1 (Sleeplock false 0) true T_DIR 0 0 1 32 (12 :: replicate 12 0).
Definition dk_inodes : list inode := dk_root :: replicate (NINODEn - 1) dk_inode.

Definition dk_file : file := File FD_NONE 0 false false 0 None 0 0.

Definition dk_store : lstate :=
  match boot_log demo_log_geom (World [] [] (boot_state (img_disk demo_img) 1)) with
  | Ret (_, w) => user w
  | _ => boot_state (img_disk demo_img) 1
  end.

Definition dk_cons : cons := Cons (replicate 128 0) 0 0 0.
(** A UART that is always ready to send and has no input. *)
Definition dk_uart : uart := Uart (replicate 32 0) 0 0 (replicate 100 32) [].

Definition demo_kernel : kernel lstate :=
  Kernel dk_store dk_kmem demo_sb dk_inodes (replicate NFILEn dk_file) ∅ dk_procs (Some 0%nat) 2 (Some 0%nat) 0 false dk_cons dk_uart.
Definition demo_world : world (kernel lstate) := World [] [] demo_kernel.

(** The world after a run, when it returns. *)
Definition after {S A} (m : M S A) (w : world S) : world S :=
  match m w with Ret (_, w') => w' | _ => w end.
Definition result {S A} (m : M S A) (w : world S) : option A :=
  match m w with Ret (a, _) => Some a | _ => None end.

Lemma after_run {S A} (m : M S A) w a : result m w = Some a -> m w = Ret (a, after m w).
Proof. unfold result, after. destruct (m w) as [[x w']| | |]; try done. by intros [= ->]. Qed.
