(* ===== verification/KernelWp.v ===== *)
(** * Reasoning about the process table (kernel/proc.c)

    What wakeup(), kill() and killed() do, on every path, to the table of
    processes: the lemmas with which the other components use them. *)

From S2P Require Import Prelude Machine Mem Kalloc Sleeplock Store Log FsDisk Fs Demo Vm Kernel DemoKernel.

Open Scope Z_scope.

(** wakeup(c) by the process [me]. *)
Definition wake_one (c : chan) (x : proc) : proc :=
  if decide (p_state x = SLEEPING /\ p_chan x = Some c) then p_set_state RUNNABLE x else x.
Definition woken (c : chan) (me : option nat) (l : list proc) : list proc :=
  imap (fun i x => if decide (me = Some i) then x else wake_one c x) l.

(** The effect of kill() on its victim. *)
Definition kill_one (x : proc) : proc :=
  let x := p_set_killed true x in
  if decide (p_state x = SLEEPING) then p_set_state RUNNABLE x else x.

Section KernelWp.
Context {St : Type}.
Implicit Types w : world (kernel St).

(** The table is complete and none of its locks is held by this CPU. *)
Definition table_free w : Prop := length (k_procs (user w)) = NPROCn /\ forall p, LProc p ∉ held w.

Definition with_procs (l : list proc) w : world (kernel St) :=
  World (held w) (trace w) (k_set_procs l (user w)).

Lemma with_procs_id w : with_procs (k_procs (user w)) w = w.
Proof. by destruct w as [h t []]. Qed.

Lemma getp_wp p x Q w : k_procs (user w) !! p = Some x -> Q x w -> wp (getp p) Q w.
Proof. intros E HQ. unfold getp. do 2 wp_step. by eapply wp_the. Qed.

Lemma setp_wp p f Q w : Q tt (with_procs (alter f p (k_procs (user w))) w) -> wp (setp p f) Q w.
Proof. done. Qed.

Lemma table_lookup w p : table_free w -> (p < NPROCn)%nat -> exists x, k_procs (user w) !! p = Some x.
Proof. intros [Hl _] Hp. apply lookup_lt_is_Some_2. lia. Qed.

Lemma killed_wp p x (Q : bool -> world (kernel St) -> Prop) w :
  LProc p ∉ held w -> k_procs (user w) !! p = Some x -> Q (p_killed x) w -> wp (killed p) Q w.
Proof.
  intros Hl Hx HQ. unfold killed. wp_step. apply wp_acquire; [done|]. wp_step. eapply getp_wp; [exact Hx|].
  wp_step. eapply wp_release; [done|]. wp_step. by destruct w.
Qed.

Lemma imap_lookup_id {A} (f : nat -> A -> A) (l : list A) j x :
  l !! j = Some x -> imap (fun i y => if decide (i < j)%nat then f i y else y) l !! j = Some x.
Proof. intros Hx. rewrite list_lookup_imap, Hx. cbn. by rewrite decide_False by lia. Qed.

Lemma imap_step {A} (f : nat -> A -> A) (l : list A) j :
  alter (f j) j (imap (fun i y => if decide (i < j)%nat then f i y else y) l) =
  imap (fun i y => if decide (i < S j)%nat then f i y else y) l.
Proof.
  apply list_eq. intros i. destruct (decide (i = j)) as [->|Hne].
  - rewrite list_lookup_alter_eq, !list_lookup_imap. destruct (l !! j); cbn; [|done].
    by rewrite decide_False, decide_True by lia.
  - rewrite list_lookup_alter_ne, !list_lookup_imap by done. destruct (l !! i); cbn; [|done]. f_equal.
    destruct (decide (i < j)%nat), (decide (i < S j)%nat); done || lia.
Qed.

Lemma alter_same {A} (f : A -> A) (l : list A) j x : l !! j = Some x -> f x = x -> alter f j l = l.
Proof.
  intros Hx Hf. apply list_eq. intros i. destruct (decide (i = j)) as [->|]; [|by rewrite list_lookup_alter_ne].
  rewrite list_lookup_alter_eq, Hx. cbn. by rewrite Hf.
Qed.

Lemma wakeup_wp c (Q : unit -> world (kernel St) -> Prop) w :
  table_free w -> Q tt (with_procs (woken c (k_cur (user w)) (k_procs (user w))) w) -> wp (wakeup c) Q w.
Proof.
  intros [Hlen Hheld] HQ. set (f := fun (i : nat) x => if decide (k_cur (user w) = Some i) then x else wake_one c x).
  set (l := k_procs (user w)) in *. unfold wakeup.
  apply wp_for_seq with (I := fun j w' => w' = with_procs (imap (fun i y => if decide (i < j)%nat then f i y else y) l) w).
  - replace (imap _ l) with l; [symmetry; apply with_procs_id|]. apply list_eq. intros i.
    rewrite list_lookup_imap. destruct (l !! i); cbn; [|done]. by rewrite decide_False by lia.
  - intros j w' Hj ->. destruct (lookup_lt_is_Some_2 l j) as [x Hx]; [rewrite Hlen; lia|].
    pose proof (imap_lookup_id f l j x Hx) as Hx'. pose proof (imap_step f l j) as Hst.
    do 2 wp_step. cbn [k_cur k_set_procs with_procs user]. case_bool_decide as Hme.
    { wp_step. f_equal. rewrite <- Hst. symmetry. eapply alter_same; [exact Hx'|]. unfold f. case_decide; [done|]. by cbn in Hme. }
    wp_step. apply wp_acquire; [apply Hheld|]. wp_step. eapply getp_wp; [exact Hx'|]. wp_step.
    assert (f j = wake_one c) as Hf by (unfold f; by case_decide). rewrite Hf in Hst.
    destruct (bool_decide (p_state x = SLEEPING) && bool_decide (p_chan x = Some c)) eqn:Es.
    + apply setp_wp. eapply wp_release; [done|]. rewrite <- Hst.
      enough (forall L, L !! j = Some x -> alter (p_set_state RUNNABLE) j L = alter (wake_one c) j L) as E by (by rewrite <- E).
      apply andb_true_iff in Es as [E1%bool_decide_eq_true E2%bool_decide_eq_true]. intros L HL.
      apply list_eq. intros i. destruct (decide (i = j)) as [->|]; [|by rewrite !list_lookup_alter_ne].
      rewrite !list_lookup_alter_eq, HL. cbn. unfold wake_one. by rewrite decide_True.
    + wp_step. eapply wp_release; [done|]. rewrite <- Hst. erewrite alter_same; [done|exact Hx'|].
      unfold wake_one. apply decide_False. intros [E1 E2]. by rewrite !bool_decide_eq_true_2 in Es.
  - intros w' ->. replace (imap _ l) with (woken c (k_cur (user w)) l); [done|]. unfold woken. apply list_eq. intros i.
    rewrite !list_lookup_imap. destruct (l !! i) as [x|] eqn:Hx; cbn; [|done]. apply lookup_lt_Some in Hx.
    rewrite (decide_True (P := (i < 0 + NPROCn)%nat)) by lia. done.
Qed.

Lemma woken_length c me l : length (woken c me l) = length l.
Proof. apply length_imap. Qed.

Lemma kill_loop_wp pid (l : list proc) j fuel (Q : Z -> world (kernel St) -> Prop) w :
  table_free w -> k_procs (user w) = l -> (j <= NPROCn)%nat -> (NPROCn - j < fuel)%nat ->
  (forall i x, l !! i = Some x -> (i < j)%nat -> p_pid x <> pid) ->
  (forall p x, l !! p = Some x -> p_pid x = pid -> (forall i y, l !! i = Some y -> (i < p)%nat -> p_pid y <> pid) ->
     Q 0 (with_procs (<[p := kill_one x]> l) w)) ->
  ((forall i x, l !! i = Some x -> p_pid x <> pid) -> Q (-1) w) ->
  wp (iter fuel (kill_step pid) j) Q w.
Proof.
  intros Ht Hl Hj Hf Hbefore Hhit Hmiss. revert j Hj Hf Hbefore. induction fuel as [|fuel IH]; intros j Hj Hf Hbefore; [lia|].
  cbn [iter]. wp_step. unfold kill_step at 1. destruct (Nat.ltb_spec j NPROCn) as [Hlt|Hge]; cbn [negb].
  2:{ do 2 wp_step. apply Hmiss. intros i x Hx. apply (Hbefore i x Hx). apply lookup_lt_Some in Hx.
      destruct Ht as [Hlen _]. rewrite Hl in Hlen. lia. }
  destruct (table_lookup w j Ht Hlt) as [x Hx]. wp_step. apply wp_acquire; [apply Ht|]. wp_step.
  eapply getp_wp; [exact Hx|]. rewrite Hl in Hx. destruct (Z.eqb_spec (p_pid x) pid) as [Hp|Hp].
  - wp_step. apply setp_wp. wp_step. assert (alter (p_set_killed true) j l !! j = Some (p_set_killed true x)) as Hx' by (by rewrite list_lookup_alter_eq, Hx).
    specialize (Hhit j x Hx Hp Hbefore). unfold with_procs, kill_one in Hhit.
    change (p_state (p_set_killed true x)) with (p_state x) in Hhit. case_bool_decide as Es.
    + rewrite decide_True in Hhit by done. apply setp_wp. wp_step. eapply wp_release; [done|]. do 2 wp_step.
      cbn. rewrite Hl. replace (alter _ j (alter _ j l)) with (<[j := p_set_state RUNNABLE (p_set_killed true x)]> l); [done|].
      apply list_eq. intros i. destruct (decide (i = j)) as [->|]; [|by rewrite list_lookup_insert_ne, !list_lookup_alter_ne].
      rewrite list_lookup_insert_eq by (by eapply lookup_lt_Some). by rewrite !list_lookup_alter_eq, Hx.
    + rewrite decide_False in Hhit by done. do 2 wp_step. eapply wp_release; [done|]. do 2 wp_step.
      cbn. rewrite Hl. replace (alter _ j l) with (<[j := p_set_killed true x]> l); [done|].
      apply list_eq. intros i. destruct (decide (i = j)) as [->|]; [|by rewrite list_lookup_insert_ne, !list_lookup_alter_ne].
      rewrite list_lookup_insert_eq by (by eapply lookup_lt_Some). by rewrite !list_lookup_alter_eq, Hx.
  - wp_step. eapply wp_release; [done|]. wp_step. cbn [held trace user].
    assert (World (held w) (trace w) (user w) = w) as -> by (by destruct w).
    apply IH; [lia|lia|]. intros i y Hy Hi. destruct (decide (i = j)) as [->|]; [by simplify_eq|]. eapply Hbefore; [done|lia].
Qed.
End KernelWp.

(** kill(pid) marks the first slot of the table whose pid field is [pid] and
    makes it runnable if it sleeps, changes nothing else, and answers 0; when no
    slot has that pid it changes nothing and answers -1. *)
Theorem kill_correct {St} (pid : Z) (w : world (kernel St)) :
  table_free w ->
  wp (kill pid) (fun r w' =>
      match list_find (fun x => p_pid x = pid) (k_procs (user w)) with
      | Some (p, x) => r = 0 /\ w' = with_procs (<[p := kill_one x]> (k_procs (user w))) w
      | None => r = -1 /\ w' = w
      end) w.
Proof.
  intros Ht. unfold kill. apply kill_loop_wp with (l := k_procs (user w)); try done; try lia.
  - intros p x Hx Hp Hbefore. replace (list_find _ _) with (Some (p, x)); [done|]. symmetry.
    apply list_find_Some. split; [done|]. split; [done|]. intros i y Hy Hi. by eapply Hbefore.
  - intros Hno. replace (list_find _ _) with (@None (nat * proc)); [done|]. symmetry. apply list_find_None.
    apply Forall_lookup. intros i x. apply Hno.
Qed.

Lemma kill_correct_witness :
  wp (kill 1) (fun r w' => r = 0 /\ w' = with_procs (<[0%nat := kill_one dk_running]> dk_procs) demo_world) demo_world.
Proof.
  apply (kill_correct 1 demo_world). split; [reflexivity|]. intros p. apply not_elem_of_nil.
Defined.
