(* ===== verification/PipeFifo.v ===== *)
(** * Pipes are first-in first-out (kernel/pipe.c)

    The turns of pipewrite()'s and piperead()'s loops, run by any number of
    processes in any order, interleaved with closing either end and with
    anything that leaves the pipe alone.  Bytes come out in the order in which
    they went in, none is duplicated or overwritten, and the counters, which wrap
    around at 2^32, tell a full pipe from an empty one. *)

From S2P Require Import Prelude Ring Machine Mem Kalloc Sleeplock Store FsDisk Fs Vm Kernel File Log Demo DemoKernel.

Open Scope Z_scope.

(** The bytes [l] are in the pipe, oldest first. *)
Record pipe_rep (p : pipe) (l : list Z) : Prop := PipeRep {
  pr_ring : ring PIPESIZE (2 ^ 32) (pi_data p) (pi_nread p) l;
  pr_count : pi_nwrite p = ring_end (2 ^ 32) (pi_nread p) l
}.

Section Interleaving.
Context {St : Type} `{BlockStore St}.
Variable kend : Z.
Variable pi : Z.
Abbreviation W := (world (kernel St)).

Inductive pipe_event := Wrote (c : Z) | Took (c : Z) | Other.

(** One turn of some process's loop.  The byte written is the one copyin() gave
    that turn; the byte taken is the one the turn hands to copyout(). *)
Inductive pipe_step : W -> pipe_event -> W -> Prop :=
  | ps_write pr addr n i c w w1 w' :
      pipewrite_step pr pi addr n i w = Ret (inl (i + 1), w') ->
      copyin_cur (u64 (addr + i)) 1 w = Ret ((0, [c]), w1) ->
      pipe_step w (Wrote c) w'
  | ps_read addr n i c p r w w1 w' :
      i < n -> k_pipes (user w) !! pi = Some p -> pipe_empty p = false ->
      piperead_step pi addr n i w = Ret (r, w') ->
      pipe_take pi w = Ret (c, w1) ->
      pipe_step w (Took c) w'
  | ps_close writable w w' :
      pipeclose kend pi writable w = Ret (tt, w') ->
      pipe_step w Other w'
  | ps_other w w' :
      k_pipes (user w') !! pi = k_pipes (user w) !! pi ->
      pipe_step w Other w'.

Inductive pipe_run (w0 : W) : list Z -> list Z -> W -> Prop :=
  | pr_start : pipe_run w0 [] [] w0
  | pr_wrote ins outs c w w' :
      pipe_run w0 ins outs w -> pipe_step w (Wrote c) w' -> pipe_run w0 (ins ++ [c]) outs w'
  | pr_took ins outs c w w' :
      pipe_run w0 ins outs w -> pipe_step w (Took c) w' -> pipe_run w0 ins (outs ++ [c]) w'
  | pr_other ins outs w w' :
      pipe_run w0 ins outs w -> pipe_step w Other w' -> pipe_run w0 ins outs w'.
End Interleaving.

(** ** The ring *)

Lemma pipe_counters : 0 < PIPESIZE < 2 ^ 32 /\ 2 ^ 32 mod PIPESIZE = 0.
Proof. done. Qed.
Abbreviation HP := (proj1 pipe_counters).
Abbreviation HW := (proj2 pipe_counters).

Lemma pipe_rep_new d : length d = Z.to_nat PIPESIZE -> pipe_rep (pipe_new d) [].
Proof. intros. split; [|done]. by apply (ring_new _ _ HP). Qed.

Lemma pipe_full_spec p l : pipe_rep p l -> pipe_full p = bool_decide (Z.of_nat (length l) = PIPESIZE).
Proof. intros [Hr Hc]. unfold pipe_full, u32. rewrite Hc. by apply (ring_full _ _ HP (pi_data p)). Qed.

Lemma pipe_empty_spec p l : pipe_rep p l -> pipe_empty p = bool_decide (l = []).
Proof. intros [Hr Hc]. unfold pipe_empty. rewrite Hc, Z.eqb_sym. by apply (ring_empty _ _ HP (pi_data p)). Qed.

Lemma pipe_rep_put p l c :
  pipe_rep p l -> pipe_full p = false -> pipe_rep (pipe_put c p) (l ++ [c]).
Proof.
  intros Hp Hf. rewrite (pipe_full_spec p l Hp) in Hf. apply bool_decide_eq_false in Hf.
  destruct Hp as [Hr Hc]. pose proof (rg_room _ _ _ _ _ Hr). split; unfold pipe_put; cbn [pi_data pi_nread pi_nwrite]; rewrite Hc.
  - apply (ring_put _ _ HP HW); [done|lia].
  - by rewrite ring_end_app.
Qed.

Lemma pipe_rep_get p l :
  pipe_rep p l -> pipe_empty p = false ->
  exists l', l = pipe_head p :: l' /\ pipe_rep (pipe_get p) l'.
Proof.
  intros Hp He. rewrite (pipe_empty_spec p l Hp) in He. apply bool_decide_eq_false in He.
  destruct Hp as [Hr Hc]. destruct l as [|c l]; [done|]. exists l. destruct (ring_get _ _ HP HW _ _ _ _ Hr) as [Hh Hr']. split.
  - f_equal. symmetry. unfold pipe_head. by apply nth_lookup_Some.
  - split; unfold pipe_get; cbn [pi_data pi_nread pi_nwrite]; [done|]. unfold u32. by rewrite Hc, (ring_end_get _ _ l c).
Qed.

Lemma pipe_rep_shut p l b : pipe_rep p l -> pipe_rep (pipe_shut b p) l.
Proof. intros [??]. by destruct b. Qed.

(** ** The turns of the loops *)

Section Turns.
Context {St : Type} `{BlockStore St}.
Variable kend : Z.
Variable pi : Z.
Implicit Types w : world (kernel St).

Lemma killed_run pr w b w' : killed pr w = Ret (b, w') -> w' = w.
Proof.
  unfold killed. intros E. eapply (wlp_run _ (fun _ w' => w' = w)); [|exact E].
  unfold getp. repeat wlp_step. cbn [remove_lock]. rewrite decide_True by done. by destruct w.
Qed.

Lemma wakeup_keeps c (P : gmap Z pipe -> Prop) w :
  P (k_pipes (user w)) -> wlp (wakeup c) (fun _ w' => P (k_pipes (user w'))) w.
Proof.
  intros HP. unfold wakeup. apply wlp_for_each with (I := fun w => P (k_pipes (user w))); [done| |done].
  intros a w1 _ H1. unfold getp, setp, upd_proc. repeat wlp_step; try done.
Qed.

Lemma copyin_cur_keeps va n (P : gmap Z pipe -> Prop) w :
  P (k_pipes (user w)) -> wlp (copyin_cur va n) (fun _ w' => P (k_pipes (user w'))) w.
Proof.
  intros HP. unfold copyin_cur, myproc, getp, on_mem. repeat wlp_step. by apply wlp_zoom.
Qed.

Lemma copyout_cur_keeps va bs (P : gmap Z pipe -> Prop) w :
  P (k_pipes (user w)) -> wlp (copyout_cur va bs) (fun _ w' => P (k_pipes (user w'))) w.
Proof.
  intros HP. unfold copyout_cur, myproc, getp, on_mem. repeat wlp_step. by apply wlp_zoom.
Qed.

Lemma pipewrite_step_run pr addr n i c w w1 w' :
  pipewrite_step pr pi addr n i w = Ret (inl (i + 1), w') ->
  copyin_cur (u64 (addr + i)) 1 w = Ret ((0, [c]), w1) ->
  exists p, k_pipes (user w) !! pi = Some p /\ pipe_full p = false /\
    k_pipes (user w') = alter (pipe_put c) pi (k_pipes (user w)).
Proof.
  unfold pipewrite_step. intros E Hc. destruct (negb (i <? n)); [done|].
  apply bind_run in E as (p & w2 & Hp & E).
  unfold getpipe, bind, gets, the in Hp. destruct (k_pipes (user w) !! pi) as [p'|] eqn:Hlk; [|done].
  injection Hp as <- <-. exists p'. split; [done|].
  apply bind_run in E as (dead & w2 & Hdead & E).
  assert (w2 = w) as ->.
  { destruct (negb (pi_readopen p')); [by injection Hdead as <- <-|by apply killed_run in Hdead]. }
  destruct dead.
  { apply bind_run in E as (u & w3 & _ & E). by injection E. }
  destruct (pipe_full p').
  { apply bind_run in E as (u & w3 & _ & E). unfold sleep in E. by case_decide. }
  split; [done|]. apply bind_run in E as ([r bs] & w3 & E3 & E). rewrite Hc in E3. injection E3 as <- <- <-.
  assert (k_pipes (user w1) = k_pipes (user w)) as <-.
  { by eapply (wlp_run _ _ _ _ _ (copyin_cur_keeps _ _ (fun m => m = k_pipes (user w)) w eq_refl)). }
  cbn in E. by injection E as <-.
Qed.

Lemma pipe_take_run c p w w1 :
  k_pipes (user w) !! pi = Some p -> pipe_take pi w = Ret (c, w1) ->
  c = pipe_head p /\ k_pipes (user w1) = alter pipe_get pi (k_pipes (user w)).
Proof.
  intros Hp E. unfold pipe_take, getpipe, setpipe, bind, gets, the in E. rewrite Hp in E.
  cbn in E. by injection E as <- <-.
Qed.

Lemma piperead_step_run addr n i c p r w w1 w' :
  i < n -> k_pipes (user w) !! pi = Some p -> pipe_empty p = false ->
  piperead_step pi addr n i w = Ret (r, w') -> pipe_take pi w = Ret (c, w1) ->
  c = pipe_head p /\ k_pipes (user w') = alter pipe_get pi (k_pipes (user w)).
Proof.
  intros Hi Hp He E Ht. destruct (pipe_take_run _ _ _ _ Hp Ht) as [Hc Hk]. split; [done|].
  unfold piperead_step in E. rewrite (proj2 (Z.ltb_lt i n) Hi) in E. cbn [negb] in E.
  apply bind_run in E as (p' & w2 & Hp' & E). unfold getpipe, bind, gets, the in Hp'. rewrite Hp in Hp'.
  injection Hp' as <- <-. rewrite He in E.
  apply bind_run in E as (c' & w2 & Hc' & E). rewrite Ht in Hc'. injection Hc' as <- <-.
  apply bind_run in E as (x & w3 & Hx & E). rewrite <- Hk.
  assert (w' = w3) as -> by (destruct (x =? -1); by injection E).
  exact (wlp_run _ _ _ _ _ (copyout_cur_keeps _ _ (fun m => m = k_pipes (user w1)) w1 eq_refl) Hx).
Qed.

Lemma pipeclose_run b w w' p' :
  pipeclose kend pi b w = Ret (tt, w') -> k_pipes (user w') !! pi = Some p' ->
  exists p, k_pipes (user w) !! pi = Some p /\ p' = pipe_shut b p.
Proof.
  intros E. eapply (wlp_run _ (fun _ w' => k_pipes (user w') !! pi = Some p' -> _)); [|exact E].
  unfold pipeclose, setpipe, getpipe. do 3 wlp_step. wlp_step. wlp_step.
  eapply wlp_mono with (P := fun _ w1 => k_pipes (user w1) = alter (pipe_shut b) pi (k_pipes (user w))).
  { destruct b; by apply (wakeup_keeps _ (fun m => m = _)). }
  intros _ w1 H1. wlp_step. wlp_step. wlp_step. wlp_step. wlp_step.
  - repeat wlp_step. apply wlp_zoom. intros _ w2. cbn. by rewrite lookup_delete_eq.
  - wlp_step. rewrite H1. rewrite lookup_alter_eq. intros Hs. apply fmap_Some in Hs as (p & Hp & ->). eauto.
Qed.

(** What a run of the system maintains. *)
Lemma pipe_step_rep w e w' l :
  pipe_step kend pi w e w' ->
  (forall p, k_pipes (user w) !! pi = Some p -> pipe_rep p l) ->
  exists l', match e with
             | Wrote c => l' = l ++ [c]
             | Took c => l = c :: l'
             | Other => l' = l
             end /\ forall p, k_pipes (user w') !! pi = Some p -> pipe_rep p l'.
Proof.
  intros Hs Hrep. destruct Hs as [pr addr n i c w w1 w' E Hc|addr n i c p r w w1 w' Hi Hp He E Ht|b w w' E|w w' E].
  - destruct (pipewrite_step_run _ _ _ _ _ _ _ _ E Hc) as (p & Hp & Hf & ->). eexists. split; [done|].
    intros q. rewrite lookup_alter_eq, Hp. intros [= <-]. apply pipe_rep_put; auto.
  - destruct (piperead_step_run _ _ _ _ _ _ _ _ _ Hi Hp He E Ht) as [-> ->].
    destruct (pipe_rep_get _ _ (Hrep _ Hp) He) as (l' & -> & Hl'). exists l'. split; [done|].
    intros q. rewrite lookup_alter_eq, Hp. by intros [= <-].
  - exists l. split; [done|]. intros q Hq. destruct (pipeclose_run _ _ _ _ E Hq) as (p & Hp & ->).
    apply pipe_rep_shut; auto.
  - exists l. split; [done|]. rewrite E. done.
Qed.
End Turns.

(** C36. Pipes are first-in first-out.  From a fresh pipe, whatever processes
    write to it, read from it and close it, in any interleaving of the turns of
    their loops, what was written is what was read followed by what is still in
    the ring; the ring holds at most PIPESIZE bytes, so nothing unread is ever
    overwritten, and although the two counters wrap around the tests for a full
    and for an empty pipe are exact. *)
Theorem pipe_fifo {St : Type} `{BlockStore St} (kend pi : Z) (w0 w : world (kernel St)) d ins outs :
  k_pipes (user w0) !! pi = Some (pipe_new d) -> length d = Z.to_nat PIPESIZE ->
  pipe_run kend pi w0 ins outs w ->
  exists l, ins = outs ++ l /\
    forall p, k_pipes (user w) !! pi = Some p ->
      pipe_rep p l /\ Z.of_nat (length l) <= PIPESIZE /\
      pipe_full p = bool_decide (Z.of_nat (length l) = PIPESIZE) /\
      pipe_empty p = bool_decide (l = []).
Proof.
  intros H0 Hd Hrun.
  assert (exists l, ins = outs ++ l /\ forall p, k_pipes (user w) !! pi = Some p -> pipe_rep p l) as (l & Hl & Hrep).
  { induction Hrun as [|ins outs c w w' _ IH Hs|ins outs c w w' _ IH Hs|ins outs w w' _ IH Hs].
    - exists []. split; [done|]. intros p. rewrite H0. intros [= <-]. by apply pipe_rep_new.
    - destruct IH as (l & -> & Hrep). destruct (pipe_step_rep _ _ _ _ _ _ Hs Hrep) as (l' & -> & ?).
      exists (l ++ [c]). by rewrite app_assoc.
    - destruct IH as (l & -> & Hrep). destruct (pipe_step_rep _ _ _ _ _ _ Hs Hrep) as (l' & -> & ?).
      exists l'. by rewrite <- app_assoc.
    - destruct IH as (l & -> & Hrep). destruct (pipe_step_rep _ _ _ _ _ _ Hs Hrep) as (l' & -> & ?). eauto. }
  exists l. split; [done|]. intros p Hp. specialize (Hrep p Hp).
  split; [done|]. split; [apply (pr_ring _ _ Hrep)|]. split; [by apply pipe_full_spec|by apply pipe_empty_spec].
Qed.

(** ** A process writes a byte and reads it back *)

Definition demo_pipe : Z := dk_page 5.
Definition demo_pipe_world : world (kernel lstate) := after (pipealloc KERNBASE) demo_world.
Definition demo_wrote : world (kernel lstate) := after (pipewrite_step 0 demo_pipe 0 1 0) demo_pipe_world.
Definition demo_read : world (kernel lstate) := after (piperead_step demo_pipe 100 1 0) demo_wrote.

Lemma pipe_fifo_witness :
  exists l, [47] = [47] ++ l /\
    forall p, k_pipes (user demo_read) !! demo_pipe = Some p ->
      pipe_rep p l /\ Z.of_nat (length l) <= PIPESIZE /\
      pipe_full p = bool_decide (Z.of_nat (length l) = PIPESIZE) /\
      pipe_empty p = bool_decide (l = []).
Proof.
  apply (pipe_fifo KERNBASE demo_pipe demo_pipe_world demo_read (replicate 512 5) [47] [47]).
  - vm_compute. reflexivity.
  - reflexivity.
  - apply (pr_took KERNBASE demo_pipe _ [47] [] 47 demo_wrote).
    + apply (pr_wrote KERNBASE demo_pipe _ [] [] 47 demo_pipe_world); [apply pr_start|].
      apply (ps_write KERNBASE demo_pipe 0 0 1 0 47 _ (after (copyin_cur (u64 (0 + 0)) 1) demo_pipe_world)).
      * refine (after_run (pipewrite_step 0 demo_pipe 0 1 0) demo_pipe_world (inl (0 + 1)) _). vm_compute. reflexivity.
      * refine (after_run (copyin_cur (u64 (0 + 0)) 1) demo_pipe_world (0, [47]) _). vm_compute. reflexivity.
    + apply (ps_read KERNBASE demo_pipe 100 1 0 47 (default (pipe_new []) (k_pipes (user demo_wrote) !! demo_pipe))
               (inl 1) _ (after (pipe_take demo_pipe) demo_wrote)).
      * lia.
      * vm_compute. reflexivity.
      * vm_compute. reflexivity.
      * refine (after_run (piperead_step demo_pipe 100 1 0) demo_wrote (inl 1) _). vm_compute. reflexivity.
      * refine (after_run (pipe_take demo_pipe) demo_wrote 47 _). vm_compute. reflexivity.
Defined.
