(* ===== verification/Proc.v ===== *)
(** * Processes (kernel/proc.c)

    Creating, copying, reaping and killing processes on the state of Kernel.v.
    The addresses the linker gives to the trampoline page and to forkret() are
    arguments.  exit() and wait() stop at the point where they give up the CPU:
    exit() in the world it hands to the scheduler, wait() as [Blocked]; the
    scheduler itself is in Sched.v. *)

From S2P Require Import Prelude Machine Mem Kalloc Sleeplock Store FsDisk CString Printf Fs Vm Kernel File.

Open Scope Z_scope.

(** user/initcode.S, assembled. *)
Definition initcode : list Z :=
  [0x17; 0x05; 0x00; 0x00; 0x13; 0x05; 0x45; 0x02;
   0x97; 0x05; 0x00; 0x00; 0x93; 0x85; 0x35; 0x02;
   0x93; 0x08; 0x70; 0x00; 0x73; 0x00; 0x00; 0x00;
   0x93; 0x08; 0x20; 0x00; 0x73; 0x00; 0x00; 0x00;
   0xef; 0xf0; 0x9f; 0xff; 0x2f; 0x69; 0x6e; 0x69;
   0x74; 0x00; 0x00; 0x24; 0x00; 0x00; 0x00; 0x00;
   0x00; 0x00; 0x00; 0x00].

Definition state_name (s : procstate) : list Z :=
  match s with
  | UNUSED => lit "unused" | USED => lit "used" | SLEEPING => lit "sleep "
  | RUNNABLE => lit "runble" | RUNNING => lit "run   " | ZOMBIE => lit "zombie"
  end.

Section Proc.
Context {St : Type} `{BlockStore St}.
Variable kend : Z.
Variables trampoline forkret_addr : Z.
Abbreviation K := (M (kernel St)).

Definition procinit : K unit :=
  initlock LPid ;;
  initlock LWait ;;
  for_each (seq 0 NPROCn) (fun p =>
    initlock (LProc p) ;;
    setp p (p_set_state UNUSED) ;;
    setp p (p_set_kstack (KSTACK (Z.of_nat p)))).

Definition allocpid : K Z :=
  acquire LPid ;;
  let* pid := gets k_nextpid in
  modify (k_set_nextpid (s32 (pid + 1))) ;;
  release LPid ;;
  ret pid.

(** ** Page tables of processes *)

Definition proc_pagetable (p : nat) : K Z :=
  let* pagetable := on_mem uvmcreate in
  if pagetable =? 0 then ret 0 else
  let* r := on_mem (mappages pagetable TRAMPOLINE PGSIZE trampoline (Z.lor PTE_R PTE_X)) in
  if r <? 0 then on_mem (uvmfree kend pagetable 0) ;; ret 0 else
  let* x := getp p in
  let* r := on_mem (mappages pagetable TRAPFRAME PGSIZE (p_trapframe x) (Z.lor PTE_R PTE_W)) in
  if r <? 0 then
    on_mem (uvmunmap kend pagetable TRAMPOLINE 1 false) ;;
    on_mem (uvmfree kend pagetable 0) ;;
    ret 0
  else ret pagetable.

Definition proc_freepagetable (pagetable sz : Z) : K unit :=
  on_mem (uvmunmap kend pagetable TRAMPOLINE 1 false) ;;
  on_mem (uvmunmap kend pagetable TRAPFRAME 1 false) ;;
  on_mem (uvmfree kend pagetable sz).

(** ** Allocating and freeing *)

Definition freeproc (p : nat) : K unit :=
  let* x := getp p in
  (if negb (p_trapframe x =? 0) then on_mem (kfree kend (p_trapframe x)) else ret tt) ;;
  setp p (p_set_trapframe 0) ;;
  (if negb (p_pagetable x =? 0) then proc_freepagetable (p_pagetable x) (p_sz x) else ret tt) ;;
  setp p (fun x => p_set_state UNUSED (p_set_xstate 0 (p_set_killed false (p_set_chan None
    (p_set_name (<[0%nat := 0]> (p_name x)) (p_set_parent None (p_set_pid 0 (p_set_sz 0 (p_set_pagetable 0 x))))))))).

(** The scan of allocproc(): the first UNUSED process, its lock held. *)
Definition allocproc_step (p : nat) : K (nat + option nat) :=
  if negb (p <? NPROCn)%nat then ret (inr None) else
  acquire (LProc p) ;;
  let* x := getp p in
  if bool_decide (p_state x = UNUSED) then ret (inr (Some p))
  else release (LProc p) ;; ret (inl (S p)).

Definition allocproc : K (option nat) :=
  let* r := iter (S (S NPROCn)) allocproc_step 0%nat in
  match r with
  | None => ret None
  | Some p =>
      let* pid := allocpid in
      setp p (p_set_pid pid) ;;
      setp p (p_set_state USED) ;;
      let* tf := on_mem kalloc in
      setp p (p_set_trapframe tf) ;;
      if tf =? 0 then freeproc p ;; release (LProc p) ;; ret None else
      let* pagetable := proc_pagetable p in
      setp p (p_set_pagetable pagetable) ;;
      if pagetable =? 0 then freeproc p ;; release (LProc p) ;; ret None else
      setp p (fun x => p_set_context (Context forkret_addr (u64 (p_kstack x + PGSIZE)) (replicate 12 0)) x) ;;
      ret (Some p)
  end.

(** The name field after safestrcpy(p->name, s, sizeof(p->name)). *)
Definition set_name (p : nat) (s : list Z) : K unit :=
  let* bs := the (safestrcpy s 16) in
  setp p (fun x => p_set_name (splice 0 bs (p_name x)) x).

Definition userinit : K unit :=
  let* r := allocproc in
  modify (k_set_initproc r) ;;
  let* p := the r in
  let* x := getp p in
  on_mem (uvmfirst (p_pagetable x) initcode (Z.of_nat (length initcode))) ;;
  setp p (p_set_sz PGSIZE) ;;
  tf_set p TF_epc 0 ;;
  tf_set p TF_sp PGSIZE ;;
  set_name p (lit "initcode") ;;
  let* cwd := on_fs (namei (lit "/")) in
  setp p (p_set_cwd cwd) ;;
  setp p (p_set_state RUNNABLE) ;;
  release (LProc p).

Definition growproc (n : Z) : K Z :=
  let* p := myproc in
  let* x := getp p in
  let sz := p_sz x in
  if n >? 0 then
    let* sz := on_mem (uvmalloc kend (p_pagetable x) sz (u64 (sz + n)) PTE_W) in
    if sz =? 0 then ret (-1) else setp p (p_set_sz sz) ;; ret 0
  else if n <? 0 then
    let* sz := on_mem (uvmdealloc kend (p_pagetable x) sz (u64 (sz + n))) in
    setp p (p_set_sz sz) ;; ret 0
  else setp p (p_set_sz sz) ;; ret 0.

(** ** fork, exit and wait *)

Definition fork : K Z :=
  let* p := myproc in
  let* r := allocproc in
  match r with
  | None => ret (-1)
  | Some np =>
      let* x := getp p in
      let* nx := getp np in
      let* r := on_mem (uvmcopy kend (p_pagetable x) (p_pagetable nx) (p_sz x)) in
      if r <? 0 then freeproc np ;; release (LProc np) ;; ret (-1) else
      setp np (p_set_sz (p_sz x)) ;;
      on_mem (modify (set_mem (fun m => memmove m (p_trapframe nx) (p_trapframe x) TF_SIZE))) ;;
      tf_set np TF_a0 0 ;;
      for_each (seq 0 NOFILEn) (fun i =>
        let* x := getp p in
        match mjoin (p_ofile x !! i) with
        | Some f => let* f := filedup f in setp np (fun nx => p_set_ofile (<[i := Some f]> (p_ofile nx)) nx)
        | None => ret tt
        end) ;;
      let* x := getp p in
      let* ip := the (p_cwd x) in
      let* cwd := on_fs (idup ip) in
      setp np (p_set_cwd (Some cwd)) ;;
      set_name np (p_name x) ;;
      let* nx := getp np in
      let pid := p_pid nx in
      release (LProc np) ;;
      acquire LWait ;;
      setp np (p_set_parent (Some p)) ;;
      release LWait ;;
      acquire (LProc np) ;;
      setp np (p_set_state RUNNABLE) ;;
      release (LProc np) ;;
      ret pid
  end.

(** wakeup() on a process pointer; the null pointer is no one's channel. *)
Definition wakeup_proc (p : option nat) : K unit :=
  match p with Some i => wakeup (ChProc i) | None => ret tt end.

Definition reparent (p : nat) : K unit :=
  for_each (seq 0 NPROCn) (fun pp =>
    let* x := getp pp in
    if bool_decide (p_parent x = Some p) then
      let* init := gets k_initproc in
      setp pp (p_set_parent init) ;;
      wakeup_proc init
    else ret tt).

(** sched() up to the switch: what it insists on. *)
Definition sched (p : nat) : K unit := fun w =>
  if negb (bool_decide (LProc p ∈ held w)) then Panic "sched p->lock" else
  if negb (length (held w) =? 1)%nat then Panic "sched locks" else
  match k_procs (user w) !! p with
  | Some x => if bool_decide (p_state x = RUNNING) then Panic "sched running" else Ret (tt, w)
  | None => Panic "wild pointer"
  end.

(** The world exit() hands to the scheduler. *)
Definition exit (status : Z) : K unit :=
  let* p := myproc in
  let* init := gets k_initproc in
  if bool_decide (init = Some p) then panic "init exiting" else
  for_each (seq 0 NOFILEn) (fun fd =>
    let* x := getp p in
    match mjoin (p_ofile x !! fd) with
    | Some f => fileclose kend f ;; setp p (fun x => p_set_ofile (<[fd := None]> (p_ofile x)) x)
    | None => ret tt
    end) ;;
  kbegin_op ;;
  let* x := getp p in
  let* ip := the (p_cwd x) in
  on_fs (iput ip) ;;
  kend_op ;;
  setp p (p_set_cwd None) ;;
  acquire LWait ;;
  reparent p ;;
  let* x := getp p in
  wakeup_proc (p_parent x) ;;
  acquire (LProc p) ;;
  setp p (p_set_xstate status) ;;
  setp p (p_set_state ZOMBIE) ;;
  release LWait ;;
  sched p.

(** One turn of the scan in wait(); the loop variables are [pp] and [havekids],
    and the result of a scan that returns nothing is [havekids]. *)
Definition wait_step (p : nat) (addr : Z) (a : nat * bool) : K (nat * bool + bool + Z) :=
  let '(pp, havekids) := a in
  if negb (pp <? NPROCn)%nat then ret (inl (inr havekids)) else
  let* x := getp pp in
  if negb (bool_decide (p_parent x = Some p)) then ret (inl (inl (S pp, havekids))) else
  acquire (LProc pp) ;;
  let* x := getp pp in
  if bool_decide (p_state x = ZOMBIE) then
    let pid := p_pid x in
    let* r := (if addr =? 0 then ret 0 else copyout_cur addr (le_bytes 4 (p_xstate x))) in
    if r <? 0 then release (LProc pp) ;; release LWait ;; ret (inr (-1)) else
    freeproc pp ;;
    release (LProc pp) ;;
    release LWait ;;
    ret (inr pid)
  else
    release (LProc pp) ;;
    ret (inl (inl (S pp, true))).

Definition wait_scan (p : nat) (addr : Z) : K (bool + Z) :=
  iter (S (S NPROCn)) (fun a =>
    let* r := wait_step p addr a in
    ret (match r with inl (inl a) => inl a | inl (inr h) => inr (inl h) | inr v => inr (inr v) end)) (0%nat, false).

Definition wait (addr : Z) : K Z :=
  let* p := myproc in
  acquire LWait ;;
  let* r := wait_scan p addr in
  match r with
  | inr v => ret v
  | inl havekids =>
      let* dead := (if negb havekids then ret true else killed p) in
      if dead : bool then release LWait ;; ret (-1) else sleep (ChProc p) LWait
  end.

Definition procdump : K unit :=
  printf_ln "" [] ;;
  for_each (seq 0 NPROCn) (fun p =>
    let* x := getp p in
    if bool_decide (p_state x = UNUSED) then ret tt else
    printf "%d %s %s" [AInt (p_pid x); AStr (Some (state_name (p_state x))); AStr (Some (p_name x))] ;;
    printf_ln "" []).
End Proc.
