(* ===== verification/ProcTree.v ===== *)
(** * The process table (kernel/proc.c)

    Process identifiers are unique, an UNUSED slot is clean, and every process but
    init has a live parent that has not exited, so that every zombie has someone
    to wait for it: an invariant of fork(), exit(), wait() and kill(), called by
    any processes in any order. *)

From S2P Require Import Prelude Machine Mem Kalloc Sleeplock Store Log FsDisk CString Printf Fs Demo Vm Kernel DemoKernel File Proc.

Open Scope Z_scope.

Definition live (x : proc) : Prop := p_state x <> UNUSED.
Definition can_wait (x : proc) : Prop := p_state x <> UNUSED /\ p_state x <> ZOMBIE.

Record procs_ok {St} (k : kernel St) : Prop := ProcsOk {
  po_len : length (k_procs k) = NPROCn;
  po_next : 1 <= k_nextpid k;
  po_init : exists i x, k_initproc k = Some i /\ k_procs k !! i = Some x /\ can_wait x;
  po_unused i x : k_procs k !! i = Some x -> p_state x = UNUSED -> p_pid x = 0 /\ p_parent x = None;
  po_pid i x : k_procs k !! i = Some x -> live x -> 1 <= p_pid x < k_nextpid k;
  po_uniq i j x y : k_procs k !! i = Some x -> k_procs k !! j = Some y -> live x -> live y ->
                    p_pid x = p_pid y -> i = j;
  po_parent i x : k_procs k !! i = Some x -> live x -> k_initproc k <> Some i ->
                  exists q y, p_parent x = Some q /\ k_procs k !! q = Some y /\ can_wait y
}.

(** ** What leaves the tree alone

    A process keeps its pid and its parent; at most it is woken. *)

Definition same_node (x y : proc) : Prop :=
  p_pid y = p_pid x /\ p_parent y = p_parent x /\
  (p_state y = p_state x \/ p_state x = SLEEPING /\ p_state y = RUNNABLE).

Definition calm_procs (l l' : list proc) : Prop :=
  length l' = length l /\
  forall i x y, l !! i = Some x -> l' !! i = Some y -> same_node x y.

Section Calm.
Context {St : Type} `{BlockStore St}.
Implicit Types w : world (kernel St).

Definition calm w w' : Prop :=
  calm_procs (k_procs (user w)) (k_procs (user w')) /\ k_nextpid (user w') = k_nextpid (user w) /\
  k_initproc (user w') = k_initproc (user w) /\ k_cur (user w') = k_cur (user w).

Lemma same_node_refl x : same_node x x.
Proof. unfold same_node. auto. Qed.

Lemma same_node_trans x y z : same_node x y -> same_node y z -> same_node x z.
Proof.
  intros (P1 & Q1 & S1) (P2 & Q2 & S2). split; [congruence|]. split; [congruence|].
  destruct S1 as [S1|[S1 S1']], S2 as [S2|[S2 S2']]; rewrite ?S1, ?S2 in *; try done; auto.
Qed.

Lemma calm_refl w : calm w w.
Proof.
  unfold calm, calm_procs. repeat split; try done; intros; simplify_eq; auto.
Qed.

Lemma lookup_total_len {A} (l l' : list A) i x : length l' = length l -> l !! i = Some x -> exists y, l' !! i = Some y.
Proof. intros E Hx. apply lookup_lt_is_Some_2. rewrite E. by eapply lookup_lt_Some. Qed.

Lemma calm_procs_trans l1 l2 l3 : calm_procs l1 l2 -> calm_procs l2 l3 -> calm_procs l1 l3.
Proof.
  intros [L1 C1] [L2 C2]. split; [congruence|]. intros i x z Hx Hz.
  destruct (lookup_total_len l1 l2 i x L1 Hx) as [y Hy]. eapply same_node_trans; eauto.
Qed.

Lemma calm_trans w1 w2 w3 : calm w1 w2 -> calm w2 w3 -> calm w1 w3.
Proof.
  intros (C1 & ? & ? & ?) (C2 & ? & ? & ?). split; [by eapply calm_procs_trans|]. repeat split; congruence.
Qed.

Lemma calm_eq w w' :
  k_procs (user w') = k_procs (user w) -> k_nextpid (user w') = k_nextpid (user w) ->
  k_initproc (user w') = k_initproc (user w) -> k_cur (user w') = k_cur (user w) -> calm w w'.
Proof. intros E1 E2 E3 E4. unfold calm. rewrite E1, E2, E3, E4. apply (calm_refl w). Qed.

Lemma calm_procs_alter l i f :
  (forall x, same_node x (f x)) -> calm_procs l (alter f i l).
Proof.
  intros Hf. split; [apply length_alter|]. intros j x y Hx. destruct (decide (j = i)) as [->|Hne].
  - rewrite list_lookup_alter_eq, Hx. intros [= <-]. apply Hf.
  - rewrite list_lookup_alter_ne by done. intros Hy. simplify_eq. apply same_node_refl.
Qed.

(** ** The operations that do *)

(** A computation after which the tree is the same, whatever it answers. *)
Definition calmly {A} (m : M (kernel St) A) : Prop := forall w, wlp m (fun _ w' => calm w w') w.

Lemma calmly_wlp {A} (m : M (kernel St) A) w0 w :
  calmly m -> calm w0 w -> wlp m (fun _ w' => calm w0 w') w.
Proof. intros Hm H0. eapply wlp_mono; [apply Hm|]. intros a w'. by apply calm_trans. Qed.

Lemma calmly_bind {A B} (m : M (kernel St) A) (k : A -> M (kernel St) B) :
  calmly m -> (forall a, calmly (k a)) -> calmly (bind m k).
Proof.
  intros Hm Hk w. apply wlp_bind. eapply wlp_mono; [apply Hm|]. intros a w' Hw. by apply calmly_wlp.
Qed.

Lemma calmly_ret {A} (a : A) : calmly (ret a).
Proof. intros w. apply calm_refl. Qed.
Lemma calmly_gets {A} (f : kernel St -> A) : calmly (gets f).
Proof. intros w. apply calm_refl. Qed.
Lemma calmly_the {A} (o : option A) : calmly (the o).
Proof. intros w. destruct o; [apply calm_refl|done]. Qed.
Lemma calmly_panic {A} msg : @calmly A (panic msg).
Proof. done. Qed.
Lemma calmly_acquire l : calmly (acquire l).
Proof. intros w. apply wlp_acquire. intros _. by apply calm_eq. Qed.
Lemma calmly_release l : calmly (release l).
Proof. intros w. apply wlp_release. intros _. by apply calm_eq. Qed.
Lemma calmly_sleep {A} c l : @calmly A (sleep c l).
Proof. intros w. apply wlp_sleep. Qed.
Lemma calmly_on_mem {A} (m : M kmem A) : calmly (on_mem m).
Proof. intros w. apply wlp_zoom. intros. by apply calm_eq. Qed.
Lemma calmly_on_fs {A} (m : M (fstate St umem) A) : calmly (on_fs m).
Proof. intros w. apply wlp_zoom. intros. by apply calm_eq. Qed.
Lemma calmly_begin_op : calmly kbegin_op.
Proof. intros w. apply wlp_zoom. intros. by apply calm_eq. Qed.
Lemma calmly_end_op : calmly kend_op.
Proof. intros w. apply wlp_zoom. intros. by apply calm_eq. Qed.
Lemma calmly_setf i f : calmly (setf i f).
Proof. intros w. by apply calm_eq. Qed.
Lemma calmly_setpipe a f : calmly (setpipe a f).
Proof. intros w. by apply calm_eq. Qed.
Lemma calmly_setp i f : (forall x, same_node x (f x)) -> calmly (setp i f).
Proof. intros Hf w. unfold calm. cbn. split; [by apply calm_procs_alter|done]. Qed.
Lemma calmly_for_each {A} (l : list A) body : (forall a, calmly (body a)) -> calmly (for_each l body).
Proof.
  intros Hb w. apply wlp_for_each with (I := calm w); [apply calm_refl| |done].
  intros a w' _ Hw. by apply calmly_wlp.
Qed.
Lemma calmly_iter {A B} n (body : A -> M (kernel St) (A + B)) a : (forall a, calmly (body a)) -> calmly (iter n body a).
Proof.
  intros Hb w. apply wlp_iter with (I := fun _ => calm w); [apply calm_refl|]. intros a' w' Hw.
  eapply wlp_mono; [by apply calmly_wlp|]. by intros [?|?] w''.
Qed.
End Calm.

Create HintDb calm.
#[export] Hint Resolve calmly_ret calmly_gets calmly_the calmly_panic calmly_acquire calmly_release calmly_sleep
  calmly_on_mem calmly_on_fs calmly_begin_op calmly_end_op calmly_setf calmly_setpipe : calm.

Ltac calm_step :=
  lazymatch goal with
  | |- calmly (bind _ _) => apply calmly_bind; [|intros ?]
  | |- calmly (for_each _ _) => apply calmly_for_each; intros ?
  | |- calmly (iter _ _ _) => apply calmly_iter; intros ?
  | |- calmly (match ?x with _ => _ end) => destruct x eqn:?
  | |- calmly _ => eauto with calm
  end.
Ltac calm := repeat calm_step.

Section Operations.
Context {St : Type} `{BlockStore St}.
Variable kend : Z.
Variables trampoline forkret_addr : Z.
Implicit Types w : world (kernel St).

Lemma calmly_getp p : calmly (@getp St p).
Proof. unfold getp. calm. Qed.
Hint Resolve calmly_getp : calm.

Lemma calm_alter w p x f :
  k_procs (user w) !! p = Some x -> same_node x (f x) ->
  calm w (World (held w) (trace w) (upd_proc p f (user w))).
Proof.
  intros Hx Hf. unfold calm. cbn. split; [|done]. split; [apply length_alter|]. intros j y z Hy.
  destruct (decide (j = p)) as [->|Hne].
  - rewrite list_lookup_alter_eq, Hy. intros [= <-]. by simplify_eq.
  - rewrite list_lookup_alter_ne by done. intros Hz. simplify_eq. apply same_node_refl.
Qed.

(** Code that acts on what it read of a process. *)
Lemma calmly_getp_bind {A} p (k : proc -> M (kernel St) A) :
  (forall x w, k_procs (user w) !! p = Some x -> wlp (k x) (fun _ w' => calm w w') w) -> calmly (bind (getp p) k).
Proof. intros Hk w. unfold getp. repeat wlp_step. by apply Hk. Qed.

Lemma calmly_killed p : calmly (@killed St p).
Proof. unfold killed. calm. Qed.

Lemma calmly_wakeup c : calmly (@wakeup St c).
Proof.
  unfold wakeup. apply calmly_for_each. intros p. apply calmly_bind; [calm|intros me].
  destruct (bool_decide _); [calm|]. apply calmly_bind; [calm|intros u]. apply calmly_getp_bind. intros x w Hx. wlp_step.
  destruct (bool_decide (p_state x = SLEEPING)) eqn:Es; cbn [andb]; [|by apply calmly_release].
  destruct (bool_decide (p_chan x = Some c)); [|by apply calmly_release].
  apply wlp_modify, calmly_wlp; [calm|]. apply bool_decide_eq_true in Es.
  eapply calm_alter; [done|]. unfold same_node. auto.
Qed.

Lemma calmly_kill pid : calmly (@kill St pid).
Proof.
  unfold kill. apply calmly_iter. intros p. unfold kill_step. destruct (negb _); [calm|].
  apply calmly_bind; [calm|intros u]. apply calmly_getp_bind. intros x w Hx.
  destruct (p_pid x =? pid); [|apply calmly_wlp; [calm|apply calm_refl]].
  unfold setp. wlp_step. wlp_step. set (w1 := World _ _ _).
  assert (calm w w1) as C1 by (by eapply calm_alter; [exact Hx|unfold same_node; auto]).
  wlp_step. destruct (bool_decide (p_state x = SLEEPING)) eqn:Es; wlp_step.
  - apply calmly_wlp; [calm|]. eapply calm_trans; [exact C1|]. apply bool_decide_eq_true in Es.
    apply (calm_alter w1 p (p_set_killed true x)); [|unfold same_node; cbn; auto].
    subst w1. cbn. by rewrite list_lookup_alter_eq, Hx.
  - apply calmly_wlp; [calm|exact C1].
Qed.

#[local] Hint Resolve calmly_killed calmly_wakeup : calm.

Lemma calmly_pipeclose pi b : calmly (@pipeclose St kend pi b).
Proof. unfold pipeclose, getpipe. calm. intros w. by apply calm_eq. Qed.
#[local] Hint Resolve calmly_pipeclose : calm.

Lemma calmly_fileclose f : calmly (fileclose kend f).
Proof. unfold fileclose, getf. calm. Qed.

Lemma calmly_filedup f : calmly (@filedup St f).
Proof. unfold filedup, getf. calm. Qed.

Lemma calmly_copyout va bs : calmly (@copyout_cur St va bs).
Proof. unfold copyout_cur, myproc. calm. Qed.

Lemma calmly_proc_pagetable p : calmly (@proc_pagetable St kend trampoline p).
Proof. unfold proc_pagetable. calm. Qed.

Lemma calmly_freepagetable pt sz : calmly (@proc_freepagetable St kend pt sz).
Proof. unfold proc_freepagetable. calm. Qed.

Lemma calmly_tf_set p off v : calmly (@tf_set St p off v).
Proof. unfold tf_set. calm. Qed.

#[local] Hint Resolve calmly_fileclose calmly_filedup calmly_copyout calmly_proc_pagetable calmly_freepagetable
  calmly_tf_set : calm.

Lemma calmly_set_name p s : calmly (@set_name St p s).
Proof. unfold set_name. calm. apply calmly_setp. intros x. unfold same_node. auto. Qed.

Lemma wlp_getp p (Q : proc -> world (kernel St) -> Prop) w :
  (forall x, k_procs (user w) !! p = Some x -> Q x w) -> wlp (getp p) Q w.
Proof. intros HQ. unfold getp. repeat wlp_step. by apply HQ. Qed.

(** ** One process changes

    Since [w0] the tree has changed at most at the process [np], which now
    satisfies [P], and in the next pid, which is [n]. *)
Definition only (np : nat) (P : proc -> Prop) (n : Z) (w0 w : world (kernel St)) : Prop :=
  (exists x, k_procs (user w) !! np = Some x /\ P x) /\
  length (k_procs (user w)) = length (k_procs (user w0)) /\
  (forall i y z, i <> np -> k_procs (user w0) !! i = Some y -> k_procs (user w) !! i = Some z -> same_node y z) /\
  k_initproc (user w) = k_initproc (user w0) /\ k_cur (user w) = k_cur (user w0) /\ k_nextpid (user w) = n.

Definition node (st : procstate) (pid : Z) (parent : option nat) (x : proc) : Prop :=
  p_state x = st /\ p_pid x = pid /\ p_parent x = parent.

Lemma only_start np x st pid parent w :
  k_procs (user w) !! np = Some x -> node st pid parent x -> only np (node st pid parent) (k_nextpid (user w)) w w.
Proof.
  intros Hx HP. split; [eauto|]. repeat split; try done; simplify_eq; auto.
Qed.

Lemma only_setp np P P' n w0 w f :
  only np P n w0 w -> (forall x, P x -> P' (f x)) ->
  only np P' n w0 (World (held w) (trace w) (upd_proc np f (user w))).
Proof.
  intros ((x & Hx & HP) & HL & Ho & Hi & Hc & Hn) Hf. unfold only. cbn.
  split; [exists (f x); split; [by rewrite list_lookup_alter_eq, Hx|auto]|].
  split; [by rewrite length_alter|]. split; [|done].
  intros i y z Hne Hy. rewrite list_lookup_alter_ne by done. by apply Ho.
Qed.

Lemma only_calm np st pid parent n w0 w w' :
  st <> SLEEPING -> only np (node st pid parent) n w0 w -> calm w w' -> only np (node st pid parent) n w0 w'.
Proof.
  intros Hst ((x & Hx & S1 & S2 & S3) & HL & Ho & Hi & Hc & Hn) ((L & C) & N & I & Cu).
  split.
  - destruct (lookup_total_len _ (k_procs (user w')) np x L Hx) as [y Hy]. exists y. split; [done|].
    destruct (C np x y Hx Hy) as (P1 & P2 & [P3|[P3 _]]); [|congruence]. repeat split; congruence.
  - split; [congruence|]. split; [|repeat split; congruence]. intros i y z Hne Hy Hz.
    assert (exists v, k_procs (user w) !! i = Some v) as [v Hv].
    { apply (lookup_total_len _ _ _ _ HL Hy). }
    eapply same_node_trans; eauto.
Qed.

Lemma only_wlp {A} (m : M (kernel St) A) np st pid parent n w0 w :
  st <> SLEEPING -> calmly m -> only np (node st pid parent) n w0 w ->
  wlp m (fun _ w' => only np (node st pid parent) n w0 w') w.
Proof. intros Hst Hm Ho. eapply wlp_mono; [apply Hm|]. intros a w'. by apply only_calm. Qed.

(** A step that leaves the tree alone, then the rest. *)
Lemma only_bind {A B} (m : M (kernel St) A) (k : A -> M (kernel St) B) np st pid parent n w0 w Q :
  only np (node st pid parent) n w0 w -> st <> SLEEPING -> calmly m ->
  (forall a w', only np (node st pid parent) n w0 w' -> wlp (k a) Q w') -> wlp (bind m k) Q w.
Proof.
  intros Ho Hst Hm Hk. apply wlp_bind. eapply wlp_mono; [by apply only_wlp|]. intros a w' Hw. by apply Hk.
Qed.

(** Writing the process itself, then the rest. *)
Lemma only_bind_setp {B} f (k : unit -> M (kernel St) B) np P P' n w0 w Q :
  only np P n w0 w -> (forall x, P x -> P' (f x)) ->
  (forall w', only np P' n w0 w' -> wlp (k tt) Q w') -> wlp (bind (setp np f) k) Q w.
Proof. intros Ho Hf Hk. wlp_step. apply wlp_modify, Hk. by eapply only_setp. Qed.

Lemma freeproc_wlp np st pid parent n w0 w Q :
  st <> SLEEPING -> only np (node st pid parent) n w0 w ->
  (forall w', only np (node UNUSED 0 None) n w0 w' -> Q tt w') -> wlp (freeproc kend np) Q w.
Proof.
  intros Hst Ho HQ. unfold freeproc.
  eapply only_bind; [exact Ho|done|apply calmly_getp|]. intros x w1 H1.
  eapply only_bind; [exact H1|done|calm|]. intros ? w2 H2.
  eapply (only_bind_setp _ _ _ _ (node st pid parent)); [exact H2|by intros y|]. intros w3 H3.
  eapply only_bind; [exact H3|done|calm|]. intros ? w4 H4.
  apply wlp_modify, HQ. eapply only_setp; [exact H4|]. done.
Qed.

(** allocproc() takes an UNUSED process and the next pid. *)
Definition clean (w : world (kernel St)) : Prop :=
  forall i x, k_procs (user w) !! i = Some x -> p_state x = UNUSED -> p_pid x = 0 /\ p_parent x = None.

Lemma allocproc_scan w :
  wlp (iter (S (S NPROCn)) allocproc_step 0%nat)
    (fun r w' => user w' = user w /\
       match r with Some np => exists x, k_procs (user w) !! np = Some x /\ p_state x = UNUSED | None => True end) w.
Proof.
  apply wlp_iter with (I := fun _ w' => user w' = user w); [done|]. intros p w1 H1.
  unfold allocproc_step, getp. repeat wlp_step; rewrite H1 in *; cbn; try done.
  split; [done|]. eexists. split; [done|]. by eapply bool_decide_eq_true.
Qed.

Lemma allocpid_wlp np x w :
  k_procs (user w) !! np = Some x -> node UNUSED 0 None x -> 1 <= k_nextpid (user w) < 2 ^ 31 - 1 ->
  wlp allocpid (fun pid w' => pid = k_nextpid (user w) /\
                  only np (node UNUSED 0 None) (k_nextpid (user w) + 1) w w') w.
Proof.
  intros Hx Hnode Hn. unfold allocpid. repeat wlp_step. split; [done|]. split; [eauto|]. cbn.
  repeat split; try done; simplify_eq; auto. rewrite s32_small by lia. done.
Qed.

Lemma allocproc_wlp w Q :
  clean w -> 1 <= k_nextpid (user w) < 2 ^ 31 - 1 ->
  (forall w', calm w w' -> Q None w') ->
  (forall np x w', k_procs (user w) !! np = Some x -> p_state x = UNUSED ->
     only np (node UNUSED 0 None) (k_nextpid (user w) + 1) w w' -> Q None w') ->
  (forall np x w', k_procs (user w) !! np = Some x -> p_state x = UNUSED ->
     only np (node USED (k_nextpid (user w)) None) (k_nextpid (user w) + 1) w w' -> Q (Some np) w') ->
  wlp (allocproc kend trampoline forkret_addr) Q w.
Proof.
  intros Hc Hn Hnone Hfail Hok. unfold allocproc. apply wlp_bind. eapply wlp_mono; [apply allocproc_scan|].
  intros [np|] w1 [E Hx]; [|apply wlp_ret, Hnone, calm_eq; by rewrite E].
  destruct Hx as (x & Hx & Hs). destruct (Hc np x Hx Hs) as [Hpid Hpar].
  wlp_step. eapply wlp_mono; [apply (allocpid_wlp np x); rewrite ?E; done|]. rewrite E. intros pid w2 [-> H2'].
  assert (only np (node UNUSED 0 None) (k_nextpid (user w) + 1) w w2) as H2 by (unfold only in *; by rewrite E in H2').
  eapply (only_bind_setp _ _ _ _ (node UNUSED (k_nextpid (user w)) None)); [exact H2|by intros y (?&?&?)|]. intros w3 H3.
  eapply (only_bind_setp _ _ _ _ (node USED (k_nextpid (user w)) None)); [exact H3|by intros y (?&?&?)|]. intros w4 H4.
  eapply only_bind; [exact H4|done|calm|]. intros tf w5 H5.
  eapply (only_bind_setp _ _ _ _ (node USED (k_nextpid (user w)) None)); [exact H5|done|]. intros w6 H6.
  destruct (tf =? 0).
  { wlp_step. eapply freeproc_wlp; [|exact H6|]; [done|]. intros w7 H7.
    eapply only_bind; [exact H7|done|calm|]. intros ? w8 H8. by eapply Hfail. }
  eapply only_bind; [exact H6|done|calm|]. intros pt w7 H7.
  eapply (only_bind_setp _ _ _ _ (node USED (k_nextpid (user w)) None)); [exact H7|done|]. intros w8 H8.
  destruct (pt =? 0).
  { wlp_step. eapply freeproc_wlp; [|exact H8|]; [done|]. intros w9 H9.
    eapply only_bind; [exact H9|done|calm|]. intros ? w10 H10. by eapply Hfail. }
  eapply (only_bind_setp _ _ _ _ (node USED (k_nextpid (user w)) None)); [exact H8|done|]. intros w9 H9.
  by eapply Hok.
Qed.

(** The descriptors and the directory of the parent, copied to the child. *)
Lemma fork_files_wlp p np n pid w0 w Q :
  only np (node USED pid None) n w0 w ->
  (forall w', only np (node USED pid None) n w0 w' -> Q tt w') ->
  wlp (for_each (seq 0 NOFILEn) (fun i =>
        let* x := getp p in
        match mjoin (p_ofile x !! i) with
        | Some f => let* f := filedup f in setp np (fun nx => p_set_ofile (<[i := Some f]> (p_ofile nx)) nx)
        | None => ret tt
        end)) Q w.
Proof.
  intros Ho HQ. apply wlp_for_each with (I := only np (node USED pid None) n w0); [done| |done].
  intros i w1 _ H1. eapply only_bind; [exact H1|done|apply calmly_getp|]. intros x w2 H2.
  destruct (mjoin _) as [f|]; [|done].
  eapply only_bind; [exact H2|done|calm|]. intros f' w3 H3.
  apply wlp_modify. by eapply only_setp.
Qed.

Lemma fork_wlp p w Q :
  k_cur (user w) = Some p -> clean w -> 1 <= k_nextpid (user w) < 2 ^ 31 - 1 ->
  (forall r w', calm w w' -> Q r w') ->
  (forall np x r w', k_procs (user w) !! np = Some x -> p_state x = UNUSED ->
     only np (node UNUSED 0 None) (k_nextpid (user w) + 1) w w' -> Q r w') ->
  (forall np x r w', k_procs (user w) !! np = Some x -> p_state x = UNUSED ->
     only np (node RUNNABLE (k_nextpid (user w)) (Some p)) (k_nextpid (user w) + 1) w w' -> Q r w') ->
  wlp (fork kend trampoline forkret_addr) Q w.
Proof.
  intros Hp Hc Hn Hcalm Hfail Hok. unfold fork, myproc. repeat wlp_step. simplify_eq.
  apply allocproc_wlp; try done.
  - intros w1 H1. by apply Hcalm.
  - intros np x w1 Hx Hs H1. by eapply Hfail.
  - intros np x w1 Hx Hs H1. cbv beta iota.
    eapply only_bind; [exact H1|done|apply calmly_getp|]. intros px w2 H2.
    eapply only_bind; [exact H2|done|apply calmly_getp|]. intros nx w3 H3.
    eapply only_bind; [exact H3|done|calm|]. intros r w4 H4. destruct (r <? 0).
    { wlp_step. eapply freeproc_wlp; [|exact H4|]; [done|]. intros w5 H5.
      eapply only_bind; [exact H5|done|calm|]. intros ? w6 H6. by eapply Hfail. }
    eapply (only_bind_setp _ _ _ _ (node USED (k_nextpid (user w)) None)); [exact H4|done|]. intros w5 H5.
    eapply only_bind; [exact H5|done|calm|]. intros ? w6 H6.
    eapply only_bind; [exact H6|done|calm|]. intros ? w7 H7.
    wlp_step. eapply fork_files_wlp; [exact H7|]. intros w8 H8.
    eapply only_bind; [exact H8|done|apply calmly_getp|]. intros px' w9 H9.
    eapply only_bind; [exact H9|done|calm|]. intros ip w10 H10.
    eapply only_bind; [exact H10|done|calm|]. intros cwd w11 H11.
    eapply (only_bind_setp _ _ _ _ (node USED (k_nextpid (user w)) None)); [exact H11|done|]. intros w12 H12.
    eapply only_bind; [exact H12|done|apply calmly_set_name|]. intros ? w13 H13.
    eapply only_bind; [exact H13|done|apply calmly_getp|]. intros nx' w14 H14.
    eapply only_bind; [exact H14|done|calm|]. intros ? w15 H15.
    eapply only_bind; [exact H15|done|calm|]. intros ? w16 H16.
    eapply (only_bind_setp _ _ _ _ (node USED (k_nextpid (user w)) (Some p))); [exact H16|by intros y (?&?&?)|]. intros w17 H17.
    eapply only_bind; [exact H17|done|calm|]. intros ? w18 H18.
    eapply only_bind; [exact H18|done|calm|]. intros ? w19 H19.
    eapply (only_bind_setp _ _ _ _ (node RUNNABLE (k_nextpid (user w)) (Some p))); [exact H19|by intros y (?&?&?)|]. intros w20 H20.
    eapply only_bind; [exact H20|done|calm|]. intros ? w21 H21. by eapply Hok.
Qed.

(** ** wait *)

Lemma only_of_calm np x w0 w :
  calm w0 w -> k_procs (user w) !! np = Some x ->
  only np (node (p_state x) (p_pid x) (p_parent x)) (k_nextpid (user w0)) w0 w.
Proof.
  intros ((L & C) & N & I & Cu) Hx. split; [by exists x|]. split; [done|]. split; [|done].
  intros i y z _ Hy Hz. by eapply C.
Qed.

Lemma calm_zombie w0 w pp x :
  calm w0 w -> k_procs (user w) !! pp = Some x -> p_state x = ZOMBIE ->
  exists y, k_procs (user w0) !! pp = Some y /\ p_state y = ZOMBIE /\ p_pid y = p_pid x /\ p_parent y = p_parent x.
Proof.
  intros ((L & C) & _) Hx Hs. destruct (lookup_total_len _ (k_procs (user w0)) pp x (eq_sym L) Hx) as [y Hy].
  exists y. split; [done|]. destruct (C pp y x Hy Hx) as (E1 & E2 & [E3|[_ E3]]); [|congruence]. repeat split; congruence.
Qed.

(** What wait() has done when it returns: nothing to the tree, or it freed one
    zombie child and answers its pid. *)
Definition waited (p : nat) (w0 : world (kernel St)) (v : Z) (w : world (kernel St)) : Prop :=
  calm w0 w \/
  exists pp x, k_procs (user w0) !! pp = Some x /\ p_state x = ZOMBIE /\ p_parent x = Some p /\ p_pid x = v /\
    only pp (node UNUSED 0 None) (k_nextpid (user w0)) w0 w.

Lemma reap_wlp p pp x (addr : Z) w0 w Q :
  calm w0 w -> k_procs (user w) !! pp = Some x -> p_state x = ZOMBIE -> p_parent x = Some p ->
  (forall v w', waited p w0 v w' -> Q (inr v) w') ->
  wlp (let* r := (if addr =? 0 then ret 0 else copyout_cur addr (le_bytes 4 (p_xstate x))) in
       if r <? 0 then release (LProc pp) ;; release LWait ;; ret (inr (-1)) else
       freeproc kend pp ;;
       release (LProc pp) ;;
       release LWait ;;
       ret (inr (p_pid x) : nat * bool + bool + Z)) Q w.
Proof.
  intros C0 Hx Hs Hp HQ. destruct (calm_zombie _ _ _ _ C0 Hx Hs) as (y & Hy & Hys & Hyp & Hyq).
  pose proof (only_of_calm pp x w0 w C0 Hx) as O0. rewrite Hs, Hp in O0.
  wlp_step. eapply wlp_mono with (P := fun _ w1 => calm w0 w1 /\ only pp (node ZOMBIE (p_pid x) (Some p)) (k_nextpid (user w0)) w0 w1).
  { assert (calmly (if addr =? 0 then ret 0 else @copyout_cur St addr (le_bytes 4 (p_xstate x)))) as Hc by calm.
    eapply wlp_mono; [apply Hc|]. intros r w1 C1. split; [by eapply calm_trans|by eapply only_calm]. }
  intros r w1 [C1 O1]. destruct (r <? 0).
  - apply (wlp_mono _ (fun r w' => r = inr (-1) /\ calm w0 w')).
    + repeat wlp_step. split; [done|]. eapply calm_trans; [exact C1|by apply calm_eq].
    + intros r' w' [-> C2]. apply HQ. by left.
  - wlp_step. eapply freeproc_wlp; [|exact O1|]; [done|]. intros w2 O2.
    eapply only_bind; [exact O2|done|calm|]. intros ? w3 O3.
    eapply only_bind; [exact O3|done|calm|]. intros ? w4 O4. apply wlp_ret, HQ. right. exists pp, y.
    split; [done|]. split; [done|]. split; [congruence|]. split; [done|exact O4].
Qed.

Lemma wait_step_wlp p addr a w0 w :
  calm w0 w ->
  wlp (wait_step kend p addr a)
    (fun r w' => match r with inr v => waited p w0 v w' | inl _ => calm w0 w' end) w.
Proof.
  intros C0. destruct a as [pp h]. unfold wait_step. cbv beta iota. destruct (negb (pp <? NPROCn)%nat); [exact C0|].
  wlp_step. apply wlp_getp. intros x Hx. destruct (negb (bool_decide (p_parent x = Some p))) eqn:Epar; [exact C0|].
  wlp_step. apply wlp_acquire. intros _. wlp_step. apply wlp_getp. intros x' Hx'. cbn in Hx'. simplify_eq.
  apply negb_false_iff, bool_decide_eq_true in Epar.
  match goal with |- wlp _ _ ?w1 => assert (calm w0 w1) as C1 by (eapply calm_trans; [exact C0|by apply calm_eq]) end.
  destruct (bool_decide (p_state x = ZOMBIE)) eqn:Es.
  - apply bool_decide_eq_true in Es. eapply reap_wlp; [exact C1|done|done|done|]. by intros v w'.
  - repeat wlp_step. eapply calm_trans; [exact C1|by apply calm_eq].
Qed.

Lemma wait_wlp p addr w :
  k_cur (user w) = Some p -> wlp (wait kend addr) (fun v w' => waited p w v w') w.
Proof.
  intros Hp. unfold wait, myproc. repeat wlp_step. simplify_eq.
  apply wlp_mono with (P := fun r w' => match r with inr v => waited p w v w' | inl _ => calm w w' end).
  - unfold wait_scan. apply wlp_iter with (I := fun _ => calm w); [by apply calm_eq|]. intros b w1 C1.
    wlp_step. eapply wlp_mono; [by apply wait_step_wlp|]. intros [[b'|h]|v] w2 C2; exact C2.
  - intros [h|v] w1 C1; [|exact C1].
    assert (forall dead : bool, calmly (if dead then release LWait ;; ret (-1) else @sleep (kernel St) Z (ChProc p) LWait)) as Hd by (intros; calm).
    assert (calmly (if negb h then ret true else @killed St p)) as Hk by calm.
    wlp_step. eapply wlp_mono; [exact (calmly_wlp _ w w1 Hk C1)|]. intros dead w2 C2.
    eapply wlp_mono; [exact (calmly_wlp _ w w2 (Hd dead) C2)|]. intros v w3 C3. by left.
Qed.

(** ** exit *)

(** The children of [p] among the first [n] processes now belong to init. *)
Definition adopted (p n : nat) (w w' : world (kernel St)) : Prop :=
  length (k_procs (user w')) = length (k_procs (user w)) /\
  (forall i x y, k_procs (user w) !! i = Some x -> k_procs (user w') !! i = Some y ->
     p_pid y = p_pid x /\
     p_parent y = (if bool_decide ((i < n)%nat /\ p_parent x = Some p) then k_initproc (user w) else p_parent x) /\
     (p_state y = p_state x \/ p_state x = SLEEPING /\ p_state y = RUNNABLE)) /\
  k_nextpid (user w') = k_nextpid (user w) /\ k_initproc (user w') = k_initproc (user w) /\
  k_cur (user w') = k_cur (user w).

Lemma adopted_calm p n w w1 w2 : adopted p n w w1 -> calm w1 w2 -> adopted p n w w2.
Proof.
  intros (L & A & N & I & Cu) ((L' & C) & N' & I' & Cu'). split; [congruence|]. split; [|repeat split; congruence].
  intros i x z Hx Hz. destruct (lookup_total_len _ (k_procs (user w1)) i x L Hx) as [y Hy].
  destruct (A i x y Hx Hy) as (E1 & E2 & E3). destruct (C i y z Hy Hz) as (F1 & F2 & F3).
  split; [congruence|]. split; [congruence|].
  destruct E3 as [E3|[E3 E3']], F3 as [F3|[F3 F3']]; rewrite ?E3, ?F3 in *; try done; auto.
Qed.

Lemma adopted_start p w w' : calm w w' -> adopted p 0 w w'.
Proof.
  intros ((L & C) & N & I & Cu). split; [done|]. split; [|done]. intros i x y Hx Hy.
  destruct (C i x y Hx Hy) as (E1 & E2 & E3). split; [done|]. split; [|done].
  rewrite bool_decide_eq_false_2 by lia. done.
Qed.

(** Child number [n], taken or not. *)
Lemma adopted_next p n w w1 x :
  adopted p n w w1 -> k_procs (user w1) !! n = Some x -> p_parent x <> Some p -> adopted p (S n) w w1.
Proof.
  intros (L & A & R) Hx Hp. split; [done|]. split; [|done]. intros i y z Hy Hz.
  destruct (A i y z Hy Hz) as (E1 & E2 & E3). split; [done|]. split; [|done]. rewrite E2.
  destruct (decide (i = n)) as [->|Hne].
  - simplify_eq. rewrite (bool_decide_eq_false_2 ((n < n)%nat /\ _)) in E2 by lia.
    rewrite !bool_decide_eq_false_2; [done|rewrite <- E2; tauto|lia].
  - rewrite (bool_decide_ext ((i < n)%nat /\ p_parent y = Some p) ((i < S n)%nat /\ p_parent y = Some p)); [done|].
    split; intros [? ?]; (split; [lia|done]).
Qed.

Lemma adopted_take p n w w1 x :
  adopted p n w w1 -> k_procs (user w1) !! n = Some x -> p_parent x = Some p ->
  adopted p (S n) w (World (held w1) (trace w1) (upd_proc n (p_set_parent (k_initproc (user w1))) (user w1))).
Proof.
  intros (L & A & N & I & Cu) Hx Hp. unfold adopted. cbn. split; [by rewrite length_alter|]. split; [|done].
  intros i y z Hy. destruct (decide (i = n)) as [->|Hne].
  - rewrite list_lookup_alter_eq, Hx. intros [= <-]. destruct (A n y x Hy Hx) as (E1 & E2 & E3). cbn.
    split; [done|]. split; [|done]. rewrite bool_decide_eq_false_2 in E2 by lia.
    rewrite bool_decide_eq_true_2 by (split; [lia|congruence]). done.
  - rewrite list_lookup_alter_ne by done. intros Hz. destruct (A i y z Hy Hz) as (E1 & E2 & E3).
    split; [done|]. split; [|done]. rewrite E2.
    rewrite (bool_decide_ext ((i < n)%nat /\ p_parent y = Some p) ((i < S n)%nat /\ p_parent y = Some p)); [done|].
    split; intros [? ?]; (split; [lia|done]).
Qed.

Lemma reparent_wlp p w0 w Q :
  calm w0 w -> (forall w', adopted p NPROCn w0 w' -> Q tt w') -> wlp (reparent p) Q w.
Proof.
  intros C0 HQ. unfold reparent. apply wlp_for_seq with (I := fun n => adopted p n w0); [by apply adopted_start| |exact HQ].
  intros n w1 Hn H1. wlp_step. apply wlp_getp. intros x Hx.
  destruct (bool_decide (p_parent x = Some p)) eqn:Ep.
  - apply bool_decide_eq_true in Ep. wlp_step. wlp_step. wlp_step. apply wlp_modify.
    assert (calmly (wakeup_proc (k_initproc (user w1)))) as Hc by (unfold wakeup_proc; calm).
    eapply wlp_mono; [apply Hc|]. intros u w2 C2. eapply adopted_calm; [|exact C2]. by eapply adopted_take.
  - apply bool_decide_eq_false in Ep. by eapply adopted_next.
Qed.

Definition exited (p : nat) (w w' : world (kernel St)) : Prop :=
  length (k_procs (user w')) = length (k_procs (user w)) /\
  (forall i x y, k_procs (user w) !! i = Some x -> k_procs (user w') !! i = Some y ->
     p_pid y = p_pid x /\
     p_parent y = (if bool_decide (p_parent x = Some p) then k_initproc (user w) else p_parent x) /\
     (if decide (i = p) then p_state y = ZOMBIE
      else p_state y = p_state x \/ p_state x = SLEEPING /\ p_state y = RUNNABLE)) /\
  k_nextpid (user w') = k_nextpid (user w) /\ k_initproc (user w') = k_initproc (user w) /\
  k_cur (user w') = k_cur (user w).

Lemma adopted_zombie p w w1 h tr :
  length (k_procs (user w)) = NPROCn -> adopted p NPROCn w w1 ->
  exited p w (World h tr (upd_proc p (p_set_state ZOMBIE) (user w1))).
Proof.
  intros HL (L & A & N & I & Cu). unfold exited. cbn. split; [by rewrite length_alter|]. split; [|done].
  intros i x y Hx Hy. assert (i < NPROCn)%nat as Hi by (rewrite <- HL; by eapply lookup_lt_Some).
  destruct (lookup_total_len _ (k_procs (user w1)) i x L Hx) as [z Hz].
  destruct (A i x z Hx Hz) as (E1 & E2 & E3).
  rewrite (bool_decide_ext ((i < NPROCn)%nat /\ p_parent x = Some p) (p_parent x = Some p)) in E2 by tauto.
  destruct (decide (i = p)) as [->|Hne].
  - rewrite list_lookup_alter_eq, Hz in Hy. by injection Hy as <-.
  - rewrite list_lookup_alter_ne, Hz in Hy by done. by injection Hy as <-.
Qed.

Lemma calm_bind {A B} (m : M (kernel St) A) (k : A -> M (kernel St) B) w0 w Q :
  calm w0 w -> calmly m -> (forall a w', calm w0 w' -> wlp (k a) Q w') -> wlp (bind m k) Q w.
Proof. intros C0 Hm Hk. wlp_step. eapply wlp_mono; [exact (calmly_wlp m w0 w Hm C0)|]. intros a w'. apply Hk. Qed.

Lemma adopted_bind {A B} (m : M (kernel St) A) (k : A -> M (kernel St) B) p n w0 w Q :
  adopted p n w0 w -> calmly m -> (forall a w', adopted p n w0 w' -> wlp (k a) Q w') -> wlp (bind m k) Q w.
Proof.
  intros C0 Hm Hk. wlp_step. eapply wlp_mono; [apply Hm|]. intros a w' C. apply Hk. by eapply adopted_calm.
Qed.

Lemma exit_wlp p status w :
  k_cur (user w) = Some p -> length (k_procs (user w)) = NPROCn ->
  wlp (exit kend status) (fun _ w' => exited p w w' /\ k_initproc (user w) <> Some p) w.
Proof.
  intros Hp HL. unfold exit, myproc. do 4 wlp_step. wlp_step. wlp_step. simplify_eq.
  destruct (bool_decide (k_initproc (user w) = Some p)) eqn:Ei; [done|]. apply bool_decide_eq_false in Ei.
  eapply calm_bind; [apply (calm_refl w)| |intros ? w1 C1].
  { calm. apply calmly_setp. intros x. unfold same_node. auto. }
  eapply calm_bind; [exact C1|calm|intros ? w2 C2].
  eapply calm_bind; [exact C2|apply calmly_getp|intros x w3 C3].
  eapply calm_bind; [exact C3|calm|intros ip w4 C4].
  eapply calm_bind; [exact C4|calm|intros ? w5 C5].
  eapply calm_bind; [exact C5|calm|intros ? w6 C6].
  eapply calm_bind; [exact C6|apply calmly_setp; intros y; unfold same_node; auto|intros ? w7 C7].
  eapply calm_bind; [exact C7|calm|intros ? w8 C8].
  wlp_step. eapply reparent_wlp; [exact C8|]. intros w9 A9.
  eapply adopted_bind; [exact A9|apply calmly_getp|intros y w10 A10].
  eapply adopted_bind; [exact A10|unfold wakeup_proc; calm|intros ? w11 A11].
  eapply adopted_bind; [exact A11|calm|intros ? w12 A12].
  eapply adopted_bind; [exact A12|apply calmly_setp; intros z; unfold same_node; auto|intros ? w13 A13].
  wlp_step. apply wlp_modify. wlp_step. apply wlp_release. intros _.
  pose proof (adopted_zombie p w w13) as Hz. unfold wlp, sched. cbn [held user].
  repeat case_match; try done. simplify_eq. split; [by apply Hz|done].
Qed.
End Operations.

(** ** The invariant *)

Section Invariant.
Context {St : Type} `{BlockStore St}.
Variable kend : Z.
Variables trampoline forkret_addr : Z.
Implicit Types w : world (kernel St).

Lemma same_node_live x y : same_node x y -> live y <-> live x.
Proof. unfold live. intros (_ & _ & [->|[-> ->]]); done. Qed.
Lemma same_node_can_wait x y : same_node x y -> can_wait y <-> can_wait x.
Proof. unfold can_wait. intros (_ & _ & [->|[-> ->]]); done. Qed.

Lemma lookup_back w w' i y :
  length (k_procs (user w')) = length (k_procs (user w)) -> k_procs (user w') !! i = Some y ->
  exists x, k_procs (user w) !! i = Some x.
Proof. intros E Hy. by eapply lookup_total_len; [|exact Hy]. Qed.

(** Every process is as before, or is the process [np], which was not live and not
    init's or anyone's parent; it is now free, or new with a parent that can
    wait. *)
Lemma procs_ok_only np x P n w w' :
  procs_ok (user w) -> k_procs (user w) !! np = Some x -> ~ can_wait x -> only np P n w w' ->
  (forall y, P y -> p_state y = UNUSED -> p_pid y = 0 /\ p_parent y = None) ->
  (forall y, P y -> live y -> p_pid y = k_nextpid (user w) /\
     exists q z, p_parent y = Some q /\ k_procs (user w) !! q = Some z /\ can_wait z) ->
  k_nextpid (user w) <= n -> ((exists y, P y /\ live y) -> k_nextpid (user w) < n) -> procs_ok (user w').
Proof.
  intros [HL Hnx (ii & ix & Hi & Hix & Hiw) Hun Hpid Huq Hpar] Hx Hnw ((y0 & Hy0 & HP) & L & Ho & I & Cu & N) Hfree Hnew Hn Hn'.
  assert (forall q z, k_procs (user w) !! q = Some z -> can_wait z -> exists z', k_procs (user w') !! q = Some z' /\ can_wait z') as Hw.
  { intros q z Hz Hzw. assert (q <> np) as Hqn by (intros ->; congruence).
    destruct (lookup_total_len _ (k_procs (user w')) q z L Hz) as [z' Hz']. exists z'. split; [done|].
    by apply (same_node_can_wait z z'); [eapply Ho|]. }
  assert (forall i y, k_procs (user w') !! i = Some y -> i <> np -> exists x, k_procs (user w) !! i = Some x /\ same_node x y) as Hback.
  { intros i y Hy Hne. destruct (lookup_back w w' i y L Hy) as [x' Hx']. eauto. }
  split.
  - congruence.
  - lia.
  - destruct (Hw ii ix Hix Hiw) as (z & Hz & Hzw). exists ii, z. by rewrite I.
  - intros i y Hy Hs. destruct (decide (i = np)) as [->|Hne]; [simplify_eq; eauto|].
    destruct (Hback i y Hy Hne) as (x' & Hx' & (E1 & E2 & E3)). rewrite E1, E2. apply (Hun i x' Hx').
    destruct E3 as [E3|[_ E3]]; congruence.
  - intros i y Hy Hl. rewrite N. destruct (decide (i = np)) as [->|Hne].
    + simplify_eq. destruct (Hnew _ HP Hl) as [-> _]. specialize (Hn' ltac:(eauto)). lia.
    + destruct (Hback i y Hy Hne) as (x' & Hx' & Hs). pose proof (proj1 (same_node_live _ _ Hs) Hl) as Hlx.
      destruct Hs as (-> & _). specialize (Hpid i x' Hx' Hlx). lia.
  - assert (forall i y, k_procs (user w') !! i = Some y -> i <> np -> live y -> p_pid y < k_nextpid (user w)) as Hlt.
    { intros i y Hy Hne Hl. destruct (Hback i y Hy Hne) as (x' & Hx' & Hs). pose proof (proj1 (same_node_live _ _ Hs) Hl) as Hlx.
      destruct Hs as (-> & _). specialize (Hpid i x' Hx' Hlx). lia. }
    intros i j y z Hy Hz Hly Hlz E. destruct (decide (i = np)) as [->|Hni], (decide (j = np)) as [->|Hnj].
    + done.
    + simplify_eq. destruct (Hnew _ HP Hly) as [E' _]. specialize (Hlt j z Hz Hnj Hlz). lia.
    + simplify_eq. destruct (Hnew _ HP Hlz) as [E' _]. specialize (Hlt i y Hy Hni Hly). lia.
    + destruct (Hback i y Hy Hni) as (x1 & Hx1 & Hs1), (Hback j z Hz Hnj) as (x2 & Hx2 & Hs2).
      apply (Huq i j x1 x2 Hx1 Hx2); [by apply (same_node_live x1 y)|by apply (same_node_live x2 z)|].
      destruct Hs1 as (E1 & _), Hs2 as (E2 & _). congruence.
  - intros i y Hy Hl Hni. rewrite I in Hni. destruct (decide (i = np)) as [->|Hne].
    + simplify_eq. destruct (Hnew _ HP Hl) as (_ & q & z & -> & Hz & Hzw). destruct (Hw q z Hz Hzw) as (z' & ? & ?). eauto.
    + destruct (Hback i y Hy Hne) as (x' & Hx' & Hs). pose proof (proj1 (same_node_live _ _ Hs) Hl) as Hlx.
      destruct (Hpar i x' Hx' Hlx Hni) as (q & z & Hq & Hz & Hzw). destruct (Hw q z Hz Hzw) as (z' & ? & ?).
      exists q, z'. destruct Hs as (_ & -> & _). done.
Qed.

(** No process appears or disappears; parents and waiting are re-established. *)
Lemma procs_ok_same w w' :
  procs_ok (user w) -> length (k_procs (user w')) = length (k_procs (user w)) ->
  k_nextpid (user w') = k_nextpid (user w) -> k_initproc (user w') = k_initproc (user w) ->
  (forall i x y, k_procs (user w) !! i = Some x -> k_procs (user w') !! i = Some y ->
     p_pid y = p_pid x /\ (live y <-> live x) /\ (p_parent x = None -> p_parent y = None)) ->
  (forall i x, k_initproc (user w) = Some i -> k_procs (user w') !! i = Some x -> can_wait x) ->
  (forall i x y, k_procs (user w) !! i = Some x -> k_procs (user w') !! i = Some y -> live x ->
     k_initproc (user w) <> Some i -> exists q z, p_parent y = Some q /\ k_procs (user w') !! q = Some z /\ can_wait z) ->
  procs_ok (user w').
Proof.
  intros [HL Hnx (ii & ix & Hi & Hix & Hiw) Hun Hpid Huq Hpar] L N I Hsame Hinit Hparent.
  split; rewrite ?N, ?I.
  - congruence.
  - done.
  - destruct (lookup_total_len _ (k_procs (user w')) ii ix L Hix) as [z Hz]. eauto 6.
  - intros i y Hy Hs. destruct (lookup_back w w' i y L Hy) as [x Hx]. destruct (Hsame i x y Hx Hy) as (-> & Hl & Hp).
    destruct (decide (p_state x = UNUSED)) as [Hu|Hu]; [destruct (Hun i x Hx Hu); auto|]. by apply Hl in Hu.
  - intros i y Hy Hl. destruct (lookup_back w w' i y L Hy) as [x Hx]. destruct (Hsame i x y Hx Hy) as (-> & Hl' & _).
    apply (Hpid i x Hx). by apply Hl'.
  - intros i j y z Hy Hz Hly Hlz E. destruct (lookup_back w w' i y L Hy) as [x Hx], (lookup_back w w' j z L Hz) as [v Hv].
    destruct (Hsame i x y Hx Hy) as (E1 & Hl1 & _), (Hsame j v z Hv Hz) as (E2 & Hl2 & _).
    apply (Huq i j x v Hx Hv); [by apply Hl1|by apply Hl2|congruence].
  - intros i y Hy Hl Hni. destruct (lookup_back w w' i y L Hy) as [x Hx]. destruct (Hsame i x y Hx Hy) as (_ & Hl' & _).
    apply (Hparent i x y Hx Hy); [by apply Hl'|done].
Qed.

Lemma procs_ok_calm w w' : procs_ok (user w) -> calm w w' -> procs_ok (user w').
Proof.
  intros Hok ((L & C) & N & I & Cu). apply (procs_ok_same w); try done.
  - intros i x y Hx Hy. pose proof (C i x y Hx Hy) as Hs. pose proof (same_node_live _ _ Hs).
    destruct Hs as (E1 & E2 & _). split; [done|]. split; [done|congruence].
  - intros i y Hi Hy. destruct (po_init _ Hok) as (ii & ix & Hii & Hix & Hw). simplify_eq.
    by apply (same_node_can_wait ix y); [eapply C|].
  - intros i x y Hx Hy Hl Hni. destruct (po_parent _ Hok i x Hx Hl Hni) as (q & z & Hq & Hz & Hzw).
    destruct (lookup_total_len _ (k_procs (user w')) q z L Hz) as [z' Hz']. exists q, z'.
    destruct (C i x y Hx Hy) as (_ & -> & _). split; [done|]. split; [done|].
    by apply (same_node_can_wait z z'); [eapply C|].
Qed.

Lemma procs_ok_exited p x w w' :
  procs_ok (user w) -> k_procs (user w) !! p = Some x -> can_wait x -> k_initproc (user w) <> Some p ->
  exited p w w' -> procs_ok (user w').
Proof.
  intros Hok Hx Hxw Hni (L & E & N & I & Cu).
  destruct (po_init _ Hok) as (ii & ix & Hii & Hix & Hiw).
  assert (forall q z, k_procs (user w) !! q = Some z -> can_wait z -> q <> p ->
            exists z', k_procs (user w') !! q = Some z' /\ can_wait z') as Hw.
  { intros q z Hz Hzw Hqp. destruct (lookup_total_len _ (k_procs (user w')) q z L Hz) as [z' Hz']. exists z'.
    split; [done|]. destruct (E q z z' Hz Hz') as (_ & _ & E3). rewrite decide_False in E3 by done.
    unfold can_wait in *. destruct E3 as [E3|[_ E3]]; by rewrite E3. }
  apply (procs_ok_same w); try done.
  - intros i y z Hy Hz. destruct (E i y z Hy Hz) as (E1 & E2 & E3). split; [done|]. split.
    + unfold live. destruct (decide (i = p)) as [->|]; [simplify_eq; rewrite E3; unfold can_wait in Hxw; naive_solver|].
      destruct E3 as [->|[-> ->]]; done.
    + intros Hp. rewrite E2, bool_decide_eq_false_2 by congruence. done.
  - intros i z Hi Hz. simplify_eq. destruct (Hw ii ix Hix Hiw ltac:(congruence)) as (z' & ? & ?). by simplify_eq.
  - intros i y z Hy Hz Hl Hnii. destruct (E i y z Hy Hz) as (_ & -> & _).
    destruct (po_parent _ Hok i y Hy Hl Hnii) as (q & v & Hq & Hv & Hvw).
    case_bool_decide as Eb.
    + destruct (Hw ii ix Hix Hiw ltac:(congruence)) as (z' & ? & ?). exists ii, z'. done.
    + destruct (Hw q v Hv Hvw ltac:(congruence)) as (z' & ? & ?). exists q, z'. done.
Qed.

(** ** The system

    One step is a whole system call of a running process, a change of processes by
    the scheduler or by an interrupt, or anything that leaves the table alone. *)

Definition scheduled (l l' : list proc) : Prop :=
  length l' = length l /\
  forall i x y, l !! i = Some x -> l' !! i = Some y ->
    p_pid y = p_pid x /\ p_parent y = p_parent x /\
    (p_state y = p_state x \/ can_wait x /\ can_wait y).

Inductive ptree_step : world (kernel St) -> world (kernel St) -> Prop :=
  | pt_fork p x r w w' :
      k_cur (user w) = Some p -> k_procs (user w) !! p = Some x -> p_state x = RUNNING ->
      k_nextpid (user w) < 2 ^ 31 - 1 ->
      fork kend trampoline forkret_addr w = Ret (r, w') -> ptree_step w w'
  | pt_exit p x status w w' :
      k_cur (user w) = Some p -> k_procs (user w) !! p = Some x -> p_state x = RUNNING ->
      exit kend status w = Ret (tt, w') -> ptree_step w w'
  | pt_wait p addr r w w' :
      k_cur (user w) = Some p -> wait kend addr w = Ret (r, w') -> ptree_step w w'
  | pt_kill pid r w w' : kill pid w = Ret (r, w') -> ptree_step w w'
  | pt_schedule w w' :
      scheduled (k_procs (user w)) (k_procs (user w')) ->
      k_nextpid (user w') = k_nextpid (user w) -> k_initproc (user w') = k_initproc (user w) -> ptree_step w w'.

Inductive ptree_run (w0 : world (kernel St)) : world (kernel St) -> Prop :=
  | pt_start : ptree_run w0 w0
  | pt_next w w' : ptree_run w0 w -> ptree_step w w' -> ptree_run w0 w'.

Lemma procs_ok_scheduled w w' :
  procs_ok (user w) -> scheduled (k_procs (user w)) (k_procs (user w')) ->
  k_nextpid (user w') = k_nextpid (user w) -> k_initproc (user w') = k_initproc (user w) -> procs_ok (user w').
Proof.
  intros Hok (L & C) N I.
  assert (forall i x y, k_procs (user w) !! i = Some x -> k_procs (user w') !! i = Some y -> can_wait x -> can_wait y) as Hcw.
  { intros i x y Hx Hy Hw. destruct (C i x y Hx Hy) as (_ & _ & [E|[_ ?]]); [|done]. unfold can_wait in *. by rewrite E. }
  apply (procs_ok_same w); try done.
  - intros i x y Hx Hy. destruct (C i x y Hx Hy) as (E1 & E2 & E3). split; [done|]. split; [|congruence].
    unfold live. destruct E3 as [->|[[? ?] [? ?]]]; done.
  - intros i y Hi Hy. destruct (po_init _ Hok) as (ii & ix & Hii & Hix & Hw). simplify_eq. by eapply Hcw.
  - intros i x y Hx Hy Hl Hni. destruct (po_parent _ Hok i x Hx Hl Hni) as (q & z & Hq & Hz & Hzw).
    destruct (lookup_total_len _ (k_procs (user w')) q z L Hz) as [z' Hz']. exists q, z'.
    destruct (C i x y Hx Hy) as (_ & -> & _). split; [done|]. split; [done|]. by eapply Hcw.
Qed.

Lemma fork_ok p x r w w' :
  procs_ok (user w) -> k_cur (user w) = Some p -> k_procs (user w) !! p = Some x -> p_state x = RUNNING ->
  k_nextpid (user w) < 2 ^ 31 - 1 -> fork kend trampoline forkret_addr w = Ret (r, w') -> procs_ok (user w').
Proof.
  intros Hok Hp Hx Hs Hn E. revert E. apply wlp_run with (Q := fun _ w' => procs_ok (user w')).
  pose proof (po_next _ Hok).
  apply (fork_wlp kend trampoline forkret_addr p); [done|intros i y; apply (po_unused _ Hok)|lia|..].
  - intros _ w1. by apply procs_ok_calm.
  - intros np y _ w1 Hy Hu Ho. eapply (procs_ok_only np y); [done|done|unfold can_wait; tauto|exact Ho|..].
    + by intros z (? & ? & ?).
    + intros z (Hz & _) Hl. done.
    + lia.
    + lia.
  - intros np y _ w1 Hy Hu Ho. eapply (procs_ok_only np y); [done|done|unfold can_wait; tauto|exact Ho|..].
    + intros z (Hz & _) Hz'. congruence.
    + intros z (_ & Hz & Hz') _. split; [done|]. exists p, x. split; [done|]. split; [done|]. unfold can_wait. by rewrite Hs.
    + lia.
    + lia.
Qed.

Lemma wait_ok p addr r w w' :
  procs_ok (user w) -> k_cur (user w) = Some p -> wait kend addr w = Ret (r, w') -> procs_ok (user w').
Proof.
  intros Hok Hp E. destruct (wlp_run _ _ _ _ _ (wait_wlp kend p addr w Hp) E) as [C|(pp & x & Hx & Hs & _ & _ & Ho)].
  - by eapply procs_ok_calm.
  - eapply (procs_ok_only pp x); [done|done|unfold can_wait; tauto|exact Ho|..].
    + by intros z (? & ? & ?).
    + intros z (Hz & _) Hl. done.
    + lia.
    + intros (z & (Hz & _) & Hl). done.
Qed.
End Invariant.


(** ** The booted kernel *)

Lemma demo_procs i x : k_procs demo_kernel !! i = Some x -> i = 0%nat /\ x = dk_running \/ p_state x = UNUSED /\ p_pid x = 0 /\ p_parent x = None.
Proof.
  cbn [demo_kernel k_procs]. unfold dk_procs. destruct i as [|i]; cbn; [intros [= <-]; by left|].
  intros Hx. right. apply list_lookup_fmap_Some in Hx as (j & -> & _). done.
Qed.

Lemma demo_procs_ok : procs_ok demo_kernel.
Proof.
  split.
  - reflexivity.
  - done.
  - exists 0%nat, dk_running. done.
  - intros i x Hx Hs. destruct (demo_procs i x Hx) as [[-> ->]|(_ & ? & ?)]; done.
  - intros i x Hx Hl. destruct (demo_procs i x Hx) as [[-> ->]|(? & _)]; done.
  - intros i j x y Hx Hy Hl Hl' _.
    destruct (demo_procs i x Hx) as [[-> _]|(? & _)], (demo_procs j y Hy) as [[-> _]|(? & _)]; done.
  - intros i x Hx Hl Hni. destruct (demo_procs i x Hx) as [[-> _]|(? & _)]; done.
Qed.

