(* ===== verification/Console.v ===== *)
(** * The console and the UART (kernel/console.c, kernel/uart.c)

    Input characters go through the line editor of consoleintr() to a ring buffer
    from which consoleread() takes whole lines; write() puts characters in the
    UART's transmit ring, which uartstart() empties.  The device is what it
    answers when its status and receive registers are read ([lsr] and [rhr] of
    the state; after the last answer it is busy and has no input); a character
    stored in its transmit register is an [EPutc] event. *)

From S2P Require Import Prelude Machine Mem Kalloc Sleeplock Store FsDisk CString Printf Fs Vm Kernel File Proc.

Open Scope Z_scope.

Definition LSR_RX_READY : Z := 1.
Definition LSR_TX_IDLE : Z := 32.
Definition BACKSPACE : Z := 256.
Definition CTRL_D : Z := 4.
Definition CTRL_H : Z := 8.
Definition NEWLINE : Z := 10.
Definition CR : Z := 13.
Definition CTRL_P : Z := 16.
Definition CTRL_U : Z := 21.
Definition DELETE : Z := 127.
Definition CONSOLE : Z := 1.

Definition u_set_lsr v u := Uart (tx_buf u) (tx_w u) (tx_r u) v (rhr u).
Definition u_set_rhr v u := Uart (tx_buf u) (tx_w u) (tx_r u) (lsr u) v.
Definition c_set_r v c := Cons (c_buf c) v (c_w c) (c_e c).
Definition c_set_w v c := Cons (c_buf c) (c_r c) v (c_e c).
Definition c_set_e v c := Cons (c_buf c) (c_r c) (c_w c) v.

(** [uart_tx_buf[uart_tx_w % UART_TX_BUF_SIZE] = c; uart_tx_w += 1;] *)
Definition tx_put (c : Z) (u : uart) : uart :=
  Uart (<[Z.to_nat (tx_w u mod UART_TX_BUF_SIZE) := u8 c]> (tx_buf u)) (u64 (tx_w u + 1)) (tx_r u) (lsr u) (rhr u).
Definition tx_get (u : uart) : uart := Uart (tx_buf u) (tx_w u) (u64 (tx_r u + 1)) (lsr u) (rhr u).

(** [cons.buf[cons.e++ % INPUT_BUF_SIZE] = c;] *)
Definition in_put (c : Z) (x : cons) : cons :=
  Cons (<[Z.to_nat (c_e x mod INPUT_BUF_SIZE) := u8 c]> (c_buf x)) (c_r x) (c_w x) (u32 (c_e x + 1)).

Section Console.
Context {St : Type} `{BlockStore St}.
Abbreviation K := (M (kernel St)).

Definition upd_uart (f : uart -> uart) : K unit := modify (fun k => k_set_uart (f (k_uart k)) k).
Definition upd_cons (f : cons -> cons) : K unit := modify (fun k => k_set_cons (f (k_cons k)) k).

(** ** The device's registers *)

Definition read_LSR : K Z :=
  let* u := gets k_uart in
  match lsr u with
  | [] => ret 0
  | v :: t => upd_uart (u_set_lsr t) ;; ret v
  end.
Definition read_RHR : K Z :=
  let* u := gets k_uart in
  match rhr u with
  | [] => ret 0
  | v :: t => upd_uart (u_set_rhr t) ;; ret (u8 v)
  end.
Definition write_THR (c : Z) : K unit := emit (EPutc (u8 c)).

(** ** kernel/uart.c *)

(** One turn of the loop that waits for the transmitter. *)
Definition uart_wait (_ : unit) : K (unit + unit) :=
  let* s := read_LSR in
  if Z.land s LSR_TX_IDLE =? 0 then ret (inl tt) else ret (inr tt).

(** A device that stays busy for ever keeps it spinning. *)
Definition uartputc_sync (c : Z) : K unit :=
  let* u := gets k_uart in
  iter (S (length (lsr u))) uart_wait tt ;;
  write_THR c.

Definition uartstart_step (_ : unit) : K (unit + unit) :=
  let* u := gets k_uart in
  if tx_w u =? tx_r u then ret (inr tt) else
  let* s := read_LSR in
  if Z.land s LSR_TX_IDLE =? 0 then ret (inr tt) else
  let* c := the (tx_buf u !! Z.to_nat (tx_r u mod UART_TX_BUF_SIZE)) in
  upd_uart tx_get ;;
  wakeup ChUart ;;
  write_THR c ;;
  ret (inl tt).

Definition uartstart : K unit := iter (S (S (Z.to_nat UART_TX_BUF_SIZE))) uartstart_step tt.

Definition uartputc (c : Z) : K unit :=
  acquire LUart ;;
  let* u := gets k_uart in
  if tx_w u =? u64 (tx_r u + UART_TX_BUF_SIZE) then sleep ChUart LUart else
  upd_uart (tx_put c) ;;
  uartstart ;;
  release LUart.

Definition uartgetc : K Z :=
  let* s := read_LSR in
  if negb (Z.land s LSR_RX_READY =? 0) then read_RHR else ret (-1).

(** ** kernel/console.c *)

Definition consputc (c : Z) : K unit :=
  if c =? BACKSPACE then uartputc_sync 8 ;; uartputc_sync 32 ;; uartputc_sync 8
  else uartputc_sync c.

(** either_copyin() and either_copyout() of one character. *)
Definition getchar_from (user_src : bool) (src : Z) : K (Z * list Z) :=
  if user_src then copyin_cur src 1 else on_mem (gets (fun m => (0, load (kmem_mem m) src 1))).
Definition putchar_to (user_dst : bool) (dst c : Z) : K Z :=
  if user_dst then copyout_cur dst [c] else on_mem (modify (set_mem (fun m => store m dst [c]))) ;; ret 0.

Definition consolewrite_step (user_src : bool) (src n i : Z) : K (Z + Z) :=
  if negb (i <? n) then ret (inr i) else
  let* ' (r, bs) := getchar_from user_src (u64 (src + i)) in
  if r =? -1 then ret (inr i) else
  let* c := the (head bs) in
  uartputc c ;;
  ret (inl (i + 1)).

Definition consolewrite (user_src : bool) (src n : Z) : K Z :=
  iter (S (S (Z.to_nat n))) (consolewrite_step user_src src n) 0.

(** One turn of consoleread()'s loop; the loop variables are [dst] and [n], and
    [inr (Some n)] leaves the loop while [inr None] is the return of -1. *)
Definition consoleread_step (user_dst : bool) (target : Z) (a : Z * Z) : K (Z * Z + option Z) :=
  let '(dst, n) := a in
  if negb (n >? 0) then ret (inr (Some n)) else
  let* x := gets k_cons in
  if c_r x =? c_w x then
    let* p := myproc in
    let* dead := killed p in
    if dead : bool then release LCons ;; ret (inr None) else sleep ChCons LCons
  else
  let* c := the (c_buf x !! Z.to_nat (c_r x mod INPUT_BUF_SIZE)) in
  upd_cons (c_set_r (u32 (c_r x + 1))) ;;
  if c =? CTRL_D then
    (if u32 n <? target then upd_cons (c_set_r (u32 (u32 (c_r x + 1) - 1))) else ret tt) ;;
    ret (inr (Some n))
  else
  let* r := putchar_to user_dst dst c in
  if r =? -1 then ret (inr (Some n)) else
  if c =? NEWLINE then ret (inr (Some (n - 1))) else ret (inl (u64 (dst + 1), n - 1)).

Definition consoleread (user_dst : bool) (dst n : Z) : K Z :=
  let target := u32 n in
  acquire LCons ;;
  let* r := iter (S (S (Z.to_nat n))) (consoleread_step user_dst target) (dst, n) in
  match r with
  | None => ret (-1)
  | Some n => release LCons ;; ret (s32 (target - n))
  end.

(** [while(cons.e != cons.w && cons.buf[(cons.e-1) % INPUT_BUF_SIZE] != newline)] *)
Definition killline_step (_ : unit) : K (unit + unit) :=
  let* x := gets k_cons in
  if c_e x =? c_w x then ret (inr tt) else
  let* c := the (c_buf x !! Z.to_nat (u32 (c_e x - 1) mod INPUT_BUF_SIZE)) in
  if c =? NEWLINE then ret (inr tt) else
  upd_cons (c_set_e (u32 (c_e x - 1))) ;;
  consputc BACKSPACE ;;
  ret (inl tt).

Definition consoleintr (c : Z) : K unit :=
  acquire LCons ;;
  (if c =? CTRL_P then procdump
   else if c =? CTRL_U then iter (S (S (Z.to_nat INPUT_BUF_SIZE))) killline_step tt
   else if (c =? CTRL_H) || (c =? DELETE) then
     let* x := gets k_cons in
     if negb (c_e x =? c_w x) then
       upd_cons (c_set_e (u32 (c_e x - 1))) ;;
       consputc BACKSPACE
     else ret tt
   else
     let* x := gets k_cons in
     if negb (c =? 0) && (u32 (c_e x - c_r x) <? INPUT_BUF_SIZE) then
       let c := if c =? CR then NEWLINE else c in
       consputc c ;;
       upd_cons (in_put c) ;;
       let* x := gets k_cons in
       if (c =? NEWLINE) || (c =? CTRL_D) || (u32 (c_e x - c_r x) =? INPUT_BUF_SIZE) then
         upd_cons (c_set_w (c_e x)) ;;
         wakeup ChCons
       else ret tt
     else ret tt) ;;
  release LCons.

(** devsw after consoleinit(). *)
Definition devsw (major : Z) : devsw_entry St :=
  if major =? CONSOLE then Devsw (Some consoleread) (Some consolewrite) else Devsw None None.

(** uart.c: uartintr() *)
Definition uartintr_step (_ : unit) : K (unit + unit) :=
  let* c := uartgetc in
  if c =? -1 then ret (inr tt) else consoleintr c ;; ret (inl tt).

Definition uartintr : K unit :=
  let* u := gets k_uart in
  iter (S (length (lsr u))) uartintr_step tt ;;
  acquire LUart ;;
  uartstart ;;
  release LUart.
End Console.
