(* ===== verification/ConsoleLine.v ===== *)
(** * The line editor of the console (kernel/console.c)

    An abstract terminal line discipline, two byte sequences: what has been
    committed and what is still being edited.  consoleintr() and consoleread()
    implement it on one ring buffer with three counters that wrap around. *)

From S2P Require Import Prelude Ring Machine Mem Kalloc Sleeplock Store Log FsDisk CString Printf Fs Demo Vm VmTable VmCopy Kernel DemoKernel KernelWp File Proc Console.

Open Scope Z_scope.

(** ** The abstract terminal *)

Definition ends_line (c : Z) (n : nat) : Prop := c = NEWLINE \/ c = CTRL_D \/ Z.of_nat n = INPUT_BUF_SIZE.
#[export] Instance ends_line_dec c n : Decision (ends_line c n).
Proof. unfold ends_line. apply _. Defined.

Definition input_char (c : Z) : Z := if decide (c = CR) then NEWLINE else c.

(** A character is taken if it is not NUL and there is room. *)
Definition takes (c : Z) (com ed : list Z) : Prop := c <> 0 /\ Z.of_nat (length (com ++ ed)) < INPUT_BUF_SIZE.
#[export] Instance takes_dec c com ed : Decision (takes c com ed).
Proof. unfold takes. apply _. Defined.

Definition type_char (c : Z) (s : list Z * list Z) : list Z * list Z :=
  let '(com, ed) := s in
  if decide (c = CTRL_U) then (com, [])
  else if decide (c = CTRL_H \/ c = DELETE) then (com, removelast ed)
  else if decide (takes c com ed) then
    let ed' := ed ++ [input_char c] in
    if decide (ends_line (input_char c) (length (com ++ ed'))) then (com ++ ed', []) else (com, ed')
  else s.

Definition erase : list Z := [8; 32; 8].
Fixpoint erases (n : nat) : list Z := match n with O => [] | S n => erase ++ erases n end.

(** What the user sees. *)
Definition echo (c : Z) (s : list Z * list Z) : list Z :=
  let '(com, ed) := s in
  if decide (c = CTRL_U) then erases (length ed)
  else if decide (c = CTRL_H \/ c = DELETE) then (if decide (ed = []) then [] else erase)
  else if decide (takes c com ed) then [input_char c] else [].

(** A read of up to [n] characters: what it gets and what stays; [None] when it
    has to wait.  A control-D ends it, and is used up only by a read that got
    nothing. *)
Fixpoint take_line (n : nat) (first : bool) (com : list Z) : option (list Z * list Z) :=
  match n, com with
  | O, _ => Some ([], com)
  | S _, [] => None
  | S n', c :: t =>
      if c =? CTRL_D then Some ([], if first then t else com)
      else if c =? NEWLINE then Some ([c], t)
      else match take_line n' false t with Some (l, r) => Some (c :: l, r) | None => None end
  end.

Lemma take_line_length n b com line rest : take_line n b com = Some (line, rest) -> (length line <= n)%nat.
Proof.
  revert b com line. induction n as [|n IH]; intros b [|c com] line; cbn [take_line]; try done; try (intros [= <- <-]; cbn; lia).
  destruct (c =? CTRL_D); [intros [= <- <-]; cbn; lia|]. destruct (c =? NEWLINE); [intros [= <- <-]; cbn; lia|].
  destruct (take_line n false com) as [[l r]|] eqn:E; [|done]. intros [= <- <-]. cbn [length]. apply IH in E. lia.
Qed.

(** ** The buffer *)

Record cons_rep (x : cons) (s : list Z * list Z) : Prop := ConsRep {
  cr_ring : ring INPUT_BUF_SIZE (2 ^ 32) (c_buf x) (c_r x) (s.1 ++ s.2);
  cr_w : c_w x = ring_end (2 ^ 32) (c_r x) s.1;
  cr_e : c_e x = ring_end (2 ^ 32) (c_r x) (s.1 ++ s.2);
  cr_edit : NEWLINE ∉ s.2
}.

Lemma cons_counters : 0 < INPUT_BUF_SIZE < 2 ^ 32 /\ 2 ^ 32 mod INPUT_BUF_SIZE = 0.
Proof. done. Qed.
Abbreviation HN := (proj1 cons_counters).
Abbreviation HW := (proj2 cons_counters).

Lemma cons_rep_prefix x com ed : cons_rep x (com, ed) -> ring INPUT_BUF_SIZE (2 ^ 32) (c_buf x) (c_r x) com.
Proof. intros Hr. apply (ring_prefix _ _ HN _ _ com ed), Hr. Qed.

(** Whether there is anything to erase. *)
Lemma edit_empty x com ed : cons_rep x (com, ed) -> (c_e x =? c_w x) = bool_decide (ed = []).
Proof.
  intros Hr. rewrite (cr_e _ _ Hr), (cr_w _ _ Hr). cbn [fst snd]. pose proof (cr_ring _ _ Hr) as Hg. cbn [fst snd] in Hg.
  pose proof (rg_room _ _ _ _ _ Hg) as Hroom. rewrite length_app in Hroom.
  pose proof (ring_count _ _ HN _ _ _ (Z.of_nat (length com)) Hg ltac:(lia)) as Hn. fold (ring_end (2 ^ 32) (c_r x) com) in Hn.
  rewrite length_app in Hn. case_bool_decide as E; [subst; apply Z.eqb_eq; by rewrite app_nil_r|].
  apply Z.eqb_neq. rewrite Hn. destruct ed; [done|]. cbn [length]. lia.
Qed.

Lemma cons_empty x com ed : cons_rep x (com, ed) -> (c_r x =? c_w x) = bool_decide (com = []).
Proof.
  intros Hr. rewrite (cr_w _ _ Hr), Z.eqb_sym. cbn [fst]. eapply (ring_empty _ _ HN), cons_rep_prefix, Hr.
Qed.

Lemma cons_size x s : cons_rep x s -> u32 (c_e x - c_r x) = Z.of_nat (length (s.1 ++ s.2)).
Proof. intros Hr. rewrite (cr_e _ _ Hr). apply (ring_size _ _ HN (c_buf x)), Hr. Qed.

Lemma cons_rep_last x com ed c :
  cons_rep x (com, ed ++ [c]) ->
  c_buf x !! Z.to_nat (u32 (c_e x - 1) mod INPUT_BUF_SIZE) = Some c /\
  cons_rep (c_set_e (u32 (c_e x - 1)) x) (com, ed).
Proof.
  intros [Hg Hw He Hed]. cbn [fst snd] in *. rewrite app_assoc in Hg, He. unfold u32. rewrite He, ring_end_removed.
  split; [by apply (ring_last _ _ HN HW)|]. split; cbn [c_buf c_r c_w c_e c_set_e c_set_w c_set_r fst snd]; try done; [by eapply (ring_prefix _ _ HN)|]. intros ?. apply Hed, elem_of_app. auto.
Qed.

Lemma cons_rep_put x com ed c :
  cons_rep x (com, ed) -> Z.of_nat (length (com ++ ed)) < INPUT_BUF_SIZE -> is_byte c -> c <> NEWLINE ->
  cons_rep (in_put c x) (com, ed ++ [c]).
Proof.
  intros [Hg Hw He Hed] Hroom Hb Hc. cbn [fst snd] in *. unfold in_put, u32. rewrite u8_small, He by apply Hb. split; cbn [c_buf c_r c_w c_e c_set_e c_set_w c_set_r fst snd]; try done.
  - rewrite app_assoc. by apply (ring_put _ _ HN HW).
  - by rewrite app_assoc, (ring_end_app _ _ (com ++ ed)).
  - rewrite elem_of_app. intros [?|Hin]; [done|]. apply list_elem_of_singleton in Hin. congruence.
Qed.

Lemma cons_rep_commit x com ed c :
  cons_rep x (com, ed) -> Z.of_nat (length (com ++ ed)) < INPUT_BUF_SIZE -> is_byte c ->
  cons_rep (c_set_w (c_e (in_put c x)) (in_put c x)) (com ++ ed ++ [c], []).
Proof.
  intros [Hg Hw He Hed] Hroom Hb. cbn [fst snd] in *. unfold in_put, u32. rewrite u8_small, He by apply Hb. split; cbn [c_buf c_r c_w c_e c_set_e c_set_w c_set_r fst snd]; try done.
  - rewrite app_nil_r, app_assoc. by apply (ring_put _ _ HN HW).
  - by rewrite app_assoc, (ring_end_app _ _ (com ++ ed)).
  - by rewrite app_nil_r, app_assoc, (ring_end_app _ _ (com ++ ed)).
  - apply not_elem_of_nil.
Qed.

Lemma cons_rep_get x com ed c :
  cons_rep x (c :: com, ed) ->
  c_buf x !! Z.to_nat (c_r x mod INPUT_BUF_SIZE) = Some c /\ cons_rep (c_set_r (u32 (c_r x + 1)) x) (com, ed).
Proof.
  intros [Hg Hw He Hed]. cbn [fst snd] in *. rewrite <- app_comm_cons in Hg, He. destruct (ring_get _ _ HN HW _ _ _ _ Hg) as [Hc Hg'].
  split; [done|]. unfold u32. split; cbn [c_buf c_r c_w c_e c_set_e c_set_w c_set_r fst snd]; try done; by rewrite (ring_end_get _ _ _ c).
Qed.

Lemma cons_rep_unget x r : 0 <= c_r x < 2 ^ 32 -> c_r x = r -> c_set_r (u32 (u32 (r + 1) - 1)) (c_set_r (u32 (r + 1)) x) = x.
Proof.
  intros Hr <-. destruct x as [b r w e]. unfold c_set_r, u32. cbn in *. f_equal. rewrite Zminus_mod_idemp_l.
  replace (r + 1 - 1) with r by lia. by apply Z.mod_small.
Qed.

(** ** Echoing *)

Definition idle (v : Z) : Prop := Z.land v LSR_TX_IDLE <> 0.
#[export] Instance idle_dec v : Decision (idle v).
Proof. unfold idle. apply _. Defined.
(** How often the device will say that it can take a character. *)
Definition idles (l : list Z) : nat := length (filter idle l).

Section Line.
Context {St : Type} `{BlockStore St}.
Implicit Types w : world (kernel St).

Definition with_uart (u : uart) w : world (kernel St) := World (held w) (trace w) (k_set_uart u (user w)).
Definition with_cons (x : cons) w : world (kernel St) := World (held w) (trace w) (k_set_cons x (user w)).
Definition sent (out : list Z) w : world (kernel St) := World (held w) (trace w ++ (EPutc <$> out)) (user w).

(** [out] has been sent, one answer of the device for each. *)
Definition echoed (out : list Z) w w' : Prop :=
  exists l, (idles l + length out)%nat = idles (lsr (k_uart (user w))) /\
    w' = sent out (with_uart (u_set_lsr l (k_uart (user w))) w).

Lemma echoed_nil w : echoed [] w w.
Proof.
  exists (lsr (k_uart (user w))). split; [cbn [length]; lia|]. unfold sent. cbn. rewrite app_nil_r.
  by destruct w as [h t [? ? ? ? ? ? ? ? ? ? ? ? ? []]].
Qed.

Lemma echoed_trans a b w1 w2 w3 : echoed a w1 w2 -> echoed b w2 w3 -> echoed (a ++ b) w1 w3.
Proof.
  intros (l1 & H1 & ->) (l2 & H2 & ->). exists l2. cbn [user sent with_uart k_set_uart k_uart lsr u_set_lsr] in H2.
  rewrite length_app. split; [lia|]. unfold sent. cbn. by rewrite fmap_app, app_assoc.
Qed.

Lemma idles_cons v l : idles (v :: l) = (if decide (idle v) then S (idles l) else idles l).
Proof. unfold idles. rewrite filter_cons. by case_decide. Qed.

Lemma uart_wait_wp n l (Q : unit -> world (kernel St) -> Prop) w :
  lsr (k_uart (user w)) = l -> (length l < n)%nat -> (0 < idles l)%nat ->
  (forall l', S (idles l') = idles l -> Q tt (with_uart (u_set_lsr l' (k_uart (user w))) w)) ->
  wp (iter n uart_wait tt) Q w.
Proof.
  revert n w. induction l as [|v l IH]; intros n w Hl Hn Hi HQ; [cbn in Hi; lia|]. destruct n as [|n]; [cbn in Hn; lia|].
  cbn [iter]. wp_step. unfold uart_wait at 1, read_LSR, upd_uart. do 3 wp_step. rewrite Hl. do 3 wp_step.
  rewrite idles_cons in Hi, HQ. cbn [length] in Hn. destruct (Z.eqb_spec (Z.land v LSR_TX_IDLE) 0) as [E|E].
  - rewrite decide_False in Hi, HQ by (intros Hv; by apply Hv). wp_step. apply IH; [done|lia|done|]. intros l' Hl'. by apply HQ.
  - rewrite decide_True in HQ by done. do 2 wp_step. by apply (HQ l).
Qed.

Lemma sync_wp c (Q : unit -> world (kernel St) -> Prop) w :
  (0 < idles (lsr (k_uart (user w))))%nat -> (forall w', echoed [u8 c] w w' -> Q tt w') -> wp (uartputc_sync c) Q w.
Proof.
  intros Hi HQ. unfold uartputc_sync. do 3 wp_step. eapply uart_wait_wp; [done|lia|done|]. intros l Hl.
  unfold write_THR. wp_step. apply HQ. exists l. split; [cbn [length]; lia|done].
Qed.

Lemma echoed_idles out w w' : echoed out w w' ->
  (idles (lsr (k_uart (user w'))) + length out)%nat = idles (lsr (k_uart (user w))).
Proof. by intros (l & Hl & ->). Qed.

Lemma erase_wp (Q : unit -> world (kernel St) -> Prop) w :
  (3 <= idles (lsr (k_uart (user w))))%nat -> (forall w', echoed erase w w' -> Q tt w') -> wp (consputc BACKSPACE) Q w.
Proof.
  intros Hi HQ. unfold consputc. cbn [Z.eqb BACKSPACE Pos.eqb]. wp_step. apply sync_wp; [lia|]. intros w1 E1.
  pose proof (echoed_idles _ _ _ E1) as I1. cbn [length] in I1. wp_step. apply sync_wp; [lia|]. intros w2 E2.
  pose proof (echoed_idles _ _ _ E2) as I2. cbn [length] in I2. apply sync_wp; [lia|]. intros w3 E3.
  apply HQ. exact (echoed_trans _ _ _ _ _ E1 (echoed_trans _ _ _ _ _ E2 E3)).
Qed.

(** ** consoleintr() *)

(** The editor changes the input buffer and the device only. *)
Definition edited (out : list Z) (s : list Z * list Z) w w' : Prop :=
  exists x w1, cons_rep x s /\ echoed out w w1 /\ w' = with_cons x w1.

Lemma edited_nil s w : cons_rep (k_cons (user w)) s -> edited [] s w w.
Proof. intros Hr. exists (k_cons (user w)), w. split; [done|]. split; [apply echoed_nil|]. by destruct w as [h t []]. Qed.

(** A change of the buffer before the echo. *)
Lemma edited_make out s x w w1 : cons_rep x s -> echoed out (with_cons x w) w1 -> edited out s w w1.
Proof.
  intros Hx (l & Hl & ->). exists x, (sent out (with_uart (u_set_lsr l (k_uart (user w))) w)). split; [done|].
  split; [by exists l|done].
Qed.

Lemma edited_trans a b s1 s2 w1 w2 w3 : edited a s1 w1 w2 -> edited b s2 w2 w3 -> edited (a ++ b) s2 w1 w3.
Proof.
  intros (x1 & v1 & H1 & E1 & ->) (x2 & v2 & H2 & (l & Hl & ->) & ->). destruct E1 as (l1 & Hl1 & ->).
  exists x2, (sent (a ++ b) (with_uart (u_set_lsr l (k_uart (user w1))) w1)). split; [done|].
  cbn [user sent with_uart with_cons k_set_cons k_set_uart k_uart lsr u_set_lsr] in Hl. split.
  - exists l. rewrite length_app. split; [lia|done].
  - unfold with_cons, sent. cbn. by rewrite fmap_app, app_assoc.
Qed.

Lemma edited_idles out s w w' : edited out s w w' ->
  (idles (lsr (k_uart (user w'))) + length out)%nat = idles (lsr (k_uart (user w))) /\ cons_rep (k_cons (user w')) s /\
  k_procs (user w') = k_procs (user w) /\ held w' = held w /\ k_cur (user w') = k_cur (user w).
Proof. intros (x & w1 & Hx & (l & Hl & ->) & ->). done. Qed.

Lemma unput_wp com ed c (Q : unit -> world (kernel St) -> Prop) w :
  cons_rep (k_cons (user w)) (com, ed ++ [c]) -> (3 <= idles (lsr (k_uart (user w))))%nat ->
  (forall w', edited erase (com, ed) w w' -> Q tt w') ->
  wp (consputc BACKSPACE) Q (with_cons (c_set_e (u32 (c_e (k_cons (user w)) - 1)) (k_cons (user w))) w).
Proof.
  intros Hr Hi HQ. destruct (cons_rep_last _ _ _ _ Hr) as [_ Hr'].
  apply erase_wp; [done|]. intros w1 E1. apply HQ. by eapply edited_make.
Qed.

Lemma killline_wp n com ed (Q : unit -> world (kernel St) -> Prop) w :
  cons_rep (k_cons (user w)) (com, ed) -> (length ed < n)%nat ->
  (length (erases (length ed)) <= idles (lsr (k_uart (user w))))%nat ->
  (forall w', edited (erases (length ed)) (com, []) w w' -> Q tt w') ->
  wp (iter n killline_step tt) Q w.
Proof.
  revert n w. induction ed as [|c ed IH] using rev_ind; intros n w Hr Hn Hi HQ.
  - destruct n as [|n]; [lia|]. cbn [iter]. wp_step. unfold killline_step at 1. do 2 wp_step. rewrite (edit_empty _ _ _ Hr).
    rewrite bool_decide_eq_true_2 by done. do 2 wp_step. apply HQ. by apply edited_nil.
  - rewrite length_app in Hn, Hi, HQ. replace (length ed + length [c])%nat with (S (length ed)) in Hi, HQ by (cbn [length]; lia).
    cbn [erases] in Hi, HQ. rewrite length_app in Hi. cbn [length erase] in Hi, Hn.
    destruct n as [|n]; [lia|]. cbn [iter]. wp_step. unfold killline_step at 1. do 2 wp_step. rewrite (edit_empty _ _ _ Hr).
    rewrite bool_decide_eq_false_2 by (by destruct ed). destruct (cons_rep_last _ _ _ _ Hr) as [Hc _].
    wp_step. eapply wp_the; [exact Hc|]. destruct (Z.eqb_spec c NEWLINE) as [->|_].
    { exfalso. apply (cr_edit _ _ Hr), elem_of_app. right. by apply list_elem_of_singleton. }
    unfold upd_cons. do 3 wp_step. apply (unput_wp com ed c _ w); [exact Hr|lia|]. intros w1 E1. destruct (edited_idles _ _ _ _ E1) as (I1 & R1 & _).
    wp_step. apply IH; [done|lia|cbn [length erase] in I1; lia|]. intros w2 E2. apply HQ. by eapply edited_trans.
Qed.

(** The branch of an ordinary character, the lock held. *)
Lemma accept_wp c com ed (Q : unit -> world (kernel St) -> Prop) w :
  cons_rep (k_cons (user w)) (com, ed) -> Z.of_nat (length (com ++ ed)) < INPUT_BUF_SIZE -> is_byte c ->
  (0 < idles (lsr (k_uart (user w))))%nat -> table_free w ->
  (forall w', ~ ends_line c (length (com ++ ed ++ [c])) -> edited [c] (com, ed ++ [c]) w w' -> Q tt w') ->
  (forall w', ends_line c (length (com ++ ed ++ [c])) -> edited [c] (com ++ ed ++ [c], []) w w' ->
     Q tt (with_procs (woken ChCons (k_cur (user w)) (k_procs (user w))) w')) ->
  wp (consputc c ;; upd_cons (in_put c) ;;
      let* x := gets k_cons in
      if (c =? NEWLINE) || (c =? CTRL_D) || (u32 (c_e x - c_r x) =? INPUT_BUF_SIZE) then
        upd_cons (c_set_w (c_e x)) ;; wakeup ChCons
      else ret tt) Q w.
Proof.
  intros Hr Hroom Hb Hi Ht Hgo Hend. unfold consputc. destruct (Z.eqb_spec c BACKSPACE) as [->|_]; [unfold is_byte, BACKSPACE in Hb; lia|].
  wp_step. apply sync_wp; [done|]. rewrite u8_small by apply Hb. intros w1 E1. destruct (E1) as (l & Hl & ->).
  unfold upd_cons. do 4 wp_step.
  cbn [user sent with_uart k_cons k_set_cons k_set_uart]. set (x := k_cons (user w)) in *.
  assert (u32 (c_e (in_put c x) - c_r (in_put c x)) = Z.of_nat (length (com ++ ed ++ [c]))) as Hsz.
  { pose proof (cons_size _ _ (cons_rep_commit x com ed c Hr Hroom Hb)) as E. cbn [fst snd] in E. by rewrite app_nil_r in E. }
  rewrite Hsz. destruct ((c =? NEWLINE) || (c =? CTRL_D) || (Z.of_nat (length (com ++ ed ++ [c])) =? INPUT_BUF_SIZE)) eqn:Ee.
  - assert (ends_line c (length (com ++ ed ++ [c]))) as He by (unfold ends_line; lia). do 2 wp_step. apply wakeup_wp; [done|].
    refine (Hend (with_cons (c_set_w (c_e (in_put c x)) (in_put c x)) _) He _). eexists _, _. split; [|split; [exact E1|reflexivity]].
    by apply cons_rep_commit.
  - assert (~ ends_line c (length (com ++ ed ++ [c]))) as He by (unfold ends_line; lia). wp_step. apply Hgo; [done|].
    eexists _, _. split; [|split; [exact E1|reflexivity]]. apply cons_rep_put; try done. intros ->. apply He. by left.
Qed.

Definition completes (c : Z) (s : list Z * list Z) : bool :=
  bool_decide (c <> CTRL_U /\ c <> CTRL_H /\ c <> DELETE /\ takes c s.1 s.2 /\
               ends_line (input_char c) (S (length (s.1 ++ s.2)))).

(** The outcome of consoleintr(c). *)
Definition intr_post (c : Z) (s : list Z * list Z) w w' : Prop :=
  cons_rep (k_cons (user w')) (type_char c s) /\
  trace w' = trace w ++ (EPutc <$> echo c s) /\
  k_procs (user w') = (if completes c s then woken ChCons (k_cur (user w)) (k_procs (user w)) else k_procs (user w)) /\
  held w' = held w.

Lemma edited_post c com ed w w' :
  edited (echo c (com, ed)) (type_char c (com, ed)) w w' -> completes c (com, ed) = false -> intr_post c (com, ed) w w'.
Proof.
  intros (x & w1 & Hx & (l & Hl & ->) & ->) Hc. unfold intr_post. rewrite Hc. done.
Qed.

Lemma intr_post_lock c s l w w' :
  intr_post c s (World (l :: held w) (trace w) (user w)) w' ->
  intr_post c s w (World (held w) (trace w') (user w')) /\ held w' = l :: held w.
Proof. intros (H1 & H2 & H3 & H4). done. Qed.

Lemma type_kill com ed : echo CTRL_U (com, ed) = erases (length ed) /\ type_char CTRL_U (com, ed) = (com, []).
Proof. done. Qed.

Lemma type_back c com ed : c = CTRL_H \/ c = DELETE ->
  echo c (com, ed) = (if decide (ed = []) then [] else erase) /\ type_char c (com, ed) = (com, removelast ed).
Proof. by intros [-> | ->]. Qed.

Lemma type_ordinary c com ed : c <> CTRL_U -> ~ (c = CTRL_H \/ c = DELETE) ->
  echo c (com, ed) = (if decide (takes c com ed) then [input_char c] else []) /\
  type_char c (com, ed) = (if decide (takes c com ed) then
    if decide (ends_line (input_char c) (S (length (com ++ ed)))) then (com ++ ed ++ [input_char c], []) else (com, ed ++ [input_char c])
    else (com, ed)).
Proof.
  intros H1 H2. unfold echo, type_char. destruct (decide (c = CTRL_U)); [done|].
  destruct (decide (c = CTRL_H \/ c = DELETE)); [tauto|]. cbv zeta.
  replace (length (com ++ ed ++ [input_char c])) with (S (length (com ++ ed))); [done|].
  rewrite !length_app. cbn [length]. lia.
Qed.

Lemma input_byte c : is_byte c -> is_byte (input_char c).
Proof. unfold input_char, is_byte, NEWLINE. case_decide; lia. Qed.
End Line.


(** ** consoleread() *)

Section Read.
Context {St : Type} `{BlockStore St}.
Implicit Types w : world (kernel St).
Context (kend : Z) (T : ptab) (fl : list Z) (dst : Z) (n0 : nat) (p : nat) (x : proc) (ed : list Z).
Hypothesis kend_pos : 0 < kend.
Hypothesis Hdst : 0 <= dst /\ dst + Z.of_nat n0 < 2 ^ 64.
Hypothesis Hn0 : Z.of_nat n0 < 2 ^ 31.
Hypothesis Hpt : p_pagetable x = pt_root T.

(** The current process is [p], with the page table [T]. *)
Definition running w : Prop := k_cur (user w) = Some p /\ k_procs (user w) !! p = Some x.

Lemma copyout_byte_wp va c (Q : Z -> world (kernel St) -> Prop) w :
  running w -> us_ok kend (k_phys (user w)) T fl -> 0 <= va < 2 ^ 64 -> is_byte c -> is_Some (uphys (kmem_mem (k_phys (user w))) T va) ->
  (forall k', copied_out kend T fl va [c] 1 (k_phys (user w)) k' -> Q 0 (World (held w) (trace w) (lput k' (user w)))) ->
  wp (copyout_cur va [c]) Q w.
Proof.
  intros [Hc Hx] Hus Hva Hb [b Hm] HQ. unfold copyout_cur, myproc. do 3 wp_step. eapply wp_the; [exact Hc|].
  wp_step. eapply getp_wp; [exact Hx|]. rewrite Hpt. unfold on_mem. wp_step.
  apply (copyout_wp kend (k_phys (user w)) T fl); try done; [by apply Forall_singleton|].
  intros n k' _ Hn Hnone. cbn [length] in Hn. replace (va + Z.of_nat n) with va in Hnone by lia. congruence.
Qed.

(** After [acc] has been delivered. *)
Record reading (com acc line : list Z) (k0 : kmem) (w0 w : world (kernel St)) : Prop := Reading {
  rd_cons : cons_rep (k_cons (user w)) (com, ed);
  rd_mem : copied_out kend T fl dst (acc ++ line) (length acc) k0 (k_phys (user w));
  rd_run : running w;
  rd_held : held w = LCons :: held w0;
  rd_trace : trace w = trace w0;
  rd_rest : k_procs (user w) = k_procs (user w0)
}.

(** The next character goes to the user. *)
Lemma deliver_wp c com acc line k0 w0 w (Q : Z -> world (kernel St) -> Prop) :
  reading (c :: com) acc (c :: line) k0 w0 w -> is_byte c -> (length acc < n0)%nat ->
  is_Some (uphys (kmem_mem k0) T (dst + Z.of_nat (length acc))) ->
  (forall w', reading com (acc ++ [c]) line k0 w0 w' -> Q 0 w') ->
  wp (copyout_cur (dst + Z.of_nat (length acc)) [c]) Q
     (with_cons (c_set_r (u32 (c_r (k_cons (user w)) + 1)) (k_cons (user w))) w).
Proof.
  intros [R1 R2 R3 R4 R5 R6] Hb Hlt Hm HQ. destruct (cons_rep_get _ _ _ _ R1) as [_ R1'].
  apply copyout_byte_wp; [exact R3|apply R2|lia|done|by rewrite (co_map _ _ _ _ _ _ _ _ R2)|]. intros k' Hk. apply HQ. split; try done.
  rewrite length_app, <- app_assoc. cbn [length app]. rewrite Nat.add_1_r.
  eapply copied_out_snoc; [exact R2| |exact Hk]. by rewrite lookup_app_r, Nat.sub_diag.
Qed.

Lemma consoleread_loop_wp fuel n com acc line rest k0 w0 w (Q : option Z -> world (kernel St) -> Prop) :
  reading com acc line k0 w0 w -> take_line n (bool_decide (acc = [])) com = Some (line, rest) ->
  (n + length acc)%nat = n0 -> (n < fuel)%nat -> Forall is_byte com ->
  (forall i, (i < length (acc ++ line))%nat -> is_Some (uphys (kmem_mem k0) T (dst + Z.of_nat i))) ->
  (forall w', reading rest (acc ++ line) [] k0 w0 w' -> Q (Some (Z.of_nat n - Z.of_nat (length line))) w') ->
  wp (iter fuel (consoleread_step true (Z.of_nat n0)) (dst + Z.of_nat (length acc), Z.of_nat n)) Q w.
Proof.
  revert fuel com acc line w. induction n as [|n IH]; intros [|fuel] com acc line w Hrd Hline Hn Hf Hb Hm HQ; try lia; cbn [iter]; wp_step.
  - injection Hline as <- <-. unfold consoleread_step at 1. change (Z.of_nat 0 >? 0) with false. cbn [negb]. do 2 wp_step.
    apply HQ. by rewrite app_nil_r.
  - unfold consoleread_step at 1. rewrite (proj2 (Z.gtb_lt _ _)) by lia. cbn [negb]. do 2 wp_step.
    destruct com as [|c com]; [done|]. cbn [take_line] in Hline. pose proof (rd_cons _ _ _ _ _ _ Hrd) as R1.
    rewrite (cons_empty _ _ _ R1), bool_decide_eq_false_2 by done. destruct (cons_rep_get _ _ _ _ R1) as [Hc R1'].
    wp_step. eapply wp_the; [exact Hc|]. unfold upd_cons. do 2 wp_step. destruct (c =? CTRL_D) eqn:Ed.
    { injection Hline as <- <-. cbn [length] in HQ. rewrite app_nil_r, Z.sub_0_r in HQ. rewrite u32_small by lia.
      destruct Hrd as [_ R2 R3 R4 R5 R6]. destruct (Z.ltb_spec (Z.of_nat (S n)) (Z.of_nat n0)) as [Hlt|Hge].
      - rewrite bool_decide_eq_false_2 in HQ by (intros ->; cbn in Hn; lia). do 4 wp_step. apply HQ. split; try done.
        cbn [user k_cons k_set_cons]. rewrite cons_rep_unget; [done| |done]. apply (rg_start _ _ _ _ _ (cr_ring _ _ R1)).
      - rewrite bool_decide_eq_true_2 in HQ by (destruct acc; [done|cbn in Hn; lia]). do 4 wp_step. by apply HQ. }
    apply Forall_cons_1 in Hb as [Hbc Hb]. unfold putchar_to. wp_step. destruct (c =? NEWLINE) eqn:En.
    + injection Hline as <- <-. rewrite length_app in Hm. apply (deliver_wp c com acc [] k0 w0); [done|done|lia|apply Hm; cbn; lia|].
      intros w1 R. change (0 =? -1) with false. cbv iota. do 2 wp_step. apply HQ in R. cbn [length] in R.
      by replace (Z.of_nat (S n) - 1) with (Z.of_nat (S n) - Z.of_nat 1) by lia.
    + destruct (take_line n false com) as [[l r]|] eqn:El; [|done]. injection Hline as <- <-.
      rewrite length_app in Hm. apply (deliver_wp c com acc l k0 w0); [done|done|lia|apply Hm; cbn [length]; lia|].
      intros w1 R. change (0 =? -1) with false. cbv iota. wp_step.
      replace (u64 (dst + Z.of_nat (length acc) + 1), Z.of_nat (S n) - 1) with (dst + Z.of_nat (length (acc ++ [c])), Z.of_nat n)
        by (rewrite length_app, u64_small by lia; cbn [length]; f_equal; lia).
      rewrite <- length_app in Hm.
      apply (IH fuel com (acc ++ [c]) l w1); [done|by rewrite bool_decide_eq_false_2 by (by destruct acc)|rewrite length_app; cbn; lia|lia|done| |].
      * intros i Hi. apply Hm. by rewrite <- app_assoc in Hi.
      * intros w' Rw. rewrite <- app_assoc in Rw. apply HQ in Rw. cbn [length] in Rw.
        by replace (Z.of_nat n - Z.of_nat (length l)) with (Z.of_nat (S n) - Z.of_nat (S (length l))) by lia.
Qed.
End Read.

(** C32. Reading from the console.  When enough input has been committed, a read()
    of [n] bytes at a mapped user address delivers exactly the line the abstract
    terminal gives: up to [n] characters, at most through the first newline, and
    up to a control-D, which is kept for the next read unless it comes first.
    The line lies in user memory at [dst], nothing else in memory changes, the
    rest of the input stays, and the result is the number of characters. *)
Theorem consoleread_correct {St} `{BlockStore St} (kend : Z) T fl (dst : Z) (n p : nat) x com ed line rest (w : world (kernel St)) :
  0 < kend -> us_ok kend (k_phys (user w)) T fl -> k_cur (user w) = Some p -> k_procs (user w) !! p = Some x ->
  p_pagetable x = pt_root T -> cons_rep (k_cons (user w)) (com, ed) -> Forall is_byte com -> LCons ∉ held w ->
  0 <= dst -> dst + Z.of_nat n < 2 ^ 64 -> Z.of_nat n < 2 ^ 31 ->
  take_line n true com = Some (line, rest) ->
  (forall i, (i < length line)%nat -> is_Some (uphys (kmem_mem (k_phys (user w))) T (dst + Z.of_nat i))) ->
  wp (consoleread true dst (Z.of_nat n)) (fun r w' =>
      r = Z.of_nat (length line) /\ cons_rep (k_cons (user w')) (rest, ed) /\
      copied_out kend T fl dst line (length line) (k_phys (user w)) (k_phys (user w')) /\
      trace w' = trace w /\ held w' = held w /\ k_procs (user w') = k_procs (user w)) w.
Proof.
  intros Hk Hus Hcur Hx Hpt Hr Hb Hl Hd1 Hd2 Hn Hline Hm. unfold consoleread. rewrite u32_small by lia.
  wp_step. apply wp_acquire; [done|]. wp_step.
  pose proof (fun w0 : world (kernel St) => consoleread_loop_wp kend T fl dst n p x ed Hk (conj Hd1 Hd2) Hn Hpt (S (S (Z.to_nat (Z.of_nat n)))) n com []
    line rest (k_phys (user w)) w0) as Hloop. cbn [length app] in Hloop. rewrite Z.add_0_r in Hloop. eapply (Hloop w).
  - split; try done. by apply copied_out_start.
  - done.
  - lia.
  - lia.
  - done.
  - done.
  - intros w' [R1 R2 R3 R4 R5 R6]. cbn beta iota. wp_step. eapply wp_release; [exact R4|]. wp_step.
    rewrite app_nil_r in R2. split; [|done]. rewrite s32_small; [lia|].
    apply take_line_length in Hline. lia.
Qed.

(** ** The letter a, and a line read *)

Lemma demo_cons_rep : cons_rep dk_cons ([], []).
Proof. split; try done; [by apply (ring_new _ _ HN)|apply not_elem_of_nil]. Qed.


Definition demo_input : cons := Cons ([104; 105; 10] ++ replicate 125 0) 0 3 3.
Definition demo_typed : world (kernel lstate) := World [] [] (lput demo_kmem (k_set_cons demo_input demo_kernel)).

Lemma demo_input_rep : cons_rep demo_input ([104; 105; 10], []).
Proof.
  split; try done; [|apply not_elem_of_nil]. split; try done. intros j Hj.
  destruct j as [|[|[|j]]]; [reflexivity|reflexivity|reflexivity|cbn in Hj; lia].
Qed.

Lemma consoleread_correct_witness :
  wp (consoleread true 8 10) (fun r w' =>
      r = 3 /\ cons_rep (k_cons (user w')) ([], []) /\
      copied_out KERNBASE demo_tab [] 8 [104; 105; 10] 3 demo_kmem (k_phys (user w')) /\
      trace w' = [] /\ held w' = [] /\ k_procs (user w') = dk_procs) demo_typed.
Proof.
  apply (consoleread_correct KERNBASE demo_tab [] 8 10 0 dk_running [104; 105; 10] [] [104; 105; 10] [] demo_typed).
  - done.
  - exact demo_us_ok.
  - reflexivity.
  - reflexivity.
  - reflexivity.
  - exact demo_input_rep.
  - repeat constructor; done.
  - apply not_elem_of_nil.
  - done.
  - done.
  - done.
  - reflexivity.
  - intros i Hi. destruct i as [|[|[|i]]]; [| | |cbn in Hi; lia]; (eexists; vm_compute; reflexivity).
Defined.
