(* ===== verification/UartFifo.v ===== *)
(** * The UART's transmit queue (kernel/uart.c)

    uartstart() sends exactly as many queued characters as the device will take,
    in order, and every interleaving of uartputc() by any processes with the
    transmit interrupt delivers the characters first-in first-out. *)

From S2P Require Import Prelude Ring Machine Mem Kalloc Sleeplock Store Log FsDisk CString Printf Fs Demo Vm VmTable VmCopy Kernel DemoKernel KernelWp File Proc Console ConsoleLine.

Open Scope Z_scope.

(** The characters [l] wait to be sent. *)
Record uart_rep (u : uart) (l : list Z) : Prop := UartRep {
  ur_ring : ring UART_TX_BUF_SIZE (2 ^ 64) (tx_buf u) (tx_r u) l;
  ur_w : tx_w u = ring_end (2 ^ 64) (tx_r u) l;
  ur_bytes : Forall is_byte l
}.

(** How many characters in a row the device will take. *)
Fixpoint lead (l : list Z) : nat :=
  match l with v :: t => if decide (idle v) then S (lead t) else 0%nat | [] => 0%nat end.

Lemma uart_counters : 0 < UART_TX_BUF_SIZE < 2 ^ 64 /\ 2 ^ 64 mod UART_TX_BUF_SIZE = 0.
Proof. done. Qed.
Abbreviation HU := (proj1 uart_counters).
Abbreviation HV := (proj2 uart_counters).

Lemma uart_empty u l : uart_rep u l -> (tx_w u =? tx_r u) = bool_decide (l = []).
Proof. intros Hu. rewrite (ur_w _ _ Hu). by apply (ring_empty _ _ HU (tx_buf u)), Hu. Qed.

Lemma uart_full u l : uart_rep u l -> (tx_w u =? u64 (tx_r u + UART_TX_BUF_SIZE)) = bool_decide (Z.of_nat (length l) = UART_TX_BUF_SIZE).
Proof. intros Hu. rewrite (ur_w _ _ Hu). by apply (ring_full _ _ HU (tx_buf u)), Hu. Qed.

Lemma uart_rep_get u c l v :
  uart_rep u (c :: l) ->
  tx_buf u !! Z.to_nat (tx_r u mod UART_TX_BUF_SIZE) = Some c /\ is_byte c /\ uart_rep (tx_get (u_set_lsr v u)) l.
Proof.
  intros [Hg Hw Hb]. destruct (ring_get _ _ HU HV _ _ _ _ Hg) as [Hc Hg']. apply Forall_cons_1 in Hb as [Hbc Hb].
  split; [done|]. split; [done|]. split; cbn [tx_get u_set_lsr tx_buf tx_r tx_w]; [done| |done]. unfold u64. by rewrite (ring_end_get _ _ _ c).
Qed.

Lemma uart_rep_put u c l :
  uart_rep u l -> Z.of_nat (length l) < UART_TX_BUF_SIZE -> uart_rep (tx_put c u) (l ++ [u8 c]).
Proof.
  intros [Hg Hw Hb] Hlt. unfold tx_put, u64. rewrite Hw. split; cbn [tx_buf tx_r tx_w].
  - by apply (ring_put _ _ HU HV).
  - by rewrite ring_end_app.
  - apply Forall_app. split; [done|]. apply Forall_singleton, u8_range.
Qed.

#[local] Instance EPutc_inj : Inj (=) (=) EPutc.
Proof. by intros x y [=]. Qed.

Section Uart.
Context {St : Type} `{BlockStore St}.
Implicit Types w : world (kernel St).

(** [out] has left the queue, of which [l] remains. *)
Definition transmitted (out l : list Z) w w' : Prop :=
  uart_rep (k_uart (user w')) l /\ trace w' = trace w ++ (EPutc <$> out) /\ held w' = held w /\
  length (k_procs (user w')) = length (k_procs (user w)).

Lemma transmitted_cons c out l w w1 w' :
  transmitted [c] (out ++ l) w w1 -> transmitted out l w1 w' -> transmitted (c :: out) l w w'.
Proof.
  intros (_ & T1 & H1 & L1) (U2 & T2 & H2 & L2). split; [done|]. rewrite T2, T1, H2, H1, L2, L1.
  split; [|done]. by rewrite <- app_assoc.
Qed.

Lemma uartstart_loop_wp n l (Q : unit -> world (kernel St) -> Prop) w :
  uart_rep (k_uart (user w)) l -> table_free w -> (length l < n)%nat ->
  (forall w', let k := lead (lsr (k_uart (user w))) in transmitted (take k l) (drop k l) w w' -> Q tt w') ->
  wp (iter n uartstart_step tt) Q w.
Proof.
  revert l w. induction n as [|n IH]; intros l w Hu Ht Hn HQ; [lia|]. cbn [iter]. wp_step. unfold uartstart_step at 1.
  do 2 wp_step. rewrite (uart_empty _ _ Hu). destruct l as [|c l].
  { rewrite bool_decide_eq_true_2 by done. do 2 wp_step. apply HQ. cbv zeta. rewrite take_nil, drop_nil.
    split; [done|]. by rewrite app_nil_r. }
  rewrite bool_decide_eq_false_2 by done. unfold read_LSR, upd_uart. do 3 wp_step. cbn [length] in Hn.
  destruct (lsr (k_uart (user w))) as [|v s] eqn:El; cbn [lead] in HQ.
  { wp_step. change (Z.land 0 LSR_TX_IDLE =? 0) with true. cbv iota. do 2 wp_step. apply HQ. cbv zeta. cbn [take drop].
    split; [done|]. by rewrite app_nil_r. }
  do 3 wp_step. cbv zeta in HQ. destruct (uart_rep_get _ _ _ s Hu) as (Hc & Hb & Hu').
  destruct (Z.eqb_spec (Z.land v LSR_TX_IDLE) 0) as [E|E].
  { rewrite decide_False in HQ by (intros Hv; by apply Hv). do 2 wp_step. apply HQ. cbn [take drop].
    split; [|split; [by rewrite app_nil_r|done]]. by destruct Hu. }
  rewrite decide_True in HQ by done. wp_step. eapply wp_the; [exact Hc|]. do 3 wp_step. apply wakeup_wp; [done|].
  unfold write_THR. do 3 wp_step. rewrite u8_small by exact Hb. eapply IH; [exact Hu'| |lia|].
  - split; [|apply Ht]. refine (eq_trans (woken_length _ _ _) _). apply Ht.
  - intros w'. cbv zeta. intros Htr. apply HQ. cbn [take drop]. eapply transmitted_cons; [|exact Htr]. rewrite take_drop.
    split; [done|]. split; [done|]. split; [done|]. apply (woken_length _ _ (k_procs (user w))).
Qed.

Lemma uartstart_wp l (Q : unit -> world (kernel St) -> Prop) w :
  uart_rep (k_uart (user w)) l -> table_free w ->
  (forall w', let k := lead (lsr (k_uart (user w))) in transmitted (take k l) (drop k l) w w' -> Q tt w') ->
  wp uartstart Q w.
Proof.
  intros Hu Ht HQ. apply uartstart_loop_wp with (l := l); try done. pose proof (rg_room _ _ _ _ _ (ur_ring _ _ Hu)).
  unfold UART_TX_BUF_SIZE in *. lia.
Qed.

(** ** Interleavings *)

(** A process sends a character, the device interrupts, or something else runs
    that leaves the queue alone. *)
Inductive uart_step : world (kernel St) -> option Z -> world (kernel St) -> Prop :=
  | us_put c w w' : LUart ∉ held w -> table_free w -> uartputc c w = Ret (tt, w') -> uart_step w (Some (u8 c)) w'
  | us_intr w w' : LUart ∉ held w -> table_free w ->
      (acquire LUart ;; uartstart ;; release LUart) w = Ret (tt, w') -> uart_step w None w'.

(** The characters that have entered the queue and those it has sent. *)
Inductive uart_run (w0 : world (kernel St)) : list Z -> list Z -> world (kernel St) -> Prop :=
  | ur_start : uart_run w0 [] [] w0
  | ur_step ins outs w c out w' :
      uart_run w0 ins outs w -> uart_step w c w' -> trace w' = trace w ++ (EPutc <$> out) ->
      uart_run w0 (ins ++ option_list c) (outs ++ out) w'
  | ur_other ins outs w w' :
      uart_run w0 ins outs w -> tx_buf (k_uart (user w')) = tx_buf (k_uart (user w)) ->
      tx_w (k_uart (user w')) = tx_w (k_uart (user w)) -> tx_r (k_uart (user w')) = tx_r (k_uart (user w)) ->
      uart_run w0 ins outs w'.

Lemma uart_step_rep w c w' l :
  uart_rep (k_uart (user w)) l -> uart_step w c w' ->
  exists out l', l ++ option_list c = out ++ l' /\ uart_rep (k_uart (user w')) l' /\ trace w' = trace w ++ (EPutc <$> out).
Proof.
  intros Hu Hs.
  assert (forall (w : world (kernel St)) l, uart_rep (k_uart (user w)) l -> LUart ∉ held w -> table_free w ->
    wp (uartstart ;; release LUart) (fun _ w' => exists out l', l = out ++ l' /\ uart_rep (k_uart (user w')) l' /\
        trace w' = trace w ++ (EPutc <$> out)) (World (LUart :: held w) (trace w) (user w))) as Hstart.
  { clear. intros w l Hu Hl Ht. wp_step. apply (uartstart_wp l); [done| |].
    - split; [apply Ht|]. intros p Hin. apply elem_of_cons in Hin as [|Hin]; [done|]. by apply (proj2 Ht p).
    - intros w' k (U & T & Hh & L). eapply wp_release; [exact Hh|]. exists (take k l), (drop k l).
      by rewrite take_drop. }
  destruct Hs as [c w w' Hl Ht E|w w' Hl Ht E].
  - eapply (wlp_run _ (fun _ w' => exists out l', l ++ [u8 c] = out ++ l' /\ uart_rep (k_uart (user w')) l' /\
      trace w' = trace w ++ (EPutc <$> out))); [|exact E]. unfold uartputc, upd_uart. wlp_step. wlp_step. do 2 wlp_step.
    rewrite (uart_full _ _ Hu). case_bool_decide as Hf; [apply wlp_sleep|]. do 2 wlp_step.
    assert (uart_rep (tx_put c (k_uart (user w))) (l ++ [u8 c])) as Hu'.
    { apply uart_rep_put; [done|]. pose proof (rg_room _ _ _ _ _ (ur_ring _ _ Hu)). lia. }
    specialize (Hstart (World (held w) (trace w) (k_set_uart (tx_put c (k_uart (user w))) (user w))) (l ++ [u8 c]) Hu' Hl Ht).
    apply wp_run in Hstart as ([] & w2 & Er & HQ). unfold wlp. cbn [held trace user] in Er. by rewrite Er.
  - specialize (Hstart w l Hu Hl Ht). apply wp_run in Hstart as ([] & w2 & Er & HQ).
    unfold bind at 1, acquire in E. rewrite decide_False in E by done. rewrite Er in E. injection E as <-.
    cbn [option_list]. by rewrite app_nil_r.
Qed.
End Uart.

(** uartstart() sends, in order, exactly as many of the waiting characters as
    the device says it can take without a pause, and keeps the rest; it always
    returns, whatever the device answers. *)
Theorem uartstart_correct {St} `{BlockStore St} (l : list Z) (w : world (kernel St)) :
  uart_rep (k_uart (user w)) l -> table_free w ->
  wp uartstart (fun _ w' => let k := lead (lsr (k_uart (user w))) in transmitted (take k l) (drop k l) w w') w.
Proof. intros Hu Ht. by apply (uartstart_wp l). Qed.

(** C33. Characters written to the console are transmitted first-in first-out: from
    an empty queue, whatever processes call uartputc() and whenever the device
    interrupts, what went in is what came out followed by what still waits, at
    most UART_TX_BUF_SIZE characters. *)
Theorem uart_fifo {St} `{BlockStore St} (w0 w : world (kernel St)) ins outs :
  uart_rep (k_uart (user w0)) [] -> uart_run w0 ins outs w ->
  exists l, ins = outs ++ l /\ uart_rep (k_uart (user w)) l /\ Z.of_nat (length l) <= UART_TX_BUF_SIZE.
Proof.
  intros H0 Hrun. assert (exists l, ins = outs ++ l /\ uart_rep (k_uart (user w)) l) as (l & Hl & Hu).
  { induction Hrun as [|ins outs w c out w' _ (l & -> & Hu) Hs Htr|ins outs w w' _ (l & -> & Hu) E1 E2 E3].
    - by exists [].
    - destruct (uart_step_rep _ _ _ _ Hu Hs) as (out' & l' & E & Hu' & Htr'). exists l'. split; [|done].
      rewrite Htr in Htr'. apply app_inv_head in Htr'. apply list_fmap_eq_inj in Htr' as ->; [|apply _].
      by rewrite <- !app_assoc, E.
    - exists l. split; [done|]. destruct Hu as [Hg Hw Hb]. split; [by rewrite E1, E3|by rewrite E2, E3|done]. }
  exists l. split; [done|]. split; [done|]. apply (ur_ring _ _ Hu).
Qed.

(** ** A character through the queue *)

Lemma demo_uart_rep : uart_rep dk_uart [].
Proof. split; try done. by apply (ring_new _ _ HU). Qed.

(** Two characters wait and the device takes one. *)
Definition demo_queue : uart := Uart ([104; 105] ++ replicate 30 0) 2 0 [32; 0] [].
Definition demo_busy : world (kernel lstate) := World [] [] (k_set_uart demo_queue demo_kernel).

Lemma demo_queue_rep : uart_rep demo_queue [104; 105].
Proof.
  split; [|done|repeat constructor; done]. split; try done. intros j Hj.
  destruct j as [|[|j]]; [reflexivity|reflexivity|cbn in Hj; lia].
Qed.

Lemma uartstart_correct_witness : wp uartstart (fun _ w' => transmitted [104] [105] demo_busy w') demo_busy.
Proof.
  apply (uartstart_correct [104; 105] demo_busy).
  - exact demo_queue_rep.
  - split; [reflexivity|]. intros p. apply not_elem_of_nil.
Defined.

Lemma uart_fifo_witness :
  exists l, [97] = [97] ++ l /\ uart_rep (k_uart (user (after (uartputc 97) demo_world))) l /\ Z.of_nat (length l) <= UART_TX_BUF_SIZE.
Proof.
  apply (uart_fifo demo_world (after (uartputc 97) demo_world) [97] [97]).
  - exact demo_uart_rep.
  - apply (ur_step demo_world [] [] demo_world (Some 97) [97]).
    + apply ur_start.
    + apply (us_put 97).
      * apply not_elem_of_nil.
      * split; [reflexivity|]. intros p. apply not_elem_of_nil.
      * refine (after_run (uartputc 97) demo_world tt _). vm_compute. reflexivity.
    + vm_compute. reflexivity.
Defined.
