(* ===== verification/Virtio.v ===== *)
(** * The virtio disk driver (kernel/virtio_disk.c, kernel/virtio.h)

    The descriptor table, the two rings and the driver's own tables, with the
    operations that change them.  virtio_disk_rw() gives up the CPU twice, for free
    descriptors and for the end of its request, so it is two definitions: what
    comes before the second wait and what comes after it.  The addresses the
    driver passes to the device are those of kernel objects: a command header, a
    buffer's data, a status byte.  A panic is [inr]. *)

From S2P Require Import Prelude Machine.

Open Scope Z_scope.

(** ** kernel/virtio.h *)

Definition VIRTIO_MMIO_MAGIC_VALUE : Z := 0.
Definition VIRTIO_MMIO_VERSION : Z := 4.
Definition VIRTIO_MMIO_DEVICE_ID : Z := 8.
Definition VIRTIO_MMIO_VENDOR_ID : Z := 12.
Definition VIRTIO_MMIO_DEVICE_FEATURES : Z := 16.
Definition VIRTIO_MMIO_DRIVER_FEATURES : Z := 32.
Definition VIRTIO_MMIO_QUEUE_SEL : Z := 48.
Definition VIRTIO_MMIO_QUEUE_NUM_MAX : Z := 52.
Definition VIRTIO_MMIO_QUEUE_NUM : Z := 56.
Definition VIRTIO_MMIO_QUEUE_READY : Z := 68.
Definition VIRTIO_MMIO_STATUS : Z := 112.
Definition VIRTIO_MMIO_QUEUE_DESC_LOW : Z := 128.
Definition VIRTIO_MMIO_QUEUE_DESC_HIGH : Z := 132.
Definition VIRTIO_MMIO_DRIVER_DESC_LOW : Z := 144.
Definition VIRTIO_MMIO_DRIVER_DESC_HIGH : Z := 148.
Definition VIRTIO_MMIO_DEVICE_DESC_LOW : Z := 160.
Definition VIRTIO_MMIO_DEVICE_DESC_HIGH : Z := 164.

Definition VIRTIO_CONFIG_S_ACKNOWLEDGE : Z := 1.
Definition VIRTIO_CONFIG_S_DRIVER : Z := 2.
Definition VIRTIO_CONFIG_S_DRIVER_OK : Z := 4.
Definition VIRTIO_CONFIG_S_FEATURES_OK : Z := 8.

Definition VIRTIO_BLK_F_RO : Z := 5.
Definition VIRTIO_BLK_F_SCSI : Z := 7.
Definition VIRTIO_BLK_F_CONFIG_WCE : Z := 11.
Definition VIRTIO_BLK_F_MQ : Z := 12.
Definition VIRTIO_F_ANY_LAYOUT : Z := 27.
Definition VIRTIO_RING_F_INDIRECT_DESC : Z := 28.
Definition VIRTIO_RING_F_EVENT_IDX : Z := 29.

Definition NUM : Z := 8.
Definition VRING_DESC_F_NEXT : Z := 1.
Definition VRING_DESC_F_WRITE : Z := 2.
Definition VIRTIO_BLK_T_IN : Z := 0.
Definition VIRTIO_BLK_T_OUT : Z := 1.

(** ** State *)

Inductive vaddr := VNull | VOp (i : nat) | VData (b : nat) | VStatus (i : nat).
#[export] Instance vaddr_eq_dec : EqDecision vaddr.
Proof. solve_decision. Defined.

Record virtq_desc := Desc { q_addr : vaddr; q_len : Z; q_flags : Z; q_next : Z }.
Definition desc0 : virtq_desc := Desc VNull 0 0 0.

(** [struct virtio_blk_req]: type and sector. *)
Record virtio_blk_req := BlkReq { rq_type : Z; rq_sector : Z }.

Record disk := Disk {
  vd_desc : list virtq_desc;
  vd_avail : list Z;             (* avail->ring *)
  vd_avail_idx : Z;              (* avail->idx *)
  vd_used : list Z;              (* used->ring[].id *)
  vd_used_end : Z;               (* used->idx *)
  vd_free : list bool;
  vd_used_idx : Z;
  vd_info : list (option nat);   (* info[].b *)
  vd_status : list Z;            (* info[].status *)
  vd_ops : list virtio_blk_req;
  vd_busy : nat -> bool          (* b->disk *)
}.

Definition v_set_desc v d := Disk v (vd_avail d) (vd_avail_idx d) (vd_used d) (vd_used_end d) (vd_free d) (vd_used_idx d) (vd_info d) (vd_status d) (vd_ops d) (vd_busy d).
Definition v_set_avail v n d := Disk (vd_desc d) v n (vd_used d) (vd_used_end d) (vd_free d) (vd_used_idx d) (vd_info d) (vd_status d) (vd_ops d) (vd_busy d).
Definition v_set_used v n d := Disk (vd_desc d) (vd_avail d) (vd_avail_idx d) v n (vd_free d) (vd_used_idx d) (vd_info d) (vd_status d) (vd_ops d) (vd_busy d).
Definition v_set_free v d := Disk (vd_desc d) (vd_avail d) (vd_avail_idx d) (vd_used d) (vd_used_end d) v (vd_used_idx d) (vd_info d) (vd_status d) (vd_ops d) (vd_busy d).
Definition v_set_used_idx v d := Disk (vd_desc d) (vd_avail d) (vd_avail_idx d) (vd_used d) (vd_used_end d) (vd_free d) v (vd_info d) (vd_status d) (vd_ops d) (vd_busy d).
Definition v_set_info v d := Disk (vd_desc d) (vd_avail d) (vd_avail_idx d) (vd_used d) (vd_used_end d) (vd_free d) (vd_used_idx d) v (vd_status d) (vd_ops d) (vd_busy d).
Definition v_set_status v d := Disk (vd_desc d) (vd_avail d) (vd_avail_idx d) (vd_used d) (vd_used_end d) (vd_free d) (vd_used_idx d) (vd_info d) v (vd_ops d) (vd_busy d).
Definition v_set_ops v d := Disk (vd_desc d) (vd_avail d) (vd_avail_idx d) (vd_used d) (vd_used_end d) (vd_free d) (vd_used_idx d) (vd_info d) (vd_status d) v (vd_busy d).
Definition v_set_busy v d := Disk (vd_desc d) (vd_avail d) (vd_avail_idx d) (vd_used d) (vd_used_end d) (vd_free d) (vd_used_idx d) (vd_info d) (vd_status d) (vd_ops d) v.

Definition set_flag (b : nat) (x : bool) (f : nat -> bool) : nat -> bool := fun c => if decide (c = b) then x else f c.

(** ** Descriptors *)

Fixpoint find_true (l : list bool) (i : nat) : option nat :=
  match l with [] => None | true :: _ => Some i | false :: t => find_true t (S i) end.

(** [None] is -1. *)
Definition alloc_desc (d : disk) : disk * option nat :=
  match find_true (vd_free d) 0 with
  | Some i => (v_set_free (<[i := false]> (vd_free d)) d, Some i)
  | None => (d, None)
  end.

Definition free_desc (i : nat) (d : disk) : disk + string :=
  if NUM <=? Z.of_nat i then inr "free_desc 1"%string else
  if default false (vd_free d !! i) then inr "free_desc 2"%string else
  inl (v_set_free (<[i := true]> (vd_free d)) (v_set_desc (<[i := desc0]> (vd_desc d)) d)).

(** A chain that does not end is given up after [fuel] descriptors. *)
Fixpoint free_chain (fuel : nat) (i : nat) (d : disk) : disk + string :=
  match fuel with
  | O => inr "free_chain"%string
  | S n =>
      let flag := q_flags (default desc0 (vd_desc d !! i)) in
      let nxt := q_next (default desc0 (vd_desc d !! i)) in
      match free_desc i d with
      | inl d' => if negb (Z.land flag VRING_DESC_F_NEXT =? 0) then free_chain n (Z.to_nat nxt) d' else inl d'
      | inr e => inr e
      end
  end.

(** The three descriptors, or [None] with those already taken given back. *)
Definition alloc3_desc (d : disk) : (disk * option (nat * nat * nat)) + string :=
  let '(d0, r0) := alloc_desc d in
  match r0 with
  | None => inl (d0, None)
  | Some i0 =>
      let '(d1, r1) := alloc_desc d0 in
      match r1 with
      | None => match free_desc i0 d1 with inl d' => inl (d', None) | inr e => inr e end
      | Some i1 =>
          let '(d2, r2) := alloc_desc d1 in
          match r2 with
          | None =>
              match free_desc i0 d2 with
              | inl d' => match free_desc i1 d' with inl d'' => inl (d'', None) | inr e => inr e end
              | inr e => inr e
              end
          | Some i2 => inl (d2, Some (i0, i1, i2))
          end
      end
  end.

(** ** virtio_disk_rw() and virtio_disk_intr() *)

(** From the format of the three descriptors to the notification. *)
Definition format_request (b : nat) (blockno : Z) (write : bool) (i0 i1 i2 : nat) (d : disk) : disk :=
  let sector := u32 (blockno * (BSIZE / 512)) in
  let d := v_set_ops (<[i0 := BlkReq (if write then VIRTIO_BLK_T_OUT else VIRTIO_BLK_T_IN) sector]> (vd_ops d)) d in
  let d := v_set_desc (<[i0 := Desc (VOp i0) 16 VRING_DESC_F_NEXT (Z.of_nat i1)]> (vd_desc d)) d in
  let d := v_set_desc (<[i1 := Desc (VData b) BSIZE (Z.lor (if write then 0 else VRING_DESC_F_WRITE) VRING_DESC_F_NEXT) (Z.of_nat i2)]> (vd_desc d)) d in
  let d := v_set_status (<[i0 := 255]> (vd_status d)) d in
  let d := v_set_desc (<[i2 := Desc (VStatus i0) 1 VRING_DESC_F_WRITE 0]> (vd_desc d)) d in
  let d := v_set_busy (set_flag b true (vd_busy d)) d in
  let d := v_set_info (<[i0 := Some b]> (vd_info d)) d in
  v_set_avail (<[Z.to_nat (vd_avail_idx d mod NUM) := Z.of_nat i0]> (vd_avail d)) (u16 (vd_avail_idx d + 1)) d.

(** Up to the wait for virtio_disk_intr(): the head of the chain, or [None] when
    the caller has to sleep for free descriptors. *)
Definition rw_start (b : nat) (blockno : Z) (write : bool) (d : disk) : (disk * option nat) + string :=
  match alloc3_desc d with
  | inr e => inr e
  | inl (d, None) => inl (d, None)
  | inl (d, Some (i0, i1, i2)) => inl (format_request b blockno write i0 i1 i2 d, Some i0)
  end.

(** After the wait. *)
Definition rw_end (i0 : nat) (d : disk) : disk + string :=
  free_chain (S (Z.to_nat NUM)) i0 (v_set_info (<[i0 := None]> (vd_info d)) d).

(** One turn of the loop over the used ring; [None] when there is nothing new.
    An index past the tables is a wild access. *)
Definition intr_turn (d : disk) : (disk * option nat) + string :=
  if vd_used_idx d =? vd_used_end d then inl (d, None) else
  match vd_used d !! Z.to_nat (vd_used_idx d mod NUM) with
  | None => inr "wild pointer"%string
  | Some id =>
      match vd_status d !! Z.to_nat id, vd_info d !! Z.to_nat id with
      | Some status, Some (Some b) =>
          if negb (status =? 0) then inr "virtio_disk_intr status"%string else
          inl (v_set_used_idx (u16 (vd_used_idx d + 1)) (v_set_busy (set_flag b false (vd_busy d)) d), Some b)
      | _, _ => inr "wild pointer"%string
      end
  end.

(** ** virtio_disk_init() *)

(** The features the driver does not want, cleared one after the other. *)
Definition clear_feature (features bit : Z) : Z := Z.land features (u64 (Z.lnot (s32 (Z.shiftl 1 bit)))).
Definition driver_features (features : Z) : Z :=
  fold_left clear_feature [VIRTIO_BLK_F_RO; VIRTIO_BLK_F_SCSI; VIRTIO_BLK_F_CONFIG_WCE; VIRTIO_BLK_F_MQ;
                           VIRTIO_F_ANY_LAYOUT; VIRTIO_RING_F_EVENT_IDX; VIRTIO_RING_F_INDIRECT_DESC] features.

(** The register writes, given what the registers read and the three pages
    kalloc() gave. *)
Definition virtio_disk_init (rd : Z -> Z) (desc avail used : Z) : list (Z * Z) + string :=
  if negb (rd VIRTIO_MMIO_MAGIC_VALUE =? 1953655158) || negb (rd VIRTIO_MMIO_VERSION =? 2) ||
     negb (rd VIRTIO_MMIO_DEVICE_ID =? 2) || negb (rd VIRTIO_MMIO_VENDOR_ID =? 1431127377)
  then inr "could not find virtio disk"%string else
  let s1 := Z.lor 0 VIRTIO_CONFIG_S_ACKNOWLEDGE in
  let s2 := Z.lor s1 VIRTIO_CONFIG_S_DRIVER in
  let s3 := Z.lor s2 VIRTIO_CONFIG_S_FEATURES_OK in
  let status := rd VIRTIO_MMIO_STATUS in
  if Z.land status VIRTIO_CONFIG_S_FEATURES_OK =? 0 then inr "virtio disk FEATURES_OK unset"%string else
  if negb (rd VIRTIO_MMIO_QUEUE_READY =? 0) then inr "virtio disk should not be ready"%string else
  let max := rd VIRTIO_MMIO_QUEUE_NUM_MAX in
  if max =? 0 then inr "virtio disk has no queue 0"%string else
  if max <? NUM then inr "virtio disk max queue too short"%string else
  if (desc =? 0) || (avail =? 0) || (used =? 0) then inr "virtio disk kalloc"%string else
  inl [(VIRTIO_MMIO_STATUS, 0); (VIRTIO_MMIO_STATUS, s1); (VIRTIO_MMIO_STATUS, s2);
       (VIRTIO_MMIO_DRIVER_FEATURES, u32 (driver_features (rd VIRTIO_MMIO_DEVICE_FEATURES)));
       (VIRTIO_MMIO_STATUS, s3); (VIRTIO_MMIO_QUEUE_SEL, 0); (VIRTIO_MMIO_QUEUE_NUM, NUM);
       (VIRTIO_MMIO_QUEUE_DESC_LOW, u32 desc); (VIRTIO_MMIO_QUEUE_DESC_HIGH, u32 (Z.shiftr desc 32));
       (VIRTIO_MMIO_DRIVER_DESC_LOW, u32 avail); (VIRTIO_MMIO_DRIVER_DESC_HIGH, u32 (Z.shiftr avail 32));
       (VIRTIO_MMIO_DEVICE_DESC_LOW, u32 used); (VIRTIO_MMIO_DEVICE_DESC_HIGH, u32 (Z.shiftr used 32));
       (VIRTIO_MMIO_QUEUE_READY, 1); (VIRTIO_MMIO_STATUS, Z.lor status VIRTIO_CONFIG_S_DRIVER_OK)].

(** The driver's tables after virtio_disk_init(). *)
Definition disk_init : disk :=
  Disk (replicate 8 desc0) (replicate 8 0) 0 (replicate 8 0) 0 (replicate 8 true) 0 (replicate 8 None) (replicate 8 0)
    (replicate 8 (BlkReq 0 0)) (fun _ => false).
