(* ===== verification/VirtioSafe.v ===== *)
(** * The disk driver and the device (kernel/virtio_disk.c)

    Processes in virtio_disk_rw(), the interrupt handler and the device, in any
    interleaving of their steps.  The device is the one the virtio specification
    describes: it takes the heads of chains from the available ring in order,
    carries out the requests it has taken in any order, and for each writes the
    status and puts the head in the used ring.  Every request is carried out
    exactly once, between the call and the return, on the block, the buffer and
    in the direction the caller asked for, and no path of the driver panics. *)

From S2P Require Import Prelude Ring Machine Virtio.

Open Scope Z_scope.

(** ** The device *)

Record vreq := Vreq { vr_buf : nat; vr_block : Z; vr_write : bool }.

(** What a chain says: the buffer, the sector, the direction and where the status
    goes.  A request to write the disk comes with data the device reads. *)
Definition dev_decode (d : disk) (h : nat) : option (nat * Z * bool * nat) :=
  match vd_desc d !! h with
  | Some (Desc (VOp o) 16 1 m) =>
      match vd_ops d !! o, vd_desc d !! Z.to_nat m with
      | Some (BlkReq ty sector), Some (Desc (VData b) len fl t) =>
          if negb (len =? BSIZE) || negb (fl =? (if ty =? VIRTIO_BLK_T_OUT then 1 else 3)) then None else
          match vd_desc d !! Z.to_nat t with
          | Some (Desc (VStatus s) 1 2 _) => Some (b, sector, ty =? VIRTIO_BLK_T_OUT, s)
          | _ => None
          end
      | _, _ => None
      end
  | _ => None
  end.

Definition dev_done (h s : nat) (d : disk) : disk :=
  v_set_used (<[Z.to_nat (vd_used_end d mod NUM) := Z.of_nat h]> (vd_used d)) (u16 (vd_used_end d + 1))
    (v_set_status (<[s := 0]> (vd_status d)) d).

(** ** The system *)

Inductive vlabel := Submit (r : vreq) | Execute (b : nat) (sector : Z) (write : bool) | Return (r : vreq).

Record vsys := Vsys {
  y_disk : disk;
  y_seen : Z;                    (* how far the device has read the available ring *)
  y_taken : list nat;            (* requests the device is working on *)
  y_wait : gmap nat vreq;        (* callers of virtio_disk_rw(), by the head of their chain *)
  y_hist : list vlabel
}.

Definition vsys_init : vsys := Vsys disk_init 0 [] ∅ [].

(** A buffer is locked by its user, so at most one caller passes it. *)
Definition in_flight (b : nat) (s : vsys) : Prop := exists h r, y_wait s !! h = Some r /\ vr_buf r = b.

Inductive vstep : vsys -> vsys -> Prop :=
  | vs_submit b bno wr s d' h :
      ~ in_flight b s -> rw_start b bno wr (y_disk s) = inl (d', Some h) ->
      vstep s (Vsys d' (y_seen s) (y_taken s) (<[h := Vreq b bno wr]> (y_wait s)) (y_hist s ++ [Submit (Vreq b bno wr)]))
  | vs_full b bno wr s d' :
      ~ in_flight b s -> rw_start b bno wr (y_disk s) = inl (d', None) ->
      vstep s (Vsys d' (y_seen s) (y_taken s) (y_wait s) (y_hist s))
  | vs_take s h :
      y_seen s <> vd_avail_idx (y_disk s) -> vd_avail (y_disk s) !! Z.to_nat (y_seen s mod NUM) = Some h ->
      vstep s (Vsys (y_disk s) (u16 (y_seen s + 1)) (Z.to_nat h :: y_taken s) (y_wait s) (y_hist s))
  | vs_exec s h l b sector wr st :
      y_taken s ≡ₚ h :: l -> dev_decode (y_disk s) h = Some (b, sector, wr, st) ->
      vstep s (Vsys (dev_done h st (y_disk s)) (y_seen s) l (y_wait s) (y_hist s ++ [Execute b sector wr]))
  | vs_intr s d' b :
      intr_turn (y_disk s) = inl (d', b) ->
      vstep s (Vsys d' (y_seen s) (y_taken s) (y_wait s) (y_hist s))
  | vs_return s h r d' :
      y_wait s !! h = Some r -> vd_busy (y_disk s) (vr_buf r) = false -> rw_end h (y_disk s) = inl d' ->
      vstep s (Vsys d' (y_seen s) (y_taken s) (delete h (y_wait s)) (y_hist s ++ [Return r])).

Inductive vreach : vsys -> Prop :=
  | vr_init : vreach vsys_init
  | vr_step s s' : vreach s -> vstep s s' -> vreach s'.

(** ** What a buffer goes through *)

Inductive bstate := BIdle | BAsked (bno : Z) (wr : bool) | BServed (bno : Z) (wr : bool).

Definition label_buf (l : vlabel) : nat :=
  match l with Submit r | Return r => vr_buf r | Execute b _ _ => b end.

(** Submit, Execute of the same block in the same direction, Return: nothing else
    is accepted. *)
Definition bstep (st : option bstate) (l : vlabel) : option bstate :=
  match st, l with
  | Some BIdle, Submit r => Some (BAsked (vr_block r) (vr_write r))
  | Some (BAsked n w), Execute _ s w' =>
      if decide (s = u32 (n * (BSIZE / 512)) /\ w' = w) then Some (BServed n w) else None
  | Some (BServed n w), Return r => if decide (n = vr_block r /\ w = vr_write r) then Some BIdle else None
  | _, _ => None
  end.
Definition served (b : nat) (h : list vlabel) : option bstate :=
  fold_left bstep (filter (fun l => label_buf l = b) h) (Some BIdle).

Lemma served_snoc b h l :
  served b (h ++ [l]) = if decide (label_buf l = b) then bstep (served b h) l else served b h.
Proof.
  unfold served. rewrite list.filter_app, fold_left_app, filter_cons. case_decide; cbn; done.
Qed.

(** ** The invariant *)

Inductive stage := Queued | Taken | Used | Acked.
#[export] Instance stage_eq_dec : EqDecision stage.
Proof. solve_decision. Defined.

Record req := Req { q_req : vreq; q_mid : nat; q_tail : nat; q_stage : stage }.
Definition q_set_stage x r := Req (q_req r) (q_mid r) (q_tail r) x.

Definition descs (h : nat) (r : req) : list nat := [h; q_mid r; q_tail r].

(** The chain of request [r] as the driver wrote it. *)
Record chain_ok (d : disk) (h : nat) (r : req) : Prop := ChainOk {
  ch_head : vd_desc d !! h = Some (Desc (VOp h) 16 1 (Z.of_nat (q_mid r)));
  ch_mid : vd_desc d !! q_mid r = Some (Desc (VData (vr_buf (q_req r))) BSIZE (if vr_write (q_req r) then 1 else 3) (Z.of_nat (q_tail r)));
  ch_tail : vd_desc d !! q_tail r = Some (Desc (VStatus h) 1 2 0);
  ch_op : vd_ops d !! h = Some (BlkReq (if vr_write (q_req r) then 1 else 0) (u32 (vr_block (q_req r) * (BSIZE / 512))));
  ch_info : vd_info d !! h = Some (Some (vr_buf (q_req r)));
  ch_status : vd_status d !! h = Some (if decide (q_stage r = Used \/ q_stage r = Acked) then 0 else 255);
  ch_busy : vd_busy d (vr_buf (q_req r)) = bool_decide (q_stage r <> Acked)
}.

(** [l] lists the heads of the requests at stage [st]. *)
Definition at_stage (reqs : gmap nat req) (st : stage) (l : list nat) : Prop :=
  NoDup l /\ forall h, h ∈ l <-> exists r, reqs !! h = Some r /\ q_stage r = st.

Record sizes (d : disk) : Prop := Sizes {
  sz_desc : length (vd_desc d) = 8%nat;
  sz_free : length (vd_free d) = 8%nat;
  sz_info : length (vd_info d) = 8%nat;
  sz_status : length (vd_status d) = 8%nat;
  sz_ops : length (vd_ops d) = 8%nat
}.

Definition owned_by (reqs : gmap nat req) (i : nat) : Prop := exists h r, reqs !! h = Some r /\ i ∈ descs h r.

Definition bstate_of (r : req) : bstate :=
  match q_stage r with
  | Queued | Taken => BAsked (vr_block (q_req r)) (vr_write (q_req r))
  | Used | Acked => BServed (vr_block (q_req r)) (vr_write (q_req r))
  end.

Record vinv (s : vsys) (reqs : gmap nat req) (ql ul : list nat) : Prop := Vinv {
  vi_sizes : sizes (y_disk s);
  vi_wait : y_wait s = q_req <$> reqs;
  vi_chain : forall h r, reqs !! h = Some r -> chain_ok (y_disk s) h r;
  vi_distinct : forall h r, reqs !! h = Some r -> NoDup (descs h r);
  vi_disjoint : forall h r h' r' i, reqs !! h = Some r -> reqs !! h' = Some r' -> i ∈ descs h r -> i ∈ descs h' r' -> h = h';
  vi_free : forall i, (i < 8)%nat -> (vd_free (y_disk s) !! i = Some true <-> ~ owned_by reqs i);
  vi_range : forall i, owned_by reqs i -> (i < 8)%nat;
  vi_bufs : forall h r h' r', reqs !! h = Some r -> reqs !! h' = Some r' -> vr_buf (q_req r) = vr_buf (q_req r') -> h = h';
  vi_queued : at_stage reqs Queued ql;
  vi_avail : ring NUM (2 ^ 16) (vd_avail (y_disk s)) (y_seen s) (Z.of_nat <$> ql);
  vi_avail_idx : vd_avail_idx (y_disk s) = ring_end (2 ^ 16) (y_seen s) (Z.of_nat <$> ql);
  vi_taken : at_stage reqs Taken (y_taken s);
  vi_done : at_stage reqs Used ul;
  vi_used : ring NUM (2 ^ 16) (vd_used (y_disk s)) (vd_used_idx (y_disk s)) (Z.of_nat <$> ul);
  vi_used_end : vd_used_end (y_disk s) = ring_end (2 ^ 16) (vd_used_idx (y_disk s)) (Z.of_nat <$> ul);
  vi_served : forall h r, reqs !! h = Some r -> served (vr_buf (q_req r)) (y_hist s) = Some (bstate_of r);
  vi_idle : forall b, (forall h r, reqs !! h = Some r -> vr_buf (q_req r) <> b) -> served b (y_hist s) = Some BIdle
}.

(** ** Stages *)

Lemma at_stage_add reqs st l h r :
  at_stage reqs st l -> reqs !! h = Some r -> q_stage r <> st -> at_stage (<[h := q_set_stage st r]> reqs) st (h :: l).
Proof.
  intros [Hnd Hl] Hr Hst. split.
  - constructor; [|done]. rewrite Hl. intros (r' & Hr' & Hs). simplify_eq.
  - intros h'. rewrite elem_of_cons, Hl. destruct (decide (h' = h)) as [->|Hne].
    + rewrite lookup_insert_eq. split; [intros _; eexists; split; done|by left].
    + rewrite lookup_insert_ne by done. split; [intros [?|?]; done|by right].
Qed.

Lemma at_stage_perm reqs st l l' : l ≡ₚ l' -> at_stage reqs st l -> at_stage reqs st l'.
Proof. intros Hp [Hnd Hl]. split; [by rewrite <- Hp|]. intros h. by rewrite <- Hp. Qed.

Lemma at_stage_remove reqs st st' l h r :
  at_stage reqs st (h :: l) -> reqs !! h = Some r -> st' <> st -> at_stage (<[h := q_set_stage st' r]> reqs) st l.
Proof.
  intros [Hnd Hl] Hr Hst. apply list.NoDup_cons in Hnd as [Hnin Hnd]. split; [done|]. intros h'.
  destruct (decide (h' = h)) as [->|Hne].
  - rewrite lookup_insert_eq. split; [done|]. intros (r' & [= <-] & ?). done.
  - rewrite lookup_insert_ne by done. rewrite <- Hl, elem_of_cons. naive_solver.
Qed.

Lemma at_stage_other reqs st st' l h r :
  at_stage reqs st l -> reqs !! h = Some r -> q_stage r <> st -> st' <> st -> at_stage (<[h := q_set_stage st' r]> reqs) st l.
Proof.
  intros [Hnd Hl] Hr H1 H2. split; [done|]. intros h'. rewrite Hl. destruct (decide (h' = h)) as [->|Hne].
  - rewrite lookup_insert_eq. split; intros (r' & Hr' & ?); simplify_eq.
  - by rewrite lookup_insert_ne.
Qed.

Lemma at_stage_new reqs st l h r :
  at_stage reqs st l -> reqs !! h = None -> q_stage r = st -> at_stage (<[h := r]> reqs) st (l ++ [h]).
Proof.
  intros [Hnd Hl] Hr Hst. apply at_stage_perm with (h :: l); [by rewrite Permutation_app_comm|]. split.
  - constructor; [|done]. rewrite Hl. by intros (r' & Hr' & _); simplify_eq.
  - intros h'. rewrite elem_of_cons, Hl. destruct (decide (h' = h)) as [->|Hne].
    + rewrite lookup_insert_eq. split; [intros _; by exists r|by left].
    + rewrite lookup_insert_ne by done. split; [intros [?|?]; done|by right].
Qed.

Lemma at_stage_new_other reqs st l h r :
  at_stage reqs st l -> reqs !! h = None -> q_stage r <> st -> at_stage (<[h := r]> reqs) st l.
Proof.
  intros [Hnd Hl] Hr Hst. split; [done|]. intros h'. rewrite Hl. destruct (decide (h' = h)) as [->|Hne].
  - rewrite lookup_insert_eq. split; intros (r' & Hr' & ?); simplify_eq.
  - by rewrite lookup_insert_ne.
Qed.

Lemma at_stage_delete reqs st l h r :
  at_stage reqs st l -> reqs !! h = Some r -> q_stage r <> st -> at_stage (delete h reqs) st l.
Proof.
  intros [Hnd Hl] Hr Hst. split; [done|]. intros h'. rewrite Hl. destruct (decide (h' = h)) as [->|Hne].
  - rewrite lookup_delete_eq. split; intros (r' & Hr' & ?); simplify_eq.
  - by rewrite lookup_delete_ne.
Qed.

(** At most eight, since every head is a descriptor. *)
Lemma heads_bound (l : list nat) : NoDup l -> (forall h, h ∈ l -> (h < 8)%nat) -> (length l <= 8)%nat.
Proof.
  intros Hnd Hl. rewrite <- (length_seq 8 0). apply submseteq_length, NoDup_submseteq; [done|]. intros h Hh.
  apply elem_of_seq. specialize (Hl h Hh). lia.
Qed.

Lemma ring_heads_get d r h l :
  ring NUM (2 ^ 16) d r (Z.of_nat <$> h :: l) ->
  d !! Z.to_nat (r mod NUM) = Some (Z.of_nat h) /\ ring NUM (2 ^ 16) d (u16 (r + 1)) (Z.of_nat <$> l) /\
  ring_end (2 ^ 16) (u16 (r + 1)) (Z.of_nat <$> l) = ring_end (2 ^ 16) r (Z.of_nat <$> h :: l).
Proof.
  intros Hr. destruct (ring_get NUM (2 ^ 16) ltac:(done) ltac:(done) _ _ _ _ Hr) as [H1 H2]. split; [done|]. split; [done|].
  unfold u16. apply (ring_end_get (2 ^ 16)).
Qed.

Lemma ring_heads_put d r h l :
  ring NUM (2 ^ 16) d r (Z.of_nat <$> l) -> (length l < 8)%nat ->
  ring NUM (2 ^ 16) (<[Z.to_nat (ring_end (2 ^ 16) r (Z.of_nat <$> l) mod NUM) := Z.of_nat h]> d) r (Z.of_nat <$> l ++ [h]) /\
  u16 (ring_end (2 ^ 16) r (Z.of_nat <$> l) + 1) = ring_end (2 ^ 16) r (Z.of_nat <$> l ++ [h]).
Proof.
  intros Hr Hl. rewrite fmap_app. split.
  - apply (ring_put NUM (2 ^ 16)); [done|done|done|]. rewrite length_fmap. unfold NUM. lia.
  - by rewrite ring_end_app.
Qed.

(** ** The chain of a request *)

Lemma chain_decode d h r :
  chain_ok d h r ->
  dev_decode d h = Some (vr_buf (q_req r), u32 (vr_block (q_req r) * (BSIZE / 512)), vr_write (q_req r), h).
Proof.
  intros Hc. unfold dev_decode. rewrite (ch_head _ _ _ Hc), (ch_op _ _ _ Hc), Nat2Z.id, (ch_mid _ _ _ Hc), Nat2Z.id.
  rewrite (ch_tail _ _ _ Hc). by destruct (vr_write (q_req r)).
Qed.

(** What a chain depends on. *)
Lemma chain_ext d d' h r r' :
  chain_ok d h r -> q_req r' = q_req r -> q_mid r' = q_mid r -> q_tail r' = q_tail r ->
  (forall i, i ∈ descs h r -> vd_desc d' !! i = vd_desc d !! i) ->
  vd_ops d' !! h = vd_ops d !! h -> vd_info d' !! h = vd_info d !! h ->
  vd_status d' !! h = Some (if decide (q_stage r' = Used \/ q_stage r' = Acked) then 0 else 255) ->
  vd_busy d' (vr_buf (q_req r)) = bool_decide (q_stage r' <> Acked) ->
  chain_ok d' h r'.
Proof.
  intros [C1 C2 C3 C4 C5 C6 C7] E1 E2 E3 Hd Ho Hi Hs Hb. unfold descs in Hd. split; rewrite ?E1, ?E2, ?E3; try done.
  - rewrite Hd; [done|]. by left.
  - rewrite Hd; [done|]. right. by left.
  - rewrite Hd; [done|]. do 2 right. by left.
  - by rewrite Ho.
  - by rewrite Hi.
Qed.

Lemma chain_same d d' h r :
  chain_ok d h r -> (forall i, i ∈ descs h r -> vd_desc d' !! i = vd_desc d !! i) ->
  vd_ops d' !! h = vd_ops d !! h -> vd_info d' !! h = vd_info d !! h -> vd_status d' !! h = vd_status d !! h ->
  vd_busy d' (vr_buf (q_req r)) = vd_busy d (vr_buf (q_req r)) -> chain_ok d' h r.
Proof.
  intros Hc Hd Ho Hi Hs Hb. eapply chain_ext; try done; [by rewrite Hs, (ch_status _ _ _ Hc)|by rewrite Hb, (ch_busy _ _ _ Hc)].
Qed.

(** ** A request moves to another stage *)

Section Stage.
Context (s s' : vsys) (reqs : gmap nat req) (ql ul : list nat) (h : nat) (r : req) (st : stage).
Hypothesis Hinv : vinv s reqs ql ul.
Hypothesis Hr : reqs !! h = Some r.
Abbreviation reqs' := (<[h := q_set_stage st r]> reqs).
Abbreviation d := (y_disk s).
Abbreviation d' := (y_disk s').

Lemma stage_lookup h' x : reqs' !! h' = Some x ->
  exists y, reqs !! h' = Some y /\ q_req x = q_req y /\ descs h' x = descs h' y /\ (h' <> h -> x = y) /\ (h' = h -> y = r /\ x = q_set_stage st r).
Proof.
  destruct (decide (h' = h)) as [->|Hne].
  - rewrite lookup_insert_eq. intros [= <-]. by exists r.
  - rewrite lookup_insert_ne by done. intros Hx. exists x. done.
Qed.

Lemma stage_owned i : owned_by reqs' i <-> owned_by reqs i.
Proof.
  split.
  - intros (h' & x & Hx & Hi). destruct (stage_lookup h' x Hx) as (y & Hy & _ & E & _). exists h', y. by rewrite <- E.
  - intros (h' & x & Hx & Hi). destruct (decide (h' = h)) as [->|Hne].
    + simplify_eq. exists h, (q_set_stage st r). split; [apply lookup_insert_eq|done].
    + exists h', x. by rewrite lookup_insert_ne.
Qed.

Lemma vinv_stage ql' ul' :
  y_wait s' = y_wait s -> sizes d' ->
  vd_desc d' = vd_desc d -> vd_free d' = vd_free d -> vd_ops d' = vd_ops d -> vd_info d' = vd_info d ->
  vd_status d' !! h = Some (if decide (st = Used \/ st = Acked) then 0 else 255) ->
  (forall h', h' <> h -> vd_status d' !! h' = vd_status d !! h') ->
  vd_busy d' (vr_buf (q_req r)) = bool_decide (st <> Acked) ->
  (forall b, b <> vr_buf (q_req r) -> vd_busy d' b = vd_busy d b) ->
  at_stage reqs' Queued ql' -> at_stage reqs' Taken (y_taken s') -> at_stage reqs' Used ul' ->
  ring NUM (2 ^ 16) (vd_avail d') (y_seen s') (Z.of_nat <$> ql') ->
  vd_avail_idx d' = ring_end (2 ^ 16) (y_seen s') (Z.of_nat <$> ql') ->
  ring NUM (2 ^ 16) (vd_used d') (vd_used_idx d') (Z.of_nat <$> ul') ->
  vd_used_end d' = ring_end (2 ^ 16) (vd_used_idx d') (Z.of_nat <$> ul') ->
  served (vr_buf (q_req r)) (y_hist s') = Some (bstate_of (q_set_stage st r)) ->
  (forall b, b <> vr_buf (q_req r) -> served b (y_hist s') = served b (y_hist s)) ->
  vinv s' reqs' ql' ul'.
Proof.
  intros Hw Hsz Ed Ef Eo Ei Est Est' Ebu Ebu' A1 A2 A3 R1 R2 R3 R4 S1 S2. destruct Hinv.
  assert (forall h' x, reqs !! h' = Some x -> h' <> h -> vr_buf (q_req x) <> vr_buf (q_req r)) as Hbuf.
  { intros h' x Hx Hne E. apply Hne. by eapply vi_bufs0. }
  split; try done.
  - rewrite Hw, vi_wait0. rewrite fmap_insert. symmetry. apply insert_id. by rewrite lookup_fmap, Hr.
  - intros h' x Hx. destruct (stage_lookup h' x Hx) as (y & Hy & _ & _ & Hne & Heq). destruct (decide (h' = h)) as [->|Hn].
    + destruct (Heq eq_refl) as [-> ->]. eapply chain_ext; [by apply vi_chain0|done|done|done|..]; rewrite ?Ed, ?Eo, ?Ei; done.
    + rewrite (Hne Hn). eapply chain_same; [by apply vi_chain0|rewrite Ed|rewrite Eo|rewrite Ei|by apply Est'|]; try done.
      apply Ebu'. by eapply Hbuf.
  - intros h' x Hx. destruct (stage_lookup h' x Hx) as (y & Hy & _ & -> & _). by eapply vi_distinct0.
  - intros h1 x1 h2 x2 i H1 H2. destruct (stage_lookup h1 x1 H1) as (y1 & Hy1 & _ & -> & _), (stage_lookup h2 x2 H2) as (y2 & Hy2 & _ & -> & _).
    by eapply vi_disjoint0.
  - intros i Hi. rewrite Ef, stage_owned. by apply vi_free0.
  - intros i Hi. apply vi_range0. by apply stage_owned.
  - intros h1 x1 h2 x2 H1 H2. destruct (stage_lookup h1 x1 H1) as (y1 & Hy1 & -> & _), (stage_lookup h2 x2 H2) as (y2 & Hy2 & -> & _).
    by eapply vi_bufs0.
  - intros h' x Hx. destruct (stage_lookup h' x Hx) as (y & Hy & Eq & _ & Hne & Heq). destruct (decide (h' = h)) as [->|Hn].
    + by destruct (Heq eq_refl) as [-> ->].
    + rewrite (Hne Hn), S2 by (by eapply Hbuf). by eapply vi_served0.
  - intros b Hb. rewrite S2.
    + apply vi_idle0. intros h' y Hy. destruct (decide (h' = h)) as [->|Hn].
      * simplify_eq. apply (Hb h (q_set_stage st r)). apply lookup_insert_eq.
      * apply (Hb h'). by rewrite lookup_insert_ne.
    + intros ->. apply (Hb h (q_set_stage st r)); [apply lookup_insert_eq|done].
Qed.
End Stage.

(** ** The device's and the interrupt handler's steps *)

Lemma take_inv s reqs ql ul z :
  vinv s reqs ql ul -> y_seen s <> vd_avail_idx (y_disk s) -> vd_avail (y_disk s) !! Z.to_nat (y_seen s mod NUM) = Some z ->
  exists reqs' ql', vinv (Vsys (y_disk s) (u16 (y_seen s + 1)) (Z.to_nat z :: y_taken s) (y_wait s) (y_hist s)) reqs' ql' ul.
Proof.
  intros Hi Hne Hz. pose proof Hi as []. destruct ql as [|h ql].
  { rewrite vi_avail_idx0 in Hne. unfold ring_end in Hne. cbn in Hne. rewrite Z.add_0_r, Z.mod_small in Hne by apply vi_avail0. done. }
  destruct (ring_heads_get _ _ _ _ vi_avail0) as (Hh & Hg & He). rewrite Hz in Hh. injection Hh as ->. rewrite Nat2Z.id.
  destruct (proj1 (proj2 vi_queued0 h) ltac:(by left)) as (r & Hr & Hst).
  pose proof (vi_chain0 _ _ Hr) as Hc. exists (<[h := q_set_stage Taken r]> reqs), ql.
  eapply vinv_stage; try done; cbn [y_disk y_seen y_taken y_hist].
  - rewrite (ch_status _ _ _ Hc), Hst. done.
  - rewrite (ch_busy _ _ _ Hc), Hst. done.
  - by eapply at_stage_remove.
  - apply at_stage_add; [done|done|]. by rewrite Hst.
  - apply at_stage_other; [done|done|by rewrite Hst|done].
  - by rewrite He.
  - rewrite (vi_served0 _ _ Hr). unfold bstate_of. by rewrite Hst.
Qed.

Lemma exec_inv s reqs ql ul h l b sector wr st :
  vinv s reqs ql ul -> y_taken s ≡ₚ h :: l -> dev_decode (y_disk s) h = Some (b, sector, wr, st) ->
  exists reqs' ul', vinv (Vsys (dev_done h st (y_disk s)) (y_seen s) l (y_wait s) (y_hist s ++ [Execute b sector wr])) reqs' ql ul'.
Proof.
  intros Hi Hp Hd. pose proof Hi as []. pose proof (at_stage_perm _ _ _ _ Hp vi_taken0) as Htk.
  destruct (proj1 (proj2 Htk h) ltac:(by left)) as (r & Hr & Hst). pose proof (vi_chain0 _ _ Hr) as Hc.
  rewrite (chain_decode _ _ _ Hc) in Hd. injection Hd as <- <- <- <-. exists (<[h := q_set_stage Used r]> reqs), (ul ++ [h]).
  assert (at_stage (<[h := q_set_stage Used r]> reqs) Used (ul ++ [h])) as Hu.
  { apply at_stage_perm with (h :: ul); [by rewrite Permutation_app_comm|]. apply at_stage_add; [done|done|]. by rewrite Hst. }
  assert (h < 8)%nat as Hh8 by (apply vi_range0; exists h, r; split; [done|by left]).
  assert (length ul < 8)%nat as Hlt.
  { destruct (at_stage_add _ _ _ _ _ vi_done0 Hr ltac:(by rewrite Hst)) as [Hnd Hin].
    pose proof (heads_bound (h :: ul) Hnd) as Hb. cbn [length] in Hb. apply Hb. intros h' Hh'. apply Hin in Hh' as (x & Hx & _).
    apply vi_range0. apply (stage_owned _ _ _ Used Hr). exists h', x. split; [done|by left]. }
  destruct (ring_heads_put _ _ h ul vi_used0 Hlt) as [Hg He]. rewrite <- vi_used_end0 in Hg, He.
  eapply vinv_stage; try done; cbn [y_disk y_seen y_taken y_hist dev_done v_set_used v_set_status vd_status vd_busy].
  - destruct vi_sizes0. split; try done. cbn. by rewrite length_insert.
  - rewrite list_lookup_insert_eq; [done|]. by rewrite (sz_status _ vi_sizes0).
  - intros h' Hne. by rewrite list_lookup_insert_ne.
  - rewrite (ch_busy _ _ _ Hc), Hst. done.
  - apply at_stage_other; [done|done|by rewrite Hst|done].
  - by eapply at_stage_remove.
  - rewrite served_snoc, decide_True by done. rewrite (vi_served0 _ _ Hr). unfold bstate_of. rewrite Hst. cbn. by rewrite decide_True.
  - intros b Hb. by rewrite served_snoc, decide_False.
Qed.

Lemma intr_inv s reqs ql ul :
  vinv s reqs ql ul -> exists d' b reqs' ul', intr_turn (y_disk s) = inl (d', b) /\
    vinv (Vsys d' (y_seen s) (y_taken s) (y_wait s) (y_hist s)) reqs' ql ul'.
Proof.
  intros Hi. pose proof Hi as []. unfold intr_turn. destruct ul as [|h ul].
  { rewrite vi_used_end0. unfold ring_end. cbn [fmap list_fmap length]. rewrite Z.add_0_r, Z.mod_small, Z.eqb_refl by apply vi_used0.
    exists (y_disk s), None, reqs, []. split; [done|]. by destruct s. }
  destruct (proj1 (proj2 vi_done0 h) ltac:(by left)) as (r & Hr & Hst). pose proof (vi_chain0 _ _ Hr) as Hc.
  rewrite vi_used_end0, Z.eqb_sym, (ring_empty NUM (2 ^ 16) ltac:(done) _ _ _ vi_used0), bool_decide_eq_false_2 by done.
  destruct (ring_heads_get _ _ _ _ vi_used0) as (Hh & Hg & He). rewrite Hh, Nat2Z.id, (ch_status _ _ _ Hc), (ch_info _ _ _ Hc).
  rewrite decide_True by auto. cbn [Z.eqb negb]. eexists _, _, (<[h := q_set_stage Acked r]> reqs), ul. split; [reflexivity|].
  eapply vinv_stage; try done; cbn [y_disk y_seen y_taken y_hist v_set_used_idx v_set_busy vd_status vd_busy].
  - destruct vi_sizes0. by split.
  - by rewrite (ch_status _ _ _ Hc), Hst.
  - unfold set_flag. by rewrite decide_True.
  - intros b Hb. unfold set_flag. by rewrite decide_False.
  - apply at_stage_other; [done|done|by rewrite Hst|done].
  - apply at_stage_other; [done|done|by rewrite Hst|done].
  - by eapply at_stage_remove.
  - exact (eq_trans vi_used_end0 (eq_sym He)).
  - rewrite (vi_served0 _ _ Hr). unfold bstate_of. by rewrite Hst.
Qed.

(** ** Allocating and freeing descriptors *)

Lemma find_true_some l k i : find_true l k = Some i -> (k <= i)%nat /\ l !! (i - k)%nat = Some true.
Proof.
  revert k. induction l as [|[] l IH]; intros k; cbn; [done| |].
  - intros [= <-]. by rewrite Nat.sub_diag.
  - intros Hf. apply IH in Hf as [Hk Hl]. split; [lia|]. replace (i - k)%nat with (S (i - S k)) by lia. done.
Qed.

Lemma alloc_desc_spec d :
  match alloc_desc d with
  | (d', Some i) => vd_free d !! i = Some true /\ d' = v_set_free (<[i := false]> (vd_free d)) d
  | (d', None) => d' = d
  end.
Proof.
  unfold alloc_desc. destruct (find_true (vd_free d) 0) as [i|] eqn:E; [|done]. apply find_true_some in E as [_ E].
  by rewrite Nat.sub_0_r in E.
Qed.

Lemma free_desc_ok d i :
  (i < 8)%nat -> vd_free d !! i = Some false ->
  free_desc i d = inl (v_set_free (<[i := true]> (vd_free d)) (v_set_desc (<[i := desc0]> (vd_desc d)) d)).
Proof.
  intros Hi Hf. unfold free_desc. rewrite (proj2 (Z.leb_gt NUM (Z.of_nat i))) by (unfold NUM; lia). by rewrite Hf.
Qed.

(** [d'] is [d] but for the descriptors in [l], which are free in [d]. *)
Definition alloc_same (l : list nat) (d d' : disk) : Prop :=
  length (vd_desc d') = length (vd_desc d) /\
  (forall i, vd_free d !! i <> Some true -> vd_desc d' !! i = vd_desc d !! i) /\
  d' = v_set_free (foldr (fun i f => <[i := false]> f) (vd_free d) l) (v_set_desc (vd_desc d') d).

Lemma set_back (f : list bool) i j :
  i <> j -> f !! i = Some true -> f !! j = Some true -> <[j := true]> (<[i := true]> (<[j := false]> (<[i := false]> f))) = f.
Proof.
  intros Hne Hi Hj. pose proof (lookup_lt_Some _ _ _ Hi). pose proof (lookup_lt_Some _ _ _ Hj). apply list_eq. intros k.
  destruct (decide (k = j)) as [->|]; [rewrite list_lookup_insert_eq by (by rewrite !length_insert); done|].
  rewrite list_lookup_insert_ne by done. destruct (decide (k = i)) as [->|].
  - rewrite list_lookup_insert_eq by (by rewrite !length_insert). done.
  - by rewrite !list_lookup_insert_ne.
Qed.

Lemma alloc3_spec d :
  length (vd_free d) = 8%nat -> length (vd_desc d) = 8%nat ->
  exists d' o, alloc3_desc d = inl (d', o) /\
    match o with
    | Some (i0, i1, i2) => NoDup [i0; i1; i2] /\ (forall i, i ∈ [i0; i1; i2] -> (i < 8)%nat /\ vd_free d !! i = Some true) /\
        alloc_same [i2; i1; i0] d d'
    | None => alloc_same [] d d'
    end.
Proof.
  intros Hlen Hld. unfold alloc3_desc. pose proof (alloc_desc_spec d) as H0. destruct (alloc_desc d) as [d0 [i0|]].
  2:{ subst. exists d, None. split; [done|]. split; [done|]. split; [done|]. by destruct d. }
  destruct H0 as [F0 ->]. pose proof (lookup_lt_Some _ _ _ F0) as L0. rewrite Hlen in L0.
  set (d0 := v_set_free _ d). pose proof (alloc_desc_spec d0) as H1. destruct (alloc_desc d0) as [d1 [i1|]].
  2:{ subst. rewrite free_desc_ok by (done || (cbn; rewrite list_lookup_insert_eq by lia; done)). eexists _, None. split; [reflexivity|].
      split; [cbn; by rewrite length_insert|]. split.
      - intros i Hi. cbn. rewrite list_lookup_insert_ne; [done|]. congruence.
      - cbn. rewrite list_insert_insert_eq, list_insert_id by done. by destruct d. }
  destruct H1 as [F1 ->]. cbn in F1. assert (i1 <> i0) as N1 by (intros ->; rewrite list_lookup_insert_eq in F1 by lia; done).
  rewrite list_lookup_insert_ne in F1 by done. pose proof (lookup_lt_Some _ _ _ F1) as L1. rewrite Hlen in L1.
  set (d1 := v_set_free _ d0). pose proof (alloc_desc_spec d1) as H2. destruct (alloc_desc d1) as [d2 [i2|]].
  2:{ subst. rewrite free_desc_ok; [|done|]. 2:{ cbn. rewrite list_lookup_insert_ne by done. by rewrite list_lookup_insert_eq by lia. }
      rewrite free_desc_ok; [|done|]. 2:{ cbn. rewrite list_lookup_insert_ne by done. rewrite list_lookup_insert_eq; [done|]. rewrite length_insert. lia. }
      eexists _, None. split; [reflexivity|]. split; [cbn; by rewrite !length_insert|]. split.
      - intros i Hi. cbn. rewrite !list_lookup_insert_ne; [done|congruence|congruence].
      - cbn. rewrite set_back by (done || lia). by destruct d. }
  destruct H2 as [F2 ->]. cbn in F2.
  assert (i2 <> i1) as N2 by (intros ->; rewrite list_lookup_insert_eq in F2 by (rewrite length_insert; lia); done).
  rewrite list_lookup_insert_ne in F2 by done.
  assert (i2 <> i0) as N3 by (intros ->; rewrite list_lookup_insert_eq in F2 by lia; done).
  rewrite list_lookup_insert_ne in F2 by done. pose proof (lookup_lt_Some _ _ _ F2) as L2. rewrite Hlen in L2.
  eexists _, (Some (i0, i1, i2)). split; [reflexivity|]. split; [|split].
  - repeat constructor; rewrite ?elem_of_cons, ?elem_of_nil; naive_solver.
  - intros i Hi. rewrite !elem_of_cons, elem_of_nil in Hi. naive_solver.
  - split; [done|]. split; [done|]. by destruct d.
Qed.

Lemma not_owned_desc s reqs ql ul i : vinv s reqs ql ul -> (i < 8)%nat -> vd_free (y_disk s) !! i = Some true ->
  forall h r, reqs !! h = Some r -> i ∉ descs h r.
Proof. intros Hi Hlt Hf h r Hr Hin. apply (vi_free _ _ _ _ Hi i Hlt) in Hf. apply Hf. by exists h, r. Qed.

(** The descriptors given back when there are not three have no owner. *)
Lemma full_inv s reqs ql ul d' :
  vinv s reqs ql ul -> alloc_same [] (y_disk s) d' -> vinv (Vsys d' (y_seen s) (y_taken s) (y_wait s) (y_hist s)) reqs ql ul.
Proof.
  intros Hi (Hl & Hd & ->). pose proof Hi as []. cbn [foldr] in *.
  split; try done; cbn [y_disk y_wait y_seen y_taken y_hist v_set_free v_set_desc vd_avail vd_avail_idx vd_used vd_used_end vd_used_idx vd_free].
  - destruct vi_sizes0. split; try done. cbn. congruence.
  - intros h r Hr. eapply chain_same; [by apply vi_chain0|..]; try done. intros i Hin. apply Hd. intros Hf.
    assert (i < 8)%nat as Hi8 by (apply vi_range0; by exists h, r). by eapply (not_owned_desc s reqs ql ul i).
Qed.

Section Submit.
Context (s : vsys) (reqs : gmap nat req) (ql ul : list nat) (d' : disk) (b : nat) (bno : Z) (wr : bool) (i0 i1 i2 : nat).
Hypothesis Hinv : vinv s reqs ql ul.
Hypothesis Hb : ~ in_flight b s.
Hypothesis Hnd : NoDup [i0; i1; i2].
Hypothesis Hfree : forall i, i ∈ [i0; i1; i2] -> (i < 8)%nat /\ vd_free (y_disk s) !! i = Some true.
Hypothesis Hsame : alloc_same [i2; i1; i0] (y_disk s) d'.
Abbreviation new := (Req (Vreq b bno wr) i1 i2 Queued).
Abbreviation d2 := (format_request b bno wr i0 i1 i2 d').
Abbreviation s2 := (Vsys d2 (y_seen s) (y_taken s) (<[i0 := Vreq b bno wr]> (y_wait s)) (y_hist s ++ [Submit (Vreq b bno wr)])).

Lemma submit_sep h r i : reqs !! h = Some r -> i ∈ [i0; i1; i2] -> i ∉ descs h r.
Proof. intros Hr Hin. destruct (Hfree i Hin). by eapply not_owned_desc. Qed.

Lemma submit_new : reqs !! i0 = None.
Proof.
  destruct (reqs !! i0) as [r|] eqn:Hr; [|done]. exfalso. apply (submit_sep i0 r i0 Hr); [by left|]. by left.
Qed.

Lemma submit_buf h r : reqs !! h = Some r -> vr_buf (q_req r) <> b.
Proof. intros Hr E. apply Hb. exists h, (q_req r). split; [|done]. rewrite (vi_wait _ _ _ _ Hinv), lookup_fmap, Hr. done. Qed.

Lemma submit_parts :
  sizes d2 /\ chain_ok d2 i0 new /\ vd_free d2 = <[i2 := false]> (<[i1 := false]> (<[i0 := false]> (vd_free (y_disk s)))) /\
  (forall h r, reqs !! h = Some r -> chain_ok d2 h r).
Proof.
  destruct Hsame as (Hl & Hd & Hd'). destruct (vi_sizes _ _ _ _ Hinv) as [S1 S2 S3 S4 S5].
  assert (i0 < 8 /\ i1 < 8 /\ i2 < 8)%nat as (L0 & L1 & L2) by (split_and!; apply Hfree; rewrite !elem_of_cons; auto).
  assert (i0 <> i1 /\ i1 <> i2 /\ i0 <> i2) as (N0 & N1 & N2).
  { apply list.NoDup_cons in Hnd as [A1 A2]. apply list.NoDup_cons in A2 as [A3 _]. rewrite !elem_of_cons, elem_of_nil in A1. rewrite !elem_of_cons, elem_of_nil in A3. tauto. }
  assert (vd_free d' = <[i2 := false]> (<[i1 := false]> (<[i0 := false]> (vd_free (y_disk s))))) as Ef by (rewrite Hd'; done).
  assert (length (vd_desc d') = 8%nat) as Hl8 by congruence.
  assert (vd_ops d' = vd_ops (y_disk s) /\ vd_info d' = vd_info (y_disk s) /\ vd_status d' = vd_status (y_disk s) /\ vd_busy d' = vd_busy (y_disk s))
    as (Eo & Ei & Es & Eb) by (rewrite Hd'; done).
  split; [|split; [|split]].
  - split; cbn; rewrite ?length_insert; rewrite ?Ef, ?Eo, ?Ei, ?Es, ?length_insert; done.
  - split; cbn; rewrite ?Eo, ?Ei, ?Es; unfold set_flag.
    + rewrite list_lookup_insert_ne, list_lookup_insert_ne by done. rewrite list_lookup_insert_eq by lia. done.
    + rewrite list_lookup_insert_ne by done. rewrite list_lookup_insert_eq by (rewrite length_insert; lia). by destruct wr.
    + rewrite list_lookup_insert_eq by (rewrite !length_insert; lia). done.
    + rewrite list_lookup_insert_eq by lia. by destruct wr.
    + by rewrite list_lookup_insert_eq by lia.
    + by rewrite list_lookup_insert_eq by lia.
    + by rewrite decide_True.
  - done.
  - intros h r Hr. assert (h <> i0) as Nh.
    { intros ->. by rewrite submit_new in Hr. }
    eapply chain_same; [by apply (vi_chain _ _ _ _ Hinv)|..]; cbn; rewrite ?Eo, ?Ei, ?Es, ?Eb.
    + intros i Hin. assert (i ∉ [i0; i1; i2]) as Hni by (intros Hx; by apply (submit_sep h r i Hr Hx)).
      rewrite !elem_of_cons, elem_of_nil in Hni. rewrite !list_lookup_insert_ne by (intros ->; tauto). apply Hd. intros Hf.
      assert (i < 8)%nat as Hi8 by (apply (vi_range _ _ _ _ Hinv); by exists h, r). by eapply not_owned_desc.
    + by rewrite list_lookup_insert_ne.
    + by rewrite list_lookup_insert_ne.
    + by rewrite list_lookup_insert_ne.
    + unfold set_flag. rewrite decide_False; [done|]. by eapply submit_buf.
Qed.

Lemma submit_lookup h r : <[i0 := new]> reqs !! h = Some r -> h = i0 /\ r = new \/ h <> i0 /\ reqs !! h = Some r.
Proof.
  destruct (decide (h = i0)) as [->|Hne]; [rewrite lookup_insert_eq; intros [= <-]; auto|].
  rewrite lookup_insert_ne by done. auto.
Qed.

Lemma submit_owned i : owned_by (<[i0 := new]> reqs) i <-> i ∈ [i0; i1; i2] \/ owned_by reqs i.
Proof.
  split.
  - intros (h & r & Hr & Hin). destruct (submit_lookup h r Hr) as [[-> ->]|[_ Hr']]; [by left|]. right. by exists h, r.
  - intros [Hin|(h & r & Hr & Hin)].
    + exists i0, new. split; [apply lookup_insert_eq|done].
    + exists h, r. split; [|done]. rewrite lookup_insert_ne; [done|]. intros <-. by rewrite submit_new in Hr.
Qed.

Lemma submit_inv : vinv s2 (<[i0 := new]> reqs) (ql ++ [i0]) ul.
Proof.
  destruct submit_parts as (Hsz & Hch & Hfr & Hoth). pose proof Hinv as []. pose proof submit_new as Hn.
  assert (at_stage (<[i0 := new]> reqs) Queued (ql ++ [i0])) as Hq by (by apply at_stage_new).
  assert (length ql < 8)%nat as Hlt.
  { pose proof (heads_bound (ql ++ [i0]) (proj1 Hq)) as Hbd. rewrite length_app in Hbd. cbn [length] in Hbd.
    assert (length ql + 1 <= 8)%nat; [|lia]. apply Hbd. intros h Hh. apply Hq in Hh as (r & Hr & _).
    destruct (submit_lookup h r Hr) as [[-> _]|[_ Hr']]; [apply Hfree; by left|]. apply vi_range0. exists h, r. split; [done|by left]. }
  destruct Hsame as (_ & _ & Ed'). assert (vd_avail d' = vd_avail (y_disk s) /\ vd_avail_idx d' = vd_avail_idx (y_disk s) /\
    vd_used d' = vd_used (y_disk s) /\ vd_used_end d' = vd_used_end (y_disk s) /\ vd_used_idx d' = vd_used_idx (y_disk s))
    as (E1 & E2 & E3 & E4 & E5) by (rewrite Ed'; done).
  destruct (ring_heads_put _ _ i0 ql vi_avail0 Hlt) as [Hg He]. rewrite <- vi_avail_idx0 in Hg, He.
  split; try done; cbn [y_disk y_wait y_seen y_taken y_hist format_request v_set_avail v_set_info v_set_busy v_set_desc v_set_status v_set_ops vd_avail vd_avail_idx vd_used vd_used_end vd_used_idx]; rewrite ?E1, ?E2, ?E3, ?E4, ?E5; try done.
  - by rewrite vi_wait0, fmap_insert.
  - intros h r Hr. destruct (submit_lookup h r Hr) as [[-> ->]|[_ Hr']]; [done|by apply Hoth].
  - intros h r Hr. destruct (submit_lookup h r Hr) as [[-> ->]|[_ Hr']]; [done|by eapply vi_distinct0].
  - intros h r h' r' i Hr Hr' Hin Hin'. destruct (submit_lookup h r Hr) as [[-> ->]|[_ Hx]], (submit_lookup h' r' Hr') as [[-> ->]|[_ Hx']]; try done.
    + by apply (submit_sep _ _ i Hx') in Hin.
    + by apply (submit_sep _ _ i Hx) in Hin'.
    + by eapply vi_disjoint0.
  - intros i Hi. rewrite submit_owned. change (vd_free _) with (vd_free d2). rewrite Hfr.
    destruct (decide (i ∈ [i0; i1; i2])) as [Hin|Hni].
    + split; [|tauto]. rewrite !elem_of_cons, elem_of_nil in Hin.
      assert (<[i2:=false]> (<[i1:=false]> (<[i0:=false]> (vd_free (y_disk s)))) !! i = Some false) as ->; [|done].
      pose proof (sz_free _ vi_sizes0) as Hl8. destruct (decide (i = i2)) as [->|]; [rewrite list_lookup_insert_eq; [done|rewrite !length_insert; lia]|].
      rewrite list_lookup_insert_ne by done. destruct (decide (i = i1)) as [->|]; [rewrite list_lookup_insert_eq; [done|rewrite !length_insert; lia]|].
      rewrite list_lookup_insert_ne by done. destruct (decide (i = i0)) as [->|]; [rewrite list_lookup_insert_eq; [done|lia]|]. tauto.
    + rewrite !elem_of_cons, elem_of_nil in Hni. rewrite !list_lookup_insert_ne by (intros ->; tauto). rewrite vi_free0 by done.
      rewrite !elem_of_cons, elem_of_nil. tauto.
  - intros i Hi. apply submit_owned in Hi as [Hin|Hi]; [by apply Hfree|by apply vi_range0].
  - intros h r h' r' Hr Hr'. destruct (submit_lookup h r Hr) as [[-> ->]|[_ Hx]], (submit_lookup h' r' Hr') as [[-> ->]|[_ Hx']]; try done.
    + intros E. by apply submit_buf in Hx'.
    + intros E. by apply submit_buf in Hx.
    + by eapply vi_bufs0.
  - apply at_stage_new_other; done.
  - apply at_stage_new_other; done.
  - intros h r Hr. rewrite served_snoc. destruct (submit_lookup h r Hr) as [[-> ->]|[_ Hx]].
    + rewrite decide_True by done. rewrite vi_idle0; [done|]. intros h' r' Hr'. by eapply submit_buf.
    + rewrite decide_False; [by apply (vi_served0 h)|]. intros E. by apply submit_buf in Hx.
  - intros b' Hb'. rewrite served_snoc, decide_False.
    + apply vi_idle0. intros h r Hr. apply (Hb' h r). rewrite lookup_insert_ne; [done|]. intros <-. by rewrite Hn in Hr.
    + intros E. apply (Hb' i0 new); [apply lookup_insert_eq|done].
Qed.
End Submit.

(** ** The end of a request *)

Lemma rw_end_ok d h m t a0 a1 a2 f1 :
  length (vd_free d) = 8%nat -> length (vd_desc d) = 8%nat -> NoDup [h; m; t] -> (h < 8)%nat -> (m < 8)%nat -> (t < 8)%nat ->
  vd_desc d !! h = Some (Desc a0 16 1 (Z.of_nat m)) -> vd_desc d !! m = Some (Desc a1 BSIZE f1 (Z.of_nat t)) -> f1 = 1 \/ f1 = 3 ->
  vd_desc d !! t = Some (Desc a2 1 2 0) ->
  vd_free d !! h = Some false -> vd_free d !! m = Some false -> vd_free d !! t = Some false ->
  rw_end h d = inl (v_set_free (<[t := true]> (<[m := true]> (<[h := true]> (vd_free d))))
    (v_set_desc (<[t := desc0]> (<[m := desc0]> (<[h := desc0]> (vd_desc d)))) (v_set_info (<[h := None]> (vd_info d)) d))).
Proof.
  intros Hlf Hld Hnd Lh Lm Lt D0 D1 Hf D2 F0 F1 F2.
  apply list.NoDup_cons in Hnd as [A1 A2]. apply list.NoDup_cons in A2 as [A3 _].
  rewrite !elem_of_cons, elem_of_nil in A1. rewrite !elem_of_cons, elem_of_nil in A3.
  assert (h <> m /\ h <> t /\ m <> t) as (N0 & N1 & N2) by tauto.
  unfold rw_end. change (S (Z.to_nat NUM)) with 9%nat. cbn [free_chain v_set_info vd_desc]. rewrite D0. cbn [default from_option id q_flags q_next].
  rewrite free_desc_ok by done. change (negb (Z.land 1 VRING_DESC_F_NEXT =? 0)) with true. cbv iota. rewrite Nat2Z.id.
  cbn [free_chain v_set_info v_set_free v_set_desc vd_desc vd_free]. rewrite list_lookup_insert_ne by done. rewrite D1. cbn [default from_option id q_flags q_next].
  rewrite free_desc_ok; [|done|cbn; by rewrite list_lookup_insert_ne].
  assert (negb (Z.land f1 VRING_DESC_F_NEXT =? 0) = true) as -> by (destruct Hf; by subst). rewrite Nat2Z.id.
  cbn [free_chain v_set_info v_set_free v_set_desc vd_desc vd_free]. rewrite !list_lookup_insert_ne by done. rewrite D2. cbn [default from_option id q_flags q_next].
  rewrite free_desc_ok; [|done|cbn; by rewrite !list_lookup_insert_ne]. done.
Qed.

Lemma return_inv s reqs ql ul h r :
  vinv s reqs ql ul -> reqs !! h = Some r -> vd_busy (y_disk s) (vr_buf (q_req r)) = false ->
  exists d', rw_end h (y_disk s) = inl d' /\
    vinv (Vsys d' (y_seen s) (y_taken s) (delete h (y_wait s)) (y_hist s ++ [Return (q_req r)])) (delete h reqs) ql ul.
Proof.
  intros Hi Hr Hbusy. pose proof Hi as []. pose proof (vi_chain0 _ _ Hr) as Hc. rewrite (ch_busy _ _ _ Hc) in Hbusy.
  apply bool_decide_eq_false in Hbusy. assert (q_stage r = Acked) as Hst by (destruct (q_stage r); done || by exfalso; apply Hbusy).
  assert (forall i, i ∈ descs h r -> (i < 8)%nat /\ vd_free (y_disk s) !! i = Some false) as Hown.
  { intros i Hin. assert (owned_by reqs i) as Ho by (by exists h, r). pose proof (vi_range0 i Ho) as H8. split; [done|].
    destruct (lookup_lt_is_Some_2 (vd_free (y_disk s)) i) as [[] Hx]; [by rewrite (sz_free _ vi_sizes0)| |done].
    by apply (vi_free0 i H8) in Hx. }
  pose proof (vi_distinct0 _ _ Hr) as Hnd. unfold descs in *.
  destruct (Hown h) as [L0 F0]; [by left|]. destruct (Hown (q_mid r)) as [L1 F1]; [right; by left|].
  destruct (Hown (q_tail r)) as [L2 F2]; [do 2 right; by left|].
  eexists. split.
  { eapply rw_end_ok; [apply vi_sizes0|apply vi_sizes0|exact Hnd|done|done|done|apply Hc|apply Hc| |apply Hc|done|done|done].
    destruct (vr_write (q_req r)); auto. }
  assert (forall h' r', delete h reqs !! h' = Some r' -> h' <> h /\ reqs !! h' = Some r') as Hdel.
  { intros h' r' Hx. apply lookup_delete_Some in Hx as [? ?]. auto. }
  assert (forall i h' r', h' <> h -> reqs !! h' = Some r' -> i ∈ descs h' r' -> i ∉ [h; q_mid r; q_tail r]) as Hsep.
  { intros i h' r' Hne Hr' Hin Hx. apply Hne. by eapply (vi_disjoint0 h' r' h r i). }
  split; try done; cbn [y_disk y_wait y_seen y_taken y_hist v_set_free v_set_desc v_set_info vd_avail vd_avail_idx vd_used vd_used_end vd_used_idx vd_free vd_desc]; try done.
  - destruct vi_sizes0. split; cbn; rewrite ?length_insert; done.
  - by rewrite vi_wait0, fmap_delete.
  - intros h' r' Hx. destruct (Hdel h' r' Hx) as [Hne Hr']. eapply chain_same; [by apply vi_chain0|..]; cbn; try done.
    + intros i Hin. pose proof (Hsep i h' r' Hne Hr' Hin) as Hni. rewrite !elem_of_cons, elem_of_nil in Hni.
      by rewrite !list_lookup_insert_ne by (intros E; rewrite ?E in Hni; tauto).
    + by rewrite list_lookup_insert_ne.
  - intros h' r' Hx. destruct (Hdel h' r' Hx). by eapply vi_distinct0.
  - intros h1 r1 h2 r2 i Hx1 Hx2. destruct (Hdel _ _ Hx1), (Hdel _ _ Hx2). by eapply vi_disjoint0.
  - intros i Hi8. assert (owned_by (delete h reqs) i <-> owned_by reqs i /\ i ∉ [h; q_mid r; q_tail r]) as ->.
    { split.
      - intros (h' & r' & Hx & Hin). destruct (Hdel _ _ Hx) as [Hne Hr']. split; [by exists h', r'|]. by eapply Hsep.
      - intros [(h' & r' & Hx & Hin) Hni]. exists h', r'. split; [|done]. rewrite lookup_delete_ne; [done|]. intros ->. simplify_eq. by apply Hni. }
    pose proof (sz_free _ vi_sizes0) as Hl8. rewrite !elem_of_cons, elem_of_nil.
    destruct (decide (i = q_tail r)) as [->|]; [rewrite list_lookup_insert_eq by (rewrite !length_insert; lia); tauto|].
    rewrite list_lookup_insert_ne by done.
    destruct (decide (i = q_mid r)) as [->|]; [rewrite list_lookup_insert_eq by (rewrite !length_insert; lia); tauto|].
    rewrite list_lookup_insert_ne by done.
    destruct (decide (i = h)) as [->|]; [rewrite list_lookup_insert_eq by lia; tauto|].
    rewrite list_lookup_insert_ne by done. rewrite vi_free0 by done. tauto.
  - intros i (h' & r' & Hx & Hin). destruct (Hdel _ _ Hx). apply vi_range0. by exists h', r'.
  - intros h1 r1 h2 r2 Hx1 Hx2. destruct (Hdel _ _ Hx1), (Hdel _ _ Hx2). by eapply vi_bufs0.
  - eapply at_stage_delete; [done|done|by rewrite Hst].
  - eapply at_stage_delete; [done|done|by rewrite Hst].
  - eapply at_stage_delete; [done|done|by rewrite Hst].
  - intros h' r' Hx. destruct (Hdel _ _ Hx) as [Hne Hr']. rewrite served_snoc, decide_False; [by eapply vi_served0|].
    intros E. apply Hne. symmetry. by eapply vi_bufs0.
  - intros b Hb. rewrite served_snoc. destruct (decide (label_buf (Return (q_req r)) = b)) as [E|E].
    + cbn in E. subst b. rewrite (vi_served0 _ _ Hr). unfold bstate_of. rewrite Hst. cbn. by rewrite decide_True.
    + apply vi_idle0. intros h' r' Hr'. destruct (decide (h' = h)) as [->|]; [simplify_eq; done|]. apply (Hb h').
      by rewrite lookup_delete_ne.
Qed.

Lemma at_stage_empty st : at_stage ∅ st [].
Proof. split; [constructor|]. intros h. rewrite elem_of_nil. split; [done|]. by intros (r & Hr & _); rewrite lookup_empty in Hr. Qed.

Lemma init_inv : vinv vsys_init ∅ [] [].
Proof.
  assert (forall h r, (∅ : gmap nat req) !! h = Some r -> False) as Hno by (intros h r; by rewrite lookup_empty).
  assert (forall i, ~ owned_by ∅ i) as Hn by (intros i (h & r & Hr & _); by eapply Hno).
  split; try apply at_stage_empty; try (by apply (ring_new NUM (2 ^ 16))); try (intros; exfalso; by eapply Hno); try done.
  - intros i Hi. split; [intros _; apply Hn|]. intros _. do 8 (destruct i as [|i]; [done|]). lia.
  - intros i Hi. by apply Hn in Hi.
Qed.

Lemma step_inv s s' reqs ql ul : vinv s reqs ql ul -> vstep s s' -> exists reqs' ql' ul', vinv s' reqs' ql' ul'.
Proof.
  intros Hi Hs. pose proof (vi_sizes _ _ _ _ Hi) as Hsz. revert Hi Hsz.
  destruct Hs as [b bno wr s d' h Hb Hrw|b bno wr s d' Hb Hrw|s h Hne Hh|s h l b sector wr st Hp Hd|s d' b Ht|s h r d' Hw Hb Hrw]; intros Hi Hsz.
  - unfold rw_start in Hrw. destruct (alloc3_spec (y_disk s) (sz_free _ Hsz) (sz_desc _ Hsz)) as (d1 & o & E & Ho). rewrite E in Hrw.
    destruct o as [[[i0 i1] i2]|]; [|done]. injection Hrw as <- <-. destruct Ho as (Hnd & Hf & Hsame).
    do 3 eexists. by apply submit_inv.
  - unfold rw_start in Hrw. destruct (alloc3_spec (y_disk s) (sz_free _ Hsz) (sz_desc _ Hsz)) as (d1 & o & E & Ho). rewrite E in Hrw.
    destruct o as [[[i0 i1] i2]|]; [done|]. injection Hrw as <-. exists reqs, ql, ul. by apply full_inv.
  - destruct (take_inv _ _ _ _ _ Hi Hne Hh) as (reqs' & ql' & H'). by exists reqs', ql', ul.
  - destruct (exec_inv _ _ _ _ _ _ _ _ _ _ Hi Hp Hd) as (reqs' & ul' & H'). by exists reqs', ql, ul'.
  - destruct (intr_inv _ _ _ _ Hi) as (d1 & b1 & reqs' & ul' & E & H'). rewrite E in Ht. injection Ht as <- <-. by exists reqs', ql, ul'.
  - rewrite (vi_wait _ _ _ _ Hi), lookup_fmap in Hw. destruct (reqs !! h) as [x|] eqn:Hx; [|done]. injection Hw as <-.
    destruct (return_inv _ _ _ _ _ _ Hi Hx Hb) as (d1 & E & H'). rewrite E in Hrw. injection Hrw as <-. by exists (delete h reqs), ql, ul.
Qed.

Lemma reach_inv s : vreach s -> exists reqs ql ul, vinv s reqs ql ul.
Proof.
  induction 1 as [|s s' _ (reqs & ql & ul & Hi) Hs]; [exists ∅, [], []; apply init_inv|]. by eapply step_inv.
Qed.


(** ** One write, up to the interrupt *)

Definition left_of {A B} (d : A) (x : A + B) : A := match x with inl a => a | inr _ => d end.
Definition demo_v1 : disk := (left_of (disk_init, None) (rw_start 5 7 true disk_init)).1.
Definition demo_s1 : vsys := Vsys demo_v1 0 [] (<[0%nat := Vreq 5 7 true]> ∅) [Submit (Vreq 5 7 true)].
Definition demo_s2 : vsys := Vsys demo_v1 1 [0%nat] (<[0%nat := Vreq 5 7 true]> ∅) [Submit (Vreq 5 7 true)].
Definition demo_v3 : disk := dev_done 0 0 demo_v1.
Definition demo_s3 : vsys := Vsys demo_v3 1 [] (<[0%nat := Vreq 5 7 true]> ∅) [Submit (Vreq 5 7 true); Execute 5 14 true].
Definition demo_s4 : vsys := Vsys (left_of (disk_init, None) (intr_turn demo_v3)).1 1 [] (<[0%nat := Vreq 5 7 true]> ∅) [Submit (Vreq 5 7 true); Execute 5 14 true].

