(* ===== verification/Exec.v ===== *)
(** * Running a program (kernel/exec.c, kernel/elf.h)

    exec() reads an ELF file into a new page table, pushes the arguments on a new
    stack and commits to the new image; every failure before that point frees
    what was built and leaves the process as it was. *)

From S2P Require Import Prelude Machine Mem Kalloc Sleeplock Store FsDisk CString Printf Fs Vm Kernel File Proc.

Open Scope Z_scope.

(** ** kernel/elf.h *)

Definition ELF_MAGIC : Z := 1179403647.
Definition ELF_PROG_LOAD : Z := 1.

(** The fields of [struct elfhdr] and [struct proghdr] that exec() uses. *)
Record elfhdr := Elfhdr { e_magic : Z; e_entry : Z; e_phoff : Z; e_phnum : Z }.
Definition ELFHDR_SIZE : Z := 64.
Definition elf_decode (bs : list Z) : elfhdr :=
  Elfhdr (get_u 4 0 bs) (get_u 8 24 bs) (get_u 8 32 bs) (get_u 2 56 bs).

Record proghdr := Proghdr {
  ph_type : Z; ph_flags : Z; ph_off : Z; ph_vaddr : Z; ph_filesz : Z; ph_memsz : Z
}.
Definition PROGHDR_SIZE : Z := 56.
Definition ph_decode (bs : list Z) : proghdr :=
  Proghdr (get_u 4 0 bs) (get_u 4 4 bs) (get_u 8 8 bs) (get_u 8 16 bs) (get_u 8 32 bs) (get_u 8 40 bs).

Definition flags2perm (flags : Z) : Z :=
  let perm := if negb (Z.land flags 1 =? 0) then PTE_X else 0 in
  if negb (Z.land flags 2 =? 0) then Z.lor perm PTE_W else perm.

(** The part of a path after its last slash, as the loop finds it. *)
Fixpoint last_elem (s last : list Z) : option (list Z) :=
  match s with
  | [] => None
  | c :: t => if c =? 0 then Some last else last_elem t (if c =? 47 then t else last)
  end.

Section Exec.
Context {St : Type} `{BlockStore St}.
Variable kend : Z.
Variable trampoline : Z.
Abbreviation K := (M (kernel St)).

(** One page of loadseg(); what readi() stores goes to the page. *)
Definition loadseg_step (pagetable va : Z) (ip : nat) (offset sz i : Z) : K (Z + Z) :=
  if negb (i <? sz) then ret (inr 0) else
  let* pa := on_mem (walkaddr pagetable (u64 (va + i))) in
  if pa =? 0 then panic "loadseg: address should exist" else
  let n := if u32 (sz - i) <? PGSIZE then u32 (sz - i) else PGSIZE in
  let* ' (r, bs) := on_fs (readi ip ToKernel (u32 (offset + i)) n) in
  on_mem (modify (set_mem (fun m => store m pa bs))) ;;
  if negb (r =? n) then ret (inr (-1)) else ret (inl (u32 (i + PGSIZE))).

Definition loadseg (pagetable va : Z) (ip : nat) (offset sz : Z) : K Z :=
  iter (S (S (Z.to_nat (sz / PGSIZE)))) (loadseg_step pagetable va ip offset sz) 0.

(** One program header; the loop variables are [i], [off] and [sz], and the
    result says whether to go on past the loop, with the final [sz]. *)
Definition load_step (ip : nat) (pagetable : Z) (elf : elfhdr) (a : Z * Z * Z) : K (Z * Z * Z + bool * Z) :=
  let '(i, off, sz) := a in
  if negb (i <? e_phnum elf) then ret (inr (true, sz)) else
  let next sz := ret (inl (i + 1, s32 (off + PROGHDR_SIZE), sz)) in
  let bad sz := ret (inr (false, sz)) in
  let* ' (r, bs) := on_fs (readi ip ToKernel (u32 off) PROGHDR_SIZE) in
  if negb (r =? PROGHDR_SIZE) then bad sz else
  let ph := ph_decode bs in
  if negb (ph_type ph =? ELF_PROG_LOAD) then next sz else
  if ph_memsz ph <? ph_filesz ph then bad sz else
  if u64 (ph_vaddr ph + ph_memsz ph) <? ph_vaddr ph then bad sz else
  if negb (ph_vaddr ph mod PGSIZE =? 0) then bad sz else
  let* sz1 := on_mem (uvmalloc kend pagetable sz (u64 (ph_vaddr ph + ph_memsz ph)) (flags2perm (ph_flags ph))) in
  if sz1 =? 0 then bad sz else
  let* r := loadseg pagetable (ph_vaddr ph) ip (u32 (ph_off ph)) (u32 (ph_filesz ph)) in
  if r <? 0 then bad sz1 else next sz1.

Definition load_program (ip : nat) (pagetable : Z) (elf : elfhdr) : K (bool * Z) :=
  iter (S (S (Z.to_nat (e_phnum elf)))) (load_step ip pagetable elf) (0, s32 (e_phoff elf), 0).

(** The loop that pushes the argument strings: the pointers pushed so far are
    [ustack]. *)
Fixpoint push_args (pagetable stackbase : Z) (argv : list (list Z)) (sp : Z) (ustack : list Z)
    : K (option (Z * list Z)) :=
  match argv with
  | [] => ret (Some (sp, ustack))
  | s :: argv' =>
      if Z.of_nat (length ustack) >=? MAXARG then ret None else
      let* n := the (strlen s) in
      let sp := u64 (sp - (Z.of_nat n + 1)) in
      let sp := sp - sp mod 16 in
      if sp <? stackbase then ret None else
      let* r := on_mem (copyout pagetable sp (take (S n) s)) in
      if r <? 0 then ret None else
      push_args pagetable stackbase argv' sp (ustack ++ [sp])
  end.

(** [bad:]; [ip] is null once the file has been released. *)
Definition exec_bad (pagetable sz : Z) (ip : option nat) : K Z :=
  (if negb (pagetable =? 0) then proc_freepagetable kend pagetable sz else ret tt) ;;
  (match ip with
   | Some ip => on_fs (iunlockput ip) ;; kend_op
   | None => ret tt
   end) ;;
  ret (-1).

(** From the stack to the commit. *)
Definition exec_commit (path : list Z) (argv : list (list Z)) (elf : elfhdr) (pagetable sz : Z) : K Z :=
  let* p := myproc in
  let* x := getp p in
  let oldsz := p_sz x in
  let sz := PGROUNDUP sz in
  let* sz1 := on_mem (uvmalloc kend pagetable sz (u64 (sz + 2 * PGSIZE)) PTE_W) in
  if sz1 =? 0 then exec_bad pagetable sz None else
  let sz := sz1 in
  on_mem (uvmclear pagetable (u64 (sz - 2 * PGSIZE))) ;;
  let stackbase := u64 (sz - PGSIZE) in
  let* r := push_args pagetable stackbase argv sz [] in
  match r with
  | None => exec_bad pagetable sz None
  | Some (sp, ustack) =>
      let argc := Z.of_nat (length ustack) in
      (* ustack has MAXARG elements *)
      if argc >=? MAXARG then panic "wild pointer" else
      let sp := u64 (sp - (argc + 1) * 8) in
      let sp := sp - sp mod 16 in
      if sp <? stackbase then exec_bad pagetable sz None else
      let* r := on_mem (copyout pagetable sp (mjoin (le_bytes 8 <$> (ustack ++ [0])))) in
      if r <? 0 then exec_bad pagetable sz None else
      tf_set p (TF_a 1) sp ;;
      let* last := the (last_elem path path) in
      set_name p last ;;
      let* x := getp p in
      let oldpagetable := p_pagetable x in
      setp p (p_set_pagetable pagetable) ;;
      setp p (p_set_sz sz) ;;
      tf_set p TF_epc (e_entry elf) ;;
      tf_set p TF_sp sp ;;
      proc_freepagetable kend oldpagetable oldsz ;;
      ret (s32 argc)
  end.

Definition exec (path : list Z) (argv : list (list Z)) : K Z :=
  let* p := myproc in
  kbegin_op ;;
  let* r := on_fs (namei path) in
  match r with
  | None => kend_op ;; ret (-1)
  | Some ip =>
      on_fs (ilock (Some ip)) ;;
      let* ' (r, bs) := on_fs (readi ip ToKernel 0 ELFHDR_SIZE) in
      if negb (r =? ELFHDR_SIZE) then exec_bad 0 0 (Some ip) else
      let elf := elf_decode bs in
      if negb (e_magic elf =? ELF_MAGIC) then exec_bad 0 0 (Some ip) else
      let* pagetable := proc_pagetable kend trampoline p in
      if pagetable =? 0 then exec_bad 0 0 (Some ip) else
      let* ' (ok, sz) := load_program ip pagetable elf in
      if negb ok then exec_bad pagetable sz (Some ip) else
      on_fs (iunlockput ip) ;;
      kend_op ;;
      exec_commit path argv elf pagetable sz
  end.
End Exec.
