(* ===== verification/Sysfile.v ===== *)
(** * File system calls and their arguments (kernel/syscall.c, kernel/sysfile.c)

    Arguments come from the registers saved in the trap frame and from user
    memory; a string argument is the bytes copyinstr() stored.  A C function that
    shares its clean-up code through goto has it in a local definition here. *)

From S2P Require Import Prelude Machine Mem Kalloc Sleeplock Store FsDisk CString Printf Fs Vm Kernel File Proc Exec.

Open Scope Z_scope.

(** ** kernel/fcntl.h *)

Definition O_RDONLY : Z := 0.
Definition O_WRONLY : Z := 1.
Definition O_RDWR : Z := 2.
Definition O_CREATE : Z := 512.
Definition O_TRUNC : Z := 1024.

Section Sysfile.
Context {St : Type} `{BlockStore St}.
Variable kend : Z.
Variable trampoline : Z.
Variable devsw : Z -> devsw_entry St.
Variable stat_pad : list Z.
Abbreviation K := (M (kernel St)).

(** ** kernel/syscall.c: arguments *)

Definition fetchaddr (addr : Z) : K (Z * Z) :=
  let* p := myproc in
  let* x := getp p in
  if (addr >=? p_sz x) || (u64 (addr + 8) >? p_sz x) then ret (-1, 0) else
  let* ' (r, bs) := copyin_cur addr 8 in
  if negb (r =? 0) then ret (-1, 0) else ret (0, le_val bs).

(** The length, and what the buffer holds. *)
Definition fetchstr (addr : Z) (max : nat) : K (Z * list Z) :=
  let* p := myproc in
  let* x := getp p in
  let* ' (r, buf) := on_mem (copyinstr (p_pagetable x) addr max) in
  if r <? 0 then ret (-1, buf) else
  let* n := the (strlen buf) in
  ret (Z.of_nat n, buf).

Definition argraw (n : Z) : K Z :=
  if (0 <=? n) && (n <? 6) then let* p := myproc in tf_get p (TF_a n) else panic "argraw".
Definition argint (n : Z) : K Z := let* v := argraw n in ret (s32 v).
Definition argaddr (n : Z) : K Z := argraw n.
Definition argstr (n : Z) (max : nat) : K (Z * list Z) := let* addr := argaddr n in fetchstr addr max.

Definition MAXPATHn : nat := Z.to_nat MAXPATH.

(** ** Descriptors *)

Definition argfd (n : Z) : K (option (nat * nat)) :=
  let* fd := argint n in
  if (fd <? 0) || (fd >=? NOFILE) then ret None else
  let* p := myproc in
  let* x := getp p in
  match mjoin (p_ofile x !! Z.to_nat fd) with
  | None => ret None
  | Some f => ret (Some (Z.to_nat fd, f))
  end.

Fixpoint find_free_fd (l : list (option nat)) (fd : nat) : option nat :=
  match l with
  | [] => None
  | None :: _ => Some fd
  | Some _ :: t => find_free_fd t (S fd)
  end.

Definition set_fd (p fd : nat) (v : option nat) : K unit :=
  setp p (fun x => p_set_ofile (<[fd := v]> (p_ofile x)) x).

(** [None] is -1. *)
Definition fdalloc (f : nat) : K (option nat) :=
  let* p := myproc in
  let* x := getp p in
  match find_free_fd (p_ofile x) 0 with
  | Some fd => set_fd p fd (Some f) ;; ret (Some fd)
  | None => ret None
  end.

Definition sys_dup : K Z :=
  let* a := argfd 0 in
  match a with
  | None => ret (-1)
  | Some (_, f) =>
      let* r := fdalloc f in
      match r with
      | None => ret (-1)
      | Some fd => filedup f ;; ret (Z.of_nat fd)
      end
  end.

Definition sys_read : K Z :=
  let* p := argaddr 1 in
  let* n := argint 2 in
  let* a := argfd 0 in
  match a with None => ret (-1) | Some (_, f) => fileread devsw f p n end.

Definition sys_write : K Z :=
  let* p := argaddr 1 in
  let* n := argint 2 in
  let* a := argfd 0 in
  match a with None => ret (-1) | Some (_, f) => filewrite devsw f p n end.

Definition sys_close : K Z :=
  let* a := argfd 0 in
  match a with
  | None => ret (-1)
  | Some (fd, f) =>
      let* p := myproc in
      set_fd p fd None ;;
      fileclose kend f ;;
      ret 0
  end.

Definition sys_fstat : K Z :=
  let* st := argaddr 1 in
  let* a := argfd 0 in
  match a with None => ret (-1) | Some (_, f) => filestat stat_pad f st end.

(** ** Links *)

Definition sys_link : K Z :=
  let* ' (r, old) := argstr 0 MAXPATHn in
  if r <? 0 then ret (-1) else
  let* ' (r, new) := argstr 1 MAXPATHn in
  if r <? 0 then ret (-1) else
  kbegin_op ;;
  let* r := on_fs (namei old) in
  match r with
  | None => kend_op ;; ret (-1)
  | Some ip =>
      on_fs (ilock (Some ip)) ;;
      let* i := on_fs (geti ip) in
      if i_type i =? T_DIR then on_fs (iunlockput ip) ;; kend_op ;; ret (-1) else
      on_fs (seti ip (fun i => i_set_nlink (s16 (i_nlink i + 1)) i)) ;;
      on_fs (iupdate ip) ;;
      on_fs (iunlock (Some ip)) ;;
      let bad :=
        on_fs (ilock (Some ip)) ;;
        on_fs (seti ip (fun i => i_set_nlink (s16 (i_nlink i - 1)) i)) ;;
        on_fs (iupdate ip) ;;
        on_fs (iunlockput ip) ;;
        kend_op ;;
        ret (-1) in
      let* ' (r, name) := on_fs (nameiparent new (replicate DIRSIZn 0)) in
      match r with
      | None => bad
      | Some dp =>
          on_fs (ilock (Some dp)) ;;
          let* d := on_fs (geti dp) in
          let* i := on_fs (geti ip) in
          let* failed := (if negb (i_dev d =? i_dev i) then ret true else
                          let* r := on_fs (dirlink dp name (i_inum i)) in ret (r <? 0)) in
          if failed : bool then on_fs (iunlockput dp) ;; bad else
          on_fs (iunlockput dp) ;;
          on_fs (iput ip) ;;
          kend_op ;;
          ret 0
      end
  end.

Definition isdirempty_step (dp : nat) (off : Z) : K (Z + bool) :=
  let* d := on_fs (geti dp) in
  if negb (off <? i_size d) then ret (inr true) else
  let* de := on_fs (read_dirent dp off "isdirempty: readi") in
  if negb (de_inum de =? 0) then ret (inr false) else ret (inl (off + DIRENT_SIZE)).

Definition isdirempty (dp : nat) : K bool :=
  let* d := on_fs (geti dp) in
  iter (dir_fuel (i_size d)) (isdirempty_step dp) (2 * DIRENT_SIZE).

Definition sys_unlink : K Z :=
  let* ' (r, path) := argstr 0 MAXPATHn in
  if r <? 0 then ret (-1) else
  kbegin_op ;;
  let* ' (r, name) := on_fs (nameiparent path (replicate DIRSIZn 0)) in
  match r with
  | None => kend_op ;; ret (-1)
  | Some dp =>
      on_fs (ilock (Some dp)) ;;
      let bad := on_fs (iunlockput dp) ;; kend_op ;; ret (-1) in
      let* c := the (namecmp name (lit ".")) in
      let* c' := the (namecmp name (lit "..")) in
      if (c =? 0) || (c' =? 0) then bad else
      let* r := on_fs (dirlookup dp name) in
      match r with
      | None => bad
      | Some (ip, off) =>
          on_fs (ilock (Some ip)) ;;
          let* i := on_fs (geti ip) in
          if i_nlink i <? 1 then panic "unlink: nlink < 1" else
          let* full := (if i_type i =? T_DIR then let* e := isdirempty ip in ret (negb e) else ret false) in
          if full : bool then on_fs (iunlockput ip) ;; bad else
          let* r := on_fs (writei dp (FromKernel (replicate (Z.to_nat DIRENT_SIZE) 0)) off DIRENT_SIZE) in
          if negb (r =? DIRENT_SIZE) then panic "unlink: writei" else
          (if i_type i =? T_DIR then
             on_fs (seti dp (fun d => i_set_nlink (s16 (i_nlink d - 1)) d)) ;;
             on_fs (iupdate dp)
           else ret tt) ;;
          on_fs (iunlockput dp) ;;
          on_fs (seti ip (fun i => i_set_nlink (s16 (i_nlink i - 1)) i)) ;;
          on_fs (iupdate ip) ;;
          on_fs (iunlockput ip) ;;
          kend_op ;;
          ret 0
      end
  end.

(** ** Creating and opening *)

Definition create (path : list Z) (type major minor : Z) : K (option nat) :=
  let* ' (r, name) := on_fs (nameiparent path (replicate DIRSIZn 0)) in
  match r with
  | None => ret None
  | Some dp =>
      on_fs (ilock (Some dp)) ;;
      let* r := on_fs (dirlookup dp name) in
      match r with
      | Some (ip, _) =>
          on_fs (iunlockput dp) ;;
          on_fs (ilock (Some ip)) ;;
          let* i := on_fs (geti ip) in
          if (type =? T_FILE) && ((i_type i =? T_FILE) || (i_type i =? T_DEVICE)) then ret (Some ip) else
          on_fs (iunlockput ip) ;;
          ret None
      | None =>
          let* d := on_fs (geti dp) in
          let* r := on_fs (ialloc (i_dev d) type) in
          match r with
          | None => on_fs (iunlockput dp) ;; ret None
          | Some ip =>
              on_fs (ilock (Some ip)) ;;
              on_fs (seti ip (fun i => i_set_nlink 1 (i_set_dev_id major minor i))) ;;
              on_fs (iupdate ip) ;;
              let fail :=
                on_fs (seti ip (i_set_nlink 0)) ;;
                on_fs (iupdate ip) ;;
                on_fs (iunlockput ip) ;;
                on_fs (iunlockput dp) ;;
                ret None in
              let* i := on_fs (geti ip) in
              let* dots := (if type =? T_DIR then
                              let* r := on_fs (dirlink ip (lit ".") (i_inum i)) in
                              if r <? 0 then ret false else
                              let* r := on_fs (dirlink ip (lit "..") (i_inum d)) in
                              ret (negb (r <? 0))
                            else ret true) in
              if negb dots then fail else
              let* r := on_fs (dirlink dp name (i_inum i)) in
              if r <? 0 then fail else
              (if type =? T_DIR then
                 on_fs (seti dp (fun d => i_set_nlink (s16 (i_nlink d + 1)) d)) ;;
                 on_fs (iupdate dp)
               else ret tt) ;;
              on_fs (iunlockput dp) ;;
              ret (Some ip)
          end
      end
  end.

Definition flag (omode f : Z) : bool := negb (Z.land omode f =? 0).

(** The inode sys_open() works on, locked. *)
Definition open_inode (path : list Z) (omode : Z) : K (option nat) :=
  if flag omode O_CREATE then create path T_FILE 0 0 else
  let* r := on_fs (namei path) in
  match r with
  | None => ret None
  | Some ip =>
      on_fs (ilock (Some ip)) ;;
      let* i := on_fs (geti ip) in
      if (i_type i =? T_DIR) && negb (omode =? O_RDONLY) then on_fs (iunlockput ip) ;; ret None
      else ret (Some ip)
  end.

(** The file structure of a newly opened inode. *)
Definition open_file (f ip : nat) (omode : Z) : K unit :=
  let* i := on_fs (geti ip) in
  (if i_type i =? T_DEVICE then
     setf f (fun x => f_set_major (i_major i) (f_set_type FD_DEVICE x))
   else
     setf f (f_set_type FD_INODE) ;;
     (if flag omode O_TRUNC && (i_type i =? T_FILE) then on_fs (itrunc ip) else ret tt) ;;
     if negb (flag omode O_TRUNC) && (flag omode O_WRONLY || flag omode O_RDWR) then
       let* st := on_fs (stati ip) in
       setf f (f_set_off (u32 (st_size st)))
     else setf f (f_set_off 0)) ;;
  setf f (fun x => f_set_writable (flag omode O_WRONLY || flag omode O_RDWR)
                     (f_set_readable (negb (flag omode O_WRONLY)) (f_set_ip (Some ip) x))).

Definition sys_open : K Z :=
  let* omode := argint 1 in
  let* ' (n, path) := argstr 0 MAXPATHn in
  if n <? 0 then ret (-1) else
  kbegin_op ;;
  let* r := open_inode path omode in
  match r with
  | None => kend_op ;; ret (-1)
  | Some ip =>
      let bad := on_fs (iunlockput ip) ;; kend_op ;; ret (-1) in
      let* i := on_fs (geti ip) in
      if (i_type i =? T_DEVICE) && ((i_major i <? 0) || (i_major i >=? NDEV)) then bad else
      let* r := filealloc in
      match r with
      | None => bad
      | Some f =>
          let* r := fdalloc f in
          match r with
          | None => fileclose kend f ;; bad
          | Some fd =>
              open_file f ip omode ;;
              on_fs (iunlock (Some ip)) ;;
              kend_op ;;
              ret (Z.of_nat fd)
          end
      end
  end.

(** mkdir() and mknod() after their arguments. *)
Definition make_node (arg : Z * list Z) (type major minor : Z) : K Z :=
  let '(n, path) := arg in
  if n <? 0 then kend_op ;; ret (-1) else
  let* r := create path type major minor in
  match r with
  | None => kend_op ;; ret (-1)
  | Some ip => on_fs (iunlockput ip) ;; kend_op ;; ret 0
  end.

Definition sys_mkdir : K Z :=
  kbegin_op ;;
  let* a := argstr 0 MAXPATHn in
  make_node a T_DIR 0 0.

Definition sys_mknod : K Z :=
  kbegin_op ;;
  let* major := argint 1 in
  let* minor := argint 2 in
  let* a := argstr 0 MAXPATHn in
  make_node a T_DEVICE (s16 major) (s16 minor).

Definition sys_chdir : K Z :=
  let* p := myproc in
  kbegin_op ;;
  let* ' (n, path) := argstr 0 MAXPATHn in
  if n <? 0 then kend_op ;; ret (-1) else
  let* r := on_fs (namei path) in
  match r with
  | None => kend_op ;; ret (-1)
  | Some ip =>
      on_fs (ilock (Some ip)) ;;
      let* i := on_fs (geti ip) in
      if negb (i_type i =? T_DIR) then on_fs (iunlockput ip) ;; kend_op ;; ret (-1) else
      on_fs (iunlock (Some ip)) ;;
      let* x := getp p in
      let* cwd := the (p_cwd x) in
      on_fs (iput cwd) ;;
      kend_op ;;
      setp p (p_set_cwd (Some ip)) ;;
      ret 0
  end.

(** ** exec and pipe *)

(** One turn of the loop that fetches the arguments: the pages in [argv] so far;
    [inr true] is the null pointer that ends them and [inr false] a failure. *)
Definition fetch_arg (uargv : Z) (argv : list Z) : K (list Z + bool * list Z) :=
  let i := Z.of_nat (length argv) in
  if i >=? MAXARG then ret (inr (false, argv)) else
  let* ' (r, uarg) := fetchaddr (u64 (uargv + 8 * i)) in
  if r <? 0 then ret (inr (false, argv)) else
  if uarg =? 0 then ret (inr (true, argv)) else
  let* page := on_mem kalloc in
  if page =? 0 then ret (inr (false, argv)) else
  let* ' (r, buf) := fetchstr uarg (Z.to_nat PGSIZE) in
  on_mem (modify (set_mem (fun m => store m page buf))) ;;
  if r <? 0 then ret (inr (false, argv ++ [page])) else ret (inl (argv ++ [page])).

Definition sys_exec : K Z :=
  let* uargv := argaddr 1 in
  let* ' (r, path) := argstr 0 MAXPATHn in
  if r <? 0 then ret (-1) else
  let* ' (ok, argv) := iter (S (S (Z.to_nat MAXARG))) (fetch_arg uargv) [] in
  let* ret_ := (if ok : bool then
                  let* mem := gets (fun k => kmem_mem (k_phys k)) in
                  exec kend trampoline path ((fun page => load mem page (Z.to_nat PGSIZE)) <$> argv)
                else ret (-1)) in
  for_each argv (fun page => on_mem (kfree kend page)) ;;
  ret ret_.

Definition sys_pipe : K Z :=
  let* p := myproc in
  let* fdarray := argaddr 0 in
  let* ' (r, rf, wf) := pipealloc kend in
  if r <? 0 then ret (-1) else
  let* rf := the rf in
  let* wf := the wf in
  let bad fds := for_each fds (fun fd => set_fd p fd None) ;; fileclose kend rf ;; fileclose kend wf ;; ret (-1) in
  let* r := fdalloc rf in
  match r with
  | None => bad []
  | Some fd0 =>
      let* r := fdalloc wf in
      match r with
      | None => bad [fd0]
      | Some fd1 =>
          let* r := copyout_cur fdarray (le_bytes 4 (Z.of_nat fd0)) in
          if r <? 0 then bad [fd0; fd1] else
          let* r := copyout_cur (u64 (fdarray + 4)) (le_bytes 4 (Z.of_nat fd1)) in
          if r <? 0 then bad [fd0; fd1] else
          ret 0
      end
  end.

(** ** diskspace and rename *)

Definition sys_diskspace : K Z :=
  let* total_blk_addr := argaddr 1 in
  let* free_blk_addr := argaddr 0 in
  let* total_disk := on_fs read_disk_size in
  let* free_blocks := on_fs count_free_blocks in
  let* r := copyout_cur total_blk_addr (le_bytes 4 total_disk) in
  if r <? 0 then ret (-1) else
  let* r := copyout_cur free_blk_addr (le_bytes 4 free_blocks) in
  if r <? 0 then ret (-1) else
  ret 0.

Definition sys_rename : K Z :=
  let* ' (r, old) := argstr 0 DIRSIZn in
  if r <? 0 then ret (-1) else
  let* ' (r, new) := argstr 1 DIRSIZn in
  if r <? 0 then ret (-1) else
  on_fs (rename old new).
End Sysfile.
