(* ===== verification/Syscall.v ===== *)
(** * System calls on processes, and the system-call table (kernel/sysproc.c,
    kernel/syscall.c, kernel/syscall.h, and clockintr() of kernel/trap.c)

    syscall() fetches the number from the saved a7, runs the handler and stores
    its result in the saved a0.  exit() does not come back to it. *)

From S2P Require Import Prelude Machine Mem Kalloc Sleeplock Store FsDisk CString Printf Fs Vm Kernel File Proc Exec Sysfile.

Open Scope Z_scope.

(** ** kernel/syscall.h *)

Definition SYS_fork : Z := 1.
Definition SYS_exit : Z := 2.
Definition SYS_wait : Z := 3.
Definition SYS_pipe : Z := 4.
Definition SYS_read : Z := 5.
Definition SYS_kill : Z := 6.
Definition SYS_exec : Z := 7.
Definition SYS_fstat : Z := 8.
Definition SYS_chdir : Z := 9.
Definition SYS_dup : Z := 10.
Definition SYS_getpid : Z := 11.
Definition SYS_sbrk : Z := 12.
Definition SYS_sleep : Z := 13.
Definition SYS_uptime : Z := 14.
Definition SYS_open : Z := 15.
Definition SYS_write : Z := 16.
Definition SYS_mknod : Z := 17.
Definition SYS_unlink : Z := 18.
Definition SYS_link : Z := 19.
Definition SYS_mkdir : Z := 20.
Definition SYS_close : Z := 21.
Definition SYS_diskspace : Z := 22.
Definition SYS_rename : Z := 23.

Section Syscall.
Context {St : Type} `{BlockStore St}.
Variable kend : Z.
Variables trampoline forkret_addr : Z.
Variable devsw : Z -> devsw_entry St.
Variable stat_pad : list Z.
Abbreviation K := (M (kernel St)).

(** ** kernel/sysproc.c *)

Definition sys_exit : K unit := let* n := argint 0 in exit kend n.

Definition sys_getpid : K Z := let* p := myproc in let* x := getp p in ret (p_pid x).

Definition sys_fork : K Z := fork kend trampoline forkret_addr.

Definition sys_wait : K Z := let* p := argaddr 0 in wait kend p.

Definition sys_sbrk : K Z :=
  let* n := argint 0 in
  let* p := myproc in
  let* x := getp p in
  let addr := p_sz x in
  let* r := growproc kend n in
  if r <? 0 then ret (-1) else ret addr.

(** One turn of the loop of sys_sleep(), the lock on the ticks held. *)
Definition sleep_step (ticks0 n : Z) : K Z :=
  let* t := gets k_ticks in
  if u32 (t - ticks0) <? u32 n then
    let* p := myproc in
    let* dead := killed p in
    if dead then release LTicks ;; ret (-1) else sleep ChTicks LTicks
  else release LTicks ;; ret 0.

Definition sys_sleep : K Z :=
  let* n := argint 0 in
  acquire LTicks ;;
  let* ticks0 := gets k_ticks in
  sleep_step ticks0 n.

Definition sys_kill : K Z := let* pid := argint 0 in kill pid.

Definition sys_uptime : K Z :=
  acquire LTicks ;;
  let* xticks := gets k_ticks in
  release LTicks ;;
  ret xticks.

(** ** kernel/trap.c *)

Definition clockintr : K unit :=
  acquire LTicks ;;
  modify (fun k => k_set_ticks (u32 (k_ticks k + 1)) k) ;;
  wakeup ChTicks ;;
  release LTicks.

(** ** The table *)

(** What syscall() does with a number: [None] is a null entry. *)
Definition syscalls (num : Z) : option (K (option Z)) :=
  let returns (m : K Z) := Some (let* v := m in ret (Some v)) in
  if num =? SYS_fork then returns sys_fork
  else if num =? SYS_exit then Some (sys_exit ;; ret None)
  else if num =? SYS_wait then returns sys_wait
  else if num =? SYS_pipe then returns (sys_pipe kend)
  else if num =? SYS_read then returns (sys_read devsw)
  else if num =? SYS_kill then returns sys_kill
  else if num =? SYS_exec then returns (sys_exec kend trampoline)
  else if num =? SYS_fstat then returns (sys_fstat stat_pad)
  else if num =? SYS_chdir then returns sys_chdir
  else if num =? SYS_dup then returns sys_dup
  else if num =? SYS_getpid then returns sys_getpid
  else if num =? SYS_sbrk then returns sys_sbrk
  else if num =? SYS_sleep then returns sys_sleep
  else if num =? SYS_uptime then returns sys_uptime
  else if num =? SYS_open then returns (sys_open kend)
  else if num =? SYS_write then returns (sys_write devsw)
  else if num =? SYS_mknod then returns sys_mknod
  else if num =? SYS_unlink then returns sys_unlink
  else if num =? SYS_link then returns sys_link
  else if num =? SYS_mkdir then returns sys_mkdir
  else if num =? SYS_close then returns (sys_close kend)
  else if num =? SYS_diskspace then returns sys_diskspace
  else if num =? SYS_rename then returns sys_rename
  else None.

(** Whether the handler comes back: exit() does not. *)
Definition syscall : K bool :=
  let* p := myproc in
  let* a7 := tf_get p (TF_a 7) in
  let num := s32 a7 in
  match syscalls num with
  | Some call =>
      let* v := call in
      match v with
      | Some v => tf_set p TF_a0 (u64 v) ;; ret true
      | None => ret false
      end
  | None =>
      let* x := getp p in
      printf_ln "%d %s: unknown sys call %d" [AInt (p_pid x); AStr (Some (p_name x)); AInt num] ;;
      tf_set p TF_a0 (u64 (-1)) ;;
      ret true
  end.
End Syscall.
