(* ===== verification/Trap.v ===== *)
(** * Traps (kernel/trap.c, kernel/plic.c)

    System calls, device interrupts and faults, from user space and from the
    kernel.  The supervisor registers of the CPU are a record beside the kernel's
    state and the disk driver's; what the interrupt controller answers when it is
    asked for the pending interrupt is the list [h_irqs].  The addresses that the
    linker and trampoline.S determine are arguments. *)

From S2P Require Import Prelude Machine Mem Kalloc Sleeplock Store FsDisk CString Printf Fs Vm Kernel File Proc Console Virtio Exec Sysfile Syscall.

Open Scope Z_scope.

Definition SSTATUS_SPP : Z := Z.shiftl 1 8.
Definition SSTATUS_SPIE : Z := Z.shiftl 1 5.
Definition SSTATUS_SIE : Z := Z.shiftl 1 1.
Definition SATP_SV39 : Z := Z.shiftl 8 60.
Definition MAKE_SATP (pagetable : Z) : Z := Z.lor SATP_SV39 (Z.shiftr pagetable 12).
Definition UART0_IRQ : Z := 10.
Definition VIRTIO0_IRQ : Z := 1.

Record hart := Hart {
  h_sstatus : Z;
  h_sepc : Z;
  h_scause : Z;
  h_stval : Z;
  h_stvec : Z;
  h_sip : Z;
  h_satp : Z;
  h_tp : Z;
  h_irqs : list Z;               (* what plic_claim() will read *)
  h_served : list Z              (* what plic_complete() has written *)
}.

Definition h_set_sstatus v h := Hart v (h_sepc h) (h_scause h) (h_stval h) (h_stvec h) (h_sip h) (h_satp h) (h_tp h) (h_irqs h) (h_served h).
Definition h_set_sepc v h := Hart (h_sstatus h) v (h_scause h) (h_stval h) (h_stvec h) (h_sip h) (h_satp h) (h_tp h) (h_irqs h) (h_served h).
Definition h_set_stvec v h := Hart (h_sstatus h) (h_sepc h) (h_scause h) (h_stval h) v (h_sip h) (h_satp h) (h_tp h) (h_irqs h) (h_served h).
Definition h_set_sip v h := Hart (h_sstatus h) (h_sepc h) (h_scause h) (h_stval h) (h_stvec h) v (h_satp h) (h_tp h) (h_irqs h) (h_served h).
Definition h_set_irqs v h := Hart (h_sstatus h) (h_sepc h) (h_scause h) (h_stval h) (h_stvec h) (h_sip h) (h_satp h) (h_tp h) v (h_served h).
Definition h_set_served v h := Hart (h_sstatus h) (h_sepc h) (h_scause h) (h_stval h) (h_stvec h) (h_sip h) (h_satp h) (h_tp h) (h_irqs h) v.

Record mach (St : Type) := Mach { mc_k : kernel St; mc_h : hart; mc_d : disk }.
Arguments Mach {St}.
Arguments mc_k {St}.
Arguments mc_h {St}.
Arguments mc_d {St}.

#[export] Instance lens_mach {St} : Lens (mach St) (kernel St) := {
  lget := mc_k;
  lput k m := Mach k (mc_h m) (mc_d m)
}.

(** How usertrap() ends: back in user space with the given satp, or in the
    scheduler, for ever or until the process is resumed. *)
Inductive outcome := ToUserSpace (satp : Z) | Exited | Yielded.

Section Trap.
Context {St : Type} `{BlockStore St}.
Variable kend : Z.
Variables trampoline uservec userret kernelvec usertrap_addr forkret_addr : Z.
Variable stat_pad : list Z.
Abbreviation T := (M (mach St)).
Abbreviation K := (M (kernel St)).

Definition in_kernel {A} (m : K A) : T A := zoom m.
Definition upd_hart (f : hart -> hart) : T unit := modify (fun m => Mach (mc_k m) (f (mc_h m)) (mc_d m)).
Definition upd_disk (f : disk -> disk) : T unit := modify (fun m => Mach (mc_k m) (mc_h m) (f (mc_d m))).
Definition csr (f : hart -> Z) : T Z := gets (fun m => f (mc_h m)).

Definition intr_on : T unit := upd_hart (fun h => h_set_sstatus (Z.lor (h_sstatus h) SSTATUS_SIE) h).
Definition intr_off : T unit := upd_hart (fun h => h_set_sstatus (Z.land (h_sstatus h) (u64 (Z.lnot SSTATUS_SIE))) h).
Definition intr_get : T bool := let* x := csr h_sstatus in ret (negb (Z.land x SSTATUS_SIE =? 0)).
Definition cpuid : T Z := let* tp := csr h_tp in ret (s32 tp).

Definition trapinit : T unit := initlock LTicks.
Definition trapinithart : T unit := upd_hart (h_set_stvec kernelvec).

(** ** kernel/plic.c *)

Definition plic_claim : T Z :=
  let* l := gets (fun m => h_irqs (mc_h m)) in
  match l with
  | [] => ret 0
  | irq :: t => upd_hart (h_set_irqs t) ;; ret irq
  end.
Definition plic_complete (irq : Z) : T unit := upd_hart (fun h => h_set_served (h_served h ++ [irq]) h).

(** ** Devices *)

Definition disk_intr_step (_ : unit) : T (unit + unit) :=
  let* d := gets mc_d in
  match intr_turn d with
  | inr msg => panic msg
  | inl (_, None) => ret (inr tt)
  | inl (d', Some b) => upd_disk (fun _ => d') ;; in_kernel (wakeup (ChBuf b)) ;; ret (inl tt)
  end.

(** The register write that acknowledges the interrupt changes nothing that is
    modelled: the device's interrupt line is not part of the state. *)
Definition virtio_disk_intr : T unit :=
  acquire LDisk ;;
  let* d := gets mc_d in
  iter (S (S (Z.to_nat (u16 (vd_used_end d - vd_used_idx d))))) disk_intr_step tt ;;
  release LDisk.

Definition devintr : T Z :=
  let* scause := csr h_scause in
  if Z.testbit scause 63 && (Z.land scause 255 =? 9) then
    let* irq := plic_claim in
    (if irq =? UART0_IRQ then in_kernel uartintr
     else if irq =? VIRTIO0_IRQ then virtio_disk_intr
     else if negb (irq =? 0) then printf_ln "unexpected interrupt irq=%d" [AInt irq]
     else ret tt) ;;
    (if negb (irq =? 0) then plic_complete irq else ret tt) ;;
    ret 1
  else if scause =? 2 ^ 63 + 1 then
    let* id := cpuid in
    (if id =? 0 then in_kernel clockintr else ret tt) ;;
    upd_hart (fun h => h_set_sip (Z.land (h_sip h) (u64 (Z.lnot 2))) h) ;;
    ret 2
  else ret 0.

(** ** Back to user space *)

Definition usertrapret : T outcome :=
  let* p := in_kernel myproc in
  intr_off ;;
  upd_hart (h_set_stvec (u64 (TRAMPOLINE + (uservec - trampoline)))) ;;
  let* satp := csr h_satp in
  in_kernel (tf_set p TF_kernel_satp satp) ;;
  let* x := in_kernel (getp p) in
  in_kernel (tf_set p TF_kernel_sp (u64 (p_kstack x + PGSIZE))) ;;
  in_kernel (tf_set p TF_kernel_trap usertrap_addr) ;;
  let* tp := csr h_tp in
  in_kernel (tf_set p TF_kernel_hartid tp) ;;
  upd_hart (fun h => h_set_sstatus (Z.lor (Z.land (h_sstatus h) (u64 (Z.lnot SSTATUS_SPP))) SSTATUS_SPIE) h) ;;
  let* epc := in_kernel (tf_get p TF_epc) in
  upd_hart (h_set_sepc epc) ;;
  ret (ToUserSpace (MAKE_SATP (p_pagetable x))).

(** yield() up to the switch. *)
Definition yield (p : nat) : K unit :=
  acquire (LProc p) ;;
  setp p (p_set_state RUNNABLE) ;;
  sched p.

(** ** From user space *)

(** What comes after the trap has been dealt with. *)
Definition trap_end (p : nat) (which_dev : Z) : T outcome :=
  let* dead := in_kernel (killed p) in
  if dead : bool then in_kernel (exit kend (-1)) ;; ret Exited else
  if which_dev =? 2 then in_kernel (yield p) ;; ret Yielded else
  usertrapret.

Definition usertrap : T outcome :=
  let* sstatus := csr h_sstatus in
  if negb (Z.land sstatus SSTATUS_SPP =? 0) then panic "usertrap: not from user mode" else
  upd_hart (h_set_stvec kernelvec) ;;
  let* p := in_kernel myproc in
  let* sepc := csr h_sepc in
  in_kernel (tf_set p TF_epc sepc) ;;
  let* scause := csr h_scause in
  if scause =? 8 then
    let* dead := in_kernel (killed p) in
    if dead : bool then in_kernel (exit kend (-1)) ;; ret Exited else
    let* epc := in_kernel (tf_get p TF_epc) in
    in_kernel (tf_set p TF_epc (u64 (epc + 4))) ;;
    intr_on ;;
    let* back := in_kernel (syscall kend trampoline forkret_addr devsw stat_pad) in
    if back : bool then trap_end p 0 else ret Exited
  else
    let* which_dev := devintr in
    if negb (which_dev =? 0) then trap_end p which_dev else
    let* x := in_kernel (getp p) in
    printf_ln "usertrap(): unexpected scause %p pid=%d" [ALong scause; AInt (p_pid x)] ;;
    let* sepc := csr h_sepc in
    let* stval := csr h_stval in
    printf_ln "            sepc=%p stval=%p" [ALong sepc; ALong stval] ;;
    in_kernel (setkilled p) ;;
    trap_end p 0.

(** ** From the kernel *)

(** [Some p] when the timer takes the CPU from process [p], which goes on at the
    restoring of the two registers. *)
Definition kerneltrap : T (option nat) :=
  let* sepc := csr h_sepc in
  let* sstatus := csr h_sstatus in
  let* scause := csr h_scause in
  if Z.land sstatus SSTATUS_SPP =? 0 then panic "kerneltrap: not from supervisor mode" else
  let* on := intr_get in
  if on : bool then panic "kerneltrap: interrupts enabled" else
  let* which_dev := devintr in
  if which_dev =? 0 then
    printf_ln "scause %p" [ALong scause] ;;
    let* sepc := csr h_sepc in
    let* stval := csr h_stval in
    printf_ln "sepc=%p stval=%p" [ALong sepc; ALong stval] ;;
    panic "kerneltrap"
  else
  let* cur := gets (fun m => k_cur (mc_k m)) in
  let restore := upd_hart (fun h => h_set_sstatus sstatus (h_set_sepc sepc h)) in
  match cur with
  | Some p =>
      let* x := in_kernel (getp p) in
      if (which_dev =? 2) && bool_decide (p_state x = RUNNING)
      then in_kernel (yield p) ;; restore ;; ret (Some p)
      else restore ;; ret None
  | None => restore ;; ret None
  end.

(** proc.c: forkret() *)
Definition forkret : T outcome :=
  let* p := in_kernel myproc in
  release (LProc p) ;;
  let* first := gets (fun m => k_first (mc_k m)) in
  (if first : bool then
     in_kernel (modify (k_set_first false)) ;;
     in_kernel (on_fs (fsinit ROOTDEV))
   else ret tt) ;;
  usertrapret.
End Trap.
