(* ===== verification/Boot.v ===== *)
(** * From reset to main() (kernel/start.c, and the set-up of devices: uartinit(),
    plicinit(), plicinithart(), kvminithart(), with the register accessors of riscv.h)

    start() runs in machine mode on every hart after entry.S: it sets up the control
    registers and the timer and enters main() in supervisor mode.  The functions that
    set up devices are lists of register writes, in order, with what the
    devices make of them. *)

From S2P Require Import Prelude Machine Mem Asm Trap.

Open Scope Z_scope.

#[local] Opaque store64 load64.

(** ** kernel/riscv.h *)

Definition MSTATUS_MPP_MASK : Z := Z.shiftl 3 11.
Definition MSTATUS_MPP_S : Z := Z.shiftl 1 11.
Definition MSTATUS_MIE : Z := Z.shiftl 1 3.
Definition SIE_SEIE : Z := Z.shiftl 1 9.
Definition SIE_STIE : Z := Z.shiftl 1 5.
Definition SIE_SSIE : Z := Z.shiftl 1 1.
Definition MIE_MTIE : Z := Z.shiftl 1 7.

Definition r_mhartid (c : rv) : Z := rv_csr c mhartid.
Definition r_mstatus (c : rv) : Z := rv_csr c mstatus.
Definition w_mstatus (x : Z) (c : rv) : rv := set_csr mstatus x c.
Definition w_mepc (x : Z) (c : rv) : rv := set_csr mepc x c.
Definition r_sie (c : rv) : Z := rv_csr c sie.
Definition w_sie (x : Z) (c : rv) : rv := set_csr sie x c.
Definition r_mie (c : rv) : Z := rv_csr c mie.
Definition w_mie (x : Z) (c : rv) : rv := set_csr mie x c.
Definition w_mtvec (x : Z) (c : rv) : rv := set_csr mtvec x c.
Definition w_medeleg (x : Z) (c : rv) : rv := set_csr medeleg x c.
Definition w_mideleg (x : Z) (c : rv) : rv := set_csr mideleg x c.
Definition w_pmpcfg0 (x : Z) (c : rv) : rv := set_csr pmpcfg0 x c.
Definition w_pmpaddr0 (x : Z) (c : rv) : rv := set_csr pmpaddr0 x c.
Definition w_satp (x : Z) (c : rv) : rv := set_csr satp x c.
Definition w_mscratch (x : Z) (c : rv) : rv := set_csr mscratch x c.
Definition w_tp (x : Z) (c : rv) : rv := set_reg tp x c.
Definition sfence_vma (c : rv) : rv := step (fun _ va => va) SFENCE_VMA c.

(** ** kernel/start.c *)

Definition CLINT : Z := 33554432.
Definition CLINT_MTIMECMP (hartid : Z) : Z := CLINT + 16384 + 8 * hartid.
Definition CLINT_MTIME : Z := CLINT + 49144.

(** A pointer dereference in machine mode. *)
Definition at64 (a : Z) (c : rv) : Z := load64 (rv_mem c) a.
Definition put64 (a v : Z) (c : rv) : rv := set_memory (store64 (rv_mem c) a v) c.

Definition interval : Z := 1000000.

Section Start.
(** The addresses of main() and timervec, and of timer_scratch, from the linker. *)
Variables main timervec_addr timer_scratch : Z.

(** [&timer_scratch[id][0]]; a row is five words. *)
Definition scratch_of (id : Z) : Z := timer_scratch + 40 * id.

Definition timerinit (c : rv) : rv :=
  let id := s32 (r_mhartid c) in
  let c := put64 (CLINT_MTIMECMP id) (u64 (at64 CLINT_MTIME c + interval)) c in
  let scratch := scratch_of id in
  let c := put64 (scratch + 24) (CLINT_MTIMECMP id) c in
  let c := put64 (scratch + 32) interval c in
  let c := w_mscratch scratch c in
  let c := w_mtvec timervec_addr c in
  let c := w_mstatus (Z.lor (r_mstatus c) MSTATUS_MIE) c in
  w_mie (Z.lor (r_mie c) MIE_MTIE) c.

Definition start (c : rv) : rv :=
  let x := r_mstatus c in
  let x := Z.land x (u64 (Z.lnot MSTATUS_MPP_MASK)) in
  let x := Z.lor x MSTATUS_MPP_S in
  let c := w_mstatus x c in
  let c := w_mepc main c in
  let c := w_satp 0 c in
  let c := w_medeleg 65535 c in
  let c := w_mideleg 65535 c in
  let c := w_sie (Z.lor (Z.lor (Z.lor (r_sie c) SIE_SEIE) SIE_STIE) SIE_SSIE) c in
  let c := w_pmpaddr0 18014398509481983 c in
  let c := w_pmpcfg0 15 c in
  let c := timerinit c in
  let id := s32 (r_mhartid c) in
  let c := w_tp (u64 id) c in
  step (fun _ va => va) MRET c.
End Start.

(** kernel/vm.c: the kernel's page table is installed. *)
Definition kvminithart (kernel_pagetable : Z) (c : rv) : rv :=
  sfence_vma (w_satp (MAKE_SATP kernel_pagetable) (sfence_vma c)).

(** ** What start() leaves *)

Lemma mret_to_supervisor x :
  mret_mode (Z.lor (Z.lor (Z.land x (u64 (Z.lnot MSTATUS_MPP_MASK))) MSTATUS_MPP_S) MSTATUS_MIE) = Supervisor.
Proof.
  unfold mret_mode. replace (Z.land _ 3) with 1; [done|]. apply Z.bits_inj'. intros n Hn.
  rewrite Z.land_spec, Z.shiftr_spec, !Z.lor_spec, Z.land_spec by lia.
  destruct (decide (n = 0)) as [->|H0]; [cbn; by rewrite andb_true_r, orb_true_r|].
  destruct (decide (n = 1)) as [->|H1]; [cbn; by rewrite andb_false_r|].
  replace (Z.testbit 3 n) with false; [|symmetry; apply Z.bits_above_log2; [lia|change (Z.log2 3) with 1; lia]].
  rewrite andb_false_r. apply Z.bits_above_log2; [lia|]. change (Z.log2 1) with 0. lia.
Qed.

(** The words of the hart's row are not the timer's registers. *)
Definition scratch_apart (timer_scratch : Z) : Prop :=
  0 <= timer_scratch /\ timer_scratch + 40 * NCPU < 2 ^ 64 /\ (timer_scratch + 40 * NCPU <= CLINT \/ CLINT + 65536 <= timer_scratch).

Lemma start_spec main tv ts c id :
  rv_csr c mhartid = id -> 0 <= id < NCPU -> scratch_apart ts ->
  let c' := start main tv ts c in
  rv_mode c' = Supervisor /\ rv_pc c' = main /\ rv_csr c' satp = 0 /\ rv_reg c' tp = id /\ rv_csr c' mtvec = tv /\
  rv_csr c' mscratch = scratch_of ts id /\ Z.testbit (rv_csr c' mie) 7 = true /\ rv_csr c' medeleg = 65535 /\ rv_csr c' mideleg = 65535 /\
  load64 (rv_mem c') (scratch_of ts id + 24) = CLINT_MTIMECMP id /\ load64 (rv_mem c') (scratch_of ts id + 32) = interval /\
  load64 (rv_mem c') (CLINT_MTIMECMP id) = u64 (load64 (rv_mem c) CLINT_MTIME + interval) /\
  (forall r, r <> tp -> rv_reg c' r = rv_reg c r).
Proof.
  intros Hid Hr (Hs1 & Hs2 & Hs3). cbv zeta. change NCPU with 8 in *.
  assert (s32 id = id) as Es by (apply s32_small; lia). assert (u64 id = id) as Eu by (apply u64_small; lia).
  assert (0 <= CLINT_MTIMECMP id < 2 ^ 64) as Hc by (unfold CLINT_MTIMECMP, CLINT; lia).
  assert (scratch_of ts id + 40 <= CLINT_MTIMECMP id \/ CLINT_MTIMECMP id + 8 <= scratch_of ts id) as Hd by (unfold scratch_of, CLINT_MTIMECMP, CLINT in *; lia).
  split; [apply mret_to_supervisor|]. split; [done|]. split; [done|].
  split; [change (u64 (s32 (rv_csr c mhartid)) = id); by rewrite Hid, Es|]. split; [done|].
  split; [change (scratch_of ts (s32 (rv_csr c mhartid)) = scratch_of ts id); by rewrite Hid, Es|].
  split; [change (Z.testbit (Z.lor (rv_csr c mie) MIE_MTIE) 7 = true); by rewrite Z.lor_spec, orb_true_r|].
  split; [done|]. split; [done|].
  change (rv_mem (start main tv ts c)) with
    (store64 (store64 (store64 (rv_mem c) (CLINT_MTIMECMP (s32 (rv_csr c mhartid))) (u64 (load64 (rv_mem c) CLINT_MTIME + interval)))
       (scratch_of ts (s32 (rv_csr c mhartid)) + 24) (CLINT_MTIMECMP (s32 (rv_csr c mhartid)))) (scratch_of ts (s32 (rv_csr c mhartid)) + 32) interval).
  rewrite Hid, Es. split; [|split; [|split]].
  - rewrite load64_store64_disj by lia. by apply load64_store64_same.
  - by apply load64_store64_same.
  - rewrite !load64_store64_disj by lia. apply load64_store64_same, u64_range.
  - intros r Hne. unfold start. cbn. by rewrite decide_False.
Qed.

(** C25. The clock ticks. start() enters main() in supervisor mode, without paging, with the
    hart's number in tp and interrupts delegated, on every hart; and from then on, whenever the timer interrupts -
    in machine mode, at the address that start() installed, with the hart's row of
    timer_scratch as timervec leaves it - timervec restores every register, sets the next
    interrupt one interval later, makes a supervisor software interrupt pending, returns to the
    interrupted code, and leaves the row ready for the next interrupt. *)
Theorem timer_ticks main tv ts c id c2 cmp
  (Hid : rv_csr c mhartid = id) (Hr : 0 <= id < NCPU) (Hs : scratch_apart ts)
  (Hm : rv_mode c2 = Machine) (Hok : regs_ok c2) (Hsc : rv_csr c2 mscratch = rv_csr (start main tv ts c) mscratch)
  (Hcmp : cmp = CLINT_MTIMECMP id)
  (Hrow : forall b, scratch_of ts id + 24 <= b < scratch_of ts id + 40 -> rd8 (rv_mem c2) b = rd8 (rv_mem (start main tv ts c)) b) :
  let c1 := start main tv ts c in let c3 := run (fun _ va => va) timervec c2 in
  rv_mode c1 = Supervisor /\ rv_pc c1 = main /\ rv_csr c1 satp = 0 /\ rv_reg c1 tp = id /\ rv_csr c1 mtvec = tv /\
  load64 (rv_mem c1) cmp = u64 (load64 (rv_mem c) CLINT_MTIME + interval) /\
  (forall r, rv_reg c3 r = rv_reg c2 r) /\ load64 (rv_mem c3) cmp = u64 (load64 (rv_mem c2) cmp + interval) /\
  Z.testbit (rv_csr c3 sip) 1 = true /\ rv_pc c3 = rv_csr c2 mepc /\ rv_mode c3 = mret_mode (rv_csr c2 mstatus) /\
  rv_csr c3 mscratch = rv_csr c1 mscratch /\
  (forall b, ~ (scratch_of ts id <= b < scratch_of ts id + 24) -> ~ (cmp <= b < cmp + 8) -> rd8 (rv_mem c3) b = rd8 (rv_mem c2) b).
Proof.
  cbv zeta. subst cmp. destruct (start_spec main tv ts c id Hid Hr Hs) as (A1 & A2 & A3 & A4 & A5 & A6 & _ & _ & _ & A10 & A11 & A12 & _).
  set (c1 := start main tv ts c) in *. clearbody c1. destruct Hs as (S1 & S2 & S3). change NCPU with 8 in *.
  assert (scratch_of ts id + 40 <= CLINT_MTIMECMP id \/ CLINT_MTIMECMP id + 8 <= scratch_of ts id) as Hd by (unfold scratch_of, CLINT_MTIMECMP, CLINT in *; lia).
  destruct (timervec_spec (fun _ va => va) c2 (scratch_of ts id) (CLINT_MTIMECMP id) interval) as (B1 & B2 & B3 & B4 & B5 & B6 & B7); try done.
  - by rewrite Hsc.
  - unfold scratch_of. lia.
  - unfold scratch_of. lia.
  - unfold CLINT_MTIMECMP, CLINT. lia.
  - unfold CLINT_MTIMECMP, CLINT. lia.
  - rewrite <- A10. apply load64_ext. intros b Hb. apply Hrow. lia.
  - rewrite <- A11. apply load64_ext. intros b Hb. apply Hrow. lia.
Qed.

Definition demo_reset : rv := Rv (fun _ => 0) (fun x => match x with mhartid => 3 | _ => 0 end) Machine 0 ∅.
Abbreviation demo_started := (start 2147484000 2147485000 2147500000 demo_reset).

Lemma mem_set_mode md c : rv_mem (set_mode md c) = rv_mem c.
Proof. done. Qed.

Lemma csr_set_mode md c x : rv_csr (set_mode md c) x = rv_csr c x.
Proof. done. Qed.

Lemma reg_set_mode md c r : rv_reg (set_mode md c) r = rv_reg c r.
Proof. done. Qed.

Lemma timer_ticks_witness :
  let c1 := demo_started in let c2 := set_mode Machine c1 in let c3 := run (fun _ va => va) timervec c2 in
  rv_mode c1 = Supervisor /\ load64 (rv_mem c1) (CLINT_MTIMECMP 3) = 1000000 /\
  load64 (rv_mem c3) (CLINT_MTIMECMP 3) = u64 (load64 (rv_mem c2) (CLINT_MTIMECMP 3) + interval) /\ rv_reg c3 tp = 3.
Proof.
  destruct (timer_ticks 2147484000 2147485000 2147500000 demo_reset 3 (set_mode Machine demo_started) (CLINT_MTIMECMP 3))
    as (A1 & _ & _ & A4 & _ & A6 & A7 & A8 & _).
  - reflexivity.
  - vm_compute. split; [discriminate|done].
  - split; [lia|]. split; [done|]. right. vm_compute. discriminate.
  - reflexivity.
  - intros r. destruct r; vm_compute; split; done.
  - by rewrite csr_set_mode.
  - reflexivity.
  - intros b _. by rewrite mem_set_mode.
  - cbv zeta. split; [exact A1|]. split; [rewrite A6; by vm_compute|]. split; [exact A8|]. rewrite A7, reg_set_mode. exact A4.
Defined.

(** ** kernel/uart.c *)

Definition IER : Z := 1.
Definition IER_RX_ENABLE : Z := Z.shiftl 1 0.
Definition IER_TX_ENABLE : Z := Z.shiftl 1 1.
Definition FCR : Z := 2.
Definition FCR_FIFO_ENABLE : Z := Z.shiftl 1 0.
Definition FCR_FIFO_CLEAR : Z := Z.shiftl 3 1.
Definition LCR : Z := 3.
Definition LCR_EIGHT_BITS : Z := Z.shiftl 3 0.
Definition LCR_BAUD_LATCH : Z := Z.shiftl 1 7.

(** [WriteReg(reg, v)], as register and value. *)
Definition uartinit : list (Z * Z) := [
  (* disable interrupts *)
  (IER, 0);
  (* special mode to set baud rate *)
  (LCR, LCR_BAUD_LATCH);
  (* LSB and MSB for baud rate of 38.4K *)
  (0, 3);
  (1, 0);
  (* leave set-baud mode, and set word length to 8 bits, no parity *)
  (LCR, LCR_EIGHT_BITS);
  (* reset and enable FIFOs *)
  (FCR, Z.lor FCR_FIFO_ENABLE FCR_FIFO_CLEAR);
  (* enable transmit and receive interrupts *)
  (IER, Z.lor IER_TX_ENABLE IER_RX_ENABLE)].

(** The registers of a 16550 that can be written: registers 0 and 1 are the
    divisor while bit 7 of the line control register is set. *)
Record uart_dev := UartDev { ud_ier : Z; ud_lcr : Z; ud_fcr : Z; ud_dll : Z; ud_dlm : Z; ud_sent : list Z }.
Definition uart_write (d : uart_dev) (x : Z * Z) : uart_dev :=
  let '(r, v) := x in
  let latch := Z.testbit (ud_lcr d) 7 in
  if r =? 0 then
    if latch then UartDev (ud_ier d) (ud_lcr d) (ud_fcr d) v (ud_dlm d) (ud_sent d)
    else UartDev (ud_ier d) (ud_lcr d) (ud_fcr d) (ud_dll d) (ud_dlm d) (ud_sent d ++ [v])
  else if r =? 1 then
    if latch then UartDev (ud_ier d) (ud_lcr d) (ud_fcr d) (ud_dll d) v (ud_sent d)
    else UartDev v (ud_lcr d) (ud_fcr d) (ud_dll d) (ud_dlm d) (ud_sent d)
  else if r =? 2 then UartDev (ud_ier d) (ud_lcr d) v (ud_dll d) (ud_dlm d) (ud_sent d)
  else if r =? 3 then UartDev (ud_ier d) v (ud_fcr d) (ud_dll d) (ud_dlm d) (ud_sent d)
  else d.

(** Whatever state the UART was in, uartinit() sends nothing and leaves it with both
    interrupts on, 8 bits, its FIFOs on and the divisor of 38.4K baud. *)
Lemma uartinit_state d :
  fold_left uart_write uartinit d = UartDev 3 3 7 3 0 (ud_sent d).
Proof.
  change (fold_left uart_write uartinit d) with (fold_left uart_write (tail uartinit) (uart_write d (IER, 0))).
  assert (ud_sent (uart_write d (IER, 0)) = ud_sent d) as <- by (unfold uart_write; by destruct (Z.testbit (ud_lcr d) 7)).
  by destruct (uart_write d (IER, 0)).
Qed.

(** ** kernel/plic.c *)

Definition PLIC_SENABLE (hart : Z) : Z := PLIC + 8320 + hart * 256.
Definition PLIC_SPRIORITY (hart : Z) : Z := PLIC + 2101248 + hart * 8192.

(** 32-bit register writes. *)
Definition plicinit : list (Z * Z) := [(PLIC + UART0_IRQ * 4, 1); (PLIC + VIRTIO0_IRQ * 4, 1)].
Definition plicinithart (hart : Z) : list (Z * Z) :=
  [(PLIC_SENABLE hart, Z.lor (Z.shiftl 1 UART0_IRQ) (Z.shiftl 1 VIRTIO0_IRQ)); (PLIC_SPRIORITY hart, 0)].

Definition mmio_write (f : Z -> Z) (x : Z * Z) : Z -> Z := fun a => if a =? x.1 then x.2 else f a.

(** A source interrupts a hart when it is enabled for it and its priority is above
    the hart's threshold. *)
Definition delivered (f : Z -> Z) (hart irq : Z) : bool :=
  Z.testbit (f (PLIC_SENABLE hart)) irq && (f (PLIC_SPRIORITY hart) <? f (PLIC + irq * 4)).

(** After plicinit() and plicinithart(), from reset, exactly the UART and the disk interrupt
    the hart. *)
Lemma plic_delivers hart irq :
  0 <= hart < NCPU -> 1 <= irq < 1024 ->
  delivered (fold_left mmio_write (plicinit ++ plicinithart hart) (fun _ => 0)) hart irq = (irq =? UART0_IRQ) || (irq =? VIRTIO0_IRQ).
Proof.
  intros Hh Hi. change NCPU with 8 in Hh. unfold delivered, mmio_write, plicinit, plicinithart, PLIC_SENABLE, PLIC_SPRIORITY.
  cbn [app fold_left fst snd]. change PLIC with 201326592. change UART0_IRQ with 10. change VIRTIO0_IRQ with 1.
  change (Z.lor (Z.shiftl 1 10) (Z.shiftl 1 1)) with 1026.
  rewrite (proj2 (Z.eqb_neq _ _)) by lia. rewrite !Z.eqb_refl.
  rewrite !(proj2 (Z.eqb_neq (201326592 + irq * 4) _)) by lia.
  destruct (Z.eqb_spec irq 10) as [->|H10]; [done|]. destruct (Z.eqb_spec irq 1) as [->|H1]; [done|].
  replace (Z.testbit 1026 irq) with false; [done|]. symmetry. change 1026 with (Z.lor (2 ^ 10) (2 ^ 1)).
  rewrite Z.lor_spec, !Z.pow2_bits_false by lia. done.
Qed.

(** ** kernel/main.c *)

Inductive boot_call :=
  | Consoleinit | Printfinit | Printf | Kinit | Kvminit | Kvminithart | Procinit | Trapinit | Trapinithart
  | Plicinit | Plicinithart | Binit | Iinit | Fileinit | Virtio_disk_init | Userinit
  | SetStarted                     (* __sync_synchronize(); started = 1 *)
  | AwaitStarted.                  (* while(started == 0) ; __sync_synchronize() *)

#[export] Instance boot_call_eq_dec : EqDecision boot_call.
Proof. solve_decision. Defined.

(** main() up to scheduler(). *)
Definition main_calls (cpuid : Z) : list boot_call :=
  if cpuid =? 0 then
    [Consoleinit; Printfinit; Printf; Printf; Printf; Kinit; Kvminit; Kvminithart; Procinit; Trapinit; Trapinithart;
     Plicinit; Plicinithart; Binit; Iinit; Fileinit; Virtio_disk_init; Userinit; SetStarted]
  else [AwaitStarted; Printf; Kvminithart; Trapinithart; Plicinithart].

(** What each hart has still to do, the variable [started], and what was done, last first. *)
Record boot := Boot { b_left : Z -> list boot_call; b_started : bool; b_done : list (Z * boot_call) }.
Definition boot_init : boot := Boot main_calls false [].

(** Some hart makes its next call; AwaitStarted spins until [started] is set. *)
Inductive boot_step : boot -> boot -> Prop :=
  | boot_next s i x t :
      b_left s i = x :: t -> (x = AwaitStarted -> b_started s = true) ->
      boot_step s (Boot (fun j => if decide (j = i) then t else b_left s j)
                        (match x with SetStarted => true | _ => b_started s end) ((i, x) :: b_done s)).

Definition boot_reach (s : boot) : Prop := rtc boot_step boot_init s.

Record boot_ok (s : boot) : Prop := BootOk {
  bo_all : forall i, exists d, main_calls i = d ++ b_left s i /\ forall x, x ∈ d -> (i, x) ∈ b_done s;
  bo_started : b_started s = true -> b_left s 0 = [];
  bo_waits : forall i, i <> 0 -> b_started s = false -> b_left s i = main_calls i
}.

Lemma boot_step_ok s s' : boot_ok s -> boot_step s s' -> boot_ok s'.
Proof.
  intros [Ha Hs Hw] Hstep. inversion Hstep as [? i x t El Hx]; subst. constructor; cbn [b_left b_started b_done].
  - intros j. destruct (Ha j) as (d & E & Hd). case_decide as Ej.
    + subst j. exists (d ++ [x]). rewrite El in E. rewrite <- app_assoc. split; [done|]. intros y [Hy|Hy]%elem_of_app.
      * right. by apply Hd.
      * apply list_elem_of_singleton in Hy as ->. by left.
    + exists d. split; [done|]. intros y Hy. right. by apply Hd.
  - intros Hst. destruct (decide (0 = i)) as [<-|Hne].
    + destruct (Ha 0) as (d & E & _). rewrite El in E. destruct (decide (x = SetStarted)) as [->|Hnx].
      * change (main_calls 0) with (removelast (main_calls 0) ++ [SetStarted]) in E. destruct t as [|y t]; [done|]. exfalso.
        assert (SetStarted ∈ removelast (main_calls 0)) as Hin.
        { change (SetStarted :: y :: t) with ([SetStarted] ++ y :: t) in E. rewrite (app_removelast_last (l := y :: t) y) in E by done.
          rewrite !app_assoc in E. apply app_inj_tail in E as [-> _]. rewrite !elem_of_app. left. right. by left. }
        by apply (bool_decide_pack _) in Hin.
      * assert (b_started s = true) as Hb by (destruct x; done). specialize (Hs Hb). rewrite El in Hs. done.
    + apply Hs. destruct x; try done. exfalso. destruct (Ha i) as (d & E & _). rewrite El in E. unfold main_calls in E.
      rewrite (proj2 (Z.eqb_neq i 0)) in E by done.
      assert (SetStarted ∈ [AwaitStarted; Printf; Kvminithart; Trapinithart; Plicinithart]) as Hin by (rewrite E; apply elem_of_app; right; by left).
      repeat (apply elem_of_cons in Hin as [|Hin]; [done|]). by apply not_elem_of_nil in Hin.
  - intros j Hj Hst. assert (b_started s = false) as Hb by (destruct x; done). specialize (Hw j Hj Hb). case_decide as Ej; [|done]. subst j.
    rewrite El in Hw. unfold main_calls in Hw. rewrite (proj2 (Z.eqb_neq i 0)) in Hw by done. injection Hw as -> _.
    by rewrite Hx in Hb.
Qed.

Lemma boot_inv s : boot_reach s -> boot_ok s /\ forall j z, (j, z) ∈ b_done s -> j <> 0 -> b_started s = true.
Proof.
  revert s. apply rtc_ind_r.
  - split; [|by intros j z ?%not_elem_of_nil]. constructor; [|done|done]. intros j. exists []. split; [done|]. by intros z ?%not_elem_of_nil.
  - intros s1 s2 _ Hst [Hok Hl]. split; [by eapply boot_step_ok|]. destruct Hok as [_ _ Hw].
    inversion Hst as [? k u t El Hu]; subst. intros j z Hin Hj. cbn [b_started b_done] in *. apply elem_of_cons in Hin as [[= -> ->]|Hin].
    + destruct (b_started s1) eqn:Eb; [by destruct u|]. specialize (Hw _ Hj eq_refl). rewrite El in Hw. unfold main_calls in Hw.
      rewrite (proj2 (Z.eqb_neq k 0)) in Hw by done. injection Hw as -> _. by specialize (Hu eq_refl).
    + specialize (Hl j z Hin Hj). by destruct u.
Qed.

(** In every interleaving of the harts, what another hart does - after its wait - it does
    after hart 0 has made all its calls. *)
Lemma boot_order s i x y :
  boot_reach s -> (i, x) ∈ b_done s -> i <> 0 -> y ∈ main_calls 0 -> (0, y) ∈ b_done s.
Proof.
  intros [[Ha Hs _] Hlog]%boot_inv Hx Hi Hy.
  destruct (Ha 0) as (d & E & Hd). rewrite (Hs (Hlog i x Hx Hi)), app_nil_r in E. apply Hd. by rewrite <- E.
Qed.
