(* ===== verification/Keeps.v ===== *)
(** * What code leaves alone

    A part of the kernel's state, given by a projection, that no run of a
    computation changes.  The code of fs.c, vm.c and kalloc.c runs on its own
    part of the state through a lens, so it keeps everything outside; the rest
    follows the structure of the code.  Which updates a projection is blind to is
    stated by instances. *)

From S2P Require Import Prelude Machine Mem Kalloc Sleeplock Store FsDisk CString Printf Fs Vm Kernel File Proc Console Exec Sysfile Syscall.

Open Scope Z_scope.

Section Frames.
Context {St X : Type} (f : kernel St -> X).

Class FrameSub := {
  frame_fs (s : fstate St umem) k : f (lput s k) = f k;
  frame_mem (m : kmem) k : f (lput m k) = f k;
  frame_store (s : St) k : f (lput s k) = f k
}.
Class FrameProcs := frame_procs v k : f (k_set_procs v k) = f k.
Class FrameFiles := frame_files v k : f (k_set_files v k) = f k.
Class FramePipes := frame_pipes v k : f (k_set_pipes v k) = f k.
Class FrameCons := frame_cons v k : f (k_set_cons v k) = f k.
Class FrameUart := frame_uart v k : f (k_set_uart v k) = f k.
Class FrameMisc := {
  frame_nextpid v k : f (k_set_nextpid v k) = f k;
  frame_ticks v k : f (k_set_ticks v k) = f k
}.
End Frames.

#[export] Instance cur_sub {St} : FrameSub (@k_cur St).
Proof. by split. Qed.
#[export] Instance cur_procs {St} : FrameProcs (@k_cur St).
Proof. done. Qed.
#[export] Instance cur_files {St} : FrameFiles (@k_cur St).
Proof. done. Qed.
#[export] Instance cur_pipes {St} : FramePipes (@k_cur St).
Proof. done. Qed.
#[export] Instance cur_cons {St} : FrameCons (@k_cur St).
Proof. done. Qed.
#[export] Instance cur_uart {St} : FrameUart (@k_cur St).
Proof. done. Qed.
#[export] Instance cur_misc {St} : FrameMisc (@k_cur St).
Proof. by split. Qed.

#[export] Instance procs_sub {St} : FrameSub (@k_procs St).
Proof. by split. Qed.
#[export] Instance procs_files {St} : FrameFiles (@k_procs St).
Proof. done. Qed.

Section Keeps.
Context {S X : Type} (f : S -> X).

Definition keeps {A} (m : M S A) : Prop := forall w, wlp m (fun _ w' => f (user w') = f (user w)) w.

Lemma keeps_run {A} (m : M S A) w a w' : keeps m -> m w = Ret (a, w') -> f (user w') = f (user w).
Proof. intros Hm E. exact (wlp_run _ _ _ _ _ (Hm w) E). Qed.

Lemma keeps_wlp {A} (m : M S A) w0 w :
  keeps m -> f (user w) = f (user w0) -> wlp m (fun _ w' => f (user w') = f (user w0)) w.
Proof. intros Hm H0. eapply wlp_mono; [apply Hm|]. cbn. congruence. Qed.

Lemma keeps_bind {A B} (m : M S A) (k : A -> M S B) : keeps m -> (forall a, keeps (k a)) -> keeps (bind m k).
Proof. intros Hm Hk w. apply wlp_bind. eapply wlp_mono; [apply Hm|]. intros a w' E. by apply keeps_wlp. Qed.

Lemma keeps_ret {A} (a : A) : keeps (ret a).
Proof. done. Qed.
Lemma keeps_gets {A} (g : S -> A) : keeps (gets g).
Proof. done. Qed.
Lemma keeps_the {A} (o : option A) : keeps (the o).
Proof. intros w. by destruct o. Qed.
Lemma keeps_panic {A} msg : @keeps A (panic msg).
Proof. done. Qed.
Lemma keeps_emit e : keeps (emit e).
Proof. done. Qed.
Lemma keeps_acquire l : keeps (acquire l).
Proof. intros w. by apply wlp_acquire. Qed.
Lemma keeps_release l : keeps (release l).
Proof. intros w. by apply wlp_release. Qed.
Lemma keeps_initlock l : keeps (initlock l).
Proof. done. Qed.
Lemma keeps_sleep {A} c l : @keeps A (sleep c l).
Proof. intros w. apply wlp_sleep. Qed.
Lemma keeps_for_each {A} (l : list A) body : (forall a, keeps (body a)) -> keeps (for_each l body).
Proof.
  intros Hb w. apply wlp_for_each with (I := fun w' => f (user w') = f (user w)); [done| |done].
  intros a w' _ Hw. by apply keeps_wlp.
Qed.
Lemma keeps_iter {A B} n (body : A -> M S (A + B)) a : (forall a, keeps (body a)) -> keeps (iter n body a).
Proof.
  intros Hb w. apply wlp_iter with (I := fun _ w' => f (user w') = f (user w)); [done|]. intros a' w' Hw.
  eapply wlp_mono; [by apply keeps_wlp|]. by intros [?|?] w''.
Qed.

End Keeps.

(** Code that runs through a lens keeps what it keeps of its own part. *)
Lemma keeps_zoom {S T X A} `{Lens S T} (f : T -> X) (g : S -> X) (m : M T A) :
  (forall s, g s = f (lget s)) -> (forall t s, lget (lput t s) = t) -> keeps f m -> keeps g (zoom m).
Proof.
  intros Hg Hl Hm w. specialize (Hm (World (held w) (trace w) (lget (user w)))). unfold wlp, zoom in *.
  destruct (m _) as [[a w']| | |]; [|done..]. cbn in *. by rewrite !Hg, Hl.
Qed.

Section KeepsKernel.
Context {St X : Type} `{BlockStore St} (f : kernel St -> X).

Lemma keeps_on_mem {A} `{!FrameSub f} (m : M kmem A) : keeps f (on_mem m).
Proof. intros w. apply wlp_zoom. intros. apply frame_mem, _. Qed.
Lemma keeps_on_fs {A} `{!FrameSub f} (m : M (fstate St umem) A) : keeps f (on_fs m).
Proof. intros w. apply wlp_zoom. intros. apply frame_fs, _. Qed.
Lemma keeps_begin_op `{!FrameSub f} : keeps f kbegin_op.
Proof. intros w. apply wlp_zoom. intros. apply frame_store, _. Qed.
Lemma keeps_end_op `{!FrameSub f} : keeps f kend_op.
Proof. intros w. apply wlp_zoom. intros. apply frame_store, _. Qed.
Lemma keeps_setp `{!FrameProcs f} i g : keeps f (setp i g).
Proof. intros w. apply wlp_modify, frame_procs, _. Qed.
Lemma keeps_setf `{!FrameFiles f} i g : keeps f (setf i g).
Proof. intros w. apply wlp_modify, frame_files, _. Qed.
Lemma keeps_setpipe `{!FramePipes f} i g : keeps f (setpipe i g).
Proof. intros w. apply wlp_modify, frame_pipes, _. Qed.
Lemma keeps_set_pipes `{!FramePipes f} g : keeps f (modify (fun k => k_set_pipes (g k) k)).
Proof. intros w. apply wlp_modify, frame_pipes, _. Qed.
Lemma keeps_upd_cons `{!FrameCons f} g : keeps f (upd_cons g).
Proof. intros w. apply wlp_modify, frame_cons, _. Qed.
Lemma keeps_upd_uart `{!FrameUart f} g : keeps f (upd_uart g).
Proof. intros w. apply wlp_modify, frame_uart, _. Qed.
Lemma keeps_set_nextpid `{!FrameMisc f} v : keeps f (modify (k_set_nextpid v)).
Proof. intros w. apply wlp_modify, frame_nextpid, _. Qed.
Lemma keeps_set_ticks `{!FrameMisc f} g : keeps f (modify (fun k => k_set_ticks (g k) k)).
Proof. intros w. apply wlp_modify, frame_ticks, _. Qed.
End KeepsKernel.

Create HintDb keeps.
#[export] Hint Resolve keeps_ret keeps_gets keeps_the keeps_panic keeps_emit keeps_acquire keeps_release keeps_initlock
  keeps_sleep : keeps.
#[export] Hint Extern 1 (keeps _ (on_mem _)) => apply keeps_on_mem; apply _ : keeps.
#[export] Hint Extern 1 (keeps _ (on_fs _)) => apply keeps_on_fs; apply _ : keeps.
#[export] Hint Extern 1 (keeps _ kbegin_op) => apply keeps_begin_op; apply _ : keeps.
#[export] Hint Extern 1 (keeps _ kend_op) => apply keeps_end_op; apply _ : keeps.
#[export] Hint Extern 1 (keeps _ (setp _ _)) => apply keeps_setp; apply _ : keeps.
#[export] Hint Extern 1 (keeps _ (setf _ _)) => apply keeps_setf; apply _ : keeps.
#[export] Hint Extern 1 (keeps _ (setpipe _ _)) => apply keeps_setpipe; apply _ : keeps.
#[export] Hint Extern 1 (keeps _ (modify (fun k => k_set_pipes _ k))) => apply keeps_set_pipes; apply _ : keeps.
#[export] Hint Extern 1 (keeps _ (upd_cons _)) => apply keeps_upd_cons; apply _ : keeps.
#[export] Hint Extern 1 (keeps _ (upd_uart _)) => apply keeps_upd_uart; apply _ : keeps.
#[export] Hint Extern 1 (keeps _ (modify (k_set_nextpid _))) => apply keeps_set_nextpid; apply _ : keeps.
#[export] Hint Extern 1 (keeps _ (modify (fun k => k_set_ticks _ k))) => apply keeps_set_ticks; apply _ : keeps.

#[export] Hint Extern 0 (FrameSub _) => apply _ : keeps.
#[export] Hint Extern 0 (FrameProcs _) => apply _ : keeps.

Ltac keeps_step :=
  lazymatch goal with
  | |- keeps _ (bind _ _) => apply keeps_bind; [|intros ?]
  | |- keeps _ (for_each _ _) => apply keeps_for_each; intros ?
  | |- keeps _ (iter _ _ _) => apply keeps_iter; intros ?
  | |- keeps _ (match ?x with _ => _ end) => destruct x eqn:?
  | |- keeps _ (let x := _ in _) => cbv zeta
  | |- keeps _ _ => solve [eauto with keeps nocore]
  end.
Ltac keeps := cbv beta; repeat (keeps_step; cbv beta).

Lemma keeps_printf {S X} (f : S -> X) fmt ap : keeps f (printf fmt ap).
Proof. unfold printf. keeps. Qed.
#[export] Hint Resolve keeps_printf : keeps.

(** ** The kernel, file by file *)

Section Kernel.
Context {St X : Type} `{BlockStore St} (f : kernel St -> X) `{!FrameSub f}.
Variables kend trampoline : Z.

Lemma keeps_getp p : keeps f (getp p).
Proof. unfold getp. keeps. Qed.
Lemma keeps_getf i : keeps f (getf i).
Proof. unfold getf. keeps. Qed.
Lemma keeps_getpipe i : keeps f (getpipe i).
Proof. unfold getpipe. keeps. Qed.
Lemma keeps_myproc : keeps f myproc.
Proof. unfold myproc. keeps. Qed.
#[local] Hint Resolve keeps_getp keeps_getf keeps_getpipe keeps_myproc : keeps.

Lemma keeps_killed p : keeps f (killed p).
Proof. unfold killed. keeps. Qed.
Lemma keeps_tf_get p off : keeps f (tf_get p off).
Proof. unfold tf_get. keeps. Qed.
Lemma keeps_tf_set p off v : keeps f (tf_set p off v).
Proof. unfold tf_set. keeps. Qed.
Lemma keeps_copyout_cur va bs : keeps f (copyout_cur va bs).
Proof. unfold copyout_cur. keeps. Qed.
Lemma keeps_copyin_cur va n : keeps f (copyin_cur va n).
Proof. unfold copyin_cur. keeps. Qed.
#[local] Hint Resolve keeps_killed keeps_tf_get keeps_tf_set keeps_copyout_cur keeps_copyin_cur : keeps.

Lemma keeps_proc_pagetable p : keeps f (proc_pagetable kend trampoline p).
Proof. unfold proc_pagetable. keeps. Qed.
Lemma keeps_proc_freepagetable pt sz : keeps f (proc_freepagetable kend pt sz).
Proof. unfold proc_freepagetable. keeps. Qed.
#[local] Hint Resolve keeps_proc_pagetable keeps_proc_freepagetable : keeps.

Lemma keeps_load_program ip pt elf : keeps f (load_program kend ip pt elf).
Proof. unfold load_program, load_step, loadseg, loadseg_step. keeps. Qed.
Lemma keeps_push_args pt base argv sp us : keeps f (push_args pt base argv sp us).
Proof. revert sp us. induction argv as [|s argv IH]; intros sp us; cbn [push_args]; keeps. Qed.
Lemma keeps_exec_bad pt sz ip : keeps f (exec_bad kend pt sz ip).
Proof. unfold exec_bad. keeps. Qed.
End Kernel.

#[export] Hint Resolve keeps_getp keeps_getf keeps_getpipe keeps_myproc keeps_killed keeps_tf_get keeps_tf_set keeps_copyout_cur
  keeps_copyin_cur keeps_proc_pagetable keeps_proc_freepagetable keeps_load_program keeps_push_args keeps_exec_bad : keeps.

(** ** The system calls *)

Section Calls.
Context {St X : Type} `{BlockStore St} (f : kernel St -> X).
Context `{!FrameSub f, !FrameProcs f, !FrameFiles f, !FramePipes f, !FrameCons f, !FrameUart f, !FrameMisc f}.
Variables kend trampoline forkret_addr : Z.
Variable stat_pad : list Z.

Lemma keeps_wakeup c : keeps f (wakeup c).
Proof. unfold wakeup. keeps. Qed.
#[local] Hint Resolve keeps_wakeup : keeps.

(** file.c, pipe.c *)
Lemma keeps_pipeclose pi w : keeps f (pipeclose kend pi w).
Proof. unfold pipeclose. keeps. Qed.
#[local] Hint Resolve keeps_pipeclose : keeps.
Lemma keeps_fileclose i : keeps f (fileclose kend i).
Proof. unfold fileclose. keeps. Qed.
Lemma keeps_filealloc : keeps f filealloc.
Proof. unfold filealloc. keeps. Qed.
Lemma keeps_filedup i : keeps f (filedup i).
Proof. unfold filedup. keeps. Qed.
#[local] Hint Resolve keeps_fileclose keeps_filealloc keeps_filedup : keeps.
Lemma keeps_pipealloc : keeps f (pipealloc kend).
Proof. unfold pipealloc, pipealloc_bad. keeps. Qed.
Lemma keeps_pipewrite pi addr n : keeps f (pipewrite pi addr n).
Proof. unfold pipewrite, pipewrite_step, pipe_store. keeps. Qed.
Lemma keeps_piperead pi addr n : keeps f (piperead pi addr n).
Proof. unfold piperead, piperead_step, pipe_take. keeps. Qed.
#[local] Hint Resolve keeps_pipealloc keeps_pipewrite keeps_piperead : keeps.

(** uart.c, console.c *)
Lemma keeps_read_LSR : keeps f read_LSR.
Proof. unfold read_LSR. keeps. Qed.
Lemma keeps_read_RHR : keeps f read_RHR.
Proof. unfold read_RHR. keeps. Qed.
#[local] Hint Resolve keeps_read_LSR keeps_read_RHR : keeps.
Lemma keeps_uartputc_sync c : keeps f (uartputc_sync c).
Proof. unfold uartputc_sync, uart_wait, write_THR. keeps. Qed.
Lemma keeps_uartstart : keeps f uartstart.
Proof. unfold uartstart, uartstart_step, write_THR. keeps. Qed.
#[local] Hint Resolve keeps_uartputc_sync keeps_uartstart : keeps.
Lemma keeps_uartputc c : keeps f (uartputc c).
Proof. unfold uartputc. keeps. Qed.
Lemma keeps_uartgetc : keeps f uartgetc.
Proof. unfold uartgetc. keeps. Qed.
Lemma keeps_consputc c : keeps f (consputc c).
Proof. unfold consputc. keeps. Qed.
Lemma keeps_getchar_from us a : keeps f (getchar_from us a).
Proof. unfold getchar_from. keeps. Qed.
Lemma keeps_putchar_to ud a c : keeps f (putchar_to ud a c).
Proof. unfold putchar_to. keeps. Qed.
#[local] Hint Resolve keeps_uartputc keeps_uartgetc keeps_consputc keeps_getchar_from keeps_putchar_to : keeps.
Lemma keeps_consolewrite us a n : keeps f (consolewrite us a n).
Proof. unfold consolewrite, consolewrite_step. keeps. Qed.
Lemma keeps_consoleread ud a n : keeps f (consoleread ud a n).
Proof. unfold consoleread, consoleread_step. keeps. Qed.
#[local] Hint Resolve keeps_consolewrite keeps_consoleread : keeps.
Lemma keeps_procdump : keeps f procdump.
Proof. unfold procdump, printf_ln, printf. keeps. Qed.
#[local] Hint Resolve keeps_procdump : keeps.
Lemma keeps_consoleintr c : keeps f (consoleintr c).
Proof. unfold consoleintr, killline_step. keeps. Qed.
#[local] Hint Resolve keeps_consoleintr : keeps.
Lemma keeps_uartintr : keeps f uartintr.
Proof. unfold uartintr, uartintr_step. keeps. Qed.

Lemma keeps_filestat i addr : keeps f (filestat stat_pad i addr).
Proof. unfold filestat. keeps. Qed.
Lemma keeps_dv_read major read u addr n : dv_read (devsw major) = Some read -> keeps f (read u addr n).
Proof. unfold devsw. destruct (major =? CONSOLE); intros [= <-]. keeps. Qed.
Lemma keeps_dv_write major write u addr n : dv_write (devsw major) = Some write -> keeps f (write u addr n).
Proof. unfold devsw. destruct (major =? CONSOLE); intros [= <-]. keeps. Qed.
#[local] Hint Resolve keeps_dv_read keeps_dv_write : keeps.
Lemma keeps_fileread i addr n : keeps f (fileread devsw i addr n).
Proof. unfold fileread. keeps. Qed.
Lemma keeps_filewrite i addr n : keeps f (filewrite devsw i addr n).
Proof. unfold filewrite, filewrite_step. keeps. Qed.
#[local] Hint Resolve keeps_uartintr keeps_filestat keeps_fileread keeps_filewrite : keeps.

(** proc.c, exec.c *)
Lemma keeps_freeproc p : keeps f (freeproc kend p).
Proof. unfold freeproc. keeps. Qed.
Lemma keeps_allocpid : keeps f allocpid.
Proof. unfold allocpid. keeps. Qed.
Lemma keeps_set_name p s : keeps f (set_name p s).
Proof. unfold set_name. keeps. Qed.
#[local] Hint Resolve keeps_freeproc keeps_allocpid keeps_set_name : keeps.
Lemma keeps_allocproc : keeps f (allocproc kend trampoline forkret_addr).
Proof. unfold allocproc, allocproc_step. keeps. Qed.
#[local] Hint Resolve keeps_allocproc : keeps.
Lemma keeps_growproc n : keeps f (growproc kend n).
Proof. unfold growproc. keeps. Qed.
Lemma keeps_fork : keeps f (fork kend trampoline forkret_addr).
Proof. unfold fork. keeps. Qed.
Lemma keeps_reparent p : keeps f (reparent p).
Proof. unfold reparent, wakeup_proc. keeps. Qed.
Lemma keeps_sched p : keeps f (sched p).
Proof.
  intros w. unfold wlp, sched. destruct (negb _); [done|]. destruct (negb _); [done|]. destruct (k_procs (user w) !! p); [|done].
  by case_bool_decide.
Qed.
#[local] Hint Resolve keeps_growproc keeps_fork keeps_reparent keeps_sched : keeps.
Lemma keeps_exit st : keeps f (exit kend st).
Proof. unfold exit, wakeup_proc. keeps. Qed.
Lemma keeps_wait addr : keeps f (wait kend addr).
Proof. unfold wait, wait_scan, wait_step. keeps. Qed.
Lemma keeps_kill pid : keeps f (kill pid).
Proof. unfold kill, kill_step. keeps. Qed.
Lemma keeps_setkilled p : keeps f (setkilled p).
Proof. unfold setkilled. keeps. Qed.
Lemma keeps_exec path argv : keeps f (exec kend trampoline path argv).
Proof. unfold exec, exec_commit. keeps. Qed.
Lemma keeps_clockintr : keeps f clockintr.
Proof. unfold clockintr. keeps. Qed.
#[local] Hint Resolve keeps_exit keeps_wait keeps_kill keeps_setkilled keeps_exec : keeps.

(** sysfile.c *)
Lemma keeps_argraw n : keeps f (argraw n).
Proof. unfold argraw. keeps. Qed.
#[local] Hint Resolve keeps_argraw : keeps.
Lemma keeps_argint n : keeps f (argint n).
Proof. unfold argint. keeps. Qed.
Lemma keeps_argaddr n : keeps f (argaddr n).
Proof. unfold argaddr. keeps. Qed.
Lemma keeps_fetchstr a n : keeps f (fetchstr a n).
Proof. unfold fetchstr. keeps. Qed.
Lemma keeps_fetchaddr a : keeps f (fetchaddr a).
Proof. unfold fetchaddr. keeps. Qed.
#[local] Hint Resolve keeps_argint keeps_argaddr keeps_fetchstr keeps_fetchaddr : keeps.
Lemma keeps_argstr n max : keeps f (argstr n max).
Proof. unfold argstr. keeps. Qed.
Lemma keeps_argfd n : keeps f (argfd n).
Proof. unfold argfd. keeps. Qed.
Lemma keeps_set_fd p fd v : keeps f (set_fd p fd v).
Proof. unfold set_fd. keeps. Qed.
#[local] Hint Resolve keeps_argstr keeps_argfd keeps_set_fd : keeps.
Lemma keeps_fdalloc i : keeps f (fdalloc i).
Proof. unfold fdalloc. keeps. Qed.
Lemma keeps_read_inode ip : keeps f (read_inode ip).
Proof. unfold read_inode. keeps. Qed.
Lemma keeps_isdirempty dp : keeps f (isdirempty dp).
Proof. unfold isdirempty, isdirempty_step. keeps. Qed.
#[local] Hint Resolve keeps_fdalloc keeps_read_inode keeps_isdirempty : keeps.
Lemma keeps_create path ty ma mi : keeps f (create path ty ma mi).
Proof. unfold create. keeps. Qed.
#[local] Hint Resolve keeps_create : keeps.
Lemma keeps_link : keeps f sys_link.
Proof. unfold sys_link. keeps. Qed.
Lemma keeps_unlink : keeps f sys_unlink.
Proof. unfold sys_unlink. keeps. Qed.
Lemma keeps_open : keeps f (sys_open kend).
Proof. unfold sys_open, open_inode, open_file. keeps. Qed.
Lemma keeps_make_node a ty ma mi : keeps f (make_node a ty ma mi).
Proof. unfold make_node. keeps. Qed.
#[local] Hint Resolve keeps_make_node : keeps.
Lemma keeps_chdir : keeps f sys_chdir.
Proof. unfold sys_chdir. keeps. Qed.
Lemma keeps_sys_exec : keeps f (sys_exec kend trampoline).
Proof. unfold sys_exec, fetch_arg. keeps. Qed.
Lemma keeps_sys_pipe : keeps f (sys_pipe kend).
Proof. unfold sys_pipe. keeps. Qed.
Lemma keeps_diskspace : keeps f sys_diskspace.
Proof. unfold sys_diskspace. keeps. Qed.
Lemma keeps_rename : keeps f sys_rename.
Proof. unfold sys_rename. keeps. Qed.
#[local] Hint Resolve keeps_link keeps_unlink keeps_open keeps_chdir keeps_sys_exec keeps_sys_pipe keeps_diskspace keeps_rename : keeps.

(** What every handler of the table keeps. *)
Lemma keeps_syscalls num call : syscalls kend trampoline forkret_addr devsw stat_pad num = Some call -> keeps f call.
Proof.
  unfold syscalls. repeat (case_match; [intros [= <-]|]); [.. |done].
  all: unfold sys_fork, sys_exit, sys_wait, sys_read, sys_kill, sys_fstat, sys_dup, sys_getpid, sys_sbrk, sys_sleep, sleep_step,
    sys_uptime, sys_write, sys_mknod, sys_mkdir, sys_close; keeps.
Qed.

Lemma keeps_syscall : keeps f (syscall kend trampoline forkret_addr devsw stat_pad).
Proof. unfold syscall, printf_ln. keeps. all: eauto using keeps_syscalls. Qed.
End Calls.
