(* ===== verification/TrapSafe.v ===== *)
(** * Returning to user space (kernel/trap.c)

    What the CPU and the trap frame hold when usertrap() goes back to user space:
    everything that userret loads and that the next trap relies on. *)

From S2P Require Import Prelude Machine Mem Kalloc Sleeplock Store Log LogTxn FsDisk CString Printf Fs Demo Vm Kernel File DemoKernel KernelWp Proc Console Virtio Exec Sysfile Syscall Trap Keeps.

Open Scope Z_scope.

Definition tf_word {St} (k : kernel St) (x : proc) (off : Z) : Z := load64 (kmem_mem (k_phys k)) (p_trapframe x + off).

Section TrapSafe.
Context {St : Type} `{BlockStore St}.
Variable kend : Z.
Variables trampoline uservec kernelvec usertrap_addr forkret_addr : Z.
Variable stat_pad : list Z.
Implicit Types w : world (mach St).

(** The state in which process [p] continues in user space: it is the current
    process and has not been killed; its own page table is installed; interrupts
    are off until sret turns them on, and sret goes to user mode at the saved
    program counter; a trap enters uservec in the trampoline, which finds the
    kernel's page table, stack, usertrap() and CPU number in the trap frame. *)
Definition leaves_to (p : nat) (x : proc) (satp : Z) w : Prop :=
  let k := mc_k (user w) in let h := mc_h (user w) in
  k_cur k = Some p /\ k_procs k !! p = Some x /\ satp = MAKE_SATP (p_pagetable x) /\
  Z.testbit (h_sstatus h) 1 = false /\ Z.testbit (h_sstatus h) 8 = false /\ Z.testbit (h_sstatus h) 5 = true /\
  h_stvec h = u64 (TRAMPOLINE + (uservec - trampoline)) /\ h_sepc h = tf_word k x TF_epc /\
  tf_word k x TF_kernel_satp = u64 (h_satp h) /\ tf_word k x TF_kernel_sp = u64 (p_kstack x + PGSIZE) /\
  tf_word k x TF_kernel_trap = u64 usertrap_addr /\ tf_word k x TF_kernel_hartid = u64 (h_tp h).

Lemma load64_store64 m a v : load64 (store64 m a v) a = u64 v.
Proof.
  unfold load64, store64. rewrite <- (length_le_bytes 8 v) at 2. rewrite load_store_same by apply le_bytes_byte.
  rewrite le_val_bytes. reflexivity.
Qed.

Lemma sstatus_bits s :
  let s' := Z.lor (Z.land (Z.land s (u64 (Z.lnot SSTATUS_SIE))) (u64 (Z.lnot SSTATUS_SPP))) SSTATUS_SPIE in
  Z.testbit s' 1 = false /\ Z.testbit s' 8 = false /\ Z.testbit s' 5 = true.
Proof.
  cbv zeta. rewrite !Z.lor_spec, !Z.land_spec.
  replace (Z.testbit SSTATUS_SPIE 1) with false by reflexivity. replace (Z.testbit SSTATUS_SPIE 8) with false by reflexivity.
  replace (Z.testbit SSTATUS_SPIE 5) with true by reflexivity.
  replace (Z.testbit (u64 (Z.lnot SSTATUS_SIE)) 1) with false by reflexivity.
  replace (Z.testbit (u64 (Z.lnot SSTATUS_SPP)) 8) with false by reflexivity.
  rewrite !andb_false_r, orb_true_r. done.
Qed.

(** A word of memory and a register set, as the steps of usertrapret() do it. *)
Definition put_word (a v : Z) (m : mach St) : mach St :=
  Mach (lput (set_mem (fun m => store64 m a v) (k_phys (mc_k m))) (mc_k m)) (mc_h m) (mc_d m).
Definition put_hart (f : hart -> hart) (m : mach St) : mach St := Mach (mc_k m) (f (mc_h m)) (mc_d m).

Lemma tf_set_wp p x off v (Q : unit -> world (mach St) -> Prop) w :
  k_procs (mc_k (user w)) !! p = Some x -> Q tt (World (held w) (trace w) (put_word (p_trapframe x + off) v (user w))) ->
  wp (in_kernel (tf_set p off v)) Q w.
Proof.
  intros Hx HQ. unfold in_kernel. wp_step. unfold tf_set. wp_step. eapply getp_wp; [exact Hx|]. unfold on_mem. wp_step. unfold wr64.
  wp_step. exact HQ.
Qed.

Lemma upd_hart_wp f (Q : unit -> world (mach St) -> Prop) w :
  Q tt (World (held w) (trace w) (put_hart f (user w))) -> wp (upd_hart f) Q w.
Proof. done. Qed.

Lemma getp_mach_wp p x (Q : proc -> world (mach St) -> Prop) w :
  k_procs (mc_k (user w)) !! p = Some x -> Q x w -> wp (in_kernel (getp p)) Q w.
Proof. intros Hx HQ. unfold in_kernel. wp_step. eapply getp_wp; [exact Hx|]. by destruct w as [? ? []]. Qed.

Lemma tf_get_wp p x off (Q : Z -> world (mach St) -> Prop) w :
  k_procs (mc_k (user w)) !! p = Some x -> Q (tf_word (mc_k (user w)) x off) w -> wp (in_kernel (tf_get p off)) Q w.
Proof.
  intros Hx HQ. unfold in_kernel. wp_step. unfold tf_get. wp_step. eapply getp_wp; [exact Hx|]. unfold on_mem, rd64.
  do 2 wp_step. by destruct w as [? ? [[] ? ?]].
Qed.

Lemma put_word_same x off v m : tf_word (mc_k (put_word (p_trapframe x + off) v m)) x off = u64 v.
Proof. apply load64_store64. Qed.
Lemma put_word_other x off off' v m : off' + 8 <= off \/ off + 8 <= off' ->
  tf_word (mc_k (put_word (p_trapframe x + off) v m)) x off' = tf_word (mc_k m) x off'.
Proof. intros Ho. apply load64_store64_disj. lia. Qed.
Lemma put_word_procs a v m : k_procs (mc_k (put_word a v m)) = k_procs (mc_k m).
Proof. done. Qed.
Lemma put_word_cur a v m : k_cur (mc_k (put_word a v m)) = k_cur (mc_k m).
Proof. done. Qed.
Lemma put_word_hart a v m : mc_h (put_word a v m) = mc_h m.
Proof. done. Qed.
Lemma put_hart_kernel f m : mc_k (put_hart f m) = mc_k m.
Proof. done. Qed.
Lemma put_hart_hart f m : mc_h (put_hart f m) = f (mc_h m).
Proof. done. Qed.
Create Rewrite HintDb mach.
#[local] Hint Rewrite put_word_same put_word_procs put_word_cur put_word_hart put_hart_kernel put_hart_hart : mach.
#[local] Hint Rewrite put_word_other using (cbv; intuition congruence) : mach.
#[local] Opaque put_word put_hart.
Ltac mach := autorewrite with mach; try assumption.

(** usertrapret() returns, whatever it finds. *)
Lemma usertrapret_wp p x w :
  k_cur (mc_k (user w)) = Some p -> k_procs (mc_k (user w)) !! p = Some x ->
  wp (usertrapret trampoline uservec usertrap_addr) (fun o w' =>
    exists satp, o = ToUserSpace satp /\ leaves_to p x satp w' /\ held w' = held w) w.
Proof.
  destruct w as [l tr m]. cbn [user]. intros Hc Hx. unfold usertrapret, intr_off, csr.
  wp_step. unfold in_kernel at 1, myproc. do 3 wp_step. eapply wp_the; [exact Hc|]. cbn [user held trace].
  change (lput _ m) with (Mach (mc_k m) (mc_h m) (mc_d m)). replace (Mach _ _ _) with m by (by destruct m).
  wp_step. apply upd_hart_wp. wp_step. apply upd_hart_wp. do 2 wp_step. wp_step. apply (tf_set_wp p x); [exact Hx|].
  wp_step. apply (getp_mach_wp p x); [cbn [user]; mach|]. wp_step. apply (tf_set_wp p x); [cbn [user]; mach|].
  wp_step. apply (tf_set_wp p x); [cbn [user]; mach|]. do 2 wp_step. wp_step. apply (tf_set_wp p x); [cbn [user]; mach|].
  wp_step. apply upd_hart_wp. wp_step. apply (tf_get_wp p x); [cbn [user]; mach|]. wp_step. apply upd_hart_wp. wp_step.
  eexists. split; [reflexivity|]. split; [|reflexivity].
  destruct (sstatus_bits (h_sstatus (mc_h m))) as (H1 & H8 & H5). unfold leaves_to. cbn [user]. mach.
  repeat split; mach. apply Z.mod_mod. lia.
Qed.

(** ** The current process does not change under a trap *)

Abbreviation cur := (fun m : mach St => k_cur (mc_k m)).

Lemma keeps_in_kernel {A} (m : M (kernel St) A) : keeps k_cur m -> keeps cur (in_kernel m).
Proof. by apply keeps_zoom. Qed.
Lemma keeps_upd_hart f : keeps cur (upd_hart f).
Proof. done. Qed.
Lemma keeps_upd_disk f : keeps cur (upd_disk f).
Proof. done. Qed.
Lemma keeps_csr f : keeps cur (csr f).
Proof. done. Qed.
#[local] Hint Resolve keeps_upd_hart keeps_upd_disk keeps_csr : keeps.
#[local] Hint Extern 1 (keeps _ (in_kernel (wakeup _))) => apply keeps_in_kernel, keeps_wakeup; apply _ : keeps.
#[local] Hint Extern 1 (keeps _ (in_kernel uartintr)) => apply keeps_in_kernel, keeps_uartintr; apply _ : keeps.
#[local] Hint Extern 1 (keeps _ (in_kernel clockintr)) => apply keeps_in_kernel, keeps_clockintr; apply _ : keeps.

Lemma keeps_devintr : keeps cur devintr.
Proof. unfold devintr, virtio_disk_intr, disk_intr_step, plic_claim, plic_complete, cpuid, printf_ln. keeps.
Qed.

(** ** usertrap() *)

Definition safe_outcome (p : nat) (o : outcome) w : Prop :=
  match o with
  | ToUserSpace satp => exists x, p_killed x = false /\ leaves_to p x satp w
  | _ => True
  end.

Lemma in_kernel_wlp {A} (m : M (kernel St) A) (Q : A -> world (mach St) -> Prop) p w :
  keeps k_cur m -> k_cur (mc_k (user w)) = Some p -> (forall a w', k_cur (mc_k (user w')) = Some p -> Q a w') ->
  wlp (in_kernel m) Q w.
Proof.
  intros Hm Hp HQ. eapply wlp_mono; [by apply keeps_in_kernel|]. cbn. intros a w' E. apply HQ. congruence.
Qed.

Lemma killed_user p (u u' : world (kernel St)) dead : killed p u = Ret (dead, u') ->
  exists x, k_procs (user u) !! p = Some x /\ p_killed x = dead /\ user u' = user u.
Proof.
  apply (wlp_run (killed p) (fun dead u' => exists x, k_procs (user u) !! p = Some x /\ p_killed x = dead /\ user u' = user u)).
  unfold killed, getp. repeat wlp_step. cbn in *. eauto.
Qed.

Lemma trap_end_wlp p dev w :
  k_cur (mc_k (user w)) = Some p -> wlp (trap_end kend trampoline uservec usertrap_addr p dev) (safe_outcome p) w.
Proof.
  intros Hp. unfold trap_end. wlp_step. unfold wlp at 1, in_kernel at 1, zoom.
  destruct (killed p _) as [[dead w1]| | |] eqn:E; [|done..].
  destruct (killed_user _ _ _ _ E) as (x & Hx & Hd & Hw). cbn [user held trace lget lput lens_mach] in *. rewrite Hw.
  destruct dead.
  { wlp_step. eapply in_kernel_wlp; [apply keeps_exit; apply _|exact Hp|]. done. }
  destruct (dev =? 2).
  { wlp_step. eapply in_kernel_wlp; [unfold yield; keeps; apply keeps_sched|exact Hp|]. done. }
  set (w2 := World _ _ _). assert (wp (usertrapret trampoline uservec usertrap_addr) (safe_outcome p) w2) as Hwp.
  { eapply wp_mono; [by apply (usertrapret_wp p x)|]. intros o w' (satp & -> & Hl & _). by exists x. }
  revert Hwp. unfold wp, wlp. by destruct (usertrapret _ _ _ _) as [[o w']| | |].
Qed.

(** Whatever keeps the current process can be skipped. *)
Lemma skip_wlp {A B} (m : M (mach St) A) (k : A -> M (mach St) B) (Q : B -> world (mach St) -> Prop) p w :
  keeps cur m -> k_cur (mc_k (user w)) = Some p -> (forall a w', k_cur (mc_k (user w')) = Some p -> wlp (k a) Q w') ->
  wlp (bind m k) Q w.
Proof.
  intros Hm Hp Hk. apply wlp_bind. eapply wlp_mono; [apply Hm|]. cbn. intros a w' E. apply Hk. congruence.
Qed.

Lemma myproc_wlp {B} (k : nat -> M (mach St) B) (Q : B -> world (mach St) -> Prop) p w :
  k_cur (mc_k (user w)) = Some p -> wlp (k p) Q w -> wlp (bind (in_kernel myproc) k) Q w.
Proof.
  destruct w as [l t [k0 h d]]. cbn. intros Hp Hk. unfold wlp, bind, in_kernel, zoom, myproc, gets, the in *. cbn.
  rewrite Hp. exact Hk.
Qed.

#[local] Hint Extern 1 (keeps _ (in_kernel (tf_set _ _ _))) => apply keeps_in_kernel, keeps_tf_set; apply _ : keeps.
#[local] Hint Extern 1 (keeps _ (in_kernel (tf_get _ _))) => apply keeps_in_kernel, keeps_tf_get; apply _ : keeps.
#[local] Hint Extern 1 (keeps _ (in_kernel (killed _))) => apply keeps_in_kernel, keeps_killed; apply _ : keeps.
#[local] Hint Extern 1 (keeps _ (in_kernel (getp _))) => apply keeps_in_kernel, keeps_getp; apply _ : keeps.
#[local] Hint Extern 1 (keeps _ (in_kernel (setkilled _))) => apply keeps_in_kernel, keeps_setkilled; apply _ : keeps.
#[local] Hint Extern 1 (keeps _ (in_kernel (exit _ _))) => apply keeps_in_kernel, keeps_exit; apply _ : keeps.
#[local] Hint Extern 1 (keeps _ (in_kernel (syscall _ _ _ _ _))) => apply keeps_in_kernel, keeps_syscall; apply _ : keeps.
#[local] Hint Resolve keeps_devintr : keeps.

Ltac skip := eapply skip_wlp; [solve [keeps]|eassumption|]; intros; cbv beta.

Lemma usertrap_wlp p w : k_cur (mc_k (user w)) = Some p ->
  wlp (usertrap kend trampoline uservec kernelvec usertrap_addr forkret_addr stat_pad) (safe_outcome p) w.
Proof.
  intros Hp. unfold usertrap, intr_on, printf_ln. skip. destruct (negb _); [done|]. skip. eapply myproc_wlp; [eassumption|].
  do 3 skip. destruct (_ =? 8).
  - skip. match goal with |- context [if ?b then _ else _] => destruct b end; [skip; done|]. do 4 skip.
    match goal with |- context [if ?b then _ else _] => destruct b end; [by apply trap_end_wlp|done].
  - skip. destruct (negb _); [by apply trap_end_wlp|]. do 6 skip. by apply trap_end_wlp.
Qed.
End TrapSafe.

(** ** Theorem *)


(** Process 0 of the demonstration kernel executes getpid(). *)
Definition demo_trap : world (mach lstate) :=
  let k := lput (set_mem (fun m => store64 m (dk_page 4 + TF_a 7) SYS_getpid) dk_kmem) demo_kernel in
  World [] [] (Mach k (Hart 32 60 8 0 0 0 5 0 [] []) disk_init).
Abbreviation demo_usertrap := (usertrap 0 TRAMPOLINE TRAMPOLINE 100 200 300 [0; 0; 0; 0] : M (mach lstate) outcome).

