(* ===== verification/ExecAtomic.v ===== *)
(** * exec() replaces a process's image, or nothing (kernel/exec.c)

    exec() builds the new image beside the old one and commits to it at the end.
    Until then the process table, the open files and the pipes are as they were. *)

From S2P Require Import Prelude Machine Mem Kalloc Sleeplock Store Log LogTxn FsDisk CString Printf Fs Demo Vm Kernel File DemoKernel Proc Exec Keeps.

Open Scope Z_scope.

(** What exec() changes only at its end. *)
Definition tables {St} (k : kernel St) := (k_procs k, k_cur k, k_files k, k_pipes k).

#[export] Instance tables_sub {St} : FrameSub (@tables St).
Proof. by split. Qed.

(** The committed process: name, page table and size. *)
Definition exec_image (name : list Z) (pt sz : Z) (x : proc) : proc :=
  p_set_sz sz (p_set_pagetable pt (p_set_name (splice 0 name (p_name x)) x)).

Section ExecAtomic.
Context {St : Type} `{BlockStore St}.
Variables kend trampoline : Z.
Implicit Types w : world (kernel St).

Definition exec_done (path : list Z) (argv : list (list Z)) w (r : Z) w' : Prop :=
  (r = -1 /\ tables (user w') = tables (user w)) \/
  exists p x last name pt sz,
    k_cur (user w) = Some p /\ k_procs (user w) !! p = Some x /\
    last_elem path path = Some last /\ safestrcpy last 16 = Some name /\ pt <> 0 /\
    r = Z.of_nat (length argv) /\ (length argv < 32)%nat /\
    tables (user w') = (<[p := exec_image name pt sz x]> (k_procs (user w)), Some p, k_files (user w), k_pipes (user w)).

Lemma skip_tables {A B} (m : M (kernel St) A) (k : A -> M (kernel St) B) (Q : B -> world (kernel St) -> Prop) t w :
  keeps tables m -> tables (user w) = t -> (forall a w', tables (user w') = t -> wlp (k a) Q w') -> wlp (bind m k) Q w.
Proof. intros Hm Hp Hk. apply wlp_bind. eapply wlp_mono; [apply Hm|]. cbn. intros a w' E. apply Hk. congruence. Qed.

Ltac skip := eapply skip_tables; [solve [keeps]|eassumption|]; intros; cbv beta.

Lemma exec_bad_wlp path argv w0 pt sz ip w : tables (user w) = tables (user w0) ->
  wlp (exec_bad kend pt sz ip) (exec_done path argv w0) w.
Proof. intros E. unfold exec_bad. do 2 skip. wlp_step. by left. Qed.

Lemma push_args_wlp pt base argv sp us t w : tables (user w) = t ->
  wlp (push_args pt base argv sp us) (fun r w' => tables (user w') = t /\
    match r with Some (_, us') => length us' = (length us + length argv)%nat | None => True end) w.
Proof.
  revert sp us w. induction argv as [|s argv IH]; intros sp us w Ht; cbn [push_args].
  { wlp_step. split; [done|]. cbn. lia. }
  wlp_step; [by wlp_step|]. skip. wlp_step; [by wlp_step|]. skip. wlp_step; [by wlp_step|].
  eapply wlp_mono; [by apply IH|]. cbn. intros [[sp' us']|] w2 [Hw2 Hl]; [|done]. split; [done|].
  rewrite Hl, length_app. cbn. lia.
Qed.

Lemma getp_wlp {B} p (k : proc -> M (kernel St) B) (Q : B -> world (kernel St) -> Prop) w :
  (forall x, k_procs (user w) !! p = Some x -> wlp (k x) Q w) -> wlp (bind (getp p) k) Q w.
Proof.
  intros Hk. unfold wlp, bind, getp, bind, gets, the in *. destruct (k_procs (user w) !! p) as [x|]; [|done]. by apply Hk.
Qed.

Lemma setp_tables p f (Q : unit -> world (kernel St) -> Prop) l c fl pp w :
  tables (user w) = (l, c, fl, pp) -> (forall w', tables (user w') = (alter f p l, c, fl, pp) -> Q tt w') ->
  wlp (setp p f) Q w.
Proof. intros E Hk. apply Hk. unfold tables in *. cbn. congruence. Qed.

(** The commit, once the name is known. *)
Lemma commit_tables (p : nat) x name pt sz (l : list proc) : l !! p = Some x ->
  alter (p_set_sz sz) p (alter (p_set_pagetable pt) p (alter (fun x => p_set_name (splice 0 name (p_name x)) x) p l)) =
  <[p := exec_image name pt sz x]> l.
Proof.
  intros Hx. apply list_eq. intros i. destruct (decide (i = p)) as [->|].
  - rewrite !list_lookup_alter_eq, Hx, list_lookup_insert_eq by (by eapply lookup_lt_Some). done.
  - by rewrite !list_lookup_alter_ne, list_lookup_insert_ne by done.
Qed.

Lemma exec_commit_wlp path argv elf pt sz w0 w : pt <> 0 -> tables (user w) = tables (user w0) ->
  wlp (exec_commit kend path argv elf pt sz) (exec_done path argv w0) w.
Proof.
  intros Hpt E. unfold exec_commit. wlp_step. unfold myproc. wlp_step. wlp_step. wlp_step. rename a into p. rename H0 into Hc.
  apply getp_wlp. intros x Hx. skip. wlp_step; [by apply exec_bad_wlp|]. skip.
  wlp_step. eapply wlp_mono; [by eapply push_args_wlp|]. cbn beta. intros [[sp us]|] w1 [E1 Hl]; [|by apply exec_bad_wlp].
  cbn [length Nat.add] in Hl. wlp_step; [wlp_step|]. wlp_step; [by apply exec_bad_wlp|]. skip.
  wlp_step; [by apply exec_bad_wlp|]. skip.
  assert (k_cur (user w0) = Some p /\ k_procs (user w0) !! p = Some x) as [Hc0 Hx0].
  { unfold tables in E. split; congruence. }
  wlp_step. wlp_step. unfold set_name. apply wlp_bind. wlp_step. wlp_step. rename H4 into Hlast, H5 into Hname.
  eapply setp_tables; [exact H3|]. intros w3 E3. apply getp_wlp. intros x3 _.
  wlp_step. eapply setp_tables; [exact E3|]. intros w4 E4. wlp_step. eapply setp_tables; [exact E4|]. intros w5 E5. do 3 skip. wlp_step.
  right. exists p, x. do 4 eexists. do 5 (split; [eassumption|]). unfold MAXARG in *.
  rewrite Hl in *. assert (length argv < 32)%nat by (rewrite Z.geb_leb in *; apply Z.leb_gt in Heqb0; lia).
  split; [apply s32_small; lia|]. split; [done|]. rewrite Hc0 in *. etrans; [eassumption|]. by rewrite (commit_tables _ x).
Qed.

Lemma exec_wlp path argv w : wlp (exec kend trampoline path argv) (exec_done path argv w) w.
Proof.
  enough (forall w1, tables (user w1) = tables (user w) -> wlp (exec kend trampoline path argv) (exec_done path argv w) w1) by auto.
  intros w1 E. unfold exec. do 3 skip.
  destruct a1 as [ip|]; [|skip; wlp_step; by left]. do 2 skip. destruct a2 as [r bs].
  wlp_step; [by apply exec_bad_wlp|]. wlp_step; [by apply exec_bad_wlp|]. skip. wlp_step; [by apply exec_bad_wlp|]. skip.
  destruct a3 as [ok sz]. wlp_step; [by apply exec_bad_wlp|]. do 2 skip. apply exec_commit_wlp; [|done]. by apply Z.eqb_neq.
Qed.
End ExecAtomic.


Abbreviation demo_exec := (exec 0 TRAMPOLINE (lit "/f" ++ [0]) [lit "f" ++ [0]] : M (kernel lstate) Z).

