(* ===== verification/Scenarios.v ===== *)
(** * Runs of the system calls

    Sequences of system calls by one process on the demonstration kernel, evaluated
    by the kernel's own definitions: what a user program sees in corner cases that
    the comments or the tests of the source describe differently. *)

From S2P Require Import Prelude Machine Mem Kalloc Sleeplock Bio Store Log LogTxn FsDisk CString Fs Demo Vm Kernel DemoKernel File Printf Proc Console Exec Sysfile Syscall.

Open Scope Z_scope.

Definition scenario (A : Type) : Type := M (kernel lstate) A.

(** System call [n] by process 0. *)
Definition call (n a0 a1 a2 : Z) : scenario Z :=
  for_each [(7, n); (0, a0); (1, a1); (2, a2)] (fun '(i, v) => tf_set 0 (TF_a i) v) ;;
  syscall KERNBASE (KERNBASE - 4096) 0 devsw [1; 2; 3; 4] ;;
  let* v := tf_get 0 TF_a0 in
  ret (s32 v).

(** The process's memory, which is one page at virtual address 0. *)
Definition poke (a : Z) (s : string) : scenario unit := on_mem (modify (set_mem (fun m => store m (dk_page 3 + a) (lit s)))).
Definition peek (a : Z) (n : nat) : scenario (list Z) := on_mem (gets (fun k => load (kmem_mem k) (dk_page 3 + a) n)).

Definition outcome_of {A} (m : scenario A) : res A :=
  match m demo_world with Ret (a, _) => Ret a | Panic s => Panic s | Blocked c => Blocked c | NoFuel => NoFuel end.

(** ** open *)

(** A file that has data and is opened for reading and writing is read from its
    end: the five bytes written before are not seen. *)
Definition open_rdwr_then_read : scenario (Z * Z) :=
  poke 0 "x" ;; poke 20 "hello" ;;
  let* fd := call SYS_open 0 (Z.lor O_CREATE O_RDWR) 0 in
  let* n := call SYS_write fd 20 5 in
  call SYS_close fd 0 0 ;;
  let* fd := call SYS_open 0 O_RDWR 0 in
  let* r := call SYS_read fd 40 5 in
  ret (n, r).

Example open_rdwr_reads_nothing : outcome_of open_rdwr_then_read = Ret (5, 0).
Proof. vm_compute. reflexivity. Qed.

(** ** rename *)

(** A new name with a slash in it is stored as it is: the call succeeds and the file
    can be opened neither by its old name nor by its new one. *)
Definition rename_to_slash : scenario (Z * Z * Z) :=
  poke 0 "x" ;; poke 20 "a/b" ;;
  let* fd := call SYS_open 0 (Z.lor O_CREATE O_RDWR) 0 in
  call SYS_close fd 0 0 ;;
  let* r := call SYS_rename 0 20 0 in
  let* a := call SYS_open 0 O_RDONLY 0 in
  let* b := call SYS_open 20 O_RDONLY 0 in
  ret (r, a, b).

Example rename_to_slash_loses : outcome_of rename_to_slash = Ret (0, -1, -1).
Proof. vm_compute. reflexivity. Qed.

(** Renaming a file that does not exist leaves one more reference to the root
    directory's inode in the table than there was. *)
Definition root_refs : scenario (option Z) := gets (fun k => i_ref <$> k_inodes k !! 0%nat).
Definition rename_missing : scenario (option Z * Z * option Z) :=
  poke 0 "x" ;; poke 20 "y" ;;
  let* before := root_refs in
  let* r := call SYS_rename 0 20 0 in
  let* after := root_refs in
  ret (before, r, after).

Example rename_missing_leaks : outcome_of rename_missing = Ret (Some 1, -1, Some 2).
Proof. vm_compute. reflexivity. Qed.

(** Renaming the current directory by its dot waits for a lock that the caller
    itself holds. *)
Definition rename_dot : scenario Z := poke 0 "." ;; poke 20 "y" ;; call SYS_rename 0 20 0.

Example rename_dot_deadlock : outcome_of rename_dot = Blocked (ChInodeLock 0).
Proof. vm_compute. reflexivity. Qed.

(** ** kill *)

(** kill(0) answers 0 and marks a process slot that is not in use; the next process
    made in that slot starts out killed. *)
Definition kill_zero : scenario (Z * Z * option bool) :=
  let* r := call SYS_kill 0 0 0 in
  let* pid := call SYS_fork 0 0 0 in
  let* child := gets (fun k => p_killed <$> k_procs k !! 1%nat) in
  ret (r, pid, child).

Example kill_zero_marks : outcome_of kill_zero = Ret (0, 2, Some true).
Proof. vm_compute. reflexivity. Qed.

(** ** pipes and stat *)

(** A read of two bytes from a pipe into an address that is not mapped answers 0, as at
    the end of the data, and the first byte is gone. *)
Definition piperead_bad_address : scenario (Z * Z * Z * Z * list Z) :=
  poke 20 "hello" ;;
  let* r := call SYS_pipe 40 0 0 in
  let* w := call SYS_write 1 20 5 in
  let* a := call SYS_read 0 8192 2 in
  let* b := call SYS_read 0 60 1 in
  let* bs := peek 60 1 in
  ret (r, w, a, b, bs).

Example piperead_bad_address_loses : outcome_of piperead_bad_address = Ret (0, 5, 0, 1, [101]).
Proof. vm_compute. reflexivity. Qed.

(** fstat() copies out the four bytes of padding of struct stat, which hold what was on the
    kernel's stack: here 1, 2, 3, 4. *)
Definition fstat_padding : scenario (Z * list Z) :=
  poke 0 "x" ;;
  let* fd := call SYS_open 0 (Z.lor O_CREATE O_RDWR) 0 in
  let* r := call SYS_fstat fd 40 0 in
  let* bs := peek (40 + 12) 4 in
  ret (r, bs).

Example fstat_padding_leaks : outcome_of fstat_padding = Ret (0, [1; 2; 3; 4]).
Proof. vm_compute. reflexivity. Qed.
