(* ===== verification/User.v ===== *)
(** * User programs and the system (user/user.h)

    What the text tools use of the system: read() on one open file and write().
    read() gives some of the bytes that are left, how many being up to the system:
    the script [u_cuts] says how many at a time, and a negative entry is an error.
    In the same way [u_lims] says how many bytes write() takes. *)

From S2P Require Import Prelude.

Open Scope Z_scope.

Record uio := Uio {
  u_in : list Z;                 (* what is left to read *)
  u_cuts : list Z;               (* the most the next read()s give *)
  u_lims : list Z;               (* the most the next write()s take *)
  u_out : list (Z * list Z)      (* descriptor and bytes of every write *)
}.

Definition u_read (n : Z) : M uio (Z * list Z) :=
  let* s := get in
  match u_cuts s with
  | [] =>
      let bs := take (Z.to_nat n) (u_in s) in
      put (Uio (drop (length bs) (u_in s)) [] (u_lims s) (u_out s)) ;;
      ret (Z.of_nat (length bs), bs)
  | k :: t =>
      if k <? 0 then put (Uio (u_in s) t (u_lims s) (u_out s)) ;; ret (-1, []) else
      let bs := take (Z.to_nat (Z.min n (Z.max 1 k))) (u_in s) in
      put (Uio (drop (length bs) (u_in s)) t (u_lims s) (u_out s)) ;;
      ret (Z.of_nat (length bs), bs)
  end.

Definition u_write (fd : Z) (bs : list Z) : M uio Z :=
  let* s := get in
  match u_lims s with
  | [] => put (Uio (u_in s) (u_cuts s) [] (u_out s ++ [(fd, bs)])) ;; ret (Z.of_nat (length bs))
  | k :: t =>
      if k <? 0 then put (Uio (u_in s) (u_cuts s) t (u_out s)) ;; ret (-1) else
      let bs := take (Z.to_nat k) bs in
      put (Uio (u_in s) (u_cuts s) t (u_out s ++ [(fd, bs)])) ;;
      ret (Z.of_nat (length bs))
  end.

(** What has been written to a descriptor. *)
Definition written (fd : Z) (out : list (Z * list Z)) : list Z := mjoin (snd <$> filter (fun e => e.1 = fd) out).

(** ** Reasoning *)

(** The system takes what is written, and read() does not fail. *)
Definition willing (s : uio) : Prop := Forall (Z.le 0) (u_cuts s) /\ u_lims s = [].

(** The world after some writes. *)
Definition writes (bs : list (Z * list Z)) (w : world uio) : world uio :=
  World (held w) (trace w) (Uio (u_in (user w)) (u_cuts (user w)) (u_lims (user w)) (u_out (user w) ++ bs)).

Lemma writes_nil w : writes [] w = w.
Proof. destruct w as [h t []]. unfold writes. cbn. by rewrite app_nil_r. Qed.
Lemma outputs_app bs bs' w : writes bs' (writes bs w) = writes (bs ++ bs') w.
Proof. unfold writes. cbn. by rewrite app_assoc. Qed.

Lemma written_app fd l l' : written fd (l ++ l') = written fd l ++ written fd l'.
Proof. unfold written. rewrite list.filter_app, fmap_app. apply join_app. Qed.
Lemma written_one fd bs : written fd [(fd, bs)] = bs.
Proof. unfold written. rewrite list.filter_cons, decide_True by done. cbn. apply app_nil_r. Qed.

Lemma u_write_wp fd bs (Q : Z -> world uio -> Prop) w :
  u_lims (user w) = [] -> Q (Z.of_nat (length bs)) (writes [(fd, bs)] w) -> wp (u_write fd bs) Q w.
Proof. intros Hl HQ. unfold u_write. do 2 wp_step. rewrite Hl. do 3 wp_step. unfold writes in HQ. by rewrite Hl in HQ. Qed.

Lemma u_read_wp n (Q : Z * list Z -> world uio -> Prop) w : willing (user w) -> 0 < n ->
  (forall bs rest cuts, u_in (user w) = bs ++ rest -> (length bs <= Z.to_nat n)%nat -> (bs = [] -> rest = []) ->
     Forall (Z.le 0) cuts ->
     Q (Z.of_nat (length bs), bs) (World (held w) (trace w) (Uio rest cuts [] (u_out (user w))))) ->
  wp (u_read n) Q w.
Proof.
  intros [Hc Hlim] Hn HQ. unfold u_read. do 2 wp_step. rewrite Hlim.
  assert (forall k, (0 < k <= Z.to_nat n)%nat -> let bs := take k (u_in (user w)) in
            u_in (user w) = bs ++ drop (length bs) (u_in (user w)) /\ (length bs <= Z.to_nat n)%nat /\
            (bs = [] -> drop (length bs) (u_in (user w)) = [])) as Hbs.
  { intros k Hk. cbv zeta. split; [|split].
    - rewrite length_take. destruct (Nat.le_ge_cases k (length (u_in (user w)))).
      + rewrite Nat.min_l by done. symmetry. apply take_drop.
      + rewrite Nat.min_r, take_ge, drop_all, app_nil_r by lia. done.
    - rewrite length_take. lia.
    - intros E. destruct (u_in (user w)); [apply drop_nil|]. destruct k; [lia|done]. }
  destruct (u_cuts (user w)) as [|k t].
  - do 3 wp_step. destruct (Hbs (Z.to_nat n)) as (E & Hl & He); [lia|]. by apply HQ.
  - apply Forall_cons_1 in Hc as [Hk Ht]. rewrite (proj2 (Z.ltb_ge k 0)) by lia. do 3 wp_step.
    destruct (Hbs (Z.to_nat (Z.min n (Z.max 1 k)))) as (E & Hl & He); [lia|]. by apply HQ.
Qed.
