(* ===== verification/Grep.v ===== *)
(** * grep (user/grep.c)

    The pattern matcher on C strings - the bytes from the pointer to the end of its
    object, [None] for a read past it - and the loop that reads the input in
    pieces, finds the lines in a buffer of 1024 bytes and writes those that match. *)

From S2P Require Import Prelude CString User.

Open Scope Z_scope.

(** ** The matcher *)

(** The loop of matchstar(), given matchhere() for the pattern after the star. *)
Fixpoint matchstar (here : list Z -> option bool) (c : Z) (text : list Z) {struct text} : option bool :=
  match here text with
  | None => None
  | Some true => Some true
  | Some false =>
      match text with
      | [] => None
      | t :: text' => if negb (t =? 0) && ((t =? c) || (c =? 46)) then matchstar here c text' else Some false
      end
  end.

Fixpoint matchhere (re text : list Z) {struct re} : option bool :=
  match re with
  | [] => None
  | r0 :: re1 =>
      if r0 =? 0 then Some true else
      match re1 with
      | [] => None
      | r1 :: re2 =>
          if r1 =? 42 then matchstar (matchhere re2) r0 text else
          match text with
          | [] => None
          | t :: text' =>
              if (r0 =? 36) && (r1 =? 0) then Some (t =? 0) else
              if negb (t =? 0) && ((r0 =? 46) || (r0 =? t)) then matchhere re1 text' else Some false
          end
      end
  end.

(** The loop of match() over the places where the text may match. *)
Fixpoint match_loop (re text : list Z) {struct text} : option bool :=
  match matchhere re text with
  | None => None
  | Some true => Some true
  | Some false =>
      match text with
      | [] => None
      | t :: text' => if negb (t =? 0) then match_loop re text' else Some false
      end
  end.

Definition grep_match (re text : list Z) : option bool :=
  match re with
  | [] => None
  | r0 :: re1 => if r0 =? 94 then matchhere re1 text else match_loop re text
  end.

(** ** The loop over lines *)

Definition BUF_SIZE : Z := 1024.

(** One line of the buffer: [inl] is the buffer and [p] for the next turn. *)
Definition grep_line (pattern : list Z) (a : list Z * nat) : M uio (list Z * nat + list Z * nat) :=
  let '(buf, p) := a in
  let* r := the (u_strchr (drop p buf) 10) in
  match r with
  | None => ret (inr (buf, p))
  | Some suffix =>
      let q := (length buf - length suffix)%nat in
      let buf := <[q := 0]> buf in
      let* m := the (grep_match pattern (drop p buf)) in
      if m : bool then
        let buf := <[q := 10]> buf in
        u_write 1 (slice p (q + 1 - p) buf) ;;
        ret (inl (buf, (q + 1)%nat))
      else ret (inl (buf, (q + 1)%nat))
  end.

(** One read: the loop variables are the buffer and [m]. *)
Definition grep_turn (pattern : list Z) (a : list Z * nat) : M uio (list Z * nat + unit) :=
  let '(buf, m) := a in
  let* ' (n, bs) := u_read (BUF_SIZE - Z.of_nat m - 1) in
  if negb (n >? 0) then ret (inr tt) else
  let buf := splice m bs buf in
  let m := (m + Z.to_nat n)%nat in
  let buf := <[m := 0]> buf in
  let* ' (buf, p) := iter (S m) (grep_line pattern) (buf, 0%nat) in
  if (0 <? m)%nat then
    let m := (m - p)%nat in
    ret (inl (splice 0 (slice p m buf) buf, m))
  else ret (inl (buf, m)).

(** [buf] is a static array, zero at first; every turn but the last reads a byte. *)
Definition grep (pattern : list Z) : M uio unit :=
  let* s := get in
  iter (S (S (length (u_in s)))) (grep_turn pattern) (replicate (Z.to_nat BUF_SIZE) 0, 0%nat).

(** ** The language of a pattern *)

(** An element of a pattern: a character or any one ([.]), once or repeated. *)
Inductive item := One (c : Z) | Star (c : Z).

Definition admits (c t : Z) : Prop := c = 46 \/ c = t.

Inductive matches : list item -> list Z -> Prop :=
  | matches_nil : matches [] []
  | matches_one c t l s : admits c t -> matches l s -> matches (One c :: l) (t :: s)
  | matches_stop c l s : matches l s -> matches (Star c :: l) s
  | matches_more c t l s : admits c t -> matches (Star c :: l) s -> matches (Star c :: l) (t :: s).

(** The items of a pattern, and whether it ends in [$]. *)
Fixpoint items (re : list Z) : list item * bool :=
  match re with
  | [] => ([], false)
  | c :: re1 =>
      match re1 with
      | d :: re2 => if d =? 42 then (Star c :: (items re2).1, (items re2).2) else (One c :: (items re1).1, (items re1).2)
      | [] => if c =? 36 then ([], true) else ([One c], false)
      end
  end.

(** [re] matches at the start of [text], or somewhere in it. *)
Definition at_start (re text : list Z) : Prop :=
  exists mid post, text = mid ++ post /\ matches (items re).1 mid /\ ((items re).2 = true -> post = []).
Definition found (re text : list Z) : Prop :=
  match re with
  | 94 :: re1 => at_start re1 text
  | _ => exists pre rest, text = pre ++ rest /\ at_start re rest
  end.

(** ** The matcher decides the language *)

Section Matcher.
Variable junk : list Z.

Lemma admits_test c t : (c =? 46) || (c =? t) = true <-> admits c t.
Proof. unfold admits. rewrite orb_true_iff, !Z.eqb_eq. tauto. Qed.

(** [b] is the answer of a function that decides [P]. *)
Definition decides (o : option bool) (P : Prop) : Prop := exists b, o = Some b /\ (b = true <-> P).

Lemma decides_iff o P Q : decides o P -> (P <-> Q) -> decides o Q.
Proof. intros (b & E & H) HPQ. exists b. split; [done|]. by rewrite H. Qed.

(** A loop that asks [P] at every place of the text it can reach. *)
Lemma matchstar_decides here c text (P : list Z -> Prop) :
  0 ∉ text -> (forall s, 0 ∉ s -> decides (here (s ++ 0 :: junk)) (P s)) ->
  decides (matchstar here c (text ++ 0 :: junk)) (exists pre rest, text = pre ++ rest /\ Forall (admits c) pre /\ P rest).
Proof.
  intros Hn Hh. induction text as [|t text IH].
  - destruct (Hh [] Hn) as (b & E & Hb). cbn [app] in *. cbn [matchstar]. rewrite E. exists b. split.
    + by destruct b.
    + rewrite Hb. split; [intros; by exists [], []|]. intros (pre & rest & [-> ->]%eq_sym%app_nil & _ & HP). done.
  - destruct (Hh (t :: text) Hn) as (b & E & Hb). cbn [app] in *. cbn [matchstar]. rewrite E.
    apply not_elem_of_cons in Hn as [Ht Hn]. destruct b.
    { exists true. split; [done|]. split; [|done]. intros _. exists [], (t :: text). split; [done|]. split; [constructor|]. by apply Hb. }
    rewrite (proj2 (Z.eqb_neq t 0)) by done. cbn [negb andb]. rewrite (Z.eqb_sym t c), orb_comm.
    assert (~ P (t :: text)) as HnP by (intros HP; apply Hb in HP; done).
    destruct ((c =? 46) || (c =? t)) eqn:Ea.
    + eapply decides_iff; [by apply IH|]. apply admits_test in Ea. split.
      * intros (pre & rest & -> & Hf & HP). exists (t :: pre), rest. split; [done|]. split; [by constructor|done].
      * intros ([|t' pre] & rest & Heq & Hf & HP); cbn in Heq; [by subst|]. injection Heq as <- ->. inversion Hf; subst.
        by exists pre, rest.
    + exists false. split; [done|]. split; [done|]. intros ([|t' pre] & rest & Heq & Hf & HP); cbn in Heq; [by subst|].
      injection Heq as <- ->. inversion Hf as [|? ? Ha _]; subst. apply admits_test in Ha. congruence.
Qed.

Lemma star_items c l s : matches (Star c :: l) s <-> exists pre rest, s = pre ++ rest /\ Forall (admits c) pre /\ matches l rest.
Proof.
  split.
  - intros Hm. remember (Star c :: l) as l' eqn:El. induction Hm as [|c' t l' s Ha Hm IH|c' l' s Hm IH|c' t l' s Ha Hm IH]; try done.
    + injection El as -> ->. by exists [], s.
    + injection El as -> ->. destruct (IH eq_refl) as (pre & rest & -> & Hf & HP). exists (t :: pre), rest. eauto.
  - intros (pre & rest & -> & Hf & Hm). induction Hf; cbn; by constructor.
Qed.

(** A pattern that starts with a character to be matched once. *)
Definition plain (c : Z) (re : list Z) : Prop := hd 0 re <> 42 /\ ~ (c = 36 /\ re = []).

Lemma plain_items c re : plain c re -> items (c :: re) = (One c :: (items re).1, (items re).2).
Proof.
  intros [Hs He]. destruct re as [|d re]; cbn [items].
  - destruct (Z.eqb_spec c 36); [tauto|done].
  - cbn in Hs. by rewrite (proj2 (Z.eqb_neq d 42)).
Qed.

Lemma plain_at_start c re text : plain c re ->
  at_start (c :: re) text <-> exists t text', text = t :: text' /\ admits c t /\ at_start re text'.
Proof.
  intros Hp. unfold at_start. rewrite (plain_items _ _ Hp). cbn [fst snd]. split.
  - intros (mid & post & -> & Hm & Hpost). inversion Hm; subst. cbn. eauto 10.
  - intros (t & text' & -> & Ha & mid & post & -> & Hm & Hpost). exists (t :: mid), post. split; [done|]. split; [by constructor|done].
Qed.

Lemma plain_matchhere c re rest t text : plain c re -> c <> 0 -> 0 ∉ re ->
  matchhere ((c :: re) ++ 0 :: rest) (t :: text) =
  if negb (t =? 0) && ((c =? 46) || (c =? t)) then matchhere (re ++ 0 :: rest) text else Some false.
Proof.
  intros [Hs He] Hc Hre. cbn [app matchhere]. rewrite (proj2 (Z.eqb_neq c 0)) by done. destruct re as [|d re].
  - cbn [app]. change (0 =? 42) with false. cbv iota. destruct (Z.eqb_spec c 36); [tauto|]. done.
  - apply not_elem_of_cons in Hre as [Hd _]. cbn [app]. cbn in Hs. rewrite (proj2 (Z.eqb_neq d 42)) by done.
    by rewrite (proj2 (Z.eqb_neq d 0)), andb_false_r.
Qed.

Lemma star_at_start c re text :
  at_start (c :: 42 :: re) text <-> exists pre rest, text = pre ++ rest /\ Forall (admits c) pre /\ at_start re rest.
Proof.
  unfold at_start. cbn [items]. change (42 =? 42) with true. cbv iota. cbn [fst snd]. split.
  - intros (mid & post & -> & Hm & Hp). apply star_items in Hm as (pre & r & -> & Hf & Hm). exists pre, (r ++ post).
    rewrite app_assoc. eauto 10.
  - intros (pre & r & -> & Hf & mid & post & -> & Hm & Hp). exists (pre ++ mid), post. rewrite app_assoc. split; [done|].
    split; [|done]. apply star_items. eauto.
Qed.

Lemma end_at_start text : at_start [36] text <-> text = [].
Proof.
  unfold at_start. cbn. split.
  - intros (mid & post & -> & Hm & Hp). inversion Hm; subst. by apply Hp.
  - intros ->. exists [], []. split; [done|]. split; [constructor|done].
Qed.

Lemma matchhere_decides n re rest text : (length re <= n)%nat -> 0 ∉ re -> 0 ∉ text ->
  decides (matchhere (re ++ 0 :: rest) (text ++ 0 :: junk)) (at_start re text).
Proof.
  revert re text. induction n as [|n IH]; intros [|c re] text Hlen Hre Ht; cbn [length] in Hlen; try lia.
  1, 2: exists true; split; [done|]; split; [|done]; intros _; exists [], text; split; [done|]; split; [constructor|done].
  assert (c <> 0 /\ 0 ∉ re) as [Hc Hr] by (apply not_elem_of_cons in Hre as [? ?]; done).
  destruct (decide (hd 0 re = 42)) as [Hs|Hs].
  { destruct re as [|d re]; cbn in Hs; [done|]. subst d. cbn [app matchhere]. rewrite (proj2 (Z.eqb_neq c 0)) by done.
    change (42 =? 42) with true. cbv iota. eapply decides_iff; [|symmetry; apply star_at_start].
    apply matchstar_decides; [done|]. intros s Hs. apply IH; [cbn in Hlen; lia| |done]. by apply not_elem_of_cons in Hr as [_ ?]. }
  destruct (decide (c = 36 /\ re = [])) as [[-> ->]|He].
  { eapply decides_iff; [|symmetry; apply end_at_start]. destruct text as [|t text]; [by exists true|].
    exists false. split; [|done]. apply not_elem_of_cons in Ht as [Ht _]. cbn. by rewrite (proj2 (Z.eqb_neq t 0)). }
  assert (plain c re) as Hp by done. eapply decides_iff; [|symmetry; by apply plain_at_start].
  destruct text as [|t text].
  { exists false. cbn [app]. change (c :: re ++ 0 :: rest) with ((c :: re) ++ 0 :: rest).
    split; [by rewrite plain_matchhere|]. split; [done|]. by intros (t & text' & ? & _). }
  apply not_elem_of_cons in Ht as [Ht0 Ht]. change ((t :: text) ++ 0 :: junk) with (t :: text ++ 0 :: junk).
  rewrite plain_matchhere by done. rewrite (proj2 (Z.eqb_neq t 0)) by done. cbn [negb andb].
  destruct ((c =? 46) || (c =? t)) eqn:Ea.
  - eapply decides_iff; [apply IH; [lia|done|done]|]. apply admits_test in Ea. split; [by eauto|].
    by intros (t' & text' & [= <- <-] & _ & ?).
  - exists false. split; [done|]. split; [done|]. intros (t' & text' & [= <- <-] & Ha & _). apply admits_test in Ha. congruence.
Qed.

Lemma match_loop_decides re rest text : 0 ∉ re -> 0 ∉ text ->
  decides (match_loop (re ++ 0 :: rest) (text ++ 0 :: junk)) (exists pre suf, text = pre ++ suf /\ at_start re suf).
Proof.
  intros Hre. induction text as [|t text IH]; intros Ht;
    destruct (matchhere_decides (length re) re rest _ ltac:(done) Hre Ht) as (b & E & Hb);
    cbn [app] in *; cbn [match_loop]; rewrite E.
  - exists b. split; [by destruct b|]. rewrite Hb. split; [intros; by exists [], []|].
    by intros (pre & suf & [-> ->]%eq_sym%app_nil & ?).
  - apply not_elem_of_cons in Ht as [Ht0 Ht]. destruct b.
    { exists true. split; [done|]. split; [|done]. intros _. exists [], (t :: text). split; [done|]. by apply Hb. }
    rewrite (proj2 (Z.eqb_neq t 0)) by done. cbn [negb]. eapply decides_iff; [by apply IH|]. split.
    + intros (pre & suf & -> & ?). by exists (t :: pre), suf.
    + intros ([|t' pre] & suf & Heq & Ha); cbn in Heq; [subst; apply Hb in Ha; done|]. injection Heq as <- ->. eauto.
Qed.
End Matcher.

Lemma grep_match_decides re text after_re after_text : 0 ∉ re -> 0 ∉ text ->
  decides (grep_match (re ++ 0 :: after_re) (text ++ 0 :: after_text)) (found re text).
Proof.
  intros Hre Ht. destruct re as [|c re].
  - destruct (match_loop_decides after_text [] after_re text Hre Ht) as (b & E & Hb). by exists b.
  - cbn [app grep_match]. destruct (Z.eqb_spec c 94) as [->|Hc].
    + apply not_elem_of_cons in Hre as [_ Hre]. by apply (matchhere_decides after_text (length re)).
    + destruct (match_loop_decides after_text (c :: re) after_re text Hre Ht) as (b & E & Hb). exists b. split; [done|].
      rewrite Hb. unfold found. by repeat case_match.
Qed.

(** C38. match() terminates and decides the language of its pattern, for every pattern and
    text: it answers 1 exactly when some part of the text - the beginning, if the
    pattern starts with ^; the end, if it ends with $ - is in the
    language of the pattern's characters, dots and stars.  It reads neither string past its
    NUL. *)
Theorem grep_match_correct re text after_re after_text : 0 ∉ re -> 0 ∉ text -> exists b,
  grep_match (re ++ 0 :: after_re) (text ++ 0 :: after_text) = Some b /\ (b = true <-> found re text).
Proof. apply grep_match_decides. Qed.

(** The pattern [^a.*c$] and the text [abbc]. *)
Lemma grep_match_correct_witness : exists b,
  grep_match ([94; 97; 46; 42; 99; 36] ++ [0]) ([97; 98; 98; 99] ++ [0]) = Some b /\
  (b = true <-> found [94; 97; 46; 42; 99; 36] [97; 98; 98; 99]).
Proof.
  apply (grep_match_correct [94; 97; 46; 42; 99; 36] [97; 98; 98; 99] [] []).
  - intros Hin. repeat (apply elem_of_cons in Hin as [?|Hin]; [lia|]). by apply elem_of_nil in Hin.
  - intros Hin. repeat (apply elem_of_cons in Hin as [?|Hin]; [lia|]). by apply elem_of_nil in Hin.
Defined.

(** ** The lines of the input *)

(** The complete lines of a text, and what follows the last newline. *)
Fixpoint lines (s : list Z) : list (list Z) * list Z :=
  match s with
  | [] => ([], [])
  | c :: t =>
      let '(ls, r) := lines t in
      if c =? 10 then ([] :: ls, r) else
      match ls with
      | [] => ([], c :: r)
      | l :: ls' => ((c :: l) :: ls', r)
      end
  end.

(** Whether grep writes a line, and what it writes for a text. *)
Definition selected (re l : list Z) : bool := default false (grep_match (re ++ [0]) (l ++ [0])).
Definition grep_spec (re s : list Z) : list (Z * list Z) := (fun l => (1, l ++ [10])) <$> filter (fun l => selected re l) (lines s).1.

(** No line is longer than the buffer allows. *)
Definition short (s : list Z) : Prop :=
  Forall (fun l => (length l <= 1022)%nat) (lines s).1 /\ (length (lines s).2 <= 1022)%nat.

Lemma lines_none s : 10 ∉ s -> lines s = ([], s).
Proof.
  induction s as [|c s IH]; intros Hn; [done|]. apply not_elem_of_cons in Hn as [Hc Hn]. cbn [lines]. rewrite IH by done.
  by rewrite (proj2 (Z.eqb_neq c 10)) by done.
Qed.

Lemma lines_line l s : 10 ∉ l -> lines (l ++ 10 :: s) = (l :: (lines s).1, (lines s).2).
Proof.
  induction l as [|c l IH]; intros Hn; cbn [app lines]; [by destruct (lines s)|].
  apply not_elem_of_cons in Hn as [Hc Hn]. rewrite IH by done. by rewrite (proj2 (Z.eqb_neq c 10)) by done.
Qed.

(** A text is free of newlines or starts with a line. *)
Lemma first_line s : 10 ∉ s \/ exists l s', s = l ++ 10 :: s' /\ 10 ∉ l.
Proof.
  induction s as [|c s IH]; [left; apply not_elem_of_nil|]. destruct (decide (c = 10)) as [->|Hc].
  { right. exists [], s. split; [done|apply not_elem_of_nil]. }
  destruct IH as [Hn|(l & s' & -> & Hl)]; [left|right]; [by apply not_elem_of_cons|].
  exists (c :: l), s'. split; [done|]. by apply not_elem_of_cons.
Qed.

Lemma lines_ind (P : list Z -> Prop) :
  (forall s, 10 ∉ s -> P s) -> (forall l s, 10 ∉ l -> P s -> P (l ++ 10 :: s)) -> forall s, P s.
Proof.
  intros H0 H1 s. remember (length s) as n eqn:Hn. revert s Hn. induction (lt_wf n) as [n _ IH]. intros s ->.
  destruct (first_line s) as [Hn|(l & s' & -> & Hl)]; [by apply H0|]. apply H1; [done|].
  apply (IH (length s')); [rewrite length_app; cbn; lia|done].
Qed.

Lemma lines_rest s : 10 ∉ (lines s).2 /\ exists a, s = a ++ (lines s).2.
Proof.
  induction s as [s Hn|l s Hl [IH1 [a IH2]]] using lines_ind.
  - rewrite lines_none by done. split; [done|by exists []].
  - rewrite lines_line by done. cbn [snd]. split; [done|]. exists (l ++ 10 :: a). by rewrite <- app_assoc, <- app_comm_cons, <- IH2.
Qed.

Lemma lines_app x y :
  lines (x ++ y) = ((lines x).1 ++ (lines ((lines x).2 ++ y)).1, (lines ((lines x).2 ++ y)).2).
Proof.
  induction x as [s Hn|l s Hl IH] using lines_ind.
  - rewrite (lines_none s) by done. cbn. by destruct (lines (s ++ y)).
  - rewrite <- app_assoc, <- app_comm_cons, !lines_line by done. cbn. by rewrite IH.
Qed.

Lemma short_app x y : short (x ++ y) -> short ((lines x).2 ++ y).
Proof. unfold short. rewrite (lines_app x y). cbn. rewrite Forall_app. tauto. Qed.

Lemma short_prefix r s : 10 ∉ r -> short (r ++ s) -> (length r <= 1022)%nat.
Proof.
  intros Hr [Hl Hs]. destruct (first_line s) as [Hn|(l & s' & -> & Hn)].
  - rewrite lines_none in Hs by (rewrite elem_of_app; tauto). cbn in Hs. rewrite length_app in Hs. lia.
  - rewrite app_assoc, lines_line in Hl by (rewrite elem_of_app; tauto). apply Forall_inv in Hl. rewrite length_app in Hl. lia.
Qed.

Lemma grep_spec_app re x y : grep_spec re (x ++ y) = grep_spec re x ++ grep_spec re ((lines x).2 ++ y).
Proof. unfold grep_spec. rewrite lines_app. cbn. by rewrite list.filter_app, fmap_app. Qed.

Lemma selected_ok re l a b : 0 ∉ re -> 0 ∉ l -> grep_match (re ++ 0 :: a) (l ++ 0 :: b) = Some (selected re l).
Proof.
  intros Hre Hl. destruct (grep_match_decides re l a b Hre Hl) as (x & Ex & Hx).
  destruct (grep_match_decides re l [] [] Hre Hl) as (y & Ey & Hy). unfold selected. rewrite Ex, Ey. cbn. f_equal.
  apply eq_true_iff_eq. by rewrite Hx, Hy.
Qed.

(** ** The scan of the buffer *)

Lemma strchr_none d z : 0 ∉ d -> 10 ∉ d -> u_strchr (d ++ 0 :: z) 10 = Some None.
Proof.
  induction d as [|c d IH]; intros H0 H1; [done|]. apply not_elem_of_cons in H0 as [? H0], H1 as [? H1]. cbn [app u_strchr].
  by rewrite (proj2 (Z.eqb_neq c 0)), (proj2 (Z.eqb_neq c 10)), IH by done.
Qed.

Lemma strchr_line l z : 0 ∉ l -> 10 ∉ l -> u_strchr (l ++ 10 :: z) 10 = Some (Some (10 :: z)).
Proof.
  induction l as [|c d IH]; intros H0 H1; [done|]. apply not_elem_of_cons in H0 as [? H0], H1 as [? H1]. cbn [app u_strchr].
  by rewrite (proj2 (Z.eqb_neq c 0)), (proj2 (Z.eqb_neq c 10)), IH by done.
Qed.

Lemma insert_mid {A} (a l : list A) x y z n : n = (length a + length l)%nat -> <[n := y]> (a ++ l ++ x :: z) = a ++ l ++ y :: z.
Proof. intros ->. rewrite app_assoc, insert_app_r_alt by (rewrite length_app; lia). rewrite length_app, Nat.sub_diag. by rewrite <- app_assoc. Qed.

Section Scan.
Variables re after_re : list Z.
Hypothesis re_nul : 0 ∉ re.
Abbreviation pattern := (re ++ 0 :: after_re).

(** One line in the buffer. *)
Lemma grep_line_wp a l d z (Q : list Z * nat + list Z * nat -> world uio -> Prop) w : 0 ∉ l -> 10 ∉ l -> u_lims (user w) = [] ->
  (forall c, Q (inl (a ++ l ++ c :: d ++ 0 :: z, (length a + length l + 1)%nat))
                (writes (if selected re l then [(1, l ++ [10])] else []) w)) ->
  wp (grep_line pattern (a ++ (l ++ 10 :: d) ++ 0 :: z, length a)) Q w.
Proof.
  intros H0 H1 Hw HQ. unfold grep_line. wp_step. rewrite drop_app_length, <- app_assoc, <- app_comm_cons.
  eapply wp_the; [by apply strchr_line|]. cbv beta zeta iota.
  replace (Nat.sub (length (a ++ l ++ 10 :: d ++ 0 :: z)) (length (10 :: d ++ 0 :: z))) with (length a + length l)%nat
    by (rewrite !length_app; lia).
  rewrite !insert_mid by done. wp_step. rewrite drop_app_length. eapply wp_the; [by apply selected_ok|]. cbv beta.
  destruct (selected re l); cbv iota.
  - wp_step. apply u_write_wp; [done|]. wp_step. unfold slice. rewrite drop_app_length.
    replace (length a + length l + 1 - length a)%nat with (length (l ++ [10])) by (rewrite length_app; cbn [length]; lia).
    change (l ++ 10 :: d ++ 0 :: z) with (l ++ [10] ++ (d ++ 0 :: z)). rewrite (app_assoc l), take_app_length, <- (app_assoc l). apply HQ.
  - wp_step. specialize (HQ 0). by rewrite writes_nil in HQ.
Qed.

Lemma grep_line_end_wp a d z (Q : list Z * nat + list Z * nat -> world uio -> Prop) w : 0 ∉ d -> 10 ∉ d ->
  Q (inr (a ++ d ++ 0 :: z, length a)) w -> wp (grep_line pattern (a ++ d ++ 0 :: z, length a)) Q w.
Proof.
  intros H0 H1 HQ. unfold grep_line. wp_step. rewrite drop_app_length. eapply wp_the; [by apply strchr_none|]. by apply wp_ret.
Qed.

Lemma grep_scan_wp n a d z (Q : list Z * nat -> world uio -> Prop) w : (length d < n)%nat -> 0 ∉ d -> u_lims (user w) = [] ->
  (forall a', (length a' + length (lines d).2 = length a + length d)%nat ->
     Q (a' ++ (lines d).2 ++ 0 :: z, length a') (writes (grep_spec re d) w)) ->
  wp (iter n (grep_line pattern) (a ++ d ++ 0 :: z, length a)) Q w.
Proof.
  revert a d w. induction n as [|n IH]; intros a d w Hlen H0 Hw HQ; [lia|]. cbn [iter]. wp_step.
  destruct (first_line d) as [Hn|(l & d' & -> & Hl)].
  - apply grep_line_end_wp; [done|done|]. apply wp_ret. rewrite (lines_none d Hn) in HQ. specialize (HQ a). unfold grep_spec in HQ. rewrite (lines_none d Hn) in HQ. cbn in HQ.
    rewrite writes_nil in HQ. apply HQ. lia.
  - rewrite elem_of_app, elem_of_cons in H0. apply grep_line_wp; [tauto|done|done|]. intros c.
    replace (a ++ l ++ c :: d' ++ 0 :: z) with ((a ++ l ++ [c]) ++ d' ++ 0 :: z) by (by rewrite <- !app_assoc).
    replace (length a + length l + 1)%nat with (length (a ++ l ++ [c])) by (rewrite !length_app; cbn; lia).
    rewrite length_app in Hlen. cbn in Hlen. apply IH; [lia|tauto|done|]. intros a' Ha'. rewrite outputs_app.
    specialize (HQ a'). unfold grep_spec in HQ. rewrite !lines_line in HQ by done. cbn [fst snd] in HQ.
    rewrite filter_cons in HQ. unfold grep_spec. rewrite !length_app in *. cbn in *.
    destruct (selected re l); cbn in *; apply HQ; lia.
Qed.

(** ** One read *)

(** The buffer holds the part [r] of a line read so far; [out] has been written. *)
Definition grep_inv (content : list Z) (out : list (Z * list Z)) (a : list Z * nat) (w : world uio) : Prop :=
  exists r z, a = (r ++ z, length r) /\ length (r ++ z) = 1024%nat /\ 10 ∉ r /\ 0 ∉ r ++ u_in (user w) /\
    short (r ++ u_in (user w)) /\ willing (user w) /\
    u_out (user w) ++ grep_spec re (r ++ u_in (user w)) = out ++ grep_spec re content.

(** The bytes read, behind what was there, and a NUL. *)
Lemma fill_buffer r z d : length (r ++ z) = 1024%nat -> (length r + length d <= 1023)%nat -> exists z',
  <[(length r + length d)%nat := 0]> (splice (length r) d (r ++ z)) = (r ++ d) ++ 0 :: z' /\
  length ((r ++ d) ++ 0 :: z') = 1024%nat.
Proof.
  rewrite length_app. intros Hlen Hd. unfold splice. rewrite take_app_length, drop_app_ge by lia.
  replace (length r + length d - length r)%nat with (length d) by lia.
  pose proof (length_drop z (length d)) as Hz. destruct (drop (length d) z) as [|c z']; cbn [length] in Hz; [lia|].
  exists z'. rewrite insert_mid by done. rewrite <- app_assoc. split; [done|]. rewrite !length_app. cbn [length]. lia.
Qed.

Lemma grep_turn_wp content out a w : grep_inv content out a w ->
  wp (grep_turn pattern a) (fun x w' => match x with
    | inl a' => grep_inv content out a' w' /\ (length (u_in (user w')) < length (u_in (user w)))%nat
    | inr _ => u_in (user w') = [] /\ u_out (user w') = out ++ grep_spec re content
    end) w.
Proof.
  intros (r & z & -> & Hlen & Hr & Hn & Hs & Hc & Ho). pose proof (short_prefix _ _ Hr Hs) as Hr'.
  unfold grep_turn, BUF_SIZE. wp_step. apply u_read_wp; [done|lia|]. intros d rest cuts Ein Hl He Hc'. rewrite Ein in *.
  cbv beta iota zeta. destruct (decide (d = [])) as [->|Hd].
  { cbn. rewrite (He eq_refl) in *. split; [done|]. rewrite <- Ho, app_nil_r. unfold grep_spec. rewrite lines_none by done.
    cbn. by rewrite app_nil_r. }
  assert (0 < length d)%nat by (destruct d; [done|cbn; lia]).
  replace (Z.of_nat (length d) >? 0) with true by (symmetry; apply Z.gtb_lt; lia). cbn [negb]. rewrite Nat2Z.id.
  destruct (fill_buffer r z d Hlen) as (z' & Eb & Hlen'); [lia|]. rewrite Eb. wp_step.
  rewrite <- (length_app r d). rewrite (app_assoc r d rest) in *. set (D := r ++ d) in *.
  apply (grep_scan_wp _ [] D); [lia|set_solver|done|]. intros a Ha. cbn [app length Nat.add] in *.
  rewrite (proj2 (Nat.ltb_lt _ _)) by (subst D; rewrite length_app; lia). wp_step.
  destruct (lines_rest D) as [Hr1 [a1 HD]]. unfold writes. cbn [user u_in u_cuts u_lims u_out].
  split; [|rewrite !length_app; lia]. replace (length D - length a)%nat with (length (lines D).2) by lia.
  unfold slice. rewrite drop_app_length, take_app_length. unfold splice. rewrite take_0. cbn [app Nat.add].
  eexists _, _. split; [reflexivity|]. rewrite length_app, length_drop, !length_app in *. cbn [length] in *.
  split; [lia|]. split; [done|]. split.
  { intros Hin. apply Hn. rewrite HD. rewrite !elem_of_app in *. tauto. }
  split; [by apply short_app|]. split; [done|]. by rewrite <- Ho, (grep_spec_app re D rest), app_assoc.
Qed.
End Scan.

(** C39. However the system cuts the input into pieces, grep writes exactly the complete
    lines of it that match the pattern, in order and each with its newline, and reads to the
    end - for an input without NUL bytes whose lines have at most 1022
    characters, and as long as read() does not fail and write() takes what it is given. *)
Theorem grep_correct re after_re content cuts :
  0 ∉ re -> 0 ∉ content -> short content -> Forall (Z.le 0) cuts ->
  wp (grep (re ++ 0 :: after_re)) (fun _ w' => u_in (user w') = [] /\ u_out (user w') = grep_spec re content)
    (World [] [] (Uio content cuts [] [])).
Proof.
  intros Hre Hn Hs Hc. unfold grep. do 2 wp_step.
  apply wp_iter with (v := fun _ w => length (u_in (user w))) (I := grep_inv re content []).
  - exists [], (replicate 1024 0). cbn [app length u_in u_cuts u_out user]. rewrite length_replicate.
    repeat split; try done; [apply not_elem_of_nil|apply Hs|apply Hs].
  - cbn. lia.
  - intros a w Ha. by apply grep_turn_wp.
Qed.

(** Two lines, of which the first matches, in pieces of one, two and two bytes. *)
Lemma grep_correct_witness :
  wp (grep ([97] ++ [0])) (fun _ w' => u_in (user w') = [] /\ u_out (user w') = [(1, [97; 98; 10])])
    (World [] [] (Uio [97; 98; 10; 99; 10] [1; 2; 2] [] [])).
Proof.
  assert (forall x l, bool_decide (x ∈ l) = false -> x ∉ (l : list Z)) as Hno by (intros x l Hb; by apply bool_decide_eq_false in Hb).
  apply (grep_correct [97] [] [97; 98; 10; 99; 10] [1; 2; 2]); [apply Hno; reflexivity|apply Hno; reflexivity| |].
  - split; cbn; [repeat constructor; lia|lia].
  - repeat constructor; lia.
Defined.

(** ** Inputs outside the theorem *)

Definition grep_run (re content : list Z) : option uio :=
  match grep (re ++ [0]) (World [] [] (Uio content [] [] [])) with Ret (_, w) => Some (user w) | _ => None end.

(** A line of 1023 characters fills the buffer: grep stops as at the end of the file, with
    the matching line after it unread. *)
Example grep_long_line : grep_run [97] (replicate 1023 98 ++ [10; 97; 10]) = Some (Uio [10; 97; 10] [] [] []).
Proof. vm_compute. reflexivity. Qed.

(** A matching last line without a newline is not written, nor is one that follows a NUL. *)
Example grep_last_line : grep_run [97] [97] = Some (Uio [] [] [] []).
Proof. vm_compute. reflexivity. Qed.
Example grep_nul : grep_run [97] [98; 0; 10; 97; 10] = Some (Uio [] [] [] []).
Proof. vm_compute. reflexivity. Qed.
