(* ===== verification/TextTools.v ===== *)
(** * cat, wc and echo (user/cat.c, user/wc.c, user/echo.c, gets() of user/ulib.c)

    A function that may call exit() answers [Some status] when it does.  printf()
    writes its characters one at a time. *)

From S2P Require Import Prelude Machine CString Printf User.

Open Scope Z_scope.

(** ** user/printf.c *)

Definition u_printf (fd : Z) (fmt : list Z) (ap : list arg) : M uio unit :=
  let* s := the (vprintf fmt ap false) in
  for_each s (fun c => u_write fd [c] ;; ret tt).

(** ** cat *)

Definition cat_turn (_ : unit) : M uio (unit + option Z) :=
  let* ' (n, bs) := u_read 512 in
  if n >? 0 then
    let* r := u_write 1 bs in
    if negb (r =? n) then u_printf 2 (lit_bytes "cat: write error" ++ [10; 0]) [] ;; ret (inr (Some 1))
    else ret (inl tt)
  else if n <? 0 then u_printf 2 (lit_bytes "cat: read error" ++ [10; 0]) [] ;; ret (inr (Some 1))
  else ret (inr None).

Definition cat : M uio (option Z) :=
  let* s := get in iter (S (S (length (u_in s)))) cat_turn tt.

(** ** wc *)

(** [l], [w], [c] and [inword]. *)
Record wc_state := Wc { wc_l : Z; wc_w : Z; wc_c : Z; wc_inword : bool }.

(** The string of blanks, with its NUL. *)
Definition blanks : list Z := [32; 13; 9; 10; 11; 0].
Definition is_blank (c : Z) : bool := match u_strchr blanks c with Some (Some _) => true | _ => false end.

Definition wc_char (x : wc_state) (ch : Z) : wc_state :=
  let x := Wc (wc_l x) (wc_w x) (s32 (wc_c x + 1)) (wc_inword x) in
  let x := if ch =? 10 then Wc (s32 (wc_l x + 1)) (wc_w x) (wc_c x) (wc_inword x) else x in
  if is_blank ch then Wc (wc_l x) (wc_w x) (wc_c x) false
  else if negb (wc_inword x) then Wc (wc_l x) (s32 (wc_w x + 1)) (wc_c x) true
  else x.

Definition wc_turn (x : wc_state) : M uio (wc_state + Z * wc_state) :=
  let* ' (n, bs) := u_read 512 in
  if n >? 0 then ret (inl (fold_left wc_char bs x)) else ret (inr (n, x)).

Definition wc (name : list Z) : M uio (option Z) :=
  let* s := get in
  let* ' (n, x) := iter (S (S (length (u_in s)))) wc_turn (Wc 0 0 0 false) in
  if n <? 0 then u_printf 1 (lit_bytes "wc: read error" ++ [10; 0]) [] ;; ret (Some 1) else
  u_printf 1 (lit_bytes "%d %d %d %s" ++ [10; 0]) [AInt (wc_l x); AInt (wc_w x); AInt (wc_c x); AStr (Some name)] ;;
  ret None.

(** ** echo *)

(** The loop over the arguments after the first. *)
Fixpoint echo_args (argv : list (list Z)) : M uio unit :=
  match argv with
  | [] => ret tt
  | s :: t =>
      let* n := the (strlen s) in
      u_write 1 (take n s) ;;
      (match t with [] => u_write 1 [10] | _ => u_write 1 [32] end) ;;
      echo_args t
  end.
Definition echo (argv : list (list Z)) : M uio Z := echo_args (tail argv) ;; ret 0.

(** ** gets *)

(** One turn of the loop: [inl] is the buffer so far. *)
Definition gets_turn (max : Z) (buf : list Z) : M uio (list Z + list Z) :=
  if negb (Z.of_nat (length buf) + 1 <? max) then ret (inr buf) else
  let* ' (cc, bs) := u_read 1 in
  if cc <? 1 then ret (inr buf) else
  let* c := the (head bs) in
  let buf := buf ++ [c] in
  if (c =? 10) || (c =? 13) then ret (inr buf) else ret (inl buf).

(** What the buffer holds, its NUL included. *)
Definition u_gets (max : Z) : M uio (list Z) :=
  let* buf := iter (S (S (Z.to_nat max))) (gets_turn max) [] in
  ret (buf ++ [0]).

(** ** What they compute *)

(** The words of a text begin where a character that is no blank follows a blank or
    the beginning. *)
Definition newlines (s : list Z) : Z := Z.of_nat (length (filter (fun c => c = 10) s)).
Definition words (s : list Z) : Z :=
  Z.of_nat (length (filter (fun pc => is_blank pc.1 && negb (is_blank pc.2)) (zip (32 :: s) s))).

Lemma last_cons (d p : Z) s : List.last (d :: s) p = List.last s d.
Proof.
  revert d p. induction s as [|e s IH]; intros d p; [done|]. change (List.last (d :: e :: s) p) with (List.last (e :: s) p).
  by rewrite !IH.
Qed.

Lemma zip_snoc (p : Z) (s : list Z) (c : Z) : zip (p :: s ++ [c]) (s ++ [c]) = zip (p :: s) s ++ [(List.last s p, c)].
Proof.
  revert p. induction s as [|d s IH]; intros p; [done|].
  change (zip (p :: (d :: s) ++ [c]) ((d :: s) ++ [c])) with ((p, d) :: zip (d :: s ++ [c]) (s ++ [c])). rewrite (IH d).
  change (zip (p :: d :: s) (d :: s)) with ((p, d) :: zip (d :: s) s). cbn [app]. do 4 f_equal.
  symmetry. apply last_cons.
Qed.

Lemma words_snoc s c : words (s ++ [c]) = words s + if is_blank (List.last s 32) && negb (is_blank c) then 1 else 0.
Proof.
  unfold words. rewrite zip_snoc, list.filter_app, length_app, list.filter_cons. cbn [fst snd].
  destruct (is_blank _ && _); [rewrite decide_True by done|rewrite decide_False by (by intros [])]; cbn; lia.
Qed.

Lemma newlines_snoc s c : newlines (s ++ [c]) = newlines s + if c =? 10 then 1 else 0.
Proof.
  unfold newlines. rewrite list.filter_app, length_app, list.filter_cons. destruct (Z.eqb_spec c 10) as [->|].
  - rewrite decide_True by done. cbn. lia.
  - rewrite decide_False by done. cbn. lia.
Qed.

Lemma counts_bound s : 0 <= newlines s <= Z.of_nat (length s) /\ 0 <= words s <= Z.of_nat (length s).
Proof.
  unfold newlines, words. split; (split; [lia|]); apply inj_le.
  - apply length_filter.
  - etrans; [apply length_filter|]. rewrite length_zip_with. cbn [length]. lia.
Qed.

Lemma wc_fold s : Z.of_nat (length s) < 2 ^ 31 ->
  fold_left wc_char s (Wc 0 0 0 false) = Wc (newlines s) (words s) (Z.of_nat (length s)) (negb (is_blank (List.last s 32))).
Proof.
  induction s as [|c s IH] using rev_ind; intros Hl; [done|]. rewrite length_app in *. cbn [length] in *.
  rewrite fold_left_app, IH, newlines_snoc, words_snoc, last_last by lia. pose proof (counts_bound s). cbn [fold_left].
  unfold wc_char. cbn [wc_l wc_w wc_c wc_inword]. rewrite Nat2Z.inj_add. cbn [Z.of_nat]. change (Z.of_nat 1) with 1.
  destruct (Z.eqb_spec c 10) as [->|Hc].
  - change (is_blank 10) with true. cbn [wc_l wc_w wc_c wc_inword negb].
    rewrite !s32_small by lia. by rewrite andb_false_r, Z.add_0_r.
  - destruct (is_blank c) eqn:Eb; cbn [wc_l wc_w wc_c wc_inword negb].
    + rewrite andb_false_r, !Z.add_0_r, s32_small by lia. done.
    + rewrite andb_true_r. destruct (is_blank (List.last s 32)); cbn [negb wc_l wc_w wc_c wc_inword];
        rewrite ?Z.add_0_r, !s32_small by lia; done.
Qed.

(** The loops over read(). *)
Lemma put_chars_wp fd s (Q : unit -> world uio -> Prop) w : u_lims (user w) = [] ->
  Q tt (writes ((fun c => (fd, [c])) <$> s) w) -> wp (for_each s (fun c => u_write fd [c] ;; ret tt)) Q w.
Proof.
  revert w. induction s as [|c s IH]; intros w Hl HQ; cbn [for_each].
  - wp_step. cbn in HQ. by rewrite writes_nil in HQ.
  - do 2 wp_step. apply u_write_wp; [done|]. wp_step. apply IH; [done|]. by rewrite outputs_app.
Qed.

Lemma written_cons fd bs l : written fd ((fd, bs) :: l) = bs ++ written fd l.
Proof. rewrite <- (written_one fd bs) at 2. apply (written_app fd [(fd, bs)]). Qed.

Lemma written_chars fd s : written fd ((fun c => (fd, [c])) <$> s) = s.
Proof. induction s as [|c s IH]; [done|]. rewrite fmap_cons, written_cons. by rewrite IH. Qed.

Lemma printint_some xx : 0 <= xx < 2 ^ 31 -> exists s, printint true xx 10 true = Some s.
Proof.
  intros Hx. unfold printint. destruct (true && (xx <? 0)) eqn:E; [cbn in E; lia|]. rewrite u32_small by lia.
  destruct (digits_loop_spec 9 16 true xx 10) as (ds & -> & _); [lia..|]. eauto.
Qed.

Lemma put_str_name name after : 0 ∉ name -> put_str (name ++ 0 :: after) = Some name.
Proof.
  induction name as [|c t IH]; intros Hn; [done|]. apply not_elem_of_cons in Hn as [Hc Hn]. cbn [app put_str].
  by rewrite (proj2 (Z.eqb_neq c 0)), IH by done.
Qed.

Lemma vprintf_d fmt z ap : vprintf (37 :: 100 :: fmt) (AInt z :: ap) false = prepend (printint true z 10 true) (vprintf fmt ap false).
Proof. done. Qed.
Lemma vprintf_s fmt s ap :
  vprintf (37 :: 115 :: fmt) (AStr (Some s) :: ap) false = prepend (put_str s) (vprintf fmt ap false).
Proof. done. Qed.
Lemma vprintf_blank fmt ap : vprintf (32 :: fmt) ap false = prepend (Some [32]) (vprintf fmt ap false).
Proof. done. Qed.

Lemma wc_line_some a b c name after : 0 <= a < 2 ^ 31 -> 0 <= b < 2 ^ 31 -> 0 <= c < 2 ^ 31 -> 0 ∉ name -> exists s,
  vprintf (lit_bytes "%d %d %d %s" ++ [10; 0]) [AInt a; AInt b; AInt c; AStr (Some (name ++ 0 :: after))] false = Some s.
Proof.
  intros Ha Hb Hc Hn. destruct (printint_some a Ha) as [x Ex], (printint_some b Hb) as [y Ey], (printint_some c Hc) as [z Ez].
  change (lit_bytes "%d %d %d %s" ++ [10; 0]) with [37; 100; 32; 37; 100; 32; 37; 100; 32; 37; 115; 10; 0].
  rewrite vprintf_d, Ex, vprintf_blank, vprintf_d, Ey, vprintf_blank, vprintf_d, Ez, vprintf_blank, vprintf_s, put_str_name by done.
  eexists. reflexivity.
Qed.

(** A read in a loop that goes on until the end: the part [done] of the input has
    been dealt with. *)
Definition reading (content done : list Z) (s : uio) : Prop := content = done ++ u_in s /\ willing s.

Lemma wc_turn_wp content x w : (exists done, reading content done (user w) /\ x = fold_left wc_char done (Wc 0 0 0 false) /\ u_out (user w) = []) ->
  wp (wc_turn x) (fun r w' => match r with
    | inl x' => (exists done, reading content done (user w') /\ x' = fold_left wc_char done (Wc 0 0 0 false) /\ u_out (user w') = []) /\
                (length (u_in (user w')) < length (u_in (user w)))%nat
    | inr (n, x') => n = 0 /\ x' = fold_left wc_char content (Wc 0 0 0 false) /\ u_in (user w') = [] /\ u_lims (user w') = [] /\
                     u_out (user w') = []
    end) w.
Proof.
  intros (dn & [Hd Hw] & -> & Ho). unfold wc_turn. wp_step. apply u_read_wp; [done|lia|]. intros bs rest cuts Ein Hl He Hc.
  rewrite Ein in *. destruct bs as [|b bs].
  - cbn. rewrite (He eq_refl), app_nil_r in *. by subst.
  - rewrite (proj2 (Z.gtb_lt _ _)) by (cbn; lia). wp_step. split; [|rewrite length_app; cbn; lia].
    exists (dn ++ b :: bs). split; [split; [by rewrite <- app_assoc|done]|]. by rewrite fold_left_app.
Qed.

(** However the system cuts the input into pieces, wc prints the number of
    newlines, of words - maximal runs of characters other than blanks - and of bytes of
    the whole input, and the name; for an input of less than 2^31 bytes and as
    long as read() does not fail and write() takes what it is given. *)
Theorem wc_correct content cuts name after_name :
  0 ∉ name -> Z.of_nat (length content) < 2 ^ 31 -> Forall (Z.le 0) cuts ->
  wp (wc (name ++ 0 :: after_name)) (fun r w' => r = None /\ u_in (user w') = [] /\
      vprintf (lit_bytes "%d %d %d %s" ++ [10; 0])
        [AInt (newlines content); AInt (words content); AInt (Z.of_nat (length content)); AStr (Some (name ++ 0 :: after_name))] false
      = Some (written 1 (u_out (user w'))))
    (World [] [] (Uio content cuts [] [])).
Proof.
  intros Hn Hl Hc. unfold wc. do 2 wp_step. wp_step.
  eapply wp_iter with (v := fun _ w => length (u_in (user w)))
    (I := fun x w => exists done, reading content done (user w) /\ x = fold_left wc_char done (Wc 0 0 0 false) /\ u_out (user w) = []).
  - exists []. done.
  - cbn. lia.
  - intros x w Hx. eapply wp_mono; [by apply (wc_turn_wp content)|]. intros [x'|[n x']] w'; [done|].
    intros (-> & -> & Hin & Hlim & Ho). rewrite wc_fold by done. cbn [wc_l wc_w wc_c]. change (0 <? 0) with false. cbv iota.
    destruct (wc_line_some (newlines content) (words content) (Z.of_nat (length content)) name after_name) as [s Es];
      [pose proof (counts_bound content); lia..|done|].
    wp_step. unfold u_printf. wp_step. eapply wp_the; [exact Es|]. apply put_chars_wp; [done|]. wp_step.
    split; [done|]. split; [done|]. rewrite Es. unfold writes. cbn [user u_out]. rewrite Ho. cbn [app].
    by rewrite written_chars.
Qed.

Lemma wc_correct_witness :
  wp (wc (lit "f")) (fun r w' => r = None /\ u_in (user w') = [] /\
      Some (lit_bytes "2 3 9 f" ++ [10]) = Some (written 1 (u_out (user w'))))
    (World [] [] (Uio [97; 98; 32; 99; 10; 32; 100; 101; 10] [4; 1] [] [])).
Proof.
  apply (wc_correct [97; 98; 32; 99; 10; 32; 100; 101; 10] [4; 1] [102] []); [|vm_compute; reflexivity|repeat constructor; lia].
  intros Hin. apply list_elem_of_singleton in Hin. discriminate.
Defined.

(** ** cat copies *)

Lemma cat_turn_wp content w : (exists done, reading content done (user w) /\ written 1 (u_out (user w)) = done) ->
  wp (cat_turn tt) (fun r w' => match r with
    | inl _ => (exists done, reading content done (user w') /\ written 1 (u_out (user w')) = done) /\
               (length (u_in (user w')) < length (u_in (user w)))%nat
    | inr x => x = None /\ u_in (user w') = [] /\ u_lims (user w') = [] /\ written 1 (u_out (user w')) = content
    end) w.
Proof.
  intros (dn & [Hd Hw] & Ho). unfold cat_turn. wp_step. apply u_read_wp; [done|lia|]. intros bs rest cuts Ein Hl He Hc.
  rewrite Ein in *. destruct bs as [|b bs].
  - cbn -[written]. rewrite (He eq_refl), app_nil_r in *. do 3 (split; [done|]).
    cbn [user u_out]. by rewrite Ho, Hd.
  - rewrite (proj2 (Z.gtb_lt _ _)) by (cbn; lia). wp_step. apply u_write_wp; [done|]. rewrite Z.eqb_refl. cbn [negb]. wp_step.
    unfold writes. cbn [user u_out u_in]. split; [|rewrite length_app; cbn [length]; lia]. exists (dn ++ b :: bs).
    split; [split; [by rewrite <- app_assoc|done]|]. by rewrite written_app, written_one, Ho.
Qed.

Lemma cat_wp w : willing (user w) ->
  wp cat (fun r w' => r = None /\ u_in (user w') = [] /\ u_lims (user w') = [] /\
    written 1 (u_out (user w')) = written 1 (u_out (user w)) ++ u_in (user w)) w.
Proof.
  intros Hw. unfold cat. do 2 wp_step. set (content := _ ++ u_in (user w)).
  eapply wp_iter with (v := fun _ w => length (u_in (user w)))
    (I := fun _ w => exists done, reading content done (user w) /\ written 1 (u_out (user w)) = done).
  - eexists. done.
  - cbn. lia.
  - intros [] w' Hx. eapply wp_mono; [by apply (cat_turn_wp content)|]. by intros [x'|x'] w''.
Qed.

Lemma cat_correct content cuts : Forall (Z.le 0) cuts ->
  wp cat (fun r w' => r = None /\ u_in (user w') = [] /\ written 1 (u_out (user w')) = content) (World [] [] (Uio content cuts [] [])).
Proof. intros Hc. eapply wp_mono; [by apply cat_wp|]. by intros r w' (-> & ? & _ & ?). Qed.

(** A write() that takes less than it is given ends cat with status 1. *)
Example cat_short_write :
  (fun r => match r with Ret (x, w) => Some (x, u_out (user w)) | _ => None end)
    (cat (World [] [] (Uio [97; 98; 99] [] [2; 16] []))) =
  Some (Some 1, (1, [97; 98]) :: ((fun c => (2, [c])) <$> (lit_bytes "cat: write error" ++ [10]))).
Proof. vm_compute. reflexivity. Qed.
