(* ===== verification/Umalloc.v ===== *)
(** * malloc and free (user/umalloc.c)

    Kernighan and Ritchie's allocator.  A block is a header of 16 bytes - a
    pointer and a size in units of 16 bytes - and the memory after it.  The free
    blocks are on a circular list in address order, with the static header
    [base] as its lowest element.  The model keeps the two words of each header;
    [hp_brk] is the end of the process's memory, and touching a header beyond it is
    a fault, the panic of this model.  sbrk() is the system call of
    kernel/sysproc.c, whose argument is an int: [hp_grants] says whether the
    kernel finds the memory the next times, and a negative argument gives memory
    back unless the result would be negative, which growproc() ignores. *)

From S2P Require Import Prelude.

Open Scope Z_scope.

Record heap := Heap {
  hp_hdr : gmap Z (Z * Z);       (* ptr and size of the header at an address *)
  hp_freep : Z;
  hp_brk : Z;
  hp_grants : list bool
}.

Definition hp_set_hdr v h := Heap v (hp_freep h) (hp_brk h) (hp_grants h).
Definition hp_set_freep v h := Heap (hp_hdr h) v (hp_brk h) (hp_grants h).
Definition hp_set_brk v h := Heap (hp_hdr h) (hp_freep h) v (hp_grants h).
Definition hp_set_grants v h := Heap (hp_hdr h) (hp_freep h) (hp_brk h) v.

(** sizeof(Header) *)
Definition UNIT : Z := 16.
(** The most memory a process can have: the physical memory of the machine. *)
Definition MEM_MAX : Z := 128 * 1024 * 1024.

Section Umalloc.
(** The addresses of [base] and of the end of the program's static data. *)
Variables base start : Z.
Abbreviation H := (M heap).

(** ** Memory *)

Definition mapped (h : heap) (a : Z) : bool := (a =? base) || ((start <=? a) && (a + UNIT <=? hp_brk h)).

Definition rd_hdr (a : Z) : H (Z * Z) :=
  let* h := get in
  if mapped h a then ret (default (0, 0) (hp_hdr h !! a)) else panic "fault".
Definition wr_hdr (a : Z) (f : Z * Z -> Z * Z) : H unit :=
  let* x := rd_hdr a in modify (fun h => hp_set_hdr (<[a := f x]> (hp_hdr h)) h).

Definition hptr (a : Z) : H Z := let* x := rd_hdr a in ret x.1.
Definition hsize (a : Z) : H Z := let* x := rd_hdr a in ret x.2.
Definition set_ptr (a v : Z) : H unit := wr_hdr a (fun x => (v, x.2)).
Definition set_size (a v : Z) : H unit := wr_hdr a (fun x => (x.1, v)).
Definition set_freep (v : Z) : H unit := modify (hp_set_freep v).

Definition sbrk (n : Z) : H Z :=
  let* h := get in
  if n >? 0 then
    if (hd true (hp_grants h)) && (hp_brk h + n <=? MEM_MAX)
    then put (hp_set_grants (tail (hp_grants h)) (hp_set_brk (hp_brk h + n) h)) ;; ret (hp_brk h)
    else put (hp_set_grants (tail (hp_grants h)) h) ;; ret (-1)
  else
    (if hp_brk h + n <? 0 then ret tt else put (hp_set_brk (hp_brk h + n) h)) ;;
    ret (hp_brk h).

(** ** free() *)

(** One turn of the search for the place of [bp]. *)
Definition free_turn (bp p : Z) : H (Z + Z) :=
  let* np := hptr p in
  if (p <? bp) && (bp <? np) then ret (inr p) else
  if (np <=? p) && ((p <? bp) || (bp <? np)) then ret (inr p) else ret (inl np).

Definition free (ap : Z) : H unit :=
  let bp := ap - UNIT in
  let* h := get in
  let* p := iter (S (size (hp_hdr h))) (free_turn bp) (hp_freep h) in
  let* bs := hsize bp in
  let* np := hptr p in
  (if bp + bs * UNIT =? np then
     let* ns := hsize np in
     set_size bp (u32 (bs + ns)) ;;
     let* nn := hptr np in
     set_ptr bp nn
   else set_ptr bp np) ;;
  let* ps := hsize p in
  (if p + ps * UNIT =? bp then
     let* bs := hsize bp in
     set_size p (u32 (ps + bs)) ;;
     let* bn := hptr bp in
     set_ptr p bn
   else set_ptr p bp) ;;
  set_freep p.

(** ** malloc() *)

Definition morecore (nu : Z) : H Z :=
  let nu := if nu <? 4096 then 4096 else nu in
  let* p := sbrk (s32 (nu * UNIT)) in
  if p =? -1 then ret 0 else
  set_size p nu ;;
  free (p + UNIT) ;;
  gets hp_freep.

(** One turn of the search, with the loop variables [prevp] and [p]. *)
Definition malloc_turn (nunits : Z) (a : Z * Z) : H (Z * Z + Z) :=
  let '(prevp, p) := a in
  let* s := hsize p in
  if s >=? nunits then
    let* p :=
      (if s =? nunits then
         let* np := hptr p in
         set_ptr prevp np ;;
         ret p
       else
         set_size p (u32 (s - nunits)) ;;
         let* s := hsize p in
         let p := p + s * UNIT in
         set_size p nunits ;;
         ret p) in
    set_freep prevp ;;
    ret (inr (p + UNIT))
  else
    let* f := gets hp_freep in
    let* p := (if p =? f then morecore nunits else ret p) in
    if p =? 0 then ret (inr 0) else
    let* np := hptr p in
    ret (inl (p, np)).

Definition nunits_of (nbytes : Z) : Z := (nbytes + UNIT - 1) / UNIT + 1.

Definition malloc (nbytes : Z) : H Z :=
  let nunits := nunits_of nbytes in
  let* f := gets hp_freep in
  let* prevp :=
    (if f =? 0 then
       set_ptr base base ;;
       set_freep base ;;
       set_size base 0 ;;
       ret base
     else ret f) in
  let* p := hptr prevp in
  let* h := get in
  iter (2 * size (hp_hdr h) + 5) (malloc_turn nunits) (prevp, p).
End Umalloc.

Definition demo_heap : heap := Heap ∅ 0 4096 [].

(** ** The free list *)

Section Invariant.
Variables base start : Z.
Hypothesis base_pos : 0 < base.
Hypothesis base_start : base + UNIT <= start.
Hypothesis start_max : start <= MEM_MAX.
Implicit Types (N : list (Z * Z)) (m : gmap Z (Z * Z)).

(** The headers of [N], each pointing to the next and the last to [e]. *)
Fixpoint seg m N (e : Z) : Prop :=
  match N with
  | [] => True
  | (a, n) :: N' => m !! a = Some (hd e N'.*1, n) /\ seg m N' e
  end.

(** Blocks in address order, apart from each other; a header takes its unit even with
    size 0. *)
Definition before (x y : Z * Z) : Prop := x.1 + Z.max 1 x.2 * UNIT <= y.1.
Fixpoint ordered N : Prop :=
  match N with
  | [] => True
  | x :: N' => Forall (before x) N' /\ ordered N'
  end.

(** A block of at least one unit below [hi]. *)
Definition within (hi : Z) (x : Z * Z) : Prop := start <= x.1 /\ 0 < x.2 /\ x.1 + x.2 * UNIT <= hi.

Definition apart (x y : Z * Z) : Prop := before x y \/ before y x.

(** *** Segments *)

Lemma seg_app m N N' e : seg m (N ++ N') e <-> seg m N (hd e N'.*1) /\ seg m N' e.
Proof.
  induction N as [|[a n] N IH]; cbn [app seg]; [tauto|]. rewrite IH. destruct N as [|[b k] N]; cbn; tauto.
Qed.

Lemma seg_insert m N e a x : a ∉ N.*1 -> seg (<[a := x]> m) N e <-> seg m N e.
Proof.
  induction N as [|[b n] N IH]; intros Hn; cbn [seg]; [done|]. apply not_elem_of_cons in Hn as [Hb Hn].
  rewrite lookup_insert_ne by done. by rewrite IH.
Qed.

Lemma ordered_app N N' : ordered (N ++ N') <-> ordered N /\ ordered N' /\ (forall x y, x ∈ N -> y ∈ N' -> before x y).
Proof.
  induction N as [|x N IH]; cbn [app ordered].
  - split; [|tauto]. intros Ho. do 2 (split; [done|]). by intros x y ?%elem_of_nil.
  - rewrite IH, list.Forall_app, !list.Forall_forall. split.
    + intros [[H1 H2] (H3 & H4 & H5)]. split; [by split|]. split; [done|]. intros y z [->|Hy]%elem_of_cons Hz; auto.
    + intros [[H1 H2] [H3 H4]]. split; [split; [done|]|split; [done|split; [done|]]].
      * intros y Hy. apply H4; [by left|done].
      * intros y z Hy Hz. apply H4; [by right|done].
Qed.

(** *** Accesses *)

Definition with_hdr m (w : world heap) : world heap := World (held w) (trace w) (hp_set_hdr m (user w)).
Abbreviation hdr w := (hp_hdr (user w)).
Abbreviation ok w a := (mapped base start (user w) a = true).

Lemma mapped_node w l a n : Forall (within (hp_brk (user w))) l -> (a, n) ∈ (base, 0) :: l -> ok w a.
Proof.
  intros Hl [[= -> ->]|Hin]%elem_of_cons; unfold mapped; [by rewrite Z.eqb_refl|].
  rewrite list.Forall_forall in Hl. apply Hl in Hin as (H1 & H2 & H3). cbn in *. unfold UNIT in *. apply orb_true_iff. right.
  apply andb_true_iff. split; apply Z.leb_le; lia.
Qed.

Lemma hptr_wp a q n (Q : Z -> world heap -> Prop) w : ok w a -> hdr w !! a = Some (q, n) -> Q q w -> wp (hptr base start a) Q w.
Proof. intros Hm Ha HQ. unfold hptr, rd_hdr. do 3 wp_step. rewrite Hm, Ha. do 2 wp_step. done. Qed.
Lemma hsize_wp a q n (Q : Z -> world heap -> Prop) w : ok w a -> hdr w !! a = Some (q, n) -> Q n w -> wp (hsize base start a) Q w.
Proof. intros Hm Ha HQ. unfold hsize, rd_hdr. do 3 wp_step. rewrite Hm, Ha. do 2 wp_step. done. Qed.
Lemma set_ptr_wp a v (Q : unit -> world heap -> Prop) w : ok w a ->
  Q tt (with_hdr (<[a := (v, (default (0, 0) (hdr w !! a)).2)]> (hdr w)) w) -> wp (set_ptr base start a v) Q w.
Proof. intros Hm HQ. unfold set_ptr, wr_hdr, rd_hdr. do 3 wp_step. rewrite Hm. do 2 wp_step. done. Qed.
Lemma set_size_wp a v (Q : unit -> world heap -> Prop) w : ok w a ->
  Q tt (with_hdr (<[a := ((default (0, 0) (hdr w !! a)).1, v)]> (hdr w)) w) -> wp (set_size base start a v) Q w.
Proof. intros Hm HQ. unfold set_size, wr_hdr, rd_hdr. do 3 wp_step. rewrite Hm. do 2 wp_step. done. Qed.

(** *** The place of a block in the list *)

Lemma split_at bp bs N : 0 < bs -> ordered N -> Forall (fun x => 0 <= x.2) N -> Forall (apart (bp, bs)) N ->
  exists P Q, N = P ++ Q /\ Forall (fun x => before x (bp, bs)) P /\ Forall (before (bp, bs)) Q.
Proof.
  intros Hb. induction N as [|x N IH]; intros Ho Hz Ha; [by exists [], []|].
  cbn in Ho. destruct Ho as [Hx Ho]. apply Forall_cons_1 in Hz as [Hz Hzs], Ha as [Ha Has].
  destruct (IH Ho Hzs Has) as (P & Q & -> & HP & HQ). destruct Ha as [Ha|Ha].
  - exists [], (x :: P ++ Q). split; [done|]. split; [constructor|]. constructor; [done|].
    eapply list.Forall_impl; [exact Hx|]. unfold before, UNIT in *. cbn in *. lia.
  - exists (x :: P), Q. split; [done|]. split; [by constructor|done].
Qed.

(** In the search for [bp], [P] are the headers below it and [R] those above. *)
Section Search.
Variables (P R : list (Z * Z)) (bp : Z) (w : world heap).
Hypothesis Hseg : seg (hdr w) (P ++ R) base.
Hypothesis Hok : forall x, x ∈ P ++ R -> ok w x.1.
Hypothesis Hinc : forall U x V y, P ++ R = U ++ x :: V -> y ∈ V -> x.1 < y.1.
Hypothesis HP : forall x, x ∈ P -> base <= x.1 < bp.
Hypothesis HR : forall x, x ∈ R -> bp < x.1.

Lemma node_ptr U x V : P ++ R = U ++ x :: V -> hdr w !! x.1 = Some (hd base V.*1, x.2) /\ ok w x.1.
Proof.
  intros E. split; [|apply Hok; rewrite E; apply elem_of_app; right; left].
  rewrite E in Hseg. apply seg_app in Hseg as [_ Hs]. destruct x. apply Hs.
Qed.

Lemma walk_below P2 P1 x fuel : P = P1 ++ x :: P2 -> (length P2 < fuel)%nat ->
  wp (iter fuel (free_turn base start bp) x.1) (fun r w' => w' = w /\ exists P0 ps, P = P0 ++ [(r, ps)]) w.
Proof.
  revert P1 x fuel. induction P2 as [|y P2 IH]; intros P1 x fuel E Hf; (destruct fuel as [|fuel]; [cbn in Hf; lia|]); cbn [iter].
  - destruct (node_ptr P1 x R) as [Hx Hm]; [by rewrite E, <- app_assoc|].
    assert (base <= x.1 < bp) as Hlt by (apply HP; rewrite E; apply elem_of_app; right; left).
    wp_step. unfold free_turn. wp_step. eapply hptr_wp; [done|exact Hx|].
    assert (w = w /\ exists P0 ps, P = P0 ++ [(x.1, ps)]) as Hpost by (split; [done|]; exists P1, x.2; by destruct x).
    rewrite (proj2 (Z.ltb_lt x.1 bp)) by lia. destruct R as [|y R']; cbn [fmap list_fmap hd].
    + rewrite (proj2 (Z.ltb_ge bp base)), (proj2 (Z.leb_le base x.1)) by lia. by do 2 wp_step.
    + assert (bp < y.1) by (apply HR; left). rewrite (proj2 (Z.ltb_lt bp y.1)) by lia. by do 2 wp_step.
  - destruct (node_ptr P1 x ((y :: P2) ++ R)) as [Hx Hm]; [by rewrite E, <- app_assoc|].
    assert (base <= x.1 < bp) by (apply HP; rewrite E; apply elem_of_app; right; left).
    assert (base <= y.1 < bp) by (apply HP; rewrite E; apply elem_of_app; right; right; left).
    assert (x.1 < y.1) by (eapply (Hinc P1 x ((y :: P2) ++ R)); [by rewrite E, <- app_assoc|left]).
    wp_step. unfold free_turn. wp_step. eapply hptr_wp; [done|exact Hx|]. cbn [app fmap list_fmap hd].
    rewrite (proj2 (Z.ltb_lt x.1 bp)), (proj2 (Z.ltb_ge bp y.1)), (proj2 (Z.leb_gt y.1 x.1)) by lia. cbn [andb]. wp_step.
    apply (IH (P1 ++ [x])); [by rewrite <- app_assoc|cbn in Hf; lia].
Qed.

Lemma walk_above R2 R1 x fuel n0 P' : P = (base, n0) :: P' -> R = R1 ++ x :: R2 -> (length R2 + length P < fuel)%nat ->
  wp (iter fuel (free_turn base start bp) x.1) (fun r w' => w' = w /\ exists P0 ps, P = P0 ++ [(r, ps)]) w.
Proof.
  intros EP. revert R1 x fuel. induction R2 as [|y R2 IH]; intros R1 x fuel E Hf; (destruct fuel as [|fuel]; [lia|]); cbn [iter].
  all: assert (bp < x.1) by (apply HR; rewrite E; apply elem_of_app; right; left).
  all: assert (base < bp) by (pose proof (HP (base, n0) ltac:(rewrite EP; left)); cbn in *; lia).
  - destruct (node_ptr (P ++ R1) x []) as [Hx Hm]; [by rewrite E, <- app_assoc|].
    wp_step. unfold free_turn. wp_step. eapply hptr_wp; [done|exact Hx|]. cbn [fmap list_fmap hd].
    rewrite (proj2 (Z.ltb_ge x.1 bp)), (proj2 (Z.ltb_ge bp base)), (proj2 (Z.leb_le base x.1)) by lia. cbn [andb orb]. wp_step.
    apply (walk_below P' [] (base, n0)); [done|]. rewrite EP in Hf. cbn in Hf. lia.
  - destruct (node_ptr (P ++ R1) x (y :: R2)) as [Hx Hm]; [by rewrite E, <- app_assoc|].
    assert (x.1 < y.1) by (eapply (Hinc (P ++ R1) x (y :: R2)); [by rewrite E, <- app_assoc|left]).
    wp_step. unfold free_turn. wp_step. eapply hptr_wp; [done|exact Hx|]. cbn [fmap list_fmap hd].
    rewrite (proj2 (Z.ltb_ge x.1 bp)), (proj2 (Z.leb_gt y.1 x.1)) by lia. cbn [andb orb]. wp_step.
    apply (IH (R1 ++ [x])); [by rewrite <- app_assoc|cbn in Hf; lia].
Qed.
End Search.

(** *** The list after free() *)

(** [b] joined with what follows it, and put behind [p]. *)
Definition join_right (b : Z * Z) (R : list (Z * Z)) : (Z * Z) * list (Z * Z) :=
  match R with
  | (a, n) :: R' => if b.1 + b.2 * UNIT =? a then ((b.1, b.2 + n), R') else (b, R)
  | [] => (b, [])
  end.
Definition put_block (P0 : list (Z * Z)) (p b : Z * Z) (R : list (Z * Z)) : list (Z * Z) :=
  let '(b', R') := join_right b R in
  if p.1 + p.2 * UNIT =? b'.1 then P0 ++ (p.1, p.2 + b'.2) :: R' else P0 ++ p :: b' :: R'.

(** A list of headers that starts with [base]. *)
Definition node (hi : Z) (x : Z * Z) : Prop := x = (base, 0) \/ within hi x.
Definition good (hi : Z) N : Prop := ordered N /\ Forall (node hi) N /\ head N = Some (base, 0).

(** What lies apart from the parts lies apart from the whole. *)
Definition spares (x : Z * Z) N : Prop := forall y, y ∈ N -> y <> (base, 0) -> apart x y.

Lemma good_insert hi P0 p R b : good hi (P0 ++ p :: R) -> within hi b -> Forall (fun x => before x b) (P0 ++ [p]) ->
  Forall (before b) R -> good hi (P0 ++ p :: b :: R).
Proof.
  intros (Ho & Hn & Hh) Hb Hl Hr. rewrite list.Forall_forall in Hl, Hr. split; [|split].
  - apply ordered_app in Ho as (H1 & [H2 H3] & H4). rewrite list.Forall_forall in H2.
    apply ordered_app. split; [done|]. split.
    + cbn. rewrite !list.Forall_forall. split; [|by split]. intros y [->|Hy]%elem_of_cons; [|by apply H2]. apply Hl, elem_of_app.
      right. left.
    + intros x y Hx [->|[->|Hy]%elem_of_cons]%elem_of_cons; [apply H4; [done|left]| |apply H4; [done|by right]].
      apply Hl, elem_of_app. by left.
  - rewrite list.Forall_app in *. destruct Hn as [H1 H2]. split; [done|]. apply Forall_cons_1 in H2 as [H2 H3].
    constructor; [done|]. constructor; [by right|done].
  - by destruct P0.
Qed.

Lemma good_merge hi U a n b k V : good hi (U ++ (a, n) :: (b, k) :: V) -> a + n * UNIT = b -> a <> base ->
  good hi (U ++ (a, n + k) :: V).
Proof.
  intros (Ho & Hn & Hh) E Hne. rewrite list.Forall_app in Hn. destruct Hn as [Hn1 Hn2].
  apply Forall_cons_1 in Hn2 as [Ha Hn2]. apply Forall_cons_1 in Hn2 as [Hb Hn2].
  destruct Ha as [[= -> ->]|Ha]; [done|]. assert (within hi (b, k)) as Hb'.
  { destruct Hb as [[= -> ->]|]; [|done]. unfold within, UNIT in *. cbn in *. lia. }
  unfold within, UNIT in *. cbn in *. apply ordered_app in Ho as (H1 & [H2 [H3 H4]] & H5). split; [|split].
  - apply ordered_app. split; [done|]. split.
    + split; [|done]. eapply list.Forall_impl; [exact H3|]. unfold before, UNIT. cbn. lia.
    + intros x y Hx [->|Hy]%elem_of_cons; [|apply H5; [done|by right; right]].
      specialize (H5 x (a, n) Hx ltac:(left)). unfold before in *. cbn in *. lia.
  - rewrite list.Forall_app. split; [done|]. constructor; [|done]. right. cbn. unfold within, UNIT. cbn. lia.
  - destruct U; [|done]. cbn in *. congruence.
Qed.

Lemma spares_merge x U a n b k V : 0 < x.2 -> a + n * UNIT = b -> a <> base -> b <> base ->
  spares x (U ++ (a, n) :: (b, k) :: V) -> spares x (U ++ (a, n + k) :: V).
Proof.
  intros Hx E Ha Hb Hs y Hy Hne. apply elem_of_app in Hy as [Hy|[->|Hy]%elem_of_cons].
  - apply Hs; [apply elem_of_app; by left|done].
  - pose proof (Hs (a, n) ltac:(apply elem_of_app; right; left) ltac:(congruence)) as H1.
    pose proof (Hs (b, k) ltac:(apply elem_of_app; right; right; left) ltac:(congruence)) as H2.
    unfold apart, before, UNIT in *. cbn in *. lia.
  - apply Hs; [apply elem_of_app; right; by right; right|done].
Qed.

Lemma before_start hi b : within hi b -> b.1 <> base.
Proof. unfold within, UNIT in *. intros (H1 & _). lia. Qed.

(** The right join, as a step of [good] lists. *)
Lemma join_right_good hi P0 p R b : good hi (P0 ++ p :: b :: R) -> within hi b ->
  let '(b', R') := join_right b R in
  good hi (P0 ++ p :: b' :: R') /\ within hi b' /\ b'.1 = b.1 /\ b.2 <= b'.2 /\
  (forall x, 0 < x.2 -> spares x (P0 ++ p :: b :: R) -> spares x (P0 ++ p :: b' :: R')).
Proof.
  intros Hg Hb. destruct R as [|[a n] R]; cbn [join_right]; [done|]. destruct (Z.eqb_spec (b.1 + b.2 * UNIT) a) as [E|E]; [|done].
  pose proof (before_start hi b Hb) as Hne. destruct b as [b k]. cbn [fst snd] in *.
  assert (node hi (a, n)) as Ha.
  { destruct Hg as (_ & Hn & _). rewrite list.Forall_forall in Hn. apply Hn, elem_of_app. right. right. right. left. }
  assert (within hi (a, n)) as Ha'.
  { destruct Ha as [[= -> ->]|]; [|done]. unfold within, UNIT in *. cbn in *. lia. }
  replace (P0 ++ p :: (b, k) :: (a, n) :: R) with ((P0 ++ [p]) ++ (b, k) :: (a, n) :: R) in * by (by rewrite <- app_assoc).
  replace (P0 ++ p :: (b, k + n) :: R) with ((P0 ++ [p]) ++ (b, k + n) :: R) by (by rewrite <- app_assoc).
  split; [by eapply good_merge|]. split; [unfold within, UNIT in *; cbn in *; lia|]. split; [done|].
  split; [unfold within in Ha'; cbn in *; lia|]. intros x Hx. apply spares_merge; [done|done|done|]. by apply (before_start hi (a, n)).
Qed.

Lemma put_block_good hi P0 p R b : good hi (P0 ++ p :: R) -> within hi b -> Forall (fun x => before x b) (P0 ++ [p]) ->
  Forall (before b) R ->
  good hi (put_block P0 p b R) /\ p.1 ∈ (put_block P0 p b R).*1 /\
  (exists y, y ∈ put_block P0 p b R /\ y <> (base, 0) /\ b.2 <= y.2) /\
  (forall x, 0 < x.2 -> apart x b -> spares x (P0 ++ p :: R) -> spares x (put_block P0 p b R)).
Proof.
  intros Hg Hb Hl Hr. pose proof (good_insert hi P0 p R b Hg Hb Hl Hr) as Hg1.
  assert (forall x, apart x b -> spares x (P0 ++ p :: R) -> spares x (P0 ++ p :: b :: R)) as Hsp.
  { intros x Hx Hs y Hy Hne. apply elem_of_app in Hy as [Hy|[->|[->|Hy]%elem_of_cons]%elem_of_cons]; [|..|]; try done;
      apply Hs; try done; apply elem_of_app; [by left|by right; left|by right; right]. }
  unfold put_block. pose proof (join_right_good hi P0 p R b Hg1 Hb) as Hj. destruct (join_right b R) as [b' R'].
  destruct Hj as (Hg2 & Hb' & Eb & Hk & Hs2). pose proof (before_start hi b' Hb') as Hne.
  destruct (Z.eqb_spec (p.1 + p.2 * UNIT) b'.1) as [E|E].
  - assert (p <> (base, 0)) as Hp by (intros ->; destruct Hb' as [? _]; unfold UNIT in *; cbn in E; lia).
    assert (node hi p) as Hn.
    { destruct Hg as (_ & Hn & _). rewrite list.Forall_forall in Hn. apply Hn, elem_of_app. right. left. }
    destruct Hn as [|Hn]; [done|]. pose proof (before_start hi p Hn) as Hne'. destruct p as [p ps], b' as [b' k]. cbn [fst snd] in *.
    split; [by eapply good_merge|]. split; [rewrite fmap_app; apply elem_of_app; right; left|]. split.
    + exists (p, ps + k). split; [apply elem_of_app; right; left|]. split; [intros [= ? _]; done|]. unfold within in Hn. cbn in *. lia.
    + intros x Hx Hxb Hxs. eapply spares_merge; [done|exact E|done|done|]. by apply Hs2, Hsp.
  - split; [done|]. split; [rewrite fmap_app; apply elem_of_app; right; left|]. split.
    + exists b'. split; [apply elem_of_app; right; right; left|]. split; [|done]. by intros ->.
    + intros x Hx Hxb Hxs. by apply Hs2, Hsp.
Qed.

(** The headers after free(). *)
Definition linked m (P0 : list (Z * Z)) (p b : Z * Z) (R : list (Z * Z)) : gmap Z (Z * Z) :=
  let '(b', R') := join_right b R in
  let m1 := <[b.1 := (hd base R'.*1, b'.2)]> m in
  <[p.1 := if p.1 + p.2 * UNIT =? b.1 then (hd base R'.*1, p.2 + b'.2) else (b.1, p.2)]> m1.

Lemma join_right_suffix b R : exists R0, R = R0 ++ (join_right b R).2.
Proof.
  destruct R as [|[a n] R]; cbn [join_right]; [by exists []|]. destruct (_ =? a); [by exists [(a, n)]|by exists []].
Qed.
Lemma join_right_addr b R : (join_right b R).1.1 = b.1.
Proof. destruct R as [|[a n] R]; cbn [join_right]; [done|]. by destruct (_ =? a). Qed.

Lemma seg_linked m P0 p b R : seg m (P0 ++ p :: R) base -> NoDup (P0 ++ p :: R).*1 -> b.1 ∉ (P0 ++ p :: R).*1 ->
  seg (linked m P0 p b R) (put_block P0 p b R) base.
Proof.
  intros Hs Hnd Hb. destruct p as [p ps]. apply seg_app in Hs as [Hs0 [Hp Hs1]]. rewrite fmap_app, fmap_cons in Hnd, Hb.
  apply list.NoDup_app in Hnd as (_ & Hd & Hnd). apply list.NoDup_cons in Hnd as [HpR _].
  rewrite not_elem_of_app, not_elem_of_cons in Hb. destruct Hb as (Hb0 & Hbp & HbR). cbn [fst] in *.
  assert (p ∉ P0.*1) as HpP by (intros Hin; apply (Hd p Hin); left).
  unfold linked, put_block. destruct (join_right_suffix b R) as [R0 HR]. pose proof (join_right_addr b R) as Ha.
  destruct (join_right b R) as [b' R']. cbn [fst snd] in *. rewrite HR in HpR, HbR, Hs1. apply seg_app in Hs1 as [_ Hs1].
  rewrite fmap_app, not_elem_of_app in HpR, HbR. destruct HpR as [_ HpR], HbR as [_ HbR]. rewrite Ha.
  assert (forall x y, seg (<[p := x]> (<[b.1 := y]> m)) R' base) as HR'.
  { intros x y. by rewrite !seg_insert. }
  assert (forall x y e, e = p -> seg (<[p := x]> (<[b.1 := y]> m)) P0 e) as HP'.
  { intros x y e ->. by rewrite !seg_insert. }
  destruct (p + ps * UNIT =? b.1).
  - apply seg_app. split; [by apply HP'|]. cbn [seg]. by rewrite lookup_insert_eq.
  - apply seg_app. split; [by apply HP'|]. cbn [seg]. rewrite lookup_insert_eq. destruct b' as [b0 k]. cbn in Ha. subst b0. cbn.
    split; [done|]. by rewrite lookup_insert_ne, lookup_insert_eq by done.
Qed.

(** Headers in order have different addresses. *)
Lemma ordered_increasing N U x V y : ordered N -> N = U ++ x :: V -> y ∈ V -> x.1 < y.1.
Proof.
  intros Ho -> Hy. apply ordered_app in Ho as (_ & [Hx _] & _). rewrite list.Forall_forall in Hx. specialize (Hx y Hy).
  unfold before, UNIT in Hx. lia.
Qed.

Lemma ordered_NoDup N : ordered N -> NoDup N.*1.
Proof.
  induction N as [|x N IH]; intros Ho; [constructor|]. cbn [fmap list_fmap]. apply list.NoDup_cons. split; [|by apply IH, Ho].
  intros ([y1 y2] & E & Hy)%list_elem_of_fmap. pose proof (ordered_increasing _ [] x N _ Ho eq_refl Hy). cbn in *. lia.
Qed.

(** ** free() *)

Lemma seg_size m N e : seg m N e -> NoDup N.*1 -> (length N <= size m)%nat.
Proof.
  intros Hs Hnd. rewrite <- (length_fmap fst N), <- (size_list_to_set (C := gset Z) N.*1 Hnd), <- size_dom.
  apply subseteq_size. intros a Ha. apply elem_of_list_to_set, list_elem_of_fmap in Ha as ([b n] & -> & Hin).
  apply list_elem_of_split in Hin as (U & V & ->). apply seg_app in Hs as [_ [Hm _]]. apply elem_of_dom. eauto.
Qed.

Lemma node_mapped w N x : Forall (node (hp_brk (user w))) N -> x ∈ N -> ok w x.1.
Proof.
  intros Hn Hx. rewrite list.Forall_forall in Hn. destruct (Hn x Hx) as [->|(H1 & H2 & H3)]; unfold mapped; [by rewrite Z.eqb_refl|].
  unfold UNIT in *. apply orb_true_iff. right. apply andb_true_iff. split; apply Z.leb_le; lia.
Qed.

Lemma within_mapped w x : within (hp_brk (user w)) x -> ok w x.1.
Proof. intros Hx. apply (node_mapped w [x]); [constructor; [by right|constructor]|left]. Qed.

(** Adding units to a block in memory does not wrap its size around. *)
Lemma size_u32 hi x : within hi x -> hi <= MEM_MAX -> u32 x.2 = x.2.
Proof. unfold within, UNIT, MEM_MAX. intros (H1 & H2 & H3) Hh. apply u32_small. unfold UNIT in *. lia. Qed.

(** The search, from any header of the list. *)
Lemma search_wp N P R bp w : N = P ++ R -> good (hp_brk (user w)) N -> seg (hdr w) N base -> hp_freep (user w) ∈ N.*1 ->
  P <> [] -> (forall x, x ∈ P -> base <= x.1 < bp) -> (forall x, x ∈ R -> bp < x.1) ->
  wp (iter (S (size (hdr w))) (free_turn base start bp) (hp_freep (user w)))
    (fun r w' => w' = w /\ exists P0 ps, P = P0 ++ [(r, ps)]) w.
Proof.
  intros -> Hg Hs Hf HP0 HP HR. pose proof (proj1 Hg) as Ho.
  assert (length (P ++ R) < S (size (hdr w)))%nat as Hlen.
  { apply Nat.lt_succ_r, (seg_size _ _ base); [done|]. by apply ordered_NoDup. }
  assert (forall U x V y, P ++ R = U ++ x :: V -> y ∈ V -> x.1 < y.1) as Hinc by (intros; by eapply ordered_increasing).
  assert (forall x, x ∈ P ++ R -> ok w x.1) as Hok by (intros; eapply node_mapped; [apply Hg|done]).
  destruct P as [|x0 P]; [done|]. destruct Hg as (_ & _ & Hh). cbn in Hh. injection Hh as ->.
  apply list_elem_of_fmap in Hf as (x & -> & Hx). rewrite length_app in Hlen.
  apply elem_of_app in Hx as [(P1 & P2 & E)%list_elem_of_split|(R1 & R2 & E)%list_elem_of_split].
  - apply (walk_below _ R bp w Hs Hok Hinc HP HR P2 P1); [done|]. rewrite E, length_app in Hlen. cbn in Hlen. lia.
  - eapply (walk_above _ R bp w Hs Hok Hinc HP HR R2 R1); [done|done|]. rewrite E, length_app in Hlen. cbn in *. lia.
Qed.

Lemma mapped_with m w x : ok (with_hdr m w) x = ok w x.
Proof. done. Qed.

(** The two halves of free(): joining with the block above, and with the one below. *)
Lemma free_right_wp P0 p b R (Q : unit -> world heap -> Prop) w :
  let N := P0 ++ p :: R in
  good (hp_brk (user w)) (P0 ++ p :: b :: R) -> seg (hdr w) N base -> b.1 ∉ N.*1 -> within (hp_brk (user w)) b ->
  snd <$> hdr w !! b.1 = Some b.2 -> hp_brk (user w) <= MEM_MAX ->
  Q tt (with_hdr (<[b.1 := (hd base (join_right b R).2.*1, (join_right b R).1.2)]> (hdr w)) w) ->
  wp (let np := hd base R.*1 in
      if b.1 + b.2 * UNIT =? np then
        let* ns := hsize base start np in
        set_size base start b.1 (u32 (b.2 + ns)) ;;
        let* nn := hptr base start np in
        set_ptr base start b.1 nn
      else set_ptr base start b.1 np) Q w.
Proof.
  intros N Hg Hs Hb Hw Hsz Hmax HQ. cbv zeta. pose proof (within_mapped w b Hw) as Hmb.
  destruct (hdr w !! b.1) as [[q k]|] eqn:Eb; [|done]. cbn in Hsz. injection Hsz as ->.
  pose proof (join_right_good _ _ _ _ _ Hg Hw) as Hj.
  destruct R as [|[a n] R]; cbn [join_right fmap list_fmap hd fst snd] in *.
  - destruct (Z.eqb_spec (b.1 + b.2 * UNIT) base) as [E|E]; [unfold within, UNIT in *; lia|].
    apply set_ptr_wp; [done|]. by rewrite Eb.
  - destruct (Z.eqb_spec (b.1 + b.2 * UNIT) a) as [E|E]; cbn [fst snd] in *; [|apply set_ptr_wp; [done|]; by rewrite Eb].
    destruct Hj as (_ & Hw' & _). apply size_u32 in Hw' as Hu; [|done]. cbn [snd] in Hu.
    subst N. rewrite fmap_app, !fmap_cons, not_elem_of_app, !not_elem_of_cons in Hb. cbn [fst] in Hb.
    apply seg_app in Hs as [_ Hs]. destruct p as [p ps]. destruct Hs as [_ [Ha _]].
    assert (ok w a) as Hma by (apply (node_mapped w (P0 ++ (p, ps) :: b :: (a, n) :: R) (a, n)); [apply Hg|apply elem_of_app; do 3 right; left]).
    wp_step. eapply hsize_wp; [exact Hma|exact Ha|]. rewrite Hu. wp_step. apply set_size_wp; [done|]. rewrite Eb. cbn [default fst].
    wp_step. eapply hptr_wp; [exact Hma|cbn; rewrite lookup_insert_ne by tauto; exact Ha|].
    apply set_ptr_wp; [done|]. cbn. rewrite lookup_insert_eq. cbn. unfold with_hdr in *. cbn. by rewrite insert_insert_eq.
Qed.

Lemma free_left_wp (p b x : Z * Z) (Q : unit -> world heap -> Prop) w :
  ok w p.1 -> ok w b.1 -> snd <$> hdr w !! p.1 = Some p.2 -> hdr w !! b.1 = Some x -> p.1 <> b.1 -> u32 (p.2 + x.2) = p.2 + x.2 ->
  Q tt (with_hdr (<[p.1 := if p.1 + p.2 * UNIT =? b.1 then (x.1, p.2 + x.2) else (b.1, p.2)]> (hdr w)) w) ->
  wp (if p.1 + p.2 * UNIT =? b.1 then
        let* bs := hsize base start b.1 in
        set_size base start p.1 (u32 (p.2 + bs)) ;;
        let* bn := hptr base start b.1 in
        set_ptr base start p.1 bn
      else set_ptr base start p.1 b.1) Q w.
Proof.
  intros Hp Hb Ep Eb Hne Hu HQ. destruct (hdr w !! p.1) as [[q k]|] eqn:E; [|done]. cbn in Ep. injection Ep as ->. destruct x as [xp xn].
  cbn [fst snd] in *. destruct (_ =? b.1); [|apply set_ptr_wp; [done|]; by rewrite E].
  wp_step. eapply hsize_wp; [done|exact Eb|]. rewrite Hu. wp_step. apply set_size_wp; [done|]. rewrite E. cbn [default fst].
  wp_step. eapply hptr_wp; [done|cbn; rewrite lookup_insert_ne by done; exact Eb|].
  apply set_ptr_wp; [done|]. cbn. rewrite lookup_insert_eq. cbn. unfold with_hdr in *. cbn. by rewrite insert_insert_eq.
Qed.

(** Where a block belongs. *)
Lemma place_of hi N b : good hi N -> within hi b -> spares b N -> exists P R, N = P ++ R /\ P <> [] /\ b.1 ∉ N.*1 /\
  (forall x, x ∈ P -> before x b /\ base <= x.1 < b.1) /\ (forall x, x ∈ R -> before b x /\ b.1 < x.1).
Proof.
  intros Hg Hw Hsp. destruct b as [bp bs]. cbn [fst snd].
  assert (base < bp /\ 0 < bs) as [Hbb Hbs] by (destruct Hw as (H1 & H2 & H3); unfold UNIT in *; cbn in *; lia).
  destruct (split_at bp bs N) as (P & R & EN & HP & HR); [done|apply Hg| | |].
  { eapply list.Forall_impl; [apply Hg|]. intros x [->|(? & ? & _)]; cbn; lia. }
  { apply list.Forall_forall. intros x Hx. destruct (decide (x = (base, 0))) as [->|Hne]; [|by apply Hsp].
    right. unfold before, within, UNIT in *. cbn in *. lia. }
  rewrite list.Forall_forall in HP, HR.
  assert (forall x, x ∈ N -> base <= x.1) as Hlow.
  { intros x Hx. destruct Hg as (_ & Hn & _). rewrite list.Forall_forall in Hn.
    destruct (Hn x Hx) as [->|(? & _)]; unfold UNIT in *; cbn; lia. }
  assert (forall x, x ∈ P -> before x (bp, bs) /\ base <= x.1 < bp) as HP'.
  { intros x Hx. specialize (HP x Hx). split; [done|]. unfold before, UNIT in HP. cbn in HP.
    split; [apply Hlow; rewrite EN; apply elem_of_app; by left|lia]. }
  assert (forall x, x ∈ R -> before (bp, bs) x /\ bp < x.1) as HR'.
  { intros x Hx. specialize (HR x Hx). split; [done|]. unfold before, UNIT in HR. cbn in HR. lia. }
  exists P, R. split; [done|]. split; [|split; [|done]].
  - intros ->. destruct Hg as (_ & _ & Hh). cbn in EN. rewrite EN in Hh. destruct R as [|x R]; [done|]. injection Hh as ->.
    specialize (HR' (base, 0) ltac:(left)). cbn in HR'. lia.
  - intros ([x1 x2] & E & Hx)%list_elem_of_fmap. cbn in E. subst x1. rewrite EN in Hx.
    apply elem_of_app in Hx as [Hx|Hx]; [specialize (HP' _ Hx)|specialize (HR' _ Hx)]; cbn in *; lia.
Qed.

Lemma node_size hi x : node hi x -> hi <= MEM_MAX -> 0 <= x.2 <= 2 ^ 24.
Proof. unfold node, within, UNIT, MEM_MAX in *. intros [->|(H1 & H2 & H3)] Hh; cbn; lia. Qed.

Lemma free_wp l b (Q : unit -> world heap -> Prop) w :
  let N := (base, 0) :: l in let hi := hp_brk (user w) in
  good hi N -> seg (hdr w) N base -> hp_freep (user w) ∈ N.*1 -> hi <= MEM_MAX ->
  within hi b -> snd <$> hdr w !! b.1 = Some b.2 -> spares b N ->
  (forall P0 p R, N = P0 ++ p :: R -> Forall (fun x => before x b) (P0 ++ [p]) -> Forall (before b) R -> b.1 ∉ N.*1 ->
     Q tt (World (held w) (trace w) (Heap (linked (hdr w) P0 p b R) p.1 hi (hp_grants (user w))))) ->
  wp (free base start (b.1 + UNIT)) Q w.
Proof.
  intros N hi Hg Hs Hf Hmax Hw Hsz Hsp HQ. destruct (place_of hi N b Hg Hw Hsp) as (P & R & EN & HP0 & Hnb & HP & HR).
  unfold free. replace (b.1 + UNIT - UNIT) with b.1 by lia. cbv zeta. do 2 wp_step. wp_step.
  eapply wp_mono; [apply (search_wp N P R b.1 w); try done; [apply HP|apply HR]|].
  intros r w' [-> (P0 & ps & ->)]. clear HP0. rewrite <- app_assoc in EN. cbn [app] in EN.
  assert (Forall (fun x => before x b) (P0 ++ [(r, ps)])) as HPf by (apply list.Forall_forall; apply HP).
  assert (Forall (before b) R) as HRf by (apply list.Forall_forall; apply HR).
  assert (good hi (P0 ++ (r, ps) :: b :: R)) as Hg1 by (apply good_insert; [by rewrite <- EN|done|done|done]).
  assert ((r, ps) ∈ N) as HrN by (rewrite EN; apply elem_of_app; right; left).
  assert (ok w r) as Hmr by (apply (node_mapped w N (r, ps)); [apply Hg|done]).
  pose proof (within_mapped w b Hw) as Hmb. rewrite EN in Hs, Hnb. pose proof Hs as Hs'. apply seg_app in Hs' as [_ [Hr _]].
  destruct (hdr w !! b.1) as [[q k]|] eqn:Eb; [|done]. assert (k = b.2) as -> by (cbn in Hsz; congruence).
  wp_step. eapply hsize_wp; [done|exact Eb|]. wp_step. eapply hptr_wp; [done|exact Hr|].
  wp_step. apply (free_right_wp P0 (r, ps) b R); [done|done|done|done|by rewrite Eb|done|].
  assert (r <> b.1) as Hrb by (rewrite fmap_app, fmap_cons in Hnb; set_solver).
  wp_step. eapply hsize_wp; [done|cbn; rewrite lookup_insert_ne by done; exact Hr|]. wp_step.
  eapply (free_left_wp (r, ps) b); [done|done|cbn; by rewrite lookup_insert_ne, Hr|cbn; by rewrite lookup_insert_eq|done| |].
  - cbn [fst snd]. pose proof (join_right_good _ _ _ _ _ Hg1 Hw) as Hj. destruct (join_right b R) as [b' R']. destruct Hj as (_ & Hw' & _).
    pose proof (node_size hi b' (or_intror Hw') Hmax). destruct Hg as (_ & Hn & _). rewrite list.Forall_forall in Hn.
    pose proof (node_size hi (r, ps) (Hn _ HrN) Hmax). cbn in *. apply u32_small. lia.
  - unfold set_freep. wp_step. specialize (HQ P0 (r, ps) R EN HPf HRf). rewrite EN in HQ. specialize (HQ Hnb). unfold linked in HQ.
    destruct (join_right b R) as [b' R']. exact HQ.
Qed.

(** ** The invariant *)

(** [l] are the free blocks in address order and [A] the blocks handed out: the
    sizes in units by the addresses of their headers. *)
Record heap_inv (h : heap) (l : list (Z * Z)) (A : gmap Z Z) : Prop := {
  hi_list : seg (hp_hdr h) ((base, 0) :: l) base;
  hi_good : good (hp_brk h) ((base, 0) :: l);
  hi_freep : hp_freep h ∈ ((base, 0) :: l).*1;
  hi_block : forall a n, A !! a = Some n -> within (hp_brk h) (a, n) /\ snd <$> hp_hdr h !! a = Some n /\ spares (a, n) ((base, 0) :: l);
  hi_apart : forall a n b k, A !! a = Some n -> A !! b = Some k -> a <> b -> apart (a, n) (b, k);
  hi_brk : start <= hp_brk h <= MEM_MAX
}.

Lemma apart_ne x y : apart x y -> x.1 <> y.1.
Proof. unfold apart, before, UNIT. lia. Qed.

(** A block handed out has its header apart from those of the list. *)
Lemma block_not_node h l A a n x : heap_inv h l A -> A !! a = Some n -> x ∈ (base, 0) :: l -> a <> x.1.
Proof.
  intros Hi Ha Hx. destruct (hi_block _ _ _ Hi a n Ha) as (Hw & _ & Hs). destruct (decide (x = (base, 0))) as [->|Hne].
  - by apply (before_start (hp_brk h) (a, n)).
  - by apply (apart_ne (a, n) x), Hs.
Qed.

Lemma good_cons hi N : good hi N -> exists l, N = (base, 0) :: l.
Proof. intros (_ & _ & Hh). destruct N as [|x l]; [done|]. injection Hh as ->. by exists l. Qed.

(** free() of a block that nobody else has. *)
Lemma free_block_inv l A b w : heap_inv (user w) l A -> within (hp_brk (user w)) b -> snd <$> hdr w !! b.1 = Some b.2 ->
  spares b ((base, 0) :: l) -> (forall a n, A !! a = Some n -> apart (a, n) b) ->
  wp (free base start (b.1 + UNIT)) (fun _ w' => exists l', heap_inv (user w') l' A /\ hp_brk (user w') = hp_brk (user w) /\
    size (hdr w') = size (hdr w) /\ exists y, y ∈ l' /\ b.2 <= y.2) w.
Proof.
  intros Hi Hw Hsz Hsp HA. pose proof (hi_brk _ _ _ Hi) as Hbrk.
  apply (free_wp l b); [apply Hi|apply Hi|apply Hi|lia|done|done|done|]. intros P0 p R EN HP HR Hnb.
  pose proof (hi_good _ _ _ Hi) as Hg. rewrite EN in Hg. destruct (put_block_good _ P0 p R b Hg Hw HP HR) as (Hg' & Hp & (y & Hy & Hyb & Hyn) & Hs').
  destruct (good_cons _ _ Hg') as [l' El]. exists l'. rewrite El in *. split; [|split; [done|split]].
  - split; cbn [user hp_hdr hp_freep hp_brk]; [|done|done| |by apply Hi|done].
    + rewrite <- El. rewrite EN in Hnb. apply seg_linked; [rewrite <- EN; apply Hi| |done]. by apply ordered_NoDup, Hg.
    + intros a n Ha. destruct (hi_block _ _ _ Hi a n Ha) as (Hwa & Hna & Hsa). split; [done|]. split.
      * unfold linked. destruct (join_right b R) as [b' R']. assert (a <> b.1) by (by apply (apart_ne (a, n) b), (HA a n)).
        assert (a <> p.1) by (eapply block_not_node; [done|done|rewrite EN; apply elem_of_app; right; left]).
        by rewrite !lookup_insert_ne by done.
      * rewrite EN in Hsa. apply Hs'; [by destruct Hwa as (_ & ? & _)|by apply (HA a n)|done].
  - pose proof (hi_list _ _ _ Hi) as Hs. rewrite EN in Hs, Hnb. apply seg_app in Hs as [_ Hs]. cbn [user hp_hdr]. unfold linked.
    destruct (join_right b R) as [b' R'], p as [p ps]. destruct Hs as [Ep _]. destruct (hdr w !! b.1) eqn:Eb; [|done].
    cbn [fst]. assert (b.1 <> p) by (rewrite fmap_app, fmap_cons in Hnb; set_solver).
    rewrite !map_size_insert_Some; [done|by rewrite Eb|]. rewrite lookup_insert_ne by done. eauto.
  - exists y. apply elem_of_cons in Hy as [->|Hy]; [done|]. done.
Qed.

Lemma free_inv l A a n w : heap_inv (user w) l A -> A !! a = Some n ->
  wp (free base start (a + UNIT)) (fun _ w' => exists l', heap_inv (user w') l' (delete a A) /\ hp_brk (user w') = hp_brk (user w)) w.
Proof.
  intros Hi Ha. destruct (hi_block _ _ _ Hi a n Ha) as (Hw & Hn & Hs). assert (heap_inv (user w) l (delete a A)) as Hi'.
  { split; try apply Hi; intros b k; [|intros c j]; rewrite !lookup_delete_Some; intros [Hb ?]; [by apply Hi|]. intros [Hc ?]. by apply Hi. }
  eapply wp_mono; [apply (free_block_inv l (delete a A) (a, n)); try done|].
  - intros b k (Hne & Hb)%lookup_delete_Some. by eapply (hi_apart _ _ _ Hi).
  - intros [] w' (l' & H1 & H2 & _ & _). by exists l'.
Qed.

(** ** malloc() *)

(** Taking a block of [n] units from the block behind [prevp]. *)
Definition take_from (n : Z) (prevp p : Z) : M heap (Z * Z + Z) :=
  let* s := hsize base start p in
  let* p :=
    (if s =? n then
       let* np := hptr base start p in
       set_ptr base start prevp np ;;
       ret p
     else
       set_size base start p (u32 (s - n)) ;;
       let* s := hsize base start p in
       let p := p + s * UNIT in
       set_size base start p n ;;
       ret p) in
  set_freep prevp ;;
  ret (inr (p + UNIT)).

Lemma good_remove hi U x y V : good hi (U ++ x :: y :: V) -> good hi (U ++ x :: V).
Proof.
  intros (Ho & Hn & Hh). split; [|split].
  - apply ordered_app in Ho as (H1 & [H2 [H3 H4]] & H5). apply ordered_app. split; [done|]. split.
    + split; [by apply Forall_cons_1 in H2 as [_ ?]|done].
    + intros a b Ha [->|Hb]%elem_of_cons; apply H5; [done|left|done|by right; right].
  - rewrite list.Forall_app in *. destruct Hn as [H1 H2]. split; [done|]. apply Forall_cons_1 in H2 as [H2 H3].
    apply Forall_cons_1 in H3 as [_ H3]. by constructor.
  - by destruct U.
Qed.

Lemma good_shrink hi U p s n V : good hi (U ++ (p, s) :: V) -> p <> base -> 0 < n < s -> good hi (U ++ (p, n) :: V).
Proof.
  intros (Ho & Hn & Hh) Hne Hlt. split; [|split].
  - apply ordered_app in Ho as (H1 & [H2 H3] & H5). apply ordered_app. split; [done|]. split.
    + split; [|done]. eapply list.Forall_impl; [exact H2|]. unfold before, UNIT. cbn. lia.
    + intros a b Ha [->|Hb]%elem_of_cons; [|apply H5; [done|by right]]. by apply (H5 a (p, s) Ha); left.
  - rewrite list.Forall_app in *. destruct Hn as [H1 H2]. split; [done|]. apply Forall_cons_1 in H2 as [[[= -> ->]|H2] H3]; [done|].
    constructor; [|done]. right. unfold within, UNIT in *. cbn in *. lia.
  - destruct U; [|done]. cbn in *. congruence.
Qed.

(** [y] is part of [z]. *)
Definition part_of (y z : Z * Z) : Prop := z.1 <= y.1 /\ y.1 + y.2 * UNIT <= z.1 + z.2 * UNIT /\ 0 < y.2.

Lemma apart_part x y z : 0 < x.2 -> part_of y z -> apart x z -> apart x y.
Proof. unfold part_of, apart, before, UNIT. lia. Qed.

Lemma spares_sub x N N' z : 0 < x.2 -> z ∈ N -> z <> (base, 0) -> (forall y, y ∈ N' -> y ∈ N \/ part_of y z) -> spares x N -> spares x N'.
Proof.
  intros Hx Hz Hzb Hsub Hs y Hy Hne. destruct (Hsub y Hy) as [Hin|Hp]; [by apply Hs|]. eapply apart_part; [done|done|]. by apply Hs.
Qed.

(** Handing out a part [(a, n)] of the free block [z]. *)
Lemma cut_inv h h' l l' A z a n : heap_inv h l A -> z ∈ (base, 0) :: l -> z <> (base, 0) -> part_of (a, n) z ->
  hp_brk h' = hp_brk h -> seg (hp_hdr h') ((base, 0) :: l') base -> good (hp_brk h) ((base, 0) :: l') ->
  hp_freep h' ∈ ((base, 0) :: l').*1 -> (forall y, y ∈ (base, 0) :: l' -> y ∈ (base, 0) :: l \/ part_of y z) ->
  spares (a, n) ((base, 0) :: l') -> snd <$> hp_hdr h' !! a = Some n ->
  (forall b, b ∉ ((base, 0) :: l).*1 -> b <> a -> hp_hdr h' !! b = hp_hdr h !! b) ->
  heap_inv h' l' (<[a := n]> A) /\ A !! a = None.
Proof.
  intros Hi Hz Hzb Hp Hbrk Hs Hg Hf Hsub Hsa Hna Hframe.
  assert (within (hp_brk h) z) as Hwz.
  { destruct (hi_good _ _ _ Hi) as (_ & Hn & _). rewrite list.Forall_forall in Hn. by destruct (Hn z Hz). }
  assert (forall b k, A !! b = Some k -> apart (b, k) (a, n)) as Hab.
  { intros b k Hb. destruct (hi_block _ _ _ Hi b k Hb) as ((_ & Hk & _) & _ & Hsb). eapply apart_part; [done|done|]. by apply Hsb. }
  assert (A !! a = None) as HNone.
  { destruct (A !! a) as [k|] eqn:E; [|done]. exfalso. by apply (apart_ne _ _ (Hab a k E)). }
  split; [|done]. split; rewrite ?Hbrk; try done; [| |apply Hi].
  - intros b k. destruct (decide (b = a)) as [->|Hne].
    + rewrite lookup_insert_eq. intros [= <-]. split; [|done]. unfold within, part_of, UNIT in *. cbn in *. lia.
    + rewrite lookup_insert_ne by done. intros Hb. destruct (hi_block _ _ _ Hi b k Hb) as (Hwb & Hkb & Hsb).
      split; [done|]. split.
      * rewrite Hframe; [done| |done]. intros (x & E & Hx)%list_elem_of_fmap. by apply (block_not_node _ _ _ _ _ x Hi Hb Hx).
      * eapply spares_sub; [apply Hwb|exact Hz|done|exact Hsub|exact Hsb].
  - intros b k c j. destruct (decide (b = a)) as [->|Hb], (decide (c = a)) as [->|Hc];
      rewrite ?lookup_insert_eq, ?lookup_insert_ne by done; [done|intros [= <-] Hcj _|intros Hbk [= <-] _|by apply Hi].
    + destruct (Hab c j Hcj); [by right|by left].
    + by apply Hab.
Qed.

Lemma ordered_around U x V y : ordered (U ++ x :: V) -> (y ∈ U -> before y x) /\ (y ∈ V -> before x y).
Proof.
  intros (_ & [Hx _] & HU)%ordered_app. rewrite list.Forall_forall in Hx. split; [intros Hy; apply HU; [done|left]|apply Hx].
Qed.

Lemma NoDup_around U x V : NoDup (U ++ x :: V : list (Z * Z)).*1 -> x.1 ∉ U.*1 /\ x.1 ∉ V.*1.
Proof.
  rewrite fmap_app, fmap_cons. intros (_ & Hd & Hnd)%list.NoDup_app. apply list.NoDup_cons in Hnd as [HV _].
  split; [|done]. intros Hin. apply (Hd _ Hin). left.
Qed.

Lemma take_exact h l A U pp ps p k V : heap_inv h l A -> (base, 0) :: l = U ++ (pp, ps) :: (p, k) :: V -> p <> base ->
  exists l', heap_inv (Heap (<[pp := (hd base V.*1, ps)]> (hp_hdr h)) pp (hp_brk h) (hp_grants h)) l' (<[p := k]> A) /\ A !! p = None.
Proof.
  intros Hi EN Hne. pose proof (hi_list _ _ _ Hi) as Hs. pose proof (hi_good _ _ _ Hi) as Hg. rewrite EN in Hs, Hg.
  pose proof (good_remove _ _ _ _ _ Hg) as Hg'. destruct (good_cons _ _ Hg') as [l' El]. exists l'.
  pose proof (proj1 Hg) as Ho. pose proof (ordered_NoDup _ Ho) as Hnd. pose proof (NoDup_around _ _ _ Hnd) as [HU HpV].
  cbn [fst fmap list_fmap] in HU, HpV. apply not_elem_of_cons in HpV as [Hpp HV].
  apply seg_app in Hs as [Hs0 [Epp [Ep Hs1]]]. rewrite El in Hg'.
  assert (Forall (node (hp_brk h)) (U ++ (pp, ps) :: (p, k) :: V)) as Hn by apply Hg. rewrite list.Forall_forall in Hn.
  assert (0 < k) as Hk.
  { destruct (Hn (p, k)) as [[= -> ->]|(_ & ? & _)]; [apply elem_of_app; right; right; left|done|done]. }
  apply (cut_inv h _ l l' A (p, k) p k Hi); cbn [hp_hdr hp_brk hp_freep]; try done.
  - rewrite EN. apply elem_of_app. right. right. left.
  - congruence.
  - rewrite <- El. apply seg_app. rewrite !seg_insert by done. split; [done|]. cbn [seg]. rewrite lookup_insert_eq.
    split; [done|]. by rewrite seg_insert.
  - rewrite <- El, fmap_app, fmap_cons. apply elem_of_app. right. left.
  - intros y. rewrite <- El, EN. intros [Hy|[->|Hy]%elem_of_cons]%elem_of_app; left; apply elem_of_app; [by left|right; left|by right; right; right].
  - intros y. rewrite <- El. intros Hy _. replace (U ++ (pp, ps) :: (p, k) :: V) with ((U ++ [(pp, ps)]) ++ (p, k) :: V) in Ho by (by rewrite <- app_assoc).
    destruct (ordered_around _ _ _ y Ho) as [H1 H2]. apply elem_of_app in Hy as [Hy|[->|Hy]%elem_of_cons];
      [right; apply H1, elem_of_app; by left|right; apply H1, elem_of_app; right; left|left; by apply H2].
  - rewrite lookup_insert_ne by done. by rewrite Ep.
  - intros b Hb _. rewrite lookup_insert_ne; [done|]. intros <-. apply Hb. rewrite EN, fmap_app. apply elem_of_app. right. left.
Qed.

Lemma take_split h l A U pp ps p k V n x : heap_inv h l A -> (base, 0) :: l = U ++ (pp, ps) :: (p, k) :: V -> p <> base -> 0 < n < k ->
  let a := p + (k - n) * UNIT in
  exists l', heap_inv (Heap (<[a := (x, n)]> (<[p := (hd base V.*1, k - n)]> (hp_hdr h))) pp (hp_brk h) (hp_grants h)) l' (<[a := n]> A) /\
    A !! a = None.
Proof.
  intros Hi EN Hne Hn a. pose proof (hi_list _ _ _ Hi) as Hs. pose proof (hi_good _ _ _ Hi) as Hg. rewrite EN in Hs, Hg.
  replace (U ++ (pp, ps) :: (p, k) :: V) with ((U ++ [(pp, ps)]) ++ (p, k) :: V) in * by (by rewrite <- app_assoc).
  set (W := U ++ [(pp, ps)]) in *. pose proof (good_shrink _ _ _ _ (k - n) _ Hg Hne ltac:(lia)) as Hg'.
  destruct (good_cons _ _ Hg') as [l' El]. exists l'. pose proof (proj1 Hg) as Ho. pose proof (ordered_NoDup _ Ho) as Hnd.
  pose proof (NoDup_around _ _ _ Hnd) as [HW HV]. apply seg_app in Hs as [Hs0 [Ep Hs1]].
  assert (forall y, (y ∈ W -> before y (p, k)) /\ (y ∈ V -> before (p, k) y)) as Har by (intros; by apply ordered_around).
  assert (a ∉ W.*1 /\ a ∉ V.*1 /\ a <> p) as (HaW & HaV & Hap).
  { split; [|split]; [intros (y & E & Hy)%list_elem_of_fmap..|].
    - apply (proj1 (Har y)) in Hy. unfold before, UNIT in *. cbn in *. lia.
    - apply (proj2 (Har y)) in Hy. unfold before, UNIT in *. cbn in *. lia.
    - unfold a, UNIT. lia. }
  rewrite El in Hg'. apply (cut_inv h _ l l' A (p, k) a n Hi); cbn [hp_hdr hp_brk hp_freep]; try done.
  - rewrite EN. apply elem_of_app. right. left.
  - congruence.
  - unfold part_of, a, UNIT. cbn. lia.
  - rewrite <- El. apply seg_app. rewrite !seg_insert by done. split; [done|]. cbn [seg].
    rewrite lookup_insert_ne, lookup_insert_eq by done. split; [done|]. by rewrite !seg_insert.
  - rewrite <- El. unfold W. rewrite !fmap_app. apply elem_of_app. left. apply elem_of_app. right. left.
  - intros y. rewrite <- El, EN. intros [Hy|[->|Hy]%elem_of_cons]%elem_of_app;
      [left; apply elem_of_app; by left|right; unfold part_of, UNIT; cbn; lia|left; apply elem_of_app; right; by right].
  - intros y. rewrite <- El. intros [Hy|[->|Hy]%elem_of_cons]%elem_of_app _.
    + right. apply (proj1 (Har y)) in Hy. unfold before, a, UNIT in *. cbn in *. lia.
    + right. unfold before, a, UNIT. cbn. lia.
    + left. apply (proj2 (Har y)) in Hy. unfold before, a, UNIT in *. cbn in *. lia.
  - by rewrite lookup_insert_eq.
  - intros b Hb Hba. rewrite lookup_insert_ne by done. rewrite lookup_insert_ne; [done|]. intros <-. apply Hb. rewrite EN, fmap_app.
    apply elem_of_app. right. left.
Qed.

(** The successor of a header, in the list and in memory. *)
Lemma successor l A prevp p w q : heap_inv (user w) l A -> prevp ∈ ((base, 0) :: l).*1 -> hdr w !! prevp = Some (p, q) -> p <> base ->
  exists U k V, (base, 0) :: l = U ++ (prevp, q) :: (p, k) :: V.
Proof.
  intros Hi Hprev Eprev Hne. pose proof (hi_list _ _ _ Hi) as Hs.
  apply list_elem_of_fmap in Hprev as ([pp ps] & -> & (U & V & EN)%list_elem_of_split). cbn [fst] in *.
  rewrite EN in Hs. apply seg_app in Hs as [_ [Hpp _]]. rewrite Hpp in Eprev. injection Eprev as Hhd <-.
  destruct V as [|[p' k] V]; cbn in Hhd; [done|]. subst p'. by exists U, k, V.
Qed.

Lemma take_wp l A n prevp p w q k : heap_inv (user w) l A -> prevp ∈ ((base, 0) :: l).*1 -> hdr w !! prevp = Some (p, q) ->
  snd <$> hdr w !! p = Some k -> 0 < n <= k -> p <> base ->
  wp (take_from n prevp p) (fun r w' => exists a l', r = inr (a + UNIT) /\ A !! a = None /\ heap_inv (user w') l' (<[a := n]> A) /\
    hp_brk (user w') = hp_brk (user w)) w.
Proof.
  intros Hi Hprev Eprev Ek Hn Hne. destruct (successor _ _ _ _ _ _ Hi Hprev Eprev Hne) as (U & k' & V & EN).
  pose proof (hi_list _ _ _ Hi) as Hs. rewrite EN in Hs. apply seg_app in Hs as [_ [_ [Ep _]]]. rewrite Ep in Ek. injection Ek as ->.
  destruct (hi_good _ _ _ Hi) as (_ & Hnodes & _). assert (forall x, x ∈ (base, 0) :: l -> ok w x.1) as Hok by (intros; by eapply node_mapped).
  assert (ok w prevp) as Hm1 by (apply (Hok (prevp, q)); rewrite EN; apply elem_of_app; right; left).
  assert (ok w p) as Hm2 by (apply (Hok (p, k)); rewrite EN; apply elem_of_app; right; right; left).
  unfold take_from. wp_step. eapply hsize_wp; [exact Hm2|exact Ep|]. destruct (Z.eqb_spec k n) as [->|Hkn].
  - destruct (take_exact _ _ _ _ _ _ _ _ _ Hi EN Hne) as (l' & Hi' & HA).
    do 2 wp_step. eapply hptr_wp; [exact Hm2|exact Ep|]. wp_step. apply set_ptr_wp; [done|]. wp_step. unfold set_freep. do 3 wp_step.
    exists p, l'. split; [done|]. split; [done|]. split; [|done]. rewrite Eprev. exact Hi'.
  - rewrite list.Forall_forall in Hnodes. assert (node (hp_brk (user w)) (p, k)) as [[= -> _]|Hw]; [|done|].
    { apply Hnodes. rewrite EN. apply elem_of_app. right. right. left. }
    pose proof (hi_brk _ _ _ Hi) as Hbrk. pose proof (node_size _ (p, k) (or_intror Hw) (proj2 Hbrk)) as Hsz. cbn in Hsz.
    do 2 wp_step. apply set_size_wp; [done|]. rewrite (u32_small (k - n)), Ep by lia. cbn [default fst].
    wp_step. eapply hsize_wp; [exact Hm2|cbn; apply lookup_insert_eq|]. wp_step.
    assert (ok w (p + (k - n) * UNIT)) as Hm3.
    { apply (within_mapped w (p + (k - n) * UNIT, n)). unfold within, UNIT in *. cbn in *. lia. }
    apply set_size_wp; [done|]. wp_step. unfold set_freep. do 3 wp_step.
    destruct (take_split _ _ _ _ _ _ _ _ _ n
      (default (0, 0) ((<[p := (hd base V.*1, k - n)]> (hdr w)) !! (p + (k - n) * UNIT))).1 Hi EN Hne ltac:(lia)) as (l' & Hi' & HA).
    exists (p + (k - n) * UNIT), l'. split; [done|]. split; [done|]. split; [|done]. exact Hi'.
Qed.

(** *** More memory *)

(** When the kernel does not give [n] bytes. *)
Definition refused (h : heap) (n : Z) : Prop := hd true (hp_grants h) = false \/ MEM_MAX < hp_brk h + n.

Lemma sbrk_wp n (Q : Z -> world heap -> Prop) w : 0 < n ->
  (forall g, refused (user w) n -> Q (-1) (World (held w) (trace w) (hp_set_grants g (user w)))) ->
  (forall g, hp_brk (user w) + n <= MEM_MAX ->
     Q (hp_brk (user w)) (World (held w) (trace w) (hp_set_grants g (hp_set_brk (hp_brk (user w) + n) (user w))))) ->
  wp (sbrk n) Q w.
Proof.
  intros Hn H1 H2. unfold sbrk. do 2 wp_step. rewrite (proj2 (Z.gtb_lt n 0)) by lia.
  destruct (hd true _) eqn:E1; cbn [andb]; [|do 3 wp_step; apply H1; by left].
  destruct (Z.leb_spec (hp_brk (user w) + n) MEM_MAX) as [E|E]; do 3 wp_step; [by apply H2|]. apply H1. by right.
Qed.

Lemma within_mono hi hi' x : within hi x -> hi <= hi' -> within hi' x.
Proof. unfold within. intros. lia. Qed.

(** Memory that is nobody's header may be written, and memory may grow. *)
Lemma write_inv h l A a x : heap_inv h l A -> a ∉ ((base, 0) :: l).*1 -> A !! a = None ->
  heap_inv (hp_set_hdr (<[a := x]> (hp_hdr h)) h) l A.
Proof.
  intros Hi Ha HA. split; cbn [hp_set_hdr hp_hdr hp_freep hp_brk]; try apply Hi; [by rewrite seg_insert by done; apply Hi|].
  intros b n Hb. destruct (hi_block _ _ _ Hi b n Hb) as (? & ? & ?). rewrite lookup_insert_ne by congruence. done.
Qed.

Lemma brk_inv h l A brk g : heap_inv h l A -> hp_brk h <= brk <= MEM_MAX ->
  heap_inv (hp_set_grants g (hp_set_brk brk h)) l A.
Proof.
  intros Hi Hb. pose proof (hi_good _ _ _ Hi) as (Ho & Hn & Hh). pose proof (hi_brk _ _ _ Hi) as Hbrk.
  split; cbn [hp_set_grants hp_set_brk hp_hdr hp_freep hp_brk]; try apply Hi; [| |lia].
  - split; [done|]. split; [|done]. eapply list.Forall_impl; [exact Hn|]. intros y [->|Hw]; [by left|right].
    by eapply within_mono; [|apply Hb].
  - intros a n Ha. destruct (hi_block _ _ _ Hi a n Ha) as (Hw & Hk & Hs). split; [by eapply within_mono; [|apply Hb]|done].
Qed.

(** A larger memory, and a header written beyond the old end. *)
Lemma grow_inv h l A brk g x : heap_inv h l A -> hp_brk h <= brk <= MEM_MAX ->
  heap_inv (Heap (<[hp_brk h := x]> (hp_hdr h)) (hp_freep h) brk g) l A.
Proof.
  intros Hi Hb. pose proof (hi_brk _ _ _ Hi) as Hbrk. apply (write_inv (hp_set_grants g (hp_set_brk brk h))); [by apply brk_inv| |].
  - intros (y & E & Hy)%list_elem_of_fmap. pose proof (hi_good _ _ _ Hi) as (_ & Hn & _). rewrite list.Forall_forall in Hn.
    destruct (Hn y Hy) as [->|Hw]; unfold within, UNIT in *; cbn in *; lia.
  - destruct (A !! hp_brk h) eqn:E; [|done]. destruct (hi_block _ _ _ Hi _ _ E) as (Hw & _). unfold within, UNIT in *; cbn in *; lia.
Qed.

Definition core_size (nu : Z) : Z := Z.max nu 4096 * UNIT.

Lemma morecore_wp l A nu w : heap_inv (user w) l A -> 0 < nu < 2 ^ 27 ->
  wp (morecore base start nu) (fun r w' => exists l', heap_inv (user w') l' A /\ hp_brk (user w) <= hp_brk (user w') /\
    (r = 0 /\ refused (user w) (core_size nu) \/ r = hp_freep (user w') /\ (size (hdr w') <= S (size (hdr w)))%nat /\ exists y, y ∈ l' /\ nu <= y.2)) w.
Proof.
  intros Hi Hnu. unfold morecore. set (nu' := if nu <? 4096 then 4096 else nu).
  assert (nu <= nu' < 2 ^ 27 /\ core_size nu = nu' * UNIT) as [Hnu' ->].
  { subst nu'. unfold core_size. destruct (Z.ltb_spec nu 4096); split; try lia; f_equal; lia. }
  clearbody nu'.
  rewrite s32_small by (unfold UNIT; lia). pose proof (hi_brk _ _ _ Hi) as Hbrk. wp_step. apply sbrk_wp; [unfold UNIT; lia| |].
  - intros g Hr. change (-1 =? -1) with true. cbv iota. wp_step. exists l. split; [|split; [done|by left]].
    destruct Hi. by split.
  - intros g Hmax. set (brk := hp_brk (user w)) in *. rewrite (proj2 (Z.eqb_neq brk (-1))) by (unfold UNIT in *; lia).
    set (w1 := World _ _ _). wp_step. apply set_size_wp.
    { unfold mapped. cbn. apply orb_true_iff. right. apply andb_true_iff. split; apply Z.leb_le; unfold UNIT in *; lia. }
    set (x := ((default (0, 0) (hdr w1 !! brk)).1, nu')). wp_step. eapply wp_mono.
    { apply (free_block_inv l A (brk, nu')).
      - apply (grow_inv (user w) l A (brk + nu' * UNIT) g x Hi). unfold UNIT in *. fold brk. lia.
      - unfold within, UNIT in *. cbn. lia.
      - cbn. by rewrite lookup_insert_eq.
      - intros y Hy Hne. right. destruct (hi_good _ _ _ Hi) as (_ & Hn & _). rewrite list.Forall_forall in Hn.
        destruct (Hn y Hy) as [->|Hw]; [done|]. unfold before, within, UNIT in *. cbn. fold brk in Hw. lia.
      - intros a n Ha. left. destruct (hi_block _ _ _ Hi a n Ha) as (Hw & _). unfold before, within, UNIT in *. cbn in *. fold brk in Hw. lia. }
    cbn [user hp_brk]. intros [] w' (l' & Hi' & Hb & Hsz & y & Hy & Hyn). wp_step. exists l'. split; [done|]. cbn in Hb. cbn [snd] in Hyn.
    split; [rewrite Hb; unfold UNIT; lia|]. right. split; [done|]. split; [|exists y; split; [done|lia]].
    rewrite Hsz. cbn. rewrite map_size_insert. by destruct (hdr w !! brk); cbn; lia.
Qed.

(** *** The search for a block *)

(** The headers from the one after [f] round to [f]. *)
Lemma round_from h l A : heap_inv h l A -> exists p k T e, hp_hdr h !! hp_freep h = Some (p, k) /\
  seg (hp_hdr h) T e /\ head T.*1 = Some p /\ list.last T.*1 = Some (hp_freep h) /\ NoDup T.*1 /\ length T = S (length l) /\
  forall x, x ∈ T <-> x ∈ (base, 0) :: l.
Proof.
  intros Hi. pose proof (hi_list _ _ _ Hi) as Hs. pose proof (hi_good _ _ _ Hi) as Hg. pose proof (hi_freep _ _ _ Hi) as Hf.
  apply list_elem_of_fmap in Hf as ([f fs] & Ef & (X & Y & EN)%list_elem_of_split). cbn in Ef. rewrite Ef.
  pose proof (ordered_NoDup _ (proj1 Hg)) as Hnd. rewrite EN in Hs, Hnd. apply seg_app in Hs as [HX [Hff HY]].
  assert (Permutation (Y ++ X ++ [(f, fs)]) (X ++ (f, fs) :: Y)) as Hperm.
  { rewrite (Permutation_app_comm Y), <- app_assoc. done. }
  exists (hd base Y.*1), fs, (Y ++ X ++ [(f, fs)]), (hd base Y.*1). split; [done|]. split; [|split; [|split; [|split; [|split]]]].
  - apply seg_app. split; [|apply seg_app; split; [done|by split]].
    replace (hd (hd base Y.*1) (X ++ [(f, fs)]).*1) with base; [done|]. destruct X as [|x X]; cbn in EN; by simplify_eq/=.
  - destruct Y as [|y Y]; [|done]. destruct X as [|x X]; simplify_eq/=; congruence.
  - rewrite !fmap_app. cbn. rewrite app_assoc. apply last_snoc.
  - by rewrite Hperm.
  - apply (f_equal length) in EN. cbn in EN. rewrite Hperm. lia.
  - intros x. rewrite Hperm, EN. done.
Qed.

Lemma hsize_run p q k w : ok w p -> hdr w !! p = Some (q, k) -> hsize base start p w = Ret (k, w).
Proof. intros Hm E. unfold hsize, rd_hdr, bind, get. rewrite Hm, E. done. Qed.

Lemma wp_after_run {X Y} (m : M heap X) (k : X -> M heap Y) Q w a w1 : m w = Ret (a, w1) -> wp (bind m k) Q w <-> wp (k a) Q w1.
Proof. intros E. unfold wp, bind. by rewrite E. Qed.

(** What malloc() promises. *)
Definition granted (A : gmap Z Z) (n : Z) (w : world heap) (r : Z) (w' : world heap) : Prop :=
  hp_brk (user w) <= hp_brk (user w') /\ exists l',
    (r = 0 /\ refused (user w) (core_size n) /\ heap_inv (user w') l' A) \/ exists a, r = a + UNIT /\ A !! a = None /\ heap_inv (user w') l' (<[a := n]> A).

Lemma turn_fit l A n prevp p w q x k : heap_inv (user w) l A -> prevp ∈ ((base, 0) :: l).*1 -> hdr w !! prevp = Some (p, q) ->
  hdr w !! p = Some (x, k) -> ok w p -> 0 < n <= k -> p <> base ->
  wp (malloc_turn base start n (prevp, p)) (fun r w' => exists r', r = inr r' /\ r' <> 0 /\ granted A n w r' w') w.
Proof.
  intros Hi Hprev Eprev Ep Hm Hn Hne. assert (wp (take_from n prevp p) (fun r w' => exists r', r = inr r' /\ r' <> 0 /\ granted A n w r' w') w) as Ht.
  { eapply wp_mono; [eapply (take_wp l A n prevp p w q k); try done; by rewrite Ep|]. intros r w' (a & l' & -> & HA & Hi' & Hb).
    exists (a + UNIT). split; [done|]. pose proof (hi_block _ _ _ Hi' a n (lookup_insert_eq _ _ _)) as ((Ha & _) & _).
    split; [unfold UNIT in *; cbn in Ha; lia|]. split; [lia|]. exists l'. right. by exists a. }
  revert Ht. unfold malloc_turn, take_from. rewrite !(wp_after_run _ _ _ _ _ _ (hsize_run p x k w Hm Ep)).
  by rewrite Z.geb_leb, (proj2 (Z.leb_le n k)) by lia.
Qed.

(** The search stands at the head of [T], the headers yet to be looked at. *)
Definition visiting (h : heap) l (T : list (Z * Z)) (prevp : Z) : Prop :=
  (exists e, seg (hp_hdr h) T e) /\ (exists q, head T.*1 = fst <$> hp_hdr h !! prevp /\ hp_hdr h !! prevp = Some q) /\
  list.last T.*1 = Some (hp_freep h) /\ NoDup T.*1 /\ (forall x, x ∈ T -> x ∈ (base, 0) :: l) /\ prevp ∈ ((base, 0) :: l).*1.

(** One turn: a block is taken, the search goes on, or all headers have been seen. *)
Lemma turn_wp l A n T prevp p k w (Q : Z * Z + Z -> world heap -> Prop) :
  heap_inv (user w) l A -> visiting (user w) l ((p, k) :: T) prevp -> 0 < n ->
  (n <= k -> forall r w', r <> 0 -> granted A n w r w' -> Q (inr r) w') ->
  (forall p' k' T', k < n -> T = (p', k') :: T' -> visiting (user w) l T p -> Q (inl (p, p')) w) ->
  (k < n -> T = [] -> wp (let* p := morecore base start n in
     if p =? 0 then ret (inr 0) else let* np := hptr base start p in ret (inl (p, np))) Q w) ->
  wp (malloc_turn base start n (prevp, p)) Q w.
Proof.
  intros Hi ([e [Ep Hseg]] & ([q1 q2] & Eq & Eprev) & Hlast & Hnd & Hsub & Hprev) Hn Hfit Hnext Hend.
  rewrite Eprev in Eq. cbn in Eq. injection Eq as <-. assert (ok w p) as Hm.
  { apply (node_mapped w ((base, 0) :: l) (p, k)); [apply Hi|apply Hsub; left]. }
  destruct (Z.le_gt_cases n k) as [Hle|Hgt].
  - eapply wp_mono; [eapply (turn_fit l A n prevp p w q2); try done|].
    + intros ->. pose proof (hi_list _ _ _ Hi) as [Eb _]. rewrite Eb in Ep. injection Ep as _ <-. lia.
    + intros r w' (r' & -> & Hr & Hg). by apply Hfit.
  - unfold malloc_turn. wp_step. eapply hsize_wp; [done|exact Ep|]. rewrite Z.geb_leb, (proj2 (Z.leb_gt n k)) by lia. do 2 wp_step.
    apply list.NoDup_cons in Hnd as [HpT Hnd]. destruct T as [|[p' k'] T].
    + cbn in Hlast. injection Hlast as Hlast. rewrite <- Hlast, Z.eqb_refl. by apply Hend.
    + change (((p, k) :: (p', k') :: T).*1) with (p :: p' :: T.*1) in Hlast. rewrite last_cons_cons in Hlast.
      rewrite (proj2 (Z.eqb_neq p (hp_freep (user w)))).
      2:{ intros ->. apply HpT. by apply list.last_Some_elem_of. }
      wp_step. wp_step. cbn in Ep. assert (p <> 0) as Hp0.
      { pose proof (hi_good _ _ _ Hi) as (_ & Hns & _). rewrite list.Forall_forall in Hns.
        destruct (Hns (p, k) (Hsub _ ltac:(left))) as [[= -> _]|(? & _)]; unfold UNIT in *; cbn in *; lia. }
      rewrite (proj2 (Z.eqb_neq p 0)) by done. wp_step. eapply hptr_wp; [done|exact Ep|]. wp_step.
      apply (Hnext p' k' T); [done|done|]. split; [by exists e|]. split; [eexists; by rewrite Ep|]. split; [done|]. split; [done|].
      split; [intros x Hx; apply Hsub; by right|]. apply list_elem_of_fmap. exists (p, k). split; [done|]. apply Hsub. left.
Qed.

(** When some block is large enough, one is found. *)
Lemma loop_fit l A n T prevp p k fuel w : heap_inv (user w) l A -> visiting (user w) l ((p, k) :: T) prevp -> 0 < n ->
  (exists y, y ∈ (p, k) :: T /\ n <= y.2) -> (S (length T) <= fuel)%nat ->
  wp (iter fuel (malloc_turn base start n) (prevp, p)) (fun r w' => r <> 0 /\ granted A n w r w') w.
Proof.
  intros Hi. revert prevp p k fuel. induction T as [|[p' k'] T IH]; intros prevp p k fuel Hv Hn (y & Hy & Hyn) Hf;
    (destruct fuel as [|fuel]; [cbn in Hf; lia|]); cbn [iter]; wp_step;
    (eapply turn_wp; [exact Hi|exact Hv|exact Hn|intros _ r w' Hr Hg; cbv beta iota; wp_step; by split|..]).
  - intros ? ? ? Hk [=].
  - intros Hk _. apply list_elem_of_singleton in Hy as ->. cbn in Hyn. lia.
  - intros p1 k1 T1 Hk [= <- <- <-] Hv'. cbv beta iota. apply IH with k'; [done|done| |cbn in Hf; lia]. exists y. split; [|done].
    apply elem_of_cons in Hy as [->|Hy]; [cbn in Hyn; lia|done].
  - done.
Qed.

Lemma start_round l A w : heap_inv (user w) l A -> exists p k T,
  fst <$> hdr w !! hp_freep (user w) = Some p /\ visiting (user w) l ((p, k) :: T) (hp_freep (user w)) /\
  (S (length T) <= size (hdr w))%nat /\ forall x, x ∈ (base, 0) :: l -> x ∈ (p, k) :: T.
Proof.
  intros Hi. destruct (round_from _ _ _ Hi) as (p & k & T & e & Ef & Hs & Hh & Hl & Hnd & Hlen & Hin).
  destruct T as [|[p' k'] T]; [done|]. cbn in Hh. injection Hh as ->. exists p, k', T. rewrite Ef. split; [done|]. split; [|split].
  - split; [by exists e|]. split; [exists (p, k); by rewrite Ef|]. split; [done|]. split; [done|]. split; [apply Hin|apply Hi].
  - change (S (length T)) with (length ((p, k') :: T)). by apply (seg_size _ _ e).
  - apply Hin.
Qed.

Lemma freep_pos h l A : heap_inv h l A -> 0 < hp_freep h.
Proof.
  intros Hi. pose proof (hi_freep _ _ _ Hi) as (z & -> & Hz)%list_elem_of_fmap. pose proof (hi_good _ _ _ Hi) as (_ & Hns & _).
  rewrite list.Forall_forall in Hns. destruct (Hns z Hz) as [->|(? & _)]; unfold UNIT in *; cbn in *; lia.
Qed.

(** The whole search: at the end of a round without a fit the heap grows, and the next round finds the new block. *)
Lemma loop_any l A n T prevp p k fuel w : heap_inv (user w) l A -> visiting (user w) l ((p, k) :: T) prevp -> 0 < n < 2 ^ 27 ->
  (S (length T) + S (size (hdr w)) < fuel)%nat ->
  wp (iter fuel (malloc_turn base start n) (prevp, p)) (fun r w' => granted A n w r w') w.
Proof.
  intros Hi. revert prevp p k fuel. induction T as [|[p' k'] T IH]; intros prevp p k fuel Hv Hn Hf;
    (destruct fuel as [|fuel]; [cbn in Hf; lia|]); cbn [iter]; wp_step;
    (eapply turn_wp; [exact Hi|exact Hv|lia|intros _ r w' Hr Hg; cbv beta iota; by wp_step|..]).
  - intros ? ? ? Hk [=].
  - intros Hk _. wp_step. eapply wp_mono; [by apply (morecore_wp l A)|]. intros r w1 (l1 & Hi1 & Hb & Hr).
    destruct (Z.eqb_spec r 0) as [->|Hr0].
    + do 2 wp_step. split; [done|]. exists l1. left. split; [done|]. destruct Hr as [[_ Hr]|(Hfr & _)]; [done|].
      pose proof (freep_pos _ _ _ Hi1). lia.
    + destruct Hr as [[? _]|(-> & Hsz & y & Hy & Hyn)]; [done|]. wp_step.
      destruct (start_round _ _ _ Hi1) as (q & j & T1 & Eq & Hv1 & Hlen & Hin).
      destruct (hdr w1 !! hp_freep (user w1)) as [[q' x]|] eqn:Ef; [|done]. cbn in Eq. injection Eq as ->.
      eapply hptr_wp; [|exact Ef|].
      { pose proof (hi_freep _ _ _ Hi1) as (z & -> & Hz)%list_elem_of_fmap. eapply node_mapped; [apply Hi1|done]. }
      wp_step. eapply wp_mono.
      * apply (loop_fit l1 A n T1 _ q j); [done|done|lia| |cbn in Hf; lia]. exists y. split; [|done]. apply Hin. by right.
      * intros r w' (Hr & Hb' & l' & [[? _]|Hg]); [done|]. split; [lia|]. exists l'. by right.
  - intros p1 k1 T1 Hk [= <- <- <-] Hv'. cbv beta iota. apply (IH _ _ k'); [done|done|cbn in Hf |- *; lia].
  - done.
Qed.

(** ** malloc() from the first call on *)

Definition heap_ok (h : heap) (A : gmap Z Z) : Prop :=
  (hp_freep h = 0 /\ A = ∅ /\ start <= hp_brk h <= MEM_MAX) \/ exists l, heap_inv h l A.

(** The list made by the first call. *)
Lemma first_inv h : start <= hp_brk h <= MEM_MAX -> forall m,
  heap_inv (Heap (<[base := (base, 0)]> m) base (hp_brk h) (hp_grants h)) [] ∅.
Proof.
  intros Hb m. split; cbn; [by rewrite lookup_insert_eq| |left| | |done].
  - split; [by split|]. split; [|done]. by repeat constructor.
  - intros a n E. by rewrite lookup_empty in E.
  - intros a n b k E. by rewrite lookup_empty in E.
Qed.

Lemma malloc_wp A nbytes w : heap_ok (user w) A -> 0 <= nbytes -> nunits_of nbytes < 2 ^ 27 ->
  wp (malloc base start nbytes) (fun r w' => granted A (nunits_of nbytes) w r w') w.
Proof.
  intros Hok Hn Hmax. assert (0 < nunits_of nbytes) as Hpos by (unfold nunits_of, UNIT; pose proof (Z.div_pos (nbytes + 16 - 1) 16); lia).
  unfold malloc. do 3 wp_step.
  enough (forall w1 l, heap_inv (user w1) l A -> hp_brk (user w1) = hp_brk (user w) -> hp_grants (user w1) = hp_grants (user w) ->
    wp (let* p := hptr base start (hp_freep (user w1)) in let* h := get in
        iter (2 * size (hp_hdr h) + 5) (malloc_turn base start (nunits_of nbytes)) (hp_freep (user w1), p))
      (fun r w' => granted A (nunits_of nbytes) w r w') w1) as Hgo.
  { destruct Hok as [(Hf & -> & Hb)|[l Hi]].
    - rewrite Hf. cbn [Z.eqb]. wp_step. apply set_ptr_wp; [by unfold mapped; rewrite Z.eqb_refl|]. wp_step. unfold set_freep. wp_step.
      wp_step. apply set_size_wp; [by unfold mapped; rewrite Z.eqb_refl|].
      cbn. rewrite lookup_insert_eq, insert_insert_eq. cbn. apply wp_ret. match goal with |- wp _ _ ?w1 => apply (Hgo w1 []) end; [|done|done]. by apply (first_inv (user w)).
    - rewrite (proj2 (Z.eqb_neq _ _)); [wp_step; by apply (Hgo w l)|]. pose proof (freep_pos _ _ _ Hi). lia. }
  intros w1 l Hi Hb Hgr. destruct (start_round _ _ _ Hi) as (q & j & T1 & Eq & Hv1 & Hlen & Hin).
  destruct (hdr w1 !! hp_freep (user w1)) as [[q' x]|] eqn:Ef; [|done]. cbn in Eq. injection Eq as ->.
  wp_step. eapply hptr_wp; [|exact Ef|].
  { pose proof (hi_freep _ _ _ Hi) as (z & -> & Hz)%list_elem_of_fmap. eapply node_mapped; [apply Hi|done]. }
  do 2 wp_step. eapply wp_mono; [apply (loop_any l A _ T1 _ q j); [done|done|lia|lia]|].
  intros r w' (Hb' & l' & Hg). split; [lia|]. exists l'. unfold refused in *. by rewrite <- Hb, <- Hgr.
Qed.

(** ** A client *)

(** A program that uses the heap: it has the pointers of [A] with the sizes it asked for. It
    calls malloc() and free(), writes to the memory it was given and may grow its
    memory by itself. *)
Inductive client : world heap -> gmap Z Z -> Prop :=
| cl_start w : hp_freep (user w) = 0 -> start <= hp_brk (user w) <= MEM_MAX -> client w ∅
| cl_malloc w A nbytes r w' : client w A -> 0 <= nbytes -> nunits_of nbytes < 2 ^ 27 ->
    malloc base start nbytes w = Ret (r, w') -> client w' (if r =? 0 then A else <[r := nbytes]> A)
| cl_free w A p n w' : client w A -> A !! p = Some n -> free base start p w = Ret (tt, w') -> client w' (delete p A)
| cl_write w A p n a x : client w A -> A !! p = Some n -> p <= a -> a + UNIT <= p + n ->
    client (with_hdr (<[a := x]> (hdr w)) w) A
| cl_sbrk w A n r w' : client w A -> 0 < n -> sbrk n w = Ret (r, w') -> client w' A.

(** The blocks behind the pointers. *)
Definition backed (A B : gmap Z Z) : Prop := forall p n, A !! p = Some n -> 0 <= n /\ B !! (p - UNIT) = Some (nunits_of n).

Lemma nunits_enough n : n + UNIT <= nunits_of n * UNIT.
Proof. unfold nunits_of, UNIT. pose proof (Z.div_mod (n + 16 - 1) 16). pose proof (Z.mod_pos_bound (n + 16 - 1) 16). lia. Qed.

Lemma wp_runs {X} (m : M heap X) (Q : X -> world heap -> Prop) w : wp m Q w <-> exists x w', m w = Ret (x, w') /\ Q x w'.
Proof.
  unfold wp. split; [|by intros (x & w' & -> & ?)]. destruct (m w) as [[x w']| | |]; try done. eauto.
Qed.

Lemma inside_inv h l B a p n x : heap_inv h l B -> B !! (p - UNIT) = Some (nunits_of n) -> p <= a -> a + UNIT <= p + n ->
  heap_inv (hp_set_hdr (<[a := x]> (hp_hdr h)) h) l B.
Proof.
  intros Hi HB Hp Hn. destruct (hi_block _ _ _ Hi _ _ HB) as (Hw & _ & Hs). pose proof (nunits_enough n) as Hu. apply write_inv; [done| |].
  - intros (y & -> & Hy)%list_elem_of_fmap. destruct (decide (y = (base, 0))) as [->|Hne].
    + unfold within, UNIT in *. cbn in *. lia.
    + specialize (Hs y Hy Hne). unfold apart, before, UNIT in *. cbn in *. lia.
  - destruct (B !! a) as [k|] eqn:E; [|done]. assert (a <> p - UNIT) as Hne by (unfold UNIT; lia).
    pose proof (hi_apart _ _ _ Hi _ _ _ _ E HB Hne) as Hap. unfold apart, before, UNIT in *. cbn in *. lia.
Qed.

Lemma granted_backed A B nbytes w r w' : granted B (nunits_of nbytes) w r w' -> backed A B -> 0 <= nbytes ->
  exists B', heap_ok (user w') B' /\ backed (if r =? 0 then A else <[r := nbytes]> A) B'.
Proof.
  intros (_ & l' & [(-> & _ & Hi)|(a & -> & HB & Hi)]) Hb Hn; [exists B; split; [right; eauto|done]|].
  exists (<[a := nunits_of nbytes]> B). split; [right; eauto|].
  pose proof (hi_block _ _ _ Hi a _ (lookup_insert_eq _ _ _)) as ((Ha & _) & _). rewrite (proj2 (Z.eqb_neq _ _)) by (unfold UNIT in *; cbn in *; lia).
  intros p n. rewrite lookup_insert_Some. intros [[<- <-]|[Hne Hp]].
  - split; [done|]. replace (a + UNIT - UNIT) with a by lia. apply lookup_insert_eq.
  - destruct (Hb p n Hp) as [? HB']. split; [done|]. rewrite lookup_insert_ne; [done|]. lia.
Qed.

Lemma client_inv w A : client w A -> exists B, heap_ok (user w) B /\ backed A B.
Proof.
  induction 1 as [w Hf Hb|w A nb r w' _ (B & Hok & Hbk) Hn Hu E|w A p n w' _ (B & Hok & Hbk) Hp E
    |w A p n a x _ (B & Hok & Hbk) Hp Hle Hlt|w A n r w' _ (B & Hok & Hbk) Hn E].
  - exists ∅. split; [by left|]. intros p n Hp. by rewrite lookup_empty in Hp.
  - pose proof (malloc_wp B nb w Hok Hn Hu) as Hw. unfold wp in Hw. rewrite E in Hw. by eapply granted_backed.
  - destruct (Hbk p n Hp) as [Hn HB]. destruct Hok as [(_ & -> & _)|[l Hi]]; [by rewrite lookup_empty in HB|].
    pose proof (free_inv l B _ _ w Hi HB) as Hw. replace (p - UNIT + UNIT) with p in Hw by lia. unfold wp in Hw. rewrite E in Hw.
    destruct Hw as (l' & Hi' & _). exists (delete (p - UNIT) B). split; [right; eauto|]. intros q k [Hne Hq]%lookup_delete_Some.
    destruct (Hbk q k Hq). split; [done|]. rewrite lookup_delete_ne by lia. done.
  - destruct (Hbk p n Hp) as [Hn HB]. destruct Hok as [(_ & -> & _)|[l Hi]]; [by rewrite lookup_empty in HB|].
    exists B. split; [|done]. right. exists l. by eapply inside_inv.
  - exists B. split; [|done]. assert (wp (sbrk n) (fun _ w' => heap_ok (user w') B) w) as Hw; [|unfold wp in Hw; by rewrite E in Hw].
    apply sbrk_wp; [done| |].
    + intros g _. destruct Hok as [(? & ? & ?)|[l Hi]]; [by left|]. right. exists l. destruct Hi. by split.
    + intros g Hmax. destruct Hok as [(? & ? & ?)|[l Hi]]; [left; cbn; split_and!; try done; lia|]. right. exists l.
      apply (brk_inv (user w)); [done|]. lia.
Qed.

(** The pointers a client has: their memory is the process's, and no byte of it belongs to
    the memory or the header of another. *)
Definition sound_blocks (brk : Z) (A : gmap Z Z) : Prop :=
  (forall p n, A !! p = Some n -> start + UNIT <= p /\ p + n <= brk) /\
  (forall p n q k, A !! p = Some n -> A !! q = Some k -> p <> q -> p + n <= q - UNIT \/ q + k <= p - UNIT).

Lemma backed_sound h A B : heap_ok h B -> backed A B -> sound_blocks (hp_brk h) A.
Proof.
  intros Hok Hb. destruct Hok as [(_ & -> & _)|[l Hi]].
  { split; [intros p n Hp|intros p n q k Hp]; destruct (Hb _ _ Hp) as [_ E]; by rewrite lookup_empty in E. }
  split; [intros p n Hp|intros p n q k Hp Hq Hne]; destruct (Hb _ _ Hp) as [Hn E]; pose proof (nunits_enough n).
  - destruct (hi_block _ _ _ Hi _ _ E) as (Hw & _). unfold within, UNIT in *. cbn in *. lia.
  - destruct (Hb _ _ Hq) as [Hk E']. pose proof (nunits_enough k). assert (p - UNIT <> q - UNIT) as Hne' by lia.
    pose proof (hi_apart _ _ _ Hi _ _ _ _ E E' Hne') as Hap. unfold apart, before, UNIT in *. cbn in *. lia.
Qed.
End Invariant.


(** The world after a call, for the example. *)
Definition after_call {X} (m : M heap X) (w : world heap) : world heap :=
  match m w with Ret (_, w') => w' | _ => w end.

(** Two blocks, the first one written to and given back. *)
Definition demo_w0 : world heap := World [] [] demo_heap.
Definition demo_w1 : world heap := after_call (malloc 16 4096 100) demo_w0.
Definition demo_w2 : world heap := after_call (malloc 16 4096 200) demo_w1.
Definition demo_w3 : world heap := with_hdr (<[69536 := (7, 7)]> (hp_hdr (user demo_w2))) demo_w2.
Definition demo_w4 : world heap := after_call (free 16 4096 69520) demo_w3.


(** Requests of 2^31 bytes and more overflow the int that sbrk() takes: malloc() hands out 4 gigabytes
    with 16 bytes added to the process, or touches memory it did not get. *)
Example malloc_huge :
  (exists w, malloc 16 4096 (2 ^ 32 - 1) demo_w0 = Ret (4112, w) /\ hp_brk (user w) = 4112) /\
  malloc 16 4096 (2 ^ 31) demo_w0 = Panic "fault".
Proof. split; [eexists; split; vm_compute; reflexivity|vm_compute; reflexivity]. Qed.
