(* ===== verification/Sh.v ===== *)
(** * The parser of the shell (user/sh.c)

    The command line is a buffer that the parser never copies: a word of a command is a
    pair of positions in it, and nulterminate() writes a NUL at the end of each
    word once the whole line is parsed.  A pointer into the buffer is its index, and
    the position [*ps] is a part of the state.  panic() prints its message and ends the
    process: it is the panic of the model. *)

From S2P Require Import Prelude CString Printf Sysfile.

Open Scope Z_scope.

Record sh := Sh {
  sh_buf : list Z;
  sh_ps : nat
}.
Definition sh_set_ps v st := Sh (sh_buf st) v.

Abbreviation parser := (M sh).

(** ** Commands *)

(** struct execcmd, redircmd, pipecmd, listcmd and backcmd; the arrays argv and eargv of an
    execcmd are the list of the words before the null pointer. *)
Inductive cmd : Type :=
| EXEC (argv : list (nat * nat))
| REDIR (c : cmd) (file efile : nat) (mode fd : Z)
| PIPE (left right : cmd)
| LIST (left right : cmd)
| BACK (c : cmd).

(** The constructors; the memory they take from malloc() is taken to be there. *)
Definition execcmd : cmd := EXEC [].
Definition redircmd (subcmd : cmd) (file efile : nat) (mode fd : Z) : cmd := REDIR subcmd file efile mode fd.
Definition pipecmd (left right : cmd) : cmd := PIPE left right.
Definition listcmd (left right : cmd) : cmd := LIST left right.
Definition backcmd (subcmd : cmd) : cmd := BACK subcmd.

Definition MAXARGS : nat := 10.

(** A word put at the end of the argv of the execcmd that the redirections of [c] are around: parseexec()
    keeps a pointer to it while parseredirs() wraps it. *)
Fixpoint add_arg (a : nat * nat) (c : cmd) : cmd :=
  match c with
  | EXEC argv => EXEC (argv ++ [a])
  | REDIR c' file efile mode fd => REDIR (add_arg a c') file efile mode fd
  | _ => c
  end.

(** ** Tokens *)

Definition TOKEN_2GT : Z := Z.lor (Z.shiftl 50 8) 62.
Definition TOKEN_2GTGT : Z := Z.lor (Z.lor (Z.shiftl 50 16) (Z.shiftl 62 8)) 62.

Definition whitespace : list Z := [32; 9; 13; 10; 11; 0].
Definition symbols : list Z := lit "<|>&;()".

(** Whether strchr() finds [c]. *)
Definition strchr_in (s : list Z) (c : Z) : bool := match u_strchr s c with Some (Some _) => true | _ => false end.

(** Past the characters that satisfy [p], at most [n] = es - s of them. *)
Fixpoint span (p : Z -> bool) (b : list Z) (n s : nat) : nat :=
  match n with
  | O => s
  | S n' => if p (default 0 (b !! s)) then span p b n' (S s) else s
  end.
Definition while_in (p : Z -> bool) (es s : nat) : parser nat := let* st := get in ret (span p (sh_buf st) (es - s) s).

Definition ch (s : nat) : parser Z :=
  let* st := get in
  match sh_buf st !! s with
  | Some c => ret c
  | None => panic "fault"
  end.

Definition word_char (c : Z) : bool := negb (strchr_in whitespace c) && negb (strchr_in symbols c).

(** The token, and the positions [q] and [eq]. *)
Definition gettoken (es : nat) : parser (Z * nat * nat) :=
  let* st := get in
  let* s := while_in (strchr_in whitespace) es (sh_ps st) in
  let q := s in
  let* c := ch s in
  let* t :=
    (if c =? 0 then ret (c, s)
     else if c =? 50 then
       let* twogt := (if (s + 2 <? es)%nat then let* c1 := ch (s + 1) in if c1 =? 62 then let* c2 := ch (s + 2) in ret (c2 =? 62) else ret false
                      else ret false) in
       if twogt then ret (TOKEN_2GTGT, (s + 3)%nat) else
       let* c1 := ch (s + 1) in
       if c1 =? 62 then ret (TOKEN_2GT, (s + 2)%nat) else
       let* s := while_in word_char es s in
       ret (97, s)
     else if (c =? 124) || (c =? 40) || (c =? 41) || (c =? 59) || (c =? 38) || (c =? 60) then ret (c, S s)
     else if c =? 62 then
       let* c1 := ch (S s) in
       if c1 =? 62 then ret (43, S (S s)) else ret (c, S s)
     else
       let* s := while_in word_char es s in
       ret (97, s)) in
  let '(tok, s) := t in
  let eq := s in
  let* s := while_in (strchr_in whitespace) es s in
  modify (sh_set_ps s) ;;
  ret (tok, q, eq).

Definition peek (es : nat) (toks : list Z) : parser bool :=
  let* st := get in
  let* s := while_in (strchr_in whitespace) es (sh_ps st) in
  modify (sh_set_ps s) ;;
  let* c := ch s in
  ret (negb (c =? 0) && strchr_in toks c).

(** ** The grammar *)

(** One turn of the loop of parseredirs(). *)
Definition redirs_turn (es : nat) (c : cmd) : parser (cmd + cmd) :=
  let* more := peek es (lit "<>2") in
  if negb more then ret (inr c) else
  let* save := get in
  let* t := gettoken es in
  let tok := t.1.1 in
  if (tok =? 60) || (tok =? 62) || (tok =? 43) || (tok =? TOKEN_2GT) || (tok =? TOKEN_2GTGT) then
    let* f := gettoken es in
    let '(a, q, eq) := f in
    if negb (a =? 97) then panic "missing file for redirection" else
    ret (inl (if tok =? 60 then redircmd c q eq O_RDONLY 0
              else if tok =? 62 then redircmd c q eq (Z.lor (Z.lor O_WRONLY O_CREATE) O_TRUNC) 1
              else if tok =? 43 then redircmd c q eq (Z.lor O_WRONLY O_CREATE) 1
              else if tok =? TOKEN_2GT then redircmd c q eq (Z.lor (Z.lor O_WRONLY O_CREATE) O_TRUNC) 2
              else redircmd c q eq (Z.lor O_WRONLY O_CREATE) 2))
  else
    modify (sh_set_ps (sh_ps save)) ;;
    ret (inr c).
Definition parseredirs (es : nat) (c : cmd) : parser cmd := iter (S es) (redirs_turn es) c.

Definition parseblock (es : nat) (parseline : parser cmd) : parser cmd :=
  let* open := peek es (lit "(") in
  if negb open then panic "parseblock" else
  let* _ := gettoken es in
  let* c := parseline in
  let* close := peek es (lit ")") in
  if negb close then panic "syntax - missing )" else
  let* _ := gettoken es in
  parseredirs es c.

(** One turn of the loop of parseexec(), with the variables [argc] and [ret]. *)
Definition args_turn (es : nat) (a : nat * cmd) : parser (nat * cmd + cmd) :=
  let '(argc, c) := a in
  let* stop := peek es (lit "|)&;") in
  if stop then ret (inr c) else
  let* t := gettoken es in
  let '(tok, q, eq) := t in
  if tok =? 0 then ret (inr c) else
  if negb (tok =? 97) then panic "syntax" else
  let c := add_arg (q, eq) c in
  let argc := S argc in
  if (MAXARGS <=? argc)%nat then panic "too many args" else
  let* c := parseredirs es c in
  ret (inl (argc, c)).

Definition parseexec (es : nat) (parseline : parser cmd) : parser cmd :=
  let* open := peek es (lit "(") in
  if open then parseblock es parseline else
  let* c := parseredirs es execcmd in
  iter (S es) (args_turn es) (O, c).

Fixpoint parsepipe (fuel es : nat) (parseline : parser cmd) : parser cmd :=
  match fuel with
  | O => (fun _ => NoFuel)
  | S fuel' =>
      let* c := parseexec es parseline in
      let* bar := peek es (lit "|") in
      if bar then let* _ := gettoken es in let* r := parsepipe fuel' es parseline in ret (pipecmd c r)
      else ret c
  end.

Definition back_turn (es : nat) (c : cmd) : parser (cmd + cmd) :=
  let* amp := peek es (lit "&") in
  if amp then let* _ := gettoken es in ret (inl (backcmd c)) else ret (inr c).

Fixpoint parseline (fuel es : nat) : parser cmd :=
  match fuel with
  | O => (fun _ => NoFuel)
  | S fuel' =>
      let* c := parsepipe fuel es (parseline fuel' es) in
      let* c := iter (S es) (back_turn es) c in
      let* semi := peek es (lit ";") in
      if semi then let* _ := gettoken es in let* r := parseline fuel' es in ret (listcmd c r)
      else ret c
  end.

(** ** The whole line *)

Definition put_nul (e : nat) : parser unit :=
  let* st := get in
  if (e <? length (sh_buf st))%nat then put (Sh (<[e := 0]> (sh_buf st)) (sh_ps st)) else panic "fault".

Fixpoint nulterminate (c : cmd) : parser unit :=
  match c with
  | EXEC argv => for_each argv (fun a => put_nul a.2)
  | REDIR c' _ efile _ _ => nulterminate c' ;; put_nul efile
  | PIPE l r => nulterminate l ;; nulterminate r
  | LIST l r => nulterminate l ;; nulterminate r
  | BACK c' => nulterminate c'
  end.

(** parsecmd() of the string at the start of the buffer. *)
Definition parsecmd : parser cmd :=
  let* st := get in
  let* es := the (strlen (sh_buf st)) in

  let* c := parseline (S es) es in
  let* _ := peek es (lit "") in
  let* st := get in
  if negb (sh_ps st =? es)%nat then panic "syntax" else
  nulterminate c ;;
  ret c.

Definition sh_parse (line : list Z) : res (cmd * list Z) :=
  match parsecmd (World [] [] (Sh (line ++ [0]) 0)) with
  | Ret (c, w) => Ret (c, sh_buf (user w))
  | Panic s => Panic s
  | Blocked c => Blocked c
  | NoFuel => NoFuel
  end.

(** ** Outcomes of the parser *)

(** What the parser may end the process with. *)
Definition syntax_errors : list string := ["syntax"; "syntax - missing )"; "too many args"; "missing file for redirection"]%string.

(** [sp m Q w]: [m] returns with [Q], or ends the process with one of these messages. *)
Definition sp {A} (m : parser A) (Q : A -> world sh -> Prop) (w : world sh) : Prop :=
  match m w with
  | Ret (a, w') => Q a w'
  | Panic s => s ∈ syntax_errors
  | _ => False
  end.

Lemma sp_ret {A} (a : A) (Q : A -> world sh -> Prop) w : Q a w -> sp (ret a) Q w.
Proof. done. Qed.
Lemma sp_wp {A} (m : parser A) Q w : wp m Q w -> sp m Q w.
Proof. unfold wp, sp. by destruct (m w) as [[a w']| | |]. Qed.
Lemma sp_mono {A} (m : parser A) (Q Q' : A -> world sh -> Prop) w : sp m Q w -> (forall a w', Q a w' -> Q' a w') -> sp m Q' w.
Proof. unfold sp. destruct (m w) as [[a w']| | |]; auto. Qed.
Lemma sp_bind {A B} (m : parser A) (f : A -> parser B) Q w : sp m (fun a w' => sp (f a) Q w') w -> sp (bind m f) Q w.
Proof. unfold sp, bind. by destruct (m w) as [[a w']| | |]. Qed.
Lemma sp_panic {A} s (Q : A -> world sh -> Prop) w : s ∈ syntax_errors -> sp (panic s) Q w.
Proof. done. Qed.
Lemma sp_iter {A B} (v : A -> world sh -> nat) (I : A -> world sh -> Prop) fuel (body : A -> parser (A + B)) a (Q : B -> world sh -> Prop) w :
  I a w -> (v a w < fuel)%nat ->
  (forall a w, I a w -> sp (body a) (fun r w' => match r with inl a' => I a' w' /\ (v a' w' < v a w)%nat | inr b => Q b w' end) w) ->
  sp (iter fuel body a) Q w.
Proof.
  intros HI Hv Hbody. revert a w HI Hv. induction fuel as [|n IH]; intros a w HI Hv; [lia|]. cbn [iter].
  apply sp_bind. eapply sp_mono; [by apply Hbody|]. intros [a'|b] w' Hr; [|done]. destruct Hr. apply IH; [done|lia].
Qed.

Ltac in_errors := apply sp_panic; unfold syntax_errors; rewrite !elem_of_cons; tauto.

(** ** Tokens in the buffer *)

Lemma span_spec p b n s : exists k, span p b n s = (s + k)%nat /\ (k <= n)%nat /\
  (forall i, (i < k)%nat -> p (default 0 (b !! (s + i)%nat)) = true) /\
  (k = n \/ p (default 0 (b !! (s + k)%nat)) = false).
Proof.
  revert s. induction n as [|n IH]; intros s; cbn [span].
  { exists 0%nat. repeat split; [lia|lia|lia|by left]. }
  destruct (p (default 0 (b !! s))) eqn:E.
  - destruct (IH (S s)) as (k & -> & Hk & Hin & Hout). exists (S k). split; [lia|]. split; [lia|]. split.
    + intros [|i] Hi; [by rewrite Nat.add_0_r|]. rewrite <- Nat.add_succ_comm. apply Hin. lia.
    + rewrite <- Nat.add_succ_comm. destruct Hout; [left; lia|by right].
  - exists 0%nat. rewrite Nat.add_0_r. repeat split; [lia|lia|by right].
Qed.

Lemma strchr_in_lit s c t : c <> 0 -> strchr_in (c :: t) s = (c =? s) || strchr_in t s.
Proof.
  intros Hc. unfold strchr_in. cbn [u_strchr]. rewrite (proj2 (Z.eqb_neq c 0)) by done. by destruct (c =? s).
Qed.

Section Parser.
(** The string in the buffer [b] ends at [es]. *)
Variables (b : list Z) (es : nat).
Hypothesis es_nul : b !! es = Some 0.
Hypothesis es_first : forall i, (i < es)%nat -> exists c, b !! i = Some c /\ c <> 0.

Definition parsing (w : world sh) : Prop := sh_buf (user w) = b /\ (sh_ps (user w) <= es)%nat.
Abbreviation ps w := (sh_ps (user w)).
Definition at_ps (s : nat) (w : world sh) : world sh := World (held w) (trace w) (Sh (sh_buf (user w)) s).

(** A word of the line: at the character after it a NUL may be put. *)
Definition word (q e : nat) : Prop :=
  (q < e <= es)%nat /\ (forall i, (q <= i < e)%nat -> exists c, b !! i = Some c /\ word_char c = true /\ c <> 0) /\
  (e = es \/ exists c, b !! e = Some c /\ word_char c = false).

Lemma es_length : (es < length b)%nat.
Proof. by eapply lookup_lt_Some. Qed.

Lemma ch_wp s c (Q : Z -> world sh -> Prop) w : sh_buf (user w) = b -> b !! s = Some c -> Q c w -> wp (ch s) Q w.
Proof. intros Hb E HQ. unfold ch. do 2 wp_step. by rewrite Hb, E in *. Qed.

Definition skip (s : nat) : nat := span (strchr_in whitespace) b (es - s) s.

Lemma skip_spec s : (s <= es)%nat -> (s <= skip s <= es)%nat.
Proof. intros Hs. unfold skip. destruct (span_spec (strchr_in whitespace) b (es - s) s) as (k & -> & Hk & _). lia. Qed.

Lemma skip_idem s : (s <= es)%nat -> skip (skip s) = skip s.
Proof.
  intros Hs. unfold skip at 2 3. destruct (span_spec (strchr_in whitespace) b (es - s) s) as (k & -> & Hk & _ & Hout).
  unfold skip. destruct (es - (s + k))%nat as [|n] eqn:En; [done|]. destruct Hout as [->|Hout]; [lia|]. cbn [span]. by rewrite Hout.
Qed.

Lemma char_at s : (s <= es)%nat -> exists c, b !! s = Some c /\ (c = 0 <-> s = es).
Proof.
  intros Hs. destruct (decide (s = es)) as [->|Hne]; [by exists 0|]. destruct (es_first s) as (c & E & Hc); [lia|]. exists c. split; [done|]. tauto.
Qed.

(** peek(): whether the next character that is no white space is one of [toks]. *)
Definition looks (toks : list Z) (s : nat) : bool := (skip s <? es)%nat && strchr_in toks (default 0 (b !! skip s)).

Lemma peek_wp toks (Q : bool -> world sh -> Prop) w : parsing w -> Q (looks toks (ps w)) (at_ps (skip (ps w)) w) -> wp (peek es toks) Q w.
Proof.
  intros [Hb Hp] HQ. unfold peek, while_in. do 5 wp_step. destruct (skip_spec (ps w) Hp) as [_ Hs]. destruct (char_at _ Hs) as (c & E & H0).
  rewrite Hb. fold (skip (ps w)). unfold sh_set_ps. do 4 wp_step. eapply ch_wp; [done|exact E|]. wp_step.
  replace (negb (c =? 0) && strchr_in toks c) with (looks toks (ps w)); [exact HQ|]. unfold looks. rewrite E.
  destruct (Z.eqb_spec c 0) as [H1|H1].
  - rewrite (proj2 (Nat.ltb_ge _ _)); [done|]. apply H0 in H1. lia.
  - rewrite (proj2 (Nat.ltb_lt _ _)); [done|]. assert (skip (ps w) <> es) by tauto. lia.
Qed.

Lemma at_ps_parsing s w : parsing w -> (s <= es)%nat -> parsing (at_ps s w).
Proof. by intros [Hb _] Hs. Qed.

(** The token at [s] and its end. *)
Abbreviation at_ i := (default 0 (b !! i)).
Definition tok_at (s : nat) : Z * nat :=
  if at_ s =? 0 then (at_ s, s)
  else if at_ s =? 50 then
    if (s + 2 <? es)%nat && (at_ (s + 1)%nat =? 62) && (at_ (s + 2)%nat =? 62) then (TOKEN_2GTGT, (s + 3)%nat)
    else if at_ (s + 1)%nat =? 62 then (TOKEN_2GT, (s + 2)%nat) else (97, span word_char b (es - s) s)
  else if (at_ s =? 124) || (at_ s =? 40) || (at_ s =? 41) || (at_ s =? 59) || (at_ s =? 38) || (at_ s =? 60) then (at_ s, S s)
  else if at_ s =? 62 then if at_ (S s) =? 62 then (43, S (S s)) else (at_ s, S s)
  else (97, span word_char b (es - s) s).

Lemma at_in s : (s <= es)%nat -> b !! s = Some (at_ s).
Proof. intros Hs. by destruct (char_at s Hs) as (c & -> & _). Qed.
Lemma at_end s : (s <= es)%nat -> at_ s <> 0 -> (s < es)%nat.
Proof. intros Hs Hc. destruct (char_at s Hs) as (c & E & H0). rewrite E in Hc. cbn in Hc. assert (s <> es) by tauto. lia. Qed.
Lemma at_nonzero s : (s < es)%nat -> at_ s <> 0.
Proof. intros Hs. destruct (es_first s Hs) as (c & -> & Hc). done. Qed.

Lemma while_in_wp p s (Q : nat -> world sh -> Prop) w : sh_buf (user w) = b -> Q (span p b (es - s) s) w -> wp (while_in p es s) Q w.
Proof. intros Hb HQ. unfold while_in. do 3 wp_step. by rewrite Hb. Qed.

Lemma gettoken_wp (Q : Z * nat * nat -> world sh -> Prop) w : parsing w ->
  Q ((tok_at (skip (ps w))).1, skip (ps w), (tok_at (skip (ps w))).2) (at_ps (skip (tok_at (skip (ps w))).2) w) -> wp (gettoken es) Q w.
Proof.
  intros [Hb Hp] HQ. unfold gettoken. do 2 wp_step. wp_step. apply while_in_wp; [done|]. fold (skip (ps w)).
  destruct (skip_spec (ps w) Hp) as [_ Hs]. set (s := skip (ps w)) in *. wp_step. eapply ch_wp; [done|by apply at_in|].
  enough (forall m, wp m (fun t w' => t = tok_at s /\ w' = w) w -> wp (let* t := m in let '(tok, s0) := t in
    let* s1 := while_in (strchr_in whitespace) es s0 in modify (sh_set_ps s1) ;; ret (tok, s, s0)) Q w) as Hgo.
  { apply Hgo. clear Hgo HQ. unfold tok_at. destruct (Z.eqb_spec (at_ s) 0) as [E0|E0]; [by wp_step|]. pose proof (at_end s Hs E0) as Hlt.
    destruct (at_ s =? 50).
    - wp_step. eapply (wp_mono _ (fun t w' => t = ((s + 2 <? es)%nat && (at_ (s + 1)%nat =? 62) && (at_ (s + 2)%nat =? 62)) /\ w' = w)).
      + destruct (Nat.ltb_spec (s + 2) es); [|by wp_step]. wp_step. eapply ch_wp; [done|apply at_in; lia|].
        destruct (at_ (s + 1)%nat =? 62); [|by wp_step]. wp_step. eapply ch_wp; [done|apply at_in; lia|]. by wp_step.
      + intros ? ? [-> ->]. destruct (_ && _ && _); [by wp_step|]. wp_step. eapply ch_wp; [done|apply at_in; lia|].
        destruct (at_ (s + 1)%nat =? 62); [by wp_step|]. wp_step. apply while_in_wp; [done|]. by wp_step.
    - destruct (_ || _); [by wp_step|]. destruct (at_ s =? 62).
      + wp_step. eapply ch_wp; [done|apply at_in; lia|]. destruct (at_ (S s) =? 62); by wp_step.
      + wp_step. apply while_in_wp; [done|]. by wp_step. }
  intros m Hm. wp_step. eapply wp_mono; [exact Hm|]. intros t w' [-> ->]. destruct (tok_at s) as [tok e]. cbn [fst snd] in HQ.
  wp_step. apply while_in_wp; [done|]. fold (skip e). do 3 wp_step. exact HQ.
Qed.

Lemma symbols_spec c : strchr_in symbols c = (60 =? c) || ((124 =? c) || ((62 =? c) || ((38 =? c) || ((59 =? c) || ((40 =? c) || (41 =? c)))))).
Proof. change symbols with [60; 124; 62; 38; 59; 40; 41; 0]. rewrite !strchr_in_lit by done. by rewrite orb_false_r. Qed.

Lemma skip_stops s : (s <= es)%nat -> skip s = es \/ strchr_in whitespace (at_ (skip s)) = false.
Proof.
  intros Hs. unfold skip. destruct (span_spec (strchr_in whitespace) b (es - s) s) as (k & -> & Hk & _ & [->|Hout]); [left; lia|by right].
Qed.

Lemma word_span s : (s < es)%nat -> word_char (at_ s) = true -> word s (span word_char b (es - s) s).
Proof.
  intros Hs Hc. destruct (span_spec word_char b (es - s) s) as (k & -> & Hk & Hin & Hout).
  assert (0 < k)%nat. { destruct k; [|lia]. rewrite Nat.add_0_r in Hout. destruct Hout; [lia|congruence]. }
  split; [lia|]. split.
  - intros i Hi. exists (at_ i). split; [apply at_in; lia|]. split; [|apply at_nonzero; lia].
    specialize (Hin (i - s)%nat ltac:(lia)). by replace (s + (i - s))%nat with i in Hin by lia.
  - destruct (decide (s + k = es)%nat) as [?|Hne]; [by left|right]. exists (at_ (s + k)%nat). split; [apply at_in; lia|].
    destruct Hout; [lia|done].
Qed.

(** A token moves on, and a token 'a' is a word. *)
Lemma tok_at_spec s : (s <= es)%nat -> s = es \/ strchr_in whitespace (at_ s) = false ->
  (s = es /\ tok_at s = (0, es)) \/
  ((s < es)%nat /\ (tok_at s).1 <> 0 /\ (s < (tok_at s).2 <= es)%nat /\ ((tok_at s).1 = 97 -> word s (tok_at s).2)).
Proof.
  intros Hs Hws. unfold tok_at. destruct (Z.eqb_spec (at_ s) 0) as [E0|E0].
  { left. destruct (decide (s = es)) as [->|Hne]; [by rewrite es_nul|]. destruct (at_nonzero s); [lia|done]. }
  pose proof (at_end s Hs E0) as Hlt. right. split; [done|]. destruct Hws as [->|Hws]; [lia|].
  assert (forall c, (s + 1 <= es)%nat -> at_ (s + 1)%nat = c -> c <> 0 -> (s + 2 <= es)%nat) as Hnext.
  { intros c Hl Hc Hn. enough (s + 1 < es)%nat by lia. apply at_end; [done|congruence]. }
  assert (word_char (at_ s) = true -> 97 <> 0 /\ (s < span word_char b (es - s) s <= es)%nat /\ (97 = 97 -> word s (span word_char b (es - s) s))) as Hword.
  { intros Hc. pose proof (word_span s Hlt Hc) as Hw. split; [done|]. split; [apply Hw|done]. }
  unfold word_char in Hword. rewrite Hws, symbols_spec in Hword. cbn [negb andb] in Hword.
  destruct (Z.eqb_spec (at_ s) 50) as [E|E].
  - destruct (Nat.ltb_spec (s + 2) es), (Z.eqb_spec (at_ (s + 1)%nat) 62) as [E1|E1], (Z.eqb_spec (at_ (s + 2)%nat) 62); cbn [andb fst snd];
      try (split; [done|split; [specialize (Hnext 62 ltac:(lia) E1 ltac:(done)); lia|done]]); apply Hword; by rewrite E.
  - destruct (Z.eqb_spec (at_ s) 124), (Z.eqb_spec (at_ s) 40), (Z.eqb_spec (at_ s) 41), (Z.eqb_spec (at_ s) 59), (Z.eqb_spec (at_ s) 38), (Z.eqb_spec (at_ s) 60);
      cbn [orb fst snd]; try (split; [done|split; [lia|lia]]).
    destruct (Z.eqb_spec (at_ s) 62) as [E2|E2].
    + replace (S s) with (s + 1)%nat by lia. destruct (Z.eqb_spec (at_ (s + 1)%nat) 62) as [E3|E3]; cbn [fst snd].
      * specialize (Hnext 62 ltac:(lia) E3 ltac:(done)). split; [done|split; [lia|done]].
      * split; [done|split; [lia|lia]].
    + apply Hword. apply negb_true_iff. repeat (apply orb_false_iff; split); apply Z.eqb_neq; congruence.
Qed.

(** ** Well-formed commands *)

Definition redirections : list (Z * Z) :=
  [(O_RDONLY, 0); (Z.lor (Z.lor O_WRONLY O_CREATE) O_TRUNC, 1); (Z.lor O_WRONLY O_CREATE, 1);
   (Z.lor (Z.lor O_WRONLY O_CREATE) O_TRUNC, 2); (Z.lor O_WRONLY O_CREATE, 2)].

Fixpoint wf_cmd (c : cmd) : Prop :=
  match c with
  | EXEC argv => (length argv < MAXARGS)%nat /\ Forall (fun a => word a.1 a.2) argv
  | REDIR c' q e mode fd => wf_cmd c' /\ word q e /\ (mode, fd) ∈ redirections
  | PIPE l r => wf_cmd l /\ wf_cmd r
  | LIST l r => wf_cmd l /\ wf_cmd r
  | BACK c' => wf_cmd c'
  end.

(** The number of words of a simple command under its redirections. *)
Fixpoint args_of (c : cmd) : option nat :=
  match c with
  | EXEC argv => Some (length argv)
  | REDIR c' _ _ _ _ => args_of c'
  | _ => None
  end.

Lemma add_arg_wf q e c n : wf_cmd c -> args_of c = Some n -> word q e -> (S n < MAXARGS)%nat ->
  wf_cmd (add_arg (q, e) c) /\ args_of (add_arg (q, e) c) = Some (S n).
Proof.
  intros Hwf Hn Hw Hlt. induction c as [argv|c IH|? ? ? ?|? ? ? ?|? ?]; cbn in *; try done.
  - injection Hn as <-. rewrite length_app. cbn. rewrite Nat.add_1_r. repeat split; [lia|]. apply list.Forall_app. split; [apply Hwf|].
    by apply list.Forall_singleton.
  - destruct Hwf as (H1 & H2 & H3). destruct (IH H1 Hn). done.
Qed.

(** ** The parser on any line *)

Lemma token_wp (Q : Z * nat * nat -> world sh -> Prop) w : parsing w ->
  (forall tok q e w', parsing w' -> q = skip (ps w) -> (ps w <= q <= ps w')%nat ->
     (q = es /\ tok = 0) \/ ((q < e <= ps w')%nat /\ tok <> 0 /\ (tok = 97 -> word q e)) -> Q (tok, q, e) w') ->
  wp (gettoken es) Q w.
Proof.
  intros Hw HQ. apply gettoken_wp; [done|]. pose proof (skip_spec (ps w) (proj2 Hw)) as Hs. pose proof (skip_stops (ps w) (proj2 Hw)) as Hst.
  destruct (tok_at_spec (skip (ps w)) (proj2 Hs) Hst) as [(He & Et)|(Hlt & Hn & He & Hword)].
  - rewrite Et. cbn [fst snd]. pose proof (skip_spec es ltac:(lia)). apply HQ; [apply at_ps_parsing; [done|lia]|done|cbn; lia|by left].
  - pose proof (skip_spec (tok_at (skip (ps w))).2 ltac:(lia)). apply HQ; [apply at_ps_parsing; [done|lia]|done|cbn; lia|right].
    cbn. split; [lia|done].
Qed.

Lemma look_wp toks (Q : bool -> world sh -> Prop) w : parsing w ->
  (forall w', parsing w' -> ps w' = skip (ps w) -> (ps w <= ps w')%nat -> (looks toks (ps w) = true -> ps w' < es)%nat ->
     Q (looks toks (ps w)) w') -> wp (peek es toks) Q w.
Proof.
  intros Hw HQ. apply peek_wp; [done|]. pose proof (skip_spec (ps w) (proj2 Hw)). apply HQ; [apply at_ps_parsing; [done|lia]|done|cbn; lia|].
  unfold looks. intros [Hl%Nat.ltb_lt _]%andb_true_iff. done.
Qed.

Lemma redirs_turn_sp c w : parsing w -> wf_cmd c -> sp (redirs_turn es c) (fun r w' => parsing w' /\ (ps w <= ps w')%nat /\
  match r with
  | inl c' => wf_cmd c' /\ args_of c' = args_of c /\ (ps w < ps w')%nat
  | inr c' => c' = c
  end) w.
Proof.
  intros Hw Hc. unfold redirs_turn. apply sp_bind, sp_wp, look_wp; [done|]. intros w1 Hw1 E1 H1 Hin. destruct (looks _ _); cbn [negb].
  2:{ by apply sp_ret. }
  specialize (Hin eq_refl). apply sp_bind, sp_wp. wp_step. apply sp_bind, sp_wp, token_wp; [done|]. intros tok q e w2 Hw2 -> H2 Htok.
  assert (skip (ps w1) = ps w1) as Hsk by (rewrite E1; apply skip_idem, Hw). rewrite Hsk in *. destruct Htok as [[? _]|(He & _)]; [lia|].
  cbn [fst snd]. destruct (_ || _) eqn:Eop.
  - apply sp_bind, sp_wp, token_wp; [done|]. intros a q' e' w3 Hw3 -> H3 Htok'. destruct (Z.eqb_spec a 97) as [->|?]; cbn [negb]; [|by in_errors].
    destruct Htok' as [[_ ?]|(_ & _ & Hword)]; [done|]. specialize (Hword eq_refl). apply sp_ret. split; [done|]. split; [lia|].
    destruct (tok =? 60), (tok =? 62), (tok =? 43), (tok =? TOKEN_2GT); cbn [wf_cmd args_of]; (split; [|split; [done|lia]]);
      (split; [done|split; [done|]]); unfold redirections; rewrite !elem_of_cons; tauto.
  - apply sp_bind, sp_wp. wp_step. apply sp_ret. split; [apply at_ps_parsing; [done|apply Hw1]|]. split; [done|done].
Qed.

Lemma parseredirs_sp c w : parsing w -> wf_cmd c ->
  sp (parseredirs es c) (fun c' w' => parsing w' /\ (ps w <= ps w')%nat /\ wf_cmd c' /\ args_of c' = args_of c) w.
Proof.
  intros Hw Hc. unfold parseredirs.
  apply (sp_iter (fun _ w' => es - ps w')%nat (fun c' w' => parsing w' /\ (ps w <= ps w')%nat /\ wf_cmd c' /\ args_of c' = args_of c));
    [done|lia|]. intros c1 w1 (Hw1 & H1 & Hc1 & Ha1). eapply sp_mono; [by apply redirs_turn_sp|].
  intros [c2|c2] w2 (Hw2 & H2 & Hr).
  - destruct Hr as (Hc2 & Ha2 & Hlt). pose proof (proj2 Hw2). split; [|lia]. rewrite Ha2. split; [done|]. split; [lia|done].
  - subst c2. split; [done|]. split; [lia|done].
Qed.

Lemma args_turn_sp n c w : parsing w -> wf_cmd c -> args_of c = Some n -> sp (args_turn es (n, c)) (fun r w' => parsing w' /\ (ps w <= ps w')%nat /\
  match r with
  | inl (n', c') => wf_cmd c' /\ args_of c' = Some n' /\ (ps w < ps w')%nat
  | inr c' => c' = c
  end) w.
Proof.
  intros Hw Hc Hn. unfold args_turn. apply sp_bind, sp_wp, look_wp; [done|]. intros w1 Hw1 E1 H1 _. destruct (looks _ _); [by apply sp_ret|].
  apply sp_bind, sp_wp, token_wp; [done|]. intros tok q e w2 Hw2 -> H2 Htok. destruct (Z.eqb_spec tok 0); [apply sp_ret; split; [done|split; [lia|done]]|].
  destruct Htok as [[_ ?]|(He & _ & Hword)]; [done|]. destruct (Z.eqb_spec tok 97) as [->|?]; cbn [negb]; [|by in_errors].
  destruct (Nat.leb_spec MAXARGS (S n)) as [?|Hlt]; [by in_errors|]. destruct (add_arg_wf _ _ _ _ Hc Hn (Hword eq_refl) Hlt) as [Hc' Hn'].
  apply sp_bind. eapply sp_mono; [by apply parseredirs_sp|]. intros c3 w3 (Hw3 & H3 & Hc3 & Hn3). apply sp_ret. split; [done|].
  split; [lia|]. split; [done|]. split; [congruence|lia].
Qed.

(** What a function of the grammar does that is called with less than [n] characters left. *)
Definition parses (n : nat) (m : parser cmd) : Prop :=
  forall w, parsing w -> (es - ps w < n)%nat -> sp m (fun c w' => parsing w' /\ (ps w <= ps w')%nat /\ wf_cmd c) w.

Lemma parseblock_sp n m w : parses n m -> parsing w -> (es - ps w <= n)%nat -> looks (lit "(") (ps w) = true ->
  sp (parseblock es m) (fun c w' => parsing w' /\ (ps w <= ps w')%nat /\ wf_cmd c) w.
Proof.
  intros Hm Hw Hn Hl. unfold parseblock. apply sp_bind, sp_wp, look_wp; [done|]. rewrite Hl. clear Hl. intros w1 Hw1 E1 H1 Hlt. specialize (Hlt eq_refl). cbn [negb].
  apply sp_bind, sp_wp, token_wp; [done|]. intros tok q e w2 Hw2 -> H2 Htok.
  rewrite E1, skip_idem in * by apply Hw. destruct Htok as [[? _]|(He & _)]; [lia|].
  apply sp_bind. eapply sp_mono; [apply Hm; [done|lia]|]. intros c w3 (Hw3 & H3 & Hc).
  apply sp_bind, sp_wp, look_wp; [done|]. intros w4 Hw4 _ H4 _. destruct (looks _ _); cbn [negb]; [|by in_errors].
  apply sp_bind, sp_wp, token_wp; [done|]. intros tok' q' e' w5 Hw5 -> H5 _.
  eapply sp_mono; [by apply parseredirs_sp|]. intros c' w6 (Hw6 & H6 & Hc' & _). split; [done|]. split; [lia|done].
Qed.

Lemma parseexec_sp n m w : parses n m -> parsing w -> (es - ps w <= n)%nat ->
  sp (parseexec es m) (fun c w' => parsing w' /\ (ps w <= ps w')%nat /\ wf_cmd c) w.
Proof.
  intros Hm Hw Hn. unfold parseexec. apply sp_bind, sp_wp, look_wp; [done|]. intros w1 Hw1 E1 H1 _. destruct (looks _ _) eqn:El.
  - eapply sp_mono; [apply (parseblock_sp n); [done|done|lia|]|].
    + unfold looks in *. by rewrite E1, skip_idem by apply Hw.
    + intros c w2 (? & ? & ?). split; [done|]. split; [lia|done].
  - apply sp_bind. eapply sp_mono; [apply parseredirs_sp; [done|]|].
    { cbn. unfold MAXARGS. split; [lia|done]. }
    intros c w2 (Hw2 & H2 & Hc & Ha). cbn in Ha.
    apply (sp_iter (fun _ w' => es - ps w')%nat (fun a w' => parsing w' /\ (ps w <= ps w')%nat /\ wf_cmd a.2 /\ args_of a.2 = Some a.1));
      [split; [done|]; split; [lia|done]|lia|].
    intros [n3 c3] w3 (Hw3 & H3 & Hc3 & Ha3). eapply sp_mono; [by apply args_turn_sp|]. intros [[n4 c4]|c4] w4 (Hw4 & H4 & Hr).
    + destruct Hr as (? & ? & ?). pose proof (proj2 Hw4). split; [|lia]. split; [done|]. split; [lia|done].
    + subst c4. split; [done|]. split; [lia|done].
Qed.

(** Past a token that peek() has seen. *)
Lemma past_token_wp (Q : Z * nat * nat -> world sh -> Prop) w w1 : parsing w -> parsing w1 -> ps w1 = skip (ps w) -> (ps w1 < es)%nat ->
  (forall t w', parsing w' -> (ps w1 < ps w')%nat -> Q t w') -> wp (gettoken es) Q w1.
Proof.
  intros Hw Hw1 E1 Hlt HQ. apply token_wp; [done|]. intros tok q e w2 Hw2 -> H2 Htok. rewrite E1, skip_idem in * by apply Hw.
  apply HQ; [done|]. destruct Htok as [[? _]|(He & _)]; lia.
Qed.

Lemma parsepipe_sp fuel n m : parses n m -> forall w, parsing w -> (es - ps w <= n)%nat -> (es - ps w < fuel)%nat ->
  sp (parsepipe fuel es m) (fun c w' => parsing w' /\ (ps w <= ps w')%nat /\ wf_cmd c) w.
Proof.
  intros Hm. induction fuel as [|fuel IH]; intros w Hw Hn Hf; [lia|]. cbn [parsepipe]. apply sp_bind. eapply sp_mono; [by apply (parseexec_sp n)|].
  intros c w1 (Hw1 & H1 & Hc). apply sp_bind, sp_wp, look_wp; [done|]. intros w2 Hw2 E2 H2 Hlt. destruct (looks _ _) eqn:El.
  - specialize (Hlt eq_refl). apply sp_bind, sp_wp. eapply past_token_wp; [exact Hw1|done|done|done|]. intros t w3 Hw3 H3.
    apply sp_bind. eapply sp_mono; [apply IH; [done|lia|lia]|]. intros r w4 (Hw4 & H4 & Hr). apply sp_ret. split; [done|]. split; [lia|done].
  - apply sp_ret. split; [done|]. split; [lia|done].
Qed.

Lemma back_turn_sp c w : parsing w -> wf_cmd c -> sp (back_turn es c) (fun r w' => parsing w' /\ (ps w <= ps w')%nat /\
  match r with inl c' => wf_cmd c' /\ (ps w < ps w')%nat | inr c' => c' = c end) w.
Proof.
  intros Hw Hc. unfold back_turn. apply sp_bind, sp_wp, look_wp; [done|]. intros w2 Hw2 E2 H2 Hlt. destruct (looks _ _) eqn:El; [|by apply sp_ret].
  specialize (Hlt eq_refl). apply sp_bind, sp_wp. eapply past_token_wp; [exact Hw|done|done|done|]. intros t w3 Hw3 H3.
  apply sp_ret. split; [done|]. split; [lia|]. split; [done|lia].
Qed.

Lemma parseline_sp fuel : parses fuel (parseline fuel es).
Proof.
  induction fuel as [|fuel IH]; intros w Hw Hf; [lia|]. cbn [parseline]. apply sp_bind. eapply sp_mono; [apply (parsepipe_sp _ fuel); [done|done|lia|lia]|].
  intros c w1 (Hw1 & H1 & Hc). apply sp_bind. eapply sp_mono.
  { apply (sp_iter (fun _ w' => es - ps w')%nat (fun c' w' => parsing w' /\ (ps w <= ps w')%nat /\ wf_cmd c')
      _ _ _ (fun c' w' => parsing w' /\ (ps w <= ps w')%nat /\ wf_cmd c')); [done|lia|].
    intros c2 w2 (Hw2 & H2 & Hc2). eapply sp_mono; [by apply back_turn_sp|]. intros [c3|c3] w3 (Hw3 & H3 & Hr).
    - destruct Hr as [? ?]. pose proof (proj2 Hw3). split; [|lia]. split; [done|]. split; [lia|done].
    - subst c3. split; [done|]. split; [lia|done]. }
  intros c2 w2 (Hw2 & H2 & Hc2). apply sp_bind, sp_wp, look_wp; [done|]. intros w3 Hw3 E3 H3 Hlt. destruct (looks _ _) eqn:El.
  - specialize (Hlt eq_refl). apply sp_bind, sp_wp. eapply past_token_wp; [exact Hw2|done|done|done|]. intros t w4 Hw4 H4.
    apply sp_bind. eapply sp_mono; [apply IH; [done|lia]|]. intros r w5 (Hw5 & H5 & Hr). apply sp_ret. split; [done|]. split; [lia|done].
  - apply sp_ret. split; [done|]. split; [lia|done].
Qed.
End Parser.

(** ** nulterminate() *)

(** The words of a command. *)
Fixpoint words_of (c : cmd) : list (nat * nat) :=
  match c with
  | EXEC argv => argv
  | REDIR c' q e _ _ => words_of c' ++ [(q, e)]
  | PIPE l r => words_of l ++ words_of r
  | LIST l r => words_of l ++ words_of r
  | BACK c' => words_of c'
  end.

Definition put_nuls (ws : list (nat * nat)) (b : list Z) : list Z := fold_left (fun b a => <[a.2 := 0]> b) ws b.

Lemma length_put_nuls ws b : length (put_nuls ws b) = length b.
Proof. unfold put_nuls. revert b. induction ws as [|a ws IH]; intros b; cbn; [done|]. by rewrite IH, length_insert. Qed.

Lemma put_nuls_app ws ws' b : put_nuls (ws ++ ws') b = put_nuls ws' (put_nuls ws b).
Proof. apply fold_left_app. Qed.

Lemma lookup_put_nuls ws b i : i ∉ ws.*2 -> put_nuls ws b !! i = b !! i.
Proof.
  unfold put_nuls. revert b. induction ws as [|a ws IH]; intros b; cbn; [done|]. rewrite elem_of_cons. intros Hi. rewrite IH by tauto.
  apply list_lookup_insert_ne. naive_solver.
Qed.

Lemma lookup_put_nuls_end ws b e : e ∈ ws.*2 -> (e < length b)%nat -> put_nuls ws b !! e = Some 0.
Proof.
  revert b. induction ws as [|a ws IH] using rev_ind; intros b He Hl; [by apply elem_of_nil in He|]. rewrite put_nuls_app. cbn.
  destruct (decide (e = a.2)) as [->|Hne]; [apply list_lookup_insert_eq; by rewrite length_put_nuls|].
  rewrite list_lookup_insert_ne by done. apply IH; [|done]. rewrite fmap_app, elem_of_app in He. cbn in He. rewrite list_elem_of_singleton in He. tauto.
Qed.

Lemma put_nul_wp e (Q : unit -> world sh -> Prop) w : (e < length (sh_buf (user w)))%nat ->
  Q tt (World (held w) (trace w) (Sh (<[e := 0]> (sh_buf (user w))) (sh_ps (user w)))) -> wp (put_nul e) Q w.
Proof. intros He HQ. unfold put_nul. do 2 wp_step. rewrite (proj2 (Nat.ltb_lt _ _)) by done. by wp_step. Qed.

Lemma for_each_nuls ws (Q : unit -> world sh -> Prop) w : Forall (fun a => (a.2 < length (sh_buf (user w)))%nat) ws ->
  Q tt (World (held w) (trace w) (Sh (put_nuls ws (sh_buf (user w))) (sh_ps (user w)))) -> wp (for_each ws (fun a => put_nul a.2)) Q w.
Proof.
  revert w. induction ws as [|a ws IH]; intros w Hf HQ; cbn [for_each]; [wp_step; by destruct w as [? ? [? ?]]|].
  apply Forall_cons_1 in Hf as [Ha Hf]. wp_step. apply put_nul_wp; [done|]. apply IH; [|done].
  eapply list.Forall_impl; [exact Hf|]. intros x Hx. cbn. by rewrite length_insert.
Qed.

Lemma nulterminate_wp c (Q : unit -> world sh -> Prop) w : Forall (fun a => (a.2 < length (sh_buf (user w)))%nat) (words_of c) ->
  Q tt (World (held w) (trace w) (Sh (put_nuls (words_of c) (sh_buf (user w))) (sh_ps (user w)))) -> wp (nulterminate c) Q w.
Proof.
  assert (forall (ws ws' : list (nat * nat)) (w : world sh), Forall (fun a => (a.2 < length (sh_buf (user w)))%nat) ws ->
    Forall (fun a => (a.2 < length (put_nuls ws' (sh_buf (user w))))%nat) ws) as Hlen.
  { intros ws ws' w0 Hf. eapply list.Forall_impl; [exact Hf|]. intros x Hx. by rewrite length_put_nuls. }
  revert Q w. induction c as [argv|c IH q e mode fd|l IHl r IHr|l IHl r IHr|c IH]; intros Q w; cbn [words_of nulterminate];
    rewrite ?list.Forall_app, ?put_nuls_app.
  - apply for_each_nuls.
  - intros [H1 H2] HQ. wp_step. apply IH; [done|]. apply put_nul_wp; [|exact HQ]. cbn. rewrite length_put_nuls. apply Forall_cons_1 in H2 as [H2 _]. exact H2.
  - intros [H1 H2] HQ. wp_step. apply IHl; [done|]. apply IHr; [by apply Hlen|]. exact HQ.
  - intros [H1 H2] HQ. wp_step. apply IHl; [done|]. apply IHr; [by apply Hlen|]. exact HQ.
  - apply IH.
Qed.

(** The C string at [q]. *)
Definition str_at (b : list Z) (q : nat) : list Z := cut (length b) (drop q b).

Lemma wf_words b es c : wf_cmd b es c -> Forall (fun a => word b es a.1 a.2) (words_of c).
Proof.
  induction c as [argv|c IH q e mode fd|l IHl r IHr|l IHl r IHr|c IH]; cbn; rewrite ?list.Forall_app, ?list.Forall_singleton; naive_solver.
Qed.

Lemma cut_at n s k : (k < n)%nat -> s !! k = Some 0 -> (forall i, (i < k)%nat -> s !! i <> Some 0) -> cut n s = take k s.
Proof.
  revert n s. induction k as [|k IH]; intros n s Hn E Hne; (destruct n as [|n]; [lia|]); destruct s as [|c s]; try done; cbn in *.
  - injection E as ->. done.
  - pose proof (Hne 0%nat ltac:(lia)) as Hc. cbn in Hc. destruct (Z.eqb_spec c 0) as [->|_]; [done|]. f_equal. apply IH; [lia|done|].
    intros i Hi. apply (Hne (S i)). lia.
Qed.

(** No NUL falls into a word. *)
Lemma word_string b es c q e : b !! es = Some 0 -> wf_cmd b es c -> (q, e) ∈ words_of c ->
  str_at (put_nuls (words_of c) b) q = slice q (e - q) b.
Proof.
  intros Hes Hwf Hin. pose proof (wf_words _ _ _ Hwf) as Hws. rewrite list.Forall_forall in Hws. pose proof (lookup_lt_Some _ _ _ Hes) as Hlen.
  destruct (Hws _ Hin) as (Hr & Hch & _). cbn [fst snd] in *.
  assert (forall i, (q <= i < e)%nat -> put_nuls (words_of c) b !! i = b !! i) as Hkeep.
  { intros i Hi. apply lookup_put_nuls. intros ([q' e'] & -> & Hin')%list_elem_of_fmap. destruct (Hws _ Hin') as (Hr' & _ & He'). cbn [fst snd] in *.
    destruct (Hch e' Hi) as (x & Ex & Hx & Hx0). destruct He' as [->|(y & Ey & Hy)]; congruence. }
  assert (put_nuls (words_of c) b !! e = Some 0) as Hend.
  { apply lookup_put_nuls_end; [|lia]. apply list_elem_of_fmap. by exists (q, e). }
  unfold str_at. rewrite (cut_at _ _ (e - q)); [|rewrite length_put_nuls; lia| |].
  - unfold slice. apply list_eq. intros i. destruct (decide (i < e - q)%nat) as [Hi|Hi].
    + rewrite !lookup_take_lt, !lookup_drop by lia. apply Hkeep. lia.
    + rewrite !lookup_take_ge by lia. done.
  - rewrite lookup_drop. by replace (q + (e - q))%nat with e by lia.
  - intros i Hi. rewrite lookup_drop, Hkeep by lia. destruct (Hch (q + i)%nat ltac:(lia)) as (x & -> & _ & Hx). congruence.
Qed.

Lemma string_end b es : strlen b = Some es -> b !! es = Some 0 /\ forall i, (i < es)%nat -> exists c, b !! i = Some c /\ c <> 0.
Proof.
  revert es. induction b as [|c b IH]; intros es; cbn; [done|]. destruct (Z.eqb_spec c 0) as [->|Hc]; [intros [= <-]; split; [done|lia]|].
  destruct (strlen b) as [n|]; [|done]. intros [= <-]. destruct (IH n eq_refl) as [H1 H2]. split; [done|]. intros [|i] Hi; cbn; [eauto|]. apply H2. lia.
Qed.

Lemma parsecmd_sp b es held0 trace0 : strlen b = Some es ->
  sp parsecmd (fun c w' => wf_cmd b es c /\ sh_buf (user w') = put_nuls (words_of c) b /\
    forall q e, (q, e) ∈ words_of c -> str_at (sh_buf (user w')) q = slice q (e - q) b) (World held0 trace0 (Sh b 0)).
Proof.
  intros Hes. destruct (string_end b es Hes) as [Hnul Hfirst]. unfold parsecmd. apply sp_bind, sp_wp. wp_step. cbn [sh_buf].
  rewrite Hes. apply sp_bind, sp_wp. unfold the. wp_step. assert (parsing b es (World held0 trace0 (Sh b 0))) as Hw by (split; cbn; [done|lia]).
  apply sp_bind. eapply sp_mono; [apply (parseline_sp b es Hnul Hfirst (S es)); [done|lia]|]. intros c w1 (Hw1 & _ & Hc).
  apply sp_bind, sp_wp, (look_wp b es Hnul Hfirst); [done|]. intros w2 [Hb2 Hw2] _ _ _. apply sp_bind, sp_wp. wp_step.
  destruct (Nat.eqb_spec (sh_ps (user w2)) es); cbn [negb]; [|by in_errors]. apply sp_bind, sp_wp. apply nulterminate_wp.
  - rewrite Hb2. pose proof (lookup_lt_Some _ _ _ Hnul). eapply list.Forall_impl; [by apply (wf_words b es)|]. intros [q e'] (? & _). cbn in *. lia.
  - apply sp_ret. cbn [user sh_buf]. rewrite Hb2. split; [done|]. split; [done|]. intros q e' Hin. by apply (word_string b es).
Qed.

(** C37. Whatever line is typed, parsecmd() either ends with one of its syntax errors or returns
    a command; it never loops, reads outside the line or meets its own parseblock panic. Every simple command it
    returns has fewer than MAXARGS words, leaving the null pointer a place; every redirection is one of the
    five of the language; every word lies in the line and consists of word
    characters; and after nulterminate() the string at each word
    is exactly the word, the rest of the buffer being unchanged. *)
Theorem parsecmd_well_formed b es held0 trace0 : strlen b = Some es ->
  sp parsecmd (fun c w' => wf_cmd b es c /\ sh_buf (user w') = put_nuls (words_of c) b /\
    forall q e, (q, e) ∈ words_of c -> str_at (sh_buf (user w')) q = slice q (e - q) b) (World held0 trace0 (Sh b 0)).
Proof. apply parsecmd_sp. Qed.

(** A line with all the forms. *)
Abbreviation demo_line := (lit "(echo a>>f ;b | c 2x 2>y)& ; z").
Lemma parsecmd_well_formed_witness :
  sp parsecmd (fun c w' => wf_cmd demo_line 30 c /\ sh_buf (user w') = put_nuls (words_of c) demo_line /\
    forall q e, (q, e) ∈ words_of c -> str_at (sh_buf (user w')) q = slice q (e - q) demo_line) (World [] [] (Sh demo_line 0)) /\
  (exists c b, sh_parse (lit_bytes "(echo a>>f ;b | c 2x 2>y)& ; z") = Ret (c, b)) /\ sh_parse (lit_bytes "ls )") = Panic "syntax".
Proof.
  split; [apply (parsecmd_well_formed demo_line 30); reflexivity|]. split; [do 2 eexists; vm_compute; reflexivity|vm_compute; reflexivity].
Defined.
