(* ===== verification/ShParse.v ===== *)
(** * The language of the shell

    The commands of the shell as trees of words, their concrete syntax as tokens, and
    the texts of a token list with any white space between the tokens.  The parser of user/sh.c
    reads every text of every tree back as that tree. *)

From S2P Require Import Prelude CString Printf Sysfile Sh.

Open Scope Z_scope.

(** ** Trees and their tokens *)

Inductive redir := In | Out | Append | Err | ErrAppend.

Definition redir_mode (k : redir) : Z * Z :=
  match k with
  | In => (O_RDONLY, 0)
  | Out => (Z.lor (Z.lor O_WRONLY O_CREATE) O_TRUNC, 1)
  | Append => (Z.lor O_WRONLY O_CREATE, 1)
  | Err => (Z.lor (Z.lor O_WRONLY O_CREATE) O_TRUNC, 2)
  | ErrAppend => (Z.lor O_WRONLY O_CREATE, 2)
  end.

Inductive tree :=
| Simple (args : list (list Z))
| Redirect (t : tree) (k : redir) (file : list Z)
| Pipe (l r : tree)
| Seq (l r : tree)
| Background (t : tree).

Inductive token := Bar | Open | Close | Semi | Amp | Rd (k : redir) | Wd (w : list Z).

#[export] Instance redir_eq : EqDecision redir.
Proof. solve_decision. Defined.
#[export] Instance token_eq : EqDecision token.
Proof. solve_decision. Defined.

Definition redir_text (k : redir) : list Z :=
  match k with In => [60] | Out => [62] | Append => [62; 62] | Err => [50; 62] | ErrAppend => [50; 62; 62] end.
Definition text_of (t : token) : list Z :=
  match t with
  | Bar => [124] | Open => [40] | Close => [41] | Semi => [59] | Amp => [38]
  | Rd k => redir_text k
  | Wd w => w
  end.

(** A tree where a line (0), a line without ; (1), a pipeline (2) or a part of a pipeline (3) is expected: parentheses are put
    where the tree is of a weaker kind. *)
Definition parens (weak : bool) (ts : list token) : list token := if weak then Open :: ts ++ [Close] else ts.
Fixpoint tokens (level : nat) (t : tree) : list token :=
  match t with
  | Simple args => Wd <$> args
  | Redirect t' k file => tokens 3 t' ++ [Rd k; Wd file]
  | Pipe l r => parens (2 <? level)%nat (tokens 3 l ++ Bar :: tokens 2 r)
  | Background t' => parens (1 <? level)%nat (tokens 1 t' ++ [Amp])
  | Seq l r => parens (0 <? level)%nat (tokens 1 l ++ Semi :: tokens 0 r)
  end.

Definition good_word (w : list Z) : Prop := w <> [] /\ Forall (fun c => word_char c = true /\ c <> 0) w.
Fixpoint good_tree (t : tree) : Prop :=
  match t with
  | Simple args => (length args < MAXARGS)%nat /\ Forall good_word args
  | Redirect t' _ file => good_tree t' /\ good_word file
  | Pipe l r | Seq l r => good_tree l /\ good_tree r
  | Background t' => good_tree t'
  end.

(** ** Texts *)

(** What may come right after a token: a word ends at a character that is none of a word, and
    [>] and [2>] are not followed by another [>]. *)
Definition follows (t : token) (rest : list Z) : Prop :=
  match t with
  | Wd w => match rest with [] => True | c :: _ => word_char c = false /\ (w = [50] -> c <> 62) end
  | Rd Out | Rd Err => head rest <> Some 62
  | _ => True
  end.

Definition is_space (c : Z) : Prop := strchr_in whitespace c = true.

Inductive renders : list token -> list Z -> Prop :=
| renders_nil sp : Forall is_space sp -> renders [] sp
| renders_cons t ts sp rest : Forall is_space sp -> follows t rest -> renders ts rest -> renders (t :: ts) (sp ++ text_of t ++ rest).

(** ** Trees in the buffer *)

(** The command [c] is the tree [t] when the word between two positions is given by [txt]. *)
Fixpoint shows (txt : nat * nat -> list Z) (c : cmd) (t : tree) : Prop :=
  match c, t with
  | EXEC argv, Simple args => args = txt <$> argv
  | REDIR c' q e mode fd, Redirect t' k file => shows txt c' t' /\ (mode, fd) = redir_mode k /\ file = txt (q, e)
  | PIPE l r, Pipe l' r' => shows txt l l' /\ shows txt r r'
  | LIST l r, Seq l' r' => shows txt l l' /\ shows txt r r'
  | BACK c', Background t' => shows txt c' t'
  | _, _ => False
  end.

Lemma shows_ext txt txt' c t : (forall a, a ∈ words_of c -> txt a = txt' a) -> shows txt c t -> shows txt' c t.
Proof.
  revert t. induction c as [argv|c IH q e mode fd|l IHl r IHr|l IHl r IHr|c IH]; intros [] Hin; cbn [words_of] in Hin; cbn; try done.
  - intros ->. apply list_fmap_ext. intros i a Ha. apply Hin. by eapply list_elem_of_lookup_2.
  - intros (Hs & Hm & ->). split; [|split; [done|]].
    + apply IH; [|done]. intros a Ha. apply Hin, elem_of_app. by left.
    + apply Hin, elem_of_app. right. left.
  - intros [H1 H2]. split; [apply IHl|apply IHr]; try done; intros a Ha; apply Hin, elem_of_app; [by left|by right].
  - intros [H1 H2]. split; [apply IHl|apply IHr]; try done; intros a Ha; apply Hin, elem_of_app; [by left|by right].
  - intros Hs. by apply IH.
Qed.

Definition first_char (t : token) : Z := hd 0 (text_of t).
Definition good_token (t : token) : Prop := match t with Wd w => good_word w | _ => True end.
Definition code_of (t : token) : Z :=
  match t with
  | Bar => 124 | Open => 40 | Close => 41 | Semi => 59 | Amp => 38
  | Rd In => 60 | Rd Out => 62 | Rd Append => 43 | Rd Err => TOKEN_2GT | Rd ErrAppend => TOKEN_2GTGT
  | Wd _ => 97
  end.

(** ** The lexer on a text *)

Section Text.
Variables (b : list Z) (es : nat).
Hypothesis es_nul : b !! es = Some 0.
Hypothesis es_first : forall i, (i < es)%nat -> exists c, b !! i = Some c /\ c <> 0.
Abbreviation ps w := (sh_ps (user w)).
Abbreviation at_ i := (default 0 (b !! i)).

(** The rest of the line. *)
Definition text (s : nat) : list Z := slice s (es - s) b.

Lemma length_text s : length (text s) = (es - s)%nat.
Proof. unfold text, slice. rewrite length_take, length_drop. pose proof (lookup_lt_Some _ _ _ es_nul). lia. Qed.

Lemma text_split s u v : (s <= es)%nat -> text s = u ++ v ->
  (s + length u <= es)%nat /\ text (s + length u) = v /\ slice s (length u) b = u.
Proof.
  intros Hs E. pose proof (f_equal length E) as Hl. rewrite length_text, length_app in Hl. split; [lia|]. split.
  - rewrite <- (drop_app_length u v), <- E. unfold text, slice. rewrite skipn_firstn_comm, drop_drop. f_equal. lia.
  - transitivity (take (length u) (text s)); [unfold text, slice; rewrite take_take; f_equal; lia|]. rewrite E. apply take_app_length.
Qed.

Lemma text_cons s c r : (s <= es)%nat -> text s = c :: r -> at_ s = c /\ (s < es)%nat /\ text (S s) = r.
Proof.
  intros Hs E. destruct (text_split s [c] r Hs E) as (H1 & H2 & _). cbn in H1, H2. rewrite Nat.add_1_r in H1, H2. split; [|split; [lia|done]].
  pose proof (f_equal (fun l => l !! 0%nat) E) as E0. cbn in E0. unfold text in E0. rewrite lookup_slice, Nat.add_0_r in E0 by lia. by rewrite E0.
Qed.

Lemma span_text p s u v : (s <= es)%nat -> text s = u ++ v -> Forall (fun c => p c = true) u -> match v with [] => True | c :: _ => p c = false end ->
  span p b (es - s) s = (s + length u)%nat.
Proof.
  revert s. induction u as [|c u IH]; intros s Hs E Hu Hv; cbn in E.
  - rewrite Nat.add_0_r. destruct v as [|c v].
    + apply (f_equal length) in E. rewrite length_text in E. cbn in E. by rewrite E.
    + destruct (text_cons s c v Hs E) as (<- & Hlt & _). destruct (es - s)%nat eqn:En; [done|]. cbn. by rewrite Hv.
  - destruct (text_cons s c (u ++ v) Hs E) as (Hc & Hlt & E'). apply Forall_cons_1 in Hu as [Hp Hu].
    destruct (es - s)%nat eqn:En; [lia|]. cbn. rewrite Hc, Hp. replace n with (es - S s)%nat by lia. rewrite (IH (S s)); [lia|lia|done|done|done].
Qed.

Lemma word_char_spec c : word_char c = true -> strchr_in whitespace c = false /\ strchr_in symbols c = false.
Proof. unfold word_char. rewrite andb_true_iff, !negb_true_iff. done. Qed.

(** Tokens start with a character that is neither white space nor NUL. *)
Lemma first_char_spec t : good_token t -> exists r, text_of t = first_char t :: r /\ strchr_in whitespace (first_char t) = false /\ first_char t <> 0.
Proof.
  unfold first_char. destruct t as [| | | | |[]|w]; try (intros _; eexists; repeat split; done).
  intros [Hne Hw]. cbn. destruct w as [|c w]; [done|]. exists w. apply Forall_cons_1 in Hw as [[Hc H0] _]. by apply word_char_spec in Hc as [? _].
Qed.

Lemma renders_skip ts s : (s <= es)%nat -> Forall good_token ts -> renders ts (text s) ->
  renders ts (text (skip b es s)) /\ match ts with [] => skip b es s = es | t :: _ => exists rest, text (skip b es s) = text_of t ++ rest end.
Proof.
  intros Hs Hg Hr. unfold skip. remember (text s) as x eqn:E. destruct Hr as [sp Hsp|t ts' sp rest Hsp Hf Hr']; symmetry in E.
  - rewrite (span_text _ s sp []); [|done|by rewrite app_nil_r|done|done]. apply (f_equal length) in E.
    rewrite length_text in E. rewrite <- E. replace (s + (es - s))%nat with es by lia. split; [|done]. unfold text. rewrite Nat.sub_diag. by constructor.
  - apply Forall_cons_1 in Hg as [Hg _]. destruct (first_char_spec t Hg) as (r & Et & Hws & _).
    rewrite (span_text _ s sp (text_of t ++ rest)); [|done|done|done|by rewrite Et]. destruct (text_split s sp _ Hs E) as (_ & -> & _).
    split; [|by exists rest]. by apply (renders_cons t ts' []).
Qed.

Lemma at_text s : (s <= es)%nat -> at_ s = hd 0 (text s).
Proof.
  intros Hs. destruct (text s) as [|c r] eqn:E; [|by apply (text_cons s c r)]. apply (f_equal length) in E. rewrite length_text in E. cbn in E.
  replace s with es by lia. by rewrite es_nul.
Qed.

Lemma word_chars c : word_char c = true ->
  c <> 60 /\ c <> 124 /\ c <> 62 /\ c <> 38 /\ c <> 59 /\ c <> 40 /\ c <> 41.
Proof.
  intros [_ Hs]%word_char_spec. rewrite symbols_spec in Hs. repeat (apply orb_false_iff in Hs as [?%Z.eqb_neq Hs]). apply Z.eqb_neq in Hs. lia.
Qed.

Lemma tok_at_word s w rest : (s <= es)%nat -> good_word w -> text s = w ++ rest -> follows (Wd w) rest -> tok_at b es s = (97, (s + length w)%nat).
Proof.
  intros Hs [Hne Hw] E Hf. destruct w as [|c w]; [done|]. destruct (text_cons s c (w ++ rest) Hs E) as (Hc & Hlt & E1).
  rewrite <- (span_text word_char s (c :: w) rest); [|done|done|eapply list.Forall_impl; [exact Hw|by intros ? [? _]]|destruct rest; [done|apply Hf]].
  apply Forall_cons_1 in Hw as [[Hcw H0] Hw]. pose proof (word_chars c Hcw) as Hn. unfold tok_at. rewrite Hc, (proj2 (Z.eqb_neq c 0)) by done.
  assert (c = 50 -> at_ (s + 1)%nat <> 62) as H2.
  { intros ->. rewrite Nat.add_1_r, at_text, E1 by lia. destruct w as [|c2 w]; cbn.
    - destruct rest as [|c2 rest]; [done|]. exact (proj2 Hf eq_refl).
    - apply Forall_cons_1 in Hw as [[Hc2 _] _]. apply word_chars in Hc2. lia. }
  destruct (Z.eqb_spec c 50) as [E50|_].
  - rewrite (proj2 (Z.eqb_neq (at_ (s + 1)%nat) 62)) by auto. by rewrite andb_false_r.
  - repeat rewrite (proj2 (Z.eqb_neq c _)) by lia. done.
Qed.

Lemma tok_at_text s t rest : (s <= es)%nat -> good_token t -> text s = text_of t ++ rest -> follows t rest ->
  tok_at b es s = (code_of t, (s + length (text_of t))%nat).
Proof.
  intros Hs Hg E Hf. assert (at_ s = first_char t) as Hc by (rewrite at_text, E by done; destruct (first_char_spec t Hg) as (r & -> & _); done).
  destruct (text_split s _ _ Hs E) as (Hle & Hrest & _). unfold first_char in Hc.
  destruct t as [| | | | |k|w]; try (unfold tok_at; rewrite Hc; cbn; f_equal; lia); [|by apply (tok_at_word s w rest)].
  assert (hd 0 rest = 62 -> head rest = Some 62) as Hhd by (destruct rest; cbn; congruence).
  destruct k; cbn [text_of redir_text length hd app] in *; unfold tok_at; rewrite Hc; cbn [Z.eqb Pos.eqb orb].
  - cbn. f_equal. lia.
  - rewrite Nat.add_1_r in *. rewrite at_text, Hrest, (proj2 (Z.eqb_neq (hd 0 rest) 62)) by auto. done.
  - destruct (text_cons _ _ _ Hs E) as (_ & Hlt & E1). rewrite (at_text (S s)), E1 by lia. cbn [hd app Z.eqb Pos.eqb]. cbn [code_of]. f_equal. lia.
  - destruct (text_cons _ _ _ Hs E) as (_ & Hlt & E1). rewrite (at_text (s + 2)%nat), Hrest, (proj2 (Z.eqb_neq (hd 0 rest) 62)), andb_false_r by auto.
    rewrite Nat.add_1_r, at_text, E1 by lia. done.
  - destruct (text_cons _ _ _ Hs E) as (_ & Hlt & E1). destruct (text_cons (S s) _ _ ltac:(lia) E1) as (_ & Hlt2 & E2).
    rewrite (proj2 (Nat.ltb_lt _ _)) by lia. rewrite Nat.add_1_r, (at_text (S s)), E1 by lia. cbn [hd Z.eqb Pos.eqb andb].
    replace (s + 2)%nat with (S (S s)) by lia. rewrite at_text, E2 by lia. done.
Qed.

(** ** The parser on a text *)

(** The tokens ahead. *)
Definition ahead (ts : list token) (w : world sh) : Prop := parsing b es w /\ Forall good_token ts /\ renders ts (text (ps w)).

Definition txt (a : nat * nat) : list Z := slice a.1 (a.2 - a.1) b.

Lemma ahead_length ts w : ahead ts w -> (length ts <= es)%nat.
Proof.
  intros (_ & Hg & Hr). enough (length ts <= length (text (ps w)))%nat by (rewrite length_text in *; lia). revert Hg Hr. generalize (text (ps w)).
  intros x Hg Hr. induction Hr as [|t ts sp rest _ _ _ IH]; cbn; [lia|]. apply Forall_cons_1 in Hg as [Ht Hg].
  destruct (first_char_spec t Ht) as (r & -> & _). specialize (IH Hg). rewrite !length_app. cbn. lia.
Qed.

Lemma ahead_at ts s w : parsing b es w -> (s <= es)%nat -> Forall good_token ts -> renders ts (text s) -> ahead ts (at_ps (skip b es s) w).
Proof.
  intros Hw Hs Hg Hr. destruct (skip_spec b es s Hs). destruct (renders_skip ts s Hs Hg Hr) as [Hr' _].
  split; [by apply at_ps_parsing|]. done.
Qed.

Lemma get_wp t ts (Q : Z * nat * nat -> world sh -> Prop) w : ahead (t :: ts) w ->
  (forall q e w', ahead ts w' -> txt (q, e) = text_of t -> Q (code_of t, q, e) w') -> wp (gettoken es) Q w.
Proof.
  intros (Hw & Hg & Hr) HQ. apply (gettoken_wp b es es_nul es_first); [done|]. pose proof (skip_spec b es (ps w) (proj2 Hw)) as [_ Hs].
  destruct (renders_skip (t :: ts) (ps w) (proj2 Hw) Hg Hr) as (Hr' & rest & E). apply Forall_cons_1 in Hg as [Ht Hg].
  assert (follows t rest /\ renders ts rest) as [Hf Hts].
  { remember (text (skip b es (ps w))) as x. inversion Hr' as [|t' ts' sp rest' Hsp Hf Hts E1 E2]; subst t' ts'.
    destruct (first_char_spec t Ht) as (r & Et & Hws & _). destruct sp as [|c sp].
    - cbn in E2. rewrite <- E2 in E. apply app_inv_head in E as ->. done.
    - apply Forall_cons_1 in Hsp as [Hc _]. rewrite <- E2, Et in E. cbn in E. injection E as -> _. unfold is_space in Hc. congruence. }
  rewrite (tok_at_text _ t rest Hs Ht E Hf). cbn [fst snd]. destruct (text_split _ _ _ Hs E) as (Hle & Hrest & Hsl).
  apply HQ; [|unfold txt; cbn; by rewrite Nat.add_comm, Nat.add_sub]. apply ahead_at; [done|done|done|]. by rewrite Hrest.
Qed.

Lemma get_end_wp (Q : Z * nat * nat -> world sh -> Prop) w : ahead [] w ->
  (forall q e w', ahead [] w' -> Q (0, q, e) w') -> wp (gettoken es) Q w.
Proof.
  intros (Hw & Hg & Hr) HQ. apply (gettoken_wp b es es_nul es_first); [done|]. destruct (renders_skip [] (ps w) (proj2 Hw) Hg Hr) as (Hr' & E).
  assert (tok_at b es es = (0, es)) as Et by (unfold tok_at; rewrite es_nul; done). rewrite E, Et. cbn [fst snd].
  apply HQ. apply ahead_at; [done|lia|done|]. by rewrite <- E.
Qed.

Lemma peek_ahead_wp toks ts (Q : bool -> world sh -> Prop) w : ahead ts w ->
  (forall w', ahead ts w' -> Q (match ts with [] => false | t :: _ => strchr_in toks (first_char t) end) w') -> wp (peek es toks) Q w.
Proof.
  intros (Hw & Hg & Hr) HQ. apply (peek_wp b es es_nul es_first); [done|].
  pose proof (skip_spec b es (ps w) (proj2 Hw)) as [_ Hs]. destruct (renders_skip ts (ps w) (proj2 Hw) Hg Hr) as (Hr' & E).
  assert (looks b es toks (ps w) = match ts with [] => false | t :: _ => strchr_in toks (first_char t) end) as ->; [|apply HQ; by apply ahead_at; [|apply Hw| |]].
  unfold looks. destruct ts as [|t ts]; [by rewrite E, Nat.ltb_irrefl|]. destruct E as [rest E]. apply Forall_cons_1 in Hg as [Ht _].
  destruct (first_char_spec t Ht) as (r & Et & _). rewrite Et in E. cbn in E. destruct (text_cons _ _ _ Hs E) as (-> & Hlt & _).
  by rewrite (proj2 (Nat.ltb_lt _ _)).
Qed.

(** *** Redirections *)

Definition wrap (t : tree) (rds : list (redir * list Z)) : tree := fold_left (fun t r => Redirect t r.1 r.2) rds t.
Definition rd_tokens (rds : list (redir * list Z)) : list token := rds ≫= (fun r => [Rd r.1; Wd r.2]).

(** No redirection comes next. *)
Definition no_rd (ts : list token) : Prop := match ts with Rd _ :: _ => False | _ => True end.

Lemma redirs_end c ts (Q : cmd + cmd -> world sh -> Prop) w : ahead ts w -> no_rd ts -> (forall w', ahead ts w' -> Q (inr c) w') -> wp (redirs_turn es c) Q w.
Proof.
  intros Ha Hn HQ. unfold redirs_turn. wp_step. apply (peek_ahead_wp _ ts); [done|]. intros w1 Ha1.
  destruct (match ts with [] => _ | _ => _ end) eqn:E; cbn [negb]; [|wp_step; by apply HQ].
  destruct ts as [|t ts]; [done|]. do 2 wp_step. wp_step. apply (get_wp t ts); [done|]. intros q e w2 Ha2 _. cbn [fst snd].
  destruct t as [| | | | |k|x]; try done. cbn [code_of]. replace (_ || _) with false by done. do 3 wp_step. apply HQ. destruct Ha1 as (Hw1 & Hg1 & Hr1), Ha2 as ([Hb2 _] & _).
  split; [split; [exact Hb2|apply Hw1]|done].
Qed.

Lemma redirs_more c k file ts (Q : cmd + cmd -> world sh -> Prop) w : ahead (Rd k :: Wd file :: ts) w ->
  (forall q e w', ahead ts w' -> txt (q, e) = file -> Q (inl (REDIR c q e (redir_mode k).1 (redir_mode k).2)) w') -> wp (redirs_turn es c) Q w.
Proof.
  intros Ha HQ. unfold redirs_turn. wp_step. apply (peek_ahead_wp _ (Rd k :: Wd file :: ts)); [done|]. intros w1 Ha1.
  replace (strchr_in _ (first_char (Rd k))) with true by (by destruct k). cbn [negb]. do 2 wp_step. wp_step.
  apply (get_wp (Rd k) (Wd file :: ts)); [done|]. intros q0 e0 w2 Ha2 _. cbn [fst snd].
  replace (_ || _) with true by (by destruct k). wp_step. apply (get_wp (Wd file) ts); [done|]. intros q e w3 Ha3 Ht. cbn [code_of].
  change (97 =? 97) with true. cbn [negb]. wp_step. destruct k; apply (HQ q e); done.
Qed.

Lemma redirs_loop rds ts (Q : cmd -> world sh -> Prop) : no_rd ts -> forall fuel c t w, ahead (rd_tokens rds ++ ts) w -> (length rds <= fuel)%nat ->
  shows txt c t -> (forall c' w', ahead ts w' -> shows txt c' (wrap t rds) -> Q c' w') -> wp (iter (S fuel) (redirs_turn es) c) Q w.
Proof.
  intros Hn. induction rds as [|[k file] rds IH]; intros fuel c t w Ha Hf Hs HQ.
  - cbn [iter]. wp_step. apply (redirs_end c ts); [done|done|]. intros w' Ha'. wp_step. by apply HQ.
  - destruct fuel as [|fuel]; [cbn in Hf; lia|]. cbn [iter]. wp_step. eapply redirs_more; [exact Ha|]. intros q e w' Ha' Ht.
    apply (IH fuel _ (Redirect t k file)); [done|cbn in Hf; lia| |done]. cbn. split; [done|]. split; [by destruct k|done].
Qed.

Lemma redirs_wp rds ts (Q : cmd -> world sh -> Prop) c t w : ahead (rd_tokens rds ++ ts) w -> no_rd ts -> shows txt c t ->
  (forall c' w', ahead ts w' -> shows txt c' (wrap t rds) -> Q c' w') -> wp (parseredirs es c) Q w.
Proof.
  intros Ha Hn Hs HQ. apply (redirs_loop rds ts Q Hn es c t); try done. apply ahead_length in Ha. rewrite length_app in Ha.
  enough (length rds <= length (rd_tokens rds))%nat by lia. clear. unfold rd_tokens. induction rds; cbn in *; lia.
Qed.

(** *** Simple commands *)

(** What ends a simple command. *)
Definition stops (ts : list token) : Prop := match ts with [] => True | t :: _ => t ∈ [Bar; Close; Amp; Semi] end.

Lemma stops_no_rd ts : stops ts -> no_rd ts.
Proof. destruct ts as [|[] ts]; cbn; rewrite ?elem_of_cons; try done. intros [?|[?|[?|[?|?%elem_of_nil]]]]; done. Qed.

Lemma args_end n c ts (Q : nat * cmd + cmd -> world sh -> Prop) w : ahead ts w -> stops ts -> (forall w', ahead ts w' -> Q (inr c) w') ->
  wp (args_turn es (n, c)) Q w.
Proof.
  intros Ha Hst HQ. unfold args_turn. wp_step. apply (peek_ahead_wp _ ts); [done|]. intros w1 Ha1. destruct ts as [|t ts].
  - wp_step. apply get_end_wp; [done|]. intros q e w2 Ha2. change (0 =? 0) with true. cbv iota. wp_step. by apply HQ.
  - replace (strchr_in _ _) with true; [wp_step; by apply HQ|]. cbn in Hst. rewrite !elem_of_cons in Hst. by destruct Hst as [->|[->|[->|[->|?%elem_of_nil]]]].
Qed.

Lemma word_no_stop x : good_word x -> strchr_in (lit "|)&;") (first_char (Wd x)) = false /\ strchr_in (lit "(") (first_char (Wd x)) = false.
Proof.
  intros [Hne Hx]. destruct x as [|c x]; [done|]. apply Forall_cons_1 in Hx as [[Hc _] _]. apply word_chars in Hc. cbn [first_char text_of hd].
  change (lit "|)&;") with [124; 41; 38; 59; 0]. change (lit "(") with [40; 0]. unfold first_char. cbn [text_of hd].
  split; rewrite !strchr_in_lit by done.
  - rewrite (proj2 (Z.eqb_neq 124 c)), (proj2 (Z.eqb_neq 41 c)), (proj2 (Z.eqb_neq 38 c)), (proj2 (Z.eqb_neq 59 c)) by lia. done.
  - rewrite (proj2 (Z.eqb_neq 40 c)) by lia. done.
Qed.

Lemma args_more n argv x rds ts (Q : nat * cmd + cmd -> world sh -> Prop) w : ahead (Wd x :: rd_tokens rds ++ ts) w -> no_rd ts -> (S n < MAXARGS)%nat ->
  (forall c' w', ahead ts w' -> shows txt c' (wrap (Simple ((txt <$> argv) ++ [x])) rds) -> Q (inl (S n, c')) w') ->
  wp (args_turn es (n, EXEC argv)) Q w.
Proof.
  intros Ha Hn Hlt HQ. unfold args_turn. wp_step. apply (peek_ahead_wp _ (Wd x :: rd_tokens rds ++ ts)); [done|]. intros w1 Ha1.
  assert (good_word x) as Hx by (destruct Ha as (_ & Hg & _); by apply Forall_cons_1 in Hg as [Hg _]).
  rewrite (proj1 (word_no_stop x Hx)). wp_step. apply (get_wp (Wd x) (rd_tokens rds ++ ts)); [done|]. intros q e w2 Ha2 Ht. cbn [code_of].
  change (97 =? 0) with false. change (97 =? 97) with true. cbn [negb]. rewrite (proj2 (Nat.leb_gt _ _)) by done.
  wp_step. apply (redirs_wp rds ts _ _ (Simple ((txt <$> argv) ++ [x]))); [done|done| |].
  - cbn [add_arg shows]. rewrite fmap_app. change (txt <$> [(q, e)]) with [txt (q, e)]. by rewrite Ht.
  - intros c' w' Ha' Hs. wp_step. by apply HQ.
Qed.

Lemma args_loop args : args <> [] -> forall fuel n argv rds ts (Q : cmd -> world sh -> Prop) w, ahead ((Wd <$> args) ++ rd_tokens rds ++ ts) w ->
  stops ts -> (n + length args < MAXARGS)%nat -> (length args <= fuel)%nat ->
  (forall c' w', ahead ts w' -> shows txt c' (wrap (Simple ((txt <$> argv) ++ args)) rds) -> Q c' w') ->
  wp (iter (S fuel) (args_turn es) (n, EXEC argv)) Q w.
Proof.
  intros Hne. destruct args as [|x args]; [done|]. clear Hne. revert x. induction args as [|y args IH]; intros x fuel n argv rds ts Q w Ha Hst Hn Hf HQ; cbn in Hn, Hf.
  - cbn [iter]. wp_step. eapply args_more; [exact Ha|by apply stops_no_rd|lia|]. intros c' w' Ha' Hs. cbv beta iota. destruct fuel as [|fuel]; [lia|].
    cbn [iter]. wp_step. apply (args_end _ _ ts); [done|done|]. intros w2 Ha2. wp_step. by apply HQ.
  - cbn [iter]. wp_step. apply (args_more n argv x [] ((Wd <$> (y :: args)) ++ rd_tokens rds ++ ts)); [exact Ha|done|lia|].
    intros c' w' Ha' Hs. cbv beta iota. destruct c' as [argv'| | | |]; try done. cbn in Hs. destruct fuel as [|fuel]; [lia|].
    apply (IH y fuel (S n) argv' rds ts); [exact Ha'|done|cbn; lia|cbn; lia|]. intros c2 w2 Ha2 Hs2. apply HQ; [done|].
    rewrite <- Hs, <- app_assoc in Hs2. exact Hs2.
Qed.

(** A simple command with its redirections. *)
Lemma simple_wp args rds ts pl w : ahead ((Wd <$> args) ++ rd_tokens rds ++ ts) w -> stops ts -> (length args < MAXARGS)%nat ->
  wp (parseexec es pl) (fun c w' => shows txt c (wrap (Simple args) rds) /\ ahead ts w') w.
Proof.
  intros Ha Hst Hn. unfold parseexec. wp_step. eapply peek_ahead_wp; [exact Ha|]. intros w1 Ha1. rewrite <- (app_nil_l ((Wd <$> args) ++ _)) in Ha1.
  replace (match (Wd <$> args) ++ rd_tokens rds ++ ts with [] => false | t :: _ => strchr_in (lit "(") (first_char t) end) with false.
  2:{ destruct args as [|x args]; cbn.
      - destruct rds as [|[k f] rds]; cbn; [|by destruct k]. destruct ts as [|t ts]; [done|]. cbn in Hst. rewrite !elem_of_cons in Hst.
        by destruct Hst as [->|[->|[->|[->|?%elem_of_nil]]]].
      - symmetry. apply word_no_stop. destruct Ha as (_ & Hg & _). cbn in Hg. by apply Forall_cons_1 in Hg as [Hg _]. }
  cbv iota. wp_step. destruct args as [|x args].
  - apply (redirs_wp rds ts _ _ (Simple [])); [exact Ha1|by apply stops_no_rd|done|]. intros c w2 Ha2 Hs. cbn [iter]. wp_step.
    apply (args_end _ _ ts); [done|done|]. intros w3 Ha3. wp_step. done.
  - apply (redirs_wp [] ((Wd <$> (x :: args)) ++ rd_tokens rds ++ ts) _ _ (Simple [])); [exact Ha1|done|done|]. intros c w2 Ha2 Hs.
    destruct c as [argv'| | | |]; try done. cbn in Hs. apply (args_loop (x :: args) ltac:(done) es 0 argv' rds ts); [done|done|done| |].
    + apply ahead_length in Ha. rewrite length_app, length_fmap in Ha. cbn in Ha |- *. lia.
    + intros c' w' Ha' Hs'. by rewrite <- Hs in Hs'.
Qed.

(** *** Blocks, pipelines and lines *)

Lemma chain t : exists t0 rds, t = wrap t0 rds /\ tokens 3 t = tokens 3 t0 ++ rd_tokens rds /\ match t0 with Redirect _ _ _ => False | _ => True end /\
  (good_tree t -> good_tree t0).
Proof.
  induction t as [args|t IH k f|l _ r _|l _ r _|t _].
  2:{ destruct IH as (t0 & rds & -> & E & Ht & Hg). exists t0, (rds ++ [(k, f)]). unfold wrap, rd_tokens in *. rewrite fold_left_app, bind_app.
      split; [done|]. split; [|split; [done|intros [? _]; auto]]. cbn [tokens]. rewrite E, <- app_assoc. done. }
  all: eexists _, []; (split; [reflexivity|]); rewrite app_nil_r; done.
Qed.

Definition closes (ts : list token) : Prop := match ts with [] => True | t :: _ => t = Close end.
Definition ends_pipe (ts : list token) : Prop := match ts with [] => True | t :: _ => t ∈ [Close; Amp; Semi] end.
Definition ends_back (ts : list token) : Prop := match ts with [] => True | t :: _ => t ∈ [Close; Semi] end.

(** What parseline() does with less than [n] tokens ahead. *)
Definition reads_line (n : nat) (pl : parser cmd) : Prop := forall t ts w, good_tree t -> ahead (tokens 0 t ++ ts) w -> closes ts ->
  (length (tokens 0 t ++ ts) < n)%nat -> wp pl (fun c w' => shows txt c t /\ ahead ts w') w.

Lemma block_wp n pl t rds ts w : reads_line n pl -> good_tree t -> ahead (Open :: tokens 0 t ++ Close :: rd_tokens rds ++ ts) w -> stops ts ->
  (length (tokens 0 t ++ Close :: rd_tokens rds ++ ts) < n)%nat ->
  wp (parseexec es pl) (fun c w' => shows txt c (wrap t rds) /\ ahead ts w') w.
Proof.
  intros Hpl Hg Ha Hst Hn. unfold parseexec. wp_step. eapply peek_ahead_wp; [exact Ha|]. intros w1 Ha1. cbn [app]. cbv iota. replace (strchr_in _ _) with true by done. cbv iota.
  unfold parseblock. wp_step. eapply peek_ahead_wp; [exact Ha1|]. intros w2 Ha2. cbn [app]. cbv iota. replace (strchr_in _ _) with true by done. cbn [negb].
  wp_step. eapply get_wp; [exact Ha2|]. intros q e w3 Ha3 _. wp_step. eapply wp_mono; [by apply (Hpl t (Close :: rd_tokens rds ++ ts))|].
  intros c w4 [Hs Ha4]. cbv beta. wp_step. eapply peek_ahead_wp; [exact Ha4|]. intros w5 Ha5. cbn [app]. cbv iota. replace (strchr_in _ _) with true by done. cbn [negb].
  wp_step. eapply get_wp; [exact Ha5|]. intros q' e' w6 Ha6 _. eapply redirs_wp; [exact Ha6|by apply stops_no_rd|exact Hs|]. done.
Qed.

Lemma exec_wp n pl t ts w : reads_line n pl -> good_tree t -> ahead (tokens 3 t ++ ts) w -> stops ts -> (length (tokens 3 t ++ ts) <= n)%nat ->
  wp (parseexec es pl) (fun c w' => shows txt c t /\ ahead ts w') w.
Proof.
  intros Hpl Hg Ha Hst Hn. destruct (chain t) as (t0 & rds & -> & E & Ht & Hg0). rewrite E in Ha, Hn. specialize (Hg0 Hg).
  enough (forall ts0, tokens 3 t0 = Open :: ts0 ++ [Close] -> tokens 0 t0 = ts0 -> wp (parseexec es pl) (fun c w' => shows txt c (wrap t0 rds) /\ ahead ts w') w) as Hb.
  { destruct t0 as [args| |l r|l r|t]; [|done|by eapply Hb|by eapply Hb|by eapply Hb].
    rewrite <- app_assoc in Ha. apply simple_wp; [exact Ha|done|apply Hg0]. }
  intros ts0 E3 E0. rewrite E3 in Ha, Hn. cbn in Ha, Hn. rewrite <- !app_assoc in Ha, Hn. cbn in Ha, Hn.
  apply (block_wp n); rewrite ?E0; try done.
Qed.

Lemma pipe_wp n pl t : reads_line n pl -> good_tree t -> forall fuel ts w, ahead (tokens 2 t ++ ts) w -> ends_pipe ts -> (length (tokens 2 t ++ ts) <= n)%nat ->
  (length (tokens 2 t ++ ts) < fuel)%nat -> wp (parsepipe fuel es pl) (fun c w' => shows txt c t /\ ahead ts w') w.
Proof.
  intros Hpl. assert (forall ts, ends_pipe ts -> stops ts) as Hst by (intros [|t' ts]; [done|]; cbn; rewrite !elem_of_cons; tauto).
  assert (forall t, good_tree t -> tokens 2 t = tokens 3 t -> forall fuel ts w, ahead (tokens 2 t ++ ts) w -> ends_pipe ts -> (length (tokens 2 t ++ ts) <= n)%nat ->
    (length (tokens 2 t ++ ts) < fuel)%nat -> wp (parsepipe fuel es pl) (fun c w' => shows txt c t /\ ahead ts w') w) as Hone.
  { clear t. intros t Hg E [|fuel] ts w Ha He Hn Hf; [lia|]. cbn [parsepipe]. rewrite E in Ha, Hn. wp_step. eapply wp_mono; [apply (exec_wp n); eauto|].
    intros c w1 [Hs Ha1]. cbv beta. wp_step. eapply peek_ahead_wp; [exact Ha1|]. intros w2 Ha2.
    replace (match ts with [] => _ | _ => _ end) with false; [by wp_step|]. destruct ts as [|t' ts]; [done|]. cbn in He. rewrite !elem_of_cons in He.
    by destruct He as [->|[->|[->|?%elem_of_nil]]]. }
  induction t as [args|t _ k f|l _ r IHr|l _ r _|t _]; intros Hg; try (by apply Hone). destruct Hg as [Hl Hr].
  intros [|fuel] ts w Ha He Hn Hf; [lia|]. cbn [tokens parens] in Ha, Hn, Hf. change (2 <? 2)%nat with false in *. cbn [parens] in Ha, Hn, Hf.
  rewrite <- app_assoc in Ha, Hn, Hf. cbn [parsepipe]. wp_step. eapply wp_mono; [apply (exec_wp n pl l); [done|done|exact Ha|left|done]|].
  intros c w1 [Hs Ha1]. cbv beta. wp_step. eapply peek_ahead_wp; [exact Ha1|]. intros w2 Ha2. cbn [app]. cbv iota. replace (strchr_in _ _) with true by done. cbv iota.
  wp_step. eapply get_wp; [exact Ha2|]. intros q e w3 Ha3 _. rewrite length_app in Hn, Hf. cbn [length app] in Hn, Hf.
  wp_step. eapply wp_mono; [apply (IHr Hr fuel ts); [exact Ha3|done|lia|lia]|]. intros c' w4 [Hs' Ha4]. wp_step. done.
Qed.

Lemma back_wp n pl fuel t : reads_line n pl -> good_tree t -> forall ts f (Q : cmd -> world sh -> Prop) w, ahead (tokens 1 t ++ ts) w -> ends_pipe ts ->
  (length (tokens 1 t ++ ts) <= n)%nat -> (length (tokens 1 t ++ ts) < fuel)%nat -> (length (tokens 1 t ++ ts) <= f)%nat ->
  (forall c w' f', shows txt c t -> ahead ts w' -> (length ts <= f')%nat -> wp (iter (S f') (back_turn es) c) Q w') ->
  wp (let* c := parsepipe fuel es pl in iter (S f) (back_turn es) c) Q w.
Proof.
  intros Hpl. assert (forall t, good_tree t -> tokens 1 t = tokens 2 t -> forall ts f (Q : cmd -> world sh -> Prop) w, ahead (tokens 1 t ++ ts) w -> ends_pipe ts ->
    (length (tokens 1 t ++ ts) <= n)%nat -> (length (tokens 1 t ++ ts) < fuel)%nat -> (length (tokens 1 t ++ ts) <= f)%nat ->
    (forall c w' f', shows txt c t -> ahead ts w' -> (length ts <= f')%nat -> wp (iter (S f') (back_turn es) c) Q w') ->
    wp (let* c := parsepipe fuel es pl in iter (S f) (back_turn es) c) Q w) as Hone.
  { clear t. intros t Hg E ts f Q w Ha He Hn Hf Hf' HQ. rewrite E in Ha, Hn, Hf, Hf'. wp_step. eapply wp_mono; [by apply (pipe_wp n pl t Hpl Hg fuel ts)|].
    intros c w' [Hs Ha']. rewrite length_app in Hf'. apply HQ; [done|done|lia]. }
  induction t as [args|t _ k f|l _ r _|l _ r _|t IH]; intros Hg; try (by apply Hone).
  intros ts f Q w Ha He Hn Hf Hf' HQ. cbn [tokens] in Ha, Hn, Hf, Hf'. change (1 <? 1)%nat with false in *. cbn [parens] in Ha, Hn, Hf, Hf'.
  rewrite <- app_assoc in Ha, Hn, Hf, Hf'. apply (IH Hg ([Amp] ++ ts) f); [exact Ha|right; left|done|done|done|]. intros c w' f' Hs Ha' Hl.
  cbn [app length] in Hl. destruct f' as [|f']; [lia|]. cbn [iter]. wp_step. unfold back_turn at 1. wp_step. eapply peek_ahead_wp; [exact Ha'|]. intros w2 Ha2.
  cbn [app]. cbv iota. replace (strchr_in _ _) with true by done. wp_step. eapply get_wp; [exact Ha2|]. intros q e w3 Ha3 _. wp_step. apply HQ; [done|done|lia].
Qed.

Lemma unbacked_wp fuel n pl t ts w : reads_line n pl -> good_tree t -> ahead (tokens 1 t ++ ts) w -> ends_back ts ->
  (length (tokens 1 t ++ ts) <= n)%nat -> (length (tokens 1 t ++ ts) < fuel)%nat ->
  wp (let* c := parsepipe fuel es pl in iter (S es) (back_turn es) c) (fun c w' => shows txt c t /\ ahead ts w') w.
Proof.
  intros Hpl Hg Ha He Hn Hf. apply (back_wp n pl fuel t Hpl Hg ts es); [done| |done|done|by apply (ahead_length _ w)|].
  { destruct ts; [done|]. cbn in He |- *. rewrite !elem_of_cons in *. tauto. }
  intros c w' f' Hs Ha' Hl. cbn [iter]. wp_step. unfold back_turn at 1. wp_step. eapply peek_ahead_wp; [exact Ha'|]. intros w2 Ha2.
  replace (match ts with [] => _ | _ => _ end) with false; [do 2 wp_step; done|]. destruct ts as [|t' ts]; [done|]. cbn in He.
  rewrite !elem_of_cons in He. by destruct He as [->|[->|?%elem_of_nil]].
Qed.

Lemma wp_assoc {A B C} (m : parser A) (k : A -> parser B) (f : B -> parser C) Q w :
  wp (let* b := (let* a := m in k a) in f b) Q w -> wp (let* a := m in let* b := k a in f b) Q w.
Proof. unfold wp, bind. by destruct (m w) as [[a w']| | |]. Qed.

Lemma line_wp fuel : reads_line fuel (parseline fuel es).
Proof.
  induction fuel as [|fuel IH]; intros t ts w Hg Ha Hc Hn; [lia|]. cbn [parseline].
  assert (closes ts -> ends_back ts) as Hcb by (destruct ts; [done|]; cbn; rewrite elem_of_cons; tauto).
  destruct (decide (tokens 0 t = tokens 1 t)) as [E|E].
  - rewrite E in Ha, Hn. apply wp_assoc. wp_step. eapply wp_mono; [apply (unbacked_wp _ fuel _ t ts); eauto; lia|].
    intros c w1 [Hs Ha1]. cbv beta. wp_step. eapply peek_ahead_wp; [exact Ha1|]. intros w2 Ha2.
    replace (match ts with [] => _ | _ => _ end) with false; [by wp_step|]. destruct ts as [|t' ts]; [done|]. by rewrite Hc.
  - destruct t as [args|t k f|l r|l r|t]; try done. destruct Hg as [Hl Hr]. cbn [tokens] in Ha, Hn. change (0 <? 0)%nat with false in *.
    cbn [parens] in Ha, Hn. rewrite <- app_assoc in Ha, Hn. apply wp_assoc. wp_step. eapply wp_mono; [apply (unbacked_wp _ fuel _ l); [done|done|exact Ha| |lia|lia]|].
    { right. left. }
    intros c w1 [Hs Ha1]. cbv beta. wp_step. eapply peek_ahead_wp; [exact Ha1|]. intros w2 Ha2. cbn [app]. cbv iota. replace (strchr_in _ _) with true by done.
    wp_step. eapply get_wp; [exact Ha2|]. intros q e w3 Ha3 _. rewrite length_app in Hn. cbn [length app] in Hn.
    wp_step. eapply wp_mono; [apply (IH r ts); [done|exact Ha3|done|lia]|]. intros c' w4 [Hs' Ha4]. by wp_step.
Qed.
End Text.

(** ** The whole line *)

Lemma tokens_good t : good_tree t -> forall level, Forall good_token (tokens level t).
Proof.
  assert (forall weak ts, Forall good_token ts -> Forall good_token (parens weak ts)) as Hp.
  { intros [] ts Hf; [|done]. cbn. constructor; [done|]. apply list.Forall_app. split; [done|by repeat constructor]. }
  induction t as [args|t IH k f|l IHl r IHr|l IHl r IHr|t IH]; cbn; intros Hg level; try apply Hp; rewrite ?list.Forall_app.
  - destruct Hg as [_ Hg]. apply list.Forall_fmap. done.
  - destruct Hg as [Hg Hf]. split; [auto|]. constructor; [done|]. by constructor.
  - destruct Hg. split; [auto|]. constructor; [done|auto].
  - destruct Hg. split; [auto|]. constructor; [done|auto].
  - split; [auto|]. by repeat constructor.
Qed.

Lemma renders_no_nul ts line : Forall good_token ts -> renders ts line -> 0 ∉ line.
Proof.
  assert (forall sp, Forall is_space sp -> 0 ∉ sp) as Hsp.
  { intros sp Hf H0. rewrite list.Forall_forall in Hf. by specialize (Hf 0 H0). }
  intros Hg Hr. induction Hr as [sp Hs|t ts sp rest Hs _ _ IH]; [auto|]. apply Forall_cons_1 in Hg as [Ht Hg]. rewrite !elem_of_app.
  intros [H0|[H0|H0]]; [by apply (Hsp sp)| |by apply IH]. destruct t as [| | | | |[]|x]; cbn in H0; rewrite ?elem_of_cons, ?elem_of_nil in H0; try lia.
  destruct Ht as [_ Hx]. rewrite list.Forall_forall in Hx. by destruct (Hx 0 H0).
Qed.

Lemma wp_and_sp {A} (m : parser A) (Q R : A -> world sh -> Prop) w : wp m Q w -> sp m R w -> wp m (fun a w' => Q a w' /\ R a w') w.
Proof. unfold wp, sp. by destruct (m w) as [[a w']| | |]. Qed.

Lemma slice_line line rest : slice 0 (length line) (line ++ rest) = (line : list Z).
Proof. unfold slice. rewrite drop_0. apply take_app_length. Qed.

Lemma strlen_line line rest : 0 ∉ line -> strlen (line ++ 0 :: rest) = Some (length line).
Proof.
  induction line as [|c line IH]; cbn; [done|]. rewrite not_elem_of_cons. intros [Hc Hl]. destruct (Z.eqb_spec c 0); [congruence|]. by rewrite IH.
Qed.

Lemma parse_text t line junk held0 trace0 : good_tree t -> renders (tokens 0 t) line ->
  exists c w', parsecmd (World held0 trace0 (Sh (line ++ 0 :: junk) 0)) = Ret (c, w') /\
    shows (fun a => str_at (sh_buf (user w')) a.1) c t.
Proof.
  intros Hg Hr. pose proof (tokens_good t Hg 0) as Htok. pose proof (strlen_line line junk (renders_no_nul _ _ Htok Hr)) as Hes.
  set (b := line ++ 0 :: junk) in *. set (es := length line) in *. destruct (string_end b es Hes) as [Hnul Hfirst].
  set (w := World held0 trace0 (Sh b 0)). assert (ahead b es (tokens 0 t ++ []) w) as Ha.
  { rewrite app_nil_r. split; [split; cbn; [done|lia]|]. split; [done|]. cbn. unfold text. rewrite Nat.sub_0_r. subst es b. by rewrite slice_line. }
  pose proof (ahead_length b es Hnul _ _ Ha) as Hlen. enough (wp parsecmd (fun c w' => shows (txt b) c t) w) as Hw.
  { pose proof (wp_and_sp _ _ _ _ Hw (parsecmd_sp b es held0 trace0 Hes)) as Hws. unfold wp in Hws. fold w. destruct (parsecmd w) as [[c w']| | |]; try done.
    exists c, w'. split; [done|]. destruct Hws as (Hs & Hwf & Hb & Hstr). eapply shows_ext; [|exact Hs]. intros [q e] Hin. unfold txt. cbn. by rewrite (Hstr q e). }
  unfold parsecmd. do 2 wp_step. cbn [sh_buf w user]. unfold the. wp_step. rewrite Hes. wp_step. wp_step. eapply wp_mono.
  { apply wp_and_sp; [apply (line_wp b es Hnul Hfirst (S es) t [] w Hg Ha); [done|lia]|].
    apply (parseline_sp b es Hnul Hfirst (S es)); [apply Ha|lia]. }
  intros c w1 ((Hs & Ha1) & _ & _ & Hwf). cbv beta. wp_step. apply (peek_wp b es Hnul Hfirst); [apply Ha1|].
  destruct Ha1 as ([Hb1 Hp1] & Hg1 & Hr1). destruct (renders_skip b es Hnul [] _ Hp1 Hg1 Hr1) as [_ Hend]. do 2 wp_step. cbn [at_ps user sh_ps].
  rewrite Hend, Nat.eqb_refl. cbn [negb]. wp_step. apply nulterminate_wp; [|by wp_step]. cbn [at_ps user sh_buf]. rewrite Hb1.
  pose proof (lookup_lt_Some _ _ _ Hnul). eapply list.Forall_impl; [by apply (wf_words b es)|]. intros [q e'] (? & _). cbn in *. lia.
Qed.

(** C12. Every text of every command - a tree of simple commands, redirections, pipes, lists, background commands
    and blocks, with at most MAXARGS - 1 words a command, any white space
    between the tokens and parentheses where the grammar needs them - is read by parsecmd() as that command: the words of
    the result are, as C strings in the buffer after nulterminate(), the words
    of the tree, and the modes and descriptors of the redirections are those of their signs. *)
Theorem parse_print t line junk held0 trace0 : good_tree t -> renders (tokens 0 t) line ->
  exists c w', parsecmd (World held0 trace0 (Sh (line ++ 0 :: junk) 0)) = Ret (c, w') /\
    shows (fun a => str_at (sh_buf (user w')) a.1) c t.
Proof. apply parse_text. Qed.

Definition demo_tree : tree :=
  Seq (Background (Redirect (Simple [lit_bytes "cat"]) In (lit_bytes "f")))
      (Pipe (Simple [lit_bytes "echo"; lit_bytes "2"]) (Redirect (Seq (Simple [lit_bytes "x"]) (Simple [])) Err (lit_bytes "e"))).

(** Takes one token of a text, given what follows it. *)
Ltac take_token sp rest :=
  refine (renders_cons _ _ (lit_bytes sp) (lit_bytes rest) _ _ _); [repeat constructor|vm_compute; repeat split; discriminate|].

(** The text [cat<f& ;echo 2|(x ;)2> e]. *)
Lemma parse_print_witness : exists c w', parsecmd (World [] [] (Sh (lit_bytes "cat<f& ;echo 2|(x ;)2> e" ++ 0 :: []) 0)) = Ret (c, w') /\
  shows (fun a => str_at (sh_buf (user w')) a.1) c demo_tree.
Proof.
  apply (parse_print demo_tree (lit_bytes "cat<f& ;echo 2|(x ;)2> e") [] [] []).
  - unfold demo_tree, good_tree, good_word, MAXARGS. repeat (split || constructor || discriminate || (cbn; lia)).
  - cbn [demo_tree tokens parens Nat.ltb Nat.leb app fmap list_fmap].
    take_token ""%string "<f& ;echo 2|(x ;)2> e"%string. take_token ""%string "f& ;echo 2|(x ;)2> e"%string.
    take_token ""%string "& ;echo 2|(x ;)2> e"%string. take_token ""%string " ;echo 2|(x ;)2> e"%string.
    take_token " "%string "echo 2|(x ;)2> e"%string. take_token ""%string " 2|(x ;)2> e"%string.
    take_token " "%string "|(x ;)2> e"%string. take_token ""%string "(x ;)2> e"%string.
    take_token ""%string "x ;)2> e"%string. take_token ""%string " ;)2> e"%string. take_token " "%string ")2> e"%string.
    take_token ""%string "2> e"%string. take_token ""%string " e"%string. take_token " "%string ""%string. apply renders_nil. constructor.
Defined.
