(* ===== verification/ShRun.v ===== *)
(** * Running a command (user/sh.c)

    runcmd() never returns: it forks, changes descriptors, and ends in exec() or exit().  The model answers
    the tree of processes it makes, each with what it does after the fork: [Fork] has the
    child and the parent.  The descriptors of a process are a finite map, and open(), dup() and pipe() give the
    lowest free ones, as fdalloc() of kernel/sysfile.c does.  [os_fails] says of each
    fork(), open(), pipe() and exec(), in the order in which the model meets them, whether it succeeds. *)

From S2P Require Import Prelude Machine CString Printf Sysfile User TextTools Sh ShParse.

Open Scope Z_scope.

(** ** Descriptors and processes *)

(** What a descriptor is open on: one the shell was started with, a file, or an end of a pipe. *)
Inductive desc := Std (n : Z) | File (name : list Z) (mode : Z) | PipeR (id : nat) | PipeW (id : nat).
Definition fdtab : Type := gmap Z desc.

Inductive process :=
| Exec (argv : list (list Z)) (fds : fdtab)
| Exit (status : Z)
| Fork (child parent : process)
| Wait (p : process)
| Print (fd : Z) (msg : list Z) (p : process).

Record os := Os {
  os_pipes : nat;
  os_fails : list bool
}.

(** Whether the next call works. *)
Definition works : M os bool :=
  let* s := get in
  put (Os (os_pipes s) (tail (os_fails s))) ;;
  ret (hd true (os_fails s)).

Definition lowest (f : fdtab) : option Z := list_find (fun n => f !! n = None) (Z.of_nat <$> seq 0 (Z.to_nat NOFILE)) ≫= (fun x => Some x.2).

Definition u_open (f : fdtab) (name : list Z) (mode : Z) : M os (Z * fdtab) :=
  let* ok := works in
  match ok, lowest f with
  | true, Some n => ret (n, <[n := File name mode]> f)
  | _, _ => ret (-1, f)
  end.

Definition u_dup (f : fdtab) (fd : Z) : Z * fdtab :=
  match f !! fd, lowest f with
  | Some d, Some n => (n, <[n := d]> f)
  | _, _ => (-1, f)
  end.

Definition u_pipe (f : fdtab) : M os (option (Z * Z) * fdtab) :=
  let* ok := works in
  let* s := get in
  let id := os_pipes s in
  match ok, lowest f with
  | true, Some r =>
      match lowest (<[r := PipeR id]> f) with
      | Some w => put (Os (S id) (os_fails s)) ;; ret (Some (r, w), <[w := PipeW id]> (<[r := PipeR id]> f))
      | None => ret (None, f)
      end
  | _, _ => ret (None, f)
  end.

(** ** runcmd() *)

Definition sh_panic (s : string) : process := Print 2 (lit_bytes s ++ [10]) (Exit 1).

(** fork1(), with what the child and the parent do. *)
Definition fork1 (child parent : M os process) : M os process :=
  let* ok := works in
  if ok then let* c := child in let* p := parent in ret (Fork c p)
  else ret (sh_panic "fork").

Fixpoint runcmd (b : list Z) (c : cmd) (f : fdtab) : M os process :=
  match c with
  | EXEC argv =>
      match argv with
      | [] => ret (Exit 1)
      | a0 :: _ =>
          let* ok := works in
          if ok then ret (Exec ((fun a => str_at b a.1) <$> argv) f)
          else ret (Print 2 (lit_bytes "exec " ++ str_at b a0.1 ++ lit_bytes " failed" ++ [10]) (Exit 0))
      end
  | REDIR c' file _ mode fd =>
      let f := delete fd f in
      let* r := u_open f (str_at b file) mode in
      let '(n, f) := r in
      if n <? 0 then ret (Print 2 (lit_bytes "open " ++ str_at b file ++ lit_bytes " failed" ++ [10]) (Exit 1))
      else runcmd b c' f
  | LIST l r => fork1 (runcmd b l f) (let* p := runcmd b r f in ret (Wait p))
  | PIPE l r =>
      let* pr := u_pipe f in
      let '(p, f) := pr in
      match p with
      | None => ret (sh_panic "pipe")
      | Some (p0, p1) =>
          fork1 (let f := delete 1 f in let f := (u_dup f p1).2 in let f := delete p0 f in let f := delete p1 f in runcmd b l f)
            (fork1 (let f := delete 0 f in let f := (u_dup f p0).2 in let f := delete p0 f in let f := delete p1 f in runcmd b r f)
               (ret (Wait (Wait (Exit 0)))))
      end
  | BACK c' => fork1 (runcmd b c' f) (ret (Exit 0))
  end.

(** ** The prompt *)

(** What one turn of the loop of main() does. *)
Inductive action := ShExit | ShCd (path : list Z) | ShRun (line : list Z).

Definition getcmd (nbuf : Z) : M uio (option (list Z)) :=
  let* _ := u_write 2 (lit_bytes "$ ") in
  let* s := u_gets nbuf in
  ret (if hd 0 s =? 0 then None else Some s).

Definition main_turn : M uio action :=
  let* r := getcmd 100 in
  match r with
  | None => ret ShExit
  | Some buf =>
      match buf with
      | 99 :: 100 :: 32 :: path =>
          let* n := the (strlen buf) in
          ret (ShCd (drop 3 (<[Nat.pred n := 0]> buf)))
      | _ => ret (ShRun buf)
      end
  end.

(** ** What a command means *)

(** The descriptors 0, 1 and 2 and no others. *)
Definition std (i o e : desc) : fdtab := <[0 := i]> (<[1 := o]> (<[2 := e]> ∅)).

(** The processes of a command with input [i], output [o] and errors on [e], and the next unused pipe. *)
Fixpoint meaning (t : tree) (i o e : desc) (n : nat) : process * nat :=
  match t with
  | Simple [] => (Exit 1, n)
  | Simple args => (Exec args (std i o e), n)
  | Redirect t' k file =>
      let d := File file (redir_mode k).1 in
      match k with
      | In => meaning t' d o e n
      | Out | Append => meaning t' i d e n
      | Err | ErrAppend => meaning t' i o d n
      end
  | Pipe l r =>
      let '(pl, n1) := meaning l i (PipeW n) e (S n) in
      let '(pr, n2) := meaning r (PipeR n) o e n1 in
      (Fork pl (Fork pr (Wait (Wait (Exit 0)))), n2)
  | Seq l r =>
      let '(pl, n1) := meaning l i o e n in
      let '(pr, n2) := meaning r i o e n1 in
      (Fork pl (Wait pr), n2)
  | Background t' => let '(p, n1) := meaning t' i o e n in (Fork p (Exit 0), n1)
  end.

(** The programs a process tree runs, with their descriptors. *)
Fixpoint programs (p : process) : list (list (list Z) * fdtab) :=
  match p with
  | Exec argv f => [(argv, f)]
  | Exit _ => []
  | Fork c q => programs c ++ programs q
  | Wait q => programs q
  | Print _ _ q => programs q
  end.

(** ** Correctness *)

Lemma redir_std k name i o e : exists i' o' e', delete (redir_mode k).2 (std i o e) = delete (redir_mode k).2 (std i' o' e') /\
  lowest (delete (redir_mode k).2 (std i o e)) = Some (redir_mode k).2 /\
  <[(redir_mode k).2 := File name (redir_mode k).1]> (delete (redir_mode k).2 (std i o e)) = std i' o' e' /\
  forall t n, meaning (Redirect t k name) i o e n = meaning t i' o' e' n.
Proof.
  destruct k; do 3 eexists; (split; [|split; [|split; [|intros; reflexivity]]]); reflexivity.
Qed.

Lemma pipe_std id i o e :
  let f := <[4 := PipeW id]> (<[3 := PipeR id]> (std i o e)) in
  delete 4 (delete 3 (u_dup (delete 1 f) 4).2) = std i (PipeW id) e /\ delete 4 (delete 3 (u_dup (delete 0 f) 3).2) = std (PipeR id) o e.
Proof. split; reflexivity. Qed.

Lemma u_pipe_std i o e n fs (w : world os) : user w = Os n fs -> u_pipe (std i o e) w =
  if hd true fs then Ret ((Some (3, 4), <[4 := PipeW n]> (<[3 := PipeR n]> (std i o e))), World (held w) (trace w) (Os (S n) (tail fs)))
  else Ret ((None, std i o e), World (held w) (trace w) (Os n (tail fs))).
Proof.
  intros E. unfold u_pipe, works, bind, get, put. cbn. rewrite E. cbn. destruct (hd true fs); cbn; reflexivity.
Qed.

Lemma works_wp (Q : bool -> world os -> Prop) w n fs : user w = Os n fs ->
  Q (hd true fs) (World (held w) (trace w) (Os n (tail fs))) -> wp works Q w.
Proof. intros E HQ. unfold works. do 4 wp_step. by rewrite E. Qed.

Lemma u_pipe_wp i o e n fs (Q : option (Z * Z) * fdtab -> world os -> Prop) w : user w = Os n fs ->
  (hd true fs = true -> forall w', user w' = Os (S n) (tail fs) -> Q (Some (3, 4), <[4 := PipeW n]> (<[3 := PipeR n]> (std i o e))) w') ->
  (hd true fs = false -> forall w', user w' = Os n (tail fs) -> Q (None, std i o e) w') -> wp (u_pipe (std i o e)) Q w.
Proof. intros E H1 H2. unfold wp. rewrite (u_pipe_std i o e n fs w E). destruct (hd true fs); [by apply H1|by apply H2]. Qed.

Section Run.
Variable b : list Z.
Abbreviation word_at := (fun a : nat * nat => str_at b a.1).

(** Opening the file of a redirection. *)
Lemma redir_wp c t q e mode fd k file n fs i o er (Q : process -> world os -> Prop) w : (mode, fd) = redir_mode k -> file = str_at b q -> user w = Os n fs ->
  (forall i' o' e' w', user w' = Os n (tail fs) -> (forall m, meaning (Redirect t k file) i o er m = meaning t i' o' e' m) -> wp (runcmd b c (std i' o' e')) Q w') ->
  (hd true fs = false -> forall msg w', user w' = Os n (tail fs) -> Q (Print 2 msg (Exit 1)) w') ->
  wp (runcmd b (REDIR c q e mode fd) (std i o er)) Q w.
Proof.
  intros Hm Hf E H1 H2. destruct (redir_std k file i o er) as (i' & o' & e' & _ & Hlow & Hins & Hmean). rewrite <- Hm in Hlow, Hins. cbn [fst snd] in *.
  cbn [runcmd]. wp_step. unfold u_open. wp_step. eapply works_wp; [exact E|]. rewrite Hlow, <- Hf. destruct (hd true fs) eqn:Eh.
  - wp_step. rewrite (proj2 (Z.ltb_ge fd 0)) by (destruct k; cbn in Hm; simplify_eq; lia). rewrite Hins. by apply (H1 i' o' e').
  - wp_step. change (-1 <? 0) with true. cbv iota. wp_step. by apply H2.
Qed.

(** When no call fails, runcmd() makes the processes of the meaning. *)
Lemma run_meaning t : forall c i o e n w, shows word_at c t -> user w = Os n [] ->
  wp (runcmd b c (std i o e)) (fun p w' => p = (meaning t i o e n).1 /\ user w' = Os (meaning t i o e n).2 []) w.
Proof.
  induction t as [args|t IH k file|l IHl r IHr|l IHl r IHr|t IH]; intros c i o e n w Hs E; destruct c as [argv|c q eq mode fd|cl cr|cl cr|c]; try done; cbn in Hs.
  - subst args. cbn [runcmd]. destruct argv as [|a0 argv]; [by wp_step|]. wp_step. eapply works_wp; [exact E|]. cbn [hd]. by wp_step.
  - destruct Hs as (Hs & Hm & Hf). eapply redir_wp; [exact Hm|exact Hf|exact E| |done]. intros i' o' e' w' E' Hmean. rewrite Hmean. by apply IH.
  - destruct Hs as [Hl Hr]. cbn [runcmd]. wp_step. eapply u_pipe_wp; [exact E| |done]. intros _ w1 E1. cbv beta iota zeta.
    destruct (pipe_std n i o e) as [Hpl Hpr]. rewrite Hpl, Hpr. unfold fork1. wp_step. eapply works_wp; [exact E1|]. cbn [hd tail]. wp_step.
    eapply wp_mono; [apply (IHl cl i (PipeW n) e (S n)); [done|done]|]. intros p w2 [-> E2]. cbv beta. wp_step. wp_step.
    eapply works_wp; [exact E2|]. cbn [hd tail]. wp_step. eapply wp_mono; [apply (IHr cr (PipeR n) o e); [done|done]|]. intros p' w3 [-> E3].
    do 4 wp_step. rewrite E3. cbn [meaning]. destruct (meaning l i (PipeW n) e (S n)) as [pl n1]. cbn [fst snd]. by destruct (meaning r (PipeR n) o e n1).
  - destruct Hs as [Hl Hr]. cbn [runcmd]. unfold fork1. wp_step. eapply works_wp; [exact E|]. cbn [hd tail]. wp_step.
    eapply wp_mono; [apply (IHl cl i o e n); done|]. intros p w2 [-> E2]. cbv beta. wp_step. wp_step.
    eapply wp_mono; [apply (IHr cr i o e); [done|done]|]. intros p' w3 [-> E3]. do 2 wp_step. rewrite E3. cbn [meaning].
    destruct (meaning l i o e n) as [pl n1]. cbn [fst snd]. by destruct (meaning r i o e n1).
  - cbn [runcmd]. unfold fork1. wp_step. eapply works_wp; [exact E|]. cbn [hd tail]. wp_step. eapply wp_mono; [apply (IH c i o e n); done|].
    intros p w2 [-> E2]. do 3 wp_step. rewrite E2. cbn [meaning]. by destruct (meaning t i o e n).
Qed.

(** Whatever fails, a program that runs has exactly the descriptors 0, 1 and 2. *)
Definition only_std (p : process) : Prop := Forall (fun x => exists i o e, x.2 = std i o e) (programs p).

Lemma fork1_wp child parent (Q : process -> world os -> Prop) w :
  (forall w, wp child (fun p _ => only_std p) w) -> (forall w, wp parent (fun p _ => only_std p) w) ->
  (forall p w', only_std p -> Q p w') -> wp (fork1 child parent) Q w.
Proof.
  intros H1 H2 HQ. unfold fork1. destruct (user w) as [n fs] eqn:E. wp_step. eapply works_wp; [exact E|]. destruct (hd true fs).
  - wp_step. eapply wp_mono; [apply H1|]. intros p w1 Hp. cbv beta. wp_step. eapply wp_mono; [apply H2|]. intros p' w2 Hp'. wp_step. apply HQ.
    unfold only_std. cbn. apply list.Forall_app. done.
  - wp_step. apply HQ. unfold only_std. constructor.
Qed.

Lemma run_programs t : forall c i o e w, shows word_at c t -> wp (runcmd b c (std i o e)) (fun p _ => only_std p) w.
Proof.
  assert (forall l, l = [] -> Forall (fun x : list (list Z) * fdtab => exists i o e, x.2 = std i o e) l) as Hnil by (intros ? ->; constructor).
  induction t as [args|t IH k file|l IHl r IHr|l IHl r IHr|t IH]; intros c i o e w Hs; destruct c as [argv|c q eq mode fd|cl cr|cl cr|c]; try done; cbn in Hs.
  - cbn [runcmd]. destruct argv as [|a0 argv]; [wp_step; by apply Hnil|]. destruct (user w) as [n fs] eqn:E. wp_step. eapply works_wp; [exact E|].
    destruct (hd true fs); wp_step; [|by apply Hnil]. apply list.Forall_singleton. by exists i, o, e.
  - destruct Hs as (Hs & Hm & Hf). destruct (user w) as [n fs] eqn:E. eapply (redir_wp c t); [exact Hm|exact Hf|exact E| |].
    + intros i' o' e' w' _ _. by apply IH.
    + intros _ msg w' _. by apply Hnil.
  - destruct Hs as [Hl Hr]. destruct (user w) as [n fs] eqn:E. cbn [runcmd]. wp_step. eapply u_pipe_wp; [exact E| |].
    + intros _ w1 _. cbv beta iota zeta. destruct (pipe_std n i o e) as [Hpl Hpr]. rewrite Hpl, Hpr. apply fork1_wp; [intros; by apply IHl| |done].
      intros w2. apply fork1_wp; [intros; by apply IHr|intros; wp_step; by apply Hnil|done].
    + intros _ w1 _. cbv beta iota. wp_step. by apply Hnil.
  - destruct Hs as [Hl Hr]. cbn [runcmd]. apply fork1_wp; [intros; by apply IHl| |done]. intros w2. wp_step.
    eapply wp_mono; [by apply IHr|]. intros p w' Hp. by wp_step.
  - cbn [runcmd]. apply fork1_wp; [intros; by apply IH|intros; wp_step; by apply Hnil|done].
Qed.
End Run.



(** The shell takes the last character of a cd line for its newline: at the end of the input it is
    the last character of the path. *)
Example cd_at_end : match main_turn (World [] [] (Uio (lit_bytes "cd ab") [] [] [])) with Ret (a, _) => Some a | _ => None end = Some (ShCd [97; 0; 0]).
Proof. vm_compute. reflexivity. Qed.
