(* ===== verification/Programs.v ===== *)
(** * The small user programs (user/cp.c, ls.c, rm.c, ln.c, mkdir.c, kill.c, rename.c,
    diskspace.c, fileinfo.c, init.c, zombie.c, stat() of ulib.c, and main() of cat.c, wc.c,
    grep.c and, up to its loop, sh.c)

    These programs are sequences of system calls.  What the kernel answers is up to it:
    a script of answers, one per call (printf() does not look at the answer of
    write(), so its calls take none); when the script is at its end every call
    fails.  The state records the calls.  read() gives at most as many bytes as asked
    for.  A function that may call exit() answers [Some status] when it does. *)

From S2P Require Import Prelude Machine CString Printf FsDisk Fs User TextTools Grep Sysfile Console.

Open Scope Z_scope.

(** ** System calls *)

Inductive call :=
  | COpen (path : list Z) (mode : Z) | CClose (fd : Z) | CRead (fd n : Z) | CWrite (fd : Z) (bs : list Z)
  | CFstat (fd : Z) | CUnlink (path : list Z) | CLink (old new : list Z) | CMkdir (path : list Z)
  | CMknod (path : list Z) (major minor : Z) | CRename (old new : list Z) | CKill (pid : Z) | CDup (fd : Z)
  | CFork | CWait | CExec (path : list Z) (argv : list (list Z)) | CSleep (n : Z) | CDiskspace.

(** The value returned, and what the kernel puts at the pointers it was given. *)
Record answer := Answer { an_ret : Z; an_bytes : list Z; an_stat : stat; an_blocks : Z * Z }.
Definition refusal : answer := Answer (-1) [] (Stat 0 0 0 0 0) (0, 0).

(** The calls so far, each with its answer if the program looks at it. *)
Definition exchange : Type := call * option answer.
Record sys := Sys { sys_script : list answer; sys_calls : list exchange }.
Definition record (es : list exchange) (s : sys) : sys := Sys (sys_script s) (sys_calls s ++ es).

Definition ask (c : call) : M sys answer :=
  let* s := get in
  let a := default refusal (head (sys_script s)) in
  put (record [(c, Some a)] (Sys (tail (sys_script s)) (sys_calls s))) ;;
  ret a.
Definition ask_ret (c : call) : M sys Z := let* a := ask c in ret (an_ret a).

(** The value and the bytes of a read(): as many as the value says, at most [n]. *)
Definition read_value (a : answer) (n : Z) : Z * list Z :=
  let r := Z.min (an_ret a) n in (r, take (Z.to_nat r) (an_bytes a ++ replicate (Z.to_nat r) 0)).
Definition read_from (fd n : Z) : M sys (Z * list Z) := let* a := ask (CRead fd n) in ret (read_value a n).

(** printf() and fprintf(): every character is a write() of its own. *)
Definition fprintf (fd : Z) (fmt : list Z) (ap : list arg) : M sys unit :=
  let* out := the (vprintf fmt ap false) in
  for_each out (fun c => modify (record [(CWrite fd [c], None)])).
Definition printint_to (fd xx base : Z) : M sys unit :=
  let* out := the (printint true xx base false) in
  for_each out (fun c => modify (record [(CWrite fd [c], None)])).

(** A format of one line. *)
Definition line (s : string) : list Z := lit_bytes s ++ [10; 0].
Arguments line s%_string_scope.

(** ulib.c: stat() *)
Definition u_stat (n : list Z) : M sys (Z * stat) :=
  let* fd := ask_ret (COpen n O_RDONLY) in
  if fd <? 0 then ret (-1, an_stat refusal) else
  let* a := ask (CFstat fd) in
  ask_ret (CClose fd) ;;
  ret (an_ret a, an_stat a).

Definition turns : M sys nat := gets (fun s => S (S (length (sys_script s)))).

(** ** cp *)

(** One turn of the loop of cp(): [inl] is the buffer, [inr (inl n)] the end of the loop with
    [n], [inr (inr status)] the exit after a failed write(). *)
Definition cp_turn (srcfd destfd : Z) (buf : list Z) : M sys (list Z + (Z + Z)) :=
  let* ' (n, bs) := read_from srcfd 512 in
  let buf := splice 0 bs buf in
  if n >? 0 then
    let* r := ask_ret (CWrite destfd (take (Z.to_nat n) buf)) in
    if negb (r =? n) then
      fprintf 2 (line "cp: write error") [] ;;
      ask_ret (CClose srcfd) ;;
      ask_ret (CClose destfd) ;;
      ret (inr (inr 1))
    else ret (inl buf)
  else ret (inr (inl n)).

Definition cp (src dest : list Z) : M sys (option Z) :=
  let* srcfd := ask_ret (COpen src O_RDONLY) in
  if srcfd <? 0 then fprintf 2 (line "cp: cannot open %s") [AStr (Some src)] ;; ret (Some 1) else
  let* destfd := ask_ret (COpen dest (Z.lor (Z.lor O_WRONLY O_CREATE) O_TRUNC)) in
  if destfd <? 0 then
    ask_ret (CClose srcfd) ;;
    fprintf 2 (line "cp: cannot create or truncate %s") [AStr (Some dest)] ;; ret (Some 1)
  else
  let* fuel := turns in
  let* r := iter fuel (cp_turn srcfd destfd) (replicate 512 0) in
  match r with
  | inr status => ret (Some status)
  | inl n =>
      (if n <? 0 then fprintf 1 (line "cp: read error") [] else ret tt) ;;
      ask_ret (CClose srcfd) ;;
      ask_ret (CClose destfd) ;;
      ret None
  end.

(** main() looks at both names with stat(): [None] goes on. *)
Definition cp_check (name : list Z) : M sys (option Z) :=
  let* ' (r, st) := u_stat name in
  if r <? 0 then fprintf 2 (line "cp: cannot get info on %s") [AStr (Some name)] ;; ret (Some 1) else
  if (st_type st =? T_DIR) || (st_type st =? T_DEVICE) then
    fprintf 2 (line "cp: %s is either a directory or device file, cannot copy.") [AStr (Some name)] ;; ret (Some 1)
  else ret None.

Definition cp_main (argv : list (list Z)) : M sys Z :=
  match argv with
  | [_; src; dest] =>
      let* r := cp_check src in
      match r with
      | Some status => ret status
      | None =>
          let* r := cp_check dest in
          match r with
          | Some status => ret status
          | None => let* r := cp src dest in ret (default 0 r)
          end
      end
  | _ => fprintf 2 (line "Usage: cp src dest") [] ;; ret 1
  end.

(** ** ls *)

(** [p >= path && *p != '/'] backwards; the pointer after the loop, plus one. *)
Fixpoint after_slash (path : list Z) (n : nat) : nat :=
  match n with
  | O => O
  | S p => if nth p path 0 =? 47 then n else after_slash path p
  end.

Definition fmtname (path : list Z) : option (list Z) :=
  n ← strlen path;
  let p := drop (after_slash path (S n)) path in
  len ← strlen p;
  Some (if (DIRSIZn <=? len)%nat then p else take len p ++ replicate (DIRSIZn - len) 32 ++ [0]).

Definition ls_line (path : list Z) (st : stat) (dir : string) : M sys unit :=
  let* name := the (fmtname path) in
  let put kind := fprintf 1 (lit_bytes "%s " ++ lit_bytes kind ++ line " %s %l") [AStr (Some name); AStr (Some (lit "Size:")); ALong (st_size st)] in
  if st_type st =? T_DEVICE then put "DEVICE "
  else if st_type st =? T_FILE then put "FILE   "
  else put dir.

(** One turn of the loop over a directory; [path] is without its NUL. *)
Definition ls_turn (fd : Z) (path : list Z) (_ : unit) : M sys (unit + unit) :=
  let* ' (r, bs) := read_from fd DIRENT_SIZE in
  if negb (r =? DIRENT_SIZE) then ret (inr tt) else
  let de := dirent_decode bs in
  if de_inum de =? 0 then ret (inl tt) else
  let buf := path ++ [47] ++ de_name de ++ [0] in
  let* ' (r, st) := u_stat buf in
  (if r <? 0 then fprintf 1 (line "ls: cannot stat %s") [AStr (Some buf)]
   else ls_line buf st (if st_type st =? T_DIR then "DIR    " else "UNKNOWN")) ;;
  ret (inl tt).

Definition ls (path : list Z) : M sys unit :=
  let* fd := ask_ret (COpen path 0) in
  if fd <? 0 then fprintf 2 (line "ls: cannot open %s") [AStr (Some path)] else
  let* a := ask (CFstat fd) in
  if an_ret a <? 0 then
    fprintf 2 (line "ls: cannot stat %s") [AStr (Some path)] ;;
    ask_ret (CClose fd) ;; ret tt
  else
  let st := an_stat a in
  (if st_type st =? T_DIR then
     let* n := the (strlen path) in
     if Z.of_nat n + 1 + DIRSIZ + 1 >? 512 then fprintf 1 (line "ls: path too long") [] else
     let* fuel := turns in
     iter fuel (ls_turn fd (take n path)) tt
   else ls_line path st "UNKNOWN") ;;
  ask_ret (CClose fd) ;; ret tt.

Definition ls_main (argv : list (list Z)) : M sys Z :=
  match argv with
  | [] | [_] => ls (lit ".") ;; ret 0
  | _ :: args => for_each args ls ;; ret 0
  end.

(** ** rm, mkdir, ln, rename, kill *)

(** The loop of rm and mkdir: it ends at the first failure. *)
Fixpoint each_or_break (op : list Z -> call) (msg : list Z) (args : list (list Z)) : M sys unit :=
  match args with
  | [] => ret tt
  | a :: args =>
      let* r := ask_ret (op a) in
      if r <? 0 then fprintf 2 msg [AStr (Some a)] else each_or_break op msg args
  end.

Definition rm_main (argv : list (list Z)) : M sys Z :=
  match argv with
  | [] | [_] => fprintf 2 (line "Usage: rm files...") [] ;; ret 1
  | _ :: args => each_or_break CUnlink (line "rm: %s failed to delete") args ;; ret 0
  end.

Definition mkdir_main (argv : list (list Z)) : M sys Z :=
  match argv with
  | [] | [_] => fprintf 2 (line "Usage: mkdir files...") [] ;; ret 1
  | _ :: args => each_or_break CMkdir (line "mkdir: %s failed to create") args ;; ret 0
  end.

Definition ln_main (argv : list (list Z)) : M sys Z :=
  match argv with
  | [_; old; new] =>
      let* r := ask_ret (CLink old new) in
      (if r <? 0 then fprintf 2 (line "link %s %s: failed") [AStr (Some old); AStr (Some new)] else ret tt) ;;
      ret 0
  | _ => fprintf 2 (line "Usage: ln old new") [] ;; ret 1
  end.

Definition rename_main (argv : list (list Z)) : M sys Z :=
  match argv with
  | [_; old; new] =>
      let* r := ask_ret (CRename old new) in
      if r <? 0 then fprintf 2 (line "rename %s %s failed") [AStr (Some old); AStr (Some new)] ;; ret 1 else ret 0
  | _ => fprintf 2 (line "Usage: rename oldname newname") [] ;; ret 1
  end.

Definition kill_main (argv : list (list Z)) : M sys Z :=
  match argv with
  | [] | [_] => fprintf 2 (line "usage: kill pid...") [] ;; ret 1
  | _ :: args => for_each args (fun a => let* pid := the (atoi a) in ask_ret (CKill pid) ;; ret tt) ;; ret 0
  end.

(** ** diskspace, fileinfo *)

Definition diskspace_main : M sys Z :=
  let* a := ask CDiskspace in
  if an_ret a <? 0 then fprintf 2 (line "diskspace: error getting disk free information") [] ;; ret 1 else
  let free_blocks := u32 (an_blocks a).1 in
  let total_blocks := u32 (an_blocks a).2 in
  fprintf 1 (lit "Total blocks: ") [] ;;
  printint_to 1 (s32 total_blocks) 10 ;;
  fprintf 1 (lit ", Free blocks: ") [] ;;
  printint_to 1 (s32 free_blocks) 10 ;;
  fprintf 1 [10; 0] [] ;;
  fprintf 1 (lit "Total disk space in bytes: ") [] ;;
  printint_to 1 (s32 (u32 (total_blocks * BSIZE))) 10 ;;
  fprintf 1 (lit ", Free disk space in bytes: ") [] ;;
  printint_to 1 (s32 (u32 (free_blocks * BSIZE))) 10 ;;
  fprintf 1 [10; 0] [] ;;
  ret 0.

Definition fileinfo (path : list Z) : M sys Z :=
  let* ' (r, st) := u_stat path in
  if r <? 0 then fprintf 1 (line "fileinfo: cannot stat %s") [AStr (Some path)] ;; ret (-1) else
  fprintf 1 (lit_bytes "File: %s" ++ [10] ++ lit_bytes "Size: %d" ++ [10] ++ lit_bytes "Links: %d" ++ [10] ++ lit_bytes "Inode: %d" ++ [10] ++ lit "Type: ")
    [AStr (Some path); AInt (s32 (st_size st)); AInt (st_nlink st); AInt (s32 (st_ino st))] ;;
  (if st_type st =? T_DIR then fprintf 1 (line "directory") []
   else if st_type st =? T_FILE then fprintf 1 (line "file") []
   else if st_type st =? T_DEVICE then fprintf 1 (line "device") []
   else fprintf 1 (line "unknown") []) ;;
  ret 0.

Definition fileinfo_main (argv : list (list Z)) : M sys Z :=
  match argv with
  | [_; path] => let* r := fileinfo path in if r <? 0 then ret 1 else ret 0
  | _ => fprintf 1 (line "Usage: fileinfo <path>") [] ;; ret 1
  end.

(** ** init, zombie *)

(** How a program ends: exit(status), or another program in its place. *)
Inductive ending := Exit (status : Z) | Became (path : list Z).

(** One turn of the inner loop of init: [inr None] when the shell has exited. *)
Definition reap_turn (pid : Z) (_ : unit) : M sys (unit + option ending) :=
  let* wpid := ask_ret CWait in
  if wpid =? pid then ret (inr None)
  else if wpid <? 0 then fprintf 1 (line "init: wait returned an error") [] ;; ret (inr (Some (Exit 1)))
  else ret (inl tt).

Definition init_turn (_ : unit) : M sys (unit + ending) :=
  fprintf 1 (line "init: starting sh") [] ;;
  let* pid := ask_ret CFork in
  if pid <? 0 then fprintf 1 (line "init: fork failed") [] ;; ret (inr (Exit 1)) else
  if pid =? 0 then
    let* r := ask_ret (CExec (lit "sh") [lit "sh"]) in
    if r <? 0 then fprintf 1 (line "init: exec sh failed") [] ;; ret (inr (Exit 1))
    else ret (inr (Became (lit "sh")))
  else
  let* fuel := turns in
  let* r := iter fuel (reap_turn pid) tt in
  ret (match r with None => inl tt | Some e => inr e end).

Definition init_main : M sys ending :=
  let* fd := ask_ret (COpen (lit "console") O_RDWR) in
  (if fd <? 0 then
     ask_ret (CMknod (lit "console") CONSOLE 0) ;;
     ask_ret (COpen (lit "console") O_RDWR) ;; ret tt
   else ret tt) ;;
  ask_ret (CDup 0) ;;
  ask_ret (CDup 0) ;;
  let* fuel := turns in
  iter fuel init_turn tt.

Definition zombie_main : M sys Z :=
  let* pid := ask_ret CFork in
  (if pid >? 0 then ask_ret (CSleep 5) ;; ret tt else ret tt) ;;
  ret 0.

(** sh.c: main() makes sure that three descriptors are open. *)
Definition sh_console_turn (_ : unit) : M sys (unit + unit) :=
  let* fd := ask_ret (COpen (lit "console") O_RDWR) in
  if negb (fd >=? 0) then ret (inr tt) else
  if fd >=? 3 then ask_ret (CClose fd) ;; ret (inr tt) else ret (inl tt).
Definition sh_console : M sys unit := let* fuel := turns in iter fuel sh_console_turn tt.

(** ** main() of the text tools

    The open file is the input of User.v; [tl_files] says what the next open()s find,
    contents and sizes of the reads, or [None] when they fail.  close() has nothing to
    do here: the next open() replaces the input. *)

Record tools := Tools { tl_io : uio; tl_files : list (option (list Z * list Z)) }.

#[export] Instance lens_tools : Lens tools uio := { lget := tl_io; lput io s := Tools io (tl_files s) }.

Definition tool_open : M tools Z :=
  let* s := get in
  match tl_files s with
  | Some (content, cuts) :: t => put (Tools (Uio content cuts (u_lims (tl_io s)) (u_out (tl_io s))) t) ;; ret 3
  | None :: t => put (Tools (tl_io s) t) ;; ret (-1)
  | [] => ret (-1)
  end.

(** The loop over the file names: [Some status] when the program exits in it. *)
Fixpoint each_file (fd : Z) (msg : list Z) (tool : list Z -> M uio (option Z)) (args : list (list Z)) : M tools (option Z) :=
  match args with
  | [] => ret None
  | a :: args =>
      let* r := tool_open in
      if r <? 0 then zoom (u_printf fd msg [AStr (Some a)]) ;; ret (Some 1) else
      let* r := zoom (tool a) in
      match r with Some status => ret (Some status) | None => each_file fd msg tool args end
  end.

Definition cat_main (argv : list (list Z)) : M tools Z :=
  match argv with
  | [] | [_] => let* r := zoom cat in ret (default 0 r)
  | _ :: args => let* r := each_file 2 (line "cat: cannot open %s") (fun _ => cat) args in ret (default 0 r)
  end.

Definition wc_main (argv : list (list Z)) : M tools Z :=
  match argv with
  | [] | [_] => let* r := zoom (wc [0]) in ret (default 0 r)
  | _ :: args => let* r := each_file 1 (line "wc: cannot open %s") wc args in ret (default 0 r)
  end.

Definition grep_main (argv : list (list Z)) : M tools Z :=
  match argv with
  | [] | [_] => zoom (u_printf 2 (line "usage: grep pattern [file ...]") []) ;; ret 1
  | [_; pattern] => zoom (grep pattern) ;; ret 0
  | _ :: pattern :: args => let* r := each_file 1 (line "grep: cannot open %s") (fun _ => grep pattern ;; ret None) args in ret (default 0 r)
  end.

(** ** cp copies *)

(** A message, and a read() with the write() of its bytes. *)
Definition says (fd : Z) (out : list Z) : list exchange := (fun c => (CWrite fd [c], None)) <$> out.
Definition chunk (srcfd destfd : Z) (x : answer * answer) : list exchange :=
  [(CRead srcfd 512, Some x.1); (CWrite destfd (read_value x.1 512).2, Some x.2)].
Definition chunks (srcfd destfd : Z) (xs : list (answer * answer)) : list exchange := mjoin (chunk srcfd destfd <$> xs).
(** The read() gave bytes and the write() took all of them. *)
Definition whole (x : answer * answer) : Prop := 0 < (read_value x.1 512).1 /\ an_ret x.2 = (read_value x.1 512).1.

(** What cp() may do: [r] is its result, the list its calls and the answers. *)
Inductive cp_dialogue (src dest : list Z) : option Z -> list exchange -> Prop :=
  | cp_no_source a out : an_ret a < 0 ->
      cp_dialogue src dest (Some 1) ((COpen src O_RDONLY, Some a) :: says 2 out)
  | cp_no_dest a b c out : 0 <= an_ret a -> an_ret b < 0 ->
      cp_dialogue src dest (Some 1)
        ([(COpen src O_RDONLY, Some a); (COpen dest (Z.lor (Z.lor O_WRONLY O_CREATE) O_TRUNC), Some b); (CClose (an_ret a), Some c)] ++ says 2 out)
  | cp_short_write a b xs x c d out : 0 <= an_ret a -> 0 <= an_ret b -> Forall whole xs ->
      0 < (read_value x.1 512).1 -> an_ret x.2 <> (read_value x.1 512).1 ->
      cp_dialogue src dest (Some 1)
        ([(COpen src O_RDONLY, Some a); (COpen dest (Z.lor (Z.lor O_WRONLY O_CREATE) O_TRUNC), Some b)] ++ chunks (an_ret a) (an_ret b) (xs ++ [x]) ++ says 2 out ++
         [(CClose (an_ret a), Some c); (CClose (an_ret b), Some d)])
  | cp_finished a b xs e c d out : 0 <= an_ret a -> 0 <= an_ret b -> Forall whole xs ->
      (read_value e 512).1 <= 0 -> (out = [] <-> (read_value e 512).1 = 0) ->
      cp_dialogue src dest None
        ([(COpen src O_RDONLY, Some a); (COpen dest (Z.lor (Z.lor O_WRONLY O_CREATE) O_TRUNC), Some b)] ++ chunks (an_ret a) (an_ret b) xs ++
         [(CRead (an_ret a) 512, Some e)] ++ says 1 out ++ [(CClose (an_ret a), Some c); (CClose (an_ret b), Some d)]).

(** The world after some exchanges. *)
Definition after (script : list answer) (es : list exchange) (w : world sys) : world sys :=
  World (held w) (trace w) (Sys script (sys_calls (user w) ++ es)).

Lemma after_after t t' es es' w : after t' es' (after t es w) = after t' (es ++ es') w.
Proof. unfold after. cbn. by rewrite app_assoc. Qed.

(** A call and its answer; the fuel [turns] counts the answers that are left. *)
Definition used (script script' : list answer) (a : answer) : Prop :=
  (length script' <= length script)%nat /\ (a = refusal \/ (length script' < length script)%nat).

Lemma ask_wp c (Q : answer -> world sys -> Prop) w :
  (forall a t, used (sys_script (user w)) t a -> Q a (after t [(c, Some a)] w)) -> wp (ask c) Q w.
Proof.
  intros HQ. unfold ask. do 4 wp_step. apply HQ. unfold used. destruct (sys_script (user w)); cbn; [by auto|]. lia.
Qed.
Lemma ask_ret_wp c (Q : Z -> world sys -> Prop) w :
  (forall a t, used (sys_script (user w)) t a -> Q (an_ret a) (after t [(c, Some a)] w)) -> wp (ask_ret c) Q w.
Proof. intros HQ. unfold ask_ret. wp_step. apply ask_wp. intros a t Ht. wp_step. by apply HQ. Qed.

(** The same where the answers are known. *)
Lemma ask_next_wp c a t (Q : answer -> world sys -> Prop) w : sys_script (user w) = a :: t ->
  Q a (after t [(c, Some a)] w) -> wp (ask c) Q w.
Proof. intros E HQ. unfold ask. do 4 wp_step. rewrite E. exact HQ. Qed.
Lemma ask_ret_next_wp c a t (Q : Z -> world sys -> Prop) w : sys_script (user w) = a :: t ->
  Q (an_ret a) (after t [(c, Some a)] w) -> wp (ask_ret c) Q w.
Proof. intros E HQ. unfold ask_ret. wp_step. eapply ask_next_wp; [exact E|]. by wp_step. Qed.

Lemma say_wp fd out (Q : unit -> world sys -> Prop) w :
  Q tt (after (sys_script (user w)) (says fd out) w) ->
  wp (for_each out (fun c => modify (record [(CWrite fd [c], None)]))) Q w.
Proof.
  revert w. induction out as [|c out IH]; intros w HQ; cbn [for_each].
  - wp_step. unfold after in HQ. cbn in HQ. rewrite app_nil_r in HQ. by destruct w as [? ? []].
  - do 2 wp_step. apply IH. unfold after, record in *. cbn in *. by rewrite <- app_assoc.
Qed.
Lemma fprintf_wp fd fmt ap out (Q : unit -> world sys -> Prop) w : vprintf fmt ap false = Some out ->
  Q tt (after (sys_script (user w)) (says fd out) w) -> wp (fprintf fd fmt ap) Q w.
Proof. intros E HQ. unfold fprintf. wp_step. rewrite E. apply wp_ret. by apply say_wp. Qed.

Lemma length_read_value a n : 0 < (read_value a n).1 -> length (read_value a n).2 = Z.to_nat (read_value a n).1.
Proof. unfold read_value. cbn. intros. len. Qed.
Lemma read_value_bound a n : (read_value a n).1 <= n.
Proof. unfold read_value. cbn. lia. Qed.

(** The bytes written are the bytes read. *)
Lemma written_is_read a buf : 0 < (read_value a 512).1 -> length buf = 512%nat ->
  take (Z.to_nat (read_value a 512).1) (splice 0 (read_value a 512).2 buf) = (read_value a 512).2.
Proof. intros Hr Hb. rewrite <- length_read_value by done. unfold splice. rewrite take_0. cbn [app]. apply take_app_length. Qed.
Lemma length_read_splice a buf : length buf = 512%nat -> length (splice 0 (read_value a 512).2 buf) = 512%nat.
Proof. intros Hb. rewrite length_splice; [done|]. unfold read_value. cbn. len. Qed.

(** One turn of the loop: the chunks so far are whole, and the buffer keeps its size. *)
Definition cp_inv (srcfd destfd : Z) (w0 : world sys) (buf : list Z) (w : world sys) : Prop :=
  length buf = 512%nat /\ exists xs t, Forall whole xs /\ w = after t (chunks srcfd destfd xs) w0.

Lemma chunks_snoc srcfd destfd xs x : chunks srcfd destfd (xs ++ [x]) = chunks srcfd destfd xs ++ chunk srcfd destfd x.
Proof. unfold chunks. rewrite fmap_app, join_app. cbn [fmap list_fmap mjoin list_join]. by rewrite app_nil_r. Qed.

Lemma cp_turn_wp srcfd destfd w0 buf w : cp_inv srcfd destfd w0 buf w ->
  wp (cp_turn srcfd destfd buf) (fun r w' => match r with
    | inl buf' => cp_inv srcfd destfd w0 buf' w' /\
                  (length (sys_script (user w')) < length (sys_script (user w)))%nat
    | inr (inl n) => exists xs e t, Forall whole xs /\ n = (read_value e 512).1 /\ n <= 0 /\
                     w' = after t (chunks srcfd destfd xs ++ [(CRead srcfd 512, Some e)]) w0
    | inr (inr status) => status = 1 /\ exists xs x t out c d, Forall whole xs /\
        0 < (read_value x.1 512).1 /\ an_ret x.2 <> (read_value x.1 512).1 /\
        w' = after t (chunks srcfd destfd (xs ++ [x]) ++ says 2 out ++ [(CClose srcfd, Some c); (CClose destfd, Some d)]) w0
    end) w.
Proof.
  intros (Hb & xs & t0 & Hxs & ->). unfold cp_turn, read_from. do 2 wp_step. apply ask_wp. intros a t [Ht Hu]. wp_step.
  rewrite (surjective_pairing (read_value a 512)). destruct (Z.gtb_spec (read_value a 512).1 0) as [Hr|Hr].
  - wp_step. apply ask_ret_wp. intros b t' [Ht' _]. rewrite written_is_read, !after_after by (done || lia).
    destruct (Z.eqb_spec (an_ret b) (read_value a 512).1) as [Hw|Hw]; cbn [negb].
    + wp_step. split.
      * split; [by apply length_read_splice|]. exists (xs ++ [(a, b)]), t'. split.
        -- apply Forall_app. split; [done|]. by repeat constructor.
        -- by rewrite chunks_snoc.
      * cbn [after user sys_script] in *. destruct Hu as [->|Hu]; [by cbn in Hr|lia].
    + wp_step. eapply fprintf_wp; [reflexivity|]. do 2 (wp_step; apply ask_ret_wp; intros ???). wp_step. split; [done|].
      rewrite !after_after. exists xs, (a, b). do 4 eexists. do 3 (split; [done|]). rewrite chunks_snoc, <- !app_assoc. reflexivity.
  - wp_step. rewrite after_after. exists xs, a, t. by repeat split.
Qed.

(** A message with the name of a file, a C string. *)
Lemma put_str_some s : 0 ∈ s -> exists out, put_str s = Some out.
Proof.
  induction s as [|c s IH]; [by intros ?%elem_of_nil|]. intros Hs. cbn [put_str]. destruct (Z.eqb_spec c 0); [eauto|].
  apply elem_of_cons in Hs as [<-|Hs]; [done|]. destruct (IH Hs) as [out ->]. eauto.
Qed.
(** The characters of a format that are no directive. *)
Definition plain (s : list Z) : bool := forallb (fun c => negb (c =? 0) && negb (c =? 37)) s.
Lemma vprintf_plain pre fmt ap : plain pre = true ->
  vprintf (pre ++ fmt) ap false = prepend (Some pre) (vprintf fmt ap false).
Proof.
  induction pre as [|c pre IH]; cbn [plain forallb app]; intros H; [by destruct (vprintf fmt ap false)|].
  apply andb_prop in H as [[H0 H37]%andb_prop H]. cbn [vprintf negb]. apply negb_true_iff in H0, H37. rewrite H0, H37, IH by done.
  by destruct (vprintf fmt ap false).
Qed.
Lemma vprintf_name pre rest s out : 0 ∈ s -> plain (lit_bytes pre) = true -> vprintf rest [] false = Some out ->
  exists out, vprintf (lit_bytes pre ++ 37 :: 115 :: rest) [AStr (Some s)] false = Some out.
Proof. intros [n E]%put_str_some Hp Hr. rewrite vprintf_plain, vprintf_s, E, Hr by done. eexists. reflexivity. Qed.

(** After the loop. *)
Lemma cp_end_wp (srcfd destfd n : Z) w : n <= 0 ->
  wp ((if n <? 0 then fprintf 1 (line "cp: read error") [] else ret tt) ;;
      ask_ret (CClose srcfd) ;; ask_ret (CClose destfd) ;; ret (@None Z))
    (fun r w' => r = None /\ exists out c d t, w' = after t (says 1 out ++ [(CClose srcfd, Some c); (CClose destfd, Some d)]) w /\
       (out = [] <-> n = 0)) w.
Proof.
  intros Hn. wp_step. apply wp_mono with (P := fun _ w' => exists out t, w' = after t (says 1 out) w /\ (out = [] <-> n = 0)).
  - destruct (Z.ltb_spec n 0); [eapply fprintf_wp; [reflexivity|]|wp_step].
    + do 2 eexists. split; [reflexivity|]. split; [done|lia].
    + exists [], (sys_script (user w)). split; [|split; [lia|done]]. unfold after. cbn. rewrite app_nil_r. by destruct w as [? ? []].
  - intros [] w' (out & t & -> & Ho). do 2 (wp_step; apply ask_ret_wp; intros ???). wp_step. rewrite !after_after.
    split; [done|]. do 4 eexists. split; [reflexivity|done].
Qed.

Lemma cp_wp src dest w : 0 ∈ src -> 0 ∈ dest ->
  wp (cp src dest) (fun r w' => exists es, sys_calls (user w') = sys_calls (user w) ++ es /\ cp_dialogue src dest r es) w.
Proof.
  intros Hs Hd. destruct (vprintf_name "cp: cannot open " [10; 0] src [10]) as [m Em]; [done..|].
  destruct (vprintf_name "cp: cannot create or truncate " [10; 0] dest [10]) as [m' Em']; [done..|]. unfold cp. wp_step. apply ask_ret_wp. intros a t _.
  destruct (Z.ltb_spec (an_ret a) 0) as [Ha|Ha].
  { wp_step. eapply fprintf_wp; [exact Em|]. wp_step. rewrite after_after. eexists. split; [reflexivity|]. by constructor. }
  wp_step. apply ask_ret_wp. intros b t' _. destruct (Z.ltb_spec (an_ret b) 0) as [Hb|Hb].
  { wp_step. apply ask_ret_wp. intros c t'' _. wp_step. eapply fprintf_wp; [exact Em'|]. wp_step. rewrite !after_after.
    eexists. split; [reflexivity|]. by constructor. }
  rewrite after_after. set (w1 := after t' _ w). unfold turns. do 2 wp_step.
  apply wp_bind. eapply wp_iter with (v := fun _ w => length (sys_script (user w))) (I := cp_inv (an_ret a) (an_ret b) w1).
  - split; [by rewrite length_replicate|]. exists [], t'. split; [constructor|]. unfold w1. by rewrite after_after, app_nil_r.
  - cbn. lia.
  - intros buf w2 Hi. eapply wp_mono; [by apply cp_turn_wp|]. intros [buf'|[n|status]] w3; [done| |].
    + intros (xs & e & t3 & Hxs & -> & Hn & ->).
      eapply wp_mono; [by apply cp_end_wp|]. intros r w4 (-> & out & c & d & t4 & -> & Ho). unfold w1. rewrite !after_after.
      eexists. split; [reflexivity|]. rewrite <- !app_assoc. by constructor.
    + intros (-> & xs & x & t3 & out & c & d & Hxs & Hr & Hw & ->). wp_step. unfold w1. rewrite after_after.
      eexists. split; [reflexivity|]. by constructor.
Qed.

(** C26. cp() ends whatever the kernel answers, and what it does is one of four things.
    It stops at a name it cannot open, with the source closed if it is the destination; or
    it writes every chunk it has read, the same bytes in the same order, until read() gives
    none or fails, and closes both files; or it stops with status 1 after the first chunk
    that write() did not take whole, both files closed. *)
Theorem cp_copies src dest script : 0 ∈ src -> 0 ∈ dest ->
  exists r w', cp src dest (World [] [] (Sys script [])) = Ret (r, w') /\ cp_dialogue src dest r (sys_calls (user w')).
Proof.
  intros Hs Hd. pose proof (cp_wp src dest (World [] [] (Sys script [])) Hs Hd) as H. unfold wp in H.
  destruct (cp src dest _) as [[r w']| | |]; [|done..]. destruct H as (es & He & Hes). exists r, w'. split; [done|].
  by rewrite He.
Qed.

Definition demo_answer (r : Z) (bs : list Z) : answer := Answer r bs (Stat 0 0 0 0 0) (0, 0).

Lemma cp_copies_witness : exists r w',
  cp [97; 0] [98; 0] (World [] [] (Sys [demo_answer 3 []; demo_answer 4 []; demo_answer 2 [104; 105]; demo_answer 2 []; demo_answer 0 []] [])) =
    Ret (r, w') /\ cp_dialogue [97; 0] [98; 0] r (sys_calls (user w')).
Proof. apply cp_copies; apply (bool_decide_unpack _); vm_compute; exact I. Defined.

(** The bytes that reach the destination are those the source gave, when all went well. *)
Lemma cp_written srcfd destfd xs :
  mjoin ((fun e : exchange => match e.1 with CWrite _ bs => bs | _ => [] end) <$> chunks srcfd destfd xs) =
  mjoin ((fun x => (read_value x.1 512).2) <$> xs).
Proof.
  unfold chunks. induction xs as [|x xs IH]; [done|]. cbn [fmap list_fmap mjoin list_join chunk app fst]. f_equal. exact IH.
Qed.

(** cp does not create its destination: main() gives up when stat() does not find it. *)
Lemma cp_needs_dest prog src dest a b c d t : 0 ∈ dest -> 0 <= an_ret a -> 0 <= an_ret b ->
  st_type (an_stat b) = T_FILE -> an_ret d < 0 ->
  wp (cp_main [prog; src; dest]) (fun status w' => status = 1 /\ exists out, sys_calls (user w') =
      [(COpen src O_RDONLY, Some a); (CFstat (an_ret a), Some b); (CClose (an_ret a), Some c); (COpen dest O_RDONLY, Some d)] ++ says 2 out)
    (World [] [] (Sys (a :: b :: c :: d :: t) [])).
Proof.
  intros Hn Ha Hb Hf Hd. destruct (vprintf_name "cp: cannot get info on " [10; 0] dest [10]) as [m Em]; [done..|].
  unfold cp_main, cp_check, u_stat. do 3 wp_step. eapply ask_ret_next_wp; [reflexivity|].
  rewrite (proj2 (Z.ltb_ge _ _)) by done. wp_step. eapply ask_next_wp; [reflexivity|].
  wp_step. eapply ask_ret_next_wp; [reflexivity|]. wp_step.
  rewrite (proj2 (Z.ltb_ge _ _)) by done. rewrite Hf. change ((T_FILE =? T_DIR) || (T_FILE =? T_DEVICE)) with false.
  cbv beta iota. wp_step. cbv beta iota. do 3 wp_step. eapply ask_ret_next_wp; [reflexivity|]. rewrite (proj2 (Z.ltb_lt _ _)) by done. wp_step.
  change (-1 <? 0) with true. cbv beta iota. wp_step. eapply fprintf_wp; [exact Em|]. do 2 wp_step. split; [done|]. exists m. reflexivity.
Qed.

(** ** The name ls prints *)

Lemma after_slash_spec path k n : (k <= n)%nat -> (forall i, (k <= i < n)%nat -> nth i path 0 <> 47) ->
  k = 0%nat \/ nth (k - 1) path 0 = 47 -> after_slash path n = k.
Proof.
  intros Hk Hno Hat. induction n as [|n IH]; cbn [after_slash]; [lia|]. destruct (decide (k = S n)) as [->|Hne].
  - destruct Hat as [?|Hat]; [lia|]. replace (S n - 1)%nat with n in Hat by lia. by rewrite Hat.
  - rewrite (proj2 (Z.eqb_neq _ _)) by (apply Hno; lia). apply IH; [lia|]. intros i Hi. apply Hno. lia.
Qed.

Lemma strlen_name name tail : 0 ∉ name -> strlen (name ++ 0 :: tail) = Some (length name).
Proof.
  induction name as [|c name IH]; intros Hn; [done|]. apply not_elem_of_cons in Hn as [Hc Hn]. cbn [app strlen length].
  by rewrite (proj2 (Z.eqb_neq _ _)), IH by done.
Qed.

(** What ls prints of a path: what follows its last slash, filled up with blanks to the width
    of a name in a directory. *)
Lemma fmtname_correct dir name rest : 0 ∉ dir -> 0 ∉ name -> 47 ∉ name -> (length name < DIRSIZn)%nat ->
  dir = [] \/ List.last dir 0 = 47 ->
  fmtname (dir ++ name ++ 0 :: rest) = Some (name ++ replicate (DIRSIZn - length name) 32 ++ [0]).
Proof.
  intros Hd Hn Hs Hl Hdir. unfold fmtname. rewrite app_assoc, strlen_name by set_solver. cbn [mbind option_bind].
  rewrite (after_slash_spec _ (length dir)).
  - rewrite <- app_assoc, drop_app_length, strlen_name by done. cbn [mbind option_bind].
    rewrite (proj2 (Nat.leb_gt _ _)) by done. by rewrite take_app_length.
  - len.
  - intros i Hi. rewrite <- app_assoc, app_nth2 by lia. autorewrite with klen in Hi.
    destruct (decide (i - length dir < length name)%nat).
    + rewrite app_nth1 by lia. intros E. apply Hs. rewrite <- E. apply list_elem_of_In, nth_In. lia.
    + rewrite app_nth2 by lia. replace (i - length dir - length name)%nat with 0%nat by lia. done.
  - destruct Hdir as [->|Hlast]; [by left|]. right. destruct dir as [|c dir] using rev_ind; [done|].
    rewrite last_last in Hlast. subst. rewrite length_app, <- !app_assoc. cbn [length app]. rewrite app_nth2 by lia.
    by replace (length dir + 1 - 1 - length dir)%nat with 0%nat by lia.
Qed.

(** ** cat with file names *)

(** cat writes the files it is given one after the other, however their reads are cut. *)
Lemma each_file_cat_wp msg args (fs : list (list Z * list Z)) w :
  length args = length fs -> Forall (fun f => Forall (Z.le 0) f.2) fs ->
  tl_files (user w) = Some <$> fs -> u_lims (tl_io (user w)) = [] ->
  wp (each_file 2 msg (fun _ => cat) args) (fun r w' => r = None /\
    written 1 (u_out (tl_io (user w'))) = written 1 (u_out (tl_io (user w))) ++ mjoin (fst <$> fs)) w.
Proof.
  revert fs w. induction args as [|a args IH]; intros [|[content cuts] fs] w Hlen Hc Hf Hl; try discriminate Hlen; cbn [each_file].
  - wp_step. cbn. by rewrite app_nil_r.
  - apply Forall_cons_1 in Hc as [Hcut Hc]. wp_step. unfold tool_open. do 2 wp_step. rewrite Hf. cbn [fmap list_fmap]. do 3 wp_step.
    change (3 <? 0) with false. cbv iota. do 2 wp_step. eapply wp_mono; [apply cat_wp; by rewrite Hl|].
    intros r w' (-> & Hin & Hlim & Hout). cbv iota. eapply wp_mono; [apply (IH fs); cbn; [by injection Hlen|done..]|].
    intros r w'' (-> & Hw). split; [done|]. cbn in Hw, Hout. rewrite Hw, Hout, <- app_assoc. done.
Qed.

Lemma cat_main_correct prog arg args fs : length args = length fs -> Forall (fun f => Forall (Z.le 0) f.2) fs ->
  forall f, Forall (Z.le 0) f.2 ->
  wp (cat_main (prog :: arg :: args)) (fun status w' => status = 0 /\
    written 1 (u_out (tl_io (user w'))) = mjoin (fst <$> f :: fs)) (World [] [] (Tools (Uio [] [] [] []) (Some <$> f :: fs))).
Proof.
  intros Hlen Hc f Hf. unfold cat_main. wp_step. eapply wp_mono; [apply (each_file_cat_wp _ (arg :: args) (f :: fs)); cbn [length]; [by f_equal|by constructor|done..]|].
  intros r w' (-> & Hw). wp_step. split; [done|]. rewrite Hw. done.
Qed.

(** ** init *)

(** The call that ended init, and its answer. *)
Definition init_stopped (r : ending) (c : call) (a : answer) : Prop :=
  (c = CExec (lit "sh") [lit "sh"] /\ r = (if an_ret a <? 0 then Exit 1 else Became (lit "sh"))) \/
  ((c = CFork \/ c = CWait) /\ an_ret a < 0 /\ r = Exit 1).
Definition init_over (w0 : world sys) (r : ending) (w : world sys) : Prop :=
  exists es c a out t, w = after t (es ++ (c, Some a) :: says 1 out) w0 /\ init_stopped r c a.

Definition later (w0 w : world sys) : Prop := exists t es, w = after t es w0 /\ (length t <= length (sys_script (user w0)))%nat.

Lemma later_refl w : later w w.
Proof. exists (sys_script (user w)), []. unfold after. rewrite app_nil_r. by destruct w as [? ? []]. Qed.
Lemma later_trans w w' w'' : later w w' -> later w' w'' -> later w w''.
Proof.
  intros (t & es & -> & Ht) (t' & es' & -> & Ht'). rewrite after_after. do 2 eexists. split; [reflexivity|].
  cbn [after user sys_script] in *. lia.
Qed.
Lemma init_over_later w0 w r w' : later w0 w -> init_over w r w' -> init_over w0 r w'.
Proof.
  intros (t & es & -> & _) (es' & c & a & out & t' & -> & H). rewrite after_after. exists (es ++ es'), c, a, out, t'.
  by rewrite <- app_assoc.
Qed.

Lemma later_after t es w : (length t <= length (sys_script (user w)))%nat -> later w (after t es w).
Proof. intros. by exists t, es. Qed.

Definition shorter (w w' : world sys) : Prop := (length (sys_script (user w')) < length (sys_script (user w)))%nat.

Lemma init_over_here r c a out t t' w : init_stopped r c a ->
  init_over w r (after t' (says 1 out) (after t [(c, Some a)] w)).
Proof. intros H. rewrite after_after. exists [], c, a, out, t'. done. Qed.

Lemma reap_wp pid w : 0 < pid ->
  wp (iter (S (S (length (sys_script (user w))))) (reap_turn pid) tt)
    (fun r w' => match r with None => later w w' | Some e => init_over w e w' end) w.
Proof.
  intros Hp. eapply wp_iter with (v := fun _ w => length (sys_script (user w))) (I := fun _ w' => later w w').
  - apply later_refl.
  - lia.
  - intros [] w1 Hl. unfold reap_turn. wp_step. apply ask_ret_wp. intros a t [Ht Hu].
    pose proof (later_trans _ _ _ Hl (later_after _ [(CWait, Some a)] _ Ht)) as Hl1.
    destruct (Z.eqb_spec (an_ret a) pid); [by wp_step|]. destruct (Z.ltb_spec (an_ret a) 0) as [Ha|Ha].
    + wp_step. eapply fprintf_wp; [reflexivity|]. wp_step. eapply init_over_later; [exact Hl|].
      apply init_over_here. right. by auto.
    + wp_step. split; [done|]. cbn. destruct Hu as [->|Hu]; [by cbn in Ha|done].
Qed.

Lemma init_turn_wp w :
  wp (init_turn tt) (fun r w' => match r with inl _ => later w w' /\ shorter w w' | inr e => init_over w e w' end) w.
Proof.
  unfold init_turn. wp_step. eapply fprintf_wp; [reflexivity|]. wp_step. apply ask_ret_wp. intros a t [Ht Hu].
  match goal with |- context [after _ (says 1 ?out) w] => pose proof (later_after (sys_script (user w)) (says 1 out) w (le_n _)) as H1 end.
  set (w1 := after _ _ w) in *. pose proof (later_trans _ _ _ H1 (later_after _ [(CFork, Some a)] _ Ht)) as H2.
  destruct (Z.ltb_spec (an_ret a) 0) as [Ha|Ha].
  { wp_step. eapply fprintf_wp; [reflexivity|]. wp_step. eapply init_over_later; [exact H1|].
    apply init_over_here. right. by auto. }
  destruct Hu as [->|Hu]; [by cbn in Ha|]. destruct (Z.eqb_spec (an_ret a) 0) as [H0|H0].
  - wp_step. apply ask_ret_wp. intros b t' _. destruct (Z.ltb_spec (an_ret b) 0) as [Hb|Hb].
    + wp_step. eapply fprintf_wp; [reflexivity|]. wp_step. eapply init_over_later; [exact H2|]. apply init_over_here. left. by rewrite (proj2 (Z.ltb_lt _ _)).
    + wp_step. eapply init_over_later; [exact H2|]. exists [], (CExec (lit "sh") [lit "sh"]), b, [], t'. split; [done|]. left. by rewrite (proj2 (Z.ltb_ge _ _)).
  - unfold turns. do 3 wp_step. eapply wp_mono; [apply reap_wp; lia|]. intros [e|] w' Hr; wp_step.
    + eapply init_over_later; [exact H2|exact Hr].
    + split; [by eapply later_trans|]. destruct Hr as (t' & es & -> & Hl). unfold shorter, w1 in *.
      cbn [after user sys_script] in *. lia.
Qed.

(** init never ends of its own accord: the process that goes on being init starts a shell
    each time the last one has exited, until fork() or wait() fails; what else there is of it is
    the child, which has become sh or says that it could not. *)
Lemma init_correct w : wp init_main (init_over w) w.
Proof.
  unfold init_main. wp_step. apply ask_ret_wp. intros a t [Ht _]. wp_step.
  apply wp_mono with (P := fun _ => later w).
  - pose proof (later_after _ [(COpen (lit "console") O_RDWR, Some a)] _ Ht) as Hl. destruct (an_ret a <? 0); [|by wp_step].
    wp_step. apply ask_ret_wp. intros b t' [Ht' _]. wp_step. apply ask_ret_wp. intros c t'' [Ht'' _]. wp_step.
    eapply later_trans; [exact Hl|]. eapply later_trans; by apply later_after.
  - intros [] w1 Hl. do 2 (wp_step; apply ask_ret_wp; intros ?? [? _]). unfold turns. do 2 wp_step.
    eapply wp_iter with (v := fun _ w => length (sys_script (user w))) (I := fun _ w' => later w w').
    + eapply later_trans; [exact Hl|]. eapply later_trans; by apply later_after.
    + cbn. lia.
    + intros [] w2 Hl2. eapply wp_mono; [apply init_turn_wp|]. intros [[]|e] w3.
      * intros [Hl3 Hs]. split; [by eapply later_trans|exact Hs].
      * by apply init_over_later.
Qed.

(** A read() that fails ends cp with status 0 all the same. *)
Example cp_read_error_status :
  let file := Answer 0 [] (Stat 0 0 T_FILE 1 1) (0, 0) in
  (fun r => match r with Ret (status, _) => Some status | _ => None end)
    (cp_main [[0]; [97; 0]; [98; 0]] (World [] [] (Sys
       [demo_answer 3 []; file; demo_answer 0 []; demo_answer 3 []; file; demo_answer 0 [];
        demo_answer 3 []; demo_answer 4 []; demo_answer (-1) []] []))) = Some 0.
Proof. vm_compute. reflexivity. Qed.
